(* ===== verification/_CoqProject ===== *)
-Q . S2P
Prelude.v
Text.v
RecordSet.v
Config.v
Validation.v
ConfigFile.v
Externals.v
Json.v
Domain.v
RuntimeMode.v
StrategyControl.v
Identifiers.v
Facts.v
Store.v
Apply.v
Reconcile.v
StoreInvariants.v
Snapshot.v
Risk.v
Plans.v
Recovery.v
Orders.v
Execution.v
Dispatch.v
Journal.v
Runtime.v
Pricing.v
NegRisk.v
Exposure.v
LiveRecords.v
Discovery.v
Rows.v
AppConfig.v
Schema.v
RepoJournal.v
RepoExecution.v
RepoSessions.v
RepoControl.v
RepoCatalog.v
RepoInvariants.v
RepoHistory.v
StoreProofs.v
ConfigProofs.v
ConfigRewrite.v
Command.v
Startup.v
Targets.v
Migration.v
Adoption.v
Status.v
ControlProofs.v
Supervisor.v
Durable.v
DurableProofs.v
SupervisorProofs.v
SupervisorInvariants.v
WsMessages.v
VenueSessions.v
Gateway.v
Submit.v
Metadata.v
Tasks.v
SubmitProofs.v
MetadataProofs.v
TaskProofs.v
SdkBackend.v
LiveBackend.v
LiveProofs.v
Daemon.v
RunProofs.v
L2Probe.v
L2ProbeProofs.v
WsClient.v
WsClientProofs.v
Reads.v
Replay.v
ReplayProofs.v
Verify.v
VerifyProofs.v
