(* ===== verification/Prelude.v ===== *)
(** * AxiomArb: a verification library for the Polymarket live engine

    The repository is a trading engine for Polymarket: facts arrive from the venue
    and from the engine's own executions, are written to a journal, applied in
    journal order to one authoritative state store, published as snapshots, judged
    by a risk policy, and executed through live or shadow sinks; a restart
    rebuilds the state from the committed history and checks it against durable
    anchors. Around this core are a PostgreSQL store with its repositories, a
    configuration file that the control plane edits when a revision is adopted or
    rolled back, the clients of the venue, and the commands that run it all. This
    library models the core and what surrounds it, one file per component, translated
    from the Rust sources under [src/crates].

    ** Files

    Shared:
    - [Prelude]: outcomes ([outcome], a value or a panic; [result]), machine
      integers, comparison functions as type classes, stable sorting, [BTreeMap]
      iteration over [gmap], [collect] into a map, strings; their lemmas, the
      hint database [axiom] and the tactics [crush_match] and [breflect].
    - [Text]: decimal and separator lemmas, on which the identity theorems rest;
      the text functions of Rust's standard library the sources use.
    - [RecordSet]: the record update notation of the stores ([r <| f := v |>]).
    - [Externals]: [rust_decimal], [chrono], [serde_json] and [sha2] as one class
      of operations, laws in classes of their own, and [Micros], a concrete
      instance on which every definition runs. [Json]: JSON values.

    Data ([crates/domain]):
    - [Domain] (candidates, decision, execution, facts, inventory, order,
      resolution), [RuntimeMode] (runtime_mode.rs), [StrategyControl]
      (strategy_control.rs), [Identifiers] (identifiers.rs).

    State ([crates/state], [crates/journal]):
    - [Facts] (facts.rs): fact keys, anchors and apply hints.
    - [Store] (store.rs, bootstrap.rs): [StateStore] and all its operations.
    - [Apply] (apply.rs): [StateApplier::apply], against the abstract log
      [FactLog].
    - [Reconcile] (reconcile.rs): comparison with a remote snapshot and adoption.
    - [StoreInvariants]: the operations of the store as a transition system.
    - [Snapshot] (snapshot.rs, candidate.rs): the published views.
    - [Journal] (writer.rs, replay.rs): appends of concurrent tasks.

    Decision and execution ([crates/risk], [crates/execution], [crates/recovery]):
    - [Risk] (rollout, activation, engine, negrisk, fullset).
    - [Plans] (plans, negrisk, attempt, signing): plan and attempt identities.
    - [Recovery] (coordinator, locks).
    - [Orders] (orders, ctf): retries of signed orders, the CTF tracker.
    - [Execution] (sink, providers, orchestrator): the sinks behind the class
      [VenueSink], the adapters, the orchestrator.

    Strategies ([crates/strategy-fullset], [crates/strategy-negrisk],
    [domain/src/negrisk.rs]):
    - [Pricing] (pricing.rs, intent.rs): the net edge of a full set.
    - [NegRisk] (graph, validator, intent, family halts): families built from
      venue metadata and identifier records.
    - [Exposure] (exposure.rs, [NegRiskExposureVector]): the exposure of an
      inventory to a family.

    Persistence ([crates/persistence]):
    - [Rows] (models.rs): the rows and their conversions. [Schema]: the tables of the
      migrations as a record of maps ([Db]), statements ([Tx]), sessions ([Schedule])
      and pools ([Pool]).
    - [RepoJournal], [RepoExecution], [RepoSessions], [RepoControl], [RepoCatalog]
      (repos.rs): every repository, one definition per query.
    - [RepoInvariants] (the histories of the store, [evolves], and its integrity
      [db_wf]), [RepoHistory] (every operation keeps it), [StoreProofs] (idempotence,
      what is written once, which adoption is the latest).

    Configuration and control plane ([crates/config-schema], [app-live]):
    - [Config] (raw.rs, lib.rs), [Validation] (validate.rs), [AppConfig] (config.rs of
      the application), [ConfigFile] (targets/config_file.rs); [ConfigProofs] and
      [ConfigRewrite] are their theorems.
    - [Command]: how a command runs on the pool and on the file. [Startup] (startup.rs,
      resolver.rs, route_registry.rs, route_adapters), [Targets] (targets/state.rs),
      [Migration] (migration.rs), [Adoption] (targets/adopt.rs, rollback.rs), [Status]
      (commands/status, run_session.rs); [ControlProofs] are their theorems.

    Application ([crates/app-live]):
    - [Dispatch] (dispatch.rs, the snapshot queue of queues.rs), against a
      specification of two dirty versions and two ready snapshots.
    - [Runtime] (runtime.rs, bootstrap.rs, input_tasks.rs, the ingress queue of
      queues.rs): [AppRuntime], its publications and its replay.
    - [LiveRecords] (the targets of config.rs, negrisk_live.rs, negrisk_shadow.rs,
      [venue-polymarket/src/orders.rs]): which families are executed, and what is
      recorded of them.
    - [Discovery] (discovery.rs, the candidate queue of queues.rs): what a candidate
      publication becomes.
    - [Supervisor] (supervisor.rs, snapshot_meta.rs, posture.rs): [AppSupervisor] with
      every run, over a world its backend and database act on; [SupervisorProofs]
      (drain, resume, use of the backend) and [SupervisorInvariants] (what is shown,
      startup restore) hold its theorems.
    - [Durable] (the persistence half of runtime.rs): what is loaded at a start and
      written after a run; [DurableProofs].
    - [Tasks] (task_groups.rs, the follow-up queue of queues.rs), [TaskProofs].
    - [LiveBackend] (polymarket_runtime_adapter.rs), [LiveProofs].
    - [Daemon] (daemon.rs, smoke.rs, source_tasks.rs, commands/run.rs): a run from the
      configuration file to the end of its session; [RunProofs].

    Venue ([crates/venue-polymarket]):
    - [WsMessages] (ws_market.rs, ws_user.rs), [VenueSessions] (ws_session.rs,
      heartbeat.rs), [Gateway] (gateway.rs, retry.rs, relayer.rs, errors), [Submit]
      (negrisk_live.rs, orders.rs), [Metadata] (metadata.rs), [SdkBackend]
      (sdk_backend): the clients over the SDK; [SubmitProofs], [MetadataProofs].
    - [L2Probe] (l2_probe.rs): the signed request that probes the credentials, with its
      HMAC and its base64; [L2ProbeProofs].
    - [WsClient] (ws_client.rs): the websocket client over a source of messages;
      [WsClientProofs].

    After the fact:
    - [Replay] ([crates/app-replay]): the journal replayed into a consumer, and the
      reports on families, candidates and shadow attempts. [Verify] (commands/verify): the
      verdict on a run. [Reads] (programs that leave the tables alone, and how their runs
      are taken apart), [ReplayProofs] and [VerifyProofs] are their theorems.

    A method taking [&mut self] is a function from states to states, returning a
    pair when it also returns a value; a handler that may fail returns [result]; a
    panic is the value [Panics] of [outcome]. Names are those of the source, with
    the component's name in front where two crates share one.

    ** What the theorems show

    - Facts are applied in journal order and exactly once: [apply] refines the
      deduplicating log, replaying is idempotent, redelivery moves only the
      cursor, errors are characterised ([Apply]); appends are numbered without
      gaps under every interleaving ([Journal]).
    - The store stays well formed and its posture safe under every sequence of
      its operations: pending anchors block expansion ([StoreInvariants]).
    - A reconcile adopts a snapshot exactly when it agrees with the store, does
      not depend on hash order, and accepts the same snapshot again
      ([Reconcile]).
    - What is published is current, and stays so until it is withdrawn
      ([Snapshot], [Runtime]); no dirty version is lost by the dispatch loop
      ([Dispatch]); a restart rebuilds what was committed ([Runtime]).
    - The risk policy decides as its rules say, and clamps are never bypassed
      ([Risk]); nothing is submitted unless the plan, the verdict and the mode of
      the sink allow it, and receipts report what the venue answered
      ([Execution]).
    - A priced edge never overstates what the legs return ([Pricing]); the family
      graph groups each metadata row once ([NegRisk]), and exposures account for
      every row of the inventory, whatever the hash order ([Exposure]).
    - The supervisor drains its queue to the end and commits exactly what it takes;
      what it committed can be resumed, and a seeded startup restores the durable
      position; the live backend is used only with licence ([SupervisorProofs]). What it
      shows is always about the snapshot it publishes ([SupervisorInvariants]).
    - A batch executes exactly the ready and approved families ([LiveRecords]);
      candidate revisions do not depend on order ([Discovery]).
    - Identities identify: plans, attempts, strategy digests, recovery scopes
      ([Plans], [Recovery], [StrategyControl]); tracked orders and CTF operations
      follow their life cycles ([Orders]).
    - The database keeps its integrity along every history of any number of sessions,
      interrupted anywhere; recorded rows never change, sessions follow their life
      cycle, and what is recorded can be loaded ([RepoHistory]). Batches are idempotent
      and artifacts written once ([StoreProofs]).
    - What a run saves is what the next start finds ([DurableProofs]), up to the
      findings recorded there.
    - A validated live configuration gives the application all it needs
      ([ConfigProofs]); a rewrite changes what it means to change and never loses the
      file ([ConfigRewrite]). An adopted revision is the one the next start runs, a
      rollback undoes an adoption, and the status finds the session of a start
      ([ControlProofs]).
    - A submission of a family does what its specification says, and its outcome can be
      reconciled ([SubmitProofs]); discovery reads the whole listing whatever the order
      of its events ([MetadataProofs]); what the heartbeat tasks can report
      ([TaskProofs]).
    - The order that reaches the SDK is the order that was signed, and a live family is
      recorded as it was sent ([LiveProofs]).
    - A run is a history of the store, writes down how it ended, and leaves the venue
      alone unless its configuration licenses trading ([RunProofs]).
    - The venue can check the signature of a probe from what it receives, and base64 is
      read back as it was written ([L2ProbeProofs]); the events of the market channel are
      handed out in the order they arrived, each once ([WsClientProofs]).
    - Replaying the journal in pages is replaying it at once, and what is reported of a
      family leads to the members that were recorded ([ReplayProofs]). A verdict is earned
      by the evidence, and a smoke run that is verified left no live attempt in its window
      ([VerifyProofs]).

    ** Choices and bounds

    Unsigned and signed machine integers are [Z], with the wrap-around of a
    release build where the code adds ([u64_add], [i64_add]); theorems that need
    absence of overflow say so; [debug_assert] is left out. Four loops need fuel: the
    supervisor's drain, which searches its queue again after each removal (the length of
    the queue is enough, [SupervisorProofs.drain_terminates]); [trim_start_matches] (the
    length of the string); the pages of a discovery (one more than the pages of the
    listing, [MetadataProofs.discovery_reads_listing]); the messages the websocket client
    passes over before one that holds an event (the messages the source holds,
    [WsClientProofs.market_channel_in_order]). Every other loop iterates over a
    list or counts its attempts.

    [HashMap]s and [HashSet]s are [gmap]s and [gset]s; where their iteration order can be
    observed it is the parameter [HashOrder], and the theorems quantify over it. Strings
    are byte strings; [debug_str] renders Rust's [Debug] for the printable ASCII strings
    that reach it. SHA-256, decimals, instants, JSON and TOML texts, URLs, the SDK, the
    collation of the database and the precision of its times are parameters, each a class
    of operations with a class of laws where a theorem needs one; every class has a
    concrete instance, on which the witnesses run. The texts of library errors are
    parameters or left out.

    A statement or a transaction is one step; between two steps other sessions commit what
    they like ([fr_commits]) and the connection may be lost ([fr_up]). Numbers taken from a
    sequence survive a rollback. JSONB values compare by identity. The configuration file is
    edited by nobody else while a command runs. The venue and the SDK act on a world of
    their own ([World]); the handle of the async runtime is a parameter.

    ** What is not modelled

    Metrics and tracing (nothing reads them back); the connections under the HTTP and
    websocket clients, with or without a proxy, and the requests the SDK builds; the
    terminal commands apply, bootstrap, init, doctor and discover, which prompt, print and
    call the components above. *)

From stdpp Require Export prelude gmap strings pretty list sorting.
From Stdlib Require Export ZArith Lia.

#[global] Open Scope Z_scope.

(** ** Outcomes and results

    [outcome] separates a value from a Rust panic ([expect], arithmetic of a
    third-party type that aborts); [result] is Rust's [Result]. *)

Inductive outcome (A : Type) : Type :=
| Returns (a : A)
| Panics.
Arguments Returns {_} _.
Arguments Panics {_}.

#[export] Instance outcome_ret : MRet outcome := @Returns.
#[export] Instance outcome_bind : MBind outcome := λ A B f m,
  match m with Returns a => f a | Panics => Panics end.

(** [o.expect(..)]: the value, or a panic. *)
Definition expect {A} (o : option A) : outcome A :=
  match o with Some a => Returns a | None => Panics end.

Inductive result (E A : Type) : Type :=
| Ok (a : A)
| Err (e : E).
Arguments Ok {_ _} _.
Arguments Err {_ _} _.

#[export] Instance result_ret {E} : MRet (result E) := λ A a, Ok a.
#[export] Instance result_bind {E} : MBind (result E) := λ A B f m,
  match m with Ok a => f a | Err e => Err e end.

Definition is_ok {E A} (r : result E A) : bool :=
  match r with Ok _ => true | Err _ => false end.

(** [o.ok_or(e)] *)
Definition ok_or {E A} (o : option A) (e : E) : result E A :=
  match o with Some a => Ok a | None => Err e end.

(** [r.map_err(f)] *)
Definition map_err {E F A} (f : E → F) (r : result E A) : result F A :=
  match r with Ok a => Ok a | Err e => Err (f e) end.

(** [?] under a possible panic *)
Definition try_then {E A B} (m : outcome (result E A)) (f : A → outcome (result E B)) :
    outcome (result E B) :=
  r ← m; match r with Ok a => f a | Err e => Returns (Err e) end.

Notation "x ←? m ; f" := (try_then m (λ x, f))
  (at level 20, m at level 100, f at level 200, right associativity).

(** A loop whose body may panic. *)
Fixpoint outcome_fold {S A} (f : S → A → outcome S) (s : S) (l : list A) : outcome S :=
  match l with
  | [] => Returns s
  | x :: l' => s' ← f s x; outcome_fold f s' l'
  end.

(** A loop whose body may panic or return early with an error. *)
Fixpoint try_outcome_fold {S A E} (f : S → A → outcome (result E S)) (s : S) (l : list A) :
    outcome (result E S) :=
  match l with
  | [] => Returns (Ok s)
  | x :: l' => s' ←? f s x; try_outcome_fold f s' l'
  end.

(** [collect::<Result<Vec<_>, _>>()] *)
Fixpoint collect_results {E A B} (f : A → result E B) (l : list A) : result E (list B) :=
  match l with
  | [] => Ok []
  | x :: l' => y ← f x; ys ← collect_results f l'; Ok (y :: ys)
  end.

(** ** Machine integers

    Arithmetic wraps, as in a release build. *)

Definition u32_add (a b : Z) : Z := (a + b) `mod` 2 ^ 32.
Definition u64_add (a b : Z) : Z := (a + b) `mod` 2 ^ 64.
Definition i64_add (a b : Z) : Z := (a + b + 2 ^ 63) `mod` 2 ^ 64 - 2 ^ 63.

(** The bit pattern of a [u64] read as an [i64] ([x as i64]). *)
Definition u64_as_i64 (a : Z) : Z := (a + 2 ^ 63) `mod` 2 ^ 64 - 2 ^ 63.

(** ** Comparison functions, as [Ord::cmp] and the closures of [sort_by] *)

Class TotalPreorder {A} (cmp : A → A → comparison) : Prop := {
  cmp_opp a b : cmp b a = CompOpp (cmp a b);
  cmp_trans a b c : cmp a b ≠ Gt → cmp b c ≠ Gt → cmp a c ≠ Gt;
}.

Class CmpEq {A} (cmp : A → A → comparison) : Prop :=
  cmp_eq a b : cmp a b = Eq → a = b.

Definition cmp_le {A} (cmp : A → A → comparison) (a b : A) : Prop := cmp a b ≠ Gt.

Definition then_with (c d : comparison) : comparison :=
  match c with Eq => d | _ => c end.

Definition cmp_on {A B} (key : A → B) (cmp : B → B → comparison) (a b : A) : comparison :=
  cmp (key a) (key b).

Definition cmp_lex {A B} (ca : A → A → comparison) (cb : B → B → comparison)
    (x y : A * B) : comparison :=
  then_with (ca x.1 y.1) (cb x.2 y.2).

(** Strings are byte sequences; Rust orders them bytewise. *)
Definition str_cmp : string → string → comparison := String.compare.

(** [Option]'s derived order: [None] first. *)
Definition opt_cmp {A} (cmp : A → A → comparison) (x y : option A) : comparison :=
  match x, y with
  | None, None => Eq
  | None, Some _ => Lt
  | Some _, None => Gt
  | Some a, Some b => cmp a b
  end.

Definition bool_cmp (a b : bool) : comparison :=
  match a, b with
  | false, true => Lt
  | true, false => Gt
  | _, _ => Eq
  end.

(** [slice::sort_by] is stable: insertion sort computes the same list. *)
Fixpoint insert_by {A} (cmp : A → A → comparison) (x : A) (l : list A) : list A :=
  match l with
  | [] => [x]
  | y :: l' =>
      match cmp x y with
      | Gt => y :: insert_by cmp x l'
      | _ => x :: y :: l'
      end
  end.

Definition sort_by {A} (cmp : A → A → comparison) (l : list A) : list A :=
  foldr (insert_by cmp) [] l.

(** [BTreeMap] iteration: the entries in key order. *)
Definition btree_entries {K V} `{Countable K} (cmp : K → K → comparison)
    (m : gmap K V) : list (K * V) :=
  sort_by (cmp_on fst cmp) (map_to_list m).

Definition btree_keys {K V} `{Countable K} (cmp : K → K → comparison)
    (m : gmap K V) : list K := (btree_entries cmp m).*1.

Definition btree_values {K V} `{Countable K} (cmp : K → K → comparison)
    (m : gmap K V) : list V := (btree_entries cmp m).*2.

(** [iter().max()] over integers. *)
Fixpoint max_list (l : list Z) : option Z :=
  match l with
  | [] => None
  | x :: l' => Some (match max_list l' with Some y => Z.max x y | None => x end)
  end.

(** [iter().map(|x| (key(x), x)).collect::<Map<_, _>>()]: later entries win. *)
Definition collect_map {K V} `{Countable K} (l : list (K * V)) : gmap K V :=
  foldl (λ m kv, <[kv.1 := kv.2]> m) ∅ l.

(** ** Strings *)

(** [s.strip_prefix(p)] *)
Fixpoint strip_prefix (p s : string) : option string :=
  match p, s with
  | EmptyString, _ => Some s
  | String c p', String d s' => if decide (c = d) then strip_prefix p' s' else None
  | String _ _, EmptyString => None
  end.

Definition starts_with_char (c : Ascii.ascii) (s : string) : bool :=
  match s with String d _ => bool_decide (c = d) | EmptyString => false end.

(** [parts.join(sep)] *)
Fixpoint join (sep : string) (parts : list string) : string :=
  match parts with
  | [] => ""
  | [p] => p
  | p :: ps => p +:+ sep +:+ join sep ps
  end.

Definition str_len (s : string) : Z := Z.of_nat (String.length s).

(** ** Lemmas *)

Create HintDb axiom.

(** Case analysis on every [match] and [decide] of the goal and hypotheses. *)
Ltac crush_match := repeat (case_match; simplify_eq/=; try done).

(** Splits boolean conjunctions and reflects [bool_decide]. *)
Ltac breflect :=
  repeat match goal with
  | H : context [_ && _ = true] |- _ => rewrite andb_true_iff in H
  | H : context [_ || _ = true] |- _ => rewrite orb_true_iff in H
  | H : context [negb _ = true] |- _ => rewrite negb_true_iff in H
  | H : context [_ && _ = false] |- _ => rewrite andb_false_iff in H
  | H : context [_ || _ = false] |- _ => rewrite orb_false_iff in H
  | H : context [negb _ = false] |- _ => rewrite negb_false_iff in H
  | H : context [bool_decide _ = true] |- _ => rewrite bool_decide_eq_true in H
  | H : context [bool_decide _ = false] |- _ => rewrite bool_decide_eq_false in H
  | |- context [_ && _ = true] => rewrite andb_true_iff
  | |- context [_ || _ = true] => rewrite orb_true_iff
  | |- context [negb _ = true] => rewrite negb_true_iff
  | |- context [_ && _ = false] => rewrite andb_false_iff
  | |- context [_ || _ = false] => rewrite orb_false_iff
  | |- context [negb _ = false] => rewrite negb_false_iff
  | |- context [bool_decide _ = true] => rewrite bool_decide_eq_true
  | |- context [bool_decide _ = false] => rewrite bool_decide_eq_false
  end.

Section comparisons.
Context {A : Type} (cmp : A → A → comparison) `{!TotalPreorder cmp}.

#[export] Instance cmp_le_dec : RelDecision (cmp_le cmp).
Proof. intros a b. unfold cmp_le. destruct (cmp a b); [left|left|right]; congruence. Defined.

Lemma cmp_refl a : cmp a a = Eq.
Proof. pose proof (cmp_opp (cmp := cmp) a a) as E. by destruct (cmp a a). Qed.

#[export] Instance cmp_le_preorder : PreOrder (cmp_le cmp).
Proof.
  split; [intros a; unfold cmp_le; by rewrite cmp_refl|].
  intros a b c. apply cmp_trans.
Qed.

#[export] Instance cmp_le_total : Total (cmp_le cmp).
Proof.
  intros a b. unfold cmp_le. rewrite (cmp_opp (cmp := cmp) a b).
  destruct (cmp a b); simpl; auto.
Qed.

Lemma cmp_le_both a b : cmp_le cmp a b → cmp_le cmp b a → cmp a b = Eq.
Proof.
  unfold cmp_le. rewrite (cmp_opp (cmp := cmp) a b). by destruct (cmp a b).
Qed.

#[export] Instance cmp_le_antisymm `{!CmpEq cmp} : AntiSymm (=) (cmp_le cmp).
Proof. intros a b ??. by apply cmp_eq, cmp_le_both. Qed.

Lemma cmp_Gt_le a b : cmp a b = Gt → cmp_le cmp b a.
Proof. unfold cmp_le. intros E. by rewrite (cmp_opp (cmp := cmp) a b), E. Qed.

(** *** Sorting *)

Lemma insert_by_Permutation x l : insert_by cmp x l ≡ₚ x :: l.
Proof.
  induction l as [|y l IH]; simpl; [done|].
  destruct (cmp x y); [done|done|]. rewrite IH. apply Permutation_swap.
Qed.

Lemma sort_by_Permutation l : sort_by cmp l ≡ₚ l.
Proof.
  induction l as [|x l IH]; simpl; [done|]. by rewrite insert_by_Permutation, IH.
Qed.

Lemma insert_by_sorted x l :
  StronglySorted (cmp_le cmp) l → StronglySorted (cmp_le cmp) (insert_by cmp x l).
Proof.
  induction 1 as [|y l Hs IH Hy]; simpl; [by repeat constructor|].
  destruct (cmp x y) eqn:E.
  - assert (cmp_le cmp x y) by (unfold cmp_le; congruence).
    constructor; [by constructor|]. constructor; [done|].
    eapply Forall_impl; [done|]. intros z ?. by etrans.
  - assert (cmp_le cmp x y) by (unfold cmp_le; congruence).
    constructor; [by constructor|]. constructor; [done|].
    eapply Forall_impl; [done|]. intros z ?. by etrans.
  - constructor; [done|]. rewrite insert_by_Permutation.
    constructor; [by apply cmp_Gt_le|done].
Qed.

Lemma sort_by_sorted l : StronglySorted (cmp_le cmp) (sort_by cmp l).
Proof. induction l; simpl; [constructor|by apply insert_by_sorted]. Qed.

Lemma sort_by_id l : StronglySorted (cmp_le cmp) l → sort_by cmp l = l.
Proof.
  induction 1 as [|x l Hs IH Hx]; simpl; [done|]. rewrite IH.
  destruct l as [|y l]; simpl; [done|]. inversion_clear Hx.
  unfold cmp_le in *. by destruct (cmp x y).
Qed.

(** A sorted list is canonical: any other enumeration of the same elements
    sorts to the same list, so [HashMap] iteration order cannot escape. *)
Lemma sort_by_canonical `{!CmpEq cmp} l1 l2 : l1 ≡ₚ l2 → sort_by cmp l1 = sort_by cmp l2.
Proof.
  intros Hp. eapply (StronglySorted_unique (cmp_le cmp)); [apply sort_by_sorted..|].
  by rewrite !sort_by_Permutation.
Qed.

Lemma elem_of_sort_by x l : x ∈ sort_by cmp l ↔ x ∈ l.
Proof. by rewrite sort_by_Permutation. Qed.

Lemma length_sort_by l : length (sort_by cmp l) = length l.
Proof. by rewrite sort_by_Permutation. Qed.
End comparisons.

#[export] Hint Resolve sort_by_Permutation sort_by_sorted : axiom.

Section keys.
Context {A B : Type} (key : A → B) (cmp : B → B → comparison).

#[export] Instance cmp_on_total `{!TotalPreorder cmp} : TotalPreorder (cmp_on key cmp).
Proof.
  split; unfold cmp_on; intros.
  - apply cmp_opp.
  - by eapply cmp_trans.
Qed.

Lemma map_insert_by_on x l :
  map key (insert_by (cmp_on key cmp) x l) = insert_by cmp (key x) (map key l).
Proof.
  induction l as [|y l IH]; simpl; [done|]. unfold cmp_on at 1.
  destruct (cmp (key x) (key y)); simpl; congruence.
Qed.

(** Sorting by a key and reading the keys is sorting the keys. *)
Lemma map_sort_by_on l : map key (sort_by (cmp_on key cmp) l) = sort_by cmp (map key l).
Proof. induction l; simpl; [done|]. rewrite map_insert_by_on. congruence. Qed.

(** Sorting by a key that identifies the elements is canonical. *)
Lemma sort_by_on_canonical `{!TotalPreorder cmp, !CmpEq cmp} l1 l2 :
  NoDup (key <$> l1) → l1 ≡ₚ l2 → sort_by (cmp_on key cmp) l1 = sort_by (cmp_on key cmp) l2.
Proof.
  intros Hnd Hp. apply (StronglySorted_unique_strong (cmp_le (cmp_on key cmp))).
  - intros x y Hx Hy Hle1 Hle2. rewrite (elem_of_sort_by (cmp_on key cmp)) in Hx, Hy.
    rewrite <- Hp in Hy.
    assert (key x = key y) as E by (by apply (cmp_eq (cmp := cmp)), cmp_le_both).
    apply list_elem_of_lookup in Hx as [i Hi], Hy as [j Hj].
    assert (i = j) as ->; [|congruence].
    eapply (NoDup_lookup _ _ _ (key x) Hnd); rewrite list_lookup_fmap; [by rewrite Hi|].
    by rewrite Hj, E.
  - apply sort_by_sorted, _.
  - apply sort_by_sorted, _.
  - by rewrite !(sort_by_Permutation (cmp_on key cmp)).
Qed.
End keys.

Section lex.
Context {A B : Type} (ca : A → A → comparison) (cb : B → B → comparison).

#[export] Instance cmp_lex_total `{!TotalPreorder ca, !TotalPreorder cb} :
  TotalPreorder (cmp_lex ca cb).
Proof.
  split; unfold cmp_lex, then_with.
  - intros [a1 b1] [a2 b2]; simpl. rewrite (cmp_opp (cmp := ca) a1 a2).
    destruct (ca a1 a2); simpl; auto using cmp_opp.
  - intros [a1 b1] [a2 b2] [a3 b3]; simpl. intros H12 H23.
    pose proof (cmp_trans (cmp := ca) a1 a2 a3) as T.
    pose proof (cmp_trans (cmp := ca) a3 a1 a2) as T2.
    pose proof (cmp_trans (cmp := ca) a2 a3 a1) as T3.
    pose proof (cmp_trans (cmp := cb) b1 b2 b3) as Tb.
    rewrite (cmp_opp (cmp := ca) a1 a3) in T2, T3.
    rewrite (cmp_opp (cmp := ca) a2 a3) in T2.
    rewrite (cmp_opp (cmp := ca) a1 a2) in T3.
    destruct (ca a1 a2), (ca a2 a3), (ca a1 a3); simpl in *; naive_solver.
Qed.

#[export] Instance cmp_lex_eq `{!CmpEq ca, !CmpEq cb} : CmpEq (cmp_lex ca cb).
Proof.
  intros [a1 b1] [a2 b2]. unfold cmp_lex, then_with; simpl. intros H.
  destruct (ca a1 a2) eqn:E; try done. by rewrite (cmp_eq _ _ E), (cmp_eq _ _ H).
Qed.
End lex.

#[export] Instance str_cmp_total : TotalPreorder str_cmp.
Proof.
  split; [intros; apply String.compare_antisym|].
  assert (∀ a b, str_cmp a b ≠ Gt ↔ String.le a b) as E.
  { intros a b. unfold str_cmp, String.le, String.leb.
    destruct (String.compare a b); naive_solver. }
  intros a b c. rewrite !E. intros. by etrans.
Qed.

#[export] Instance str_cmp_eq : CmpEq str_cmp.
Proof. intros a b. apply String.compare_eq_iff. Qed.

#[export] Instance Z_compare_total : TotalPreorder Z.compare.
Proof.
  split; [intros; apply Z.compare_antisym|]. intros a b c. rewrite !Z.compare_ngt_iff. lia.
Qed.

#[export] Instance Z_compare_eq : CmpEq Z.compare.
Proof. intros a b. apply Z.compare_eq. Qed.

#[export] Instance bool_cmp_total : TotalPreorder bool_cmp.
Proof. split; [by intros [] []|by intros [] [] []]. Qed.

#[export] Instance bool_cmp_eq : CmpEq bool_cmp.
Proof. by intros [] []. Qed.

#[export] Instance opt_cmp_total {A} (cmp : A → A → comparison) `{!TotalPreorder cmp} :
  TotalPreorder (opt_cmp cmp).
Proof.
  split; [intros [a|] [b|]; simpl; auto using cmp_opp|].
  intros [a|] [b|] [c|]; simpl; try done. apply cmp_trans.
Qed.

#[export] Instance opt_cmp_eq {A} (cmp : A → A → comparison) `{!CmpEq cmp} :
  CmpEq (opt_cmp cmp).
Proof. intros [a|] [b|]; simpl; try done. intros ?%cmp_eq. congruence. Qed.

(** *** [BTreeMap] iteration *)

Section btree.
Context {K V : Type} `{Countable K} (cmp : K → K → comparison) `{!TotalPreorder cmp}.
Implicit Types m : gmap K V.

Lemma btree_entries_Permutation m : btree_entries cmp m ≡ₚ map_to_list m.
Proof. apply sort_by_Permutation. Qed.

Lemma elem_of_btree_entries m k v : (k, v) ∈ btree_entries cmp m ↔ m !! k = Some v.
Proof. unfold btree_entries. rewrite elem_of_sort_by. apply elem_of_map_to_list. Qed.

Lemma elem_of_btree_values m v : v ∈ btree_values cmp m ↔ ∃ k, m !! k = Some v.
Proof.
  unfold btree_values. rewrite list_elem_of_fmap. split.
  - intros ([k ?] & -> & ?%elem_of_btree_entries). eauto.
  - intros [k ?%elem_of_btree_entries]. by exists (k, v).
Qed.

Lemma elem_of_btree_keys m k : k ∈ btree_keys cmp m ↔ is_Some (m !! k).
Proof.
  unfold btree_keys. rewrite list_elem_of_fmap. split.
  - intros ([? v] & -> & ?%elem_of_btree_entries). eauto.
  - intros [v ?%elem_of_btree_entries]. by exists (k, v).
Qed.

Lemma NoDup_btree_keys m : NoDup (btree_keys cmp m).
Proof. unfold btree_keys. rewrite btree_entries_Permutation. apply NoDup_fst_map_to_list. Qed.

Lemma btree_keys_sorted m : StronglySorted (cmp_le cmp) (btree_keys cmp m).
Proof.
  unfold btree_keys, btree_entries. change (list_fmap _ _ ?f) with (map f).
  rewrite map_sort_by_on. apply sort_by_sorted, _.
Qed.

(** A list of the map's entries in key order is its iteration. *)
Lemma btree_entries_eq `{!CmpEq cmp} m l :
  StronglySorted (cmp_le (cmp_on fst cmp)) l → map_to_list m ≡ₚ l → btree_entries cmp m = l.
Proof.
  intros Hs Hp. apply (StronglySorted_unique_strong (cmp_le (cmp_on fst cmp))).
  - intros [k1 v1] [k2 v2] H1 H2 Hle1 Hle2. rewrite <- Hp in H2.
    apply elem_of_btree_entries in H1. apply elem_of_map_to_list in H2.
    assert (k1 = k2) as -> by (apply (cmp_eq (cmp := cmp)), cmp_le_both; done). congruence.
  - apply sort_by_sorted, _.
  - done.
  - by rewrite btree_entries_Permutation.
Qed.

Lemma length_btree_keys m : length (btree_keys cmp m) = size m.
Proof.
  unfold btree_keys. rewrite length_fmap, btree_entries_Permutation.
  apply length_map_to_list.
Qed.
End btree.

Lemma btree_entries_fmap {K V W} `{Countable K} (cmp : K → K → comparison)
    `{!TotalPreorder cmp, !CmpEq cmp} (f : V → W) (m : gmap K V) :
  btree_entries cmp (f <$> m) = prod_map id f <$> btree_entries cmp m.
Proof.
  apply (btree_entries_eq cmp).
  - assert (StronglySorted (cmp_le (cmp_on fst cmp)) (btree_entries cmp m)) as Hs
      by (apply (sort_by_sorted (cmp_on fst cmp))).
    induction Hs as [|x l _ IH Hx]; [constructor|]. csimpl. constructor; [done|].
    by apply Forall_fmap.
  - by rewrite map_to_list_fmap, btree_entries_Permutation.
Qed.

(** *** [collect] into a map *)

Section collect.
Context {K V : Type} `{Countable K}.
Implicit Types l : list (K * V).

Lemma collect_map_nil : collect_map (K := K) (V := V) [] = ∅.
Proof. done. Qed.

Lemma collect_map_snoc l k v : collect_map (l ++ [(k, v)]) = <[k := v]> (collect_map l).
Proof. unfold collect_map. by rewrite foldl_app. Qed.

Lemma collect_map_lookup_is_Some l k : is_Some (collect_map l !! k) ↔ k ∈ l.*1.
Proof.
  induction l as [|[k' v] l IH] using rev_ind.
  { rewrite collect_map_nil, lookup_empty. split; [by intros []|set_solver]. }
  rewrite collect_map_snoc, fmap_app, elem_of_app; simpl.
  rewrite lookup_insert_is_Some, IH. destruct (decide (k' = k)); set_solver.
Qed.

(** The value found is that of the last entry with the key. *)
Lemma collect_map_lookup l k v :
  collect_map l !! k = Some v ↔ ∃ l1 l2, l = l1 ++ (k, v) :: l2 ∧ k ∉ l2.*1.
Proof.
  induction l as [|[k' v'] l IH] using rev_ind.
  { rewrite collect_map_nil, lookup_empty. split; [done|]. by intros ([]&?&?&?). }
  rewrite collect_map_snoc. destruct (decide (k' = k)) as [->|Hne].
  - rewrite lookup_insert_eq. split.
    + intros [= ->]. exists l, []. set_solver.
    + intros (l1 & l2 & E & Hn). destruct l2 as [|[k2 v2] l2 _] using rev_ind.
      * apply app_inj_tail in E as [_ E]. congruence.
      * rewrite app_comm_cons, (assoc_L app) in E.
        apply app_inj_tail in E as [_ E]. injection E as <- <-.
        destruct Hn. rewrite fmap_app. set_solver.
  - rewrite lookup_insert_ne, IH by done. split.
    + intros (l1 & l2 & -> & ?). exists l1, (l2 ++ [(k', v')]).
      rewrite fmap_app; simpl. split; [by rewrite <-(assoc_L app)|set_solver].
    + intros (l1 & l2 & E & Hn). destruct l2 as [|[k2 v2] l2 _] using rev_ind.
      * apply app_inj_tail in E as [_ E]. congruence.
      * rewrite app_comm_cons, (assoc_L app) in E. apply app_inj_tail in E as [-> _].
        exists l1, l2. set_solver.
Qed.

Lemma collect_map_elem l k v : collect_map l !! k = Some v → (k, v) ∈ l.
Proof. intros (l1 & l2 & -> & _)%collect_map_lookup. set_solver. Qed.

(** Values filed under a key computed from them. *)
Lemma collect_map_keyed (key : V → K) (vs : list V) k v :
  collect_map ((λ x, (key x, x)) <$> vs) !! k = Some v → key v = k.
Proof. intros Hk%collect_map_elem. apply list_elem_of_fmap in Hk as (x & [= -> ->] & _). done. Qed.
End collect.

(** *** Results *)

Lemma result_bind_Ok {E A B} (m : result E A) (f : A → result E B) b :
  m ≫= f = Ok b ↔ ∃ a, m = Ok a ∧ f a = Ok b.
Proof. destruct m; simpl; naive_solver. Qed.

Lemma try_then_Ok {E A B} (m : outcome (result E A)) (f : A → outcome (result E B)) b :
  try_then m f = Returns (Ok b) ↔ ∃ a, m = Returns (Ok a) ∧ f a = Returns (Ok b).
Proof. destruct m as [[a|e]|]; simpl; naive_solver. Qed.

Lemma outcome_bind_Returns {A B} (m : outcome A) (f : A → outcome B) b :
  m ≫= f = Returns b ↔ ∃ a, m = Returns a ∧ f a = Returns b.
Proof. destruct m; simpl; naive_solver. Qed.

(** Invariants of the two loops, over the items consumed so far: [P] of the prefix
    and the state, [Q] of the prefix and the item that returned an error, [B] when
    the body panics. *)
Lemma outcome_fold_cases {S A} (f : S → A → outcome S) (P : list A → S → Prop) (B : Prop) s l :
  P [] s →
  (∀ pre x post t, l = pre ++ x :: post → P pre t →
    match f t x with Returns t' => P (pre ++ [x]) t' | Panics => B end) →
  match outcome_fold f s l with Returns s' => P l s' | Panics => B end.
Proof.
  intros H0 Hstep.
  enough (∀ rest pre t, l = pre ++ rest → P pre t →
    match outcome_fold f t rest with Returns s' => P l s' | Panics => B end) as Hgen
    by exact (Hgen l [] s eq_refl H0).
  induction rest as [|x rest IH]; intros pre t El Ht; simpl; [by rewrite El, app_nil_r|].
  specialize (Hstep pre x rest t El Ht). destruct (f t x) as [t'|]; simpl; [|done].
  apply (IH (pre ++ [x])); [|done]. by rewrite <- app_assoc.
Qed.

Lemma try_outcome_fold_cases {S A E} (f : S → A → outcome (result E S))
    (P : list A → S → Prop) (Q : list A → A → E → Prop) (B : Prop) s l :
  P [] s →
  (∀ pre x t, P pre t →
    match f t x with
    | Returns (Ok t') => P (pre ++ [x]) t' | Returns (Err e) => Q pre x e | Panics => B
    end) →
  match try_outcome_fold f s l with
  | Returns (Ok s') => P l s'
  | Returns (Err e) => ∃ pre x post, l = pre ++ x :: post ∧ Q pre x e
  | Panics => B
  end.
Proof.
  intros H0 Hstep.
  enough (∀ pre t, P pre t →
    match try_outcome_fold f t l with
    | Returns (Ok s') => P (pre ++ l) s'
    | Returns (Err e) => ∃ pre' x post, pre ++ l = pre' ++ x :: post ∧ Q pre' x e
    | Panics => B
    end) as Hgen by exact (Hgen [] s H0).
  clear s H0. induction l as [|x l IH]; intros pre t Ht; simpl; [by rewrite app_nil_r|].
  unfold try_then at 1. specialize (Hstep pre x t Ht).
  destruct (f t x) as [[t'|e]|]; simpl; [|by exists pre, x, l|done].
  rewrite (cons_middle x pre l), app_assoc. by apply IH.
Qed.

Lemma expect_Returns {A} (o : option A) a : expect o = Returns a ↔ o = Some a.
Proof. destruct o; simpl; naive_solver. Qed.

(** *** Empty lists *)

Lemma sort_by_nil {A} (cmp : A → A → comparison) l : sort_by cmp l = [] ↔ l = [].
Proof.
  split; [|by intros ->]. destruct l as [|x l]; [done|]. simpl. intros E.
  destruct (sort_by cmp l) as [|y l']; simpl in E; [done|]. by destruct (cmp x y).
Qed.

Lemma omap_nil_iff {A B} (f : A → option B) l : omap f l = [] ↔ ∀ x, x ∈ l → f x = None.
Proof.
  induction l as [|x l IH]; simpl; [set_solver|].
  destruct (f x) eqn:E; [|rewrite IH; set_solver].
  split; [done|]. intros Hf. rewrite Hf in E; [done|set_solver].
Qed.

Lemma fmap_nil_eq {A B} (f : A → B) l : f <$> l = [] ↔ l = [].
Proof. by destruct l. Qed.

(** *** Maxima *)

Lemma max_list_None l : max_list l = None ↔ l = [].
Proof. by destruct l. Qed.

Lemma max_list_Some l x : max_list l = Some x ↔ x ∈ l ∧ ∀ y, y ∈ l → y <= x.
Proof.
  revert x. induction l as [|a l IH]; intros x; simpl.
  { split; [done|]. intros [[]%elem_of_nil _]. }
  destruct (max_list l) as [m|] eqn:E.
  - destruct (proj1 (IH m) eq_refl) as [Hin Hm]. split.
    + intros [= <-]. split.
      * destruct (Z.max_spec a m) as [[_ ->]|[_ ->]]; set_solver.
      * intros y [->|Hy%Hm]%elem_of_cons; lia.
    + intros [[->|Hx]%elem_of_cons Hle]; f_equal.
      * assert (m <= a) by (apply Hle; set_solver). lia.
      * assert (a <= x) by (apply Hle; set_solver). apply Hm in Hx as Hx'.
        assert (m <= x) by (apply Hle; set_solver). lia.
  - apply max_list_None in E as ->. split.
    + intros [= <-]. split; [set_solver|]. intros y ->%list_elem_of_singleton. lia.
    + intros [->%list_elem_of_singleton _]. done.
Qed.

Lemma max_list_app l1 l2 :
  max_list (l1 ++ l2) =
  match max_list l1, max_list l2 with
  | Some a, Some b => Some (Z.max a b)
  | Some a, None => Some a
  | None, o => o
  end.
Proof.
  induction l1 as [|x l1 IH]; simpl; [done|]. rewrite IH.
  destruct (max_list l1), (max_list l2); f_equal; lia.
Qed.

(** *** Strings *)

Lemma append_nil_r (s : string) : s +:+ "" = s.
Proof. induction s; [done|]. change (String a (s +:+ "") = String a s). congruence. Qed.

Lemma append_assoc (s1 s2 s3 : string) : (s1 +:+ s2) +:+ s3 = s1 +:+ (s2 +:+ s3).
Proof.
  induction s1 as [|c s1 IH]; [done|].
  change (String c ((s1 +:+ s2) +:+ s3) = String c (s1 +:+ (s2 +:+ s3))). congruence.
Qed.

Lemma append_cons c (s1 s2 : string) : String c s1 +:+ s2 = String c (s1 +:+ s2).
Proof. done. Qed.

Lemma length_append (s1 s2 : string) :
  String.length (s1 +:+ s2) = (String.length s1 + String.length s2)%nat.
Proof. induction s1; [done|]. rewrite append_cons; simpl. congruence. Qed.

Lemma append_inj_l (p s1 s2 : string) : p +:+ s1 = p +:+ s2 → s1 = s2.
Proof. induction p; [done|]. rewrite !append_cons. intros [= ?]. auto. Qed.

(** Equal concatenations split at the same place when the heads have the same length. *)
Lemma append_inj_length (s1 s2 t1 t2 : string) :
  String.length s1 = String.length s2 → s1 +:+ t1 = s2 +:+ t2 → s1 = s2 ∧ t1 = t2.
Proof.
  revert s2. induction s1 as [|c s1 IH]; intros [|d s2]; simpl; try done.
  rewrite !append_cons. intros [= Hl] [= -> E]. destruct (IH _ Hl E). by subst.
Qed.

Lemma append_inj_r (s1 s2 t : string) : s1 +:+ t = s2 +:+ t → s1 = s2.
Proof.
  intros E. apply (append_inj_length s1 s2 t t); [|done].
  apply (f_equal String.length) in E. rewrite !length_append in E. lia.
Qed.

Lemma strip_prefix_Some p s r : strip_prefix p s = Some r ↔ s = p +:+ r.
Proof.
  revert s. induction p as [|c p IH]; intros s; simpl.
  { change ("" +:+ r) with r. split; congruence. }
  rewrite append_cons. destruct s as [|d s]; [done|]. case_decide as E; [subst|].
  - rewrite IH. split; [by intros ->|by intros [= ->]].
  - split; [done|]. by intros [= -> _].
Qed.

Lemma strip_prefix_append p s : strip_prefix p (p +:+ s) = Some s.
Proof. by apply strip_prefix_Some. Qed.

#[export] Hint Rewrite append_nil_r append_assoc append_cons strip_prefix_append : axiom.
