(* ===== verification/Text.v ===== *)
(** * Text encodings

    Decimal rendering and parsing of machine integers, and splitting at a
    separator, with the lemmas that make the length-prefixed identifiers of the
    engine decodable. *)

From Stdlib Require Import Ascii.
From S2P Require Import Prelude.

(** [s.split_once(c)] *)
Fixpoint split_once (c : ascii) (s : string) : option (string * string) :=
  match s with
  | EmptyString => None
  | String d s' =>
      if decide (d = c) then Some ("", s')
      else '(l, r) ← split_once c s'; Some (String d l, r)
  end.

Fixpoint str_forall (P : ascii → bool) (s : string) : bool :=
  match s with
  | EmptyString => true
  | String c s' => P c && str_forall P s'
  end.

Definition digit_value (c : ascii) : option Z :=
  let n := Z.of_nat (nat_of_ascii c) in
  if bool_decide (48 <= n <= 57) then Some (n - 48) else None.

Definition is_digit (c : ascii) : bool :=
  match digit_value c with Some _ => true | None => false end.

(** The accumulating loop of [usize::from_str], which stops on overflow. *)
Fixpoint parse_digits (acc : Z) (s : string) : option Z :=
  match s with
  | EmptyString => Some acc
  | String c s' =>
      d ← digit_value c;
      let acc' := acc * 10 + d in
      if bool_decide (acc' < 2 ^ 64) then parse_digits acc' s' else None
  end.

(** [s.parse::<usize>()] on a 64-bit target: an optional [+], then at least one
    digit. *)
Definition parse_usize (s : string) : option Z :=
  match s with
  | EmptyString => None
  | String "+" EmptyString => None
  | String "+" s' => parse_digits 0 s'
  | _ => parse_digits 0 s
  end.

(** [format!("{:02x}", byte)] *)
Definition hex_digit (n : Z) : ascii :=
  ascii_of_nat (Z.to_nat (if bool_decide (n < 10) then 48 + n else 87 + n)).
Definition hex_byte (b : Z) : string :=
  String (hex_digit (b `div` 16)) (String (hex_digit (b `mod` 16)) "").

(** [{:?}] of a string, on ASCII: quoted, with the escapes of [str::escape_debug]. *)
Definition debug_char (c : ascii) : string :=
  let n := Z.of_nat (nat_of_ascii c) in
  let bs := String (ascii_of_nat 92) in
  if bool_decide (n = 34) then bs (String c "")
  else if bool_decide (n = 92) then bs (String c "")
  else if bool_decide (n = 10) then bs "n"
  else if bool_decide (n = 13) then bs "r"
  else if bool_decide (n = 9) then bs "t"
  else if bool_decide (n = 0) then bs "0"
  else if bool_decide (n < 16) then bs ("u{" +:+ String (hex_digit n) "}")
  else if bool_decide (n < 32 ∨ n = 127) then bs ("u{" +:+ hex_byte n +:+ "}")
  else String c "".

Fixpoint debug_chars (s : string) : string :=
  match s with
  | EmptyString => ""
  | String c s' => debug_char c +:+ debug_chars s'
  end.

Definition quote : string := String (ascii_of_nat 34) "".
Definition debug_str (s : string) : string := quote +:+ debug_chars s +:+ quote.

(** [s.trim_start()]: Unicode white space, in UTF-8, is skipped. *)
Fixpoint trim_start (s : string) : string :=
  match s with
  | EmptyString => s
  | String a s1 =>
      let n := nat_of_ascii a in
      if bool_decide (9 <= n <= 13)%nat || bool_decide (n = 32)%nat then trim_start s1
      else
        match s1 with
        | EmptyString => s
        | String b s2 =>
            let m := nat_of_ascii b in
            if bool_decide (n = 194)%nat && (bool_decide (m = 133)%nat || bool_decide (m = 160)%nat)
            then trim_start s2
            else
              match s2 with
              | EmptyString => s
              | String c s3 =>
                  let k := nat_of_ascii c in
                  if (bool_decide (n = 225 ∧ m = 154 ∧ k = 128)%nat ||
                      bool_decide (n = 226 ∧ m = 128 ∧
                        (128 <= k <= 138 ∨ k = 168 ∨ k = 169 ∨ k = 175))%nat ||
                      bool_decide (n = 226 ∧ m = 129 ∧ k = 159)%nat ||
                      bool_decide (n = 227 ∧ m = 128 ∧ k = 128)%nat)
                  then trim_start s3 else s
              end
        end
  end.

(** [s.trim().is_empty()] *)
Definition is_blank (s : string) : bool := bool_decide (trim_start s = "").

(** [s.trim_end()]: a suffix is dropped as soon as it is blank. No white space
    starts inside an encoded character, so suffixes of bytes are enough. *)
Fixpoint trim_end (s : string) : string :=
  if is_blank s then ""
  else match s with EmptyString => s | String c s' => String c (trim_end s') end.

(** [s.trim()] *)
Definition trim (s : string) : string := trim_end (trim_start s).

(** [s.rsplit(c).next()]: what follows the last [c]. *)
Fixpoint after_last (c : ascii) (s : string) : string :=
  match s with
  | EmptyString => s
  | String d s' =>
      if decide (d = c) then after_last c s'
      else match split_once c s' with Some _ => after_last c s' | None => s end
  end.

(** ** Lemmas *)

Lemma str_forall_append P s t : str_forall P (s +:+ t) = str_forall P s && str_forall P t.
Proof.
  induction s as [|c s IH]; [done|]. rewrite append_cons; simpl.
  by rewrite IH, andb_assoc.
Qed.

Lemma str_forall_impl (P Q : ascii → bool) s :
  (∀ c, P c = true → Q c = true) → str_forall P s = true → str_forall Q s = true.
Proof. intros HPQ. induction s; simpl; [done|]. rewrite !andb_true_iff. naive_solver. Qed.

Lemma split_once_Some c s l r :
  split_once c s = Some (l, r) →
  s = l +:+ String c r ∧ str_forall (λ d, bool_decide (d ≠ c)) l = true.
Proof.
  revert l r. induction s as [|d s IH]; intros l r; simpl; [done|]. case_decide as E; subst.
  - intros [= <- <-]. done.
  - destruct (split_once c s) as [[l' r']|]; simpl; [|done]. intros [= <- <-].
    destruct (IH _ _ eq_refl) as [-> Hl]. rewrite append_cons; simpl.
    rewrite Hl, bool_decide_eq_true_2 by done. done.
Qed.

Lemma split_once_append c l r :
  str_forall (λ d, bool_decide (d ≠ c)) l = true →
  split_once c (l +:+ String c r) = Some (l, r).
Proof.
  induction l as [|d l IH].
  - intros _. change ("" +:+ String c r) with (String c r); simpl. by rewrite decide_True.
  - rewrite append_cons; simpl. rewrite andb_true_iff, bool_decide_eq_true.
    intros [Hd Hl]. rewrite decide_False by done. by rewrite (IH Hl).
Qed.

Lemma is_digit_not c d : is_digit c = true → is_digit d = false → bool_decide (c ≠ d) = true.
Proof. intros ??. apply bool_decide_eq_true. congruence. Qed.

Lemma digit_value_pretty n :
  (n < 10)%N → digit_value (pretty_N_char n) = Some (Z.of_N n).
Proof.
  intros. assert (n = 0 ∨ n = 1 ∨ n = 2 ∨ n = 3 ∨ n = 4 ∨ n = 5 ∨ n = 6 ∨ n = 7 ∨ n = 8 ∨ n = 9)%N
    as Hn by lia.
  naive_solver.
Qed.

Lemma pretty_N_go_digits x s :
  str_forall is_digit s = true → str_forall is_digit (pretty_N_go x s) = true.
Proof.
  revert s. induction (N.lt_wf_0 x) as [x _ IH]; intros s Hs.
  destruct (decide (x = 0)%N) as [->|]; [by rewrite pretty_N_go_0|].
  rewrite pretty_N_go_step by lia. apply IH; [apply N.div_lt; lia|]. simpl.
  unfold is_digit at 1. rewrite digit_value_pretty by (apply N.mod_lt; lia). done.
Qed.

Lemma pretty_nat_digits (n : nat) : str_forall is_digit (pretty n) = true.
Proof.
  unfold pretty, pretty_nat, pretty, pretty_N. case_decide; [done|].
  by apply pretty_N_go_digits.
Qed.

(** Digits are never the separator. *)
Lemma pretty_nat_no c (n : nat) :
  is_digit c = false → str_forall (λ d, bool_decide (d ≠ c)) (pretty n) = true.
Proof.
  intros Hc. eapply str_forall_impl; [|apply pretty_nat_digits].
  intros d Hd. by apply is_digit_not.
Qed.

Lemma parse_digits_mono acc s v : 0 <= acc → parse_digits acc s = Some v → acc <= v.
Proof.
  revert acc. induction s as [|c s IH]; intros acc ?; simpl; [intros [= ->]; lia|].
  destruct (digit_value c) as [d|] eqn:Hd; simpl; [|done].
  assert (0 <= d) by (unfold digit_value in Hd; case_bool_decide; simplify_eq; lia).
  case_bool_decide; [|done]. intros ?%IH; lia.
Qed.

(** Parsing a rendered number continues from its value. *)
Lemma parse_pretty_N_go x s :
  (Z.of_N x < 2 ^ 64) →
  parse_digits 0 (pretty_N_go x s) = parse_digits (Z.of_N x) s.
Proof.
  revert s. induction (N.lt_wf_0 x) as [x _ IH]; intros s Hx.
  destruct (decide (x = 0)%N) as [->|]; [by rewrite pretty_N_go_0|].
  assert (x `div` 10 < x)%N by (apply N.div_lt; lia).
  rewrite pretty_N_go_step, IH by lia. simpl.
  rewrite digit_value_pretty by (apply N.mod_lt; lia). simpl.
  assert (Z.of_N (x `div` 10) * 10 + Z.of_N (x `mod` 10) = Z.of_N x) as ->.
  { pose proof (N.div_mod x 10). lia. }
  by rewrite bool_decide_eq_true_2 by lia.
Qed.

Lemma parse_usize_pretty (n : nat) :
  Z.of_nat n < 2 ^ 64 → parse_usize (pretty n) = Some (Z.of_nat n).
Proof.
  intros Hn. pose proof (pretty_nat_digits n) as Hd.
  assert (parse_digits 0 (pretty n) = Some (Z.of_nat n)) as Hp.
  { unfold pretty, pretty_nat, pretty, pretty_N. case_decide as E.
    - by assert (n = 0%nat) as -> by lia.
    - rewrite parse_pretty_N_go by lia. simpl. f_equal. lia. }
  assert (pretty n ≠ "") as Hne.
  { intros E. rewrite E in Hp. simpl in Hp. injection Hp as Hp.
    assert (n = 0%nat) as -> by lia. done. }
  destruct (pretty n) as [|c s]; [done|]. simpl in Hd. apply andb_true_iff in Hd as [Hc _].
  unfold parse_usize. destruct c as [[] [] [] [] [] [] [] []]; try done.
Qed.

(** A [len:value] prefix determines its value and what follows it. *)
Definition length_prefixed (v : string) : string := pretty (String.length v) +:+ ":" +:+ v.

Lemma pretty_sep_inj (n m : nat) (s t : string) :
  pretty n +:+ String ":" s = pretty m +:+ String ":" t → n = m ∧ s = t.
Proof.
  intros E.
  pose proof (split_once_append ":" (pretty n) s (pretty_nat_no ":" n eq_refl)) as Hn.
  pose proof (split_once_append ":" (pretty m) t (pretty_nat_no ":" m eq_refl)) as Hm.
  rewrite E, Hm in Hn. injection Hn as Hn ->. split; [by apply (inj pretty)|done].
Qed.

Lemma length_prefixed_inj v1 v2 t1 t2 :
  length_prefixed v1 +:+ t1 = length_prefixed v2 +:+ t2 → v1 = v2 ∧ t1 = t2.
Proof.
  unfold length_prefixed. rewrite !append_assoc.
  change (":" +:+ v1 +:+ t1) with (String ":" (v1 +:+ t1)).
  change (":" +:+ v2 +:+ t2) with (String ":" (v2 +:+ t2)).
  intros [Hl Hs]%pretty_sep_inj. by apply append_inj_length in Hs.
Qed.

(** *** Trimming *)

Example trim_ex : trim "  a b  " = "a b". Proof. reflexivity. Qed.
Example after_last_ex : after_last "." "items.payload.route" = "route". Proof. reflexivity. Qed.
