(* ===== verification/RecordSet.v ===== *)
(** * Record update

    [r <| field := v |>] is [r] with one field replaced, for the records that
    declare their eta expansion; it stands for the assignment [self.field = v]. *)

From S2P Require Import Prelude.

Class Eta (R : Type) := eta : R → R.

Class Setter {R T : Type} (proj : R → T) := set : (T → T) → R → R.
#[global] Arguments set {R T} proj {_} _ _ /.

Ltac solve_setter :=
  lazymatch goal with
  | |- @Setter ?R ?T ?proj =>
      let e := constr:(_ : Eta R) in
      let e := eval cbv beta delta [eta] in e in
      let e := eval hnf in e in
      lazymatch eval pattern proj in e with
      | ?g _ =>
          let t := eval cbv beta in (λ (f : T → T) (r : R), g (λ r', f (proj r')) r) in
          exact t
      end
  end.

#[export] Hint Extern 0 (Setter _) => solve_setter : typeclass_instances.

Declare Scope record_scope.
Delimit Scope record_scope with record.
Open Scope record_scope.

Notation "r <| proj := v |>" := (set proj (λ _, v) r)
  (at level 12, left associativity, format "r  <| proj  :=  v |>") : record_scope.
Notation "r <| proj ::= f |>" := (set proj f r)
  (at level 12, left associativity, format "r  <| proj  ::=  f |>") : record_scope.
