(* ===== verification/Config.v ===== *)
(** * The configuration file

    [crates/config-schema]: the schema of the TOML file ([raw.rs]), how a document is
    read into it ([lib.rs]), its validation and the views the application reads it
    through ([validate.rs]). *)

From S2P Require Import Prelude Text RecordSet.

(** ** TOML

    A document is a tree of values. [TArr] is an inline array, [TTables] an array of
    tables ([[[..]]]), [TOther] a float or a date. The parser and the printer are those
    of [toml] and [toml_edit]. *)
Inductive Toml :=
| TStr (s : string)
| TInt (n : Z)
| TBool (b : bool)
| TOther (text : string)
| TArr (l : list Toml)
| TTables (l : list (list (string * Toml)))
| TTab (fields : list (string * Toml)).

Definition TomlFields : Type := list (string * Toml).

Class TomlOps := {
  toml_parse : string → option TomlFields;
  toml_print : TomlFields → string;
}.

(** [table.get(key)] *)
Fixpoint toml_get (k : string) (fields : TomlFields) : option Toml :=
  match fields with
  | [] => None
  | (k', v) :: fields' => if decide (k' = k) then Some v else toml_get k fields'
  end.

(** What a document is: no table has a key twice, and an array of tables has one. *)
Definition fields_ok (ok : Toml → bool) (fields : TomlFields) : bool :=
  bool_decide (NoDup fields.*1) && forallb (λ kv, ok kv.2) fields.

Fixpoint toml_ok (v : Toml) : bool :=
  match v with
  | TArr l => forallb toml_ok l
  | TTables [] => false
  | TTables ts => forallb (λ t, fields_ok toml_ok t) ts
  | TTab fields => fields_ok toml_ok fields
  | _ => true
  end.

(** No table of the value is empty. *)
Fixpoint toml_solid (v : Toml) : bool :=
  match v with
  | TArr l => forallb toml_solid l
  | TTables ts => forallb (λ t, negb (bool_decide (length t = 0%nat)) &&
                               forallb (λ kv, toml_solid kv.2) t) ts
  | TTab fields => negb (bool_decide (length fields = 0%nat)) &&
                   forallb (λ kv, toml_solid kv.2) fields
  | _ => true
  end.

(** [reads_as v v']: [v'] is what is read where [v] was printed. The order of the keys is
    free, and a table that is empty may have no text at all. *)
Inductive reads_entry (reads : Toml → Toml → Prop) : option Toml → option Toml → Prop :=
| reads_absent : reads_entry reads None None
| reads_present v v' : reads v v' → reads_entry reads (Some v) (Some v')
| reads_vanished : reads_entry reads (Some (TTab [])) None.

Inductive reads_as : Toml → Toml → Prop :=
| reads_str s : reads_as (TStr s) (TStr s)
| reads_int n : reads_as (TInt n) (TInt n)
| reads_bool b : reads_as (TBool b) (TBool b)
| reads_other text : reads_as (TOther text) (TOther text)
| reads_arr l l' : Forall2 reads_as l l' → reads_as (TArr l) (TArr l')
| reads_tables ts ts' :
    Forall2 (λ t t', reads_as (TTab t) (TTab t')) ts ts' → reads_as (TTables ts) (TTables ts')
| reads_tab fs fs' :
    (∀ k, reads_entry reads_as (toml_get k fs) (toml_get k fs')) →
    reads_as (TTab fs) (TTab fs').

Class TomlLaws (T : TomlOps) : Prop := {
  toml_parse_ok text fields : toml_parse text = Some fields → toml_ok (TTab fields) = true;
  toml_print_reads fields : toml_ok (TTab fields) = true →
    ∃ fields', toml_parse (toml_print fields) = Some fields' ∧
               reads_as (TTab fields) (TTab fields');
}.

(** ** error.rs

    The messages of [std::io] and of the TOML library are not part of the repository. *)
Inductive ConfigSchemaError :=
| ConfigIo
| ConfigToml
| ConfigValidation (message : string).

Definition validation_error {A} (message : string) : result ConfigSchemaError A :=
  Err (ConfigValidation message).

(** ** raw.rs *)

Inductive RuntimeModeToml := ModePaper | ModeLive.
#[export] Instance RuntimeModeToml_eq_dec : EqDecision RuntimeModeToml.
Proof. solve_decision. Defined.

Record RuntimeToml := { rt_mode : RuntimeModeToml; rt_real_user_shadow_smoke : bool }.

Inductive StrategyControlSourceToml := ControlAdopted.
Inductive NegRiskTargetSourceKindToml := TargetsAdopted.
Inductive RelayerAuthKindToml := BuilderApiKey | RelayerApiKey.
Inductive SignatureTypeToml := TomlSigEoa | TomlSigProxy | TomlSigSafe.
Inductive WalletRouteToml := TomlWalletEoa | TomlWalletProxy | TomlWalletSafe.

Record StrategyControlToml := {
  sct_source : StrategyControlSourceToml;
  sct_operator_strategy_revision : option string;
}.

Record StrategyRouteRolloutToml := {
  srr_approved_scopes : list string;
  srr_ready_scopes : list string;
}.

Record StrategyRouteToml := {
  srt_enabled : bool;
  srt_rollout : option StrategyRouteRolloutToml;
}.

Record StrategiesToml := {
  st_full_set : option StrategyRouteToml;
  st_neg_risk : option StrategyRouteToml;
}.

Record PolymarketAccountToml := {
  pat_address : string;
  pat_funder_address : option string;
  pat_signature_type : SignatureTypeToml;
  pat_wallet_route : WalletRouteToml;
  pat_api_key : string;
  pat_secret : string;
  pat_passphrase : string;
}.

Record PolymarketSourceToml := {
  pst_clob_host : string;
  pst_data_api_host : string;
  pst_relayer_host : string;
  pst_market_ws_url : string;
  pst_user_ws_url : string;
  pst_heartbeat_interval_seconds : Z;
  pst_relayer_poll_interval_seconds : Z;
  pst_metadata_refresh_interval_seconds : Z;
}.

Record PolymarketSignerToml := {
  psg_address : string;
  psg_funder_address : string;
  psg_signature_type : SignatureTypeToml;
  psg_wallet_route : WalletRouteToml;
  psg_api_key : string;
  psg_passphrase : string;
  psg_timestamp : string;
  psg_signature : string;
}.

Record PolymarketRelayerAuthToml := {
  prt_kind : RelayerAuthKindToml;
  prt_api_key : string;
  prt_secret : option string;
  prt_timestamp : option string;
  prt_passphrase : option string;
  prt_signature : option string;
  prt_address : option string;
}.

Record PolymarketToml := {
  pm_account : option PolymarketAccountToml;
  pm_relayer_auth : option PolymarketRelayerAuthToml;
  pm_source_overrides : option PolymarketSourceToml;
  pm_source : option PolymarketSourceToml;
  pm_signer : option PolymarketSignerToml;
}.

Record NegRiskTargetSourceToml := {
  nts_source : NegRiskTargetSourceKindToml;
  nts_operator_target_revision : option string;
}.

Record NegRiskRolloutToml := {
  nrr_approved_families : list string;
  nrr_ready_families : list string;
}.

Record NegRiskTargetMemberToml := {
  ntm_condition_id : string;
  ntm_token_id : string;
  ntm_price : string;
  ntm_quantity : string;
}.

Record NegRiskTargetToml := {
  ntt_family_id : string;
  ntt_members : list NegRiskTargetMemberToml;
}.

(** [present]: whether the key was there. *)
Record NegRiskTargetsToml := {
  ntg_present : bool;
  ntg_items : list NegRiskTargetToml;
}.

Record NegRiskToml := {
  nr_target_source : option NegRiskTargetSourceToml;
  nr_rollout : option NegRiskRolloutToml;
  nr_targets : NegRiskTargetsToml;
}.

Record RawAxiomConfig := {
  rc_runtime : RuntimeToml;
  rc_strategy_control : option StrategyControlToml;
  rc_strategies : option StrategiesToml;
  rc_polymarket : option PolymarketToml;
  rc_negrisk : option NegRiskToml;
}.

(** *** Deserialization

    What [serde] derives: a struct is read from a table, or from an array of its fields
    in order; unknown keys are ignored; [#[serde(default)]] fields may be absent. *)
Definition struct_fields (names : list string) (v : Toml) : option TomlFields :=
  let positional (l : list Toml) :=
    if bool_decide (length l <= length names)%nat then Some (zip names l) else None in
  match v with
  | TTab fields => Some fields
  | TArr l => positional l
  | TTables ts => positional (TTab <$> ts)
  | _ => None
  end.

Definition de_string (v : Toml) : option string :=
  match v with TStr s => Some s | _ => None end.
Definition de_bool (v : Toml) : option bool :=
  match v with TBool b => Some b | _ => None end.
Definition de_u64 (v : Toml) : option Z :=
  match v with TInt n => if bool_decide (0 <= n) then Some n else None | _ => None end.

Definition de_vec {A} (de : Toml → option A) (v : Toml) : option (list A) :=
  match v with
  | TArr l => mapM de l
  | TTables ts => mapM de (TTab <$> ts)
  | _ => None
  end.

(** An enum without data is read from the name of its variant. *)
Definition de_enum {A} (cases : list (string * A)) (v : Toml) : option A :=
  s ← de_string v; snd <$> List.find (λ c, bool_decide (c.1 = s)) cases.

Definition de_field {A} (de : Toml → option A) (k : string) (fields : TomlFields) : option A :=
  v ← toml_get k fields; de v.

(** [#[serde(default)]] of an [Option], and of a type with a default value. *)
Definition de_option {A} (de : Toml → option A) (k : string) (fields : TomlFields) :
    option (option A) :=
  match toml_get k fields with None => Some None | Some v => Some <$> de v end.
Definition de_default {A} (a : A) (de : Toml → option A) (k : string) (fields : TomlFields) :
    option A :=
  match toml_get k fields with None => Some a | Some v => de v end.

(** [#[serde(default, alias = "..")]]: naming the field twice is an error. *)
Definition de_option_alias {A} (de : Toml → option A) (k alias : string) (fields : TomlFields) :
    option (option A) :=
  match toml_get k fields, toml_get alias fields with
  | Some _, Some _ => None
  | None, Some v => Some <$> de v
  | _, None => de_option de k fields
  end.

Definition de_mode : Toml → option RuntimeModeToml :=
  de_enum [("paper", ModePaper); ("live", ModeLive)].

Definition de_runtime (v : Toml) : option RuntimeToml :=
  fs ← struct_fields ["mode"; "real_user_shadow_smoke"] v;
  mode ← de_field de_mode "mode" fs;
  smoke ← de_default false de_bool "real_user_shadow_smoke" fs;
  Some {| rt_mode := mode; rt_real_user_shadow_smoke := smoke |}.

Definition de_control_source : Toml → option StrategyControlSourceToml :=
  de_enum [("adopted", ControlAdopted)].

Definition de_strategy_control (v : Toml) : option StrategyControlToml :=
  fs ← struct_fields ["source"; "operator_strategy_revision"] v;
  source ← de_field de_control_source "source" fs;
  revision ← de_option_alias de_string "operator_strategy_revision" "operator_target_revision" fs;
  Some {| sct_source := source; sct_operator_strategy_revision := revision |}.

Definition de_route_rollout (v : Toml) : option StrategyRouteRolloutToml :=
  fs ← struct_fields ["approved_scopes"; "ready_scopes"] v;
  approved ← de_default [] (de_vec de_string) "approved_scopes" fs;
  ready ← de_default [] (de_vec de_string) "ready_scopes" fs;
  Some {| srr_approved_scopes := approved; srr_ready_scopes := ready |}.

Definition de_strategy_route (v : Toml) : option StrategyRouteToml :=
  fs ← struct_fields ["enabled"; "rollout"] v;
  enabled ← de_default false de_bool "enabled" fs;
  rollout ← de_option de_route_rollout "rollout" fs;
  Some {| srt_enabled := enabled; srt_rollout := rollout |}.

Definition de_strategies (v : Toml) : option StrategiesToml :=
  fs ← struct_fields ["full_set"; "neg_risk"] v;
  full_set ← de_option de_strategy_route "full_set" fs;
  neg_risk ← de_option de_strategy_route "neg_risk" fs;
  Some {| st_full_set := full_set; st_neg_risk := neg_risk |}.

Definition de_signature_type : Toml → option SignatureTypeToml :=
  de_enum [("eoa", TomlSigEoa); ("proxy", TomlSigProxy); ("safe", TomlSigSafe)].
Definition de_wallet_route : Toml → option WalletRouteToml :=
  de_enum [("eoa", TomlWalletEoa); ("proxy", TomlWalletProxy); ("safe", TomlWalletSafe)].
Definition de_relayer_kind : Toml → option RelayerAuthKindToml :=
  de_enum [("builder_api_key", BuilderApiKey); ("relayer_api_key", RelayerApiKey)].

Definition de_account (v : Toml) : option PolymarketAccountToml :=
  fs ← struct_fields ["address"; "funder_address"; "signature_type"; "wallet_route"; "api_key";
                      "secret"; "passphrase"] v;
  address ← de_field de_string "address" fs;
  funder_address ← de_option de_string "funder_address" fs;
  signature_type ← de_field de_signature_type "signature_type" fs;
  wallet_route ← de_field de_wallet_route "wallet_route" fs;
  api_key ← de_field de_string "api_key" fs;
  secret ← de_field de_string "secret" fs;
  passphrase ← de_field de_string "passphrase" fs;
  Some {| pat_address := address; pat_funder_address := funder_address;
          pat_signature_type := signature_type; pat_wallet_route := wallet_route;
          pat_api_key := api_key; pat_secret := secret; pat_passphrase := passphrase |}.

Definition de_source (v : Toml) : option PolymarketSourceToml :=
  fs ← struct_fields ["clob_host"; "data_api_host"; "relayer_host"; "market_ws_url";
                      "user_ws_url"; "heartbeat_interval_seconds";
                      "relayer_poll_interval_seconds"; "metadata_refresh_interval_seconds"] v;
  clob_host ← de_field de_string "clob_host" fs;
  data_api_host ← de_field de_string "data_api_host" fs;
  relayer_host ← de_field de_string "relayer_host" fs;
  market_ws_url ← de_field de_string "market_ws_url" fs;
  user_ws_url ← de_field de_string "user_ws_url" fs;
  heartbeat ← de_field de_u64 "heartbeat_interval_seconds" fs;
  relayer_poll ← de_field de_u64 "relayer_poll_interval_seconds" fs;
  metadata_refresh ← de_field de_u64 "metadata_refresh_interval_seconds" fs;
  Some {| pst_clob_host := clob_host; pst_data_api_host := data_api_host;
          pst_relayer_host := relayer_host; pst_market_ws_url := market_ws_url;
          pst_user_ws_url := user_ws_url; pst_heartbeat_interval_seconds := heartbeat;
          pst_relayer_poll_interval_seconds := relayer_poll;
          pst_metadata_refresh_interval_seconds := metadata_refresh |}.

Definition de_signer (v : Toml) : option PolymarketSignerToml :=
  fs ← struct_fields ["address"; "funder_address"; "signature_type"; "wallet_route"; "api_key";
                      "passphrase"; "timestamp"; "signature"] v;
  address ← de_field de_string "address" fs;
  funder_address ← de_field de_string "funder_address" fs;
  signature_type ← de_field de_signature_type "signature_type" fs;
  wallet_route ← de_field de_wallet_route "wallet_route" fs;
  api_key ← de_field de_string "api_key" fs;
  passphrase ← de_field de_string "passphrase" fs;
  timestamp ← de_field de_string "timestamp" fs;
  signature ← de_field de_string "signature" fs;
  Some {| psg_address := address; psg_funder_address := funder_address;
          psg_signature_type := signature_type; psg_wallet_route := wallet_route;
          psg_api_key := api_key; psg_passphrase := passphrase; psg_timestamp := timestamp;
          psg_signature := signature |}.

Definition de_relayer_auth (v : Toml) : option PolymarketRelayerAuthToml :=
  fs ← struct_fields ["kind"; "api_key"; "secret"; "timestamp"; "passphrase"; "signature";
                      "address"] v;
  kind ← de_field de_relayer_kind "kind" fs;
  api_key ← de_field de_string "api_key" fs;
  secret ← de_option de_string "secret" fs;
  timestamp ← de_option de_string "timestamp" fs;
  passphrase ← de_option de_string "passphrase" fs;
  signature ← de_option de_string "signature" fs;
  address ← de_option de_string "address" fs;
  Some {| prt_kind := kind; prt_api_key := api_key; prt_secret := secret;
          prt_timestamp := timestamp; prt_passphrase := passphrase; prt_signature := signature;
          prt_address := address |}.

Definition de_polymarket (v : Toml) : option PolymarketToml :=
  fs ← struct_fields ["account"; "relayer_auth"; "source_overrides"; "source"; "signer"] v;
  account ← de_option de_account "account" fs;
  relayer_auth ← de_option de_relayer_auth "relayer_auth" fs;
  source_overrides ← de_option de_source "source_overrides" fs;
  source ← de_option de_source "source" fs;
  signer ← de_option de_signer "signer" fs;
  Some {| pm_account := account; pm_relayer_auth := relayer_auth;
          pm_source_overrides := source_overrides; pm_source := source; pm_signer := signer |}.

Definition de_target_source_kind : Toml → option NegRiskTargetSourceKindToml :=
  de_enum [("adopted", TargetsAdopted)].

Definition de_target_source (v : Toml) : option NegRiskTargetSourceToml :=
  fs ← struct_fields ["source"; "operator_target_revision"] v;
  source ← de_field de_target_source_kind "source" fs;
  revision ← de_option de_string "operator_target_revision" fs;
  Some {| nts_source := source; nts_operator_target_revision := revision |}.

Definition de_negrisk_rollout (v : Toml) : option NegRiskRolloutToml :=
  fs ← struct_fields ["approved_families"; "ready_families"] v;
  approved ← de_default [] (de_vec de_string) "approved_families" fs;
  ready ← de_default [] (de_vec de_string) "ready_families" fs;
  Some {| nrr_approved_families := approved; nrr_ready_families := ready |}.

Definition de_target_member (v : Toml) : option NegRiskTargetMemberToml :=
  fs ← struct_fields ["condition_id"; "token_id"; "price"; "quantity"] v;
  condition_id ← de_field de_string "condition_id" fs;
  token_id ← de_field de_string "token_id" fs;
  price ← de_field de_string "price" fs;
  quantity ← de_field de_string "quantity" fs;
  Some {| ntm_condition_id := condition_id; ntm_token_id := token_id; ntm_price := price;
          ntm_quantity := quantity |}.

Definition de_target (v : Toml) : option NegRiskTargetToml :=
  fs ← struct_fields ["family_id"; "members"] v;
  family_id ← de_field de_string "family_id" fs;
  members ← de_default [] (de_vec de_target_member) "members" fs;
  Some {| ntt_family_id := family_id; ntt_members := members |}.

Definition targets_default : NegRiskTargetsToml := {| ntg_present := false; ntg_items := [] |}.

Definition de_targets (v : Toml) : option NegRiskTargetsToml :=
  items ← de_vec de_target v; Some {| ntg_present := true; ntg_items := items |}.

Definition de_negrisk (v : Toml) : option NegRiskToml :=
  fs ← struct_fields ["target_source"; "rollout"; "targets"] v;
  target_source ← de_option de_target_source "target_source" fs;
  rollout ← de_option de_negrisk_rollout "rollout" fs;
  targets ← de_default targets_default de_targets "targets" fs;
  Some {| nr_target_source := target_source; nr_rollout := rollout; nr_targets := targets |}.

Definition de_raw_config (fs : TomlFields) : option RawAxiomConfig :=
  runtime ← de_field de_runtime "runtime" fs;
  strategy_control ← de_option de_strategy_control "strategy_control" fs;
  strategies ← de_option de_strategies "strategies" fs;
  polymarket ← de_option de_polymarket "polymarket" fs;
  negrisk ← de_option de_negrisk "negrisk" fs;
  Some {| rc_runtime := runtime; rc_strategy_control := strategy_control;
          rc_strategies := strategies; rc_polymarket := polymarket; rc_negrisk := negrisk |}.

(** ** lib.rs *)

Definition removed_http_message : string :=
  "[polymarket.http] is no longer supported and proxy_url has been removed; " +:+
  "use standard proxy environment variables such as HTTPS_PROXY or ALL_PROXY instead".

Definition reject_removed_polymarket_http_config (fs : TomlFields) :
    result ConfigSchemaError () :=
  match toml_get "polymarket" fs with
  | Some (TTab polymarket) =>
      if bool_decide (toml_get "http" polymarket = None) then Ok ()
      else validation_error removed_http_message
  | _ => Ok ()
  end.

(** From the document on; [load_raw_config_from_str] parses it first. *)
Definition load_raw_config_from_document (fs : TomlFields) :
    result ConfigSchemaError RawAxiomConfig :=
  _ ← reject_removed_polymarket_http_config fs;
  ok_or (de_raw_config fs) ConfigToml.

Definition load_raw_config_from_str {T : TomlOps} (text : string) :
    result ConfigSchemaError RawAxiomConfig :=
  fs ← ok_or (toml_parse text) ConfigToml;
  load_raw_config_from_document fs.

(** [file]: the contents of the file, when it can be read. *)
Definition load_raw_config_from_path {T : TomlOps} (file : option string) :
    result ConfigSchemaError RawAxiomConfig :=
  text ← ok_or file ConfigIo;
  load_raw_config_from_str text.
