(* ===== verification/Validation.v ===== *)
(** * Validation of the configuration

    [config-schema/src/validate.rs]: the invariants every configuration satisfies, what a
    live configuration needs, and the views the application reads it through. A view
    borrows a part of the raw configuration and is that part here. *)

From S2P Require Import Prelude Text RecordSet Config.

Definition Checked : Type := result ConfigSchemaError ().

(** ** Fields *)

Definition require_non_empty (field value : string) : Checked :=
  if is_blank value then validation_error (field +:+ " must not be empty") else Ok ().

Definition require_non_empty_local_signer_field (value field : string) : Checked :=
  if is_blank value then validation_error (field +:+ " must not be empty") else Ok ().

Definition require_non_empty_optional_local_signer_field (value : option string)
    (field : string) : result ConfigSchemaError string :=
  value ← ok_or value (ConfigValidation (field +:+ " is required"));
  if is_blank value then validation_error (field +:+ " must not be empty") else Ok value.

(** [for x in xs { f(x)?; }] *)
Fixpoint check_each {A} (f : A → Checked) (xs : list A) : Checked :=
  match xs with
  | [] => Ok ()
  | x :: xs' => _ ← f x; check_each f xs'
  end.

(** ** Sections of the raw configuration *)

Definition raw_account (raw : RawAxiomConfig) : option PolymarketAccountToml :=
  polymarket ← rc_polymarket raw; pm_account polymarket.
Definition raw_relayer_auth (raw : RawAxiomConfig) : option PolymarketRelayerAuthToml :=
  polymarket ← rc_polymarket raw; pm_relayer_auth polymarket.
Definition raw_signer (raw : RawAxiomConfig) : option PolymarketSignerToml :=
  polymarket ← rc_polymarket raw; pm_signer polymarket.
Definition raw_target_source (raw : RawAxiomConfig) : option NegRiskTargetSourceToml :=
  negrisk ← rc_negrisk raw; nr_target_source negrisk.
Definition raw_negrisk_rollout (raw : RawAxiomConfig) : option NegRiskRolloutToml :=
  negrisk ← rc_negrisk raw; nr_rollout negrisk.
Definition raw_route_rollout (raw : RawAxiomConfig) : option StrategyRouteRolloutToml :=
  strategies ← rc_strategies raw; neg_risk ← st_neg_risk strategies; srt_rollout neg_risk.

Definition explicit_polymarket_source (raw : RawAxiomConfig) : option PolymarketSourceToml :=
  polymarket ← rc_polymarket raw;
  match pm_source_overrides polymarket with
  | Some source => Some source
  | None => pm_source polymarket
  end.

Definition builtin_polymarket_source : PolymarketSourceToml :=
  {| pst_clob_host := "https://clob.polymarket.com";
     pst_data_api_host := "https://gamma-api.polymarket.com";
     pst_relayer_host := "https://relayer-v2.polymarket.com";
     pst_market_ws_url := "wss://ws-subscriptions-clob.polymarket.com/ws/market";
     pst_user_ws_url := "wss://ws-subscriptions-clob.polymarket.com/ws/user";
     pst_heartbeat_interval_seconds := 15; pst_relayer_poll_interval_seconds := 5;
     pst_metadata_refresh_interval_seconds := 60 |}.

(** ** AppLiveConfigView *)

Definition is_live (raw : RawAxiomConfig) : bool :=
  bool_decide (rt_mode (rc_runtime raw) = ModeLive).
Definition is_paper (raw : RawAxiomConfig) : bool :=
  bool_decide (rt_mode (rc_runtime raw) = ModePaper).
Definition real_user_shadow_smoke (raw : RawAxiomConfig) : bool :=
  rt_real_user_shadow_smoke (rc_runtime raw).

Definition has_polymarket_account (raw : RawAxiomConfig) : bool :=
  bool_decide (is_Some (raw_account raw)).
Definition has_polymarket_source (raw : RawAxiomConfig) : bool :=
  bool_decide (is_Some (explicit_polymarket_source raw)).
Definition has_polymarket_signer (raw : RawAxiomConfig) : bool :=
  bool_decide (is_Some (raw_signer raw)).
Definition has_target_source (raw : RawAxiomConfig) : bool :=
  bool_decide (is_Some (raw_target_source raw)).

Definition effective_polymarket_source (raw : RawAxiomConfig) : option PolymarketSourceToml :=
  _ ← rc_polymarket raw;
  Some (match explicit_polymarket_source raw with
        | Some source => source
        | None => builtin_polymarket_source
        end).

Definition negrisk_targets (raw : RawAxiomConfig) : list NegRiskTargetToml :=
  match rc_negrisk raw with Some negrisk => ntg_items (nr_targets negrisk) | None => [] end.

Record AppLiveNegRiskRolloutView := {
  rv_approved_families : list string;
  rv_ready_families : list string;
}.

(** The route's own rollout first, the legacy one otherwise. *)
Definition negrisk_rollout (raw : RawAxiomConfig) : option AppLiveNegRiskRolloutView :=
  match raw_route_rollout raw with
  | Some rollout => Some {| rv_approved_families := srr_approved_scopes rollout;
                            rv_ready_families := srr_ready_scopes rollout |}
  | None =>
      rollout ← raw_negrisk_rollout raw;
      Some {| rv_approved_families := nrr_approved_families rollout;
              rv_ready_families := nrr_ready_families rollout |}
  end.

Definition is_legacy_explicit_strategy_config (raw : RawAxiomConfig) : bool :=
  match rc_negrisk raw with Some negrisk => ntg_present (nr_targets negrisk) | None => false end.

Definition has_canonical_strategy_control (raw : RawAxiomConfig) : bool :=
  match rc_strategy_control raw with
  | Some control => match sct_source control with ControlAdopted => true end
  | None => false
  end.

Definition has_adopted_strategy_source (raw : RawAxiomConfig) : bool :=
  match raw_target_source raw with
  | Some source => match nts_source source with TargetsAdopted => true end
  | None => has_canonical_strategy_control raw
  end.

Definition canonical_operator_strategy_revision (raw : RawAxiomConfig) : option string :=
  if is_legacy_explicit_strategy_config raw then None
  else control ← rc_strategy_control raw; sct_operator_strategy_revision control.

(** What a configuration names, without regard to explicit targets. *)
Definition configured_revision (raw : RawAxiomConfig) : option string :=
  match control ← rc_strategy_control raw; sct_operator_strategy_revision control with
  | Some revision => Some revision
  | None => source ← raw_target_source raw; nts_operator_target_revision source
  end.

Definition view_operator_strategy_revision (raw : RawAxiomConfig) : option string :=
  if is_legacy_explicit_strategy_config raw then None
  else
    match canonical_operator_strategy_revision raw with
    | Some revision => Some revision
    | None => source ← raw_target_source raw; nts_operator_target_revision source
    end.

Definition target_source_is_adopted (source : NegRiskTargetSourceToml) : bool :=
  match nts_source source with TargetsAdopted => true end.

(** *** Labels *)

Definition toml_signature_type_label (t : SignatureTypeToml) : string :=
  match t with TomlSigEoa => "Eoa" | TomlSigProxy => "Proxy" | TomlSigSafe => "Safe" end.
Definition toml_wallet_route_label (r : WalletRouteToml) : string :=
  match r with
  | TomlWalletEoa => "Eoa" | TomlWalletProxy => "Proxy" | TomlWalletSafe => "Safe"
  end.

(** ** Invariants of every configuration *)

Inductive WalletKind := WalletKindEoa | WalletKindNonEoa.

Definition requires_relayer_auth (k : WalletKind) : bool :=
  match k with WalletKindNonEoa => true | WalletKindEoa => false end.

Definition raw_wallet_kind (account : PolymarketAccountToml) : option WalletKind :=
  match pat_signature_type account, pat_wallet_route account with
  | TomlSigEoa, TomlWalletEoa => Some WalletKindEoa
  | TomlSigProxy, TomlWalletProxy | TomlSigSafe, TomlWalletSafe => Some WalletKindNonEoa
  | _, _ => None
  end.

Definition validated_wallet_kind (account : PolymarketAccountToml) : WalletKind :=
  match pat_signature_type account with
  | TomlSigEoa => WalletKindEoa
  | TomlSigProxy | TomlSigSafe => WalletKindNonEoa
  end.

Definition validate_wallet_kind_relayer_invariants (raw : RawAxiomConfig) : Checked :=
  match raw_account raw with
  | None => Ok ()
  | Some account =>
      match raw_relayer_auth raw, raw_wallet_kind account with
      | Some _, Some WalletKindEoa =>
          validation_error
            "polymarket.relayer_auth is not allowed for EOA polymarket.account credentials"
      | _, _ => Ok ()
      end
  end.

Definition validate_target_member (m : NegRiskTargetMemberToml) : Checked :=
  _ ← require_non_empty "negrisk.targets.members.condition_id" (ntm_condition_id m);
  _ ← require_non_empty "negrisk.targets.members.token_id" (ntm_token_id m);
  _ ← require_non_empty "negrisk.targets.members.price" (ntm_price m);
  require_non_empty "negrisk.targets.members.quantity" (ntm_quantity m).

Definition member_id (m : NegRiskTargetMemberToml) : string * string :=
  (ntm_condition_id m, ntm_token_id m).

(** [seen]: the members of the family so far. *)
Fixpoint validate_target_members (family_id : string) (seen : gset (string * string))
    (members : list NegRiskTargetMemberToml) : Checked :=
  match members with
  | [] => Ok ()
  | m :: members' =>
      _ ← validate_target_member m;
      if bool_decide (member_id m ∈ seen) then
        validation_error ("duplicate negrisk.targets.members token_id for family " +:+
          family_id +:+ " condition " +:+ ntm_condition_id m +:+ " token " +:+ ntm_token_id m)
      else validate_target_members family_id ({[member_id m]} ∪ seen) members'
  end.

Fixpoint validate_targets (seen : gset string) (targets : list NegRiskTargetToml) : Checked :=
  match targets with
  | [] => Ok ()
  | t :: targets' =>
      _ ← require_non_empty "negrisk.targets.family_id" (ntt_family_id t);
      if bool_decide (ntt_family_id t ∈ seen) then
        validation_error ("duplicate negrisk.targets.family_id: " +:+ ntt_family_id t)
      else
        _ ← validate_target_members (ntt_family_id t) ∅ (ntt_members t);
        validate_targets ({[ntt_family_id t]} ∪ seen) targets'
  end.

Definition validate_negrisk (raw : RawAxiomConfig) : Checked :=
  match rc_negrisk raw with
  | None => Ok ()
  | Some negrisk => validate_targets ∅ (ntg_items (nr_targets negrisk))
  end.

Definition validate_strategy_control (raw : RawAxiomConfig) : Checked :=
  match rc_strategy_control raw with
  | None => Ok ()
  | Some control =>
      match sct_operator_strategy_revision control with
      | Some revision => require_non_empty_local_signer_field revision
                           "strategy_control.operator_strategy_revision"
      | None => Ok ()
      end
  end.

Definition validate_global_invariants (raw : RawAxiomConfig) : Checked :=
  if is_paper raw && real_user_shadow_smoke raw then
    validation_error ("runtime.real_user_shadow_smoke is not supported when runtime.mode = " +:+
                      quote +:+ "paper" +:+ quote)
  else
    _ ← validate_strategy_control raw;
    _ ← validate_negrisk raw;
    validate_wallet_kind_relayer_invariants raw.

(** [ValidatedConfig::new]; a [ValidatedConfig] is the raw configuration it keeps. *)
Definition validated_config_new (raw : RawAxiomConfig) :
    result ConfigSchemaError RawAxiomConfig :=
  _ ← validate_global_invariants raw;
  Ok raw.

(** ** What a live configuration needs *)

Definition require_account (raw : RawAxiomConfig) :
    result ConfigSchemaError PolymarketAccountToml :=
  ok_or (raw_account raw) (ConfigValidation "missing required section: polymarket.account").

Definition require_target_source (raw : RawAxiomConfig) :
    result ConfigSchemaError NegRiskTargetSourceToml :=
  ok_or (raw_target_source raw)
    (ConfigValidation "missing required section: negrisk.target_source").

Definition require_relayer_auth_view (raw : RawAxiomConfig) :
    result ConfigSchemaError PolymarketRelayerAuthToml :=
  ok_or (raw_relayer_auth raw)
    (ConfigValidation "missing required section: polymarket.relayer_auth").

Definition validate_account_view (account : PolymarketAccountToml) : Checked :=
  _ ← require_non_empty_local_signer_field (pat_address account) "polymarket.account.address";
  _ ← match pat_funder_address account with
      | Some funder_address => require_non_empty_local_signer_field funder_address
                                 "polymarket.account.funder_address"
      | None => Ok ()
      end;
  _ ← require_non_empty_local_signer_field (pat_api_key account) "polymarket.account.api_key";
  _ ← require_non_empty_local_signer_field (pat_secret account) "polymarket.account.secret";
  _ ← require_non_empty_local_signer_field (pat_passphrase account)
        "polymarket.account.passphrase";
  if bool_decide (toml_signature_type_label (pat_signature_type account)
                  ≠ toml_wallet_route_label (pat_wallet_route account)) then
    validation_error
      "polymarket.account.wallet_route must match polymarket.account.signature_type"
  else Ok ().

Definition validate_relayer_auth_view (auth : PolymarketRelayerAuthToml) : Checked :=
  _ ← require_non_empty_local_signer_field (prt_api_key auth) "polymarket.relayer_auth.api_key";
  match prt_kind auth with
  | BuilderApiKey =>
      _ ← require_non_empty_optional_local_signer_field (prt_passphrase auth)
            "polymarket.relayer_auth.passphrase";
      if bool_decide (is_Some (prt_secret auth)) then
        _ ← require_non_empty_optional_local_signer_field (prt_secret auth)
              "polymarket.relayer_auth.secret";
        Ok ()
      else
        _ ← require_non_empty_optional_local_signer_field (prt_timestamp auth)
              "polymarket.relayer_auth.timestamp";
        _ ← require_non_empty_optional_local_signer_field (prt_signature auth)
              "polymarket.relayer_auth.signature";
        Ok ()
  | RelayerApiKey =>
      _ ← require_non_empty_optional_local_signer_field (prt_address auth)
            "polymarket.relayer_auth.address";
      Ok ()
  end.

Definition validate_target_source_view (source : NegRiskTargetSourceToml) : Checked :=
  match nts_operator_target_revision source with
  | Some revision => require_non_empty_local_signer_field revision
                       "negrisk.target_source.operator_target_revision"
  | None => Ok ()
  end.

(** [ValidatedConfig::target_source] *)
Definition validated_target_source (raw : RawAxiomConfig) :
    result ConfigSchemaError NegRiskTargetSourceToml :=
  source ← require_target_source raw;
  _ ← validate_target_source_view source;
  Ok source.

Definition require_strategy_control_or_legacy_target_source (raw : RawAxiomConfig) : Checked :=
  match raw_target_source raw with
  | Some source => _ ← validate_target_source_view source; Ok ()
  | None =>
      if bool_decide (is_Some (rc_strategy_control raw)) then Ok ()
      else if is_legacy_explicit_strategy_config raw then Ok ()
      else validation_error
        ("missing required section: strategy_control, negrisk.target_source, or explicit " +:+
         "negrisk.targets")
  end.

Definition validate_rollout_families (field : string) (family_ids : gset string)
    (families : list string) : Checked :=
  check_each (λ family_id,
    _ ← require_non_empty field family_id;
    if bool_decide (family_id ∉ family_ids) then
      validation_error (field +:+ " references missing family_id: " +:+ family_id)
    else Ok ()) families.

Definition validate_negrisk_rollout_referential_integrity (raw : RawAxiomConfig) : Checked :=
  if bool_decide (is_Some (raw_route_rollout raw)) then Ok ()
  else
    match rc_negrisk raw with
    | None => Ok ()
    | Some negrisk =>
        match nr_rollout negrisk with
        | None => Ok ()
        | Some rollout =>
            match ntg_items (nr_targets negrisk) with
            | [] => Ok ()
            | targets =>
                let family_ids : gset string := list_to_set (ntt_family_id <$> targets) in
                _ ← validate_rollout_families "negrisk.rollout.approved_families" family_ids
                      (nrr_approved_families rollout);
                validate_rollout_families "negrisk.rollout.ready_families" family_ids
                  (nrr_ready_families rollout)
            end
        end
    end.

(** [ValidatedConfig::for_app_live] *)
Definition for_app_live (raw : RawAxiomConfig) : result ConfigSchemaError RawAxiomConfig :=
  match rt_mode (rc_runtime raw) with
  | ModePaper => Ok raw
  | ModeLive =>
      if bool_decide (is_Some (raw_signer raw)) then
        validation_error "polymarket.signer is no longer supported; use polymarket.account"
      else
        account ← require_account raw;
        _ ← validate_account_view account;
        _ ← (if requires_relayer_auth (validated_wallet_kind account) then
               relayer_auth ← require_relayer_auth_view raw;
               validate_relayer_auth_view relayer_auth
             else Ok ());
        _ ← require_strategy_control_or_legacy_target_source raw;
        _ ← (if bool_decide (is_Some (raw_negrisk_rollout raw))
             then validate_negrisk_rollout_referential_integrity raw else Ok ());
        Ok raw
  end.

(** [ValidatedConfig::for_app_replay] *)
Definition for_app_replay (raw : RawAxiomConfig) : result ConfigSchemaError RawAxiomConfig :=
  Ok raw.
