(* ===== verification/ConfigFile.v ===== *)
(** * Rewriting the configuration file

    [app-live/src/commands/targets/config_file.rs]: the commands that adopt a revision or
    enable a rollout edit the document in place, check that what they wrote says what it
    should, and only then replace the file. *)

From S2P Require Import Prelude Text RecordSet Config Validation.

(** ** Editing a document *)

(** [table.insert(key, item)]: in place, or at the end. *)
Fixpoint toml_insert (k : string) (v : Toml) (fields : TomlFields) : TomlFields :=
  match fields with
  | [] => [(k, v)]
  | (k', v') :: fields' =>
      if decide (k' = k) then (k, v) :: fields' else (k', v') :: toml_insert k v fields'
  end.

(** [table.remove(key)] *)
Fixpoint toml_remove (k : string) (fields : TomlFields) : TomlFields :=
  match fields with
  | [] => []
  | (k', v) :: fields' =>
      if decide (k' = k) then toml_remove k fields' else (k', v) :: toml_remove k fields'
  end.

(** [item.as_table_like_mut()] *)
Definition as_table (v : option Toml) : option TomlFields :=
  match v with Some (TTab fields) => Some fields | _ => None end.

(** [if table.get(key).is_none() { table.insert(key, table()); }
     table.get_mut(key).expect(..).as_table_like_mut().expect(..)], changed by [f]. *)
Definition in_table (k : string) (f : TomlFields → outcome TomlFields) (fields : TomlFields) :
    outcome TomlFields :=
  inner ← expect (as_table (Some (default (TTab []) (toml_get k fields))));
  inner ← f inner;
  Returns (toml_insert k (TTab inner) fields).

(** [document[k1][k2].. = item]: missing tables are created; indexing into anything else
    panics. *)
Fixpoint toml_index_set (path : list string) (item : Toml) (v : option Toml) : outcome Toml :=
  match path with
  | [] => Returns item
  | k :: path' =>
      match v with
      | None => x ← toml_index_set path' item None; Returns (TTab [(k, x)])
      | Some (TTab fields) =>
          x ← toml_index_set path' item (toml_get k fields);
          Returns (TTab (toml_insert k x fields))
      | Some _ => Panics
      end
  end.

Definition document_set (path : list string) (item : Toml) (document : TomlFields) :
    outcome TomlFields :=
  v ← toml_index_set path item (Some (TTab document));
  expect (as_table (Some v)).

(** ** Errors *)

Inductive FileError :=
| FileSchema (e : ConfigSchemaError)
| FileParse
| FileInvalidData (message : string)
| FileInvalidInput (message : string)
| ConfigTargetSourceMissing
| FileWrite.

(** The file after the command, and how it ended. [writable]: whether the new contents
    can be put in its place; [None] is a file that cannot be read. *)
Definition Rewrite : Type := option string * outcome (result FileError ()).

(** What every rewrite does: read, edit, read back what was written, check it, and
    replace the file. *)
Definition rewrite_file {T : TomlOps} (writable : bool)
    (edit : RawAxiomConfig → TomlFields → outcome (result FileError TomlFields))
    (persisted : RawAxiomConfig → RawAxiomConfig → result FileError ()) (file : option string) :
    Rewrite :=
  let run : outcome (result FileError string) :=
    raw ←? Returns (map_err FileSchema (load_raw_config_from_path file));
    text ←? Returns (ok_or file (FileSchema ConfigIo));
    _ ←? Returns (map_err FileSchema (validated_config_new raw));
    document ←? Returns (ok_or (toml_parse text) FileParse);
    document ←? edit raw document;
    let rewritten_text := toml_print document in
    rewritten_raw ←? Returns (map_err FileSchema (load_raw_config_from_str rewritten_text));
    _ ←? Returns (map_err FileSchema (validated_config_new rewritten_raw));
    _ ←? Returns (persisted raw rewritten_raw);
    Returns (Ok rewritten_text) in
  match run with
  | Panics => (file, Panics)
  | Returns (Err e) => (file, Returns (Err e))
  | Returns (Ok text) =>
      if writable then (Some text, Returns (Ok ())) else (file, Returns (Err FileWrite))
  end.

(** ** Adopting a strategy revision *)

(** The legacy names of the rollout lists become the route's. *)
Definition rename_field (old new : string) (fields : TomlFields) : TomlFields :=
  match toml_get old fields with
  | Some v => toml_insert new v (toml_remove old fields)
  | None => fields
  end.

Definition normalize_route_owned_rollout_item (rollout : Toml) : Toml :=
  match rollout with
  | TTab fields => TTab (rename_field "ready_families" "ready_scopes"
                           (rename_field "approved_families" "approved_scopes" fields))
  | _ => rollout
  end.

Definition set_strategy_control (operator_strategy_revision : string) :
    TomlFields → outcome TomlFields :=
  in_table "strategy_control" (λ control, Returns
    (toml_insert "operator_strategy_revision" (TStr operator_strategy_revision)
       (toml_insert "source" (TStr "adopted") control))).

Definition move_rollout (rollout : Toml) : TomlFields → outcome TomlFields :=
  in_table "strategies" (in_table "neg_risk" (λ neg_risk, Returns
    (toml_insert "rollout" (normalize_route_owned_rollout_item rollout) neg_risk))).

(** Takes the legacy control plane out of [[negrisk]] and moves its rollout. *)
Definition clear_legacy_control (document : TomlFields) : outcome TomlFields :=
  match as_table (toml_get "negrisk" document) with
  | None => Returns document
  | Some negrisk =>
      let rollout := toml_get "rollout" negrisk in
      let negrisk := toml_remove "targets" (toml_remove "target_source"
                       (toml_remove "rollout" negrisk)) in
      let document := toml_insert "negrisk" (TTab negrisk) document in
      match rollout with
      | Some rollout => move_rollout rollout document
      | None => Returns document
      end
  end.

Definition rewrite_strategy_document (operator_strategy_revision : string)
    (document : TomlFields) : outcome TomlFields :=
  document ← set_strategy_control operator_strategy_revision document;
  clear_legacy_control document.

Definition rewrite_operator_strategy_revision {T : TomlOps} (writable : bool)
    (operator_strategy_revision : string) : option string → Rewrite :=
  rewrite_file writable
    (λ _ document,
       document ← rewrite_strategy_document operator_strategy_revision document;
       Returns (Ok document))
    (λ _ rewritten_raw,
       if bool_decide (configured_revision rewritten_raw = Some operator_strategy_revision)
       then Ok ()
       else Err (FileInvalidData
         "config validation error: rewritten operator_strategy_revision did not persist")).

(** ** Changing the legacy target revision *)

Definition rewrite_operator_target_revision {T : TomlOps} (writable : bool)
    (operator_target_revision : string) : option string → Rewrite :=
  rewrite_file writable
    (λ raw document,
       if bool_decide (raw_target_source raw = None)
       then Returns (Err ConfigTargetSourceMissing)
       else
         document ← document_set ["negrisk"; "target_source"; "operator_target_revision"]
                      (TStr operator_target_revision) document;
         Returns (Ok document))
    (λ _ rewritten, _ ← map_err FileSchema (validated_target_source rewritten); Ok ()).

(** ** Enabling a smoke rollout *)

Fixpoint normalize_families (seen : gset string) (family_ids : list string) :
    result FileError (gset string) :=
  match family_ids with
  | [] => Ok seen
  | id :: family_ids' =>
      if bool_decide (trim id = "") then
        Err (FileInvalidInput "smoke rollout family ids must be non-empty")
      else normalize_families ({[trim id]} ∪ seen) family_ids'
  end.

Definition normalize_family_ids (family_ids : list string) : result FileError (list string) :=
  normalized ← normalize_families ∅ family_ids;
  if bool_decide (normalized = ∅) then
    Err (FileInvalidInput "smoke rollout requires at least one family id")
  else Ok (sort_by str_cmp (elements normalized)).

Definition family_array (family_ids : list string) : Toml := TArr (TStr <$> family_ids).

Definition use_route_owned_rollout (raw : RawAxiomConfig) : bool :=
  bool_decide (is_Some (rc_strategy_control raw)) || bool_decide (is_Some (raw_route_rollout raw)).

Definition set_route_rollout (families : Toml) : TomlFields → outcome TomlFields :=
  in_table "strategies" (in_table "neg_risk" (in_table "rollout" (λ rollout, Returns
    (toml_insert "ready_scopes" families (toml_insert "approved_scopes" families rollout))))).

Definition set_legacy_rollout (families : Toml) (document : TomlFields) : outcome TomlFields :=
  document ← document_set ["negrisk"; "rollout"; "approved_families"] families document;
  document_set ["negrisk"; "rollout"; "ready_families"] families document.

(** The lists of the rollout that was written. *)
Definition persisted_rollout (route_owned : bool) (raw : RawAxiomConfig) :
    result FileError (list string * list string) :=
  if route_owned then
    rollout ← ok_or (raw_route_rollout raw) (FileInvalidData
      "config validation error: missing required section: strategies.neg_risk.rollout");
    Ok (srr_approved_scopes rollout, srr_ready_scopes rollout)
  else
    rollout ← ok_or (raw_negrisk_rollout raw) (FileInvalidData
      "config validation error: missing required section: negrisk.rollout");
    Ok (nrr_approved_families rollout, nrr_ready_families rollout).

Definition edit_smoke_rollout (families : list string) (raw : RawAxiomConfig)
    (document : TomlFields) : outcome (result FileError TomlFields) :=
  if use_route_owned_rollout raw then
    document ← set_route_rollout (family_array families) document;
    Returns (Ok document)
  else if bool_decide (raw_target_source raw = None) then
    Returns (Err ConfigTargetSourceMissing)
  else
    document ← set_legacy_rollout (family_array families) document;
    Returns (Ok document).

(** The families are normalised after the file was read and validated; nothing but the
    error reported depends on it. *)
Definition rewrite_smoke_rollout_families {T : TomlOps} (writable : bool)
    (family_ids : list string) : option string → Rewrite :=
  rewrite_file writable
    (λ raw document,
       families ←? Returns (normalize_family_ids family_ids);
       edit_smoke_rollout families raw document)
    (λ raw rewritten_raw,
       families ← normalize_family_ids family_ids;
       persisted ← persisted_rollout (use_route_owned_rollout raw) rewritten_raw;
       if bool_decide (persisted = (families, families)) then Ok ()
       else Err (FileInvalidData
         "config validation error: rewritten smoke rollout families did not persist")).
