(* ===== verification/Externals.v ===== *)
(** * Third-party code the engine relies on

    [rust_decimal], [chrono], [serde_json] and [sha2] are not part of the
    repository: their types and the operations the source uses are the fields of
    one class, and what a theorem needs of them is a law class of its own.
    [Micros] is a concrete instance (six-digit fixed point numbers, integer
    instants) on which the definitions run. *)

From Stdlib Require String.
From S2P Require Import Prelude.

(** The two strategies of [rust_decimal::RoundingStrategy] the source uses. *)
Inductive RoundingStrategy := ToZero | ToPositiveInfinity.

(** The arithmetic operators of [Decimal] panic on overflow and on division by
    zero: [None] is that panic. [dec_normalized d] is
    [d.normalize().to_string()]; the order on [Decimal] is numeric, so [1.0] and
    [1.00] compare equal. *)
Class Externals := {
  Decimal : Type;
  dec_new : Z → Z → Decimal;
  dec_cmp : Decimal → Decimal → comparison;
  dec_add : Decimal → Decimal → option Decimal;
  dec_sub : Decimal → Decimal → option Decimal;
  dec_mul : Decimal → Decimal → option Decimal;
  dec_div : Decimal → Decimal → option Decimal;
  dec_fract : Decimal → Decimal;
  dec_round_dp : RoundingStrategy → Z → Decimal → Decimal;
  dec_normalized : Decimal → string;
  DateTime : Type;
  #[global] dt_eq_dec :: EqDecision DateTime;
  dt_cmp : DateTime → DateTime → comparison;
  Duration : Type;
  dt_sub : DateTime → DateTime → Duration;
  dur_cmp : Duration → Duration → comparison;
  JsonValue : Type;
  sha256 : string → list Z;
}.

Section derived.
Context {X : Externals}.

Definition dec_zero : Decimal := dec_new 0 0.
Definition dec_one : Decimal := dec_new 1 0.

Definition dec_eqb (a b : Decimal) : bool :=
  match dec_cmp a b with Eq => true | _ => false end.
Definition dec_ltb (a b : Decimal) : bool :=
  match dec_cmp a b with Lt => true | _ => false end.
Definition dec_leb (a b : Decimal) : bool :=
  match dec_cmp a b with Gt => false | _ => true end.

(** [Ord::max]: the second argument when they compare equal. *)
Definition dt_max (a b : DateTime) : DateTime :=
  match dt_cmp a b with Gt => a | _ => b end.
End derived.

(** ** Laws *)

(** [Ord for Decimal] and [Ord for DateTime<Utc>] are total orders. *)
Class OrderLaws (X : Externals) : Prop := {
  #[global] dec_cmp_total :: TotalPreorder dec_cmp;
  #[global] dt_cmp_total :: TotalPreorder dt_cmp;
  #[global] dt_cmp_eq :: CmpEq dt_cmp;
}.

(** Rounding, and the sign of differences and products, as [rust_decimal]
    documents them. *)
Class RoundingLaws (X : Externals) : Prop := {
  round_to_zero_le dp d :
    dec_leb dec_zero d = true → dec_leb (dec_round_dp ToZero dp d) d = true;
  round_to_zero_nonneg dp d :
    dec_leb dec_zero d = true → dec_leb dec_zero (dec_round_dp ToZero dp d) = true;
  round_up_ge dp d : dec_leb d (dec_round_dp ToPositiveInfinity dp d) = true;
  sub_nonneg a b c :
    dec_leb b a = true → dec_sub a b = Some c → dec_leb dec_zero c = true;
  mul_nonneg a b c :
    dec_leb dec_zero a = true → dec_leb dec_zero b = true →
    dec_mul a b = Some c → dec_leb dec_zero c = true;
  add_mono a a' b b' c c' :
    dec_leb a a' = true → dec_leb b b' = true →
    dec_add a b = Some c → dec_add a' b' = Some c' → dec_leb c c' = true;
}.

(** ** A concrete instance

    Numbers are counted in millionths and instants in seconds. *)
Definition Micros : Externals := {|
  Decimal := Z;
  dec_new n s := n * 10 ^ 6 / 10 ^ s;
  dec_cmp := Z.compare;
  dec_add a b := Some (a + b);
  dec_sub a b := Some (a - b);
  dec_mul a b := Some (Z.quot (a * b) (10 ^ 6));
  dec_div a b := if bool_decide (b = 0) then None else Some (Z.quot (a * 10 ^ 6) b);
  dec_fract a := Z.rem a (10 ^ 6);
  dec_round_dp st dp a :=
    let q := 10 ^ (6 - Z.min dp 6) in
    match st with
    | ToZero => Z.quot a q * q
    | ToPositiveInfinity => - ((- a) / q) * q
    end;
  dec_normalized a := pretty a;
  DateTime := Z;
  dt_cmp := Z.compare;
  Duration := Z;
  dt_sub a b := a - b;
  dur_cmp := Z.compare;
  JsonValue := unit;
  sha256 s := Z.of_nat <$> (Ascii.nat_of_ascii <$> String.list_ascii_of_string s);
|}.

#[export] Instance Micros_order_laws : OrderLaws Micros.
Proof. split; exact _. Qed.

Lemma Micros_leb a b : dec_leb (X := Micros) a b = true ↔ (a : Z) <= b.
Proof.
  unfold dec_leb. simpl. destruct (Z.compare_spec a b); split; intros; try done; lia.
Qed.

#[export] Instance Micros_rounding_laws : RoundingLaws Micros.
Proof.
  assert (∀ dp, 1 <= 10 ^ (6 - Z.min dp 6)) as Hq.
  { intros. assert (0 < 10 ^ (6 - Z.min dp 6)) by (apply Z.pow_pos_nonneg; lia). lia. }
  assert (@dec_zero Micros = 0) as E0 by reflexivity.
  split; intros *; rewrite ?E0, !Micros_leb; simpl.
  - specialize (Hq dp). set (q := 10 ^ _) in *. intros. rewrite Z.quot_div_nonneg by lia.
    pose proof (Z.mul_div_le d q). lia.
  - specialize (Hq dp). set (q := 10 ^ _) in *. intros. rewrite Z.quot_div_nonneg by lia.
    pose proof (Z.div_pos d q). nia.
  - specialize (Hq dp). set (q := 10 ^ _) in *. pose proof (Z.mul_div_le (- d) q). nia.
  - intros ? [= <-]. lia.
  - intros ?? [= <-]. apply Z.quot_pos; nia.
  - intros ?? [= <-] [= <-]. lia.
Qed.
