(* ===== verification/Json.v ===== *)
(** * JSON values

    The values the program builds for and reads from [serde_json], shared by the
    execution records, the discovery artifacts and the durable rows. *)

From S2P Require Import Prelude Externals.

(** ** Values

    [json_text] is [serde_json::to_string]; [json_literal] is the value of a raw
    literal, [None] when [RawValue::from_string] refuses it; [json_decimal] is how
    [rust_decimal] serialises a number. The numbers the program writes are
    integers. *)
Inductive Json :=
| JNull
| JBool (b : bool)
| JNumber (n : Z)
| JString (s : string)
| JArray (l : list Json)
| JObject (fields : list (string * Json)).

Class JsonOps {X : Externals} := {
  json_text : Json → string;
  json_literal : string → option Json;
  json_decimal : Decimal → Json;
}.

(** A [serde_json::Value] object is a [BTreeMap]. *)
Definition json_object (fields : list (string * Json)) : Json :=
  JObject (sort_by (cmp_on fst str_cmp) fields).

Definition json_option (s : option string) : Json :=
  match s with Some s => JString s | None => JNull end.

#[export] Instance Json_eq_dec : EqDecision Json.
Proof.
  refine (fix go (x y : Json) {struct x} : Decision (x = y) :=
    match x, y with
    | JNull, JNull => left eq_refl
    | JBool a, JBool b => cast_if (decide (a = b))
    | JNumber a, JNumber b => cast_if (decide (a = b))
    | JString a, JString b => cast_if (decide (a = b))
    | JArray a, JArray b =>
        cast_if ((fix go_list (a b : list Json) {struct a} : Decision (a = b) :=
          match a, b with
          | [], [] => left eq_refl
          | x :: a', y :: b' => cast_if_and (go x y) (go_list a' b')
          | _, _ => right _
          end) a b)
    | JObject a, JObject b =>
        cast_if ((fix go_fields (a b : list (string * Json)) {struct a} : Decision (a = b) :=
          match a, b with
          | [], [] => left eq_refl
          | (k, x) :: a', (l, y) :: b' =>
              cast_if_and3 (decide (k = l)) (go x y) (go_fields a' b')
          | _, _ => right _
          end) a b)
    | _, _ => right _
    end); clear go; congruence.
Defined.

(** ** Reading *)

Fixpoint field_get (k : string) (fields : list (string * Json)) : option Json :=
  match fields with
  | [] => None
  | (k', v) :: fields' => if decide (k' = k) then Some v else field_get k fields'
  end.

(** [value.get(key)] with a string key: [None] unless the value is an object. *)
Definition json_get (k : string) (v : Json) : option Json :=
  match v with JObject fields => field_get k fields | _ => None end.

Definition json_as_str (v : Json) : option string :=
  match v with JString s => Some s | _ => None end.

Definition json_as_array (v : Json) : option (list Json) :=
  match v with JArray l => Some l | _ => None end.

(** [value.as_i64()]: integers that fit. *)
Definition json_as_i64 (v : Json) : option Z :=
  match v with
  | JNumber n => if bool_decide (- 2 ^ 63 <= n < 2 ^ 63) then Some n else None
  | _ => None
  end.

(** [map.insert(key, value)] on a [serde_json::Map]. *)
Definition field_insert (k : string) (v : Json) (fields : list (string * Json)) :
    list (string * Json) :=
  insert_by (cmp_on fst str_cmp) (k, v) (List.filter (λ f, negb (bool_decide (f.1 = k))) fields).

(** ** Lemmas *)

Lemma insert_by_field_get k x fields :
  x.1 ≠ k → field_get k (insert_by (cmp_on fst str_cmp) x fields) = field_get k fields.
Proof.
  intros Hx. destruct x as [k' v]. simpl in Hx.
  induction fields as [|[k2 v2] fields IH]; simpl; [by rewrite decide_False|].
  destruct (cmp_on fst str_cmp (k', v) (k2, v2)); simpl; rewrite ?IH;
    repeat case_decide; congruence.
Qed.

Lemma insert_by_field_get_eq k v fields :
  field_get k fields = None →
  field_get k (insert_by (cmp_on fst str_cmp) (k, v) fields) = Some v.
Proof.
  induction fields as [|[k2 v2] fields IH]; simpl; [by rewrite decide_True|].
  case_decide as E; [done|]. intros Hn.
  destruct (cmp_on fst str_cmp (k, v) (k2, v2)); simpl; rewrite ?(decide_True (P := k = k)) by done;
    try done. rewrite decide_False by done. auto.
Qed.

Lemma field_get_filter_ne k k' fields :
  k ≠ k' →
  field_get k (List.filter (λ f, negb (bool_decide (f.1 = k'))) fields) = field_get k fields.
Proof.
  intros Hk. induction fields as [|[k2 v2] fields IH]; simpl; [done|].
  case_bool_decide as E; simpl in *; rewrite IH; [|done].
  subst. by rewrite decide_False.
Qed.

Lemma field_get_filter_eq k fields :
  field_get k (List.filter (λ f, negb (bool_decide (f.1 = k))) fields) = None.
Proof.
  induction fields as [|[k2 v2] fields IH]; simpl; [done|].
  case_bool_decide as E; simpl in *; [done|]. by rewrite decide_False.
Qed.

Lemma field_get_insert k v fields : field_get k (field_insert k v fields) = Some v.
Proof. apply insert_by_field_get_eq, field_get_filter_eq. Qed.

Lemma field_get_insert_ne k k' v fields :
  k ≠ k' → field_get k (field_insert k' v fields) = field_get k fields.
Proof.
  intros Hk. unfold field_insert. rewrite insert_by_field_get by (simpl; congruence).
  by apply field_get_filter_ne.
Qed.

(** The fields of a sorted object are found as in the list it was built from, when
    their names are distinct. *)
Lemma json_get_object k fields : NoDup fields.*1 → json_get k (json_object fields) = field_get k fields.
Proof.
  unfold json_object; simpl. induction fields as [|[k' v'] fields IH]; [done|]. simpl.
  rewrite NoDup_cons. intros [Hn Hnd]. case_decide as E.
  - subst. apply insert_by_field_get_eq. rewrite IH by done.
    clear IH Hnd. induction fields as [|[k2 v2] fields IH]; [done|]. simpl in *.
    rewrite decide_False by set_solver. apply IH. set_solver.
  - rewrite insert_by_field_get by done. auto.
Qed.
