(* ===== verification/Domain.v ===== *)
(** * The domain crate: plain data

    The records and enums of [crates/domain/src] that the other components
    exchange, with their constructors and setters. The newtypes over [String]
    ([TokenId], [OrderId], ...) are strings here. *)

From S2P Require Import Prelude Externals.

Notation EventId := string (only parsing).
Notation EventFamilyId := string (only parsing).
Notation MarketId := string (only parsing).
Notation ConditionId := string (only parsing).
Notation TokenId := string (only parsing).
Notation OrderId := string (only parsing).

(** ** identifiers.rs *)

Inductive MarketRoute := Standard | NegRisk.
#[export] Instance MarketRoute_eq_dec : EqDecision MarketRoute.
Proof. solve_decision. Defined.

Record IdentifierRecord := {
  ir_event_id : EventId;
  ir_event_family_id : EventFamilyId;
  ir_market_id : MarketId;
  ir_condition_id : ConditionId;
  ir_token_id : TokenId;
  ir_outcome_label : string;
  ir_route : MarketRoute;
}.

(** ** decision.rs *)

Record IntentCandidate := {
  ic_intent_id : string;
  ic_source_snapshot_id : string;
  ic_route : string;
  ic_scope : string;
}.

Record RecoveryIntent := {
  ri_recovery_id : string;
  ri_source_snapshot_id : string;
  ri_scope : string;
}.

Inductive DecisionInput :=
| Strategy (intent : IntentCandidate)
| Recovery (intent : RecoveryIntent).

Definition decision_input_id (i : DecisionInput) : string :=
  match i with
  | Strategy intent => ic_intent_id intent
  | Recovery intent => ri_recovery_id intent
  end.

Inductive ExecutionMode := Disabled | Shadow | Live | ReduceOnly | RecoveryOnly.
#[export] Instance ExecutionMode_eq_dec : EqDecision ExecutionMode.
Proof. solve_decision. Defined.

Inductive DecisionVerdict := Approved | Rejected | Deferred | ReconcileRequiredVerdict.
#[export] Instance DecisionVerdict_eq_dec : EqDecision DecisionVerdict.
Proof. solve_decision. Defined.

Inductive StateConfidence := Certain | Uncertain.
#[export] Instance StateConfidence_eq_dec : EqDecision StateConfidence.
Proof. solve_decision. Defined.

Record ActivationDecision := {
  ad_mode : ExecutionMode;
  ad_scope : string;
  ad_reason : string;
  ad_policy_version : string;
  ad_matched_rule_id : option string;
}.

(** ** execution.rs *)

Record ExecutionRequest := {
  er_request_id : string;
  er_decision_input_id : string;
  er_snapshot_id : string;
  er_route : string;
  er_scope : string;
  er_activation_mode : ExecutionMode;
  er_matched_rule_id : option string;
}.

Inductive ExecutionAttemptOutcome :=
| Succeeded | ShadowRecorded | FailedDefinitive | FailedAmbiguousOutcome | RetryExhausted.
#[export] Instance ExecutionAttemptOutcome_eq_dec : EqDecision ExecutionAttemptOutcome.
Proof. solve_decision. Defined.

Record ExecutionAttemptContext := {
  ac_attempt_id : string;
  ac_snapshot_id : string;
  ac_execution_mode : ExecutionMode;
  ac_route : string;
  ac_scope : string;
  ac_matched_rule_id : option string;
}.

Record ExecutionReceipt := {
  rc_attempt_id : string;
  rc_outcome : ExecutionAttemptOutcome;
  rc_submission_ref : option string;
  rc_pending_ref : option string;
}.

Definition receipt_new (attempt_id : string) (outcome : ExecutionAttemptOutcome) :
    ExecutionReceipt :=
  {| rc_attempt_id := attempt_id; rc_outcome := outcome;
     rc_submission_ref := None; rc_pending_ref := None |}.

Definition with_submission_ref (r : ExecutionReceipt) (s : string) : ExecutionReceipt :=
  {| rc_attempt_id := rc_attempt_id r; rc_outcome := rc_outcome r;
     rc_submission_ref := Some s; rc_pending_ref := rc_pending_ref r |}.

Definition with_pending_ref (r : ExecutionReceipt) (s : string) : ExecutionReceipt :=
  {| rc_attempt_id := rc_attempt_id r; rc_outcome := rc_outcome r;
     rc_submission_ref := rc_submission_ref r; rc_pending_ref := Some s |}.

Record LiveSubmissionRecord := {
  ls_submission_ref : string;
  ls_attempt_id : string;
  ls_route : string;
  ls_scope : string;
  ls_provider : string;
}.

Inductive LiveSubmitOutcome :=
| Accepted (submission_record : LiveSubmissionRecord)
| RejectedDefinitive (reason : string)
| AcceptedButUnconfirmed (submission_record : option LiveSubmissionRecord) (pending_ref : string)
| Ambiguous (pending_ref reason : string).

Definition is_accepted (o : LiveSubmitOutcome) : bool :=
  match o with Accepted _ | AcceptedButUnconfirmed _ _ => true | _ => false end.

Definition is_ambiguous (o : LiveSubmitOutcome) : bool :=
  match o with Ambiguous _ _ => true | _ => false end.

Record ExecutionAttempt := {
  ea_attempt_id : string;
  ea_plan_id : string;
  ea_snapshot_id : string;
  ea_attempt_no : Z;
}.

(** ** inventory.rs *)

Inductive InventoryBucket :=
| Free | ReservedForOrder | MatchedUnsettled | PendingCtfIn | PendingCtfOut
| Redeemable | Quarantined.
#[export] Instance InventoryBucket_eq_dec : EqDecision InventoryBucket.
Proof. solve_decision. Defined.

(** The order in which the variants are declared; it also encodes them as keys. *)
Definition bucket_index (b : InventoryBucket) : nat :=
  match b with
  | Free => 0 | ReservedForOrder => 1 | MatchedUnsettled => 2 | PendingCtfIn => 3
  | PendingCtfOut => 4 | Redeemable => 5 | Quarantined => 6
  end.

Definition bucket_of_index (n : nat) : option InventoryBucket :=
  [Free; ReservedForOrder; MatchedUnsettled; PendingCtfIn; PendingCtfOut;
   Redeemable; Quarantined] !! n.

#[export] Instance InventoryBucket_countable : Countable InventoryBucket.
Proof. refine (inj_countable bucket_index bucket_of_index _). by intros []. Defined.

Inductive WalletRoute := WalletEoa | WalletProxy | WalletSafe.
Inductive SignatureType := SigEoa | SigProxy | SigSafe.
Inductive ApprovalStatus :=
| ApprovalUnknown | ApprovalMissing | ApprovalPending | ApprovalApproved | ApprovalRejected.
#[export] Instance ApprovalStatus_eq_dec : EqDecision ApprovalStatus.
Proof. solve_decision. Defined.

(** The fields in the order [token_id], [spender], [owner_address]. *)
Record ApprovalKey := {
  ak_token_id : TokenId;
  ak_spender : string;
  ak_owner_address : string;
}.
#[export] Instance ApprovalKey_eq_dec : EqDecision ApprovalKey.
Proof. solve_decision. Defined.
#[export] Instance ApprovalKey_countable : Countable ApprovalKey.
Proof.
  refine (inj_countable' (λ k, (ak_token_id k, ak_spender k, ak_owner_address k))
    (λ '(t, s, o), {| ak_token_id := t; ak_spender := s; ak_owner_address := o |}) _).
  by intros [].
Defined.

(** ** order.rs *)

Record SignedOrderIdentity := {
  so_signed_order_hash : string;
  so_salt : string;
  so_nonce : string;
  so_signature : string;
}.
#[export] Instance SignedOrderIdentity_eq_dec : EqDecision SignedOrderIdentity.
Proof. solve_decision. Defined.

Inductive SubmissionState :=
| SubmissionDraft | SubmissionPlanned | RiskApproved | SubmissionSigned
| SubmissionSubmitted | SubmissionAcked | SubmissionRejected | SubmissionUnknown.

Inductive VenueOrderState :=
| VenueLive | VenueMatched | VenueDelayed | VenueUnmatched | CancelPending
| VenueCancelled | VenueExpired | VenueUnknown.

Inductive SettlementState :=
| SettlementMatched | SettlementMined | SettlementConfirmed | SettlementRetrying
| SettlementFailed | SettlementUnknown.

(** ** resolution.rs *)

Inductive ResolutionStatus := Unresolved | Resolved | ResolutionCancelled.
#[export] Instance ResolutionStatus_eq_dec : EqDecision ResolutionStatus.
Proof. solve_decision. Defined.

Inductive DisputeState := DisputeNone | Disputed | Challenged | UnderReview.
#[export] Instance DisputeState_eq_dec : EqDecision DisputeState.
Proof. solve_decision. Defined.

(** ** facts.rs *)

Inductive ExternalFactPayloadData :=
| FamilyDiscoveryObserved (family_id : string)
| FamilyBackfillObserved (family_id cursor : string) (complete : bool)
| NegRiskLiveSubmitObserved (attempt_id scope submission_ref : string)
| NegRiskLiveReconcileObserved (pending_ref scope : string) (terminal : bool)
| RuntimeAttentionObserved (source scope_id attention_kind reason : string).

(** ** candidates.rs *)

Record DiscoverySourceAnchor := {
  ds_source_kind : string;
  ds_source_session_id : string;
  ds_source_event_id : string;
  ds_normalizer_version : string;
}.

Section timed.
Context {X : Externals}.

Record ApprovalState := {
  ap_token_id : TokenId;
  ap_spender : string;
  ap_owner_address : string;
  ap_funder_address : string;
  ap_wallet_route : WalletRoute;
  ap_signature_type : SignatureType;
  ap_allowance : Decimal;
  ap_required_min_allowance : Decimal;
  ap_last_checked_at : DateTime;
  ap_approval_status : ApprovalStatus;
}.

Record Order := {
  o_order_id : OrderId;
  o_market_id : MarketId;
  o_condition_id : ConditionId;
  o_token_id : TokenId;
  o_quantity : Decimal;
  o_price : Decimal;
  o_submission_state : SubmissionState;
  o_venue_state : VenueOrderState;
  o_settlement_state : SettlementState;
  o_signed_order : option SignedOrderIdentity;
}.

Record ResolutionState := {
  rs_condition_id : ConditionId;
  rs_resolution_status : ResolutionStatus;
  rs_payout_vector : list Decimal;
  rs_resolved_at : option DateTime;
  rs_dispute_state : DisputeState;
  rs_redeemable_at : option DateTime;
}.

Record ExternalFactEvent := {
  ev_source_kind : string;
  ev_source_session_id : string;
  ev_source_event_id : string;
  ev_normalizer_version : string;
  ev_observed_at : DateTime;
  ev_raw_payload_hash : option string;
  ev_payload : option ExternalFactPayloadData;
}.

Definition event_new (kind session event normalizer : string) (at_ : DateTime)
    (payload : option ExternalFactPayloadData) : ExternalFactEvent :=
  {| ev_source_kind := kind; ev_source_session_id := session; ev_source_event_id := event;
     ev_normalizer_version := normalizer; ev_observed_at := at_;
     ev_raw_payload_hash := None; ev_payload := payload |}.

Definition event_plain kind session event normalizer at_ : ExternalFactEvent :=
  event_new kind session event normalizer at_ None.

Definition negrisk_live_submit_observed session event attempt_id scope submission_ref at_ :=
  event_new "negrisk_live_submit" session event "v1-negrisk-live-submit" at_
    (Some (NegRiskLiveSubmitObserved attempt_id scope submission_ref)).

Definition family_discovery_observed session event family_id at_ :=
  event_new "family_discovery" session event "v1-family-discovery" at_
    (Some (FamilyDiscoveryObserved family_id)).

Definition family_backfill_observed session event family_id cursor complete at_ :=
  event_new "family_backfill" session event "v1-family-backfill" at_
    (Some (FamilyBackfillObserved family_id cursor complete)).

Definition negrisk_live_reconcile_observed session event pending_ref scope terminal at_ :=
  event_new "negrisk_live_reconcile" session event "v1-negrisk-live-reconcile" at_
    (Some (NegRiskLiveReconcileObserved pending_ref scope terminal)).

Definition runtime_attention_observed source session event scope_id attention_kind reason at_ :=
  event_new "runtime_attention" session event ("v1-runtime-attention-" +:+ source) at_
    (Some (RuntimeAttentionObserved source scope_id attention_kind reason)).

Record FamilyDiscoveryRecord := {
  fd_family_id : EventFamilyId;
  fd_source : DiscoverySourceAnchor;
  fd_discovered_at : DateTime;
  fd_backfill_cursor : option string;
  fd_backfill_completed_at : option DateTime;
}.

Definition discovery_record_new family_id source discovered_at : FamilyDiscoveryRecord :=
  {| fd_family_id := family_id; fd_source := source; fd_discovered_at := discovered_at;
     fd_backfill_cursor := None; fd_backfill_completed_at := None |}.

Definition max_completion_timestamp (current candidate : option DateTime) : option DateTime :=
  match current, candidate with
  | Some a, Some b => Some (dt_max a b)
  | Some a, None => Some a
  | None, Some b => Some b
  | None, None => None
  end.

Definition record_backfill (r : FamilyDiscoveryRecord) (cursor : string)
    (completed_at : option DateTime) : FamilyDiscoveryRecord :=
  {| fd_family_id := fd_family_id r; fd_source := fd_source r;
     fd_discovered_at := fd_discovered_at r;
     fd_backfill_cursor := Some cursor;
     fd_backfill_completed_at :=
       max_completion_timestamp (fd_backfill_completed_at r) completed_at |}.

End timed.
