(* ===== verification/RuntimeMode.v ===== *)
(** * Runtime modes

    [domain/src/runtime_mode.rs]: the runtime policy (a mode and an overlay) and
    how venue and account statuses constrain it. *)

From S2P Require Import Prelude.

Module RuntimeMode.

Inductive RuntimeMode :=
| Bootstrapping | Healthy | Reconciling | Degraded | NoNewRisk | GlobalHalt.
#[export] Instance RuntimeMode_eq_dec : EqDecision RuntimeMode.
Proof. solve_decision. Defined.

Inductive RuntimeOverlay := ReduceOnlyOverlay | InventoryOnly | CancelOnly.
#[export] Instance RuntimeOverlay_eq_dec : EqDecision RuntimeOverlay.
Proof. solve_decision. Defined.

Inductive VenueTradingStatus := TradingEnabled | TradingDisabled | VenueCancelOnly.
Inductive AccountTradingStatus := Normal | CloseOnly | Geoblocked | Banned.

Record RuntimePolicy := {
  rp_mode : RuntimeMode;
  rp_overlay : option RuntimeOverlay;
}.
#[export] Instance RuntimePolicy_eq_dec : EqDecision RuntimePolicy.
Proof. solve_decision. Defined.

Definition default_overlay (m : RuntimeMode) : option RuntimeOverlay :=
  match m with
  | Bootstrapping => Some CancelOnly
  | _ => None
  end.

(** [self.overlay.or(self.mode.default_overlay())] *)
Definition effective_overlay (p : RuntimePolicy) : option RuntimeOverlay :=
  match rp_overlay p with
  | Some o => Some o
  | None => default_overlay (rp_mode p)
  end.

Definition constrain_mode (current_mode : RuntimeMode) (v : VenueTradingStatus)
    (a : AccountTradingStatus) : RuntimeMode :=
  match current_mode with
  | Bootstrapping | Reconciling | Degraded | NoNewRisk => current_mode
  | Healthy =>
      match v, a with
      | VenueCancelOnly, _ | _, CloseOnly => NoNewRisk
      | _, _ => Healthy
      end
  | GlobalHalt => GlobalHalt
  end.

Definition external_overlay (v : VenueTradingStatus) (a : AccountTradingStatus) :
    option RuntimeOverlay :=
  match v, a with
  | VenueCancelOnly, _ => Some CancelOnly
  | _, CloseOnly => Some ReduceOnlyOverlay
  | _, _ => None
  end.

Definition merge_overlay (current incoming : option RuntimeOverlay) : option RuntimeOverlay :=
  match current, incoming with
  | Some CancelOnly, _ | _, Some CancelOnly => Some CancelOnly
  | None, o | o, None => o
  | Some l, Some r => if decide (l = r) then Some l else Some CancelOnly
  end.

Definition constrained_by (p : RuntimePolicy) (v : VenueTradingStatus)
    (a : AccountTradingStatus) : RuntimePolicy :=
  if decide (rp_mode p = GlobalHalt) then p
  else match v, a with
  | TradingDisabled, _ | _, (Geoblocked | Banned) =>
      {| rp_mode := GlobalHalt; rp_overlay := None |}
  | _, _ =>
      {| rp_mode := constrain_mode (rp_mode p) v a;
         rp_overlay := merge_overlay (effective_overlay p) (external_overlay v a) |}
  end.

(** ** How restrictive a policy is *)

(** No overlay is the least restrictive, [CancelOnly] the most; the two others
    are incomparable. *)
Definition overlay_le (x y : option RuntimeOverlay) : Prop :=
  match x, y with
  | None, _ | _, Some CancelOnly => True
  | Some l, Some r => l = r
  | Some _, None => False
  end.

(** A policy that permits no more than [p] does: halted, or the same mode (or
    [NoNewRisk] for [Healthy]) under an overlay at least as restrictive. *)
Definition tightens (p q : RuntimePolicy) : Prop :=
  rp_mode q = GlobalHalt ∨
  ((rp_mode q = rp_mode p ∨ rp_mode p = Healthy ∧ rp_mode q = NoNewRisk) ∧
   overlay_le (effective_overlay p) (effective_overlay q)).

(** Constraining a policy by a venue and an account status never loosens
    it, halts it whenever trading is disabled or the account is blocked, changes
    nothing when repeated, and does not depend on the order in which two status
    pairs are observed. *)
Theorem constrained_by_tightens p v a v' a' :
  tightens p (constrained_by p v a) ∧
  (rp_mode (constrained_by p v a) = GlobalHalt ↔
     rp_mode p = GlobalHalt ∨ v = TradingDisabled ∨ a = Geoblocked ∨ a = Banned) ∧
  constrained_by (constrained_by p v a) v a = constrained_by p v a ∧
  constrained_by (constrained_by p v a) v' a' = constrained_by (constrained_by p v' a') v a.
Proof.
  split_and!.
  - destruct p as [[] [[]|]], v, a; vm_compute; naive_solver.
  - destruct p as [[] [[]|]], v, a; vm_compute; naive_solver.
  - by destruct p as [[] [[]|]], v, a.
  - by destruct p as [[] [[]|]], v, a, v', a'.
Qed.

End RuntimeMode.
