(* ===== verification/StrategyControl.v ===== *)
(** * Strategy-control identity

    [domain/src/strategy_control.rs]: strategy keys and the canonical semantic
    digest that decides whether two strategy artifacts mean the same. *)

From S2P Require Import Prelude Externals Text.

Record StrategyKey := {
  sk_route : string;
  sk_scope : string;
}.
#[export] Instance StrategyKey_eq_dec : EqDecision StrategyKey.
Proof. solve_decision. Defined.

Section digest.
Context {X : Externals}.

Record StrategyArtifactSemanticDigestInput := {
  di_key : StrategyKey;
  di_route_policy_version : string;
  di_canonical_semantic_payload : string;
  di_source_snapshot_id : option string;
  di_source_session_id : option string;
  di_observed_at : option DateTime;
  di_strategy_candidate_revision : option string;
  di_adoptable_strategy_revision : option string;
  di_provenance_explanation : option string;
}.

(** [format!("{}:{value}", value.len())] *)
Definition encode_component (value : string) : string := length_prefixed value.

Definition canonical_strategy_artifact_semantic_digest
    (input : StrategyArtifactSemanticDigestInput) : string :=
  join "|"
    ["strategy-artifact-semantic-v1";
     encode_component (sk_route (di_key input));
     encode_component (sk_scope (di_key input));
     encode_component (di_route_policy_version input);
     encode_component (di_canonical_semantic_payload input)].

(** Two artifacts have the same semantic digest exactly when their key,
    route policy version and canonical payload agree: the digest ignores every
    provenance field and never confuses the fields it joins, whatever bytes they
    hold. *)
Theorem semantic_digest_eq_iff a b :
  canonical_strategy_artifact_semantic_digest a = canonical_strategy_artifact_semantic_digest b ↔
  di_key a = di_key b ∧
  di_route_policy_version a = di_route_policy_version b ∧
  di_canonical_semantic_payload a = di_canonical_semantic_payload b.
Proof.
  unfold canonical_strategy_artifact_semantic_digest, encode_component. split.
  - unfold join. intros E%append_inj_l%append_inj_l.
    apply length_prefixed_inj in E as [Hr E%append_inj_l].
    apply length_prefixed_inj in E as [Hs E%append_inj_l].
    apply length_prefixed_inj in E as [Hv E%append_inj_l].
    rewrite <-(append_nil_r (length_prefixed (di_canonical_semantic_payload a))),
      <-(append_nil_r (length_prefixed (di_canonical_semantic_payload b))) in E.
    apply length_prefixed_inj in E as [Hp _].
    destruct (di_key a), (di_key b); simpl in *. by subst.
  - by intros (-> & -> & ->).
Qed.

End digest.
