(* ===== verification/Identifiers.v ===== *)
(** * The identifier map

    [domain/src/identifiers.rs]: tokens to conditions, conditions to their
    market, event, family and route, built from records that must not conflict. *)

From S2P Require Import Prelude Domain.

Inductive IdentifierMapError :=
| ConflictingTokenCondition (token_id : TokenId)
    (existing_condition_id new_condition_id : ConditionId)
| ConflictingConditionRoute (condition_id : ConditionId) (existing_route new_route : MarketRoute)
| ConflictingTokenMetadata (token_id : TokenId)
| ConflictingConditionMetadata (condition_id : ConditionId).

Record TokenMetadata := {
  tm_condition_id : ConditionId;
  tm_outcome_label : option string;
}.
#[export] Instance TokenMetadata_eq_dec : EqDecision TokenMetadata.
Proof. solve_decision. Defined.

Record ConditionMetadata := {
  cm_market_id : option MarketId;
  cm_event_id : option EventId;
  cm_event_family_id : option EventFamilyId;
  cm_route : option MarketRoute;
}.

#[export] Instance ConditionMetadata_eq_dec : EqDecision ConditionMetadata.
Proof. solve_decision. Defined.

Record IdentifierMap := {
  token_to_metadata : gmap TokenId TokenMetadata;
  condition_to_metadata : gmap ConditionId ConditionMetadata;
}.

Definition identifier_map_default : IdentifierMap :=
  {| token_to_metadata := ∅; condition_to_metadata := ∅ |}.

Definition merge_optional {T} `{EqDecision T} (existing incoming : option T) :
    option (option T) :=
  match existing, incoming with
  | Some e, Some i => if decide (e ≠ i) then None else Some (Some e)
  | Some e, None => Some (Some e)
  | None, Some i => Some (Some i)
  | None, None => Some None
  end.

Definition merge_metadata (existing incoming : ConditionMetadata) : option ConditionMetadata :=
  market_id ← merge_optional (cm_market_id existing) (cm_market_id incoming);
  event_id ← merge_optional (cm_event_id existing) (cm_event_id incoming);
  event_family_id ← merge_optional (cm_event_family_id existing) (cm_event_family_id incoming);
  route ← merge_optional (cm_route existing) (cm_route incoming);
  Some {| cm_market_id := market_id; cm_event_id := event_id;
          cm_event_family_id := event_family_id; cm_route := route |}.

Definition insert_token_metadata (m : IdentifierMap) (token_id : TokenId)
    (metadata : TokenMetadata) : result IdentifierMapError IdentifierMap :=
  match token_to_metadata m !! token_id with
  | Some existing =>
      if decide (tm_condition_id existing ≠ tm_condition_id metadata) then
        Err (ConflictingTokenCondition token_id
               (tm_condition_id existing) (tm_condition_id metadata))
      else if decide (existing ≠ metadata) then Err (ConflictingTokenMetadata token_id)
      else Ok m
  | None =>
      Ok {| token_to_metadata := <[token_id := metadata]> (token_to_metadata m);
            condition_to_metadata := condition_to_metadata m |}
  end.

Definition set_condition (m : IdentifierMap) (c : ConditionId) (cm : ConditionMetadata) :
    IdentifierMap :=
  {| token_to_metadata := token_to_metadata m;
     condition_to_metadata := <[c := cm]> (condition_to_metadata m) |}.

(** The merge is computed once: the source computes it to reject a conflict
    and again, after removing the entry, where it cannot fail. *)
Definition merge_condition_metadata (m : IdentifierMap) (condition_id : ConditionId)
    (incoming : ConditionMetadata) : result IdentifierMapError IdentifierMap :=
  match condition_to_metadata m !! condition_id with
  | Some existing =>
      let merged :=
        match merge_metadata existing incoming with
        | None => Err (ConflictingConditionMetadata condition_id)
        | Some merged => Ok (set_condition m condition_id merged)
        end in
      match cm_route existing, cm_route incoming with
      | Some er, Some nr =>
          if decide (er ≠ nr) then Err (ConflictingConditionRoute condition_id er nr)
          else merged
      | _, _ => merged
      end
  | None => Ok (set_condition m condition_id incoming)
  end.

(** [for x in xs { m.op(x)?; }] *)
Fixpoint try_fold {S A E} (f : S → A → result E S) (s : S) (l : list A) : result E S :=
  match l with
  | [] => Ok s
  | x :: l' => s' ← f s x; try_fold f s' l'
  end.

Definition identifier_map_new (token_conditions : list (TokenId * ConditionId))
    (condition_routes : list (ConditionId * MarketRoute)) :
    result IdentifierMapError IdentifierMap :=
  m ← try_fold (λ m tc, insert_token_metadata m tc.1
                  {| tm_condition_id := tc.2; tm_outcome_label := None |})
       identifier_map_default token_conditions;
  try_fold (λ m cr, merge_condition_metadata m cr.1
              {| cm_market_id := None; cm_event_id := None;
                 cm_event_family_id := None; cm_route := Some cr.2 |})
    m condition_routes.

Definition record_token_metadata (r : IdentifierRecord) : TokenMetadata :=
  {| tm_condition_id := ir_condition_id r; tm_outcome_label := Some (ir_outcome_label r) |}.

Definition record_condition_metadata (r : IdentifierRecord) : ConditionMetadata :=
  {| cm_market_id := Some (ir_market_id r); cm_event_id := Some (ir_event_id r);
     cm_event_family_id := Some (ir_event_family_id r); cm_route := Some (ir_route r) |}.

(** The body of the loop of [from_records]. *)
Definition insert_record (m : IdentifierMap) (r : IdentifierRecord) :
    result IdentifierMapError IdentifierMap :=
  m ← insert_token_metadata m (ir_token_id r) (record_token_metadata r);
  merge_condition_metadata m (ir_condition_id r) (record_condition_metadata r).

Definition from_records (records : list IdentifierRecord) :
    result IdentifierMapError IdentifierMap :=
  try_fold insert_record identifier_map_default records.

Definition condition_for_token (m : IdentifierMap) (t : TokenId) : option ConditionId :=
  tm_condition_id <$> token_to_metadata m !! t.

Definition outcome_label_for_token (m : IdentifierMap) (t : TokenId) : option string :=
  md ← token_to_metadata m !! t; tm_outcome_label md.

Definition market_for_condition (m : IdentifierMap) (c : ConditionId) : option MarketId :=
  md ← condition_to_metadata m !! c; cm_market_id md.

Definition event_for_condition (m : IdentifierMap) (c : ConditionId) : option EventId :=
  md ← condition_to_metadata m !! c; cm_event_id md.

Definition family_for_condition (m : IdentifierMap) (c : ConditionId) : option EventFamilyId :=
  md ← condition_to_metadata m !! c; cm_event_family_id md.

Definition route_for_condition (m : IdentifierMap) (c : ConditionId) : option MarketRoute :=
  md ← condition_to_metadata m !! c; cm_route md.

(** ** Specification *)

(** Two records agree: a token has one condition and label, a condition one
    market, event, family and route. *)
Definition records_agree (r s : IdentifierRecord) : Prop :=
  (ir_token_id r = ir_token_id s →
     ir_condition_id r = ir_condition_id s ∧ ir_outcome_label r = ir_outcome_label s) ∧
  (ir_condition_id r = ir_condition_id s →
     ir_market_id r = ir_market_id s ∧ ir_event_id r = ir_event_id s ∧
     ir_event_family_id r = ir_event_family_id s ∧ ir_route r = ir_route s).

Definition consistent (rs : list IdentifierRecord) : Prop :=
  ∀ r s, r ∈ rs → s ∈ rs → records_agree r s.

(** A map whose entries are exactly the [key]/[val] pairs of a list. *)
Definition indexes {K V A} `{Countable K} (key : A → K) (val : A → V)
    (m : gmap K V) (l : list A) : Prop :=
  ∀ k v, m !! k = Some v ↔ ∃ a, a ∈ l ∧ key a = k ∧ v = val a.

(** The map holds exactly what the records say. *)
Definition represents (m : IdentifierMap) (rs : list IdentifierRecord) : Prop :=
  indexes ir_token_id record_token_metadata (token_to_metadata m) rs ∧
  indexes ir_condition_id record_condition_metadata (condition_to_metadata m) rs.

(** ** Lemmas *)

Section indexes.
Context {K V A : Type} `{Countable K} (key : A → K) (val : A → V).
Implicit Types (m : gmap K V) (l : list A).

Lemma indexes_nil : indexes key val ∅ [].
Proof. intros k v. rewrite lookup_empty. set_solver. Qed.

Lemma indexes_fits m l a :
  indexes key val m l →
  (∀ v, m !! key a = Some v → v = val a) ↔ ∀ b, b ∈ l → key b = key a → val b = val a.
Proof.
  intros Hm. split.
  - intros Hf b Hb E. apply Hf, Hm. eauto.
  - intros Hb v (b & ? & ? & ->)%Hm. auto.
Qed.

Lemma indexes_snoc m l a :
  indexes key val m l → (∀ v, m !! key a = Some v → v = val a) →
  indexes key val (<[key a := val a]> m) (l ++ [a]).
Proof.
  intros Hm Hf k v. rewrite lookup_insert_Some, (Hm k v). split.
  - intros [[<- <-]|[? (s & ? & ?)]]; [exists a|exists s]; set_solver.
  - intros (s & [Hs| ->%list_elem_of_singleton]%elem_of_app & <- & ->); [|by left].
    destruct (decide (key a = key s)) as [E|]; [left|right]; [|by eauto].
    split; [done|]. symmetry. apply Hf, Hm. eauto.
Qed.
End indexes.

Lemma records_agree_iff r s :
  records_agree r s ↔
  (ir_token_id r = ir_token_id s → record_token_metadata r = record_token_metadata s) ∧
  (ir_condition_id r = ir_condition_id s →
     record_condition_metadata r = record_condition_metadata s).
Proof.
  unfold records_agree, record_token_metadata, record_condition_metadata. split.
  - intros [Ht Hc]. split; intros E; [destruct (Ht E)|destruct (Hc E) as (?&?&?&?)]; congruence.
  - intros [Ht Hc]. split; intros E; [injection (Ht E)|injection (Hc E)]; auto.
Qed.

Lemma records_agree_sym r s : records_agree r s → records_agree s r.
Proof. rewrite !records_agree_iff. naive_solver. Qed.

Lemma merge_optional_Some {T} `{EqDecision T} (a b : T) :
  merge_optional (Some a) (Some b) = if decide (a = b) then Some (Some a) else None.
Proof. unfold merge_optional. repeat case_decide; naive_solver. Qed.

Lemma merge_metadata_records r s :
  merge_metadata (record_condition_metadata r) (record_condition_metadata s) =
  if decide (record_condition_metadata r = record_condition_metadata s)
  then Some (record_condition_metadata r) else None.
Proof.
  unfold merge_metadata, record_condition_metadata; cbn -[merge_optional].
  rewrite !merge_optional_Some.
  repeat (case_decide; simpl); congruence.
Qed.

Lemma insert_token_metadata_Ok m t md m' :
  insert_token_metadata m t md = Ok m' ↔
  (∀ v, token_to_metadata m !! t = Some v → v = md) ∧
  m' = {| token_to_metadata := <[t := md]> (token_to_metadata m);
          condition_to_metadata := condition_to_metadata m |}.
Proof.
  unfold insert_token_metadata. destruct (token_to_metadata m !! t) as [v|] eqn:E; [|naive_solver].
  repeat case_decide; split; try naive_solver congruence.
  - intros [= <-]. subst v.
    split; [naive_solver|]. rewrite insert_id by done. by destruct m.
  - intros [Hv ->]. subst v. rewrite insert_id by done. by destruct m.
Qed.

Lemma merge_condition_metadata_Ok m rs r m' :
  indexes ir_condition_id record_condition_metadata (condition_to_metadata m) rs →
  merge_condition_metadata m (ir_condition_id r) (record_condition_metadata r) = Ok m' ↔
  (∀ v, condition_to_metadata m !! ir_condition_id r = Some v → v = record_condition_metadata r) ∧
  m' = set_condition m (ir_condition_id r) (record_condition_metadata r).
Proof.
  intros Hrep. unfold merge_condition_metadata.
  destruct (condition_to_metadata m !! _) as [v|] eqn:E; [|naive_solver].
  apply Hrep in E as (s & _ & _ & ->). rewrite merge_metadata_records. simpl.
  destruct (decide (record_condition_metadata s = record_condition_metadata r)) as [Es|Es].
  - rewrite decide_False by (injection Es; auto). rewrite Es. naive_solver.
  - case_decide; naive_solver.
Qed.

Lemma insert_record_Ok m rs r m' :
  represents m rs →
  insert_record m r = Ok m' ↔
  (∀ s, s ∈ rs → records_agree s r) ∧
  m' = {| token_to_metadata := <[ir_token_id r := record_token_metadata r]> (token_to_metadata m);
          condition_to_metadata :=
            <[ir_condition_id r := record_condition_metadata r]> (condition_to_metadata m) |}.
Proof.
  intros [Ht Hc]. unfold insert_record.
  setoid_rewrite records_agree_iff.
  pose proof (insert_token_metadata_Ok m (ir_token_id r) (record_token_metadata r)) as Hins.
  destruct (insert_token_metadata _ _ _) as [m1|e] eqn:E; simpl.
  - destruct (proj1 (Hins m1) eq_refl) as [Hf ->].
    rewrite (merge_condition_metadata_Ok _ rs) by done. simpl.
    rewrite (indexes_fits _ _ _ _ _ Hc). rewrite (indexes_fits _ _ _ _ _ Ht) in Hf.
    unfold set_condition; simpl. naive_solver.
  - split; [done|]. intros [Hf _]. exfalso.
    edestruct Hins as [_ Hi]. discriminate Hi. split; [|done].
    apply (indexes_fits _ _ _ _ _ Ht). naive_solver.
Qed.

Lemma insert_record_represents m rs r m' :
  represents m rs → insert_record m r = Ok m' → represents m' (rs ++ [r]).
Proof.
  intros Hrep [Hf ->]%(insert_record_Ok _ rs); [|done]. destruct Hrep as [Ht Hc].
  setoid_rewrite records_agree_iff in Hf.
  split; simpl; apply indexes_snoc; try done; eapply indexes_fits; naive_solver.
Qed.

Lemma try_fold_represents m rs rs' m' :
  represents m rs → try_fold insert_record m rs' = Ok m' → represents m' (rs ++ rs').
Proof.
  revert m rs. induction rs' as [|r rs' IH]; intros m rs Hrep; simpl.
  { intros [= <-]. by rewrite app_nil_r. }
  destruct (insert_record m r) as [m1|] eqn:E; simpl; [|done]. intros H.
  replace (rs ++ r :: rs') with ((rs ++ [r]) ++ rs') by by rewrite <-(assoc_L app).
  eauto using insert_record_represents.
Qed.

Lemma consistent_nil : consistent [].
Proof. intros ? ? []%elem_of_nil. Qed.

Lemma consistent_snoc rs r :
  consistent (rs ++ [r]) ↔ consistent rs ∧ ∀ s, s ∈ rs → records_agree s r.
Proof.
  unfold consistent. split; [set_solver|]. intros [Hc Hr] a b.
  rewrite !elem_of_app, !list_elem_of_singleton.
  intros [Ha| ->] [Hb| ->]; auto using records_agree_sym. unfold records_agree. naive_solver.
Qed.

Lemma try_fold_is_ok m rs rs' :
  represents m rs → consistent rs →
  is_ok (try_fold insert_record m rs') = true ↔ consistent (rs ++ rs').
Proof.
  revert m rs. induction rs' as [|r rs' IH]; intros m rs Hrep Hcs; simpl.
  { by rewrite app_nil_r. }
  replace (rs ++ r :: rs') with ((rs ++ [r]) ++ rs') by by rewrite <-(assoc_L app).
  destruct (insert_record m r) as [m1|] eqn:E; simpl.
  - apply IH; [by eapply insert_record_represents|].
    apply consistent_snoc. split; [done|]. by apply (insert_record_Ok _ rs) in E as [? _].
  - split; [done|]. intros Hc. assert (consistent (rs ++ [r])) as [_ Hr]%consistent_snoc.
    { intros a b ??. apply Hc; set_solver. }
    pose proof (proj2 (insert_record_Ok m rs r _ Hrep) (conj Hr eq_refl)). congruence.
Qed.

Lemma from_records_ok rs : is_ok (from_records rs) = true ↔ consistent rs.
Proof.
  assert (represents identifier_map_default []) as Hnil by (split; apply indexes_nil).
  unfold from_records. by rewrite (try_fold_is_ok _ [] rs) by auto using consistent_nil.
Qed.

(** [from_records] accepts a list of records exactly when no two of them
    conflict, whatever their order, and the map it builds answers every query
    with what the records say and nothing else. *)
Theorem from_records_spec rs :
  (is_ok (from_records rs) = true ↔ consistent rs) ∧
  ∀ m, from_records rs = Ok m →
    (∀ t c, condition_for_token m t = Some c ↔
       ∃ r, r ∈ rs ∧ ir_token_id r = t ∧ ir_condition_id r = c) ∧
    (∀ t l, outcome_label_for_token m t = Some l ↔
       ∃ r, r ∈ rs ∧ ir_token_id r = t ∧ ir_outcome_label r = l) ∧
    (∀ c f, family_for_condition m c = Some f ↔
       ∃ r, r ∈ rs ∧ ir_condition_id r = c ∧ ir_event_family_id r = f) ∧
    (∀ c k, market_for_condition m c = Some k ↔
       ∃ r, r ∈ rs ∧ ir_condition_id r = c ∧ ir_market_id r = k) ∧
    (∀ c e, event_for_condition m c = Some e ↔
       ∃ r, r ∈ rs ∧ ir_condition_id r = c ∧ ir_event_id r = e) ∧
    (∀ c k, route_for_condition m c = Some k ↔
       ∃ r, r ∈ rs ∧ ir_condition_id r = c ∧ ir_route r = k).
Proof.
  assert (represents identifier_map_default []) as Hnil by (split; apply indexes_nil).
  split; [apply from_records_ok|]. unfold from_records.
  intros m Hm%(try_fold_represents _ []); [|done]. destruct Hm as [Ht Hc].
  unfold condition_for_token, outcome_label_for_token, family_for_condition,
    market_for_condition, event_for_condition, route_for_condition.
  setoid_rewrite fmap_Some. setoid_rewrite bind_Some.
  unfold record_token_metadata, record_condition_metadata in Ht, Hc.
  split_and!; intros ? ?; split.
  all: try (intros (? & (? & ? & ? & ->)%Ht & ?); naive_solver).
  all: try (intros (? & (? & ? & ? & ->)%Hc & ?); naive_solver).
  all: intros (r & ? & ? & ?); eexists; (split; [apply Ht || apply Hc; by exists r|naive_solver]).
Qed.

Lemma from_records_spec_witness :
  let r := {| ir_event_id := "event-1"; ir_event_family_id := "family-1";
              ir_market_id := "market-1"; ir_condition_id := "condition-1";
              ir_token_id := "token-1"; ir_outcome_label := "Yes"; ir_route := NegRisk |} in
  ∃ m, from_records [r] = Ok m ∧ route_for_condition m "condition-1" = Some NegRisk.
Proof.
  intros r. eexists. split; [reflexivity|].
  apply (proj2 (from_records_spec [r]) _ eq_refl). exists r. by rewrite list_elem_of_singleton.
Defined.
