(* ===== verification/Facts.v ===== *)
(** * Facts

    [state/src/facts.rs]: the keys under which facts are deduplicated, the
    anchors they leave in the store, and the hint each fact carries for the
    applier. *)

From S2P Require Import Prelude Externals Domain.

Inductive DirtyDomain :=
| Candidates | Runtime | Orders | Inventory | Approvals | Resolution | Relayer
| NegRiskFamilies.
#[export] Instance DirtyDomain_eq_dec : EqDecision DirtyDomain.
Proof. solve_decision. Defined.

Definition domain_index (d : DirtyDomain) : nat :=
  match d with
  | Candidates => 0 | Runtime => 1 | Orders => 2 | Inventory => 3 | Approvals => 4
  | Resolution => 5 | Relayer => 6 | NegRiskFamilies => 7
  end.

Definition domain_of_index (n : nat) : option DirtyDomain :=
  [Candidates; Runtime; Orders; Inventory; Approvals; Resolution; Relayer;
   NegRiskFamilies] !! n.

#[export] Instance DirtyDomain_countable : Countable DirtyDomain.
Proof. refine (inj_countable domain_index domain_of_index _). by intros []. Defined.

(** [BTreeSet<DirtyDomain>] *)
Definition dirty_set_new (domains : list DirtyDomain) : gset DirtyDomain := list_to_set domains.

Record FactKey := {
  fk_source_kind : string;
  fk_source_session_id : string;
  fk_source_event_id : string;
  fk_normalizer_version : string;
}.
#[export] Instance FactKey_eq_dec : EqDecision FactKey.
Proof. solve_decision. Defined.
#[export] Instance FactKey_countable : Countable FactKey.
Proof.
  refine (inj_countable'
    (λ k, (fk_source_kind k, fk_source_session_id k, fk_source_event_id k,
           fk_normalizer_version k))
    (λ '(a, b, c, d), {| fk_source_kind := a; fk_source_session_id := b;
                         fk_source_event_id := c; fk_normalizer_version := d |}) _).
  by intros [].
Defined.

(** The tail [":{kind}:{session}:{event}:{normalizer}"] both references share. *)
Definition fact_key_suffix (k : FactKey) : string :=
  ":" +:+ fk_source_kind k +:+ ":" +:+ fk_source_session_id k +:+ ":" +:+
  fk_source_event_id k +:+ ":" +:+ fk_normalizer_version k.

Definition pending_ref_from_fact_key (k : FactKey) : string := "pending" +:+ fact_key_suffix k.

Record PendingReconcileAnchor := {
  pa_pending_ref : string;
  pa_submission_ref : string;
  pa_family_id : string;
  pa_route : string;
  pa_reason : string;
}.
#[export] Instance PendingReconcileAnchor_eq_dec : EqDecision PendingReconcileAnchor.
Proof. solve_decision. Defined.

Definition pending_from_ref_and_reason (pending_ref family_id route reason : string) :
    PendingReconcileAnchor :=
  {| pa_pending_ref := pending_ref; pa_submission_ref := pending_ref;
     pa_family_id := family_id; pa_route := route; pa_reason := reason |}.

Definition pending_from_live_submit (k : FactKey) (scope submission_ref : string) :
    PendingReconcileAnchor :=
  {| pa_pending_ref := pending_ref_from_fact_key k; pa_submission_ref := submission_ref;
     pa_family_id := scope; pa_route := fk_source_kind k; pa_reason := "live submit observed" |}.

Definition pending_from_runtime_attention (pending_ref source scope_id reason : string) :
    PendingReconcileAnchor :=
  pending_from_ref_and_reason pending_ref scope_id source reason.

Record RuntimeAttentionAnchor := {
  ra_attention_ref : string;
  ra_source : string;
  ra_scope_id : string;
  ra_attention_kind : string;
  ra_reason : string;
}.

Definition attention_from_fact_key (k : FactKey) (source scope_id attention_kind reason : string) :
    RuntimeAttentionAnchor :=
  {| ra_attention_ref := "attention" +:+ fact_key_suffix k;
     ra_source := source; ra_scope_id := scope_id;
     ra_attention_kind := attention_kind; ra_reason := reason |}.

Section facts.
Context {X : Externals}.

Definition fact_key_from_event (e : ExternalFactEvent) : FactKey :=
  {| fk_source_kind := ev_source_kind e; fk_source_session_id := ev_source_session_id e;
     fk_source_event_id := ev_source_event_id e;
     fk_normalizer_version := ev_normalizer_version e |}.

Inductive FactApplyHint :=
| NoHint
| FamilyDiscovery (record : FamilyDiscoveryRecord)
| FamilyBackfill (family_id cursor : string) (completed_at : option DateTime)
| PendingReconcile (anchor : PendingReconcileAnchor)
| RuntimeAttention (anchor : RuntimeAttentionAnchor)
| LiveReconcileObserved (pending_ref : string) (terminal : bool).

Record StateFactInput := {
  fi_event : ExternalFactEvent;
  fi_hint : FactApplyHint;
}.

Definition family_discovery_record (k : FactKey) (family_id : string) (observed_at : DateTime) :
    FamilyDiscoveryRecord :=
  discovery_record_new family_id
    {| ds_source_kind := fk_source_kind k; ds_source_session_id := fk_source_session_id k;
       ds_source_event_id := fk_source_event_id k;
       ds_normalizer_version := fk_normalizer_version k |}
    observed_at.

Definition state_fact_input_new (e : ExternalFactEvent) : StateFactInput :=
  let k := fact_key_from_event e in
  let hint :=
    match ev_payload e with
    | Some (FamilyDiscoveryObserved family_id) =>
        FamilyDiscovery (family_discovery_record k family_id (ev_observed_at e))
    | Some (FamilyBackfillObserved family_id cursor complete) =>
        FamilyBackfill family_id cursor (if complete then Some (ev_observed_at e) else None)
    | Some (NegRiskLiveSubmitObserved _ scope submission_ref) =>
        PendingReconcile (pending_from_live_submit k scope submission_ref)
    | Some (NegRiskLiveReconcileObserved pending_ref _ terminal) =>
        LiveReconcileObserved pending_ref terminal
    | Some (RuntimeAttentionObserved source scope_id attention_kind reason) =>
        if decide (attention_kind = "metadata_stale") then
          RuntimeAttention (attention_from_fact_key k source scope_id attention_kind reason)
        else
          PendingReconcile
            (pending_from_runtime_attention (pending_ref_from_fact_key k) source scope_id reason)
    | None => NoHint
    end in
  {| fi_event := e; fi_hint := hint |}.

Definition out_of_order_user_trade (e : ExternalFactEvent) : StateFactInput :=
  let k := fact_key_from_event e in
  {| fi_event := e;
     fi_hint := PendingReconcile
       (pending_from_ref_and_reason (pending_ref_from_fact_key k) (fk_source_session_id k)
          (fk_source_kind k) "user trade arrived out of authoritative order") |}.

Definition fact_key (f : StateFactInput) : FactKey := fact_key_from_event (fi_event f).

End facts.
