(* ===== verification/Store.v ===== *)
(** * The state store

    [state/src/store.rs] and [state/src/bootstrap.rs]: the authoritative store
    and every operation on it. A method that takes [&mut self] is a function from
    stores to stores; one that also returns a value returns a pair. *)

From S2P Require Import Prelude RecordSet Externals Domain RuntimeMode Facts.
Import RuntimeMode.

(** ** bootstrap.rs *)

Definition bootstrap_policy : RuntimePolicy :=
  {| rp_mode := Bootstrapping; rp_overlay := Some CancelOnly |}.

Definition reconcile_attention_policy : RuntimePolicy :=
  {| rp_mode := Reconciling; rp_overlay := Some CancelOnly |}.

Definition reconciled_policy : RuntimePolicy :=
  {| rp_mode := Healthy; rp_overlay := None |}.

Definition allows_automatic_repair (first_reconcile_succeeded : bool) (mode : RuntimeMode) : bool :=
  first_reconcile_succeeded &&
  negb (match mode with Bootstrapping | Reconciling | GlobalHalt => true | _ => false end).

(** ** Data *)

Record InventoryEntry := {
  ie_token_id : TokenId;
  ie_bucket : InventoryBucket;
}.
#[export] Instance InventoryEntry_eq_dec : EqDecision InventoryEntry.
Proof. solve_decision. Defined.
#[export] Instance InventoryEntry_countable : Countable InventoryEntry.
Proof.
  refine (inj_countable' (λ e, (ie_token_id e, ie_bucket e))
    (λ '(t, b), {| ie_token_id := t; ie_bucket := b |}) _).
  by intros [].
Defined.

Record RelayerTxSummary := {
  rt_tx_id : string;
  rt_order_id : option OrderId;
  rt_status : string;
}.

Record FullSetAnchor := {
  fa_state_version : Z;
  fa_committed_journal_seq : Z;
  fa_open_orders : list string;
}.

Inductive JournalConsumption :=
| Consumed | AlreadyBoundToSameFact | AlreadyBoundToDifferentFact | OutOfOrder.

(** [reconcile.rs] *)
Inductive ReconcileAttention :=
| DuplicateSignedOrder (order_id : OrderId) (signed_order_hash : string)
| IdentifierMismatch (token_id : TokenId)
    (expected_condition_id remote_condition_id : ConditionId)
| MissingRemoteOrder (order_id : OrderId)
| UnexpectedRemoteOrder (order_id : OrderId)
| OrderStateMismatch (order_id : OrderId)
| ApprovalMismatch (key : ApprovalKey)
| ResolutionMismatch (condition_id : ConditionId)
| RelayerTxMismatch (tx_id : string)
| InventoryMismatch (token_id : TokenId) (bucket : InventoryBucket).
#[export] Instance ReconcileAttention_eq_dec : EqDecision ReconcileAttention.
Proof. solve_decision. Defined.

Section store.
Context {X : Externals}.

Record InventorySnapshotRow := {
  isr_token_id : TokenId;
  isr_bucket : InventoryBucket;
  isr_quantity : Decimal;
}.

Record PendingFamilyBackfill := {
  pb_cursor : string;
  pb_completed_at : option DateTime;
}.

Record RemoteSnapshot := {
  rsn_open_orders : list Order;
  rsn_approvals : list ApprovalState;
  rsn_inventory : list (TokenId * InventoryBucket * Decimal);
  rsn_resolution_states : list ResolutionState;
  rsn_relayer_txs : list RelayerTxSummary;
  rsn_attention : list ReconcileAttention;
}.

Definition remote_snapshot_empty : RemoteSnapshot :=
  {| rsn_open_orders := []; rsn_approvals := []; rsn_inventory := [];
     rsn_resolution_states := []; rsn_relayer_txs := []; rsn_attention := [] |}.

Record StateStore := {
  state_version : Z;
  last_consumed_journal_seq : option Z;
  last_applied_journal_seq : option Z;
  fullset_anchor : option FullSetAnchor;
  runtime_mode : RuntimeMode;
  overlay : option RuntimeOverlay;
  first_reconcile_succeeded : bool;
  applied_fact_journal : gmap FactKey Z;
  consumed_journal : gmap Z FactKey;
  family_discovery_records : gmap string FamilyDiscoveryRecord;
  pending_family_backfills : gmap string PendingFamilyBackfill;
  pending_reconcile_anchors : gmap string PendingReconcileAnchor;
  runtime_attention_anchors : gmap string RuntimeAttentionAnchor;
  open_orders : gmap OrderId Order;
  approvals : gmap ApprovalKey ApprovalState;
  inventory : gmap InventoryEntry Decimal;
  resolution : gmap ConditionId ResolutionState;
  relayer_txs : gmap string RelayerTxSummary;
}.

#[export] Instance StateStore_eta : Eta StateStore := λ s,
  {| state_version := state_version s;
     last_consumed_journal_seq := last_consumed_journal_seq s;
     last_applied_journal_seq := last_applied_journal_seq s;
     fullset_anchor := fullset_anchor s;
     runtime_mode := runtime_mode s;
     overlay := overlay s;
     first_reconcile_succeeded := first_reconcile_succeeded s;
     applied_fact_journal := applied_fact_journal s;
     consumed_journal := consumed_journal s;
     family_discovery_records := family_discovery_records s;
     pending_family_backfills := pending_family_backfills s;
     pending_reconcile_anchors := pending_reconcile_anchors s;
     runtime_attention_anchors := runtime_attention_anchors s;
     open_orders := open_orders s;
     approvals := approvals s;
     inventory := inventory s;
     resolution := resolution s;
     relayer_txs := relayer_txs s |}.

(** ** Operations *)

Definition store_new : StateStore :=
  {| state_version := 0;
     last_consumed_journal_seq := None;
     last_applied_journal_seq := None;
     fullset_anchor := None;
     runtime_mode := rp_mode bootstrap_policy;
     overlay := rp_overlay bootstrap_policy;
     first_reconcile_succeeded := false;
     applied_fact_journal := ∅;
     consumed_journal := ∅;
     family_discovery_records := ∅;
     pending_family_backfills := ∅;
     pending_reconcile_anchors := ∅;
     runtime_attention_anchors := ∅;
     open_orders := ∅;
     approvals := ∅;
     inventory := ∅;
     resolution := ∅;
     relayer_txs := ∅ |}.

Definition apply_policy (s : StateStore) (p : RuntimePolicy) : StateStore :=
  s <| runtime_mode := rp_mode p |> <| overlay := rp_overlay p |>.

Definition enter_reconciling (s : StateStore) : StateStore :=
  apply_policy s reconcile_attention_policy.

Definition has_pending_reconcile_anchors (s : StateStore) : bool :=
  negb (bool_decide (pending_reconcile_anchors s = ∅)).

Definition apply_restore_posture (s : StateStore) : StateStore :=
  if negb (first_reconcile_succeeded s) then s
  else if has_pending_reconcile_anchors s then enter_reconciling s
  else apply_policy s reconciled_policy.

Definition set_mode_if_reconciled (s : StateStore) : StateStore := apply_restore_posture s.

Definition current_open_order_ids (s : StateStore) : list string :=
  sort_by str_cmp (map_to_list (open_orders s)).*1.

Definition rebuild_fullset_anchor (s : StateStore) (committed_journal_seq : Z) : StateStore :=
  s <| fullset_anchor := Some
         {| fa_state_version := state_version s;
            fa_committed_journal_seq := committed_journal_seq;
            fa_open_orders := current_open_order_ids s |} |>.

Definition mark_bootstrapping (s : StateStore) : StateStore :=
  if first_reconcile_succeeded s then s else apply_policy s bootstrap_policy.

Definition restore_committed_anchor (s : StateStore) (committed_state_version : Z)
    (committed_journal_seq : Z) : StateStore :=
  let s := s <| state_version := committed_state_version |>
             <| last_consumed_journal_seq := Some committed_journal_seq |>
             <| last_applied_journal_seq := Some committed_journal_seq |> in
  let s := rebuild_fullset_anchor s committed_journal_seq in
  apply_restore_posture (s <| first_reconcile_succeeded := true |>).

Definition record_pending_reconcile (s : StateStore) (a : PendingReconcileAnchor) : StateStore :=
  s <| pending_reconcile_anchors ::= <[pa_pending_ref a := a]> |>.

Definition restore_pending_reconcile_anchor (s : StateStore) (a : PendingReconcileAnchor) :
    StateStore :=
  apply_restore_posture (record_pending_reconcile s a <| first_reconcile_succeeded := true |>).

Definition mark_reconciled_after_restore (s : StateStore) (baseline_journal_seq : Z) :
    StateStore :=
  let s :=
    match last_applied_journal_seq s with
    | None =>
        rebuild_fullset_anchor
          (s <| last_consumed_journal_seq := Some baseline_journal_seq |>
             <| last_applied_journal_seq := Some baseline_journal_seq |>)
          baseline_journal_seq
    | Some _ => s
    end in
  apply_policy
    (s <| pending_reconcile_anchors := ∅ |> <| first_reconcile_succeeded := true |>)
    reconciled_policy.

Definition restore_reconciled_policy (s : StateStore) : StateStore :=
  apply_policy (s <| first_reconcile_succeeded := true |>) reconciled_policy.

Definition mark_reconcile_required (s : StateStore) : StateStore :=
  enter_reconciling (s <| first_reconcile_succeeded := true |>).

Definition clear_pending_reconcile_after_restore (s : StateStore) : StateStore :=
  let s := s <| pending_reconcile_anchors := ∅ |> in
  if first_reconcile_succeeded s then apply_restore_posture s else s.

(** ** Queries *)

Definition mode_overlay (s : StateStore) : option RuntimeOverlay :=
  match overlay s with
  | Some o => Some o
  | None => default_overlay (runtime_mode s)
  end.

Definition runtime_policy (s : StateStore) : RuntimePolicy :=
  {| rp_mode := runtime_mode s; rp_overlay := mode_overlay s |}.

Definition store_allows_automatic_repair (s : StateStore) : bool :=
  allows_automatic_repair (first_reconcile_succeeded s) (runtime_mode s).

Definition pending_reconcile_count (s : StateStore) : nat :=
  size (pending_reconcile_anchors s).

Definition family_discovery_record_list (s : StateStore) : list FamilyDiscoveryRecord :=
  btree_values str_cmp (family_discovery_records s).

Definition pending_reconcile_anchor_list (s : StateStore) : list PendingReconcileAnchor :=
  btree_values str_cmp (pending_reconcile_anchors s).

Definition runtime_attention_anchor_list (s : StateStore) : list RuntimeAttentionAnchor :=
  btree_values str_cmp (runtime_attention_anchors s).

Definition has_runtime_attention (s : StateStore) (scope_id attention_kind : string) : bool :=
  existsb (λ a, bool_decide (ra_scope_id a = scope_id) &&
                bool_decide (ra_attention_kind a = attention_kind))
    (runtime_attention_anchor_list s).

Definition state_confidence (s : StateStore) (scope : string) : StateConfidence :=
  if existsb (λ a, bool_decide (pa_family_id a = scope)) (pending_reconcile_anchor_list s)
  then Uncertain else Certain.

Definition anchored_fullset (s : StateStore) : option FullSetAnchor :=
  committed_journal_seq ← last_applied_journal_seq s;
  anchor ← fullset_anchor s;
  if decide (fa_state_version anchor = state_version s ∧
             fa_committed_journal_seq anchor = committed_journal_seq)
  then Some anchor else None.

Definition bucket_sort_key (b : InventoryBucket) : Z :=
  match b with
  | Free => 0 | ReservedForOrder => 1 | MatchedUnsettled => 2 | PendingCtfIn => 3
  | PendingCtfOut => 4 | Redeemable => 5 | Quarantined => 6
  end.

Definition inventory_row_cmp (l r : InventorySnapshotRow) : comparison :=
  then_with (str_cmp (isr_token_id l) (isr_token_id r))
    (Z.compare (bucket_sort_key (isr_bucket l)) (bucket_sort_key (isr_bucket r))).

Definition inventory_snapshot (s : StateStore) : list InventorySnapshotRow :=
  sort_by inventory_row_cmp
    ((λ '(e, q), {| isr_token_id := ie_token_id e; isr_bucket := ie_bucket e;
                    isr_quantity := q |}) <$> map_to_list (inventory s)).

(** ** Recording local state *)

Definition approval_key (a : ApprovalState) : ApprovalKey :=
  {| ak_token_id := ap_token_id a; ak_spender := ap_spender a;
     ak_owner_address := ap_owner_address a |}.

Definition record_local_order (s : StateStore) (o : Order) : StateStore :=
  s <| fullset_anchor := None |> <| open_orders ::= <[o_order_id o := o]> |>.

Definition record_local_approval (s : StateStore) (a : ApprovalState) : StateStore :=
  s <| approvals ::= <[approval_key a := a]> |>.

Definition record_local_inventory (s : StateStore) (t : TokenId) (b : InventoryBucket)
    (q : Decimal) : StateStore :=
  s <| inventory ::= <[{| ie_token_id := t; ie_bucket := b |} := q]> |>.

Definition record_local_resolution (s : StateStore) (r : ResolutionState) : StateStore :=
  s <| resolution ::= <[rs_condition_id r := r]> |>.

Definition record_local_relayer_tx (s : StateStore) (tx : RelayerTxSummary) : StateStore :=
  s <| relayer_txs ::= <[rt_tx_id tx := tx]> |>.

(** The remote snapshot replaces the local maps; the flag returned says whether
    this was the first reconcile to succeed. *)
Definition complete_reconcile (s : StateStore) (snap : RemoteSnapshot) : StateStore * bool :=
  let s := s
    <| fullset_anchor := None |>
    <| open_orders := collect_map ((λ o, (o_order_id o, o)) <$> rsn_open_orders snap) |>
    <| approvals := collect_map ((λ a, (approval_key a, a)) <$> rsn_approvals snap) |>
    <| inventory := collect_map
         ((λ '(t, b, q), ({| ie_token_id := t; ie_bucket := b |}, q)) <$> rsn_inventory snap) |>
    <| resolution := collect_map
         ((λ r, (rs_condition_id r, r)) <$> rsn_resolution_states snap) |>
    <| relayer_txs := collect_map ((λ tx, (rt_tx_id tx, tx)) <$> rsn_relayer_txs snap) |> in
  let s :=
    match last_applied_journal_seq s with
    | Some committed_journal_seq => rebuild_fullset_anchor s committed_journal_seq
    | None => s
    end in
  let promoted_from_bootstrap := negb (first_reconcile_succeeded s) in
  (apply_restore_posture (s <| first_reconcile_succeeded := true |>), promoted_from_bootstrap).

(** ** The journal *)

Definition duplicate_journal_seq (s : StateStore) (k : FactKey) : option Z :=
  applied_fact_journal s !! k.

Definition consume_journal_seq (s : StateStore) (journal_seq : Z) (k : FactKey) :
    StateStore * JournalConsumption :=
  match consumed_journal s !! journal_seq with
  | Some existing_fact =>
      (s, if decide (existing_fact = k) then AlreadyBoundToSameFact
          else AlreadyBoundToDifferentFact)
  | None =>
      if match last_consumed_journal_seq s with
         | Some last => bool_decide (journal_seq <= last)
         | None => false
         end
      then (s, OutOfOrder)
      else (s <| last_consumed_journal_seq := Some journal_seq |>
              <| consumed_journal ::= <[journal_seq := k]> |>, Consumed)
  end.

Definition record_applied_fact (s : StateStore) (journal_seq : Z) (k : FactKey) :
    StateStore * Z :=
  let s := s <| state_version ::= u64_add 1 |>
             <| last_applied_journal_seq := Some journal_seq |>
             <| applied_fact_journal ::= <[k := journal_seq]> |> in
  let s := rebuild_fullset_anchor s journal_seq in
  let s := apply_restore_posture s in
  (s, state_version s).

Definition record_family_discovery (s : StateStore) (record : FamilyDiscoveryRecord) :
    StateStore :=
  let record :=
    match family_discovery_records s !! fd_family_id record with
    | Some existing =>
        {| fd_family_id := fd_family_id record; fd_source := fd_source record;
           fd_discovered_at := fd_discovered_at record;
           fd_backfill_cursor := fd_backfill_cursor existing;
           fd_backfill_completed_at := fd_backfill_completed_at existing |}
    | None => record
    end in
  let pending := pending_family_backfills s !! fd_family_id record in
  let s := s <| pending_family_backfills ::= delete (fd_family_id record) |> in
  let record :=
    match pending with
    | Some p => record_backfill record (pb_cursor p) (pb_completed_at p)
    | None => record
    end in
  s <| family_discovery_records ::= <[fd_family_id record := record]> |>.

Definition merge_completion_timestamp (current candidate : option DateTime) : option DateTime :=
  match current, candidate with
  | Some a, Some b => Some (dt_max a b)
  | Some a, None => Some a
  | None, Some b => Some b
  | None, None => None
  end.

Definition record_family_backfill (s : StateStore) (family_id cursor : string)
    (completed_at : option DateTime) : StateStore :=
  match family_discovery_records s !! family_id with
  | Some record =>
      s <| family_discovery_records ::=
             <[family_id := record_backfill record cursor completed_at]> |>
  | None =>
      let pending :=
        match pending_family_backfills s !! family_id with
        | Some p => {| pb_cursor := cursor;
                       pb_completed_at :=
                         merge_completion_timestamp (pb_completed_at p) completed_at |}
        | None => {| pb_cursor := cursor; pb_completed_at := completed_at |}
        end in
      s <| pending_family_backfills ::= <[family_id := pending]> |>
  end.

Definition record_runtime_attention (s : StateStore) (a : RuntimeAttentionAnchor) : StateStore :=
  s <| runtime_attention_anchors ::= <[ra_attention_ref a := a]> |>.

Definition clear_pending_reconcile (s : StateStore) (pending_ref : string) :
    StateStore * option PendingReconcileAnchor :=
  let cleared := pending_reconcile_anchors s !! pending_ref in
  (apply_restore_posture (s <| pending_reconcile_anchors ::= delete pending_ref |>), cleared).

End store.
