(* ===== verification/Apply.v ===== *)
(** * Applying facts

    [state/src/apply.rs]: [StateApplier::apply], its refinement of an abstract
    deduplicating log, and what redelivery and errors do. *)

From S2P Require Import Prelude RecordSet Externals Domain RuntimeMode Facts Store.
Import RuntimeMode.

Section apply.
Context {X : Externals}.

Inductive ApplyResult :=
| Applied (journal_seq state_version : Z) (dirty_set : gset DirtyDomain)
| Duplicate (journal_seq duplicate_of_journal_seq state_version : Z)
| DeferredFact (journal_seq : Z) (pending_ref reason : string)
| ReconcileRequired (journal_seq : Z) (pending_ref : option string) (reason : string).

(** [ApplyError] holds its message. *)
Record ApplyError := { ae_message : string }.

Definition all_store_domains : gset DirtyDomain :=
  dirty_set_new [Runtime; Orders; Inventory; Approvals; Resolution; Relayer; NegRiskFamilies].

(** The part of [apply] after the journal sequence was consumed. *)
Definition apply_consumed (s : StateStore) (journal_seq : Z) (fact : StateFactInput) :
    StateStore * ApplyResult :=
  let k := fact_key fact in
  let applied s dirty :=
    let '(s, v) := record_applied_fact s journal_seq k in (s, Applied journal_seq v dirty) in
  match duplicate_journal_seq s k with
  | Some dup => (s, Duplicate journal_seq dup (state_version s))
  | None =>
      match fi_hint fact with
      | NoHint => applied s all_store_domains
      | FamilyDiscovery record =>
          applied (record_family_discovery s record) (dirty_set_new [Candidates])
      | FamilyBackfill family_id cursor completed_at =>
          applied (record_family_backfill s family_id cursor completed_at)
            (dirty_set_new [Candidates])
      | PendingReconcile anchor =>
          (mark_reconcile_required (record_pending_reconcile s anchor),
           ReconcileRequired journal_seq (Some (pa_pending_ref anchor)) (pa_reason anchor))
      | RuntimeAttention anchor =>
          applied (record_runtime_attention s anchor) (dirty_set_new [Runtime; NegRiskFamilies])
      | LiveReconcileObserved pending_ref terminal =>
          if terminal then
            applied (clear_pending_reconcile s pending_ref).1 all_store_domains
          else
            (mark_reconcile_required s,
             ReconcileRequired journal_seq (Some pending_ref) "live reconcile remains pending")
      end
  end.

Definition apply (s : StateStore) (journal_seq : Z) (fact : StateFactInput) :
    outcome (StateStore * result ApplyError ApplyResult) :=
  let '(s, consumption) := consume_journal_seq s journal_seq (fact_key fact) in
  match consumption with
  | Consumed | AlreadyBoundToSameFact =>
      let '(s, r) := apply_consumed s journal_seq fact in Returns (s, Ok r)
  | AlreadyBoundToDifferentFact =>
      Returns (s, Err {| ae_message :=
        "journal sequence " +:+ pretty journal_seq +:+
        " is already bound to a different fact" |})
  | OutOfOrder =>
      last ← expect (last_consumed_journal_seq s);
      Returns (s, Err {| ae_message :=
        "journal sequence " +:+ pretty journal_seq +:+
        " must be greater than last consumed sequence " +:+ pretty last |})
  end.

(** A run of the applier: the facts of a list in order, stopping at the first
    error, as [replay_committed_history] and the daemon do. *)
Fixpoint apply_all (s : StateStore) (facts : list (Z * StateFactInput)) :
    outcome (StateStore * result ApplyError (list ApplyResult)) :=
  match facts with
  | [] => Returns (s, Ok [])
  | (q, f) :: facts' =>
      '(s', r) ← apply s q f;
      match r with
      | Err e => Returns (s', Err e)
      | Ok a =>
          '(s'', rs) ← apply_all s' facts';
          Returns (s'', as_ ← rs; Ok (a :: as_))
      end
  end.

(** ** The abstract log

    What the applier promises about order and deduplication, without the rest of
    the store: sequence numbers are bound to facts in increasing order, and a
    fact settles at most once. *)

Record FactLog := {
  log_bound : gmap Z FactKey;
  log_cursor : option Z;
  log_settled : gmap FactKey Z;
  log_version : Z;
}.

Inductive Verdict :=
| LogRejected
| LogDuplicate (settled_at : Z)
| LogSettled (version : Z)
| LogOpen.

Definition log_of (s : StateStore) : FactLog :=
  {| log_bound := consumed_journal s; log_cursor := last_consumed_journal_seq s;
     log_settled := applied_fact_journal s; log_version := state_version s |}.

#[local] Arguments log_of : simpl never.

(** A sequence number the log may bind: fresh and past the cursor. *)
Definition log_accepts (l : FactLog) (q : Z) : Prop :=
  log_bound l !! q = None ∧ ∀ c, log_cursor l = Some c → c < q.

Inductive log_step (settles : bool) (q : Z) (k : FactKey) : FactLog → Verdict → FactLog → Prop :=
| log_step_rebound l k' :
    log_bound l !! q = Some k' → k' ≠ k → log_step settles q k l LogRejected l
| log_step_late l c :
    log_bound l !! q = None → log_cursor l = Some c → q <= c →
    log_step settles q k l LogRejected l
| log_step_bind l v l' :
    log_accepts l q →
    log_settle settles q k
      {| log_bound := <[q := k]> (log_bound l); log_cursor := Some q;
         log_settled := log_settled l; log_version := log_version l |} v l' →
    log_step settles q k l v l'
| log_step_again l v l' :
    log_bound l !! q = Some k → log_settle settles q k l v l' → log_step settles q k l v l'
with log_settle (settles : bool) (q : Z) (k : FactKey) : FactLog → Verdict → FactLog → Prop :=
| log_settle_duplicate l q' :
    log_settled l !! k = Some q' → log_settle settles q k l (LogDuplicate q') l
| log_settle_new l :
    log_settled l !! k = None → settles = true →
    log_settle settles q k l (LogSettled (u64_add 1 (log_version l)))
      {| log_bound := log_bound l; log_cursor := log_cursor l;
         log_settled := <[k := q]> (log_settled l);
         log_version := u64_add 1 (log_version l) |}
| log_settle_open l :
    log_settled l !! k = None → settles = false → log_settle settles q k l LogOpen l.

(** Whether a fact settles when it is applied, or leaves work pending. *)
Definition settles (f : StateFactInput) : bool :=
  match fi_hint f with
  | PendingReconcile _ | LiveReconcileObserved _ false => false
  | _ => true
  end.

Definition verdict_of (r : result ApplyError ApplyResult) : Verdict :=
  match r with
  | Err _ => LogRejected
  | Ok (Duplicate _ q _) => LogDuplicate q
  | Ok (Applied _ v _) => LogSettled v
  | Ok (DeferredFact _ _ _) | Ok (ReconcileRequired _ _ _) => LogOpen
  end.

(** A run of the log, which stops at the first rejection. *)
Inductive log_run : list (Z * StateFactInput) → FactLog → list Verdict → FactLog → Prop :=
| log_run_nil l : log_run [] l [] l
| log_run_reject q f facts l l' :
    log_step (settles f) q (fact_key f) l LogRejected l' →
    log_run ((q, f) :: facts) l [LogRejected] l'
| log_run_step q f facts l v l' vs l'' :
    log_step (settles f) q (fact_key f) l v l' → v ≠ LogRejected →
    log_run facts l' vs l'' →
    log_run ((q, f) :: facts) l (v :: vs) l''.

Definition is_applied (r : ApplyResult) : bool :=
  match r with Applied _ _ _ => true | _ => false end.

Definition is_duplicate (r : ApplyResult) : bool :=
  match r with Duplicate _ _ _ => true | _ => false end.

(** The keys of the facts of a run that were applied, in order. *)
Fixpoint applied_keys (facts : list (Z * StateFactInput)) (rs : list ApplyResult) :
    list FactKey :=
  match facts, rs with
  | (_, f) :: facts', r :: rs' =>
      if is_applied r then fact_key f :: applied_keys facts' rs' else applied_keys facts' rs'
  | _, _ => []
  end.

(** ** Lemmas: the log is independent of the posture and of the projections *)

Lemma log_of_apply_policy s p : log_of (apply_policy s p) = log_of s.
Proof. done. Qed.

Lemma log_of_apply_restore_posture s : log_of (apply_restore_posture s) = log_of s.
Proof.
  unfold apply_restore_posture, enter_reconciling.
  destruct (first_reconcile_succeeded s), (has_pending_reconcile_anchors s); done.
Qed.

Lemma log_of_record_family_discovery s r : log_of (record_family_discovery s r) = log_of s.
Proof. done. Qed.

Lemma log_of_record_family_backfill s f c t : log_of (record_family_backfill s f c t) = log_of s.
Proof. unfold record_family_backfill. by destruct (family_discovery_records s !! f). Qed.

Lemma log_of_record_pending_reconcile s a : log_of (record_pending_reconcile s a) = log_of s.
Proof. done. Qed.

Lemma log_of_mark_reconcile_required s : log_of (mark_reconcile_required s) = log_of s.
Proof. done. Qed.

Lemma log_of_record_runtime_attention s a : log_of (record_runtime_attention s a) = log_of s.
Proof. done. Qed.

Lemma log_of_clear_pending_reconcile s r : log_of (clear_pending_reconcile s r).1 = log_of s.
Proof. unfold clear_pending_reconcile; simpl. by rewrite log_of_apply_restore_posture. Qed.

Lemma log_of_record_applied_fact s q k :
  log_of (record_applied_fact s q k).1 =
    {| log_bound := log_bound (log_of s); log_cursor := log_cursor (log_of s);
       log_settled := <[k := q]> (log_settled (log_of s));
       log_version := u64_add 1 (log_version (log_of s)) |} ∧
  (record_applied_fact s q k).2 = u64_add 1 (log_version (log_of s)).
Proof.
  unfold record_applied_fact. cbn -[apply_restore_posture u64_add rebuild_fullset_anchor].
  set (s1 := rebuild_fullset_anchor _ _).
  change (state_version (apply_restore_posture s1)) with
    (log_version (log_of (apply_restore_posture s1))).
  by rewrite !log_of_apply_restore_posture.
Qed.

(** *** The consumed part settles the fact as the log does *)

Lemma apply_consumed_settles s q f :
  let '(s', r) := apply_consumed s q f in
  log_settle (settles f) q (fact_key f) (log_of s) (verdict_of (Ok r)) (log_of s').
Proof.
  assert (∀ s1 d, log_of s1 = log_of s → applied_fact_journal s !! fact_key f = None →
    settles f = true →
    let '(s', r) := (let '(s2, v) := record_applied_fact s1 q (fact_key f) in
                     (s2, Applied q v d)) in
    log_settle (settles f) q (fact_key f) (log_of s) (verdict_of (Ok r)) (log_of s')) as Happ.
  { intros s1 d Hs1 Hnew Hset.
    destruct (log_of_record_applied_fact s1 q (fact_key f)) as [H1 H2].
    rewrite Hs1 in H1, H2.
    destruct (record_applied_fact s1 q (fact_key f)) as [s2 v]; cbn [fst snd] in H1, H2.
    rewrite H1, H2. by apply log_settle_new. }
  unfold apply_consumed, duplicate_journal_seq.
  destruct (applied_fact_journal s !! fact_key f) as [q'|] eqn:Hk.
  { simpl. by apply log_settle_duplicate. }
  unfold settles in *. destruct (fi_hint f) as [|r|fam c t|a|a|pr []]; try (by apply Happ).
  - apply Happ; auto using log_of_record_family_backfill.
  - by apply log_settle_open.
  - apply Happ; auto using log_of_clear_pending_reconcile.
  - by apply log_settle_open.
Qed.

Lemma consume_journal_seq_spec s q k :
  let '(s', c) := consume_journal_seq s q k in
  match c with
  | Consumed => log_accepts (log_of s) q ∧
      s' = s <| last_consumed_journal_seq := Some q |> <| consumed_journal ::= <[q := k]> |>
  | AlreadyBoundToSameFact => consumed_journal s !! q = Some k ∧ s' = s
  | AlreadyBoundToDifferentFact => (∃ k', consumed_journal s !! q = Some k' ∧ k' ≠ k) ∧ s' = s
  | OutOfOrder => consumed_journal s !! q = None ∧
      (∃ c, last_consumed_journal_seq s = Some c ∧ q <= c) ∧ s' = s
  end.
Proof.
  unfold consume_journal_seq. destruct (consumed_journal s !! q) as [k'|] eqn:Hq.
  { case_decide; naive_solver. }
  destruct (last_consumed_journal_seq s) as [c|] eqn:Hc; [case_bool_decide|].
  - naive_solver.
  - repeat split; try done. intros c'. simpl. rewrite Hc. intros [= <-]. lia.
  - repeat split; try done. intros c'. simpl. by rewrite Hc.
Qed.

(** What [apply] does, by how the sequence number was consumed. *)
Lemma apply_cases s q f :
  (∃ e, apply s q f = Returns (s, Err e) ∧
     ((∃ k', consumed_journal s !! q = Some k' ∧ k' ≠ fact_key f) ∨
      consumed_journal s !! q = None ∧ ∃ c, last_consumed_journal_seq s = Some c ∧ q <= c)) ∨
  (∃ s1, (log_accepts (log_of s) q ∧
          s1 = s <| last_consumed_journal_seq := Some q |>
                 <| consumed_journal ::= <[q := fact_key f]> |> ∨
          consumed_journal s !! q = Some (fact_key f) ∧ s1 = s) ∧
     apply s q f = Returns ((apply_consumed s1 q f).1, Ok (apply_consumed s1 q f).2)).
Proof.
  unfold apply. pose proof (consume_journal_seq_spec s q (fact_key f)) as Hc.
  destruct (consume_journal_seq s q (fact_key f)) as [s1 []].
  - right. exists s1. destruct (apply_consumed s1 q f). split; [by left|done].
  - right. destruct Hc as [? ->]. exists s. destruct (apply_consumed s q f). naive_solver.
  - left. destruct Hc as [? ->]. eauto.
  - left. destruct Hc as (? & (c & Hl & ?) & ->). rewrite Hl; simpl. eauto 10.
Qed.

(** One call of [apply] is one step of the log. *)
Lemma apply_log_step s q f :
  ∃ s' r, apply s q f = Returns (s', r) ∧
    log_step (settles f) q (fact_key f) (log_of s) (verdict_of r) (log_of s').
Proof.
  destruct (apply_cases s q f) as [(e & -> & Hc)|(s1 & Hs1 & ->)].
  - exists s, (Err e). split; [done|]. destruct Hc as [(k' & ? & ?)|(? & c & ? & ?)].
    + by eapply log_step_rebound.
    + by eapply log_step_late.
  - pose proof (apply_consumed_settles s1 q f) as Hset.
    destruct (apply_consumed s1 q f) as [s' r]; simpl. exists s', (Ok r). split; [done|].
    destruct Hs1 as [[Hacc ->]|[Hb ->]]; [by apply log_step_bind|by apply log_step_again].
Qed.

Lemma apply_log s q f s' r :
  apply s q f = Returns (s', r) →
  log_step (settles f) q (fact_key f) (log_of s) (verdict_of r) (log_of s').
Proof. destruct (apply_log_step s q f) as (? & ? & E & ?). rewrite E. by intros [= <- <-]. Qed.

Lemma verdict_rejected r : verdict_of r = LogRejected ↔ ∃ e, r = Err e.
Proof. destruct r as [[]|e]; simpl; naive_solver. Qed.

(** *** What every step and run of the log keeps *)

Lemma log_settle_mono b q k l v l' :
  log_settle b q k l v l' →
  log_bound l' = log_bound l ∧ log_settled l ⊆ log_settled l' ∧ v ≠ LogRejected ∧
  (b = true → is_Some (log_settled l' !! k)).
Proof.
  destruct 1; simpl; (split; [done|split; [|split; [done|]]]); intros; simplify_eq; try done.
  - by apply insert_subseteq.
  - rewrite lookup_insert_eq. by eexists.
Qed.

Lemma log_step_mono b q k l v l' :
  log_step b q k l v l' →
  log_bound l ⊆ log_bound l' ∧ log_settled l ⊆ log_settled l' ∧
  (v ≠ LogRejected → log_bound l' !! q = Some k ∧
     (b = true → is_Some (log_settled l' !! k))) ∧
  (v = LogRejected → l' = l).
Proof.
  destruct 1 as [| |l v l' [Hn _] (Hb & ? & ? & ?)%log_settle_mono
                  |l v l' ? (Hb & ? & ? & ?)%log_settle_mono]; try done.
  - simpl in *. repeat split; try done; rewrite ?Hb; auto.
    + by apply insert_subseteq.
    + by rewrite lookup_insert_eq.
  - rewrite Hb. naive_solver.
Qed.

Lemma log_run_mono facts l vs l' :
  log_run facts l vs l' → log_bound l ⊆ log_bound l' ∧ log_settled l ⊆ log_settled l'.
Proof.
  induction 1 as [|?????(?&?&_)%log_step_mono|????????(?&?&_)%log_step_mono ? _ []];
    split; try done; by etrans.
Qed.

(** Every fact of a run without rejection is bound, and settled if it settles. *)
Lemma log_run_bound facts l vs l' :
  log_run facts l vs l' → LogRejected ∉ vs →
  Forall (λ qf, log_bound l' !! qf.1 = Some (fact_key qf.2) ∧
                (settles qf.2 = true → is_Some (log_settled l' !! fact_key qf.2))) facts.
Proof.
  induction 1 as [|q f facts l l' Hs|q f facts l v l' vs l'' Hs Hv Hr IH];
    intros Hn; constructor; simpl.
  - set_solver.
  - set_solver.
  - apply log_step_mono in Hs as (_ & _ & Hb & _). destruct (Hb Hv) as [Hb1 Hb2].
    apply log_run_mono in Hr as [Hr1 Hr2]. split; [by eapply lookup_weaken|].
    intros [q' ?]%Hb2. exists q'. by eapply lookup_weaken.
  - apply IH. set_solver.
Qed.

(** The keys a run settles are new, distinct, and each moves the version by one. *)
Definition settled_of (facts : list (Z * StateFactInput)) (vs : list Verdict) : list (Z * FactKey) :=
  omap (λ '((q, f), v), match v with LogSettled _ => Some (q, fact_key f) | _ => None end)
    (zip facts vs).

Lemma log_settle_version b q k l v l' :
  log_settle b q k l v l' →
  match v with
  | LogSettled _ => log_settled l !! k = None ∧ log_settled l' = <[k := q]> (log_settled l) ∧
                    log_version l' = u64_add 1 (log_version l)
  | _ => log_settled l' = log_settled l ∧ log_version l' = log_version l
  end.
Proof. by destruct 1. Qed.

Lemma log_step_version b q k l v l' :
  log_step b q k l v l' →
  match v with
  | LogSettled _ => log_settled l !! k = None ∧ log_settled l' = <[k := q]> (log_settled l) ∧
                    log_version l' = u64_add 1 (log_version l)
  | _ => log_settled l' = log_settled l ∧ log_version l' = log_version l
  end.
Proof.
  destruct 1 as [| |l v l' _ H%log_settle_version|l v l' _ H%log_settle_version]; done.
Qed.

Lemma u64_add_shift n v : u64_add n (u64_add 1 v) = u64_add (1 + n) v.
Proof. unfold u64_add. rewrite Zplus_mod_idemp_r. f_equal. lia. Qed.

Lemma settled_of_cons q f facts v vs :
  settled_of ((q, f) :: facts) (v :: vs) =
  match v with
  | LogSettled _ => (q, fact_key f) :: settled_of facts vs
  | _ => settled_of facts vs
  end.
Proof. by destruct v. Qed.

Lemma settled_of_nil facts : settled_of facts [] = [].
Proof. by destruct facts. Qed.

Lemma log_run_settled facts l vs l' :
  log_run facts l vs l' →
  NoDup (settled_of facts vs).*2 ∧
  Forall (λ k, log_settled l !! k = None) (settled_of facts vs).*2 ∧
  log_settled l' = list_to_map (prod_swap <$> settled_of facts vs) ∪ log_settled l ∧
  (0 <= log_version l < 2 ^ 64 →
   log_version l' = u64_add (Z.of_nat (length (settled_of facts vs))) (log_version l)).
Proof.
  assert (∀ l, 0 <= log_version l < 2 ^ 64 → log_version l = u64_add 0 (log_version l)) as H0.
  { intros l0 ?. unfold u64_add. by rewrite Z.mod_small. }
  induction 1 as [l|q f facts l l' Hs%log_step_version|q f facts l v l' vs l'' Hs Hv Hr IH].
  - rewrite settled_of_nil; simpl. rewrite (left_id_L ∅ (∪)). repeat split; [constructor..|apply H0].
  - rewrite settled_of_cons, settled_of_nil. destruct Hs as [-> ->]. simpl.
    rewrite (left_id_L ∅ (∪)). repeat split; [constructor..|apply H0].
  - apply log_step_version in Hs. rewrite settled_of_cons.
    destruct v; try (by destruct Hs as [<- <-]).
    destruct Hs as (Hnone & E & Ev), IH as (Hnd & Hnew & Hset & Hver).
    rewrite E in Hnew, Hset. rewrite !fmap_cons.
    generalize dependent (settled_of facts vs). intros ks Hnd Hnew Hset Hver.
    rewrite Forall_forall in Hnew.
    assert (fact_key f ∉ ks.*2) as Hin.
    { intros Hin%Hnew. by rewrite lookup_insert_eq in Hin. }
    split; [by constructor|]. split; [|split].
    + constructor; [done|]. rewrite Forall_forall. by intros k' [? _]%Hnew%lookup_insert_None.
    + change (prod_swap (q, fact_key f)) with (fact_key f, q). rewrite Hset, list_to_map_cons.
      rewrite <- insert_union_r, insert_union_l; [done|].
      apply not_elem_of_list_to_map. by rewrite <- list_fmap_compose.
    + intros Hb. rewrite Hver, Ev, u64_add_shift; [f_equal; simpl; lia|].
      rewrite Ev. unfold u64_add. apply Z.mod_pos_bound. lia.
Qed.

(** *** Runs of [apply] are runs of the log *)

Lemma apply_all_log_run facts s :
  ∃ s' r, apply_all s facts = Returns (s', r) ∧
    ∃ vs, log_run facts (log_of s) vs (log_of s') ∧
      match r with
      | Ok rs => vs = (λ a, verdict_of (Ok a)) <$> rs
      | Err _ => last vs = Some LogRejected
      end.
Proof.
  revert s. induction facts as [|[q f] facts IH]; intros s; simpl.
  { eexists _, _. split; [done|]. exists []. split; [constructor|done]. }
  destruct (apply_log_step s q f) as (s1 & r & -> & Hs); simpl. destruct r as [a|e].
  - destruct (IH s1) as (s2 & r & -> & vs & Hr & Hvs); simpl. eexists _, _. split; [done|].
    assert (verdict_of (Ok a) ≠ LogRejected) as Hn by by destruct a.
    exists (verdict_of (Ok a) :: vs). split; [by econstructor|].
    destruct r as [rs|e]; simpl; [by rewrite Hvs|]. by destruct vs.
  - eexists _, _. split; [done|]. exists [LogRejected]. split; [by constructor|done].
Qed.

Lemma apply_all_log facts s s' rs :
  apply_all s facts = Returns (s', Ok rs) →
  log_run facts (log_of s) ((λ a, verdict_of (Ok a)) <$> rs) (log_of s').
Proof.
  destruct (apply_all_log_run facts s) as (s1 & r & E & vs & Hr & Hvs).
  rewrite E. by intros [= -> ->]; subst.
Qed.

Lemma verdicts_not_rejected (rs : list ApplyResult) : LogRejected ∉ (λ a, verdict_of (Ok a)) <$> rs.
Proof. intros ([] & ? & _)%list_elem_of_fmap; done. Qed.

(** *** Redelivery *)

Lemma apply_consumed_settled s q f q0 :
  applied_fact_journal s !! fact_key f = Some q0 →
  apply_consumed s q f = (s, Duplicate q q0 (state_version s)).
Proof. intros H. unfold apply_consumed, duplicate_journal_seq. by rewrite H. Qed.

(** At a sequence number already bound to it, a settled fact changes nothing. *)
Lemma apply_again_settled s q f q0 :
  consumed_journal s !! q = Some (fact_key f) →
  applied_fact_journal s !! fact_key f = Some q0 →
  apply s q f = Returns (s, Ok (Duplicate q q0 (state_version s))).
Proof.
  intros Hb Hq. unfold apply, consume_journal_seq. rewrite Hb, decide_True by done.
  by rewrite (apply_consumed_settled _ _ _ q0).
Qed.

Lemma applied_keys_settled facts rs :
  applied_keys facts rs = (settled_of facts ((λ a, verdict_of (Ok a)) <$> rs)).*2.
Proof.
  revert rs. induction facts as [|[q f] facts IH]; intros [|[] rs]; try done;
    rewrite fmap_cons, settled_of_cons; simpl; by rewrite IH.
Qed.

(** ** Theorems *)

(** C1. [apply] refines the abstract deduplicating log, over any sequence of
    facts: the run always returns (the [expect] on the last consumed sequence
    cannot fail), its effect on the journal bookkeeping of the store and the
    kinds of results it reports are a run of the log, and the run returns an
    error exactly where the log rejects. *)
Theorem apply_all_refines_log facts s :
  ∃ s' r, apply_all s facts = Returns (s', r) ∧
    ∃ vs, log_run facts (log_of s) vs (log_of s') ∧
      match r with
      | Ok rs => vs = (λ a, verdict_of (Ok a)) <$> rs
      | Err _ => last vs = Some LogRejected
      end.
Proof. apply apply_all_log_run. Qed.

(** [apply] fails exactly when the journal sequence number is bound to another
    fact, or is unbound and does not exceed the last consumed one; the message
    names the sequence numbers, and a failed call leaves the store unchanged. *)
Theorem apply_error_iff s q f s' e :
  apply s q f = Returns (s', Err e) ↔
  s' = s ∧
  ((∃ k, consumed_journal s !! q = Some k ∧ k ≠ fact_key f ∧
     e = {| ae_message := "journal sequence " +:+ pretty q +:+
              " is already bound to a different fact" |}) ∨
   (∃ c, consumed_journal s !! q = None ∧ last_consumed_journal_seq s = Some c ∧ q <= c ∧
     e = {| ae_message := "journal sequence " +:+ pretty q +:+
              " must be greater than last consumed sequence " +:+ pretty c |})).
Proof.
  unfold apply. pose proof (consume_journal_seq_spec s q (fact_key f)) as Hc.
  destruct (consume_journal_seq s q (fact_key f)) as [s1 c].
  destruct c; try destruct (apply_consumed _ _ _) as [s2 r].
  - split; [done|]. destruct Hc as [[? Hacc] _]; simpl in *.
    intros [_ [(?&?&_)|(c&_&?%Hacc&?&_)]]; [simplify_eq|lia].
  - destruct Hc as [? ->]. split; [done|]. intros [_ [(?&?&?&_)|(?&?&_)]]; simplify_eq.
  - destruct Hc as [(k' & ? & ?) ->]. naive_solver.
  - destruct Hc as (? & (c & Hl & Hle) & ->). rewrite Hl; simpl. naive_solver.
Qed.

(** C2. Facts are applied exactly once: in a run without error the facts that
    report [Applied] have distinct keys, none applied before; the keys recorded
    afterwards are the earlier ones and these; and the state version moved by
    their number, modulo 2^64. *)
Theorem apply_all_exactly_once facts s s' rs
    (Hver : 0 <= state_version s < 2 ^ 64)
    (Hrun : apply_all s facts = Returns (s', Ok rs)) :
  NoDup (applied_keys facts rs) ∧
  (∀ k, k ∈ applied_keys facts rs → applied_fact_journal s !! k = None) ∧
  dom (applied_fact_journal s') =
    list_to_set (applied_keys facts rs) ∪ dom (applied_fact_journal s) ∧
  state_version s' = u64_add (Z.of_nat (length (applied_keys facts rs))) (state_version s).
Proof.
  apply apply_all_log, log_run_settled in Hrun as (Hnd & Hnew & Hset & Hv).
  rewrite applied_keys_settled. rewrite Forall_forall in Hnew.
  split; [done|]. split; [exact Hnew|]. split.
  - change (dom (log_settled (log_of s')) =
            list_to_set (settled_of facts ((λ a, verdict_of (Ok a)) <$> rs)).*2 ∪
            dom (log_settled (log_of s))).
    rewrite Hset, dom_union_L, dom_list_to_map_L, <- list_fmap_compose. done.
  - rewrite length_fmap. by apply Hv.
Qed.

(** Replaying a run is idempotent: when every fact of a run was applied or
    was a duplicate, feeding the same entries to the resulting store again
    succeeds, reports only duplicates and leaves the store as it is. *)
Theorem replay_is_idempotent facts s s' rs
    (Hrun : apply_all s facts = Returns (s', Ok rs))
    (Hset : Forall (λ '(_, f), settles f = true) facts) :
  ∃ rs', apply_all s' facts = Returns (s', Ok rs') ∧ Forall (λ r, is_duplicate r = true) rs' ∧
    length rs' = length facts.
Proof.
  apply apply_all_log in Hrun.
  pose proof (log_run_bound _ _ _ _ Hrun (verdicts_not_rejected rs)) as Hb. clear Hrun.
  induction facts as [|[q f] facts IH]; simpl; [by exists []|].
  apply Forall_cons in Hb as [[Hq Hs] Hb], Hset as [Hf Hset]. destruct (Hs Hf) as [q0 Hq0].
  rewrite (apply_again_settled s' q f q0) by done; simpl.
  destruct (IH Hset Hb) as (rs' & -> & ? & ?); simpl. eexists; split; [done|].
  split; [by constructor|]. simpl. congruence.
Qed.

(** A settled fact redelivered under a new sequence number is reported as a
    duplicate of the sequence number it settled at, and only the journal cursor
    moves: posture, version, anchors and projections are those of before. *)
Theorem redelivery_only_moves_cursor s q f q0
    (Hnew : log_accepts (log_of s) q)
    (Hold : applied_fact_journal s !! fact_key f = Some q0) :
  apply s q f =
    Returns (s <| last_consumed_journal_seq := Some q |>
               <| consumed_journal ::= <[q := fact_key f]> |>,
             Ok (Duplicate q q0 (state_version s))).
Proof.
  destruct (apply_cases s q f) as [(e & _ & Hc)|(s1 & [[_ ->]|[Hb _]] & ->)].
  - destruct Hnew as [Hn Hacc]; simpl in *. destruct Hc as [(k & ? & _)|(_ & c & ?%Hacc & ?)];
      [simplify_eq|lia].
  - by rewrite (apply_consumed_settled _ _ _ q0).
  - destruct Hnew as [Hn _]; simpl in *. simplify_eq.
Qed.

End apply.

(** ** Concrete runs *)

(** A discovery, a live submit, its terminal reconcile. *)
Definition demo_discovery : @StateFactInput Micros :=
  state_fact_input_new (family_discovery_observed (X := Micros) "session" "event-1" "family-1" 10).
Definition demo_submit : @StateFactInput Micros :=
  state_fact_input_new
    (negrisk_live_submit_observed (X := Micros) "session" "event-2" "attempt-1" "family-1"
       "submission-1" 11).
Definition demo_reconcile : @StateFactInput Micros :=
  state_fact_input_new
    (negrisk_live_reconcile_observed (X := Micros) "session" "event-3"
       (pending_ref_from_fact_key (fact_key demo_submit)) "family-1" true 12).
Definition demo_facts : list (Z * @StateFactInput Micros) :=
  [(1, demo_discovery); (2, demo_submit); (3, demo_reconcile)].
Definition demo_settled_facts : list (Z * @StateFactInput Micros) :=
  [(1, demo_discovery); (3, demo_reconcile); (4, demo_discovery)].

(** A live submit is not recorded as applied, so delivering it again after its
    terminal reconcile reopens the reconcile it had: the store is back in
    [Reconciling] with one pending anchor, although the fact is a duplicate. *)
Example redelivered_submit_reopens :
  let after facts :=
    match apply_all (X := Micros) store_new facts with
    | Returns (s, Ok _) => Some (runtime_mode s, pending_reconcile_count s)
    | _ => None
    end in
  after demo_facts = Some (Healthy, 0%nat) ∧
  after (demo_facts ++ [(4, demo_submit)]) = Some (Reconciling, 1%nat).
Proof. split; vm_compute; reflexivity. Qed.

(** The store and the results of a run that succeeds. *)
Definition ran_store {X : Externals} (s : StateStore) (facts : list (Z * StateFactInput)) :
    StateStore :=
  match apply_all s facts with Returns (s', _) => s' | Panics => s end.
Definition ran_results {X : Externals} (s : StateStore) (facts : list (Z * StateFactInput)) :
    list ApplyResult :=
  match apply_all s facts with Returns (_, Ok rs) => rs | _ => [] end.

Definition ran_ok {X : Externals} (s : StateStore) (facts : list (Z * StateFactInput)) : bool :=
  match apply_all s facts with Returns (_, Ok _) => true | _ => false end.

Lemma ran_ok_eq {X : Externals} s facts :
  ran_ok s facts = true → apply_all s facts = Returns (ran_store s facts, Ok (ran_results s facts)).
Proof.
  unfold ran_ok, ran_store, ran_results.
  by destruct (apply_all s facts) as [[s' [rs|e]]|].
Qed.

Lemma apply_all_exactly_once_witness :
  state_version (ran_store (X := Micros) store_new demo_settled_facts) =
  u64_add (Z.of_nat (length (applied_keys demo_settled_facts
    (ran_results (X := Micros) store_new demo_settled_facts)))) 0.
Proof.
  assert (ran_ok (X := Micros) store_new demo_settled_facts = true) as H%ran_ok_eq
    by (vm_compute; reflexivity).
  assert (0 <= state_version (store_new (X := Micros)) < 2 ^ 64) as Hb by (simpl; lia).
  pose proof (apply_all_exactly_once _ _ _ _ Hb H) as (_ & _ & _ & Hv).
  exact Hv.
Defined.

Lemma replay_is_idempotent_witness :
  let s' := ran_store (X := Micros) store_new demo_settled_facts in
  ∃ rs', apply_all s' demo_settled_facts = Returns (s', Ok rs') ∧
    Forall (λ r, is_duplicate r = true) rs' ∧ length rs' = length demo_settled_facts.
Proof.
  assert (ran_ok (X := Micros) store_new demo_settled_facts = true) as H%ran_ok_eq
    by (vm_compute; reflexivity).
  exact (replay_is_idempotent _ _ _ _ H ltac:(repeat constructor)).
Defined.

Lemma redelivery_only_moves_cursor_witness :
  let s := store_new <| applied_fact_journal := {[ fact_key demo_discovery := 1 ]} |>
             <| consumed_journal := {[ 1 := fact_key demo_discovery ]} |>
             <| last_consumed_journal_seq := Some 1 |> in
  ∃ s', apply (X := Micros) s 2 demo_discovery = Returns (s', Ok (Duplicate 2 1 0)).
Proof.
  intros s. eexists. refine (redelivery_only_moves_cursor (X := Micros) s 2 demo_discovery 1 _ _).
  - split; [reflexivity|]. simpl. intros c [= <-]. lia.
  - apply lookup_singleton_eq.
Defined.
