(* ===== verification/Reconcile.v ===== *)
(** * Reconcile

    [state/src/reconcile.rs]: comparing the store with a remote snapshot, and
    adopting the snapshot when they agree. The sets the code builds are
    [HashSet]s, whose iteration order is unspecified: it is a parameter here, and
    the report is shown not to depend on it. *)

From S2P Require Import Prelude RecordSet Externals Domain RuntimeMode Facts Store.
Import RuntimeMode.

(** Some enumeration of each hash set. *)
Class HashOrder := hash_iter : ∀ {K : Type} `{Countable K}, gset K → list K.
Class HashOrderLaws (H : HashOrder) : Prop :=
  hash_iter_Permutation : ∀ {K : Type} `{Countable K} (Y : gset K), hash_iter Y ≡ₚ elements Y.

Definition ElementsOrder : HashOrder := λ K _ _ Y, elements Y.
#[export] Instance ElementsOrder_laws : HashOrderLaws ElementsOrder.
Proof. by intros K ???. Qed.

Definition ReverseOrder : HashOrder := λ K _ _ Y, reverse (elements Y).
#[export] Instance ReverseOrder_laws : HashOrderLaws ReverseOrder.
Proof. intros K ???. apply reverse_Permutation. Qed.

(** [format!("{bucket:?}")] *)
Definition bucket_debug (b : InventoryBucket) : string :=
  match b with
  | Free => "Free" | ReservedForOrder => "ReservedForOrder"
  | MatchedUnsettled => "MatchedUnsettled" | PendingCtfIn => "PendingCtfIn"
  | PendingCtfOut => "PendingCtfOut" | Redeemable => "Redeemable"
  | Quarantined => "Quarantined"
  end.

Definition attention_key (a : ReconcileAttention) : Z * (string * (string * string)) :=
  match a with
  | DuplicateSignedOrder order_id signed_order_hash => (0, (signed_order_hash, (order_id, "")))
  | IdentifierMismatch token_id expected remote => (1, (token_id, (expected, remote)))
  | MissingRemoteOrder order_id => (2, (order_id, ("", "")))
  | UnexpectedRemoteOrder order_id => (3, (order_id, ("", "")))
  | OrderStateMismatch order_id => (4, (order_id, ("", "")))
  | ApprovalMismatch key => (5, (ak_token_id key, (ak_owner_address key, ak_spender key)))
  | InventoryMismatch token_id bucket => (6, (token_id, (bucket_debug bucket, "")))
  | ResolutionMismatch condition_id => (7, (condition_id, ("", "")))
  | RelayerTxMismatch tx_id => (8, (tx_id, ("", "")))
  end.

Definition attention_sort_key : ReconcileAttention → ReconcileAttention → comparison :=
  cmp_on attention_key (cmp_lex Z.compare (cmp_lex str_cmp (cmp_lex str_cmp str_cmp))).

(** Scanning entries in order, remembering the first value of each key: the
    reports for later values that differ from it. *)
Fixpoint entry_conflicts {K V A} `{Countable K} `{EqDecision V} (report : K → V → V → A)
    (seen : gmap K V) (entries : list (K * V)) : list A :=
  match entries with
  | [] => []
  | (k, v) :: entries' =>
      match seen !! k with
      | Some existing =>
          if decide (existing ≠ v) then
            report k existing v :: entry_conflicts report seen entries'
          else entry_conflicts report seen entries'
      | None => entry_conflicts report (<[k := v]> seen) entries'
      end
  end.

Section reconcile.
Context {X : Externals} {H : HashOrder}.

Record ReconcileReport := {
  rr_succeeded : bool;
  rr_promoted_from_bootstrap : bool;
  rr_remote_applied : bool;
  rr_attention : list ReconcileAttention;
}.

Definition with_attention (snap : RemoteSnapshot) (a : ReconcileAttention) : RemoteSnapshot :=
  {| rsn_open_orders := rsn_open_orders snap; rsn_approvals := rsn_approvals snap;
     rsn_inventory := rsn_inventory snap; rsn_resolution_states := rsn_resolution_states snap;
     rsn_relayer_txs := rsn_relayer_txs snap; rsn_attention := rsn_attention snap ++ [a] |}.

Definition detect_duplicate_signed_orders (snap : RemoteSnapshot) : list ReconcileAttention :=
  entry_conflicts (λ hash _ order_id, DuplicateSignedOrder order_id hash) ∅
    (omap (λ o, signed ← o_signed_order o; Some (so_signed_order_hash signed, o_order_id o))
       (rsn_open_orders snap)).

Definition detect_identifier_mismatches (snap : RemoteSnapshot) : list ReconcileAttention :=
  entry_conflicts (λ token existing remote, IdentifierMismatch token existing remote) ∅
    ((λ o, (o_token_id o, o_condition_id o)) <$> rsn_open_orders snap).

Definition same_order_identity (local remote : Order) : bool :=
  bool_decide (o_market_id local = o_market_id remote) &&
  bool_decide (o_condition_id local = o_condition_id remote) &&
  bool_decide (o_token_id local = o_token_id remote) &&
  dec_eqb (o_quantity local) (o_quantity remote) &&
  dec_eqb (o_price local) (o_price remote) &&
  bool_decide (o_signed_order local = o_signed_order remote).

Definition remote_order_map (snap : RemoteSnapshot) : gmap OrderId Order :=
  collect_map ((λ o, (o_order_id o, o)) <$> rsn_open_orders snap).

Definition compare_orders (s : StateStore) (snap : RemoteSnapshot) : list ReconcileAttention :=
  let remote_map := remote_order_map snap in
  let local_ids : gset OrderId := dom (open_orders s) in
  let remote_ids : gset OrderId := dom remote_map in
  (MissingRemoteOrder <$> hash_iter (local_ids ∖ remote_ids)) ++
  (UnexpectedRemoteOrder <$> hash_iter (remote_ids ∖ local_ids)) ++
  omap (λ order_id,
          local ← open_orders s !! order_id;
          remote ← remote_map !! order_id;
          if negb (same_order_identity local remote) then Some (OrderStateMismatch order_id)
          else None)
    (hash_iter (local_ids ∩ remote_ids)).

Definition collect_symmetric_difference {K} `{Countable K} (local remote : gset K) : list K :=
  hash_iter ((local ∖ remote) ∪ (remote ∖ local)).

Definition compare_approvals (s : StateStore) (snap : RemoteSnapshot) : list ReconcileAttention :=
  let local_keys : gset ApprovalKey := dom (approvals s) in
  let remote_keys : gset ApprovalKey := list_to_set (approval_key <$> rsn_approvals snap) in
  ApprovalMismatch <$> collect_symmetric_difference local_keys remote_keys.

Definition compare_relayer_txs (s : StateStore) (snap : RemoteSnapshot) :
    list ReconcileAttention :=
  let local_ids : gset string := dom (relayer_txs s) in
  let remote_ids : gset string := list_to_set (rt_tx_id <$> rsn_relayer_txs snap) in
  RelayerTxMismatch <$> hash_iter (remote_ids ∖ local_ids).

Definition collect_attention (s : StateStore) (snap : RemoteSnapshot) : list ReconcileAttention :=
  sort_by attention_sort_key
    (rsn_attention snap ++
     detect_duplicate_signed_orders snap ++
     detect_identifier_mismatches snap ++
     compare_orders s snap ++
     compare_approvals s snap ++
     compare_relayer_txs s snap).

(** [StateStore::reconcile] *)
Definition reconcile_store (s : StateStore) (snap : RemoteSnapshot) :
    StateStore * ReconcileReport :=
  let attention := collect_attention s snap in
  if negb (bool_decide (attention = [])) then
    (enter_reconciling s,
     {| rr_succeeded := false; rr_promoted_from_bootstrap := false;
        rr_remote_applied := false; rr_attention := attention |})
  else
    let '(s, promoted_from_bootstrap) := complete_reconcile s snap in
    (set_mode_if_reconciled s,
     {| rr_succeeded := true; rr_promoted_from_bootstrap := promoted_from_bootstrap;
        rr_remote_applied := true; rr_attention := [] |}).

(** When a snapshot may be adopted: it carries no attention of its own, it is
    consistent in itself, and it describes the orders, approvals and
    transactions the store knows. *)
Record snapshot_agrees (s : StateStore) (snap : RemoteSnapshot) : Prop := {
  sa_attention : rsn_attention snap = [];
  sa_signed : ∀ o1 o2 g1 g2,
    o1 ∈ rsn_open_orders snap → o2 ∈ rsn_open_orders snap →
    o_signed_order o1 = Some g1 → o_signed_order o2 = Some g2 →
    so_signed_order_hash g1 = so_signed_order_hash g2 → o_order_id o1 = o_order_id o2;
  sa_token : ∀ o1 o2,
    o1 ∈ rsn_open_orders snap → o2 ∈ rsn_open_orders snap →
    o_token_id o1 = o_token_id o2 → o_condition_id o1 = o_condition_id o2;
  sa_order_ids : dom (open_orders s) = dom (remote_order_map snap);
  sa_orders : ∀ i l r,
    open_orders s !! i = Some l → remote_order_map snap !! i = Some r →
    same_order_identity l r = true;
  sa_approvals : dom (approvals s) = list_to_set (approval_key <$> rsn_approvals snap);
  sa_relayer : ∀ tx, tx ∈ rsn_relayer_txs snap → is_Some (relayer_txs s !! rt_tx_id tx);
}.
End reconcile.

(** ** Lemmas *)

#[export] Instance attention_sort_key_total : TotalPreorder attention_sort_key.
Proof. unfold attention_sort_key. apply _. Qed.

Lemma bucket_debug_inj b c : bucket_debug b = bucket_debug c → b = c.
Proof. by destruct b, c. Qed.

Lemma attention_key_inj a b : attention_key a = attention_key b → a = b.
Proof.
  destruct a, b; cbn [attention_key]; intros E; simplify_eq; try done.
  - destruct key, key0; simpl in *; congruence.
  - f_equal. by apply bucket_debug_inj.
Qed.

#[export] Instance attention_sort_key_eq : CmpEq attention_sort_key.
Proof. intros a b E. by apply attention_key_inj, cmp_eq. Qed.

Lemma entry_conflicts_nil {K V A} `{Countable K} `{EqDecision V} (report : K → V → V → A)
    (seen : gmap K V) l :
  entry_conflicts report seen l = [] ↔
  (∀ k v w, seen !! k = Some v → (k, w) ∈ l → v = w) ∧
  (∀ k v w, (k, v) ∈ l → (k, w) ∈ l → v = w).
Proof.
  revert seen. induction l as [|[k v] l IH]; intros seen; simpl; [set_solver|].
  destruct (seen !! k) as [e|] eqn:E.
  - case_decide as Hev.
    + split; [done|]. intros [Hs _]. destruct Hev. eapply Hs; [done|set_solver].
    + assert (e = v) as -> by (destruct (decide (e = v)); tauto). rewrite IH. set_solver.
  - rewrite IH. split; intros [Hs Hl]; split.
    + intros k' v' w Hk [[= -> ->]|Hin]%elem_of_cons; [congruence|].
      apply (Hs k' v' w); [|done]. rewrite lookup_insert_ne; [done|congruence].
    + intros k' v' w [E1|Hv]%elem_of_cons [E2|Hw]%elem_of_cons; simplify_eq; eauto.
      * apply (Hs k v w); [by rewrite lookup_insert_eq|done].
      * symmetry. apply (Hs k v v'); [by rewrite lookup_insert_eq|done].
    + intros k' v' w [[<- <-]|[? Hk]]%lookup_insert_Some Hin.
      * apply (Hl k v w); set_solver.
      * apply (Hs k' v' w); [done|set_solver].
    + set_solver.
Qed.

Section lemmas.
Context {X : Externals} (H : HashOrder) `{!HashOrderLaws H}.
Implicit Types (s : StateStore) (snap : RemoteSnapshot).

Lemma hash_iter_nil {K} `{Countable K} (Y : gset K) : hash_iter Y = [] ↔ Y = ∅.
Proof.
  rewrite <- leibniz_equiv_iff, <- elements_empty_iff, <- !Permutation_nil_r.
  by rewrite hash_iter_Permutation.
Qed.

Lemma elem_of_hash_iter {K} `{Countable K} (Y : gset K) k : k ∈ hash_iter Y ↔ k ∈ Y.
Proof. by rewrite hash_iter_Permutation, elem_of_elements. Qed.

Lemma compare_orders_nil s snap :
  compare_orders s snap = [] ↔
  dom (open_orders s) = dom (remote_order_map snap) ∧
  ∀ i l r, open_orders s !! i = Some l → remote_order_map snap !! i = Some r →
    same_order_identity l r = true.
Proof.
  unfold compare_orders. rewrite !app_nil, !fmap_nil_eq, !hash_iter_nil, omap_nil_iff.
  split.
  - intros (H1%empty_difference_subseteq_L & H2%empty_difference_subseteq_L & H3).
    split; [by apply set_eq_subseteq|]. intros i l r Hl Hr.
    specialize (H3 i). rewrite Hl, Hr in H3; simpl in H3.
    destruct (same_order_identity l r); [done|]. discriminate H3.
    rewrite elem_of_hash_iter. apply elem_of_dom_2 in Hl, Hr. set_solver.
  - intros [Hd Hs]. rewrite Hd. split_and!; [set_solver..|]. intros i _.
    destruct (open_orders s !! i) as [l|] eqn:Hl; [|done]; simpl.
    destruct (remote_order_map snap !! i) as [r|] eqn:Hr; [|done]; simpl. by rewrite (Hs i l r).
Qed.

Lemma collect_attention_nil s snap :
  collect_attention s snap = [] ↔ snapshot_agrees s snap.
Proof.
  unfold collect_attention. rewrite sort_by_nil, !app_nil, compare_orders_nil.
  unfold detect_duplicate_signed_orders, detect_identifier_mismatches.
  rewrite !entry_conflicts_nil.
  unfold compare_approvals, compare_relayer_txs, collect_symmetric_difference.
  rewrite !fmap_nil_eq, !hash_iter_nil.
  split.
  - intros (? & [_ Hs] & [_ Ht] & [? ?] & [Ha1 Ha2]%empty_union_L & Hr%empty_difference_subseteq_L).
    apply empty_difference_subseteq_L in Ha1, Ha2. split; try done.
    + intros o1 o2 g1 g2 Hi1 Hi2 E1 E2 E. apply (Hs (so_signed_order_hash g1)).
      * apply list_elem_of_omap. exists o1. by rewrite E1.
      * apply list_elem_of_omap. exists o2. rewrite E2, E. done.
    + intros o1 o2 Hi1 Hi2 E. apply (Ht (o_token_id o1)); apply list_elem_of_fmap; [by exists o1|].
      exists o2. by rewrite E.
    + by apply set_eq_subseteq.
    + intros tx Hin. apply elem_of_dom, Hr, elem_of_list_to_set, list_elem_of_fmap. eauto.
  - intros [? Hs Ht ? ? Ha Hr]. split_and!; try done.
    + intros h i j (o1 & H1 & E1)%list_elem_of_omap (o2 & H2 & E2)%list_elem_of_omap.
      destruct (o_signed_order o1) as [g1|] eqn:G1; [|done].
      destruct (o_signed_order o2) as [g2|] eqn:G2; [|done]. simplify_eq/=.
      by eapply Hs.
    + intros t i j (o1 & E1 & H1)%list_elem_of_fmap (o2 & E2 & H2)%list_elem_of_fmap.
      simplify_eq. by apply Ht.
    + set_solver.
    + apply elem_of_equiv_empty_L. intros i [Hi Hn]%elem_of_difference.
      apply elem_of_list_to_set, list_elem_of_fmap in Hi as (tx & -> & Hin).
      apply Hn, elem_of_dom, Hr, Hin.
Qed.
End lemmas.

(** *** The report does not depend on the order of hash sets *)

Section order.
Context {X : Externals} (H1 H2 : HashOrder) `{!HashOrderLaws H1, !HashOrderLaws H2}.
Implicit Types (s : StateStore) (snap : RemoteSnapshot).

Lemma hash_iter_order {K} `{Countable K} (Y : gset K) : H1 K _ _ Y ≡ₚ H2 K _ _ Y.
Proof.
  etrans; [apply (hash_iter_Permutation (H := H1))|].
  symmetry. apply (hash_iter_Permutation (H := H2)).
Qed.

Lemma collect_attention_order s snap :
  collect_attention (H := H1) s snap = collect_attention (H := H2) s snap.
Proof.
  apply sort_by_canonical; [apply _..|].
  unfold compare_orders, compare_approvals, compare_relayer_txs, collect_symmetric_difference,
    hash_iter.
  repeat apply Permutation_app; try done;
    first [apply fmap_Permutation|apply omap_Permutation]; apply hash_iter_order.
Qed.
End order.

(** *** Adopting the snapshot *)

Section adopt.
Context {X : Externals}.
Implicit Types (s : StateStore) (snap : RemoteSnapshot).

(** The store after a snapshot was adopted. *)
Record adopted s snap s' : Prop := {
  ad_open_orders : open_orders s' = remote_order_map snap;
  ad_approvals : approvals s' = collect_map ((λ a, (approval_key a, a)) <$> rsn_approvals snap);
  ad_inventory : inventory s' = collect_map
    ((λ '(t, b, q), ({| ie_token_id := t; ie_bucket := b |}, q)) <$> rsn_inventory snap);
  ad_resolution : resolution s' =
    collect_map ((λ r, (rs_condition_id r, r)) <$> rsn_resolution_states snap);
  ad_relayer : relayer_txs s' = collect_map ((λ tx, (rt_tx_id tx, tx)) <$> rsn_relayer_txs snap);
  ad_first : first_reconcile_succeeded s' = true;
  ad_policy : runtime_policy s' =
    if has_pending_reconcile_anchors s then reconcile_attention_policy else reconciled_policy;
  ad_anchor : anchored_fullset s' = (q ← last_applied_journal_seq s;
    Some {| fa_state_version := state_version s; fa_committed_journal_seq := q;
            fa_open_orders := current_open_order_ids s' |});
  ad_pending : pending_reconcile_anchors s' = pending_reconcile_anchors s;
  ad_journal : consumed_journal s' = consumed_journal s ∧
    applied_fact_journal s' = applied_fact_journal s ∧ state_version s' = state_version s ∧
    last_applied_journal_seq s' = last_applied_journal_seq s ∧
    last_consumed_journal_seq s' = last_consumed_journal_seq s;
}.

Lemma apply_restore_posture_first s :
  first_reconcile_succeeded s = true →
  apply_restore_posture s = apply_policy s
    (if has_pending_reconcile_anchors s then reconcile_attention_policy else reconciled_policy).
Proof.
  intros E. unfold apply_restore_posture, enter_reconciling. rewrite E; simpl.
  by destruct (has_pending_reconcile_anchors s).
Qed.

Lemma apply_restore_posture_keeps_first s :
  first_reconcile_succeeded (apply_restore_posture s) = first_reconcile_succeeded s.
Proof.
  unfold apply_restore_posture, enter_reconciling.
  by destruct (first_reconcile_succeeded s) eqn:E, (has_pending_reconcile_anchors s).
Qed.

Lemma complete_reconcile_adopted s snap :
  adopted s snap (set_mode_if_reconciled (complete_reconcile s snap).1) ∧
  (complete_reconcile s snap).2 = negb (first_reconcile_succeeded s).
Proof.
  unfold set_mode_if_reconciled.
  destruct (last_applied_journal_seq s) as [q|] eqn:Hq; unfold complete_reconcile;
    cbn -[apply_restore_posture rebuild_fullset_anchor]; rewrite ?Hq;
    rewrite !apply_restore_posture_first by (rewrite ?apply_restore_posture_keeps_first; done);
    (split; [|done]); split; unfold has_pending_reconcile_anchors; simpl;
    destruct (bool_decide (pending_reconcile_anchors s = ∅)) eqn:Hp; simpl; try done;
    unfold anchored_fullset; simpl; rewrite ?Hq; simpl; rewrite ?decide_True by done; done.
Qed.
End adopt.

(** *** The same snapshot is accepted again *)

Section again.
Context {X : Externals} (H : HashOrder) `{!HashOrderLaws H, !OrderLaws X}.
Implicit Types (s : StateStore) (snap : RemoteSnapshot).

Lemma same_order_identity_refl (o : Order) : same_order_identity o o = true.
Proof.
  unfold same_order_identity, dec_eqb. rewrite !(cmp_refl dec_cmp).
  by rewrite !bool_decide_eq_true_2.
Qed.

Lemma adopted_agrees s snap s' :
  snapshot_agrees s snap → adopted s snap s' → snapshot_agrees s' snap.
Proof.
  intros [] [Ho Ha Hi Hr Ht _ _ _ _ _]. split; try done.
  - by rewrite Ho.
  - intros i l r. rewrite Ho. intros ??. simplify_eq. apply same_order_identity_refl.
  - apply set_eq. intros k. rewrite Ha, elem_of_dom, collect_map_lookup_is_Some.
    rewrite elem_of_list_to_set, <- list_fmap_compose. done.
  - intros tx Hin. rewrite Ht. apply collect_map_lookup_is_Some.
    rewrite <- list_fmap_compose. apply list_elem_of_fmap. by exists tx.
Qed.
End again.

(** ** Theorems *)

Section theorems.
Context {X : Externals}.


(** The outcome of a reconcile, its report and the order of the differences in
    it included, does not depend on the iteration order of the hash sets the code
    builds: any two orders give the same store and the same report. *)
Theorem reconcile_order_independent (H1 H2 : HashOrder)
    (HL1 : HashOrderLaws H1) (HL2 : HashOrderLaws H2) s snap :
  reconcile_store (H := H1) s snap = reconcile_store (H := H2) s snap.
Proof. unfold reconcile_store. by rewrite (collect_attention_order H1 H2). Qed.

(** Reconciling converges: a snapshot that was adopted is accepted again,
    reports no attention and no promotion, and adopting it once more yields the
    same orders, approvals, inventory, resolutions, transactions, full-set anchor
    and posture. *)
Theorem reconcile_converges (H : HashOrder) `{HL : !HashOrderLaws H, OL : !OrderLaws X} s snap
    (Hok : rr_succeeded (reconcile_store s snap).2 = true) :
  let s1 := (reconcile_store s snap).1 in
  let '(s2, r) := reconcile_store s1 snap in
  rr_succeeded r = true ∧ rr_attention r = [] ∧ rr_promoted_from_bootstrap r = false ∧
  open_orders s2 = open_orders s1 ∧ approvals s2 = approvals s1 ∧
  inventory s2 = inventory s1 ∧ resolution s2 = resolution s1 ∧
  relayer_txs s2 = relayer_txs s1 ∧ anchored_fullset s2 = anchored_fullset s1 ∧
  runtime_policy s2 = runtime_policy s1.
Proof.
  unfold reconcile_store in *. pose proof (collect_attention_nil H s snap) as Hnil.
  case_bool_decide as E; cbn [negb] in *; [|done]. apply Hnil in E. clear Hnil Hok.
  pose proof (complete_reconcile_adopted s snap) as [Had _].
  destruct (complete_reconcile s snap) as [s1 p1]; cbn [fst snd] in *.
  set (s1' := set_mode_if_reconciled s1) in *.
  pose proof (adopted_agrees s snap s1' E Had) as E1.
  rewrite bool_decide_eq_true_2 by (by apply collect_attention_nil).
  cbn [negb]. pose proof (complete_reconcile_adopted s1' snap) as [Had2 Hp].
  destruct (complete_reconcile s1' snap) as [s2 p2]; cbn [fst snd] in *.
  destruct Had as [? ? ? ? ? F1 P1 A1 Q1 (?&?&V1&L1&?)], Had2 as [? ? ? ? ? F2 P2 A2 Q2 (?&?&V2&L2&?)].
  split_and!; try done; try congruence.
  - cbn [rr_promoted_from_bootstrap]. by rewrite Hp, F1.
  - assert (open_orders (set_mode_if_reconciled s2) = open_orders s1') as Eo by congruence.
    rewrite A1, A2, L1, V1. unfold current_open_order_ids. by rewrite Eo.
  - rewrite P1, P2. unfold has_pending_reconcile_anchors. by rewrite Q1.
Qed.
End theorems.

Definition demo_order (order_id token condition : string) : @Order Micros :=
  {| o_order_id := order_id; o_market_id := "market-1"; o_condition_id := condition;
     o_token_id := token; o_quantity := 5000000 : @Decimal Micros;
     o_price := 400000 : @Decimal Micros;
     o_submission_state := SubmissionAcked; o_venue_state := VenueLive;
     o_settlement_state := SettlementUnknown; o_signed_order := None |}.

Definition demo_snapshot : @RemoteSnapshot Micros :=
  {| rsn_open_orders := [demo_order "order-2" "token-2" "condition-1";
                         demo_order "order-1" "token-1" "condition-1"];
     rsn_approvals := []; rsn_inventory := [("token-1", Free, 3000000 : @Decimal Micros)];
     rsn_resolution_states := []; rsn_relayer_txs := []; rsn_attention := [] |}.

Definition demo_store : @StateStore Micros :=
  record_local_order (record_local_order store_new (demo_order "order-1" "token-1" "condition-1"))
    (demo_order "order-2" "token-2" "condition-1").


Lemma reconcile_order_independent_witness :
  reconcile_store (H := ElementsOrder) store_new demo_snapshot =
  reconcile_store (H := ReverseOrder) store_new demo_snapshot.
Proof.
  apply (reconcile_order_independent ElementsOrder ReverseOrder
    ElementsOrder_laws ReverseOrder_laws).
Defined.

Lemma reconcile_converges_witness :
  rr_succeeded (reconcile_store (H := ElementsOrder)
    (reconcile_store (H := ElementsOrder) demo_store demo_snapshot).1 demo_snapshot).2 = true.
Proof.
  assert (rr_succeeded (reconcile_store (H := ElementsOrder) demo_store demo_snapshot).2 = true)
    as Hok by (vm_compute; reflexivity).
  pose proof (reconcile_converges ElementsOrder demo_store demo_snapshot Hok) as Hs.
  cbv zeta in Hs.
  destruct (reconcile_store (reconcile_store demo_store demo_snapshot).1 demo_snapshot) as [s2 r].
  apply Hs.
Defined.
