(* ===== verification/StoreInvariants.v ===== *)
(** * What every reachable store satisfies

    The public operations of [StateStore], the applier and the reconcile as one
    transition system; its reachable states are well formed, their posture is one
    of three, and they are Healthy only when nothing is pending. *)

From S2P Require Import Prelude RecordSet Externals Domain RuntimeMode Facts Store Apply Reconcile.
Import RuntimeMode.

Section ops.
Context {X : Externals} {H : HashOrder}.

Inductive StoreOp :=
| OpApply (journal_seq : Z) (fact : StateFactInput)
| OpReconcile (snap : RemoteSnapshot)
| OpMarkBootstrapping
| OpRestoreCommittedAnchor (version journal_seq : Z)
| OpRestorePendingReconcileAnchor (a : PendingReconcileAnchor)
| OpMarkReconciledAfterRestore (baseline : Z)
| OpRestoreReconciledPolicy
| OpMarkReconcileRequired
| OpClearPendingReconcileAfterRestore
| OpRecordLocalOrder (o : Order)
| OpRecordLocalApproval (a : ApprovalState)
| OpRecordLocalInventory (t : TokenId) (b : InventoryBucket) (q : Decimal)
| OpRecordLocalResolution (r : ResolutionState)
| OpRecordLocalRelayerTx (tx : RelayerTxSummary).

Definition run_op (s : StateStore) (op : StoreOp) : StateStore :=
  match op with
  | OpApply q f => match apply s q f with Returns (s', _) => s' | Panics => s end
  | OpReconcile snap => (reconcile_store s snap).1
  | OpMarkBootstrapping => mark_bootstrapping s
  | OpRestoreCommittedAnchor v q => restore_committed_anchor s v q
  | OpRestorePendingReconcileAnchor a => restore_pending_reconcile_anchor s a
  | OpMarkReconciledAfterRestore q => mark_reconciled_after_restore s q
  | OpRestoreReconciledPolicy => restore_reconciled_policy s
  | OpMarkReconcileRequired => mark_reconcile_required s
  | OpClearPendingReconcileAfterRestore => clear_pending_reconcile_after_restore s
  | OpRecordLocalOrder o => record_local_order s o
  | OpRecordLocalApproval a => record_local_approval s a
  | OpRecordLocalInventory t b q => record_local_inventory s t b q
  | OpRecordLocalResolution r => record_local_resolution s r
  | OpRecordLocalRelayerTx tx => record_local_relayer_tx s tx
  end.

(** The stores that sequences of allowed operations reach from a new store. *)
Inductive reachable (allowed : StoreOp → Prop) : StateStore → Prop :=
| reachable_new : reachable allowed store_new
| reachable_op s op : reachable allowed s → allowed op → reachable allowed (run_op s op).

Definition any_op (op : StoreOp) : Prop := True.

(** Every operation but the one that declares the store reconciled as it is. *)
Definition keeps_pending (op : StoreOp) : Prop := op ≠ OpRestoreReconciledPolicy.

(** ** The invariants *)

(** Entries are filed under their own keys; a family has a discovery record or a
    pending backfill, not both; the full-set anchor lists the current orders; and
    a fact is recorded as applied at a sequence number that is bound to it. *)
Record data_wf (s : StateStore) : Prop := {
  wf_orders : ∀ i o, open_orders s !! i = Some o → o_order_id o = i;
  wf_approvals : ∀ k a, approvals s !! k = Some a → approval_key a = k;
  wf_resolution : ∀ c r, resolution s !! c = Some r → rs_condition_id r = c;
  wf_relayer : ∀ i tx, relayer_txs s !! i = Some tx → rt_tx_id tx = i;
  wf_records : ∀ f r, family_discovery_records s !! f = Some r → fd_family_id r = f;
  wf_backfills : ∀ f p, pending_family_backfills s !! f = Some p →
    family_discovery_records s !! f = None;
  wf_pending : ∀ r a, pending_reconcile_anchors s !! r = Some a → pa_pending_ref a = r;
  wf_attention : ∀ r a, runtime_attention_anchors s !! r = Some a → ra_attention_ref a = r;
  wf_anchor : ∀ a, fullset_anchor s = Some a → fa_open_orders a = current_open_order_ids s;
  wf_applied : ∀ k q, applied_fact_journal s !! k = Some q → consumed_journal s !! q = Some k;
}.

(** The posture is that of a bootstrap, a pending reconcile or a reconciled
    store, and it is that of a bootstrap or a pending reconcile until the first
    reconcile succeeded. *)
Definition posture_wf (s : StateStore) : Prop :=
  let p := {| rp_mode := runtime_mode s; rp_overlay := overlay s |} in
  (p = bootstrap_policy ∧ first_reconcile_succeeded s = false) ∨
  p = reconcile_attention_policy ∨
  (p = reconciled_policy ∧ first_reconcile_succeeded s = true).

(** Pending anchors keep the store in Reconciling. *)
Definition pending_wf (s : StateStore) : Prop :=
  pending_reconcile_anchors s ≠ ∅ →
  first_reconcile_succeeded s = true ∧ runtime_mode s = Reconciling.

(** ** Lemmas *)

(** The parts of the store the data invariant is about. *)
Definition same_data (s s' : StateStore) : Prop :=
  open_orders s' = open_orders s ∧ approvals s' = approvals s ∧ resolution s' = resolution s ∧
  relayer_txs s' = relayer_txs s ∧ family_discovery_records s' = family_discovery_records s ∧
  pending_family_backfills s' = pending_family_backfills s ∧
  pending_reconcile_anchors s' = pending_reconcile_anchors s ∧
  runtime_attention_anchors s' = runtime_attention_anchors s ∧
  fullset_anchor s' = fullset_anchor s ∧ applied_fact_journal s' = applied_fact_journal s ∧
  consumed_journal s' = consumed_journal s.

Lemma data_wf_same s s' : same_data s s' → data_wf s → data_wf s'.
Proof.
  intros (E1 & E2 & E3 & E4 & E5 & E6 & E7 & E8 & E9 & E10 & E11) [].
  assert (current_open_order_ids s' = current_open_order_ids s) as E.
  { unfold current_open_order_ids. by rewrite E1. }
  split; rewrite ?E1, ?E2, ?E3, ?E4, ?E5, ?E6, ?E7, ?E8, ?E9, ?E10, ?E11, ?E; eauto.
Qed.

Lemma same_data_apply_policy s p : same_data s (apply_policy s p).
Proof. repeat split. Qed.

Lemma same_data_restore_posture s : same_data s (apply_restore_posture s).
Proof.
  unfold apply_restore_posture, enter_reconciling.
  destruct (first_reconcile_succeeded s), (has_pending_reconcile_anchors s); repeat split.
Qed.

Lemma data_wf_apply_policy s p : data_wf s → data_wf (apply_policy s p).
Proof. apply data_wf_same, same_data_apply_policy. Qed.

Lemma data_wf_restore_posture s : data_wf s → data_wf (apply_restore_posture s).
Proof. apply data_wf_same, same_data_restore_posture. Qed.

Lemma data_wf_rebuild_anchor s q : data_wf s → data_wf (rebuild_fullset_anchor s q).
Proof. intros []. split; simpl; try done. by intros a [= <-]. Qed.

Lemma data_wf_clear_pending s :
  data_wf s → data_wf (s <| pending_reconcile_anchors := ∅ |>).
Proof. intros []. split; simpl; try done. Qed.

Lemma data_wf_delete_pending s r :
  data_wf s → data_wf (s <| pending_reconcile_anchors ::= delete r |>).
Proof. intros []. split; simpl; try done. intros r' a [_ ?]%lookup_delete_Some. eauto. Qed.

Lemma data_wf_record_pending s a : data_wf s → data_wf (record_pending_reconcile s a).
Proof. intros []. split; simpl; try done. intros r a' [[<- <-]|[_ ?]]%lookup_insert_Some; eauto. Qed.

Lemma data_wf_record_attention s a : data_wf s → data_wf (record_runtime_attention s a).
Proof. intros []. split; simpl; try done. intros r a' [[<- <-]|[_ ?]]%lookup_insert_Some; eauto. Qed.

(** A fact consumed at a fresh sequence number disturbs no binding. *)
Lemma data_wf_consume s q k :
  consumed_journal s !! q = None → data_wf s →
  data_wf (s <| last_consumed_journal_seq := Some q |> <| consumed_journal ::= <[q := k]> |>).
Proof.
  intros Hq []. split; simpl; try done. intros k' q' Hk.
  rewrite lookup_insert_ne; [eauto|]. intros <-. apply wf_applied0 in Hk. congruence.
Qed.

Lemma data_wf_record_applied s q k :
  consumed_journal s !! q = Some k → data_wf s → data_wf (record_applied_fact s q k).1.
Proof.
  intros Hq Hwf. unfold record_applied_fact. simpl.
  apply data_wf_restore_posture, data_wf_rebuild_anchor.
  destruct Hwf. split; simpl; try done.
  intros k' q' [[<- <-]|[_ ?]]%lookup_insert_Some; eauto.
Qed.

Lemma data_wf_record_discovery s r : data_wf s → data_wf (record_family_discovery s r).
Proof.
  intros []. unfold record_family_discovery.
  destruct (family_discovery_records s !! fd_family_id r) as [e|]; cbn [fd_family_id];
    destruct (pending_family_backfills s !! fd_family_id r) as [b|];
    (split; simpl; try done;
     [intros f r' [[<- <-]|[_ ?]]%lookup_insert_Some; by eauto
     |intros f p [Hne ?]%lookup_delete_Some; rewrite lookup_insert_ne by done; by eauto]).
Qed.

Lemma data_wf_record_backfill s f c t : data_wf s → data_wf (record_family_backfill s f c t).
Proof.
  intros []. unfold record_family_backfill.
  destruct (family_discovery_records s !! f) as [r|] eqn:Hf; split; simpl; try done.
  - intros f' r' [[<- <-]|[_ ?]]%lookup_insert_Some; simpl; eauto.
  - intros f' p Hp. rewrite lookup_insert_ne; [eauto|]. intros <-. apply wf_backfills0 in Hp. congruence.
  - intros f' p [[<- <-]|[_ ?]]%lookup_insert_Some; eauto.
Qed.

Lemma data_wf_clear_pending_reconcile s r :
  data_wf s → data_wf (clear_pending_reconcile s r).1.
Proof. intros. by apply data_wf_restore_posture, data_wf_delete_pending. Qed.


Lemma data_wf_complete_reconcile s snap : data_wf s → data_wf (complete_reconcile s snap).1.
Proof.
  intros []. unfold complete_reconcile. apply data_wf_restore_posture.
  destruct (last_applied_journal_seq s) as [q|] eqn:Hq;
    cbn -[rebuild_fullset_anchor]; rewrite ?Hq;
    (split; simpl; eauto using collect_map_keyed); try done; by intros a [= <-].
Qed.

Lemma data_wf_mark_required s : data_wf s → data_wf (mark_reconcile_required s).
Proof. apply data_wf_same. repeat split. Qed.

#[local] Hint Resolve data_wf_apply_policy data_wf_restore_posture data_wf_rebuild_anchor
  data_wf_clear_pending data_wf_record_pending data_wf_record_attention data_wf_record_discovery
  data_wf_record_backfill data_wf_clear_pending_reconcile data_wf_record_applied
  data_wf_mark_required : core.

Lemma data_wf_apply_consumed s q f :
  consumed_journal s !! q = Some (fact_key f) → data_wf s → data_wf (apply_consumed s q f).1.
Proof.
  intros Hq Hwf. assert (∀ s1 d, consumed_journal s1 = consumed_journal s → data_wf s1 →
    data_wf (let '(s2, v) := record_applied_fact s1 q (fact_key f) in (s2, Applied q v d)).1)
    as Happ.
  { intros s1 d E H1. assert (data_wf (record_applied_fact s1 q (fact_key f)).1) as H2.
    { apply data_wf_record_applied; [by rewrite E|done]. }
    by destruct (record_applied_fact s1 q (fact_key f)). }
  unfold apply_consumed. destruct (duplicate_journal_seq s (fact_key f)); [done|].
  destruct (fi_hint f) as [|r|fam c t|a|a|pr []].
  - by apply Happ.
  - by apply Happ; auto.
  - apply Happ; auto. unfold record_family_backfill. by destruct (_ !! fam).
  - apply data_wf_mark_required; auto.
  - by apply Happ; auto.
  - apply Happ; auto. change (log_bound (log_of (clear_pending_reconcile s pr).1) = consumed_journal s).
    by rewrite log_of_clear_pending_reconcile.
  - apply data_wf_mark_required; auto.
Qed.

Lemma data_wf_apply s q f s' r : apply s q f = Returns (s', r) → data_wf s → data_wf s'.
Proof.
  intros E Hwf. destruct (apply_cases s q f) as [(e & E' & _)|(s1 & Hs1 & E')];
    rewrite E' in E; injection E as <- <-; [done|].
  destruct Hs1 as [[[Hn _] ->]|[Hb ->]].
  - apply data_wf_apply_consumed; simpl; [by rewrite lookup_insert_eq|by apply data_wf_consume].
  - by apply data_wf_apply_consumed.
Qed.

Lemma data_wf_run_op s op : data_wf s → data_wf (run_op s op).
Proof.
  intros Hwf. destruct op; cbn [run_op].
  - destruct (apply s journal_seq fact) as [[s' r]|] eqn:E; [|done]. by eapply data_wf_apply.
  - unfold reconcile_store. case_bool_decide; cbn [negb fst].
    + pose proof (data_wf_complete_reconcile s snap Hwf).
      destruct (complete_reconcile s snap). by apply data_wf_restore_posture.
    + by apply data_wf_apply_policy.
  - unfold mark_bootstrapping. destruct (first_reconcile_succeeded s); auto.
  - apply data_wf_restore_posture. eapply (data_wf_same (rebuild_fullset_anchor
      (s <| state_version := version |>) journal_seq)); [repeat split|].
    apply data_wf_rebuild_anchor. eapply data_wf_same; [|done]. repeat split.
  - apply data_wf_restore_posture. eapply data_wf_same; [|by apply (data_wf_record_pending s a)].
    repeat split.
  - unfold mark_reconciled_after_restore. apply data_wf_apply_policy.
    destruct (last_applied_journal_seq s).
    + eapply data_wf_same; [|by apply data_wf_clear_pending]. repeat split.
    + eapply data_wf_same; [|by apply data_wf_clear_pending, (data_wf_rebuild_anchor s baseline)].
      repeat split.
  - apply data_wf_apply_policy. eapply data_wf_same; [|done]. repeat split.
  - auto.
  - unfold clear_pending_reconcile_after_restore. destruct (first_reconcile_succeeded _); auto.
  - destruct Hwf. split; simpl; try done. intros i o' [[<- <-]|[_ ?]]%lookup_insert_Some; eauto.
  - destruct Hwf. split; simpl; try done. intros i o' [[<- <-]|[_ ?]]%lookup_insert_Some; eauto.
  - eapply data_wf_same; [|done]. repeat split.
  - destruct Hwf. split; simpl; try done. intros i o' [[<- <-]|[_ ?]]%lookup_insert_Some; eauto.
  - destruct Hwf. split; simpl; try done. intros i o' [[<- <-]|[_ ?]]%lookup_insert_Some; eauto.
Qed.

(** *** Posture *)

Definition same_posture (s s' : StateStore) : Prop :=
  runtime_mode s' = runtime_mode s ∧ overlay s' = overlay s ∧
  first_reconcile_succeeded s' = first_reconcile_succeeded s.

(** Anchors are pending only after a first reconcile was recorded. *)
Definition pending_after_first (s : StateStore) : Prop :=
  pending_reconcile_anchors s ≠ ∅ → first_reconcile_succeeded s = true.

Lemma posture_wf_same s s' : same_posture s s' → posture_wf s → posture_wf s'.
Proof. intros (E1 & E2 & E3). unfold posture_wf. by rewrite E1, E2, E3. Qed.

Lemma posture_wf_restore s : posture_wf s → posture_wf (apply_restore_posture s).
Proof.
  intros Hs. unfold apply_restore_posture, enter_reconciling.
  destruct (first_reconcile_succeeded s) eqn:E; [|exact Hs]. cbn [negb].
  destruct (has_pending_reconcile_anchors s); unfold posture_wf; simpl; auto.
Qed.

Lemma posture_wf_restore_first s :
  first_reconcile_succeeded s = true → posture_wf (apply_restore_posture s).
Proof.
  intros E. rewrite apply_restore_posture_first by done. unfold posture_wf.
  destruct (has_pending_reconcile_anchors s); simpl; auto.
Qed.

Lemma pending_wf_restore s : pending_after_first s → pending_wf (apply_restore_posture s).
Proof.
  intros Hs Hp. assert (pending_reconcile_anchors s ≠ ∅) as Hp'.
  { by destruct (same_data_restore_posture s) as (_&_&_&_&_&_&<-&_). }
  rewrite apply_restore_posture_first by auto. unfold has_pending_reconcile_anchors.
  rewrite bool_decide_eq_false_2 by done. simpl. auto.
Qed.

Lemma pending_wf_first s : pending_wf s → pending_after_first s.
Proof. intros Hs Hp. by apply Hs. Qed.

Lemma pending_wf_same s s' :
  same_posture s s' → pending_reconcile_anchors s' = pending_reconcile_anchors s →
  pending_wf s → pending_wf s'.
Proof. intros (E1 & E2 & E3) E. unfold pending_wf. by rewrite E, E1, E3. Qed.

Lemma posture_record_applied s q k :
  posture_wf s → posture_wf (record_applied_fact s q k).1.
Proof.
  intros Hs. unfold record_applied_fact. cbn [fst]. apply posture_wf_restore.
  by eapply posture_wf_same; [|exact Hs].
Qed.

Lemma pending_record_applied s q k :
  pending_after_first s → pending_wf (record_applied_fact s q k).1.
Proof. intros Hs. unfold record_applied_fact. cbn [fst]. by apply pending_wf_restore. Qed.

Lemma posture_wf_required s : posture_wf (mark_reconcile_required s).
Proof. unfold posture_wf. simpl. auto. Qed.

Lemma pending_wf_required s : pending_wf (mark_reconcile_required s).
Proof. by intros _. Qed.

(** A fact that is applied keeps the posture of the store before it, up to the
    restored posture. *)
Lemma posture_apply_consumed s q f : posture_wf s → posture_wf (apply_consumed s q f).1.
Proof.
  intros Hs. assert (∀ s1 d, posture_wf s1 →
    posture_wf (let '(s2, v) := record_applied_fact s1 q (fact_key f) in (s2, Applied q v d)).1)
    as Happ.
  { intros s1 d H1. pose proof (posture_record_applied s1 q (fact_key f) H1) as H2.
    by destruct (record_applied_fact s1 q (fact_key f)). }
  unfold apply_consumed. destruct (duplicate_journal_seq s (fact_key f)); [done|].
  destruct (fi_hint f) as [|r|fam c t|a|a|pr []]; try apply posture_wf_required; apply Happ;
    try done.
  - unfold record_family_backfill. by destruct (family_discovery_records s !! fam).
  - by apply posture_wf_restore.
Qed.

Lemma pending_apply_consumed s q f : pending_wf s → pending_wf (apply_consumed s q f).1.
Proof.
  intros Hs. assert (∀ s1 d, pending_after_first s1 →
    pending_wf (let '(s2, v) := record_applied_fact s1 q (fact_key f) in (s2, Applied q v d)).1)
    as Happ.
  { intros s1 d H1. pose proof (pending_record_applied s1 q (fact_key f) H1) as H2.
    by destruct (record_applied_fact s1 q (fact_key f)). }
  unfold apply_consumed. destruct (duplicate_journal_seq s (fact_key f)); [done|].
  destruct (fi_hint f) as [|r|fam c t|a|a|pr []]; try apply pending_wf_required; apply Happ;
    try by apply pending_wf_first.
  - unfold record_family_backfill. destruct (family_discovery_records s !! fam);
      by apply pending_wf_first.
  - apply pending_wf_first, pending_wf_restore. intros Hp. apply Hs. simpl in Hp.
    intros E. by rewrite E, delete_empty in Hp.
Qed.

Lemma posture_apply s q f s' r : apply s q f = Returns (s', r) → posture_wf s → posture_wf s'.
Proof.
  intros E Hs. destruct (apply_cases s q f) as [(e & E' & _)|(s1 & Hs1 & E')];
    rewrite E' in E; injection E as <- <-; [done|].
  destruct Hs1 as [[_ ->]|[_ ->]]; by apply posture_apply_consumed.
Qed.

Lemma pending_apply s q f s' r : apply s q f = Returns (s', r) → pending_wf s → pending_wf s'.
Proof.
  intros E Hs. destruct (apply_cases s q f) as [(e & E' & _)|(s1 & Hs1 & E')];
    rewrite E' in E; injection E as <- <-; [done|].
  destruct Hs1 as [[_ ->]|[_ ->]]; by apply pending_apply_consumed.
Qed.

Lemma complete_reconcile_restores s snap :
  ∃ s1, (complete_reconcile s snap).1 = apply_restore_posture s1 ∧
    first_reconcile_succeeded s1 = true.
Proof. unfold complete_reconcile. eexists. split; [reflexivity|done]. Qed.

Lemma posture_run_op s op : posture_wf s → posture_wf (run_op s op).
Proof.
  intros Hs. destruct op; cbn [run_op]; try done; try by apply posture_wf_restore_first.
  - destruct (apply s journal_seq fact) as [[s' r]|] eqn:E; [|done]. by eapply posture_apply.
  - unfold reconcile_store. case_bool_decide; cbn [negb fst].
    + pose proof (complete_reconcile_restores s snap) as (s1 & E & F).
      destruct (complete_reconcile s snap) as [s2 p]; cbn [fst] in *. subst.
      by apply posture_wf_restore, posture_wf_restore_first.
    + right. by left.
  - unfold mark_bootstrapping. destruct (first_reconcile_succeeded s) eqn:E; [done|].
    left. by split.
  - right; right. done.
  - right; right. done.
  - right; left. done.
  - unfold clear_pending_reconcile_after_restore. simpl.
    destruct (first_reconcile_succeeded s) eqn:E; [by apply posture_wf_restore_first|].
    apply (posture_wf_same s); [|done]. by repeat split.
Qed.

Lemma pending_run_op s op : keeps_pending op → pending_wf s → pending_wf (run_op s op).
Proof.
  intros Hop Hs. destruct op; cbn [run_op]; try done; try by apply pending_wf_restore.
  - destruct (apply s journal_seq fact) as [[s' r]|] eqn:E; [|done]. by eapply pending_apply.
  - unfold reconcile_store. case_bool_decide; cbn [negb fst].
    + pose proof (complete_reconcile_restores s snap) as (s1 & E & F).
      destruct (complete_reconcile s snap) as [s2 p]; cbn [fst] in *. subst.
      apply pending_wf_restore. intros _. by rewrite apply_restore_posture_keeps_first.
    + intros Hp. split; [|done]. by apply Hs.
  - unfold mark_bootstrapping. destruct (first_reconcile_succeeded s) eqn:E; [done|].
    intros Hp. by apply Hs in Hp as [? _]; congruence.
  - unfold clear_pending_reconcile_after_restore. simpl.
    destruct (first_reconcile_succeeded s) eqn:E; [|done]. by apply pending_wf_restore.
Qed.

Lemma data_wf_new : data_wf store_new.
Proof. by split. Qed.

Lemma reachable_posture_wf allowed s : reachable allowed s → posture_wf s.
Proof. induction 1 as [|s op _ IH _]; [by left|by apply posture_run_op]. Qed.

Lemma reachable_pending_wf s : reachable keeps_pending s → pending_wf s.
Proof. induction 1 as [|s op _ IH Hop]; [done|by apply pending_run_op]. Qed.

(** ** Theorems *)

(** C35. Every store that the public operations reach, in any order and with any
    arguments, is well formed: entries are filed under their own keys, a family
    never has both a discovery record and a buffered backfill, the full-set
    anchor lists exactly the current open orders in order, and a fact counts as
    applied only at a sequence number bound to it. *)
Theorem reachable_data_wf s : reachable any_op s → data_wf s.
Proof.
  induction 1 as [|s op _ IH _]; [apply data_wf_new|]. by apply data_wf_run_op.
Qed.

(** In every reachable store the posture is that of a bootstrap, of a required
    reconcile or of a reconciled store (never another mode, never another
    overlay), and automatic repair is allowed exactly when the mode is Healthy,
    which implies that a first reconcile was recorded. *)
Theorem reachable_posture s :
  reachable any_op s →
  (runtime_policy s = bootstrap_policy ∨ runtime_policy s = reconcile_attention_policy ∨
   runtime_policy s = reconciled_policy) ∧
  (store_allows_automatic_repair s = true ↔ runtime_mode s = Healthy) ∧
  (runtime_mode s = Healthy → first_reconcile_succeeded s = true).
Proof.
  intros Hs%reachable_posture_wf.
  unfold runtime_policy, mode_overlay, store_allows_automatic_repair.
  destruct Hs as [[[= -> ->] ->]|[[= -> ->]|[[= -> ->] ->]]]; simpl; split_and!; try done; auto.
  unfold allows_automatic_repair. by rewrite andb_false_r.
Qed.

(** C30. As long as no operation declares the store reconciled regardless of its
    anchors, a store with a pending reconcile anchor is Reconciling with cancels
    only, and does not allow automatic repair: live work that is not settled
    blocks expansion. *)
Theorem pending_blocks_expansion s
    (Hr : reachable keeps_pending s) (Hp : pending_reconcile_anchors s ≠ ∅) :
  runtime_policy s = reconcile_attention_policy ∧ store_allows_automatic_repair s = false.
Proof.
  pose proof (reachable_posture_wf _ _ Hr) as Hs.
  destruct (reachable_pending_wf s Hr Hp) as [Hf Hm].
  unfold runtime_policy, mode_overlay, store_allows_automatic_repair. rewrite Hm.
  split; [|by rewrite Hf].
  destruct Hs as [[[= E _] _]|[[= _ ->]|[[= E _] _]]]; [congruence|done|congruence].
Qed.

End ops.

Definition demo_anchor : PendingReconcileAnchor :=
  {| pa_pending_ref := "pending-1"; pa_submission_ref := "submission-1";
     pa_family_id := "family-1"; pa_route := "neg-risk"; pa_reason := "submitted" |}.

Lemma reachable_data_wf_witness :
  data_wf (run_op (H := ElementsOrder) (X := Micros) store_new
    (OpRecordLocalOrder (demo_order "order-1" "token-1" "condition-1"))).
Proof. apply (reachable_data_wf (H := ElementsOrder)). repeat constructor. Defined.

Lemma reachable_posture_witness :
  let s := run_op (H := ElementsOrder) (X := Micros) store_new OpRestoreReconciledPolicy in
  store_allows_automatic_repair s = true ↔ runtime_mode s = Healthy.
Proof.
  intros s. apply (reachable_posture (H := ElementsOrder)). repeat constructor.
Defined.

Lemma pending_blocks_expansion_witness :
  runtime_policy (run_op (H := ElementsOrder) (X := Micros) store_new
    (OpRestorePendingReconcileAnchor demo_anchor)) = reconcile_attention_policy.
Proof.
  apply (pending_blocks_expansion (H := ElementsOrder)); [by repeat constructor|].
  vm_compute. discriminate.
Defined.
