(* ===== verification/Snapshot.v ===== *)
(** * Published snapshots and candidate publications

    [state/src/snapshot.rs] and [state/src/candidate.rs]: the views of the store
    that strategies and the operator see. *)

From S2P Require Import Prelude RecordSet Externals Domain RuntimeMode Facts Store Apply.
From S2P Require Import Reconcile StoreInvariants.
Import RuntimeMode.

Record ProjectionReadiness := {
  pr_snapshot_id : string;
  pr_fullset_ready : bool;
  pr_negrisk_ready : bool;
}.

Definition ready_fullset_pending_negrisk (snapshot_id : string) : ProjectionReadiness :=
  {| pr_snapshot_id := snapshot_id; pr_fullset_ready := true; pr_negrisk_ready := false |}.

Record FullSetView := {
  fv_snapshot_id : string;
  fv_state_version : Z;
  fv_open_orders : list string;
}.

Record NegRiskFamilyRolloutReadiness := {
  nr_family_id : string;
  nr_shadow_parity_ready : bool;
  nr_recovery_ready : bool;
  nr_replay_drift_ready : bool;
  nr_fault_injection_ready : bool;
  nr_conversion_path_ready : bool;
  nr_halt_semantics_ready : bool;
}.

Record NegRiskView := {
  nv_snapshot_id : string;
  nv_state_version : Z;
  nv_families : list NegRiskFamilyRolloutReadiness;
}.

Definition family_ids (v : NegRiskView) : list string := nr_family_id <$> nv_families v.

Record PublishedSnapshot := {
  ps_snapshot_id : string;
  ps_state_version : Z;
  ps_committed_journal_seq : Z;
  ps_fullset_ready : bool;
  ps_negrisk_ready : bool;
  ps_fullset : option FullSetView;
  ps_negrisk : option NegRiskView;
}.

Inductive CandidateProjectionStatus :=
| CandidateReady
| CandidateLagging (reason : string)
| CandidateFailed (reason : string).

Record CandidateProjectionReadiness := {
  cr_publication_id : string;
  cr_status : CandidateProjectionStatus;
}.

Section snapshot.
Context {X : Externals}.

Definition snapshot_from_store (s : StateStore) (readiness : ProjectionReadiness) :
    outcome PublishedSnapshot :=
  committed_journal_seq ← expect (last_applied_journal_seq s);
  let fullset :=
    anchor ← anchored_fullset s;
    if pr_fullset_ready readiness then
      Some {| fv_snapshot_id := pr_snapshot_id readiness;
              fv_state_version := fa_state_version anchor;
              fv_open_orders := fa_open_orders anchor |}
    else None in
  Returns {| ps_snapshot_id := pr_snapshot_id readiness;
             ps_state_version := state_version s;
             ps_committed_journal_seq := committed_journal_seq;
             ps_fullset_ready := pr_fullset_ready readiness && bool_decide (is_Some fullset);
             ps_negrisk_ready := false;
             ps_fullset := fullset;
             ps_negrisk := None |}.

Record CandidateView := {
  cv_publication_id : string;
  cv_state_version : Z;
  cv_committed_journal_seq : Z;
  cv_discovery_records : list FamilyDiscoveryRecord;
}.

Record CandidatePublication := {
  cp_publication_id : string;
  cp_state_version : Z;
  cp_committed_journal_seq : Z;
  cp_ready : bool;
  cp_failure_reason : option string;
  cp_lag_reason : option string;
  cp_view : option CandidateView;
}.

Definition candidate_publication_from_store (s : StateStore)
    (readiness : CandidateProjectionReadiness) : outcome CandidatePublication :=
  committed_journal_seq ← expect (last_applied_journal_seq s);
  let '(ready, failure_reason, lag_reason, view) :=
    match cr_status readiness with
    | CandidateReady =>
        (true, None, None,
         Some {| cv_publication_id := cr_publication_id readiness;
                 cv_state_version := state_version s;
                 cv_committed_journal_seq := committed_journal_seq;
                 cv_discovery_records := family_discovery_record_list s |})
    | CandidateLagging reason => (false, None, Some reason, None)
    | CandidateFailed reason => (false, Some reason, None, None)
    end in
  Returns {| cp_publication_id := cr_publication_id readiness;
             cp_state_version := state_version s;
             cp_committed_journal_seq := committed_journal_seq;
             cp_ready := ready; cp_failure_reason := failure_reason;
             cp_lag_reason := lag_reason; cp_view := view |}.

(** ** Theorems *)

(** Publishing a snapshot panics exactly when no fact was applied yet. A
    snapshot of a well-formed store carries the store's version and last applied
    sequence number; it has a full-set view exactly when it says so, only if the
    full-set projection was ready, and that view is of the same version and lists
    the store's current open orders, sorted and without repetition; the neg-risk
    view is never published. *)
Theorem published_snapshot_is_current s readiness (Hwf : data_wf s) :
  (snapshot_from_store s readiness = Panics ↔ last_applied_journal_seq s = None) ∧
  ∀ p, snapshot_from_store s readiness = Returns p →
    Some (ps_committed_journal_seq p) = last_applied_journal_seq s ∧
    ps_state_version p = state_version s ∧
    (ps_fullset_ready p = true ↔ is_Some (ps_fullset p)) ∧
    ps_negrisk_ready p = false ∧ ps_negrisk p = None ∧
    ∀ v, ps_fullset p = Some v →
      pr_fullset_ready readiness = true ∧ fv_state_version v = ps_state_version p ∧
      fv_snapshot_id v = ps_snapshot_id p ∧
      (∀ i, i ∈ fv_open_orders v ↔ is_Some (open_orders s !! i)) ∧
      StronglySorted (cmp_le str_cmp) (fv_open_orders v) ∧ NoDup (fv_open_orders v).
Proof.
  unfold snapshot_from_store.
  destruct (last_applied_journal_seq s) as [q|] eqn:Hq; simpl; [|by split].
  split; [done|]. intros p [= <-]; simpl. unfold anchored_fullset. rewrite Hq; simpl.
  destruct (fullset_anchor s) as [a|] eqn:Ha; simpl.
  2:{ rewrite andb_false_r. by split_and!. }
  destruct (decide _) as [[Hv Hc]|]; simpl.
  2:{ rewrite andb_false_r. by split_and!. }
  destruct (pr_fullset_ready readiness); simpl.
  2:{ by split_and!. }
  split_and!; try done. intros v [= <-]; simpl. rewrite (wf_anchor s Hwf a Ha).
  unfold current_open_order_ids. split_and!; try done.
  - intros i. rewrite (elem_of_sort_by str_cmp), list_elem_of_fmap. split.
    + intros ([i' o] & -> & ?%elem_of_map_to_list). by exists o.
    + intros [o ?]. exists (i, o). by rewrite elem_of_map_to_list.
  - apply sort_by_sorted, _.
  - rewrite (sort_by_Permutation str_cmp). apply NoDup_fst_map_to_list.
Qed.

(** A candidate publication of a well-formed store panics exactly when no fact
    was applied; otherwise it is ready exactly when it has a view, gives a reason
    exactly when it is not ready, and a view lists each discovered family once, in
    the order of the family ids, with the version and sequence number of the
    store. *)
Theorem candidate_publication_spec s readiness (Hwf : data_wf s) :
  (candidate_publication_from_store s readiness = Panics ↔ last_applied_journal_seq s = None) ∧
  ∀ p, candidate_publication_from_store s readiness = Returns p →
    Some (cp_committed_journal_seq p) = last_applied_journal_seq s ∧
    (cp_ready p = true ↔ is_Some (cp_view p)) ∧
    (cp_ready p = false ↔ is_Some (cp_failure_reason p) ∨ is_Some (cp_lag_reason p)) ∧
    ∀ v, cp_view p = Some v →
      cv_state_version v = state_version s ∧
      Some (cv_committed_journal_seq v) = last_applied_journal_seq s ∧
      (∀ r, r ∈ cv_discovery_records v ↔
         family_discovery_records s !! fd_family_id r = Some r) ∧
      StronglySorted (cmp_le str_cmp) (fd_family_id <$> cv_discovery_records v) ∧
      NoDup (fd_family_id <$> cv_discovery_records v).
Proof.
  unfold candidate_publication_from_store.
  destruct (last_applied_journal_seq s) as [q|]; simpl; [|by split].
  split; [by destruct (cr_status readiness)|]. intros p.
  assert (fd_family_id <$> family_discovery_record_list s =
          btree_keys str_cmp (family_discovery_records s)) as Hkeys.
  { unfold family_discovery_record_list, btree_values, btree_keys. rewrite <- list_fmap_compose.
    apply list_fmap_ext. intros i [f r] Hi. simpl. apply (wf_records s Hwf).
    apply list_elem_of_lookup_2 in Hi. by apply elem_of_btree_entries in Hi. }
  destruct (cr_status readiness); intros [= <-]; simpl; (split; [done|]).
  2,3: split; [by split; [|intros []]|]; split; [split; eauto|done].
  split; [split; eauto|]. split; [by split; [|intros [[]|[]]]|].
  intros v [= <-]; simpl. rewrite Hkeys. split_and!; try done.
  - intros r. unfold family_discovery_record_list. rewrite elem_of_btree_values. split.
    + intros [f Hf]. by rewrite (wf_records s Hwf _ _ Hf).
    + intros ?. by eexists.
  - apply (btree_keys_sorted str_cmp).
  - apply (NoDup_btree_keys str_cmp).
Qed.
End snapshot.

(** The concrete store of the applier's demo run, with its orders. *)
Lemma published_snapshot_is_current_witness :
  let s := restore_committed_anchor demo_store 7 41 in
  ∃ p v, snapshot_from_store s (ready_fullset_pending_negrisk "snapshot-7") = Returns p ∧
    ps_fullset p = Some v ∧ fv_state_version v = ps_state_version p ∧
    fv_open_orders v = ["order-1"; "order-2"].
Proof.
  intros s. assert (data_wf s) as Hwf.
  { apply (data_wf_run_op (H := ElementsOrder) demo_store (OpRestoreCommittedAnchor 7 41)).
    repeat apply (data_wf_run_op (H := ElementsOrder) _ (OpRecordLocalOrder _)).
    apply data_wf_new. }
  eexists _, _. split; [reflexivity|]. split; [reflexivity|]. split; [|reflexivity].
  eapply (published_snapshot_is_current s (ready_fullset_pending_negrisk "snapshot-7") Hwf);
    reflexivity.
Defined.

Lemma candidate_publication_spec_witness :
  let s := restore_committed_anchor demo_store 7 41 in
  ∃ p, candidate_publication_from_store s
         {| cr_publication_id := "p"; cr_status := CandidateReady |} = Returns p ∧
    (cp_ready p = true ↔ is_Some (cp_view p)).
Proof.
  intros s. assert (data_wf s) as Hwf.
  { apply (data_wf_run_op (H := ElementsOrder) demo_store (OpRestoreCommittedAnchor 7 41)).
    repeat apply (data_wf_run_op (H := ElementsOrder) _ (OpRecordLocalOrder _)).
    apply data_wf_new. }
  eexists. split; [reflexivity|].
  eapply (candidate_publication_spec s {| cr_publication_id := "p"; cr_status := CandidateReady |} Hwf);
    reflexivity.
Defined.
