(* ===== verification/Risk.v ===== *)
(** * Risk

    [crates/risk]: the activation policy with its rollout rules, overlays and
    clamps, the decision engine, and the full-set, redeem and neg-risk checks. *)

From S2P Require Import Prelude RecordSet Externals Domain RuntimeMode Facts Store Snapshot.
Import RuntimeMode.

(** ** rollout.rs *)

Record RolloutRule := {
  rule_route : string;
  rule_scope : string;
  rule_mode : ExecutionMode;
  rule_id : string;
}.

Definition rollout_rule_new (route scope : string) (mode : ExecutionMode) (id : string) :
    RolloutRule :=
  {| rule_route := route; rule_scope := scope; rule_mode := mode; rule_id := id |}.

(** [BTreeMap<(String, String), RolloutRule>] *)
Definition index_rules (rules : list RolloutRule) : gmap (string * string) RolloutRule :=
  collect_map ((λ r, ((rule_route r, rule_scope r), r)) <$> rules).

Definition resolve_rule (rules : gmap (string * string) RolloutRule) (route scope : string) :
    option RolloutRule :=
  match rules !! (route, scope) with
  | Some r => Some r
  | None => rules !! (route, "default")
  end.

Definition is_risk_expanding_route (route : string) : bool :=
  bool_decide (route = "full-set") || bool_decide (route = "neg-risk").

(** ** activation.rs *)

Record ActivationPolicy := {
  capability_matrix : gmap (string * string) RolloutRule;
  overlays : gmap (string * string) ExecutionMode;
  policy_version : string;
  clamp_negrisk_live : bool;
  clamp_negrisk_to_shadow : bool;
}.

#[export] Instance ActivationPolicy_eta : Eta ActivationPolicy := λ p,
  {| capability_matrix := capability_matrix p; overlays := overlays p;
     policy_version := policy_version p; clamp_negrisk_live := clamp_negrisk_live p;
     clamp_negrisk_to_shadow := clamp_negrisk_to_shadow p |}.

Definition negrisk_route : string := "neg-risk".

Definition phase_one_effective_mode (mode : ExecutionMode) : ExecutionMode :=
  match mode with
  | Live => Disabled
  | other => other
  end.

Definition clamp_phase_one_mode (route : string) (mode : ExecutionMode) : ExecutionMode :=
  if decide (route = negrisk_route) then phase_one_effective_mode mode else mode.

Definition clamp_real_user_shadow_smoke_mode (route : string) (mode : ExecutionMode) :
    ExecutionMode :=
  if is_risk_expanding_route route && bool_decide (mode = Live) then Shadow else mode.

Definition phase_one_defaults : ActivationPolicy :=
  {| capability_matrix := index_rules
       [rollout_rule_new "full-set" "default" Live "phase-one-fullset-default";
        rollout_rule_new "neg-risk" "default" Shadow "phase-one-negrisk-default"];
     overlays := ∅;
     policy_version := "phase-one-defaults";
     clamp_negrisk_live := true;
     clamp_negrisk_to_shadow := false |}.

Definition from_rules (version : string) (rules : list RolloutRule) : ActivationPolicy :=
  {| capability_matrix := index_rules rules; overlays := ∅; policy_version := version;
     clamp_negrisk_live := false; clamp_negrisk_to_shadow := false |}.

Definition with_real_user_shadow_smoke (p : ActivationPolicy) : ActivationPolicy :=
  p <| clamp_negrisk_to_shadow := true |>.

Definition with_overlay (p : ActivationPolicy) (route scope : string) (mode : ExecutionMode) :
    ActivationPolicy :=
  p <| overlays ::= <[(route, scope) := mode]> |>.

Definition clamp_mode (p : ActivationPolicy) (route : string) (mode : ExecutionMode) :
    ExecutionMode :=
  if clamp_negrisk_to_shadow p then clamp_real_user_shadow_smoke_mode route mode
  else if clamp_negrisk_live p then clamp_phase_one_mode route mode
  else mode.

Definition activation_for (p : ActivationPolicy) (route scope snapshot_id : string) :
    ActivationDecision :=
  let '(mode, reason, matched_rule_id) :=
    match overlays p !! (route, scope) with
    | Some mode => (mode, "activation-overlay snapshot=" +:+ snapshot_id, None)
    | None =>
        match resolve_rule (capability_matrix p) route scope with
        | Some rule =>
            (rule_mode rule, "activation-rollout snapshot=" +:+ snapshot_id, Some (rule_id rule))
        | None => (Disabled, "activation-missing snapshot=" +:+ snapshot_id, None)
        end
    end in
  {| ad_mode := clamp_mode p route mode; ad_scope := scope; ad_reason := reason;
     ad_policy_version := policy_version p; ad_matched_rule_id := matched_rule_id |}.

Definition mode_for_route (p : ActivationPolicy) (route scope : string) : ExecutionMode :=
  ad_mode (activation_for p route scope "").

(** ** engine.rs *)

Definition evaluate_decision (input : DecisionInput) (activation : ActivationDecision) :
    DecisionVerdict :=
  match ad_mode activation with
  | Disabled => Rejected
  | mode =>
      match input, mode with
      | Strategy _, (ReduceOnly | RecoveryOnly) => Rejected
      | _, _ => Approved
      end
  end.

(** ** negrisk.rs *)

Definition live_ready (f : NegRiskFamilyRolloutReadiness) : bool :=
  nr_shadow_parity_ready f && nr_recovery_ready f && nr_replay_drift_ready f &&
  nr_fault_injection_ready f && nr_conversion_path_ready f && nr_halt_semantics_ready f.

Definition evaluate_negrisk_family (v : NegRiskView) (family_id : string) (mode : ExecutionMode) :
    DecisionVerdict :=
  if decide (nv_snapshot_id v = "") then Rejected
  else
    match find (λ f, bool_decide (nr_family_id f = family_id)) (nv_families v) with
    | None => Rejected
    | Some family =>
        match mode with
        | Shadow => Approved
        | Live => if live_ready family then Approved else Rejected
        | _ => Rejected
        end
    end.

Definition evaluate_negrisk_intent (v : NegRiskView) (mode : ExecutionMode) : DecisionVerdict :=
  match head (family_ids v) with
  | None => Rejected
  | Some family_id => evaluate_negrisk_family v family_id mode
  end.

(** ** fullset.rs *)

Inductive RejectReason :=
| ModeNotHealthy | NetEdgeBelowThreshold | ApprovalInsufficient | FreshnessStale
| RedeemBlockedByDispute | RedeemNotRunnable.

Inductive RiskDecision := Accept | Reject (reason : RejectReason).

Definition reject_reason (d : RiskDecision) : option RejectReason :=
  match d with Accept => None | Reject reason => Some reason end.

Section fullset.
Context {X : Externals}.

Record FullSetRiskThresholds := { min_net_edge_usdc : Decimal }.
Record FreshnessPolicy := { max_age : Duration }.
Record Freshness := { observed_at : DateTime; checked_at : DateTime }.

Record FullSetRiskContext := {
  fc_runtime_mode : RuntimeMode;
  fc_required_approval_keys : list ApprovalKey;
  fc_approvals : list ApprovalState;
  fc_net_edge_usdc : Decimal;
  fc_thresholds : FullSetRiskThresholds;
  fc_freshness : Freshness;
  fc_freshness_policy : FreshnessPolicy;
}.

Record RedeemRiskContext := {
  rdc_runtime_mode : RuntimeMode;
  rdc_resolution : ResolutionState;
  rdc_freshness : Freshness;
  rdc_freshness_policy : FreshnessPolicy;
}.

Definition is_stale (f : Freshness) (policy : FreshnessPolicy) : bool :=
  match dur_cmp (dt_sub (checked_at f) (observed_at f)) (max_age policy) with
  | Gt => true
  | _ => false
  end.

(** [approval.allowance >= approval.required_min_allowance], of an approval that
    is granted for the key. *)
Definition approval_covers (key : ApprovalKey) (a : ApprovalState) : bool :=
  bool_decide (approval_key a = key) &&
  bool_decide (ap_approval_status a = ApprovalApproved) &&
  dec_leb (ap_required_min_allowance a) (ap_allowance a).

Definition evaluate_fullset_trade (c : FullSetRiskContext) : RiskDecision :=
  if negb (bool_decide (fc_runtime_mode c = Healthy)) then Reject ModeNotHealthy
  else if existsb (λ key, negb (existsb (approval_covers key) (fc_approvals c)))
            (fc_required_approval_keys c) then Reject ApprovalInsufficient
  else if is_stale (fc_freshness c) (fc_freshness_policy c) then Reject FreshnessStale
  else if dec_leb (fc_net_edge_usdc c) (min_net_edge_usdc (fc_thresholds c)) then
    Reject NetEdgeBelowThreshold
  else Accept.

Definition evaluate_fullset_trade_in_mode (mode : ExecutionMode) (c : FullSetRiskContext) :
    RiskDecision :=
  match mode with
  | Live | Shadow => evaluate_fullset_trade c
  | _ => Reject ModeNotHealthy
  end.

Definition evaluate_redeem (c : RedeemRiskContext) : RiskDecision :=
  if negb (match rdc_runtime_mode c with Healthy | NoNewRisk => true | _ => false end) then
    Reject ModeNotHealthy
  else if match rs_dispute_state (rdc_resolution c) with
          | Disputed | Challenged | UnderReview => true
          | DisputeNone => false
          end then Reject RedeemBlockedByDispute
  else if negb (bool_decide (rs_resolution_status (rdc_resolution c) = Resolved)) ||
          negb (bool_decide (is_Some (rs_resolved_at (rdc_resolution c)))) ||
          negb (bool_decide (is_Some (rs_redeemable_at (rdc_resolution c)))) ||
          match rs_payout_vector (rdc_resolution c) with [] => true | _ => false end
  then Reject RedeemNotRunnable
  else if is_stale (rdc_freshness c) (rdc_freshness_policy c) then Reject FreshnessStale
  else Accept.
End fullset.

(** ** What a policy selects

    The rule for a key is the last one listed with it. *)
Definition last_rule (rules : list RolloutRule) (route scope : string) (r : RolloutRule) : Prop :=
  rule_route r = route ∧ rule_scope r = scope ∧
  ∃ l1 l2, rules = l1 ++ r :: l2 ∧
    Forall (λ r', ¬ (rule_route r' = route ∧ rule_scope r' = scope)) l2.

Definition no_rule (rules : list RolloutRule) (route scope : string) : Prop :=
  Forall (λ r, ¬ (rule_route r = route ∧ rule_scope r = scope)) rules.

(** The mode a rule set, with overlays over it, gives a route and scope, before
    clamps, and the rule that matched: the overlay of this very key, else its
    rule, else the route's default rule, else nothing. *)
Inductive selects (rules : list RolloutRule) (over : gmap (string * string) ExecutionMode)
    (route scope : string) : ExecutionMode → option string → Prop :=
| selects_overlay mode :
    over !! (route, scope) = Some mode → selects rules over route scope mode None
| selects_rule r :
    over !! (route, scope) = None → last_rule rules route scope r →
    selects rules over route scope (rule_mode r) (Some (rule_id r))
| selects_default r :
    over !! (route, scope) = None → no_rule rules route scope →
    last_rule rules route "default" r →
    selects rules over route scope (rule_mode r) (Some (rule_id r))
| selects_nothing :
    over !! (route, scope) = None → no_rule rules route scope → no_rule rules route "default" →
    selects rules over route scope Disabled None.

(** Policies as their constructors build them. *)
Inductive built (rules : list RolloutRule) : ActivationPolicy → Prop :=
| built_rules version : built rules (from_rules version rules)
| built_smoke p : built rules p → built rules (with_real_user_shadow_smoke p)
| built_overlay p route scope mode :
    built rules p → built rules (with_overlay p route scope mode).

(** ** Lemmas *)

Lemma index_rules_Some rules route scope r :
  index_rules rules !! (route, scope) = Some r ↔ last_rule rules route scope r.
Proof.
  unfold index_rules, last_rule. rewrite collect_map_lookup. split.
  - intros (l1 & l2 & E & Hn). apply fmap_app_inv in E as (k1 & k2 & -> & E & ->).
    symmetry in E. apply fmap_cons_inv in E as (r' & k3 & E & -> & ->). simplify_eq.
    split_and!; try done. exists k1, k3. split; [done|].
    rewrite Forall_forall. intros r Hin [E1 E2]. apply Hn.
    rewrite <- list_fmap_compose. apply list_elem_of_fmap. exists r. simpl. by rewrite E1, E2.
  - intros (<- & <- & l1 & l2 & -> & Hl). eexists _, _. rewrite fmap_app, fmap_cons.
    split; [done|]. rewrite <- list_fmap_compose. intros (r' & [= E1 E2] & Hin)%list_elem_of_fmap.
    rewrite Forall_forall in Hl. by apply (Hl r' Hin).
Qed.

Lemma index_rules_None rules route scope :
  index_rules rules !! (route, scope) = None ↔ no_rule rules route scope.
Proof.
  unfold index_rules, no_rule. rewrite eq_None_not_Some, collect_map_lookup_is_Some.
  rewrite <- list_fmap_compose, list_elem_of_fmap, Forall_forall. split.
  - intros Hn r Hin [E1 E2]. apply Hn. exists r. simpl. by rewrite E1, E2.
  - intros Hn (r & [= E1 E2] & Hin). by apply (Hn r Hin).
Qed.

Lemma built_matrix rules p : built rules p → capability_matrix p = index_rules rules.
Proof. by induction 1. Qed.

Lemma built_unclamped rules p : built rules p → clamp_negrisk_live p = false.
Proof. by induction 1. Qed.

Lemma elem_of_existsb {A} (f : A → bool) l : existsb f l = true ↔ ∃ x, x ∈ l ∧ f x = true.
Proof. rewrite existsb_exists. by setoid_rewrite list_elem_of_In. Qed.

Lemma not_existsb {A} (f : A → bool) l : existsb f l = false ↔ ∀ x, x ∈ l → f x = false.
Proof.
  rewrite <- not_true_iff_false, elem_of_existsb. split.
  - intros Hn x Hin. apply not_true_iff_false. eauto.
  - intros Hf (x & Hin & Hx). by rewrite Hf in Hx.
Qed.

(** ** Theorems *)

(** The activation of a route and scope under a policy built from rules,
    overlays and the smoke guard: the mode is the selected one (an exact overlay
    before the last exact rule before the last default rule, and Disabled when
    there is none), moved from Live to Shadow on a risk expanding route when the
    smoke guard is on, and unchanged otherwise; the matched rule is reported. *)
Theorem activation_selects rules p route scope snapshot_id (Hb : built rules p) :
  let d := activation_for p route scope snapshot_id in
  ∃ mode, selects rules (overlays p) route scope mode (ad_matched_rule_id d) ∧
    ad_mode d =
      (if clamp_negrisk_to_shadow p && is_risk_expanding_route route && bool_decide (mode = Live)
       then Shadow else mode) ∧
    ad_scope d = scope ∧ ad_policy_version d = policy_version p.
Proof.
  intros d. unfold d, activation_for, resolve_rule.
  rewrite (built_matrix _ _ Hb). unfold clamp_mode, clamp_real_user_shadow_smoke_mode.
  rewrite (built_unclamped _ _ Hb).
  destruct (overlays p !! (route, scope)) as [mode|] eqn:Ho; simpl.
  { exists mode. split; [by constructor|]. by destruct (clamp_negrisk_to_shadow p). }
  destruct (index_rules rules !! (route, scope)) as [r|] eqn:Hr; simpl.
  { apply index_rules_Some in Hr. exists (rule_mode r). split; [by constructor|].
    by destruct (clamp_negrisk_to_shadow p). }
  apply index_rules_None in Hr.
  destruct (index_rules rules !! (route, "default")) as [r|] eqn:Hd; simpl.
  { apply index_rules_Some in Hd. exists (rule_mode r). split; [by apply selects_default|].
    by destruct (clamp_negrisk_to_shadow p). }
  apply index_rules_None in Hd. exists Disabled. split; [by apply selects_nothing|].
  by destruct (clamp_negrisk_to_shadow p), (is_risk_expanding_route route).
Qed.

(** No policy lets guarded routes go live: once the smoke guard is on, no
    overlay or rule added before or after makes a strategy on the full-set or the
    neg-risk route Live; and the phase-one defaults, whatever overlays are put on
    them, never give the neg-risk route a Live mode. *)
Theorem guarded_routes_never_live p over route scope snapshot_id :
  let with_overlays := foldl (λ p '(r, s, m), with_overlay p r s m) in
  (route = "full-set" ∨ route = "neg-risk" →
   ad_mode (activation_for (with_overlays (with_real_user_shadow_smoke p) over)
              route scope snapshot_id) ≠ Live) ∧
  ad_mode (activation_for (with_overlays phase_one_defaults over)
             "neg-risk" scope snapshot_id) ≠ Live.
Proof.
  intros with_overlays.
  assert (∀ p, clamp_negrisk_to_shadow (with_overlays p over) = clamp_negrisk_to_shadow p ∧
               clamp_negrisk_live (with_overlays p over) = clamp_negrisk_live p) as Hkeep.
  { unfold with_overlays. induction over as [|[[r s] m] over IH]; intros p'; [done|].
    simpl. destruct (IH (with_overlay p' r s m)) as [-> ->]. done. }
  assert (∀ p m, ad_mode (activation_for p route scope snapshot_id) = m →
            ∃ m0, clamp_mode p route m0 = m) as Hmode.
  { intros p' m <-. unfold activation_for. repeat case_match; simpl; eauto. }
  split.
  - intros Hr E. apply Hmode in E as [m0 E]. unfold clamp_mode in E.
    rewrite (proj1 (Hkeep _)) in E. simpl in E. unfold clamp_real_user_shadow_smoke_mode in E.
    assert (is_risk_expanding_route route = true) as Hx by by destruct Hr as [-> | ->].
    rewrite Hx in E. simpl in E. by case_bool_decide.
  - intros E. unfold activation_for in E.
    assert (∀ m, clamp_mode (with_overlays phase_one_defaults over) "neg-risk" m ≠ Live) as Hc.
    { intros m. unfold clamp_mode. destruct (Hkeep phase_one_defaults) as [-> ->]. by destruct m. }
    repeat case_match; simpl in E; by eapply Hc.
Qed.

(** The engine approves a strategy exactly in the Live and Shadow modes, and a
    recovery exactly when the route is not disabled; it never defers. *)
Theorem evaluate_decision_iff input activation :
  (evaluate_decision input activation = Approved ↔
   match input with
   | Strategy _ => ad_mode activation = Live ∨ ad_mode activation = Shadow
   | Recovery _ => ad_mode activation ≠ Disabled
   end) ∧
  (evaluate_decision input activation = Approved ∨ evaluate_decision input activation = Rejected).
Proof.
  unfold evaluate_decision. destruct input, (ad_mode activation); naive_solver.
Qed.

(** A neg-risk family is approved exactly when the view has an id and lists the
    family, and the mode is Shadow, or Live with every rollout check of the first
    entry listed for the family passed. *)
Theorem evaluate_negrisk_family_iff v family_id mode :
  evaluate_negrisk_family v family_id mode = Approved ↔
  nv_snapshot_id v ≠ "" ∧
  ∃ l1 f l2, nv_families v = l1 ++ f :: l2 ∧ nr_family_id f = family_id ∧
    Forall (λ g, nr_family_id g ≠ family_id) l1 ∧
    (mode = Shadow ∨
     mode = Live ∧ nr_shadow_parity_ready f = true ∧ nr_recovery_ready f = true ∧
       nr_replay_drift_ready f = true ∧ nr_fault_injection_ready f = true ∧
       nr_conversion_path_ready f = true ∧ nr_halt_semantics_ready f = true).
Proof.
  unfold evaluate_negrisk_family. destruct (decide _) as [E|E]; [naive_solver|].
  assert (∀ l, match find (λ f, bool_decide (nr_family_id f = family_id)) l with
               | Some f => ∃ l1 l2, l = l1 ++ f :: l2 ∧ nr_family_id f = family_id ∧
                             Forall (λ g, nr_family_id g ≠ family_id) l1
               | None => Forall (λ g, nr_family_id g ≠ family_id) l
               end) as Hfind.
  { induction l as [|f l IH]; simpl; [done|]. case_bool_decide; [by exists [], l|].
    destruct (find _ l) as [f'|]; [|by constructor].
    destruct IH as (l1 & l2 & -> & ? & ?). exists (f :: l1), l2. by split_and!; [| |constructor]. }
  specialize (Hfind (nv_families v)). destruct (find _ _) as [f|]; simpl in *.
  - assert (live_ready f = true ↔
      nr_shadow_parity_ready f = true ∧ nr_recovery_ready f = true ∧
      nr_replay_drift_ready f = true ∧ nr_fault_injection_ready f = true ∧
      nr_conversion_path_ready f = true ∧ nr_halt_semantics_ready f = true) as Hlive.
    { unfold live_ready. rewrite !andb_true_iff. tauto. }
    destruct Hfind as (l1 & l2 & Hl & Hf & Hn). split.
    + intros Ha. split; [done|]. exists l1, f, l2. split_and!; try done.
      destruct mode; try done; [by left|right]. rewrite <- Hlive. by destruct (live_ready f).
    + intros (_ & k1 & g & k2 & Hk & Hg & Hm & Hmode).
      assert (g = f) as ->.
      { rewrite Hl in Hk. clear -Hk Hf Hn Hg Hm. revert k1 Hk Hm.
        induction l1 as [|a l1 IH]; intros [|b k1] Hk Hm; simplify_eq/=.
        - done.
        - by inversion Hm.
        - by inversion Hn.
        - inversion_clear Hn. inversion_clear Hm. by eapply IH. }
      destruct Hmode as [->|[-> Hr]]; [done|]. apply Hlive in Hr. by rewrite Hr.
  - split; [done|]. intros (_ & k1 & g & k2 & Hk & Hg & _). rewrite Hk in Hfind.
    apply Forall_app in Hfind as [_ Hfind]. by inversion Hfind.
Qed.

(** A full-set trade is accepted exactly in the Live and Shadow modes when the
    runtime is Healthy, every required approval is covered by a granted approval
    of that key with enough allowance, the data is not stale and the net edge
    exceeds the threshold; a refusal names the first of these checks that fails. *)
Theorem evaluate_fullset_trade_iff {X : Externals} mode (c : FullSetRiskContext) :
  let healthy := fc_runtime_mode c = Healthy in
  let covered := ∀ key, key ∈ fc_required_approval_keys c →
    ∃ a, a ∈ fc_approvals c ∧ approval_key a = key ∧
      ap_approval_status a = ApprovalApproved ∧
      dec_leb (ap_required_min_allowance a) (ap_allowance a) = true in
  let fresh := dur_cmp (dt_sub (checked_at (fc_freshness c)) (observed_at (fc_freshness c)))
    (max_age (fc_freshness_policy c)) ≠ Gt in
  let edge := dec_leb (fc_net_edge_usdc c) (min_net_edge_usdc (fc_thresholds c)) = false in
  let d := evaluate_fullset_trade_in_mode mode c in
  (d = Accept ↔ (mode = Live ∨ mode = Shadow) ∧ healthy ∧ covered ∧ fresh ∧ edge) ∧
  (d = Reject ModeNotHealthy ↔ ¬ ((mode = Live ∨ mode = Shadow) ∧ healthy)) ∧
  (d = Reject ApprovalInsufficient → ¬ covered) ∧
  (d = Reject FreshnessStale → covered ∧ ¬ fresh) ∧
  (d = Reject NetEdgeBelowThreshold → covered ∧ fresh ∧ ¬ edge).
Proof.
  intros healthy covered fresh edge d.
  assert (∀ key, existsb (approval_covers key) (fc_approvals c) = true ↔
    ∃ a, a ∈ fc_approvals c ∧ approval_key a = key ∧
      ap_approval_status a = ApprovalApproved ∧
      dec_leb (ap_required_min_allowance a) (ap_allowance a) = true) as Hcov.
  { intros key. rewrite elem_of_existsb. unfold approval_covers.
    setoid_rewrite andb_true_iff. setoid_rewrite andb_true_iff.
    setoid_rewrite bool_decide_eq_true. naive_solver. }
  assert (existsb (λ key, negb (existsb (approval_covers key) (fc_approvals c)))
            (fc_required_approval_keys c) = false ↔ covered) as Hc.
  { rewrite not_existsb. unfold covered. setoid_rewrite negb_false_iff.
    by setoid_rewrite Hcov. }
  assert (is_stale (fc_freshness c) (fc_freshness_policy c) = false ↔ fresh) as Hf.
  { unfold is_stale, fresh. by destruct (dur_cmp _ _). }
  unfold d, evaluate_fullset_trade_in_mode, evaluate_fullset_trade, edge, healthy.
  clear Hcov. clearbody covered fresh.
  destruct (existsb _ _) eqn:E1;
    [assert (¬ covered) by (rewrite <- Hc; congruence)|assert covered by tauto];
    (destruct (is_stale _ _) eqn:E2;
      [assert (¬ fresh) by (rewrite <- Hf; congruence)|assert fresh by tauto]);
    destruct (dec_leb _ _) eqn:E3; destruct mode; try case_bool_decide; simpl;
    split_and!; intuition congruence.
Qed.

(** A redeem is accepted exactly when the runtime is Healthy or takes no new
    risk, the condition is undisputed and resolved with a payout, a resolution
    time and a redeemable time, and the data is not stale. *)
Theorem evaluate_redeem_iff {X : Externals} (c : RedeemRiskContext) :
  evaluate_redeem c = Accept ↔
  (rdc_runtime_mode c = Healthy ∨ rdc_runtime_mode c = NoNewRisk) ∧
  rs_dispute_state (rdc_resolution c) = DisputeNone ∧
  rs_resolution_status (rdc_resolution c) = Resolved ∧
  is_Some (rs_resolved_at (rdc_resolution c)) ∧ is_Some (rs_redeemable_at (rdc_resolution c)) ∧
  rs_payout_vector (rdc_resolution c) ≠ [] ∧
  dur_cmp (dt_sub (checked_at (rdc_freshness c)) (observed_at (rdc_freshness c)))
    (max_age (rdc_freshness_policy c)) ≠ Gt.
Proof.
  unfold evaluate_redeem, is_stale.
  destruct (rdc_runtime_mode c); simpl; try naive_solver;
    destruct (rs_dispute_state _); simpl; try naive_solver;
    repeat case_bool_decide; simpl; try naive_solver;
    destruct (rs_payout_vector _); simpl; try naive_solver;
    destruct (dur_cmp _ _); naive_solver.
Qed.

(** ** Concrete policies *)

Definition demo_rules : list RolloutRule :=
  [rollout_rule_new "neg-risk" "default" Shadow "rule-default";
   rollout_rule_new "neg-risk" "family-1" Shadow "rule-old";
   rollout_rule_new "neg-risk" "family-1" Live "rule-new"].

Example demo_activation :
  let p := from_rules "v1" demo_rules in
  mode_for_route p "neg-risk" "family-1" = Live ∧
  mode_for_route p "neg-risk" "family-2" = Shadow ∧
  mode_for_route p "full-set" "default" = Disabled ∧
  mode_for_route (with_real_user_shadow_smoke p) "neg-risk" "family-1" = Shadow.
Proof. by vm_compute. Qed.

Lemma activation_selects_witness :
  let p := with_overlay (with_real_user_shadow_smoke (from_rules "v1" demo_rules))
             "neg-risk" "family-2" ReduceOnly in
  ∃ mode, selects demo_rules (overlays p) "neg-risk" "family-1" mode
            (ad_matched_rule_id (activation_for p "neg-risk" "family-1" "s")).
Proof.
  intros p. destruct (activation_selects demo_rules p "neg-risk" "family-1" "s") as (m & Hm & _).
  - repeat constructor.
  - by exists m.
Defined.

Lemma guarded_routes_never_live_witness :
  ad_mode (activation_for
    (with_overlay (with_real_user_shadow_smoke (from_rules "v1" demo_rules))
       "full-set" "default" Live) "full-set" "default" "s") ≠ Live.
Proof.
  exact (proj1 (guarded_routes_never_live (from_rules "v1" demo_rules)
    [("full-set", "default", Live)] "full-set" "default" "s") (or_introl eq_refl)).
Defined.

Definition demo_fullset_context : @FullSetRiskContext Micros :=
  {| fc_runtime_mode := Healthy; fc_required_approval_keys := []; fc_approvals := [];
     fc_net_edge_usdc := 2000000 : @Decimal Micros;
     fc_thresholds := {| min_net_edge_usdc := 1000000 : @Decimal Micros |};
     fc_freshness := {| observed_at := 10 : @DateTime Micros; checked_at := 15 : @DateTime Micros |};
     fc_freshness_policy := {| max_age := 1 : @Duration Micros |} |}.

Lemma evaluate_fullset_trade_iff_witness :
  ¬ @dur_cmp Micros (15 - 10) 1 ≠ Gt.
Proof.
  apply (evaluate_fullset_trade_iff (X := Micros) Live demo_fullset_context). reflexivity.
Defined.
