(* ===== verification/Plans.v ===== *)
(** * Execution plans, attempts and signing

    [execution/src/plans.rs], [negrisk.rs], [attempt.rs] and [signing.rs]: the
    canonical identity of a plan, the planning of a neg-risk family, the numbering
    of attempts bound to a request, and the deterministic signer. *)

From Stdlib Require Import Ascii.
From S2P Require Import Prelude Text RecordSet Externals Domain.

Section plans.
Context {X : Externals}.

Record NegRiskMemberOrderPlan := {
  mo_condition_id : ConditionId;
  mo_token_id : TokenId;
  mo_price : Decimal;
  mo_quantity : Decimal;
}.

Inductive ExecutionPlan :=
| FullSetBuyThenMerge (condition_id : ConditionId)
| FullSetSplitThenSell (condition_id : ConditionId)
| CancelStale (order_id : OrderId)
| RedeemResolved (condition_id : ConditionId)
| NegRiskSubmitFamily (family_id : EventFamilyId) (members : list NegRiskMemberOrderPlan).

Definition plan_route (p : ExecutionPlan) : option string :=
  match p with
  | FullSetBuyThenMerge _ | FullSetSplitThenSell _ | RedeemResolved _ => Some "full-set"
  | NegRiskSubmitFamily _ _ => Some "neg-risk"
  | CancelStale _ => None
  end.

(** What the canonical order compares, most significant first. *)
Definition member_key (m : NegRiskMemberOrderPlan) : string * (string * (string * string)) :=
  (mo_condition_id m, (mo_token_id m, (dec_normalized (mo_price m), dec_normalized (mo_quantity m)))).

Definition member_key_cmp := cmp_lex str_cmp (cmp_lex str_cmp (cmp_lex str_cmp str_cmp)).

Definition canonical_members (members : list NegRiskMemberOrderPlan) :
    list NegRiskMemberOrderPlan :=
  sort_by (cmp_on member_key member_key_cmp) members.

Definition render_member (m : NegRiskMemberOrderPlan) : string :=
  mo_condition_id m +:+ ":" +:+ mo_token_id m +:+ ":" +:+ dec_normalized (mo_price m) +:+
  ":" +:+ dec_normalized (mo_quantity m).

Definition plan_id (p : ExecutionPlan) : string :=
  match p with
  | FullSetBuyThenMerge condition_id => "fullset-buy-merge:" +:+ condition_id
  | FullSetSplitThenSell condition_id => "fullset-split-sell:" +:+ condition_id
  | CancelStale order_id => "cancel-stale:" +:+ order_id
  | RedeemResolved condition_id => "redeem-resolved:" +:+ condition_id
  | NegRiskSubmitFamily family_id members =>
      "negrisk-submit-family:" +:+ family_id +:+ ":" +:+
      join "|" (render_member <$> canonical_members members)
  end.

Definition plan_condition_id (p : ExecutionPlan) : option ConditionId :=
  match p with
  | FullSetBuyThenMerge c | FullSetSplitThenSell c | RedeemResolved c => Some c
  | CancelStale _ | NegRiskSubmitFamily _ _ => None
  end.

Definition plan_order_id (p : ExecutionPlan) : option OrderId :=
  match p with CancelStale order_id => Some order_id | _ => None end.

Definition is_amountless (p : ExecutionPlan) : bool :=
  match p with RedeemResolved _ => true | _ => false end.

Definition is_risk_expanding (p : ExecutionPlan) : bool :=
  match p with
  | FullSetBuyThenMerge _ | FullSetSplitThenSell _ | NegRiskSubmitFamily _ _ => true
  | _ => false
  end.

(** ** negrisk.rs *)

Record NegRiskMemberTarget := {
  mt_condition_id : ConditionId;
  mt_token_id : TokenId;
  mt_price : Decimal;
  mt_quantity : Decimal;
}.

Record NegRiskFamilyTarget := {
  ft_family_id : EventFamilyId;
  ft_members : list NegRiskMemberTarget;
}.

Inductive NegRiskPlanningError :=
| RouteMismatch (route : string)
| ScopeMismatch (request_scope : string) (family_id : EventFamilyId).

Definition member_plan (m : NegRiskMemberTarget) : NegRiskMemberOrderPlan :=
  {| mo_condition_id := mt_condition_id m; mo_token_id := mt_token_id m;
     mo_price := mt_price m; mo_quantity := mt_quantity m |}.

Definition plan_family_submission (request : ExecutionRequest) (config : NegRiskFamilyTarget) :
    result NegRiskPlanningError ExecutionPlan :=
  if negb (bool_decide (er_route request = "neg-risk")) then
    Err (RouteMismatch (er_route request))
  else if negb (bool_decide (er_scope request = ft_family_id config)) then
    Err (ScopeMismatch (er_scope request) (ft_family_id config))
  else
    Ok (NegRiskSubmitFamily (ft_family_id config)
          (sort_by (cmp_on (λ m, (mo_condition_id m, mo_token_id m)) (cmp_lex str_cmp str_cmp))
             (member_plan <$> ft_members config))).

(** ** attempt.rs *)

Record ExecutionAttemptFactory := { next_attempt_no_by_plan : gmap string Z }.

Definition factory_new : ExecutionAttemptFactory := {| next_attempt_no_by_plan := ∅ |}.

Definition with_seeded_attempt_numbers (seeds : gmap string Z) : ExecutionAttemptFactory :=
  {| next_attempt_no_by_plan := seeds |}.

Definition request_bound_plan_id (p : ExecutionPlan) (r : ExecutionRequest) : string :=
  "request-bound:" +:+ pretty (String.length (er_request_id r)) +:+ ":" +:+
  er_request_id r +:+ ":" +:+ plan_id p.

Definition stable_request_bound_digest (value : string) : string :=
  foldr (λ byte encoded, hex_byte byte +:+ encoded) "" (sha256 value).

Definition attempt_id_for_plan_id (id : string) (attempt_no : Z) : string :=
  "request-bound:" +:+ stable_request_bound_digest id +:+ ":attempt-" +:+ pretty attempt_no.

Definition request_bound_attempt_id (p : ExecutionPlan) (r : ExecutionRequest) (attempt_no : Z) :
    string :=
  attempt_id_for_plan_id (request_bound_plan_id p r) attempt_no.

Definition next_for_plan (f : ExecutionAttemptFactory) (p : ExecutionPlan) (r : ExecutionRequest)
    (execution_mode : ExecutionMode) :
    ExecutionAttemptFactory * (ExecutionAttempt * ExecutionAttemptContext) :=
  let id := request_bound_plan_id p r in
  let next_attempt_no := u32_add (default 0 (next_attempt_no_by_plan f !! id)) 1 in
  let attempt_id := attempt_id_for_plan_id id next_attempt_no in
  ({| next_attempt_no_by_plan := <[id := next_attempt_no]> (next_attempt_no_by_plan f) |},
   ({| ea_attempt_id := attempt_id; ea_plan_id := id; ea_snapshot_id := er_snapshot_id r;
       ea_attempt_no := next_attempt_no |},
    {| ac_attempt_id := attempt_id; ac_snapshot_id := er_snapshot_id r;
       ac_execution_mode := execution_mode; ac_route := er_route r; ac_scope := er_scope r;
       ac_matched_rule_id := er_matched_rule_id r |})).

(** ** signing.rs *)

Inductive SigningError :=
| UnsupportedPlan (plan : string)
| SignerFailure (plan reason : string).

Record SignedFamilyMember := {
  sm_condition_id : ConditionId;
  sm_token_id : TokenId;
  sm_price : Decimal;
  sm_quantity : Decimal;
  sm_maker : string;
  sm_signer : string;
  sm_taker : string;
  sm_maker_amount : string;
  sm_taker_amount : string;
  sm_side : string;
  sm_expiration : string;
  sm_fee_rate_bps : string;
  sm_signature_type : Z;
  sm_identity : SignedOrderIdentity;
}.

Record SignedFamilySubmission := {
  sf_plan_id : string;
  sf_members : list SignedFamilyMember;
}.

Definition sign_identity (id : string) (index : nat) : SignedOrderIdentity :=
  {| so_signed_order_hash := "test-hash:" +:+ id +:+ ":" +:+ pretty index;
     so_salt := pretty (u64_add 123 (Z.of_nat index));
     so_nonce := pretty index;
     so_signature := "test-sig:" +:+ id +:+ ":" +:+ pretty index |}.

Definition sign_member (id : string) (index : nat) (m : NegRiskMemberOrderPlan) :
    outcome SignedFamilyMember :=
  taker ← expect (dec_mul (mo_price m) (mo_quantity m));
  Returns {| sm_condition_id := mo_condition_id m; sm_token_id := mo_token_id m;
             sm_price := mo_price m; sm_quantity := mo_quantity m;
             sm_maker := "0xmaker"; sm_signer := "0xsigner";
             sm_taker := "0x0000000000000000000000000000000000000000";
             sm_maker_amount := dec_normalized (mo_quantity m);
             sm_taker_amount := dec_normalized taker;
             sm_side := "BUY"; sm_expiration := "0"; sm_fee_rate_bps := "30";
             sm_signature_type := 0; sm_identity := sign_identity id index |}.

(** [enumerate().map(..).collect()], from the given index. *)
Fixpoint sign_members (id : string) (index : nat) (ms : list NegRiskMemberOrderPlan) :
    outcome (list SignedFamilyMember) :=
  match ms with
  | [] => Returns []
  | m :: ms' =>
      signed ← sign_member id index m;
      rest ← sign_members id (S index) ms';
      Returns (signed :: rest)
  end.

Definition test_sign_family (p : ExecutionPlan) :
    outcome (result SigningError SignedFamilySubmission) :=
  match p with
  | NegRiskSubmitFamily _ members =>
      signed_members ← sign_members (plan_id p) 0 (canonical_members members);
      Returns (Ok {| sf_plan_id := plan_id p; sf_members := signed_members |})
  | other => Returns (Err (UnsupportedPlan (plan_id other)))
  end.

(** ** Lemmas *)

Definition render_key (k : string * (string * (string * string))) : string :=
  k.1 +:+ ":" +:+ k.2.1 +:+ ":" +:+ k.2.2.1 +:+ ":" +:+ k.2.2.2.

Lemma render_members_keys ms :
  render_member <$> canonical_members ms = render_key <$> sort_by member_key_cmp (member_key <$> ms).
Proof.
  unfold canonical_members. change (member_key <$> ms) with (map member_key ms).
  rewrite <- map_sort_by_on. change (map ?f ?l) with (f <$> l).
  rewrite <- list_fmap_compose. done.
Qed.

#[export] Instance member_key_cmp_total : TotalPreorder member_key_cmp.
Proof. unfold member_key_cmp. apply _. Qed.
#[export] Instance member_key_cmp_eq : CmpEq member_key_cmp.
Proof. unfold member_key_cmp. apply _. Qed.

(** The identity of a family submission is a function of the multiset of its
    members' keys. *)
Lemma render_members_perm ms1 ms2 :
  member_key <$> ms1 ≡ₚ member_key <$> ms2 →
  render_member <$> canonical_members ms1 = render_member <$> canonical_members ms2.
Proof.
  intros Hp. rewrite !render_members_keys.
  by rewrite (sort_by_canonical member_key_cmp _ _ Hp).
Qed.

Lemma request_bound_plan_id_eq p r :
  request_bound_plan_id p r =
  "request-bound:" +:+ length_prefixed (er_request_id r) +:+ ":" +:+ plan_id p.
Proof. unfold request_bound_plan_id, length_prefixed. by rewrite !append_assoc. Qed.

Lemma request_bound_plan_id_inj p1 r1 p2 r2 :
  request_bound_plan_id p1 r1 = request_bound_plan_id p2 r2 →
  er_request_id r1 = er_request_id r2 ∧ plan_id p1 = plan_id p2.
Proof.
  rewrite !request_bound_plan_id_eq.
  intros [E1 E2%append_inj_l]%append_inj_l%length_prefixed_inj. done.
Qed.

Lemma sign_members_render id i ms ss :
  sign_members id i ms = Returns ss →
  length ss = length ms ∧
  ∀ j m s, ms !! j = Some m → ss !! j = Some s →
    sm_condition_id s = mo_condition_id m ∧ sm_token_id s = mo_token_id m ∧
    sm_price s = mo_price m ∧ sm_quantity s = mo_quantity m ∧
    sm_identity s = sign_identity id (i + j).
Proof.
  revert i ss. induction ms as [|m ms IH]; intros i ss; simpl.
  { intros [= <-]. split; [done|]. intros j m' s'. by rewrite lookup_nil. }
  unfold sign_member. destruct (dec_mul _ _) as [t|]; simpl; [|done].
  destruct (sign_members id (S i) ms) as [ss'|] eqn:E; simpl; [|done]. intros [= <-].
  destruct (IH _ _ E) as [Hl Hj]. split; [simpl; congruence|].
  intros [|j] m' s'; simpl.
  - intros [= <-] [= <-]. simpl. split_and!; try done. f_equal. lia.
  - intros Hm Hs. destruct (Hj j m' s' Hm Hs) as (?&?&?&?&?). split_and!; try done.
    replace (i + S j)%nat with (S i + j)%nat by lia. done.
Qed.

(** *** Attempt ids *)

Lemma hex_digit_inj a b : 0 <= a < 16 → 0 <= b < 16 → hex_digit a = hex_digit b → a = b.
Proof.
  intros Ha Hb. unfold hex_digit.
  assert (∀ n, 0 <= n < 16 → (Z.to_nat (if bool_decide (n < 10)%Z then 48 + n else 87 + n)%Z < 256)%nat)
    as Hn by (intros n ?; case_bool_decide; lia).
  intros E%(f_equal nat_of_ascii). rewrite !nat_ascii_embedding in E by auto.
  repeat case_bool_decide; lia.
Qed.

Lemma hex_digit_not_colon a : 0 <= a < 16 → bool_decide (hex_digit a ≠ ":"%char) = true.
Proof.
  intros Ha. rewrite bool_decide_eq_true. intros E%(f_equal nat_of_ascii). unfold hex_digit in E.
  rewrite nat_ascii_embedding in E by (case_bool_decide; lia).
  change (nat_of_ascii ":"%char) with 58%nat in E. case_bool_decide; lia.
Qed.

Definition hex_string (l : list Z) : string := foldr (λ b s, hex_byte b +:+ s) "" l.

Lemma hex_string_cons b l :
  hex_string (b :: l) =
  String (hex_digit (b `div` 16)) (String (hex_digit (b `mod` 16)) (hex_string l)).
Proof. done. Qed.

Lemma byte_digits b : 0 <= b < 256 → 0 <= b `div` 16 < 16 ∧ 0 <= b `mod` 16 < 16.
Proof.
  intros. split; [|apply Z.mod_pos_bound; lia].
  split; [apply Z.div_pos|apply Z.div_lt_upper_bound]; lia.
Qed.

Lemma hex_string_inj l1 l2 :
  Forall (λ b, 0 <= b < 256) l1 → Forall (λ b, 0 <= b < 256) l2 →
  hex_string l1 = hex_string l2 → l1 = l2.
Proof.
  revert l2. induction l1 as [|a l1 IH]; intros [|b l2]; rewrite ?hex_string_cons; try done.
  intros [Ha H1]%Forall_cons [Hb H2]%Forall_cons [= E1 E2 E3].
  destruct (byte_digits _ Ha), (byte_digits _ Hb).
  apply hex_digit_inj in E1, E2; [|lia..]. f_equal; [|by apply IH].
  rewrite (Z.div_mod a 16), (Z.div_mod b 16) by lia. congruence.
Qed.

Lemma hex_string_no_colon l :
  Forall (λ b, 0 <= b < 256) l → str_forall (λ d, bool_decide (d ≠ ":"%char)) (hex_string l) = true.
Proof.
  induction 1 as [|b l Hb _ IH]; [done|]. rewrite hex_string_cons; simpl.
  destruct (byte_digits _ Hb). by rewrite !hex_digit_not_colon by lia.
Qed.

(** A digest is a string of bytes. *)
Definition digests_are_bytes : Prop := ∀ s, Forall (λ b, 0 <= b < 256) (sha256 s).

Lemma attempt_id_inj id1 n1 id2 n2 :
  digests_are_bytes → attempt_id_for_plan_id id1 n1 = attempt_id_for_plan_id id2 n2 →
  sha256 id1 = sha256 id2 ∧ n1 = n2.
Proof.
  intros Hb. unfold attempt_id_for_plan_id.
  change (stable_request_bound_digest ?s) with (hex_string (sha256 s)).
  intros E%append_inj_l.
  change (":attempt-" +:+ pretty n1) with (String ":" ("attempt-" +:+ pretty n1)) in E.
  change (":attempt-" +:+ pretty n2) with (String ":" ("attempt-" +:+ pretty n2)) in E.
  pose proof (split_once_append ":" _ ("attempt-" +:+ pretty n1) (hex_string_no_colon _ (Hb id1))) as S1.
  pose proof (split_once_append ":" _ ("attempt-" +:+ pretty n2) (hex_string_no_colon _ (Hb id2))) as S2.
  rewrite E, S2 in S1. injection S1 as Eh En.
  split; [symmetry; by apply hex_string_inj|].
  apply append_inj_l in En. by apply (inj pretty).
Qed.

(** *** Runs of the attempt factory *)

Definition AttemptCall : Type := ExecutionPlan * ExecutionRequest * ExecutionMode.

Definition call_id (c : AttemptCall) : string := request_bound_plan_id c.1.1 c.1.2.

Fixpoint run_attempts (f : ExecutionAttemptFactory) (calls : list AttemptCall) :
    ExecutionAttemptFactory * list (ExecutionAttempt * ExecutionAttemptContext) :=
  match calls with
  | [] => (f, [])
  | (p, r, m) :: calls' =>
      let '(f, a) := next_for_plan f p r m in
      let '(f, rest) := run_attempts f calls' in
      (f, a :: rest)
  end.

(** How many of the calls are for a bound plan. *)
Definition calls_for (id : string) (calls : list AttemptCall) : Z :=
  Z.of_nat (length (filter (λ c, call_id c = id) calls)).

Definition seed_of (f : ExecutionAttemptFactory) (id : string) : Z :=
  default 0 (next_attempt_no_by_plan f !! id).

Lemma calls_for_cons id c calls :
  calls_for id (c :: calls) = (if decide (call_id c = id) then 1 else 0) + calls_for id calls.
Proof.
  unfold calls_for. rewrite filter_cons. case_decide; simpl; lia.
Qed.

Lemma calls_for_bound id calls : 0 <= calls_for id calls <= Z.of_nat (length calls).
Proof.
  unfold calls_for. pose proof (length_filter (λ c, call_id c = id) calls). lia.
Qed.

Lemma run_attempts_spec f calls :
  (∀ id, 0 <= seed_of f id ∧ seed_of f id + Z.of_nat (length calls) < 2 ^ 32) →
  let '(f', out) := run_attempts f calls in
  length out = length calls ∧
  (∀ id, seed_of f' id = seed_of f id + calls_for id calls) ∧
  ∀ i c a ctx, calls !! i = Some c → out !! i = Some (a, ctx) →
    ea_plan_id a = call_id c ∧ ea_attempt_id a = ac_attempt_id ctx ∧
    ea_attempt_id a = attempt_id_for_plan_id (ea_plan_id a) (ea_attempt_no a) ∧
    ea_attempt_no a = seed_of f (call_id c) + calls_for (call_id c) (take i calls) + 1 ∧
    ac_execution_mode ctx = c.2 ∧ ac_route ctx = er_route c.1.2 ∧ ac_scope ctx = er_scope c.1.2.
Proof.
  revert f. induction calls as [|[[p r] m] calls IH]; intros f Hb; simpl.
  { split_and!; try done. intros id. unfold calls_for; simpl. lia. }
  set (id0 := request_bound_plan_id p r).
  set (n := u32_add (default 0 (next_attempt_no_by_plan f !! id0)) 1).
  set (f1 := {| next_attempt_no_by_plan := <[id0 := n]> (next_attempt_no_by_plan f) |}).
  assert (n = seed_of f id0 + 1) as Hn.
  { unfold n, u32_add. destruct (Hb id0). unfold seed_of in *. simpl length in *.
    rewrite Z.mod_small; lia. }
  assert (∀ id, seed_of f1 id = seed_of f id + if decide (id0 = id) then 1 else 0) as Hs.
  { intros id. unfold seed_of, f1 in *; simpl. case_decide as E.
    - subst id. rewrite lookup_insert_eq. simpl. lia.
    - rewrite lookup_insert_ne by done. lia. }
  specialize (IH f1). destruct (run_attempts f1 calls) as [f' out].
  destruct IH as (Hl & Hf & Ho).
  { intros id. rewrite Hs. destruct (Hb id). simpl length in *. case_decide; lia. }
  split_and!; [simpl; congruence| |].
  - intros id. rewrite Hf, Hs, calls_for_cons. unfold call_id; simpl. fold id0.
    case_decide; lia.
  - intros [|i] c a ctx Hc Ha; simpl in *.
    + simplify_eq. simpl. split_and!; try done. rewrite Hn. unfold calls_for; simpl.
      unfold call_id; simpl. fold id0. lia.
    + destruct (Ho i c a ctx Hc Ha) as (?&?&?&En&?&?&?). split_and!; try done.
      rewrite En, Hs, calls_for_cons. change (call_id (p, r, m)) with id0.
      case_decide; lia.
Qed.

Lemma calls_for_take_mono id calls i j :
  (i <= j)%nat → calls_for id (take i calls) <= calls_for id (take j calls).
Proof.
  intros Hij. rewrite <- (take_drop i (take j calls)), take_take, Nat.min_l by done.
  unfold calls_for. rewrite filter_app, length_app. lia.
Qed.

Lemma calls_for_take_lt calls i j c :
  calls !! i = Some c → (i < j)%nat →
  calls_for (call_id c) (take i calls) < calls_for (call_id c) (take j calls).
Proof.
  intros Hc Hij. pose proof (calls_for_take_mono (call_id c) calls (S i) j Hij).
  rewrite (take_S_r _ _ c Hc) in H. unfold calls_for in *. rewrite filter_app, length_app in H.
  rewrite filter_cons, decide_True in H by done. simpl in H. lia.
Qed.

(** ** Theorems *)

(** Planning a neg-risk family fails exactly on another route or another
    scope, and otherwise submits exactly the configured members, ordered by
    condition and token; the identity of the plan does not depend on the order in
    which the members were configured. *)
Theorem plan_family_submission_spec request config :
  match plan_family_submission request config with
  | Ok p =>
      er_route request = "neg-risk" ∧ er_scope request = ft_family_id config ∧
      ∃ ms, p = NegRiskSubmitFamily (ft_family_id config) ms ∧
        ms ≡ₚ member_plan <$> ft_members config ∧
        StronglySorted (cmp_le (cmp_lex str_cmp str_cmp))
          ((λ m, (mo_condition_id m, mo_token_id m)) <$> ms) ∧
        plan_id p =
          plan_id (NegRiskSubmitFamily (ft_family_id config) (member_plan <$> ft_members config))
  | Err (RouteMismatch route) => route = er_route request ∧ route ≠ "neg-risk"
  | Err (ScopeMismatch scope family) =>
      er_route request = "neg-risk" ∧ scope = er_scope request ∧
      family = ft_family_id config ∧ scope ≠ family
  end.
Proof.
  unfold plan_family_submission. do 2 (case_bool_decide; simpl; [|done]).
  split_and!; try done. eexists. split; [done|].
  assert (∀ l : list NegRiskMemberOrderPlan,
    sort_by (cmp_on (λ m, (mo_condition_id m, mo_token_id m)) (cmp_lex str_cmp str_cmp)) l ≡ₚ l)
    as Hp by (intros; apply (sort_by_Permutation _)).
  split; [apply Hp|]. split.
  - change (?f <$> ?l) with (map f l). rewrite map_sort_by_on. apply sort_by_sorted, _.
  - simpl. do 4 f_equal. apply render_members_perm. by rewrite Hp.
Qed.

(** The identity of a family plan is canonical: it is the same for any two
    listings of the members that agree, up to order, on conditions, tokens and
    normalized prices and quantities. *)
Theorem plan_id_canonical family_id ms1 ms2
    (Hp : member_key <$> ms1 ≡ₚ member_key <$> ms2) :
  plan_id (NegRiskSubmitFamily family_id ms1) = plan_id (NegRiskSubmitFamily family_id ms2).
Proof. simpl. by rewrite (render_members_perm ms1 ms2). Qed.

(** Attempts are numbered per request and plan: in any run of the factory, an
    attempt's number is the seed of its bound plan plus one plus the number of
    earlier calls for the same request and plan, so attempts of other requests or
    plans never move it, and no two attempts of the run share bound plan and
    number, as long as the counters stay below 2^32. *)
Theorem attempt_numbers_count f calls
    (Hb : ∀ id, 0 <= seed_of f id ∧ seed_of f id + Z.of_nat (length calls) < 2 ^ 32) :
  let '(_, out) := run_attempts f calls in
  length out = length calls ∧
  (∀ i c a ctx, calls !! i = Some c → out !! i = Some (a, ctx) →
     ea_plan_id a = call_id c ∧ ea_attempt_id a = ac_attempt_id ctx ∧
     ea_attempt_no a = seed_of f (call_id c) + calls_for (call_id c) (take i calls) + 1) ∧
  (∀ i j a1 c1 a2 c2, out !! i = Some (a1, c1) → out !! j = Some (a2, c2) →
     ea_plan_id a1 = ea_plan_id a2 → ea_attempt_no a1 = ea_attempt_no a2 → i = j).
Proof.
  pose proof (run_attempts_spec f calls Hb) as Hs.
  destruct (run_attempts f calls) as [f' out]. destruct Hs as (Hl & _ & Ho).
  split; [done|]. split; [naive_solver|].
  assert (∀ i j a1 c1 a2 c2, (i < j)%nat → out !! i = Some (a1, c1) → out !! j = Some (a2, c2) →
    ea_plan_id a1 = ea_plan_id a2 → ea_attempt_no a1 ≠ ea_attempt_no a2) as Hlt.
  { intros i j a1 x1 a2 x2 Hij Hi Hj Ep En.
    destruct (lookup_lt_is_Some_2 calls i) as [c1 Hc1].
    { rewrite <- Hl. by eapply lookup_lt_Some. }
    destruct (lookup_lt_is_Some_2 calls j) as [c2 Hc2].
    { rewrite <- Hl. by eapply lookup_lt_Some. }
    destruct (Ho _ _ _ _ Hc1 Hi) as (P1&_&_&N1&_), (Ho _ _ _ _ Hc2 Hj) as (P2&_&_&N2&_).
    assert (call_id c2 = call_id c1) as E by congruence. rewrite E in N2.
    pose proof (calls_for_take_lt calls i j c1 Hc1 Hij). lia. }
  intros i j a1 x1 a2 x2 Hi Hj Ep En. destruct (lt_eq_lt_dec i j) as [[Hij|?]|Hij]; [|done|].
  - by destruct (Hlt _ _ _ _ _ _ Hij Hi Hj Ep).
  - by destruct (Hlt _ _ _ _ _ _ Hij Hj Hi (eq_sym Ep)).
Qed.

(** An attempt id identifies its request, its plan and its number: equal ids
    have equal numbers and equal digests, so when the digest does not collide on
    the two bound plan ids, they belong to the same request id and plan id. *)
Theorem attempt_id_identifies p1 r1 n1 p2 r2 n2
    (Hbytes : digests_are_bytes)
    (Hcoll : sha256 (request_bound_plan_id p1 r1) = sha256 (request_bound_plan_id p2 r2) →
             request_bound_plan_id p1 r1 = request_bound_plan_id p2 r2)
    (E : request_bound_attempt_id p1 r1 n1 = request_bound_attempt_id p2 r2 n2) :
  er_request_id r1 = er_request_id r2 ∧ plan_id p1 = plan_id p2 ∧ n1 = n2.
Proof.
  apply attempt_id_inj in E as [E ->]; [|done].
  by destruct (request_bound_plan_id_inj _ _ _ _ (Hcoll E)).
Qed.

(** Signing a family submission follows the identity of its plan: the signed
    members, in order, render to exactly the member list of the plan id and each
    carries the nonce of its position; other plans are refused under their plan
    id. *)
Theorem test_sign_family_spec p :
  match p with
  | NegRiskSubmitFamily family_id members =>
      ∀ r, test_sign_family p = Returns r →
        ∃ s, r = Ok s ∧ sf_plan_id s = plan_id p ∧
          plan_id p = "negrisk-submit-family:" +:+ family_id +:+ ":" +:+
            join "|" ((λ m, sm_condition_id m +:+ ":" +:+ sm_token_id m +:+ ":" +:+
                        dec_normalized (sm_price m) +:+ ":" +:+
                        dec_normalized (sm_quantity m)) <$> sf_members s) ∧
          (so_nonce ∘ sm_identity <$> sf_members s) = pretty <$> seq 0 (length members)
  | _ => test_sign_family p = Returns (Err (UnsupportedPlan (plan_id p)))
  end.
Proof.
  destruct p as [| | | |family_id members]; try done. unfold test_sign_family. intros r.
  destruct (sign_members _ 0 _) as [ss|] eqn:Es; simpl; [|done]. intros [= <-].
  apply sign_members_render in Es as [Hl Hj].
  assert (length (canonical_members members) = length members) as Hlen.
  { apply (length_sort_by _). }
  eexists. split; [done|]. split; [done|]. simpl. split.
  - do 4 f_equal. apply list_eq_same_length with (length ss); rewrite ?length_fmap; [lia..|].
    intros j x y _ Hx Hy. apply list_lookup_fmap_Some in Hx as (m & -> & Hm), Hy as (s & -> & Hs).
    destruct (Hj j m s Hm Hs) as (E1 & E2 & E3 & E4 & _). unfold render_member.
    by rewrite E1, E2, E3, E4.
  - apply list_eq_same_length with (length ss); rewrite ?length_fmap, ?length_seq; [lia..|].
    intros j x y Hlt Hx Hy. apply list_lookup_fmap_Some in Hx as (s & -> & Hs), Hy as (k & -> & Hk).
    apply lookup_seq in Hk as [-> _].
    destruct (lookup_lt_is_Some_2 (canonical_members members) j) as [m Hm]; [lia|].
    destruct (Hj j m s Hm Hs) as (_ & _ & _ & _ & E). simpl. by rewrite E.
Qed.

End plans.

(** ** Concrete plans *)

Definition demo_member (c t : string) (price quantity : Z) : @NegRiskMemberOrderPlan Micros :=
  {| mo_condition_id := c; mo_token_id := t; mo_price := price : @Decimal Micros;
     mo_quantity := quantity : @Decimal Micros |}.

Definition demo_family_plan : @ExecutionPlan Micros :=
  NegRiskSubmitFamily "family-1"
    [demo_member "condition-2" "token-2" 450000 2000000;
     demo_member "condition-1" "token-1" 300000 2000000].

Definition demo_request (id : string) : ExecutionRequest :=
  {| er_request_id := id; er_decision_input_id := "input-1"; er_snapshot_id := "snapshot-7";
     er_route := "neg-risk"; er_scope := "family-1"; er_activation_mode := Live;
     er_matched_rule_id := None |}.

Definition demo_calls : list (@AttemptCall Micros) :=
  [(demo_family_plan, demo_request "r:1", Live); (demo_family_plan, demo_request "r:2", Live);
   (demo_family_plan, demo_request "r:1", Live)].

Example demo_attempt_numbers :
  ea_attempt_no ∘ fst <$> (run_attempts factory_new demo_calls).2 = [1; 1; 2].
Proof. vm_compute. reflexivity. Qed.

Lemma plan_id_canonical_witness :
  plan_id demo_family_plan =
  plan_id (X := Micros) (NegRiskSubmitFamily "family-1"
    [demo_member "condition-1" "token-1" 300000 2000000;
     demo_member "condition-2" "token-2" 450000 2000000]).
Proof. apply (plan_id_canonical (X := Micros)). apply Permutation_swap. Defined.

Lemma attempt_numbers_count_witness :
  length (run_attempts factory_new demo_calls).2 = 3%nat.
Proof.
  pose proof (attempt_numbers_count factory_new demo_calls) as Hs.
  destruct (run_attempts factory_new demo_calls) as [f out]. apply Hs.
  intros id. unfold seed_of; simpl. rewrite lookup_empty; simpl. lia.
Defined.

Lemma attempt_id_identifies_witness :
  er_request_id (demo_request "r:1") = "r:1" ∧
  plan_id demo_family_plan = plan_id demo_family_plan ∧ 2 = 2.
Proof.
  apply (attempt_id_identifies (X := Micros) demo_family_plan (demo_request "r:1") 2
    demo_family_plan (demo_request "r:1") 2); [|done|done].
  intros s. unfold sha256; simpl. rewrite !Forall_fmap, Forall_forall. intros c _; simpl.
  pose proof (Ascii.nat_ascii_bounded c). lia.
Defined.

Lemma test_sign_family_spec_witness :
  ∃ s, test_sign_family demo_family_plan = Returns (Ok s) ∧
    (so_nonce ∘ sm_identity <$> sf_members s) = ["0"; "1"].
Proof.
  pose proof (test_sign_family_spec demo_family_plan) as Hs. cbv beta iota delta [demo_family_plan] in Hs.
  destruct (Hs _ eq_refl) as (s & E & _ & _ & Hn). exists s. split; [by rewrite <- E|exact Hn].
Defined.
