(* ===== verification/Recovery.v ===== *)
(** * Recovery

    [crates/recovery]: what the coordinator makes of an ambiguous attempt, and
    the locks under which recovery blocks expansion. *)

From Stdlib Require Import Ascii.
From S2P Require Import Prelude Text RecordSet Externals Domain Plans.

(** ** coordinator.rs *)

Record PendingReconcilePayload := {
  pp_submission_ref : string;
  pp_family_id : string;
  pp_route : string;
  pp_reason : string;
}.

Record RecoveryOutputs := {
  ro_recovery_intent : option RecoveryIntent;
  ro_pending_reconcile : option PendingReconcilePayload;
}.

(** The byte string after the first [n] bytes, when it starts with a colon:
    [trailing.len() > n && trailing.as_bytes()[n] == b':'], then
    [trailing[n + 1..]]. *)
Fixpoint after_colon_at (n : nat) (trailing : string) : option string :=
  match n, trailing with
  | O, String c rest => if decide (c = ":"%char) then Some rest else None
  | S n', String _ rest => after_colon_at n' rest
  | _, EmptyString => None
  end.

Definition stable_plan_scope (plan_id : string) : string :=
  default plan_id
    (remainder ← strip_prefix "request-bound:" plan_id;
     '(request_len, trailing) ← split_once ":" remainder;
     n ← parse_usize request_len;
     after_colon_at (Z.to_nat n) trailing).

Definition on_failed_ambiguous (attempt : ExecutionAttempt) : RecoveryOutputs :=
  {| ro_recovery_intent := Some
       {| ri_recovery_id := "recovery-" +:+ ea_attempt_id attempt;
          ri_source_snapshot_id := ea_snapshot_id attempt;
          ri_scope := "execution_path:" +:+ stable_plan_scope (ea_plan_id attempt) |};
     ro_pending_reconcile := None |}.

(** ** locks.rs *)

Inductive RecoveryScopeLock :=
| LockMarket (scope_id : string)
| LockCondition (scope_id : string)
| LockFamily (scope_id : string)
| LockInventorySet (scope_id : string)
| LockExecutionPath (scope_id : string).

Inductive RecoveryScopeKind := KMarket | KCondition | KFamily | KInventorySet | KExecutionPath.
#[export] Instance RecoveryScopeKind_eq_dec : EqDecision RecoveryScopeKind.
Proof. solve_decision. Defined.

Definition scope_kind (l : RecoveryScopeLock) : RecoveryScopeKind :=
  match l with
  | LockMarket _ => KMarket
  | LockCondition _ => KCondition
  | LockFamily _ => KFamily
  | LockInventorySet _ => KInventorySet
  | LockExecutionPath _ => KExecutionPath
  end.

Definition scope_id (l : RecoveryScopeLock) : string :=
  match l with
  | LockMarket s | LockCondition s | LockFamily s | LockInventorySet s | LockExecutionPath s => s
  end.

Definition kind_blocks (parent candidate : RecoveryScopeKind) : bool :=
  match parent, candidate with
  | KMarket, (KMarket | KExecutionPath) => true
  | KCondition, (KCondition | KMarket | KExecutionPath) => true
  | KFamily, (KFamily | KCondition | KMarket | KExecutionPath) => true
  | KInventorySet, KInventorySet => true
  | KExecutionPath, KExecutionPath => true
  | _, _ => false
  end.

Definition scope_blocks (parent candidate : string) (allow_exact_match : bool) : bool :=
  if allow_exact_match && bool_decide (candidate = parent) then true
  else match strip_prefix parent candidate with
       | Some remainder => starts_with_char ":" remainder
       | None => false
       end.

Definition blocks_expansion (l candidate : RecoveryScopeLock) : bool :=
  kind_blocks (scope_kind l) (scope_kind candidate) &&
  scope_blocks (scope_id l) (scope_id candidate)
    (bool_decide (scope_kind l = scope_kind candidate)).

(** ** Lemmas *)

Lemma after_colon_at_append (s t : string) :
  after_colon_at (String.length s) (s +:+ String ":" t) = Some t.
Proof. induction s; [done|]. rewrite append_cons; simpl. done. Qed.

(** A scope lies under another when it extends it by a colon. *)
Definition under (parent candidate : string) : Prop :=
  ∃ rest, candidate = parent +:+ String ":" rest.

Lemma scope_blocks_iff parent candidate exact :
  scope_blocks parent candidate exact = true ↔
  exact = true ∧ candidate = parent ∨ under parent candidate.
Proof.
  assert (match strip_prefix parent candidate with
          | Some remainder => starts_with_char ":" remainder
          | None => false
          end = true ↔ under parent candidate) as Hu.
  { unfold under. destruct (strip_prefix parent candidate) as [[|c r]|] eqn:E; simpl.
    - apply strip_prefix_Some in E. rewrite append_nil_r in E. subst.
      split; [done|]. intros [rest E]. apply (f_equal String.length) in E.
      rewrite length_append in E. simpl in E. lia.
    - apply strip_prefix_Some in E as ->. rewrite bool_decide_eq_true. split.
      + intros <-. by exists r.
      + intros [rest E%append_inj_l]. congruence.
    - split; [done|]. intros [rest ->]. by rewrite strip_prefix_append in E. }
  unfold scope_blocks. destruct exact; simpl; [case_bool_decide|]; rewrite ?Hu; naive_solver.
Qed.

Lemma under_trans s1 s2 s3 : under s1 s2 → under s2 s3 → under s1 s3.
Proof.
  intros [r1 ->] [r2 ->]. exists (r1 +:+ String ":" r2).
  by rewrite append_assoc, append_cons.
Qed.

Lemma under_length s1 s2 : under s1 s2 → (String.length s1 < String.length s2)%nat.
Proof. intros [r ->]. rewrite length_append. simpl. lia. Qed.

Lemma blocks_expansion_iff l c :
  blocks_expansion l c = true ↔
  kind_blocks (scope_kind l) (scope_kind c) = true ∧
  (scope_kind l = scope_kind c ∧ scope_id c = scope_id l ∨ under (scope_id l) (scope_id c)).
Proof.
  unfold blocks_expansion. rewrite andb_true_iff, scope_blocks_iff, bool_decide_eq_true. done.
Qed.

Lemma lock_eq l c : scope_kind l = scope_kind c → scope_id l = scope_id c → l = c.
Proof. destruct l, c; simpl; congruence. Qed.

Lemma kind_blocks_trans k1 k2 k3 :
  kind_blocks k1 k2 = true → kind_blocks k2 k3 = true → kind_blocks k1 k3 = true.
Proof. by destruct k1, k2, k3. Qed.

(** ** Theorems *)

(** Recovery undoes the request binding: for an attempt of any plan and
    request, made with the bound plan id the attempt factory gives it, the
    recovery intent of an ambiguous failure names the attempt and its snapshot
    and is scoped to the execution path of the plan's own id, whatever
    characters the request id and the plan id contain. *)
Theorem recovery_scope_roundtrip {X : Externals} f p r mode
    (Hlen : str_len (er_request_id r) < 2 ^ 64) :
  let '(_, (attempt, context)) := next_for_plan f p r mode in
  on_failed_ambiguous attempt =
    {| ro_recovery_intent := Some
         {| ri_recovery_id := "recovery-" +:+ ac_attempt_id context;
            ri_source_snapshot_id := er_snapshot_id r;
            ri_scope := "execution_path:" +:+ plan_id p |};
       ro_pending_reconcile := None |}.
Proof.
  unfold next_for_plan, on_failed_ambiguous; simpl. do 4 f_equal.
  unfold stable_plan_scope, request_bound_plan_id. rewrite strip_prefix_append. simpl.
  set (n := String.length (er_request_id r)).
  change (":" +:+ er_request_id r +:+ ":" +:+ plan_id p) with
    (String ":" (er_request_id r +:+ String ":" (plan_id p))).
  rewrite split_once_append by (by apply pretty_nat_no). simpl.
  rewrite parse_usize_pretty by done. simpl. rewrite Nat2Z.id.
  unfold n. by rewrite after_colon_at_append.
Qed.

(** Blocking is a partial order on locks: every lock blocks itself, a lock
    blocks what the locks it blocks block, and two different locks never block
    each other. *)
Theorem blocks_expansion_partial_order :
  (∀ l, blocks_expansion l l = true) ∧
  (∀ l1 l2 l3, blocks_expansion l1 l2 = true → blocks_expansion l2 l3 = true →
     blocks_expansion l1 l3 = true) ∧
  (∀ l1 l2, blocks_expansion l1 l2 = true → blocks_expansion l2 l1 = true → l1 = l2).
Proof.
  split_and!.
  - intros l. apply blocks_expansion_iff. split; [by destruct l|by left].
  - intros l1 l2 l3. rewrite !blocks_expansion_iff. intros [K12 H12] [K23 H23].
    split; [by eapply kind_blocks_trans|].
    destruct H12 as [[E1 I1]|U12], H23 as [[E2 I2]|U23]; [left|right|right|right].
    + split; congruence.
    + by rewrite <- I1.
    + by rewrite I2.
    + by eapply under_trans.
  - intros l1 l2. rewrite !blocks_expansion_iff. intros [K12 H12] [K21 H21].
    assert (¬ (under (scope_id l1) (scope_id l2) ∧ under (scope_id l2) (scope_id l1))) as Hno.
    { intros [?%under_length ?%under_length]. lia. }
    destruct H12 as [[E1 I1]|U12]; [by apply lock_eq|].
    destruct H21 as [[E2 I2]|U21]; [by apply lock_eq|]. by destruct Hno.
Qed.

Lemma recovery_scope_roundtrip_witness :
  ri_scope <$> ro_recovery_intent
    (on_failed_ambiguous (next_for_plan factory_new demo_family_plan (demo_request "r:1:x") Live).2.1) =
  Some ("execution_path:" +:+ plan_id demo_family_plan).
Proof.
  pose proof (recovery_scope_roundtrip factory_new demo_family_plan (demo_request "r:1:x") Live) as Hs.
  destruct (next_for_plan factory_new demo_family_plan (demo_request "r:1:x") Live) as [f [a c]].
  cbn [fst snd]. rewrite Hs; [reflexivity|]. unfold str_len; simpl. lia.
Defined.

Lemma blocks_expansion_partial_order_witness :
  blocks_expansion (LockFamily "family-1") (LockExecutionPath "family-1:market-1:path") = true.
Proof.
  apply (proj1 (proj2 blocks_expansion_partial_order) _ (LockMarket "family-1:market-1"));
    reflexivity.
Defined.
