(* ===== verification/Orders.v ===== *)
(** * Signed orders and CTF operations

    [execution/src/orders.rs]: the envelope of a signed order and its retries.
    [execution/src/ctf.rs]: the tracker of split, merge and redeem operations. *)

From S2P Require Import Prelude RecordSet Externals Domain.

(** ** orders.rs *)

Inductive RetryKind := Initial | Transport | Business.

Inductive BusinessRetryError := NonceUnchanged | IdentityNonceMismatch | OrderIdReused.

Record SignedOrderEnvelope := {
  en_order_id : OrderId;
  en_identity : SignedOrderIdentity;
  en_retry_kind : RetryKind;
  en_retry_of_order_id : option OrderId;
  en_attempt_id : option string;
  en_used_order_ids : list OrderId;
}.

#[export] Instance SignedOrderEnvelope_eta : Eta SignedOrderEnvelope := λ e,
  {| en_order_id := en_order_id e; en_identity := en_identity e;
     en_retry_kind := en_retry_kind e; en_retry_of_order_id := en_retry_of_order_id e;
     en_attempt_id := en_attempt_id e; en_used_order_ids := en_used_order_ids e |}.

Definition envelope_new (order_id : OrderId) (identity : SignedOrderIdentity) :
    SignedOrderEnvelope :=
  {| en_order_id := order_id; en_identity := identity; en_retry_kind := Initial;
     en_retry_of_order_id := None; en_attempt_id := None; en_used_order_ids := [order_id] |}.

Definition envelope_with_attempt_id (e : SignedOrderEnvelope) (attempt_id : string) :
    SignedOrderEnvelope :=
  e <| en_attempt_id := Some attempt_id |>.

Definition transport_retry (e : SignedOrderEnvelope) : SignedOrderEnvelope :=
  e <| en_retry_kind := Transport |>.

Definition business_retry (e : SignedOrderEnvelope) (order_id : OrderId) (new_nonce : string)
    (identity : SignedOrderIdentity) : result BusinessRetryError SignedOrderEnvelope :=
  if bool_decide (order_id ∈ en_used_order_ids e) then Err OrderIdReused
  else if bool_decide (new_nonce = so_nonce (en_identity e)) then Err NonceUnchanged
  else if negb (bool_decide (so_nonce identity = new_nonce)) then Err IdentityNonceMismatch
  else Ok {| en_order_id := order_id; en_identity := identity; en_retry_kind := Business;
             en_retry_of_order_id := Some (default (en_order_id e) (en_retry_of_order_id e));
             en_attempt_id := en_attempt_id e;
             en_used_order_ids := en_used_order_ids e ++ [order_id] |}.

(** The life of an order: a new envelope, retried either way any number of
    times. *)
Inductive order_life (first : OrderId) : SignedOrderEnvelope → Prop :=
| life_new identity : order_life first (envelope_new first identity)
| life_attempt e a : order_life first e → order_life first (envelope_with_attempt_id e a)
| life_transport e : order_life first e → order_life first (transport_retry e)
| life_business e i n identity e' :
    order_life first e → business_retry e i n identity = Ok e' → order_life first e'.

(** ** ctf.rs *)

Inductive CtfOperationKind := Split | Merge | Redeem.

Inductive CtfOperationStatus := Planned | Submitted | Confirmed | Failed.
#[export] Instance CtfOperationStatus_eq_dec : EqDecision CtfOperationStatus.
Proof. solve_decision. Defined.

Record CtfOperation := {
  op_kind : CtfOperationKind;
  op_condition_id : ConditionId;
  op_relayer_transaction_id : option string;
  op_nonce : option string;
  op_tx_hash : option string;
  op_status : CtfOperationStatus;
  op_attempt_id : option string;
}.

#[export] Instance CtfOperation_eta : Eta CtfOperation := λ o,
  {| op_kind := op_kind o; op_condition_id := op_condition_id o;
     op_relayer_transaction_id := op_relayer_transaction_id o; op_nonce := op_nonce o;
     op_tx_hash := op_tx_hash o; op_status := op_status o; op_attempt_id := op_attempt_id o |}.

Definition ctf_operation_new (kind : CtfOperationKind) (condition_id : ConditionId)
    (relayer_transaction_id nonce : option string) (status : CtfOperationStatus) : CtfOperation :=
  {| op_kind := kind; op_condition_id := condition_id;
     op_relayer_transaction_id := relayer_transaction_id; op_nonce := nonce;
     op_tx_hash := None; op_status := status; op_attempt_id := None |}.

Inductive CtfTrackerError :=
| OperationNotFound (operation_id : Z)
| SubmittedRequiresRelayerMetadata
| ConfirmedRequiresTxHash
| RelayerMetadataFrozen (status : CtfOperationStatus)
| IllegalStatusTransition (from to : CtfOperationStatus)
| RelayerTransactionIdConflict (relayer_transaction_id : string)
| RelayerTransactionIdAlreadyBound
| NonceAlreadyBound (existing_nonce new_nonce : string).

Record CtfTracker := {
  operations : gmap Z CtfOperation;
  relayer_index : gmap string Z;
  next_operation_id : Z;
}.

#[export] Instance CtfTracker_eta : Eta CtfTracker := λ t,
  {| operations := operations t; relayer_index := relayer_index t;
     next_operation_id := next_operation_id t |}.

Definition ctf_tracker_new : CtfTracker :=
  {| operations := ∅; relayer_index := ∅; next_operation_id := 0 |}.

Definition validate_transition (from to : CtfOperationStatus) : result CtfTrackerError () :=
  if bool_decide (to = Planned) && negb (bool_decide (from = Planned)) then
    Err (IllegalStatusTransition from to)
  else Ok ().

Definition validate_operation_for_status (status : CtfOperationStatus) (o : CtfOperation) :
    result CtfTrackerError () :=
  if match status with Submitted | Confirmed => true | _ => false end &&
     (negb (bool_decide (is_Some (op_relayer_transaction_id o))) ||
      negb (bool_decide (is_Some (op_nonce o))))
  then Err SubmittedRequiresRelayerMetadata
  else if bool_decide (status = Confirmed) && negb (bool_decide (is_Some (op_tx_hash o)))
  then Err ConfirmedRequiresTxHash
  else Ok ().

Definition ensure_relayer_id_available (t : CtfTracker) (relayer_transaction_id : option string)
    (operation_id : option Z) : result CtfTrackerError () :=
  match relayer_transaction_id with
  | None => Ok ()
  | Some id =>
      match relayer_index t !! id with
      | Some existing =>
          if negb (bool_decide (Some existing = operation_id)) then
            Err (RelayerTransactionIdConflict id)
          else Ok ()
      | None => Ok ()
      end
  end.

(** [usize] on a 64-bit target. *)
Definition record (t : CtfTracker) (o : CtfOperation) :
    CtfTracker * result CtfTrackerError Z :=
  match (_ ← validate_operation_for_status (op_status o) o;
         ensure_relayer_id_available t (op_relayer_transaction_id o) None) with
  | Err e => (t, Err e)
  | Ok _ =>
      let operation_id := next_operation_id t in
      let t := t <| next_operation_id ::= λ n, u64_add n 1 |> in
      let t :=
        match op_relayer_transaction_id o with
        | Some id => t <| relayer_index ::= <[id := operation_id]> |>
        | None => t
        end in
      (t <| operations ::= <[operation_id := o]> |>, Ok operation_id)
  end.

Definition check_attach (t : CtfTracker) (operation_id : Z) (existing : CtfOperation)
    (relayer_transaction_id nonce : option string) : result CtfTrackerError () :=
  if negb (bool_decide (op_status existing = Planned)) then
    Err (RelayerMetadataFrozen (op_status existing))
  else
    _ ← match relayer_transaction_id with
        | Some id =>
            _ ← match op_relayer_transaction_id existing with
                | Some old =>
                    if negb (bool_decide (old = id)) then Err RelayerTransactionIdAlreadyBound
                    else Ok ()
                | None => Ok ()
                end;
            ensure_relayer_id_available t (Some id) (Some operation_id)
        | None => Ok ()
        end;
    match nonce, op_nonce existing with
    | Some n, Some old =>
        if negb (bool_decide (old = n)) then Err (NonceAlreadyBound old n) else Ok ()
    | _, _ => Ok ()
    end.

Definition attach_relayer_metadata (t : CtfTracker) (operation_id : Z)
    (relayer_transaction_id nonce : option string) : CtfTracker * result CtfTrackerError () :=
  match operations t !! operation_id with
  | None => (t, Err (OperationNotFound operation_id))
  | Some existing =>
      match check_attach t operation_id existing relayer_transaction_id nonce with
      | Err e => (t, Err e)
      | Ok _ =>
          let '(t, o) :=
            match relayer_transaction_id with
            | Some id => (t <| relayer_index ::= <[id := operation_id]> |>,
                          existing <| op_relayer_transaction_id := Some id |>)
            | None => (t, existing)
            end in
          let o :=
            match nonce, op_nonce o with
            | Some n, None => o <| op_nonce := Some n |>
            | _, _ => o
            end in
          (t <| operations ::= <[operation_id := o]> |>, Ok ())
      end
  end.

Definition update_status (t : CtfTracker) (operation_id : Z) (status : CtfOperationStatus)
    (tx_hash : option string) : CtfTracker * result CtfTrackerError () :=
  match operations t !! operation_id with
  | None => (t, Err (OperationNotFound operation_id))
  | Some existing =>
      let candidate := existing <| op_status := status |> in
      let candidate :=
        match tx_hash with
        | Some h => candidate <| op_tx_hash := Some h |>
        | None => candidate
        end in
      match (_ ← validate_transition (op_status existing) status;
             validate_operation_for_status status candidate) with
      | Err e => (t, Err e)
      | Ok _ => (t <| operations ::= <[operation_id := candidate]> |>, Ok ())
      end
  end.

Definition operation_by_relayer_transaction_id (t : CtfTracker) (id : string) :
    option CtfOperation :=
  operation_id ← relayer_index t !! id; operations t !! operation_id.

Inductive CtfStep :=
| StepRecord (o : CtfOperation)
| StepAttach (operation_id : Z) (relayer_transaction_id nonce : option string)
| StepUpdate (operation_id : Z) (status : CtfOperationStatus) (tx_hash : option string).

Definition ctf_step (t : CtfTracker) (s : CtfStep) : CtfTracker :=
  match s with
  | StepRecord o => (record t o).1
  | StepAttach i r n => (attach_relayer_metadata t i r n).1
  | StepUpdate i s h => (update_status t i s h).1
  end.

Definition ctf_run (steps : list CtfStep) : CtfTracker := foldl ctf_step ctf_tracker_new steps.

(** An operation has the metadata its status requires. *)
Definition op_wf (o : CtfOperation) : Prop :=
  (op_status o = Submitted ∨ op_status o = Confirmed →
   is_Some (op_relayer_transaction_id o) ∧ is_Some (op_nonce o)) ∧
  (op_status o = Confirmed → is_Some (op_tx_hash o)).

(** Operations are well formed and below the next id, and the index maps each
    relayer transaction to the one operation that carries it. *)
Record tracker_wf (t : CtfTracker) : Prop := {
  tw_ops : ∀ i o, operations t !! i = Some o → op_wf o;
  tw_next : ∀ i o, operations t !! i = Some o → 0 <= i < next_operation_id t;
  tw_index : ∀ r i, relayer_index t !! r = Some i ↔
    ∃ o, operations t !! i = Some o ∧ op_relayer_transaction_id o = Some r;
}.

(** ** Lemmas *)

Lemma validate_operation_ok status o :
  validate_operation_for_status status o = Ok () →
  op_status o = status → op_wf o.
Proof.
  unfold validate_operation_for_status, op_wf. intros Hv <-.
  destruct (op_status o); simpl in *; repeat case_bool_decide; simpl in *; naive_solver.
Qed.

Lemma validate_transition_ok from to u :
  validate_transition from to = Ok u → to = Planned → from = Planned.
Proof. unfold validate_transition. repeat case_bool_decide; done. Qed.

Lemma validate_operation_Ok_unit {E} (r : result E ()) u : r = Ok u → r = Ok ().
Proof. by destruct u. Qed.

Lemma ensure_available_ok t r i :
  ensure_relayer_id_available t (Some r) i = Ok () →
  relayer_index t !! r = None ∨ relayer_index t !! r = i ∧ is_Some i.
Proof.
  unfold ensure_relayer_id_available. destruct (relayer_index t !! r) as [e|]; [|by left].
  case_bool_decide; simpl; naive_solver.
Qed.

Lemma tracker_wf_new : tracker_wf ctf_tracker_new.
Proof.
  split; simpl; intros *.
  - by rewrite lookup_empty.
  - by rewrite lookup_empty.
  - rewrite lookup_empty. split; [done|]. intros (o & Ho & _). by rewrite lookup_empty in Ho.
Qed.

(** Replacing an operation by one that carries the same relayer transaction. *)
Lemma tracker_wf_replace t i o o' :
  tracker_wf t → operations t !! i = Some o → op_wf o' →
  op_relayer_transaction_id o' = op_relayer_transaction_id o →
  tracker_wf (t <| operations ::= <[i := o']> |>).
Proof.
  intros [Hops Hnext Hix] Hi Hwf Er. split; simpl.
  - intros j oj [[<- <-]|[_ ?]]%lookup_insert_Some; eauto.
  - intros j oj [[<- <-]|[_ ?]]%lookup_insert_Some; eauto.
  - intros r j. rewrite Hix. destruct (decide (i = j)) as [<-|Hne].
    + rewrite lookup_insert_eq. naive_solver congruence.
    + by rewrite lookup_insert_ne.
Qed.

(** Filing a relayer transaction under the operation that takes it. *)
Lemma tracker_wf_bind t i r o' :
  (∀ j o, operations t !! j = Some o → j ≠ i → op_relayer_transaction_id o ≠ Some r) →
  (∀ o, operations t !! i = Some o → op_relayer_transaction_id o = None ∨
                                      op_relayer_transaction_id o = Some r) →
  tracker_wf t → 0 <= i < next_operation_id t → op_wf o' →
  op_relayer_transaction_id o' = Some r →
  tracker_wf (t <| relayer_index ::= <[r := i]> |> <| operations ::= <[i := o']> |>).
Proof.
  intros Hother Hold [Hops Hnext Hix] Hi Hwf Er. split; simpl.
  - intros j oj [[<- <-]|[_ ?]]%lookup_insert_Some; eauto.
  - intros j oj [[<- <-]|[_ ?]]%lookup_insert_Some; eauto.
  - intros r' j. destruct (decide (r = r')) as [<-|Hr].
    + rewrite lookup_insert_eq. destruct (decide (i = j)) as [<-|Hne].
      * rewrite lookup_insert_eq. naive_solver.
      * rewrite lookup_insert_ne by done. split; [naive_solver|].
        intros (o & Ho & E). by destruct (Hother j o Ho (not_eq_sym Hne)).
    + rewrite lookup_insert_ne, Hix by done. destruct (decide (i = j)) as [<-|Hne].
      * rewrite lookup_insert_eq. split; [|naive_solver].
        intros (o & Ho & E). destruct (Hold o Ho); congruence.
      * by rewrite lookup_insert_ne.
Qed.

Lemma tracker_wf_bump t n :
  next_operation_id t <= n → tracker_wf t → tracker_wf (t <| next_operation_id := n |>).
Proof. intros Hn [Hops Hnext Hix]. split; simpl; try done. intros i o Ho. apply Hnext in Ho. lia. Qed.

Lemma check_record_ok t o u :
  (_ ← validate_operation_for_status (op_status o) o;
   ensure_relayer_id_available t (op_relayer_transaction_id o) None) = Ok u →
  op_wf o ∧ ∀ r, op_relayer_transaction_id o = Some r → relayer_index t !! r = None.
Proof.
  destruct (validate_operation_for_status (op_status o) o) as [v|e] eqn:Ev; [|done].
  cbn [mbind result_bind]. intros Ea. split.
  - by apply validate_operation_Ok_unit, validate_operation_ok in Ev.
  - intros r Er. rewrite Er in Ea.
    apply validate_operation_Ok_unit, ensure_available_ok in Ea.
    by destruct Ea as [?|[_ []]].
Qed.

Lemma record_wf t o :
  tracker_wf t → 0 <= next_operation_id t < 2 ^ 64 - 1 →
  tracker_wf (record t o).1 ∧ next_operation_id (record t o).1 <= next_operation_id t + 1 ∧
  0 <= next_operation_id (record t o).1.
Proof.
  intros Hwf Hn. unfold record.
  destruct (_ ← _; _) as [u|e] eqn:Ec; cbn [fst]; [|split; [done|lia]].
  apply check_record_ok in Ec as [Ev Ea].
  assert (u64_add (next_operation_id t) 1 = next_operation_id t + 1) as En.
  { unfold u64_add. rewrite Z.mod_small; lia. }
  assert (operations t !! next_operation_id t = None) as Hfresh.
  { destruct (operations t !! next_operation_id t) as [o'|] eqn:E; [|done].
    apply (tw_next t Hwf) in E. lia. }
  pose proof (tracker_wf_bump t (next_operation_id t + 1) ltac:(lia) Hwf) as Hb.
  destruct (op_relayer_transaction_id o) as [r|] eqn:Er; simpl; rewrite En; (split; [|lia]).
  - refine (tracker_wf_bind (t <| next_operation_id := next_operation_id t + 1 |>)
      (next_operation_id t) r o _ _ _ _ _ _); simpl; try done; try lia.
    + intros j o' Ho _ Eo. specialize (Ea r eq_refl).
      assert (relayer_index t !! r = Some j); [|congruence]. apply (tw_index t Hwf). eauto.
    + intros o' Ho. congruence.
  - split; simpl.
    + intros j oj [[<- <-]|[_ ?]]%lookup_insert_Some; [done|by eapply tw_ops].
    + intros j oj [[<- <-]|[_ Ho]]%lookup_insert_Some; [lia|]. apply (tw_next t Hwf) in Ho. lia.
    + intros r j. rewrite (tw_index t Hwf). destruct (decide (next_operation_id t = j)) as [<-|Hne].
      * rewrite lookup_insert_eq. rewrite Hfresh. naive_solver congruence.
      * by rewrite lookup_insert_ne.
Qed.

Lemma check_attach_ok t i o r n u :
  check_attach t i o r n = Ok u →
  op_status o = Planned ∧
  (∀ id, r = Some id →
     (op_relayer_transaction_id o = None ∨ op_relayer_transaction_id o = Some id) ∧
     (relayer_index t !! id = None ∨ relayer_index t !! id = Some i)) ∧
  (∀ m, n = Some m → op_nonce o = None ∨ op_nonce o = Some m).
Proof.
  unfold check_attach. case_bool_decide as Hp; cbn [negb]; [|done].
  intros ([] & H1 & H2)%result_bind_Ok. split; [done|]. split.
  - intros id ->. apply result_bind_Ok in H1 as ([] & H1 & H3).
    apply ensure_available_ok in H3. split; [|tauto].
    destruct (op_relayer_transaction_id o); [|by left]. case_bool_decide; naive_solver.
  - intros m ->. destruct (op_nonce o); [|by left]. case_bool_decide; [|done].
    subst. by right.
Qed.

Lemma attach_wf t i r n :
  tracker_wf t → tracker_wf (attach_relayer_metadata t i r n).1 ∧
  next_operation_id (attach_relayer_metadata t i r n).1 = next_operation_id t.
Proof.
  intros Hwf. unfold attach_relayer_metadata.
  destruct (operations t !! i) as [o|] eqn:Hi; [|done].
  destruct (check_attach t i o r n) as [u|e] eqn:Ec; [|done].
  apply check_attach_ok in Ec as (Hp & Hr & Hn).
  assert (∀ o', op_status o' = Planned → op_wf o') as Hplanned.
  { intros o' E. unfold op_wf. rewrite E. by split; [intros []|]. }
  destruct r as [id|].
  - destruct (Hr id eq_refl) as [Hold Hix]. split; [|by destruct n, (op_nonce o)].
    refine (tracker_wf_bind t i id _ _ _ Hwf _ _ _).
    + intros j o' Ho Hne Eo. assert (relayer_index t !! id = Some j).
      { apply (tw_index t Hwf). eauto. }
      destruct Hix; congruence.
    + intros o' Ho. by simplify_eq.
    + by apply (tw_next t Hwf i o).
    + apply Hplanned. simpl. by destruct n, (op_nonce o).
    + simpl. by destruct n, (op_nonce o).
  - split; [|by destruct n, (op_nonce o)].
    refine (tracker_wf_replace t i o _ Hwf Hi _ _).
    + apply Hplanned. by destruct n, (op_nonce o).
    + by destruct n, (op_nonce o).
Qed.

Lemma update_wf t i s h :
  tracker_wf t → tracker_wf (update_status t i s h).1 ∧
  next_operation_id (update_status t i s h).1 = next_operation_id t.
Proof.
  intros Hwf. unfold update_status. destruct (operations t !! i) as [o|] eqn:Hi; [|done].
  destruct (validate_transition (op_status o) s); simpl; [|done].
  destruct (validate_operation_for_status s _) as [u|e] eqn:Ev; simpl; [|done]. split; [|done].
  apply (tracker_wf_replace t i o); try done; [|by destruct h].
  apply validate_operation_Ok_unit, validate_operation_ok in Ev; [done|by destruct h].
Qed.

Lemma ctf_run_wf steps :
  Z.of_nat (length steps) < 2 ^ 64 →
  tracker_wf (ctf_run steps) ∧ 0 <= next_operation_id (ctf_run steps) <= Z.of_nat (length steps).
Proof.
  unfold ctf_run. induction steps as [|s steps IH] using rev_ind; [intros _|].
  { simpl. split; [apply tracker_wf_new|lia]. }
  rewrite length_app, foldl_app; simpl. intros Hl. destruct IH as [Hwf Hn]; [lia|].
  destruct s as [o|i r n|i st h]; simpl.
  - destruct (record_wf _ o Hwf) as (?&?&?); [lia|]. split; [done|lia].
  - destruct (attach_wf _ i r n Hwf) as [? ->]. split; [done|lia].
  - destruct (update_wf _ i st h Hwf) as [? ->]. split; [done|lia].
Qed.

(** ** Theorems *)

(** In the life of an order, however often it is retried, every business
    retry takes an order id never used before: the used ids are distinct and end
    with the current one, start with the first, and a retried order always names
    the first as the order it retries. A transport retry keeps the order id, the
    signed identity and the used ids. *)
Theorem order_life_spec first e (Hlife : order_life first e) :
  NoDup (en_used_order_ids e) ∧ head (en_used_order_ids e) = Some first ∧
  last (en_used_order_ids e) = Some (en_order_id e) ∧
  match en_retry_of_order_id e with
  | None => en_used_order_ids e = [first] ∧ en_order_id e = first
  | Some original => original = first ∧ en_order_id e ≠ first
  end ∧
  en_order_id (transport_retry e) = en_order_id e ∧
  en_identity (transport_retry e) = en_identity e ∧
  en_used_order_ids (transport_retry e) = en_used_order_ids e.
Proof.
  assert (NoDup (en_used_order_ids e) ∧ head (en_used_order_ids e) = Some first ∧
    last (en_used_order_ids e) = Some (en_order_id e) ∧
    match en_retry_of_order_id e with
    | None => en_used_order_ids e = [first] ∧ en_order_id e = first
    | Some original => original = first ∧ en_order_id e ≠ first
    end) as (?&?&?&?).
  { induction Hlife as [identity|e a _ IH|e _ IH|e i n identity e' _ IH Hr]; try done.
    - simpl. split_and!; try done. apply NoDup_singleton.
    - unfold business_retry in Hr. do 3 (case_bool_decide; simpl in Hr; [try done|try done]).
      injection Hr as <-. simpl. destruct IH as (Hnd & Hh & Hl & Hro).
      assert (first ∈ en_used_order_ids e) as Hin.
      { destruct (en_used_order_ids e); [done|]. simpl in Hh. set_solver. }
      split_and!.
      + apply NoDup_app. split_and!; [done|set_solver|apply NoDup_singleton].
      + by destruct (en_used_order_ids e).
      + apply last_snoc.
      + destruct (en_retry_of_order_id e); simpl; naive_solver.
      + set_solver. }
  done.
Qed.

(** The CTF tracker is consistent after any sequence of calls (fewer than
    2^64): a submitted or confirmed operation has its relayer transaction and
    nonce, a confirmed one its transaction hash, and looking a relayer transaction
    up yields exactly the one operation that carries it. *)
Theorem ctf_tracker_consistent steps (Hlen : Z.of_nat (length steps) < 2 ^ 64) :
  let t := ctf_run steps in
  (∀ i o, operations t !! i = Some o → op_wf o) ∧
  (∀ r o, operation_by_relayer_transaction_id t r = Some o ↔
     ∃ i, operations t !! i = Some o ∧ op_relayer_transaction_id o = Some r) ∧
  (∀ i j o1 o2 r, operations t !! i = Some o1 → operations t !! j = Some o2 →
     op_relayer_transaction_id o1 = Some r → op_relayer_transaction_id o2 = Some r → i = j).
Proof.
  intros t. destruct (ctf_run_wf steps Hlen) as [Hwf _]. fold t in Hwf. split_and!.
  - intros i o. apply (tw_ops t Hwf).
  - intros r o. unfold operation_by_relayer_transaction_id. split.
    + destruct (relayer_index t !! r) as [i|] eqn:E; simpl; [|done]. intros Ho.
      apply (tw_index t Hwf) in E as (o' & Ho' & Er). exists i. split; [done|congruence].
    + intros (i & Ho & Er). assert (relayer_index t !! r = Some i) as ->; [|done].
      apply (tw_index t Hwf). eauto.
  - intros i j o1 o2 r Hi Hj E1 E2.
    assert (relayer_index t !! r = Some i) by (apply (tw_index t Hwf); eauto).
    assert (relayer_index t !! r = Some j) by (apply (tw_index t Hwf); eauto). congruence.
Qed.

(** Once an operation left Planned, no call brings it back or touches its
    relayer transaction and nonce, and no call ever changes the kind or the
    condition of a recorded operation, or loses it. *)
Theorem ctf_metadata_frozen steps s i o
    (Hlen : Z.of_nat (length steps) < 2 ^ 64)
    (Hi : operations (ctf_run steps) !! i = Some o) :
  ∃ o', operations (ctf_step (ctf_run steps) s) !! i = Some o' ∧
    op_kind o' = op_kind o ∧ op_condition_id o' = op_condition_id o ∧
    (op_status o ≠ Planned →
     op_status o' ≠ Planned ∧ op_relayer_transaction_id o' = op_relayer_transaction_id o ∧
     op_nonce o' = op_nonce o).
Proof.
  destruct (ctf_run_wf steps Hlen) as [Hwf _]. set (t := ctf_run steps) in *.
  destruct s as [o1|j r n|j st h]; simpl.
  - assert (operations (record t o1).1 !! i = Some o) as ->; [|by (exists o; split_and!)].
    assert (next_operation_id t ≠ i) by (apply (tw_next t Hwf) in Hi; lia).
    unfold record. destruct (_ ← _; _); [|done].
    destruct (op_relayer_transaction_id o1); simpl; by rewrite lookup_insert_ne.
  - unfold attach_relayer_metadata. destruct (operations t !! j) as [oj|] eqn:Hj; [|by (exists o; split_and!)].
    destruct (check_attach t j oj r n) as [u|] eqn:Ec; [|by (exists o; split_and!)].
    apply check_attach_ok in Ec as (Hp & _ & _).
    destruct (decide (j = i)) as [->|Hne].
    + assert (oj = o) as -> by congruence.
      destruct r, n, (op_nonce o) eqn:En; simpl; rewrite ?En; simpl; rewrite lookup_insert_eq;
        eexists; (split; [done|]); simpl; done.
    + destruct r, n, (op_nonce oj) eqn:En; simpl; rewrite ?En; simpl;
        rewrite lookup_insert_ne by done; exists o; by split_and!.
  - unfold update_status. destruct (operations t !! j) as [oj|] eqn:Hj; [|by (exists o; split_and!)].
    destruct (validate_transition (op_status oj) st) eqn:Et; simpl; [|by (exists o; split_and!)].
    destruct (validate_operation_for_status _ _); simpl; [|by (exists o; split_and!)].
    destruct (decide (j = i)) as [->|Hne]; [|rewrite lookup_insert_ne by done; exists o; by split_and!].
    assert (oj = o) as -> by congruence. rewrite lookup_insert_eq. eexists. split; [done|].
    pose proof (validate_transition_ok _ _ _ Et) as Hst.
    destruct h; simpl; split_and!; try done; intros Hs; split_and!; try done; auto.
Qed.

(** ** Concrete runs *)

Definition demo_identity (nonce : string) : SignedOrderIdentity :=
  {| so_signed_order_hash := "hash"; so_salt := "1"; so_nonce := nonce; so_signature := "sig" |}.

Lemma order_life_spec_witness :
  ∃ e, order_life "order-1" e ∧ en_used_order_ids e = ["order-1"; "order-2"] ∧
    en_retry_of_order_id e = Some "order-1" ∧ NoDup (en_used_order_ids e).
Proof.
  eexists. assert (order_life "order-1"
    {| en_order_id := "order-2"; en_identity := demo_identity "2"; en_retry_kind := Business;
       en_retry_of_order_id := Some "order-1"; en_attempt_id := None;
       en_used_order_ids := ["order-1"; "order-2"] |}) as Hlife.
  { apply (life_business _ (envelope_new "order-1" (demo_identity "1")) "order-2" "2"
      (demo_identity "2")); [constructor|reflexivity]. }
  split; [exact Hlife|]. split; [reflexivity|]. split; [reflexivity|].
  apply (order_life_spec _ _ Hlife).
Defined.

Definition demo_ctf_steps : list CtfStep :=
  [StepRecord (ctf_operation_new Merge "condition-1" None None Planned);
   StepAttach 0 (Some "relayer-1") (Some "7");
   StepUpdate 0 Submitted None;
   StepUpdate 0 Confirmed (Some "0xabc")].

Lemma ctf_tracker_consistent_witness :
  ∃ o, operation_by_relayer_transaction_id (ctf_run demo_ctf_steps) "relayer-1" = Some o ∧
    op_status o = Confirmed ∧ is_Some (op_tx_hash o).
Proof.
  eexists. split; [vm_compute; reflexivity|]. split; [reflexivity|].
  pose proof (ctf_tracker_consistent demo_ctf_steps eq_refl) as (Hops & _).
  apply (Hops 0); vm_compute; reflexivity.
Defined.

Lemma ctf_metadata_frozen_witness :
  ∃ o, operations (ctf_step (ctf_run demo_ctf_steps) (StepAttach 0 (Some "relayer-2") None)) !! 0
         = Some o ∧ op_relayer_transaction_id o = Some "relayer-1".
Proof.
  edestruct (ctf_metadata_frozen demo_ctf_steps (StepAttach 0 (Some "relayer-2") None) 0)
    as (o' & Ho & _ & _ & Hf); [reflexivity|vm_compute; reflexivity|].
  exists o'. split; [exact Ho|]. by apply Hf.
Defined.
