(* ===== verification/Execution.v ===== *)
(** * Sinks and the orchestrator

    [execution/src/sink.rs], [providers.rs] and [orchestrator.rs]: the live and
    the shadow sink behind one interface, and the orchestrator that gates plans,
    numbers attempts and drives a sink. What a provider does outside the program
    is its effect on an abstract [World]. Instrumentation is left out: it reads
    the results and changes none. *)

From Stdlib Require Import Ascii.
From S2P Require Import Prelude Text RecordSet Externals Domain Plans.

Definition debug_signing_error (e : SigningError) : string :=
  match e with
  | UnsupportedPlan plan => "UnsupportedPlan { plan_id: " +:+ debug_str plan +:+ " }"
  | SignerFailure plan reason =>
      "SignerFailure { plan_id: " +:+ debug_str plan +:+ ", reason: " +:+ debug_str reason +:+ " }"
  end.

(** ** Errors *)

Inductive VenueSinkError :=
| SinkRejected (reason : string)
| ModeMismatch (sink : string) (expected actual : ExecutionMode).

Record SubmitProviderError := { spe_reason : string }.
Record SignedFamilyHookError := { she_reason : string }.

(** ** Interfaces *)

Section execution.
Context {X : Externals} {World : Type}.

(** [VenueSink]: what the orchestrator needs of a sink with state [S]. *)
Class VenueSink (S : Type) := {
  sink_kind : string;
  sink_execute : ExecutionPlan → ExecutionAttemptContext → S →
    S * result VenueSinkError ExecutionReceipt;
}.

(** A sink reports on the attempt it was given. *)
Class VenueSinkLaws (S : Type) `{!VenueSink S} : Prop :=
  sink_receipt_attempt plan attempt s s' r :
    sink_execute plan attempt s = (s', Ok r) → rc_attempt_id r = ac_attempt_id attempt.

(** The provider traits of [providers.rs], as records of operations. *)
Record SignerProvider := {
  sign_family : ExecutionPlan → World → World * result SigningError SignedFamilySubmission;
}.

Record VenueExecutionProvider := {
  submit_family : SignedFamilySubmission → ExecutionAttemptContext → World →
    World * result SubmitProviderError LiveSubmitOutcome;
}.

Record SignedFamilyHook := {
  on_signed_family : SignedFamilySubmission → ExecutionAttemptContext → World →
    World * result SignedFamilyHookError ();
}.

Record RouteExecutionAdapter := {
  adapter_route : string;
  submit_live : ExecutionPlan → ExecutionAttemptContext → World →
    World * result SubmitProviderError LiveSubmitOutcome;
}.

(** ** The neg-risk adapter *)

Definition debug_hook_error (e : SignedFamilyHookError) : string :=
  "SignedFamilyHookError { reason: " +:+ debug_str (she_reason e) +:+ " }".

Definition hook_submit_provider (hook : SignedFamilyHook) : VenueExecutionProvider :=
  {| submit_family signed attempt w :=
       match on_signed_family hook signed attempt w with
       | (w, Err err) =>
           (w, Err {| spe_reason := "signed-family hook error: " +:+ debug_hook_error err |})
       | (w, Ok _) =>
           (w, Ok (AcceptedButUnconfirmed None ("pending-hook:" +:+ ac_attempt_id attempt)))
       end |}.

Definition negrisk_submit_live (signer : option SignerProvider)
    (submit_provider : option VenueExecutionProvider) (plan : ExecutionPlan)
    (attempt : ExecutionAttemptContext) (w : World) :
    World * result SubmitProviderError LiveSubmitOutcome :=
  match signer with
  | None => (w, Err {| spe_reason := "missing signer provider for neg-risk" |})
  | Some signer =>
      match submit_provider with
      | None => (w, Err {| spe_reason := "missing submit provider for neg-risk" |})
      | Some provider =>
          match sign_family signer plan w with
          | (w, Err err) =>
              (w, Err {| spe_reason := "signing error: " +:+ debug_signing_error err |})
          | (w, Ok signed) => submit_family provider signed attempt w
          end
      end
  end.

Definition negrisk_adapter (signer : option SignerProvider)
    (submit_provider : option VenueExecutionProvider) : RouteExecutionAdapter :=
  {| adapter_route := "neg-risk"; submit_live := negrisk_submit_live signer submit_provider |}.

(** ** The live sink *)

Definition LiveVenueSink : Type := gmap string RouteExecutionAdapter.

Definition live_noop : LiveVenueSink := ∅.

Definition register_route_execution_adapter (adapters : LiveVenueSink)
    (a : RouteExecutionAdapter) : LiveVenueSink :=
  <[adapter_route a := a]> adapters.

Definition live_with_submit_provider (signer : SignerProvider)
    (provider : VenueExecutionProvider) : LiveVenueSink :=
  register_route_execution_adapter live_noop (negrisk_adapter (Some signer) (Some provider)).

Definition live_with_order_signer (signer : SignerProvider) : LiveVenueSink :=
  register_route_execution_adapter live_noop (negrisk_adapter (Some signer) None).

Definition live_with_order_signer_and_hook (signer : SignerProvider) (hook : SignedFamilyHook) :
    LiveVenueSink :=
  live_with_submit_provider signer (hook_submit_provider hook).

Definition ensure_sink_mode (sink : string) (expected actual : ExecutionMode) :
    result VenueSinkError () :=
  if bool_decide (actual = expected) then Ok () else Err (ModeMismatch sink expected actual).

Definition ensure_live_sink_mode (plan : ExecutionPlan) (actual : ExecutionMode) :
    result VenueSinkError () :=
  match actual with
  | Live | RecoveryOnly => Ok ()
  | ReduceOnly =>
      if is_risk_expanding plan then Err (ModeMismatch "live" Live actual) else Ok ()
  | _ => Err (ModeMismatch "live" Live actual)
  end.

Definition tap_if_some (r : ExecutionReceipt) (submission_ref : option string) :
    ExecutionReceipt :=
  match submission_ref with
  | Some s => with_submission_ref r s
  | None => r
  end.

Definition receipt_from_live_submit_outcome (attempt : ExecutionAttemptContext)
    (o : LiveSubmitOutcome) : ExecutionReceipt :=
  match o with
  | Accepted record =>
      with_submission_ref (receipt_new (ac_attempt_id attempt) Succeeded)
        (ls_submission_ref record)
  | AcceptedButUnconfirmed record pending_ref =>
      tap_if_some (with_pending_ref (receipt_new (ac_attempt_id attempt) Succeeded) pending_ref)
        (ls_submission_ref <$> record)
  | RejectedDefinitive _ => receipt_new (ac_attempt_id attempt) FailedDefinitive
  | Ambiguous pending_ref _ =>
      with_pending_ref (receipt_new (ac_attempt_id attempt) FailedAmbiguousOutcome) pending_ref
  end.

Definition live_execute (adapters : LiveVenueSink) (plan : ExecutionPlan)
    (attempt : ExecutionAttemptContext) (w : World) :
    World * result VenueSinkError ExecutionReceipt :=
  match ensure_live_sink_mode plan (ac_execution_mode attempt) with
  | Err e => (w, Err e)
  | Ok _ =>
      if is_risk_expanding plan then
        let route := default (ac_route attempt) (plan_route plan) in
        match adapters !! route with
        | None =>
            (w, Err (SinkRejected ("missing live execution adapter for route " +:+ route)))
        | Some adapter =>
            match submit_live adapter plan attempt w with
            | (w, Err err) =>
                (w, Err (SinkRejected ("route execution adapter error: " +:+ spe_reason err)))
            | (w, Ok live_outcome) =>
                (w, Ok (receipt_from_live_submit_outcome attempt live_outcome))
            end
        end
      else (w, Ok (receipt_new (ac_attempt_id attempt) Succeeded))
  end.

(** A live sink with the adapters it was built with. *)
Definition live_venue_sink (adapters : LiveVenueSink) : VenueSink World :=
  {| sink_kind := "live"; sink_execute := live_execute adapters |}.

(** ** The shadow sink

    Its state is the list of recorded attempt ids. *)
Definition ShadowVenueSink : Type := list string.

Definition shadow_execute (plan : ExecutionPlan) (attempt : ExecutionAttemptContext)
    (recorded_attempt_ids : ShadowVenueSink) :
    ShadowVenueSink * result VenueSinkError ExecutionReceipt :=
  match ensure_sink_mode "shadow" Shadow (ac_execution_mode attempt) with
  | Err e => (recorded_attempt_ids, Err e)
  | Ok _ =>
      (recorded_attempt_ids ++ [ac_attempt_id attempt],
       Ok (receipt_new (ac_attempt_id attempt) ShadowRecorded))
  end.

#[export] Instance shadow_venue_sink : VenueSink ShadowVenueSink :=
  {| sink_kind := "shadow"; sink_execute := shadow_execute |}.

(** ** The orchestrator *)

Record ExecutionPlanningInput := {
  pi_request : ExecutionRequest;
  pi_execution_mode : ExecutionMode;
  pi_plan : ExecutionPlan;
}.

Inductive ExecutionError :=
| ModeViolation (execution_mode : ExecutionMode) (plan : ExecutionPlan)
| SinkFailure (error : VenueSinkError).

Record ExecutionAttemptRecord := {
  ar_attempt : ExecutionAttempt;
  ar_attempt_context : ExecutionAttemptContext;
  ar_receipt : ExecutionReceipt;
}.

Definition orchestrator_plan (input : ExecutionPlanningInput) :
    result ExecutionError ExecutionPlan :=
  if negb (bool_decide (pi_execution_mode input = er_activation_mode (pi_request input))) then
    Err (ModeViolation (er_activation_mode (pi_request input)) (pi_plan input))
  else if bool_decide (er_activation_mode (pi_request input) = ReduceOnly) &&
          is_risk_expanding (pi_plan input) then
    Err (ModeViolation (er_activation_mode (pi_request input)) (pi_plan input))
  else Ok (pi_plan input).

Section orchestrator.
Context {S : Type} `{!VenueSink S}.

Record ExecutionOrchestrator := {
  orch_sink : S;
  orch_attempt_factory : ExecutionAttemptFactory;
}.

Definition execute_with_attempt (o : ExecutionOrchestrator) (input : ExecutionPlanningInput) :
    ExecutionOrchestrator * result ExecutionError ExecutionAttemptRecord :=
  match orchestrator_plan input with
  | Err e => (o, Err e)
  | Ok plan =>
      let '(factory, (attempt, attempt_context)) :=
        next_for_plan (orch_attempt_factory o) plan (pi_request input) (pi_execution_mode input) in
      let '(sink, r) := sink_execute plan attempt_context (orch_sink o) in
      ({| orch_sink := sink; orch_attempt_factory := factory |},
       match r with
       | Err error => Err (SinkFailure error)
       | Ok receipt =>
           Ok {| ar_attempt := attempt; ar_attempt_context := attempt_context;
                 ar_receipt := receipt |}
       end)
  end.

Definition execute (o : ExecutionOrchestrator) (input : ExecutionPlanningInput) :
    ExecutionOrchestrator * result ExecutionError ExecutionReceipt :=
  let '(o, r) := execute_with_attempt o input in
  (o, record ← r; Ok (ar_receipt record)).

Fixpoint execute_all (o : ExecutionOrchestrator) (inputs : list ExecutionPlanningInput) :
    ExecutionOrchestrator * list (result ExecutionError ExecutionAttemptRecord) :=
  match inputs with
  | [] => (o, [])
  | input :: inputs' =>
      let '(o, r) := execute_with_attempt o input in
      let '(o, rs) := execute_all o inputs' in
      (o, r :: rs)
  end.

(** *** What the gate lets through *)

Definition gate_open (input : ExecutionPlanningInput) : Prop :=
  pi_execution_mode input = er_activation_mode (pi_request input) ∧
  ¬ (er_activation_mode (pi_request input) = ReduceOnly ∧ is_risk_expanding (pi_plan input) = true).

Lemma orchestrator_plan_cases input :
  gate_open input ∧ orchestrator_plan input = Ok (pi_plan input) ∨
  ¬ gate_open input ∧ orchestrator_plan input =
    Err (ModeViolation (er_activation_mode (pi_request input)) (pi_plan input)).
Proof.
  unfold orchestrator_plan, gate_open. case_bool_decide; simpl; [|right; tauto].
  case_bool_decide; simpl; [|left; tauto].
  destruct (is_risk_expanding (pi_plan input)); [right|left]; intuition congruence.
Qed.

End orchestrator.

(** *** Both sinks keep the promise *)

Lemma receipt_from_outcome_attempt attempt o :
  rc_attempt_id (receipt_from_live_submit_outcome attempt o) = ac_attempt_id attempt.
Proof. by destruct o as [| |[]|]. Qed.

Lemma live_execute_cases adapters plan attempt w :
  (∃ e, live_execute adapters plan attempt w = (w, Err e)) ∨
  (is_risk_expanding plan = false ∧
   live_execute adapters plan attempt w =
     (w, Ok (receipt_new (ac_attempt_id attempt) Succeeded))) ∨
  (is_risk_expanding plan = true ∧
   (ac_execution_mode attempt = Live ∨ ac_execution_mode attempt = RecoveryOnly) ∧
   ∃ adapter w' r, adapters !! default (ac_route attempt) (plan_route plan) = Some adapter ∧
     submit_live adapter plan attempt w = (w', r) ∧
     live_execute adapters plan attempt w =
       (w', match r with
            | Ok o => Ok (receipt_from_live_submit_outcome attempt o)
            | Err err =>
                Err (SinkRejected ("route execution adapter error: " +:+ spe_reason err))
            end)).
Proof.
  unfold live_execute.
  destruct (ensure_live_sink_mode _ _) as [u|e] eqn:Em; [|left; eauto].
  destruct (is_risk_expanding plan) eqn:Ex; [|by right; left].
  destruct (adapters !! _) as [a|] eqn:Ea; [|left; eauto]. right; right.
  split; [done|]. split.
  - unfold ensure_live_sink_mode in Em. rewrite Ex in Em.
    destruct (ac_execution_mode attempt); try done; auto.
  - destruct (submit_live a plan attempt w) as [w' r] eqn:Es. exists a, w', r.
    split; [done|]. split; [done|]. by destruct r.
Qed.

Lemma live_sink_laws adapters : VenueSinkLaws (VenueSink0 := live_venue_sink adapters) World.
Proof.
  intros plan attempt w w' r. simpl.
  destruct (live_execute_cases adapters plan attempt w)
    as [[e ->]|[[_ ->]|(_ & _ & a & w2 & r2 & _ & _ & ->)]]; intros [= _ E]; try done.
  - by subst.
  - destruct r2; [|done]. injection E as <-. apply receipt_from_outcome_attempt.
Qed.

Lemma shadow_sink_laws : VenueSinkLaws ShadowVenueSink.
Proof.
  intros plan attempt s s' r. simpl. unfold shadow_execute.
  destruct (ensure_sink_mode _ _ _); [|done]. by intros [= _ <-].
Qed.

(** On the live sink the outside world moves only through a registered
    adapter, for a risk expanding plan, in the Live or RecoveryOnly mode that the
    request was activated with: in every other case (another mode, a plan that
    does not expand risk, no adapter for the route, a refused request) executing
    leaves the world as it was. *)
Theorem live_execution_is_gated adapters (o : @ExecutionOrchestrator World) input :
  let '(o', r) := execute_with_attempt (VenueSink0 := live_venue_sink adapters) o input in
  orch_sink o' = orch_sink o ∨
  (is_risk_expanding (pi_plan input) = true ∧
   pi_execution_mode input = er_activation_mode (pi_request input) ∧
   (er_activation_mode (pi_request input) = Live ∨
    er_activation_mode (pi_request input) = RecoveryOnly) ∧
   ∃ adapter context,
     adapters !! default (er_route (pi_request input)) (plan_route (pi_plan input))
       = Some adapter ∧
     ac_execution_mode context = er_activation_mode (pi_request input) ∧
     orch_sink o' = (submit_live adapter (pi_plan input) context (orch_sink o)).1).
Proof.
  unfold execute_with_attempt.
  destruct (orchestrator_plan_cases input) as [[Hg ->]|[Hg ->]]; cbv beta iota; [|by left].
  unfold next_for_plan. cbv zeta beta iota. destruct Hg as [Hm _].
  set (ctx := Build_ExecutionAttemptContext _ _ _ _ _ _).
  destruct (live_execute_cases adapters (pi_plan input) ctx (orch_sink o))
    as [[e E]|[[_ E]|(Hx & Hmode & a & w' & r & Ha & Hs & E)]];
    cbn [sink_execute live_venue_sink]; rewrite E; [by left..|].
  right. split; [done|]. split; [done|].
  cbn [ac_execution_mode ac_route ctx] in Hmode, Ha. rewrite Hm in Hmode. split; [done|].
  exists a, ctx. split; [done|]. split; [done|]. by rewrite Hs.
Qed.

(** A live receipt reflects what the venue said: for a risk expanding plan a
    pending reference is on the receipt exactly when the submission was accepted
    without confirmation or is ambiguous, and it is the one the venue gave; the
    attempt counts as succeeded exactly when the venue accepted it, as failed
    definitively when it was rejected, and as ambiguous otherwise. *)
Theorem live_receipt_reflects_outcome adapters plan attempt w w' r :
  live_execute adapters plan attempt w = (w', Ok r) →
  is_risk_expanding plan = true →
  ∃ adapter o, adapters !! default (ac_route attempt) (plan_route plan) = Some adapter ∧
    submit_live adapter plan attempt w = (w', Ok o) ∧
    (∀ p, rc_pending_ref r = Some p ↔
       (∃ record, o = AcceptedButUnconfirmed record p) ∨ (∃ reason, o = Ambiguous p reason)) ∧
    (rc_outcome r = Succeeded ↔ is_accepted o = true) ∧
    (rc_outcome r = FailedDefinitive ↔ ∃ reason, o = RejectedDefinitive reason) ∧
    (rc_outcome r = FailedAmbiguousOutcome ↔ is_ambiguous o = true) ∧
    (∀ s, rc_submission_ref r = Some s ↔
       ∃ record, ls_submission_ref record = s ∧
         (o = Accepted record ∨ ∃ p, o = AcceptedButUnconfirmed (Some record) p)).
Proof.
  intros E Hx. destruct (live_execute_cases adapters plan attempt w)
    as [[e E']|[[Hn _]|(_ & _ & a & w2 & r2 & Ha & Hs & E')]]; [congruence|congruence|].
  rewrite E' in E. destruct r2 as [out|]; [|done]. injection E as <- <-.
  exists a, out. split; [done|]. split; [done|].
  destruct out as [rec|reason|[rec|] p|p reason]; simpl; split_and!; try done; naive_solver.
Qed.

(** Shadow execution never submits: over any sequence of requests on a shadow
    sink, the sink gains exactly the attempt ids of the successful ones, in
    order, each of these was activated in Shadow mode, and its receipt says
    shadow recorded and carries no reference to a submission or to pending
    work. *)
Theorem shadow_only_records inputs (o : @ExecutionOrchestrator ShadowVenueSink) :
  let '(o', rs) := execute_all o inputs in
  orch_sink o' = orch_sink o ++
    omap (λ r, match r with
               | Ok record => Some (ea_attempt_id (ar_attempt record))
               | Err _ => None
               end) rs ∧
  Forall (λ r, ∀ record, r = Ok record →
    ac_execution_mode (ar_attempt_context record) = Shadow ∧
    ar_receipt record = receipt_new (ea_attempt_id (ar_attempt record)) ShadowRecorded) rs.
Proof.
  revert o. induction inputs as [|input inputs IH]; intros o; simpl.
  { split; [by rewrite app_nil_r|constructor]. }
  destruct (execute_with_attempt o input) as [o1 r] eqn:E.
  specialize (IH o1). destruct (execute_all o1 inputs) as [o2 rs]. destruct IH as [-> Hrs].
  unfold execute_with_attempt in E.
  destruct (orchestrator_plan_cases input) as [[[Hm _] Ho]|[_ Ho]]; rewrite Ho in E.
  2:{ injection E as <- <-. simpl. split; [done|]. by constructor. }
  unfold next_for_plan in E. simpl in E. unfold shadow_execute, ensure_sink_mode in E.
  simpl in E. case_bool_decide as Hs; injection E as <- <-; simpl.
  - split; [by rewrite <- (assoc_L app)|]. constructor; [|done]. by intros rec [= <-].
  - split; [done|]. by constructor.
Qed.

End execution.

(** ** Concrete runs

    A venue whose world is the list of attempts submitted to it. *)

Definition demo_venue : @RouteExecutionAdapter Micros (list string) :=
  {| adapter_route := "neg-risk";
     submit_live _ attempt w :=
       (w ++ [ac_attempt_id attempt],
        Ok (AcceptedButUnconfirmed None ("pending:" +:+ ac_attempt_id attempt))) |}.

Definition demo_input (mode : ExecutionMode) : @ExecutionPlanningInput Micros :=
  {| pi_request :=
       {| er_request_id := "r:1"; er_decision_input_id := "input-1"; er_snapshot_id := "snapshot-7";
          er_route := "neg-risk"; er_scope := "family-1"; er_activation_mode := mode;
          er_matched_rule_id := None |};
     pi_execution_mode := mode; pi_plan := demo_family_plan |}.


Lemma live_receipt_reflects_outcome_witness :
  let attempt := (next_for_plan factory_new demo_family_plan (demo_request "r:1") Live).2.2 in
  ∃ w' r, live_execute {[ "neg-risk" := demo_venue ]} demo_family_plan attempt [] = (w', Ok r) ∧
    (rc_outcome r = Succeeded ↔ true = true).
Proof.
  intros attempt.
  assert (live_execute {[ "neg-risk" := demo_venue ]} demo_family_plan attempt [] =
    ([ac_attempt_id attempt],
     Ok (receipt_from_live_submit_outcome attempt
           (AcceptedButUnconfirmed None ("pending:" +:+ ac_attempt_id attempt))))) as E.
  { reflexivity. }
  eexists _, _. split; [exact E|].
  destruct (live_receipt_reflects_outcome _ _ _ _ _ _ E eq_refl)
    as (a & o & Ha & Hs & _ & Ho & _).
  change (Some demo_venue = Some a) in Ha. injection Ha as <-.
  simpl in Hs. injection Hs as <-. exact Ho.
Defined.

Lemma shadow_only_records_witness :
  let o := {| orch_sink := [] : ShadowVenueSink; orch_attempt_factory := factory_new |} in
  let inputs := [demo_input Shadow; demo_input Live; demo_input Shadow] in
  orch_sink (execute_all o inputs).1 =
  omap (λ r, match r with
             | Ok record => Some (ea_attempt_id (ar_attempt record))
             | Err _ => None
             end) (execute_all o inputs).2.
Proof.
  intros o inputs. pose proof (shadow_only_records inputs o) as Hs.
  destruct (execute_all o inputs) as [o' rs]. exact (proj1 Hs).
Defined.
