(* ===== verification/Dispatch.v ===== *)
(** * Dispatch

    [app-live/src/dispatch.rs] and [queues.rs]: the loop that coalesces dirty
    domains until a ready snapshot covers them, and the queues that feed it. The
    loop refines a specification with two dirty versions and two ready
    snapshots. *)

From S2P Require Import Prelude RecordSet Externals Domain RuntimeMode Facts Store Snapshot.

(** ** queues.rs: domains and notices *)

Definition fullset_domains : gset DirtyDomain :=
  dirty_set_new [Runtime; Orders; Inventory; Approvals; Resolution; Relayer].
Definition negrisk_domains : gset DirtyDomain := dirty_set_new [NegRiskFamilies].
Definition is_fullset_domain (d : DirtyDomain) : bool := bool_decide (d ∈ fullset_domains).

Record SnapshotNotice := {
  sn_snapshot_id : string;
  sn_state_version : Z;
  sn_dirty_domains : gset DirtyDomain;
  sn_fullset_ready : bool;
  sn_negrisk_ready : bool;
}.

Definition notice_new (snapshot_id : string) (version : Z) (domains : list DirtyDomain) :
    SnapshotNotice :=
  {| sn_snapshot_id := snapshot_id; sn_state_version := version;
     sn_dirty_domains := list_to_set domains; sn_fullset_ready := false;
     sn_negrisk_ready := false |}.

Definition with_projection_readiness (n : SnapshotNotice) (fullset negrisk : bool) :
    SnapshotNotice :=
  {| sn_snapshot_id := sn_snapshot_id n; sn_state_version := sn_state_version n;
     sn_dirty_domains := sn_dirty_domains n; sn_fullset_ready := fullset;
     sn_negrisk_ready := negrisk |}.

(** [any(is_fullset_domain)] and [contains(&NegRiskFamilies)] *)
Definition touches_fullset (ds : gset DirtyDomain) : bool :=
  existsb is_fullset_domain (elements ds).
Definition touches_negrisk (ds : gset DirtyDomain) : bool := bool_decide (NegRiskFamilies ∈ ds).

(** [max_by_key]: the last of the greatest. *)
Definition max_by_key {A} (key : A → Z) (l : list A) : option A :=
  foldl (λ best x, match best with
                   | Some b => if bool_decide (key b <= key x) then Some x else Some b
                   | None => Some x
                   end) None l.

Definition queue_coalesced (notices : list SnapshotNotice) : list SnapshotNotice :=
  let latest_fullset :=
    max_by_key sn_state_version
      (filter (λ n, touches_fullset (sn_dirty_domains n) = true) notices) in
  let latest_negrisk :=
    max_by_key sn_state_version
      (filter (λ n, touches_negrisk (sn_dirty_domains n) = true) notices) in
  btree_values Z.compare
    (collect_map ((λ n, (sn_state_version n, n)) <$>
       (option_list latest_fullset ++ option_list latest_negrisk))).

(** ** dispatch.rs *)

Record DirtyRecord := {
  dr_state_version : Z;
  dr_domains : gset DirtyDomain;
}.

Record DispatchSummary := {
  dm_coalesced_versions : list Z;
  dm_last_stable_snapshot_id : option string;
  dm_last_stable_state_version : option Z;
  dm_fullset_last_ready_snapshot_id : option string;
  dm_fullset_last_ready_state_version : option Z;
  dm_negrisk_last_ready_snapshot_id : option string;
  dm_negrisk_last_ready_state_version : option Z;
}.

Record DispatchLoop := {
  dl_latest_ready_fullset : option PublishedSnapshot;
  dl_latest_ready_negrisk : option PublishedSnapshot;
  dl_dirty_records : list DirtyRecord;
}.

#[export] Instance DispatchLoop_eta : Eta DispatchLoop := λ l,
  {| dl_latest_ready_fullset := dl_latest_ready_fullset l;
     dl_latest_ready_negrisk := dl_latest_ready_negrisk l;
     dl_dirty_records := dl_dirty_records l |}.

Definition dispatch_default : DispatchLoop :=
  {| dl_latest_ready_fullset := None; dl_latest_ready_negrisk := None; dl_dirty_records := [] |}.

Definition record_apply (l : DispatchLoop) (version : Z) (dirty : gset DirtyDomain) :
    DispatchLoop :=
  l <| dl_dirty_records ::= λ rs, rs ++ [{| dr_state_version := version; dr_domains := dirty |}] |>.

Definition clear_record (up_to : Z) (cleared : gset DirtyDomain) (r : DirtyRecord) : DirtyRecord :=
  if bool_decide (dr_state_version r <= up_to) then
    {| dr_state_version := dr_state_version r; dr_domains := dr_domains r ∖ cleared |}
  else r.

Definition clear_dirty_domains (l : DispatchLoop) (up_to : Z) (cleared : gset DirtyDomain) :
    DispatchLoop :=
  l <| dl_dirty_records ::= λ rs,
         filter (λ r, dr_domains r ≠ ∅) (clear_record up_to cleared <$> rs) |>.

Definition observe_snapshot (l : DispatchLoop) (s : PublishedSnapshot) : DispatchLoop :=
  let l :=
    if ps_fullset_ready s then
      clear_dirty_domains (l <| dl_latest_ready_fullset := Some s |>) (ps_state_version s)
        fullset_domains
    else l in
  if ps_negrisk_ready s then
    clear_dirty_domains (l <| dl_latest_ready_negrisk := Some s |>) (ps_state_version s)
      negrisk_domains
  else l.

(** [filter(..).map(state_version).max()]: the newest version among the records
    that touch a projection. *)
Definition dirty_at (touches : gset DirtyDomain → bool) (rs : list DirtyRecord) : option Z :=
  max_list (dr_state_version <$> filter (λ r, touches (dr_domains r) = true) rs).

(** [coalesced.entry(v).or_default().extend(ds)] *)
Definition extend_entry (m : gmap Z (gset DirtyDomain)) (v : Z) (ds : gset DirtyDomain) :
    gmap Z (gset DirtyDomain) :=
  <[v := default ∅ (m !! v) ∪ ds]> m.

Definition dirty_record_of (e : Z * gset DirtyDomain) : DirtyRecord :=
  {| dr_state_version := e.1; dr_domains := e.2 |}.

Definition coalesced_dirty_records (l : DispatchLoop) : list DirtyRecord :=
  let latest_fullset_dirty := dirty_at touches_fullset (dl_dirty_records l) in
  let latest_negrisk_dirty := dirty_at touches_negrisk (dl_dirty_records l) in
  let coalesced :=
    match latest_fullset_dirty with
    | Some v => extend_entry ∅ v fullset_domains
    | None => ∅
    end in
  let coalesced :=
    match latest_negrisk_dirty with
    | Some v => extend_entry coalesced v {[ NegRiskFamilies ]}
    | None => coalesced
    end in
  dirty_record_of <$> btree_entries Z.compare coalesced.

Definition coalesce_dirty_records (l : DispatchLoop) : DispatchLoop :=
  l <| dl_dirty_records := coalesced_dirty_records l |>.

Definition pending_backlog_count (l : DispatchLoop) : nat := length (coalesced_dirty_records l).

Definition last_stable_state_version (fullset negrisk : option PublishedSnapshot) : option Z :=
  match fullset, negrisk with
  | Some f, Some n => Some (Z.min (ps_state_version f) (ps_state_version n))
  | _, _ => None
  end.

Definition at_version (v : Z) (s : option PublishedSnapshot) : option PublishedSnapshot :=
  s ← s; if bool_decide (ps_state_version s = v) then Some s else None.

Definition summary_of (versions : list Z) (fullset negrisk : option PublishedSnapshot) :
    DispatchSummary :=
  let stable := last_stable_state_version fullset negrisk in
  {| dm_coalesced_versions := versions;
     dm_last_stable_snapshot_id :=
       v ← stable;
       ps_snapshot_id <$>
         match at_version v fullset with Some s => Some s | None => at_version v negrisk end;
     dm_last_stable_state_version := stable;
     dm_fullset_last_ready_snapshot_id := ps_snapshot_id <$> fullset;
     dm_fullset_last_ready_state_version := ps_state_version <$> fullset;
     dm_negrisk_last_ready_snapshot_id := ps_snapshot_id <$> negrisk;
     dm_negrisk_last_ready_state_version := ps_state_version <$> negrisk |}.

Definition flush (l : DispatchLoop) : DispatchLoop * DispatchSummary :=
  let l := coalesce_dirty_records l in
  (l, summary_of (dr_state_version <$> dl_dirty_records l)
        (dl_latest_ready_fullset l) (dl_latest_ready_negrisk l)).

(** [notice.state_version as i64] *)
Definition observe_notice (l : DispatchLoop) (n : SnapshotNotice) : DispatchLoop :=
  observe_snapshot (record_apply l (sn_state_version n) (sn_dirty_domains n))
    {| ps_snapshot_id := sn_snapshot_id n;
       ps_state_version := sn_state_version n;
       ps_committed_journal_seq := u64_as_i64 (sn_state_version n);
       ps_fullset_ready := sn_fullset_ready n;
       ps_negrisk_ready := sn_negrisk_ready n;
       ps_fullset :=
         if sn_fullset_ready n then
           Some {| fv_snapshot_id := sn_snapshot_id n; fv_state_version := sn_state_version n;
                   fv_open_orders := [] |}
         else None;
       ps_negrisk :=
         if sn_negrisk_ready n then
           Some {| nv_snapshot_id := sn_snapshot_id n; nv_state_version := sn_state_version n;
                   nv_families := [] |}
         else None |}.

Definition all_domains : list DirtyDomain := elements (fullset_domains ∪ negrisk_domains).

(** [push_test_snapshot], the one caller of which is the supervisor's
    [push_dirty_snapshot]. *)
Definition push_test_snapshot (l : DispatchLoop) (version : Z) (fullset_ready negrisk_ready : bool) :
    DispatchLoop :=
  observe_notice l
    (with_projection_readiness (notice_new ("snapshot-" +:+ pretty version) version all_domains)
       fullset_ready negrisk_ready).

Inductive DispatchOp :=
| OpApplied (version : Z) (dirty : gset DirtyDomain)
| OpSnapshot (s : PublishedSnapshot)
| OpFlush.

Definition dispatch_op (l : DispatchLoop) (op : DispatchOp) : DispatchLoop * option DispatchSummary :=
  match op with
  | OpApplied v ds => (record_apply l v ds, None)
  | OpSnapshot s => (observe_snapshot l s, None)
  | OpFlush => let '(l, s) := flush l in (l, Some s)
  end.

Fixpoint dispatch_run (l : DispatchLoop) (ops : list DispatchOp) :
    DispatchLoop * list (option DispatchSummary) :=
  match ops with
  | [] => (l, [])
  | op :: ops' =>
      let '(l, o) := dispatch_op l op in
      let '(l, os) := dispatch_run l ops' in
      (l, o :: os)
  end.

(** ** The specification

    For each of the two projections: the newest version at which it is dirty and
    not yet covered by a ready snapshot, and the last ready snapshot. *)
Record DispatchSpec := {
  sp_fullset_dirty : option Z;
  sp_negrisk_dirty : option Z;
  sp_fullset_ready : option PublishedSnapshot;
  sp_negrisk_ready : option PublishedSnapshot;
}.

Definition newer (dirty : option Z) (version : Z) : option Z :=
  Some (match dirty with Some v => Z.max v version | None => version end).

Definition uncovered (dirty : option Z) (version : Z) : option Z :=
  v ← dirty; if bool_decide (v <= version) then None else Some v.

Definition spec_versions (sp : DispatchSpec) : list Z :=
  match sp_fullset_dirty sp, sp_negrisk_dirty sp with
  | Some a, Some b =>
      if bool_decide (a = b) then [a] else if bool_decide (a < b) then [a; b] else [b; a]
  | Some a, None => [a]
  | None, Some b => [b]
  | None, None => []
  end.

Definition spec_op (sp : DispatchSpec) (op : DispatchOp) : DispatchSpec * option DispatchSummary :=
  match op with
  | OpApplied v ds =>
      ({| sp_fullset_dirty :=
            if touches_fullset ds then newer (sp_fullset_dirty sp) v else sp_fullset_dirty sp;
          sp_negrisk_dirty :=
            if touches_negrisk ds then newer (sp_negrisk_dirty sp) v else sp_negrisk_dirty sp;
          sp_fullset_ready := sp_fullset_ready sp; sp_negrisk_ready := sp_negrisk_ready sp |}, None)
  | OpSnapshot s =>
      ({| sp_fullset_dirty :=
            if ps_fullset_ready s then uncovered (sp_fullset_dirty sp) (ps_state_version s)
            else sp_fullset_dirty sp;
          sp_negrisk_dirty :=
            if ps_negrisk_ready s then uncovered (sp_negrisk_dirty sp) (ps_state_version s)
            else sp_negrisk_dirty sp;
          sp_fullset_ready := if ps_fullset_ready s then Some s else sp_fullset_ready sp;
          sp_negrisk_ready := if ps_negrisk_ready s then Some s else sp_negrisk_ready sp |}, None)
  | OpFlush =>
      (sp, Some (summary_of (spec_versions sp) (sp_fullset_ready sp) (sp_negrisk_ready sp)))
  end.

Fixpoint spec_run (sp : DispatchSpec) (ops : list DispatchOp) :
    DispatchSpec * list (option DispatchSummary) :=
  match ops with
  | [] => (sp, [])
  | op :: ops' =>
      let '(sp, o) := spec_op sp op in
      let '(sp, os) := spec_run sp ops' in
      (sp, o :: os)
  end.

Definition spec_default : DispatchSpec :=
  {| sp_fullset_dirty := None; sp_negrisk_dirty := None; sp_fullset_ready := None;
     sp_negrisk_ready := None |}.

Definition spec_of (l : DispatchLoop) : DispatchSpec :=
  {| sp_fullset_dirty := dirty_at touches_fullset (dl_dirty_records l);
     sp_negrisk_dirty := dirty_at touches_negrisk (dl_dirty_records l);
     sp_fullset_ready := dl_latest_ready_fullset l;
     sp_negrisk_ready := dl_latest_ready_negrisk l |}.

(** ** Lemmas *)

Lemma newer_comm d v : newer d v = Some (match d with Some w => Z.max v w | None => v end).
Proof. destruct d; simpl; unfold newer; f_equal; lia. Qed.

Lemma dirty_at_cons touches r rs :
  dirty_at touches (r :: rs) =
  if touches (dr_domains r) then newer (dirty_at touches rs) (dr_state_version r)
  else dirty_at touches rs.
Proof.
  unfold dirty_at. rewrite filter_cons.
  destruct (touches (dr_domains r)) eqn:E; [rewrite decide_True by done|by rewrite decide_False].
  by rewrite newer_comm.
Qed.

Lemma dirty_at_app touches rs1 rs2 :
  dirty_at touches (rs1 ++ rs2) =
  match dirty_at touches rs1, dirty_at touches rs2 with
  | Some a, Some b => Some (Z.max a b)
  | Some a, None => Some a
  | None, o => o
  end.
Proof. unfold dirty_at. by rewrite filter_app, fmap_app, max_list_app. Qed.

Lemma uncovered_newer d v u :
  uncovered (newer d v) u =
  if bool_decide (v <= u) then uncovered d u else newer (uncovered d u) v.
Proof.
  unfold uncovered, newer. destruct d as [w|]; simpl; repeat case_bool_decide; f_equal; lia.
Qed.

Definition clear_records (up_to : Z) (cleared : gset DirtyDomain) (rs : list DirtyRecord) :=
  filter (λ r, dr_domains r ≠ ∅) (clear_record up_to cleared <$> rs).

(** Clearing the domains a projection consists of covers its dirty versions. *)
Lemma dirty_at_cleared touches up_to cleared rs :
  (∀ ds, touches (ds ∖ cleared) = false) → touches ∅ = false →
  dirty_at touches (clear_records up_to cleared rs) = uncovered (dirty_at touches rs) up_to.
Proof.
  intros Hc He. unfold clear_records. induction rs as [|r rs IH]; [done|].
  rewrite fmap_cons, filter_cons, (dirty_at_cons touches r rs).
  destruct (decide (dr_state_version r <= up_to)) as [Hle|Hle].
  - assert (touches (dr_domains (clear_record up_to cleared r)) = false) as Hr.
    { unfold clear_record. rewrite bool_decide_eq_true_2 by done. apply Hc. }
    transitivity (uncovered (dirty_at touches rs) up_to).
    + case_decide; [|done]. by rewrite dirty_at_cons, Hr.
    + destruct (touches (dr_domains r)); [|done]. by rewrite uncovered_newer, bool_decide_eq_true_2.
  - assert (clear_record up_to cleared r = r) as ->.
    { unfold clear_record. by rewrite bool_decide_eq_false_2. }
    case_decide as Hd; [rewrite dirty_at_cons, IH|].
    + destruct (touches (dr_domains r)); [|done].
      by rewrite uncovered_newer, bool_decide_eq_false_2.
    + destruct (decide (dr_domains r = ∅)) as [E|]; [by rewrite E, He|done].
Qed.

(** Clearing other domains leaves them alone. *)
Lemma dirty_at_kept touches up_to cleared rs :
  (∀ ds, touches (ds ∖ cleared) = touches ds) → touches ∅ = false →
  dirty_at touches (clear_records up_to cleared rs) = dirty_at touches rs.
Proof.
  intros Hc He. unfold clear_records. induction rs as [|r rs IH]; [done|].
  rewrite fmap_cons, filter_cons, (dirty_at_cons touches r rs).
  assert (touches (dr_domains (clear_record up_to cleared r)) = touches (dr_domains r) ∧
          dr_state_version (clear_record up_to cleared r) = dr_state_version r) as [Ht Hv].
  { unfold clear_record. case_bool_decide; simpl; auto. }
  case_decide as Hd; [by rewrite dirty_at_cons, Ht, Hv, IH|].
  destruct (decide (dr_domains (clear_record up_to cleared r) = ∅)) as [E|]; [|done].
  by rewrite <- Ht, E, He.
Qed.

Lemma touches_fullset_iff ds : touches_fullset ds = true ↔ ∃ d, d ∈ ds ∧ d ∈ fullset_domains.
Proof.
  unfold touches_fullset, is_fullset_domain. rewrite existsb_exists.
  setoid_rewrite <- list_elem_of_In. setoid_rewrite elem_of_elements.
  by setoid_rewrite bool_decide_eq_true.
Qed.

Lemma bool_iff (a b : bool) : (a = true ↔ b = true) → a = b.
Proof. destruct a, b; naive_solver. Qed.

Lemma touches_cleared ds :
  touches_fullset (ds ∖ fullset_domains) = false ∧
  touches_negrisk (ds ∖ negrisk_domains) = false ∧
  touches_fullset (ds ∖ negrisk_domains) = touches_fullset ds ∧
  touches_negrisk (ds ∖ fullset_domains) = touches_negrisk ds.
Proof.
  assert (∀ d, d ∈ negrisk_domains ↔ d = NegRiskFamilies) as Hn.
  { intros d. unfold negrisk_domains, dirty_set_new. set_solver. }
  assert (NegRiskFamilies ∉ fullset_domains) as Hf by (vm_compute; done).
  split_and!.
  - apply not_true_iff_false. rewrite touches_fullset_iff. set_solver.
  - unfold touches_negrisk. apply bool_decide_eq_false. rewrite elem_of_difference, Hn. tauto.
  - apply bool_iff. rewrite !touches_fullset_iff. setoid_rewrite elem_of_difference.
    setoid_rewrite Hn. naive_solver.
  - unfold touches_negrisk. apply bool_decide_ext. set_solver.
Qed.

Lemma spec_of_record_apply l v ds :
  spec_of (record_apply l v ds) = (spec_op (spec_of l) (OpApplied v ds)).1.
Proof.
  unfold spec_of, record_apply; simpl. rewrite !dirty_at_app, !dirty_at_cons. simpl.
  f_equal; destruct (dirty_at _ _); destruct (touches_fullset ds), (touches_negrisk ds); done.
Qed.

Lemma spec_of_observe_snapshot l s :
  spec_of (observe_snapshot l s) = (spec_op (spec_of l) (OpSnapshot s)).1.
Proof.
  assert (∀ touches, touches = touches_fullset ∨ touches = touches_negrisk → touches ∅ = false)
    as He by (intros ? [-> | ->]; by vm_compute).
  assert (∀ rs u, dirty_at touches_fullset (clear_records u fullset_domains rs) =
                  uncovered (dirty_at touches_fullset rs) u) as H1.
  { intros. apply dirty_at_cleared; [apply touches_cleared|auto]. }
  assert (∀ rs u, dirty_at touches_negrisk (clear_records u negrisk_domains rs) =
                  uncovered (dirty_at touches_negrisk rs) u) as H2.
  { intros. apply dirty_at_cleared; [apply touches_cleared|auto]. }
  assert (∀ rs u, dirty_at touches_negrisk (clear_records u fullset_domains rs) =
                  dirty_at touches_negrisk rs) as H3.
  { intros. apply dirty_at_kept; [apply touches_cleared|auto]. }
  assert (∀ rs u, dirty_at touches_fullset (clear_records u negrisk_domains rs) =
                  dirty_at touches_fullset rs) as H4.
  { intros. apply dirty_at_kept; [apply touches_cleared|auto]. }
  unfold spec_of, observe_snapshot.
  destruct (ps_fullset_ready s) eqn:E1, (ps_negrisk_ready s) eqn:E2; simpl; rewrite E1, E2;
    repeat match goal with
    | |- context [filter (λ r, dr_domains r ≠ ∅) (clear_record ?u ?c <$> ?rs)] =>
        change (filter (λ r, dr_domains r ≠ ∅) (clear_record u c <$> rs))
          with (clear_records u c rs)
    end; rewrite ?H1, ?H2, ?H3, ?H4, ?H1, ?H2; done.
Qed.

(** What [flush] keeps: one record per distinct dirty version, in version order. *)
Definition kept_records (a b : option Z) : list DirtyRecord :=
  match a, b with
  | Some a, Some b =>
      let f := {| dr_state_version := a; dr_domains := fullset_domains |} in
      let n := {| dr_state_version := b; dr_domains := {[ NegRiskFamilies ]} |} in
      if bool_decide (a = b) then
        [{| dr_state_version := a; dr_domains := fullset_domains ∪ {[ NegRiskFamilies ]} |}]
      else if bool_decide (a < b) then [f; n] else [n; f]
  | Some a, None => [{| dr_state_version := a; dr_domains := fullset_domains |}]
  | None, Some b => [{| dr_state_version := b; dr_domains := {[ NegRiskFamilies ]} |}]
  | None, None => []
  end.

Lemma extend_entry_fresh m v ds : m !! v = None → extend_entry m v ds = <[v := ds]> m.
Proof. intros E. unfold extend_entry. rewrite E. simpl. by rewrite (left_id_L ∅ (∪)). Qed.

Lemma coalesced_records_eq l :
  coalesced_dirty_records l =
  kept_records (dirty_at touches_fullset (dl_dirty_records l))
    (dirty_at touches_negrisk (dl_dirty_records l)).
Proof.
  unfold coalesced_dirty_records, kept_records.
  assert (∀ v ds, btree_entries Z.compare ({[v := ds]} : gmap Z (gset DirtyDomain)) = [(v, ds)])
    as H1.
  { intros. apply (btree_entries_eq Z.compare); [by repeat constructor|].
    by rewrite map_to_list_singleton. }
  destruct (dirty_at touches_fullset _) as [a|], (dirty_at touches_negrisk _) as [b|];
    rewrite ?(extend_entry_fresh ∅), ?insert_empty, ?H1 by apply lookup_empty; try done.
  case_bool_decide as Eab; [subst b|].
  { unfold extend_entry. rewrite lookup_singleton_eq, insert_singleton_eq, H1. done. }
  rewrite extend_entry_fresh by by rewrite lookup_singleton_ne.
  assert (map_to_list (<[b := {[NegRiskFamilies]}]> ({[a := fullset_domains]} : gmap Z _)) ≡ₚ
          [(b, {[NegRiskFamilies]}); (a, fullset_domains)]) as Hp.
  { rewrite map_to_list_insert, map_to_list_singleton by by rewrite lookup_singleton_ne. done. }
  assert (∀ x y (u w : gset DirtyDomain), x < y →
    StronglySorted (cmp_le (cmp_on fst Z.compare)) [(x, u); (y, w)]) as Hs.
  { intros x y u w Hxy. repeat apply SSorted_cons; [constructor..|]. apply Forall_singleton.
    change ((x ?= y) ≠ Gt). by rewrite (proj2 (Z.compare_lt_iff x y) Hxy). }
  case_bool_decide.
  - erewrite (btree_entries_eq Z.compare); [|idtac|rewrite Hp; apply Permutation_swap]; [done|by apply Hs].
  - erewrite (btree_entries_eq Z.compare); [|idtac|exact Hp]; [done|apply Hs; lia].
Qed.

Lemma dirty_at_kept_records a b :
  dirty_at touches_fullset (kept_records a b) = a ∧
  dirty_at touches_negrisk (kept_records a b) = b.
Proof.
  assert (touches_fullset fullset_domains = true ∧ touches_negrisk fullset_domains = false ∧
          touches_fullset {[NegRiskFamilies]} = false ∧
          touches_negrisk {[NegRiskFamilies]} = true ∧
          touches_fullset (fullset_domains ∪ {[NegRiskFamilies]}) = true ∧
          touches_negrisk (fullset_domains ∪ {[NegRiskFamilies]}) = true)
    as (T1 & T2 & T3 & T4 & T5 & T6) by (by vm_compute).
  destruct a as [a|], b as [b|]; unfold kept_records; repeat case_bool_decide; subst;
    rewrite ?dirty_at_cons; cbn [dr_domains dr_state_version];
    by rewrite ?T1, ?T2, ?T3, ?T4, ?T5, ?T6.
Qed.

Lemma spec_of_coalesce l : spec_of (coalesce_dirty_records l) = spec_of l.
Proof.
  unfold spec_of. cbn [coalesce_dirty_records dl_dirty_records set DispatchLoop_eta].
  change (dl_dirty_records (coalesce_dirty_records l)) with (coalesced_dirty_records l).
  rewrite coalesced_records_eq.
  by rewrite (proj1 (dirty_at_kept_records _ _)), (proj2 (dirty_at_kept_records _ _)).
Qed.

Lemma coalesced_versions l :
  dr_state_version <$> coalesced_dirty_records l = spec_versions (spec_of l).
Proof.
  rewrite coalesced_records_eq. unfold spec_versions, spec_of; simpl.
  destruct (dirty_at touches_fullset _), (dirty_at touches_negrisk _); simpl;
    repeat case_bool_decide; done.
Qed.

Lemma dispatch_op_refines l op :
  (spec_of (dispatch_op l op).1, (dispatch_op l op).2) = spec_op (spec_of l) op.
Proof.
  destruct op as [v ds|s|].
  - simpl fst. by rewrite spec_of_record_apply.
  - simpl fst. by rewrite spec_of_observe_snapshot.
  - unfold dispatch_op, flush. simpl fst. rewrite spec_of_coalesce. simpl.
    by rewrite coalesced_versions.
Qed.

Lemma dispatch_refines_both l ops :
  spec_run (spec_of l) ops = (spec_of (dispatch_run l ops).1, (dispatch_run l ops).2).
Proof.
  revert l. induction ops as [|op ops IH]; intros l; [done|]. simpl.
  pose proof (dispatch_op_refines l op) as Hop.
  destruct (dispatch_op l op) as [l' o]. simpl in Hop. rewrite <- Hop, IH.
  by destruct (dispatch_run l' ops).
Qed.

Lemma dispatch_refines_state l ops :
  spec_of (dispatch_run l ops).1 = (spec_run (spec_of l) ops).1.
Proof. by rewrite dispatch_refines_both. Qed.

(** C32. The dispatch loop refines its two-cell specification: whatever sequence
    of applied facts, published snapshots and flushes it is given, its record
    list carries exactly the newest uncovered dirty version of each projection,
    and every flush summary is the one the specification produces. Coalescing
    on flush, and clearing domains record by record, lose no dirty version and
    invent none. *)
Theorem dispatch_refines l ops :
  spec_run (spec_of l) ops = (spec_of (dispatch_run l ops).1, (dispatch_run l ops).2).
Proof. apply dispatch_refines_both. Qed.

(** The invariant behind the safety of coalescing, on the specification. *)
Definition dirty_from (v : Z) (d : option Z) : Prop := ∃ w, d = Some w ∧ v <= w.

Lemma dirty_from_newer v d u : v <= u ∨ dirty_from v d → dirty_from v (newer d u).
Proof.
  unfold newer, dirty_from.
  intros [|(w & -> & ?)]; [destruct d as [w|]|]; eexists; (split; [done|lia]).
Qed.

Lemma dirty_from_uncovered v d u : dirty_from v d → u < v → dirty_from v (uncovered d u).
Proof.
  intros (w & -> & ?) ?. exists w. simpl. by rewrite bool_decide_eq_false_2 by lia.
Qed.

Lemma spec_run_dirty_from v sp ops :
  (dirty_from v (sp_fullset_dirty sp) →
   (∀ s, OpSnapshot s ∈ ops → ps_fullset_ready s = true → ps_state_version s < v) →
   dirty_from v (sp_fullset_dirty (spec_run sp ops).1)) ∧
  (dirty_from v (sp_negrisk_dirty sp) →
   (∀ s, OpSnapshot s ∈ ops → ps_negrisk_ready s = true → ps_state_version s < v) →
   dirty_from v (sp_negrisk_dirty (spec_run sp ops).1)).
Proof.
  revert sp. induction ops as [|op ops IH]; intros sp; [done|].
  split; intros Hd Hs; simpl; destruct (spec_op sp op) as [sp' o] eqn:E;
    destruct (spec_run sp' ops) as [sp'' os] eqn:E'; simpl;
    change sp'' with (sp'', os).1; rewrite <- E'; apply IH; try set_solver;
    change sp' with (sp', o).1; rewrite <- E; clear IH E E';
    destruct op as [u ds|s|]; simpl; try done; case_match; try done;
    auto using dirty_from_newer; (apply dirty_from_uncovered; [done|apply Hs; set_solver]).
Qed.

Lemma dirty_from_flush v l :
  dirty_from v (sp_fullset_dirty (spec_of l)) ∨ dirty_from v (sp_negrisk_dirty (spec_of l)) →
  ∃ w, v <= w ∧ w ∈ dm_coalesced_versions (flush l).2.
Proof.
  intros Hd. simpl. rewrite coalesced_versions. unfold spec_versions.
  destruct Hd as [(w & -> & Hw)|(w & -> & Hw)]; exists w; (split; [done|]);
    [destruct (sp_negrisk_dirty _)|destruct (sp_fullset_dirty _)];
    repeat case_bool_decide; subst; set_solver.
Qed.

(** No lost work: once a fact dirtied a projection at version [v], every
    later flush reports that version or a newer one, however many facts,
    snapshots and flushes come in between, until a snapshot at [v] or later
    with that projection ready is observed. *)
Theorem dirty_stays_until_covered l v ds ops :
  (touches_fullset ds = true ∧
   ∀ s, OpSnapshot s ∈ ops → ps_fullset_ready s = true → ps_state_version s < v) ∨
  (touches_negrisk ds = true ∧
   ∀ s, OpSnapshot s ∈ ops → ps_negrisk_ready s = true → ps_state_version s < v) →
  ∃ w, v <= w ∧
    w ∈ dm_coalesced_versions (flush (dispatch_run (record_apply l v ds) ops).1).2.
Proof.
  intros H. apply dirty_from_flush.
  pose proof (dispatch_refines_state (record_apply l v ds) ops) as E.
  rewrite E, spec_of_record_apply. simpl.
  destruct H as [[Ht Hs]|[Ht Hs]]; [left|right];
    apply spec_run_dirty_from; try done; simpl; rewrite Ht; apply dirty_from_newer; auto with lia.
Qed.

Lemma dirty_stays_until_covered_witness :
  let s := {| ps_snapshot_id := "snapshot-2"; ps_state_version := 2;
              ps_committed_journal_seq := 2; ps_fullset_ready := true;
              ps_negrisk_ready := false; ps_fullset := None; ps_negrisk := None |} in
  ∃ w, 3 <= w ∧
    w ∈ dm_coalesced_versions
          (flush (dispatch_run (record_apply dispatch_default 3 {[ Orders ]})
                    [OpFlush; OpSnapshot s]).1).2.
Proof.
  intros s. apply dirty_stays_until_covered. left. split; [by vm_compute|].
  intros s' Hs'. assert (s' = s) as -> by set_solver. done.
Defined.
