(* ===== verification/Journal.v ===== *)
(** * The journal

    [crates/journal]: the in-memory journal writer and the replay order. An
    [append] takes a sequence number with an atomic increment and only then locks
    the entry list, so appends of several tasks interleave between the two; the
    interleavings are the runs of a step relation. *)

From S2P Require Import Prelude RecordSet Externals.

Inductive SourceKind := WsMarket | WsUser | RestHeartbeat | Internal.

Section journal.
Context {X : Externals}.

Record JournalEvent := {
  je_stream : string;
  je_source_kind : SourceKind;
  je_source_session_id : string;
  je_source_event_id : string;
  je_dedupe_key : string;
  je_causal_parent_id : option Z;
  je_event_type : string;
  je_event_ts : DateTime;
  je_payload : JsonValue;
}.

Record JournalEntry := {
  jn_journal_seq : Z;
  jn_stream : string;
  jn_source_kind : SourceKind;
  jn_source_session_id : string;
  jn_source_event_id : string;
  jn_dedupe_key : string;
  jn_causal_parent_id : option Z;
  jn_event_type : string;
  jn_event_ts : DateTime;
  jn_payload : JsonValue;
  jn_ingested_at : DateTime;
}.

Inductive JournalError := Poisoned.

(** The shared [Inner] of all clones of a writer: the counter, the entries, and
    whether the mutex is poisoned. *)
Record JournalWriter := {
  jw_next_seq : Z;
  jw_entries : list JournalEntry;
  jw_poisoned : bool;
}.

#[export] Instance JournalWriter_eta : Eta JournalWriter := λ w,
  {| jw_next_seq := jw_next_seq w; jw_entries := jw_entries w; jw_poisoned := jw_poisoned w |}.

Definition in_memory : JournalWriter :=
  {| jw_next_seq := 1; jw_entries := []; jw_poisoned := false |}.

(** [next_seq.fetch_add(1, SeqCst)], and the entry built from its result. *)
Definition fetch_add_seq (w : JournalWriter) : JournalWriter * Z :=
  (w <| jw_next_seq ::= i64_add 1 |>, jw_next_seq w).

Definition journal_entry (journal_seq : Z) (event : JournalEvent) (now : DateTime) :
    JournalEntry :=
  {| jn_journal_seq := journal_seq; jn_stream := je_stream event;
     jn_source_kind := je_source_kind event;
     jn_source_session_id := je_source_session_id event;
     jn_source_event_id := je_source_event_id event; jn_dedupe_key := je_dedupe_key event;
     jn_causal_parent_id := je_causal_parent_id event; jn_event_type := je_event_type event;
     jn_event_ts := je_event_ts event; jn_payload := je_payload event;
     jn_ingested_at := now |}.

(** The part of [append] under the lock. *)
Definition push_entry (w : JournalWriter) (entry : JournalEntry) :
    JournalWriter * result JournalError JournalEntry :=
  if jw_poisoned w then (w, Err Poisoned)
  else (w <| jw_entries ::= λ es, es ++ [entry] |>, Ok entry).

(** [append] run by itself. *)
Definition append (w : JournalWriter) (event : JournalEvent) (now : DateTime) :
    JournalWriter * result JournalError JournalEntry :=
  let '(w, journal_seq) := fetch_add_seq w in push_entry w (journal_entry journal_seq event now).

Definition journal_entries (w : JournalWriter) : result JournalError (list JournalEntry) :=
  if jw_poisoned w then Err Poisoned else Ok (jw_entries w).

Definition replay_entries (entries : list JournalEntry) : list JournalEntry :=
  sort_by (cmp_on jn_journal_seq Z.compare) entries.

(** ** Concurrent appends

    A system is the shared writer and, for each task inside [append], the entry
    it has built and not pushed yet. *)
Record JournalSystem := {
  js_writer : JournalWriter;
  js_in_flight : gmap nat JournalEntry;
}.

Inductive journal_step : JournalSystem → JournalSystem → Prop :=
| step_reserve w fl t event now w' q :
    fl !! t = None → fetch_add_seq w = (w', q) →
    journal_step {| js_writer := w; js_in_flight := fl |}
      {| js_writer := w'; js_in_flight := <[t := journal_entry q event now]> fl |}
| step_push w fl t entry w' :
    fl !! t = Some entry → push_entry w entry = (w', Ok entry) →
    journal_step {| js_writer := w; js_in_flight := fl |}
      {| js_writer := w'; js_in_flight := delete t fl |}.

Definition system_new : JournalSystem := {| js_writer := in_memory; js_in_flight := ∅ |}.

(** Runs in which fewer than 2^63 - 1 numbers were handed out: the counter has
    not wrapped. *)
Inductive journal_reachable : JournalSystem → Prop :=
| journal_init : journal_reachable system_new
| journal_next y y' :
    journal_reachable y → journal_step y y' → jw_next_seq (js_writer y) < 2 ^ 63 - 1 →
    journal_reachable y'.

Definition seqs_of (y : JournalSystem) : list Z :=
  (jn_journal_seq <$> jw_entries (js_writer y)) ++
  (jn_journal_seq <$> (map_to_list (js_in_flight y)).*2).

(** The numbers in use are 1, 2, ..., [next_seq - 1], each used once. *)
Definition seqs_complete (y : JournalSystem) : Prop :=
  1 <= jw_next_seq (js_writer y) < 2 ^ 63 ∧
  seqs_of y ≡ₚ seqZ 1 (jw_next_seq (js_writer y) - 1).

(** ** Lemmas *)

Lemma i64_add_one a : 1 <= a < 2 ^ 63 - 1 → i64_add 1 a = a + 1.
Proof. intros. unfold i64_add. rewrite Z.mod_small by lia. lia. Qed.

Lemma seqZ_snoc m : 0 <= m → seqZ 1 (m + 1) = seqZ 1 m ++ [m + 1].
Proof. intros. rewrite seqZ_app by lia. f_equal. unfold seqZ; simpl. f_equal. lia. Qed.

Lemma fetch_add_seq_complete y t event now :
  js_in_flight y !! t = None → jw_next_seq (js_writer y) < 2 ^ 63 - 1 → seqs_complete y →
  seqs_complete
    {| js_writer := (fetch_add_seq (js_writer y)).1;
       js_in_flight :=
         <[t := journal_entry (fetch_add_seq (js_writer y)).2 event now]> (js_in_flight y) |}.
Proof.
  intros Ht Hlt [Hb Hp]. unfold seqs_complete, seqs_of in *. simpl.
  rewrite i64_add_one by lia. split; [lia|].
  rewrite map_to_list_insert by done. rewrite !fmap_cons. simpl.
  rewrite <- Permutation_middle, Hp.
  replace (jw_next_seq (js_writer y) + 1 - 1) with (jw_next_seq (js_writer y) - 1 + 1) by lia.
  rewrite seqZ_snoc by lia. rewrite Z.sub_add. by rewrite (Permutation_app_comm _ [_]).
Qed.

Lemma push_entry_complete y t entry w' :
  js_in_flight y !! t = Some entry → push_entry (js_writer y) entry = (w', Ok entry) →
  seqs_complete y →
  seqs_complete {| js_writer := w'; js_in_flight := delete t (js_in_flight y) |}.
Proof.
  intros Ht Hw [Hb Hp]. unfold push_entry in Hw. destruct (jw_poisoned (js_writer y)); [done|].
  injection Hw as <-. split; [done|]. rewrite <- Hp. unfold seqs_of; simpl.
  rewrite <- (insert_delete_id (js_in_flight y) t entry Ht) at 2.
  rewrite map_to_list_insert by apply lookup_delete_eq. rewrite fmap_app, !fmap_cons; simpl.
  by rewrite <- (assoc_L app).
Qed.

Lemma journal_reachable_complete y : journal_reachable y → seqs_complete y.
Proof.
  induction 1 as [|y y' _ IH Hs Hlt]; [by split|].
  destruct Hs as [w fl t event now w' q Ht Hf|w fl t entry w' Ht Hw].
  - pose proof (fetch_add_seq_complete {| js_writer := w; js_in_flight := fl |}
      t event now Ht Hlt IH) as Hc.
    cbn [js_writer js_in_flight] in Hc. rewrite Hf in Hc. exact Hc.
  - exact (push_entry_complete {| js_writer := w; js_in_flight := fl |} _ _ _ Ht Hw IH).
Qed.

Lemma seqZ_sorted m n : StronglySorted (cmp_le Z.compare) (seqZ m n).
Proof.
  unfold seqZ. generalize (Z.to_nat n) as k. intros k. generalize 0%nat as i.
  induction k as [|k IH]; intros i; simpl; [constructor|]. constructor; [apply IH|].
  rewrite Forall_fmap. apply Forall_forall. intros j Hj%elem_of_seq.
  apply Z.compare_ngt_iff. lia.
Qed.

Lemma replay_entries_seqs es :
  jn_journal_seq <$> replay_entries es = sort_by Z.compare (jn_journal_seq <$> es).
Proof. apply map_sort_by_on. Qed.

Lemma sort_by_seqZ l n : l ≡ₚ seqZ 1 n → sort_by Z.compare l = seqZ 1 n.
Proof.
  intros Hp. rewrite (sort_by_canonical Z.compare _ _ Hp). apply (sort_by_id Z.compare).
  apply seqZ_sorted.
Qed.

(** However the appends of any number of tasks interleave, no two entries
    get the same sequence number and none is skipped: the numbers of the pushed
    entries and of those still in flight are 1, 2, 3, ... up to the counter, each
    once. So when no append is in flight, replaying the journal yields the entries
    numbered 1, 2, ..., n in this order, although the entry list itself may hold
    them in another order. *)
Theorem journal_seqs_gapless y (Hr : journal_reachable y) :
  NoDup (seqs_of y) ∧
  (∀ q, q ∈ seqs_of y ↔ 1 <= q < jw_next_seq (js_writer y)) ∧
  replay_entries (jw_entries (js_writer y)) ≡ₚ jw_entries (js_writer y) ∧
  (js_in_flight y = ∅ →
   jn_journal_seq <$> replay_entries (jw_entries (js_writer y)) =
     seqZ 1 (Z.of_nat (length (jw_entries (js_writer y))))).
Proof.
  destruct (journal_reachable_complete y Hr) as [Hb Hp]. split_and!.
  - rewrite Hp. apply NoDup_seqZ.
  - intros q. rewrite Hp, elem_of_seqZ. lia.
  - apply sort_by_Permutation.
  - intros E. unfold seqs_of in Hp. rewrite E, map_to_list_empty, app_nil_r in Hp.
    rewrite replay_entries_seqs. pose proof (Permutation_length Hp) as Hl.
    rewrite length_fmap, length_seqZ in Hl. rewrite Hl, Z2Nat.id by lia. by apply sort_by_seqZ.
Qed.

(** The replay of a set of entries does not depend on the order they were pushed
    in, when their numbers differ. *)
Lemma replay_entries_canonical es es' :
  NoDup (jn_journal_seq <$> es) → es ≡ₚ es' → replay_entries es = replay_entries es'.
Proof. apply (sort_by_on_canonical jn_journal_seq Z.compare). Qed.
End journal.

(** Two tasks whose pushes happen in the opposite order of their increments. *)
Definition demo_journal_event : @JournalEvent Micros :=
  {| je_stream := "user"; je_source_kind := WsUser; je_source_session_id := "session";
     je_source_event_id := "event"; je_dedupe_key := "event"; je_causal_parent_id := None;
     je_event_type := "trade"; je_event_ts := (10 : @DateTime Micros);
     je_payload := (tt : @JsonValue Micros) |}.

Definition demo_system : @JournalSystem Micros :=
  {| js_writer :=
       {| jw_next_seq := 3;
          jw_entries := [journal_entry (X := Micros) 2 demo_journal_event (11 : @DateTime Micros);
                         journal_entry (X := Micros) 1 demo_journal_event (11 : @DateTime Micros)];
          jw_poisoned := false |};
     js_in_flight := ∅ |}.

Lemma demo_system_reachable : journal_reachable demo_system.
Proof.
  set (e q := journal_entry (X := Micros) q demo_journal_event (11 : @DateTime Micros)).
  set (w n es := {| jw_next_seq := n; jw_entries := es : list (@JournalEntry Micros);
                    jw_poisoned := false |}).
  apply (journal_next {| js_writer := w 3 [e 2]; js_in_flight := {[ 0%nat := e 1 ]} |}).
  2: { exact (step_push (w 3 [e 2]) {[ 0%nat := e 1 ]} 0%nat (e 1) (w 3 [e 2; e 1])
         eq_refl eq_refl). }
  2: done.
  apply (journal_next {| js_writer := w 3 [];
                         js_in_flight := <[1%nat := e 2]> {[ 0%nat := e 1 ]} |}).
  2: { exact (step_push (w 3 []) (<[1%nat := e 2]> {[ 0%nat := e 1 ]}) 1%nat (e 2) (w 3 [e 2])
         eq_refl eq_refl). }
  2: done.
  apply (journal_next {| js_writer := w 2 []; js_in_flight := {[ 0%nat := e 1 ]} |}).
  2: { exact (step_reserve (w 2 []) {[ 0%nat := e 1 ]} 1%nat demo_journal_event
         (11 : @DateTime Micros) (w 3 []) 2 eq_refl eq_refl). }
  2: done.
  apply (journal_next system_new); [constructor| |done].
  exact (step_reserve in_memory ∅ 0%nat demo_journal_event (11 : @DateTime Micros) (w 2 []) 1
    eq_refl eq_refl).
Qed.

Lemma journal_seqs_gapless_witness :
  (jn_journal_seq <$> jw_entries (js_writer demo_system)) = [2; 1] ∧
  (jn_journal_seq <$> replay_entries (jw_entries (js_writer demo_system))) = [1; 2].
Proof.
  split; [reflexivity|].
  destruct (journal_seqs_gapless demo_system demo_system_reachable) as (_ & _ & _ & Hq).
  exact (Hq eq_refl).
Defined.
