(* ===== verification/Runtime.v ===== *)
(** * The application runtime

    [app-live/src/runtime.rs], [bootstrap.rs], [input_tasks.rs] and the ingress
    queue of [queues.rs]: the object that owns the state store, feeds it facts in
    journal order, publishes snapshots of it, and rebuilds it from the committed
    history after a restart. *)

From S2P Require Import Prelude RecordSet Externals Domain RuntimeMode Facts Store Apply.
From S2P Require Import Reconcile StoreInvariants Snapshot.
Import RuntimeMode.

(** ** bootstrap.rs *)

Inductive BootstrapStatus := BootstrapCancelOnly | BootstrapReady.

Inductive AppRuntimeMode := Paper | LiveMode.

(** ** input_tasks.rs *)

Inductive InputTaskHint := HintNone | HintOutOfOrderUserTrade.
#[export] Instance InputTaskHint_eq_dec : EqDecision InputTaskHint.
Proof. solve_decision. Defined.

#[export] Instance ExternalFactPayloadData_eq_dec : EqDecision ExternalFactPayloadData.
Proof. solve_decision. Defined.
#[export] Instance ExternalFactEvent_eq_dec {X : Externals} : EqDecision ExternalFactEvent.
Proof. solve_decision. Defined.

Section runtime.
Context {X : Externals} {H : HashOrder}.

Record InputTaskEvent := {
  it_journal_seq : Z;
  it_event : ExternalFactEvent;
  it_hint : InputTaskHint;
}.
#[export] Instance InputTaskEvent_eq_dec : EqDecision InputTaskEvent.
Proof. solve_decision. Defined.

Definition input_new (journal_seq : Z) (event : ExternalFactEvent) : InputTaskEvent :=
  {| it_journal_seq := journal_seq; it_event := event; it_hint := HintNone |}.

Definition input_out_of_order_user_trade (journal_seq : Z) (event : ExternalFactEvent) :
    InputTaskEvent :=
  {| it_journal_seq := journal_seq; it_event := event; it_hint := HintOutOfOrderUserTrade |}.

Definition into_state_fact_input (i : InputTaskEvent) : StateFactInput :=
  match it_hint i with
  | HintNone => state_fact_input_new (it_event i)
  | HintOutOfOrderUserTrade => out_of_order_user_trade (it_event i)
  end.

(** ** queues.rs: the ingress queue *)

Definition IngressQueue : Type := list InputTaskEvent.

Definition ingress_push (q : IngressQueue) (input : InputTaskEvent) : IngressQueue :=
  sort_by (cmp_on it_journal_seq Z.compare) (q ++ [input]).

Definition next_after (q : IngressQueue) (last_journal_seq : option Z) : option InputTaskEvent :=
  find (λ entry, match last_journal_seq with
                 | None => true
                 | Some last => bool_decide (last < it_journal_seq entry)
                 end) q.

(** [position], then [VecDeque::remove] *)
Fixpoint ingress_remove (q : IngressQueue) (input : InputTaskEvent) :
    IngressQueue * option InputTaskEvent :=
  match q with
  | [] => ([], None)
  | entry :: q' =>
      if decide (entry = input) then (q', Some entry)
      else let '(q'', removed) := ingress_remove q' input in (entry :: q'', removed)
  end.

(** ** runtime.rs *)

Record AppRuntime := {
  ar_store : StateStore;
  ar_app_mode : AppRuntimeMode;
  ar_published_snapshot : option PublishedSnapshot;
}.

#[export] Instance AppRuntime_eta : Eta AppRuntime := λ r,
  {| ar_store := ar_store r; ar_app_mode := ar_app_mode r;
     ar_published_snapshot := ar_published_snapshot r |}.

Definition runtime_new (mode : AppRuntimeMode) : AppRuntime :=
  {| ar_store := store_new; ar_app_mode := mode; ar_published_snapshot := None |}.

Definition bootstrap_status (r : AppRuntime) : BootstrapStatus :=
  if first_reconcile_succeeded (ar_store r) then BootstrapReady else BootstrapCancelOnly.

Definition last_journal_seq (r : AppRuntime) : option Z := last_consumed_journal_seq (ar_store r).

Definition runtime_state_version (r : AppRuntime) : Z := state_version (ar_store r).

Definition runtime_pending_reconcile_count (r : AppRuntime) : nat :=
  pending_reconcile_count (ar_store r).

Definition published_snapshot_id (r : AppRuntime) : option string :=
  ps_snapshot_id <$> ar_published_snapshot r.

Definition runtime_restore_committed_anchor (r : AppRuntime) (version journal_seq : Z) :
    AppRuntime :=
  r <| ar_store ::= λ s, restore_committed_anchor s version journal_seq |>.

Definition runtime_restore_pending_reconcile_anchor (r : AppRuntime)
    (a : PendingReconcileAnchor) : AppRuntime :=
  r <| ar_store ::= λ s, restore_pending_reconcile_anchor s a |>.

Definition anchor_baseline_if_ready (r : AppRuntime) (reconcile_succeeded : bool) : AppRuntime :=
  if reconcile_succeeded && bool_decide (last_applied_journal_seq (ar_store r) = None) then
    r <| ar_store ::= λ s, mark_reconciled_after_restore s 0 |>
  else r.

Definition runtime_reconcile (r : AppRuntime) (snapshot : RemoteSnapshot) :
    AppRuntime * ReconcileReport :=
  let '(s, report) := reconcile_store (ar_store r) snapshot in
  let r := r <| ar_store := s |> in
  let r :=
    if rr_succeeded report then r <| ar_store ::= clear_pending_reconcile_after_restore |> else r in
  (anchor_baseline_if_ready r (rr_succeeded report), report).

Definition bootstrap_once (r : AppRuntime) (snapshot : RemoteSnapshot) :
    AppRuntime * ReconcileReport :=
  let '(s, report) := reconcile_store (ar_store r) snapshot in
  (anchor_baseline_if_ready (r <| ar_store := s |>) (rr_succeeded report), report).

(** After a failed [apply] the store is the one it left. *)
Definition apply_input (r : AppRuntime) (input : InputTaskEvent) :
    outcome (AppRuntime * result ApplyError ApplyResult) :=
  '(s, res) ← apply (ar_store r) (it_journal_seq input) (into_state_fact_input input);
  let r := r <| ar_store := s |> in
  Returns (match res with
           | Err _ => r
           | Ok (Applied _ _ _) => r <| ar_published_snapshot := None |>
           | Ok (ReconcileRequired _ _ _) => r <| ar_store ::= mark_reconcile_required |>
           | Ok (Duplicate _ _ _) | Ok (DeferredFact _ _ _) => r
           end, res).

Definition publish_snapshot (r : AppRuntime) (snapshot_id : string) :
    outcome (AppRuntime * option PublishedSnapshot) :=
  match last_applied_journal_seq (ar_store r) with
  | None => Returns (r, None)
  | Some _ =>
      snapshot ← snapshot_from_store (ar_store r) (ready_fullset_pending_negrisk snapshot_id);
      Returns (r <| ar_published_snapshot := Some snapshot |>, Some snapshot)
  end.

Definition runtime_candidate_publication (r : AppRuntime) : outcome (option CandidatePublication) :=
  match last_applied_journal_seq (ar_store r) with
  | None => Returns None
  | Some _ =>
      publication ← candidate_publication_from_store (ar_store r)
        {| cr_publication_id := "candidate-pub-" +:+ pretty (runtime_state_version r);
           cr_status := CandidateReady |};
      Returns (Some publication)
  end.

Definition is_reconcile_required (res : ApplyResult) : bool :=
  match res with ReconcileRequired _ _ _ => true | _ => false end.

(** The loop of [replay_committed_history], with its flag. *)
Fixpoint replay_inputs (s : StateStore) (reconcile_required : bool)
    (history : list InputTaskEvent) :
    outcome (StateStore * result ApplyError bool) :=
  match history with
  | [] => Returns (s, Ok reconcile_required)
  | input :: history' =>
      '(s, res) ← apply s (it_journal_seq input) (into_state_fact_input input);
      match res with
      | Err e => Returns (s, Err e)
      | Ok res => replay_inputs s (reconcile_required || is_reconcile_required res) history'
      end
  end.

Definition replayed_posture (s : StateStore) (reconcile_required : bool) : StateStore :=
  if reconcile_required then mark_reconcile_required (restore_reconciled_policy s)
  else if bool_decide (last_applied_journal_seq s = None) then mark_reconciled_after_restore s 0
  else restore_reconciled_policy s.

Definition replay_committed_history (r : AppRuntime) (history : list InputTaskEvent) :
    outcome (AppRuntime * result ApplyError ()) :=
  let r := r <| ar_store := store_new |> <| ar_published_snapshot := None |> in
  '(s, res) ← replay_inputs (ar_store r) false history;
  let r := r <| ar_store := s |> in
  match res with
  | Err e => Returns (r, Err e)
  | Ok reconcile_required =>
      Returns (r <| ar_store ::= λ s, replayed_posture s reconcile_required |>, Ok ())
  end.

Definition runtime_clear_pending_reconcile_after_restore (r : AppRuntime) : AppRuntime :=
  r <| ar_store ::= clear_pending_reconcile_after_restore |>.

(** A run of [apply_input], stopping at the first error. *)
Fixpoint apply_inputs (r : AppRuntime) (inputs : list InputTaskEvent) :
    outcome (AppRuntime * result ApplyError (list ApplyResult)) :=
  match inputs with
  | [] => Returns (r, Ok [])
  | input :: inputs' =>
      '(r, res) ← apply_input r input;
      match res with
      | Err e => Returns (r, Err e)
      | Ok a =>
          '(r, rs) ← apply_inputs r inputs';
          Returns (r, as_ ← rs; Ok (a :: as_))
      end
  end.

(** ** The operations of a runtime

    [restore_committed_anchor] overwrites the version and the sequence numbers of
    the store; the supervisor calls it on a runtime it has just created. *)
Inductive RuntimeOp :=
| RtReconcile (snapshot : RemoteSnapshot)
| RtBootstrap (snapshot : RemoteSnapshot)
| RtApply (input : InputTaskEvent)
| RtPublish (snapshot_id : string)
| RtReplay (history : list InputTaskEvent)
| RtRestoreCommittedAnchor (version journal_seq : Z)
| RtRestorePendingReconcileAnchor (a : PendingReconcileAnchor)
| RtClearPendingReconcileAfterRestore.

Definition run_runtime_op (r : AppRuntime) (op : RuntimeOp) : AppRuntime :=
  match op with
  | RtReconcile snapshot => (runtime_reconcile r snapshot).1
  | RtBootstrap snapshot => (bootstrap_once r snapshot).1
  | RtApply input => match apply_input r input with Returns (r', _) => r' | Panics => r end
  | RtPublish id => match publish_snapshot r id with Returns (r', _) => r' | Panics => r end
  | RtReplay history =>
      match replay_committed_history r history with Returns (r', _) => r' | Panics => r end
  | RtRestoreCommittedAnchor v q => runtime_restore_committed_anchor r v q
  | RtRestorePendingReconcileAnchor a => runtime_restore_pending_reconcile_anchor r a
  | RtClearPendingReconcileAfterRestore => runtime_clear_pending_reconcile_after_restore r
  end.

Definition runtime_op_allowed (r : AppRuntime) (op : RuntimeOp) : Prop :=
  match op with
  | RtRestoreCommittedAnchor _ _ => ar_published_snapshot r = None
  | _ => True
  end.

Inductive runtime_reachable (mode : AppRuntimeMode) : AppRuntime → Prop :=
| runtime_init : runtime_reachable mode (runtime_new mode)
| runtime_next r op :
    runtime_reachable mode r → runtime_op_allowed r op →
    runtime_reachable mode (run_runtime_op r op).

(** ** What the published snapshot shows *)

(** The full-set anchor is the one of the last applied fact. *)
Definition anchor_current (s : StateStore) : Prop :=
  fullset_anchor s =
    (λ q, {| fa_state_version := state_version s; fa_committed_journal_seq := q;
             fa_open_orders := current_open_order_ids s |}) <$> last_applied_journal_seq s.

Definition published_current (r : AppRuntime) : Prop :=
  anchor_current (ar_store r) ∧
  ∀ p, ar_published_snapshot r = Some p →
    snapshot_from_store (ar_store r) (ready_fullset_pending_negrisk (ps_snapshot_id p)) = Returns p.

(** The part of the store a snapshot is a function of. *)
Definition same_view (s s' : StateStore) : Prop :=
  state_version s' = state_version s ∧
  last_applied_journal_seq s' = last_applied_journal_seq s ∧
  fullset_anchor s' = fullset_anchor s ∧
  current_open_order_ids s' = current_open_order_ids s.

#[export] Instance same_view_preorder : PreOrder same_view.
Proof.
  split; [by repeat split|].
  intros s1 s2 s3 (E1 & E2 & E3 & E4) (F1 & F2 & F3 & F4). repeat split; congruence.
Qed.

Lemma same_view_posture s : same_view s (apply_restore_posture s).
Proof.
  unfold apply_restore_posture, enter_reconciling.
  destruct (first_reconcile_succeeded s), (has_pending_reconcile_anchors s); repeat split.
Qed.

Lemma anchor_current_same s s' : same_view s s' → anchor_current s → anchor_current s'.
Proof. intros (E1 & E2 & E3 & E4). unfold anchor_current. by rewrite E1, E2, E3, E4. Qed.

Lemma snapshot_same s s' readiness :
  same_view s s' → snapshot_from_store s' readiness = snapshot_from_store s readiness.
Proof.
  intros (E1 & E2 & E3 & E4). unfold snapshot_from_store, anchored_fullset.
  by rewrite E1, E2, E3.
Qed.

Lemma snapshot_id_of s readiness p :
  snapshot_from_store s readiness = Returns p → ps_snapshot_id p = pr_snapshot_id readiness.
Proof.
  unfold snapshot_from_store. destruct (last_applied_journal_seq s); simpl; [|done].
  by intros [= <-].
Qed.

Lemma published_current_same r r' :
  same_view (ar_store r) (ar_store r') → ar_published_snapshot r' = ar_published_snapshot r →
  published_current r → published_current r'.
Proof.
  intros Hv E [Ha Hp]. split; [by eapply anchor_current_same|].
  intros p. rewrite E, (snapshot_same _ _ _ Hv). apply Hp.
Qed.

(** Nothing is published before a fact was applied. *)
Lemma published_needs_applied r p :
  published_current r → ar_published_snapshot r = Some p →
  is_Some (last_applied_journal_seq (ar_store r)).
Proof.
  intros [_ Hp] Hr. specialize (Hp _ Hr). unfold snapshot_from_store in Hp.
  destruct (last_applied_journal_seq (ar_store r)); [by eexists|done].
Qed.

Definition applied_view (s : StateStore) (q : Z) : Prop :=
  anchor_current s ∧ last_applied_journal_seq s = Some q.

Lemma record_applied_view s q k : applied_view (record_applied_fact s q k).1 q.
Proof.
  unfold record_applied_fact. cbn [fst].
  split; [by eapply anchor_current_same; [apply same_view_posture|]|].
  match goal with |- context [apply_restore_posture ?s1] =>
    by destruct (same_view_posture s1) as (_ & -> & _) end.
Qed.

(** A fact either is applied, and then the anchor is rebuilt, or leaves the view
    alone. *)
Lemma apply_consumed_view s q f :
  if is_applied (apply_consumed s q f).2 then applied_view (apply_consumed s q f).1 q
  else same_view s (apply_consumed s q f).1.
Proof.
  assert (∀ s1 d,
    let '(s', r) := (let '(s2, v) := record_applied_fact s1 q (fact_key f) in
                     (s2, Applied q v d)) in
    if is_applied r then applied_view s' q else same_view s s') as Happ.
  { intros s1 d. pose proof (record_applied_view s1 q (fact_key f)).
    by destruct (record_applied_fact s1 q (fact_key f)). }
  unfold apply_consumed. destruct (duplicate_journal_seq s (fact_key f)); [done|].
  destruct (fi_hint f) as [|r|fam c t|a|a|pr []]; try apply Happ; by repeat split.
Qed.

Lemma apply_view s q f s' r :
  apply s q f = Returns (s', r) →
  match r with
  | Ok a => if is_applied a then applied_view s' q else same_view s s'
  | Err _ => s' = s
  end.
Proof.
  intros E. destruct (apply_cases s q f) as [(e & E' & _)|(s1 & Hs1 & E')];
    rewrite E' in E; injection E as <- <-; [done|].
  assert (same_view s s1) as Hv by (destruct Hs1 as [[_ ->]|[_ ->]]; by repeat split).
  pose proof (apply_consumed_view s1 q f) as Hc. destruct (is_applied _); [done|].
  by etrans.
Qed.

Lemma elem_of_map_keys {V} (m : gmap string V) i : i ∈ (map_to_list m).*1 ↔ i ∈ dom m.
Proof.
  rewrite list_elem_of_fmap, elem_of_dom. split.
  - intros ([i' v] & -> & ?%elem_of_map_to_list). by exists v.
  - intros [v Hv]. exists (i, v). by rewrite elem_of_map_to_list.
Qed.

Lemma current_open_order_ids_dom s s' :
  dom (open_orders s) = dom (open_orders s') →
  current_open_order_ids s' = current_open_order_ids s.
Proof.
  intros E. unfold current_open_order_ids. apply (sort_by_canonical str_cmp).
  apply NoDup_Permutation; [apply NoDup_fst_map_to_list..|]. intros i.
  by rewrite !elem_of_map_keys, E.
Qed.

Lemma complete_reconcile_view s snap :
  anchor_current s → dom (open_orders s) = dom (remote_order_map snap) →
  same_view s (complete_reconcile s snap).1.
Proof.
  intros Ha E. unfold complete_reconcile. etrans; [|apply same_view_posture].
  assert (∀ s', open_orders s' = remote_order_map snap →
    current_open_order_ids s' = current_open_order_ids s) as Hids.
  { intros s' E'. apply current_open_order_ids_dom. by rewrite E'. }
  unfold anchor_current in Ha. destruct (last_applied_journal_seq s) as [q|] eqn:Hq;
    cbn -[current_open_order_ids]; rewrite ?Hq; (split; [done|split; [by rewrite Hq|split]]);
    simpl; rewrite ?Ha; simpl; rewrite ?Hids by done; done.
Qed.

(** A reconcile keeps what is published current: it adopts a snapshot only if the
    set of open orders is the same. *)
Lemma reconcile_store_view `{!HashOrderLaws H} s snap :
  anchor_current s → same_view s (reconcile_store s snap).1.
Proof.
  intros Ha. unfold reconcile_store. pose proof (collect_attention_nil H s snap) as Hnil.
  case_bool_decide as E; cbn [negb]; [|by repeat split].
  pose proof (complete_reconcile_view s snap Ha (sa_order_ids _ _ (proj1 Hnil E))) as Hv.
  destruct (complete_reconcile s snap) as [s' p]. cbn [fst] in *.
  etrans; [exact Hv|apply same_view_posture].
Qed.

Lemma same_view_clear_pending s : same_view s (clear_pending_reconcile_after_restore s).
Proof.
  unfold clear_pending_reconcile_after_restore.
  destruct (first_reconcile_succeeded _); [|by repeat split].
  etrans; [|apply same_view_posture]. by repeat split.
Qed.

Lemma published_current_baseline r b :
  published_current r → published_current (anchor_baseline_if_ready r b).
Proof.
  intros Hr. unfold anchor_baseline_if_ready. destruct b; [|done]. simpl.
  case_bool_decide as E; [|done]. split; simpl.
  - unfold anchor_current, mark_reconciled_after_restore. by rewrite E.
  - intros p Hp. destruct (published_needs_applied r p Hr Hp) as [q Hq]. congruence.
Qed.

Lemma published_current_new mode : published_current (runtime_new mode).
Proof. by split. Qed.

Lemma published_current_unpublished r s' :
  anchor_current s' → ar_published_snapshot r = None → published_current (r <| ar_store := s' |>).
Proof. intros Ha Hp. split; [done|]. simpl. rewrite Hp. done. Qed.

Lemma replay_inputs_anchor s b history s' res :
  replay_inputs s b history = Returns (s', res) → anchor_current s → anchor_current s'.
Proof.
  revert s b. induction history as [|i history IH]; intros s b; simpl; [by intros [= <- _]|].
  destruct (apply s _ _) as [[s1 [a|e]]|] eqn:E; simpl; [| |done]; apply apply_view in E.
  - intros Hr Ha. eapply IH; [exact Hr|]. destruct (is_applied a); [apply E|].
    by eapply anchor_current_same.
  - intros [= <- _]. by subst.
Qed.

Lemma published_current_replay r history r' res :
  replay_committed_history r history = Returns (r', res) → published_current r'.
Proof.
  unfold replay_committed_history. cbn [ar_store set AppRuntime_eta].
  destruct (replay_inputs _ false history) as [[s' [b|e]]|] eqn:E; simpl; [| |done];
    intros [= <- <-]; apply replay_inputs_anchor in E; try done.
  split; [simpl|by intros p]. unfold replayed_posture. destruct b; [|case_bool_decide as Eq].
  - eapply anchor_current_same; [|exact E]. by repeat split.
  - unfold anchor_current, mark_reconciled_after_restore. by rewrite Eq.
  - eapply anchor_current_same; [|exact E]. by repeat split.
Qed.

Lemma published_current_apply r input r' res :
  apply_input r input = Returns (r', res) → published_current r → published_current r'.
Proof.
  unfold apply_input.
  destruct (apply (ar_store r) _ _) as [[s' res']|] eqn:E; simpl; [|done].
  apply apply_view in E. intros [= <- <-] Hr.
  destruct res' as [[]|e]; simpl in E; try (by apply (published_current_same r));
    [by split; [apply E|]|]. subst. by apply (published_current_same r).
Qed.

Lemma published_current_op `{!HashOrderLaws H} r op :
  runtime_op_allowed r op → published_current r → published_current (run_runtime_op r op).
Proof.
  intros Hop Hr. destruct op; cbn [run_runtime_op].
  - unfold runtime_reconcile. pose proof (reconcile_store_view (ar_store r) snapshot (proj1 Hr)).
    destruct (reconcile_store (ar_store r) snapshot) as [s' report]; cbn [fst] in *.
    apply published_current_baseline.
    destruct (rr_succeeded report); apply (published_current_same r); try done.
    etrans; [done|apply same_view_clear_pending].
  - unfold bootstrap_once. pose proof (reconcile_store_view (ar_store r) snapshot (proj1 Hr)).
    destruct (reconcile_store (ar_store r) snapshot) as [s' report]; cbn [fst] in *.
    by apply published_current_baseline, (published_current_same r).
  - destruct (apply_input r input) as [[r' res]|] eqn:E; [|done].
    by eapply published_current_apply.
  - unfold publish_snapshot. destruct (last_applied_journal_seq (ar_store r)); [|done].
    destruct (snapshot_from_store _ _) as [p|] eqn:E; simpl; [|done]. split; [apply Hr|].
    intros p' [= <-]. simpl. by rewrite (snapshot_id_of _ _ _ E).
  - destruct (replay_committed_history r history) as [[r' res]|] eqn:E; [|done].
    by eapply published_current_replay.
  - apply published_current_unpublished; [|done]. unfold restore_committed_anchor.
    by eapply anchor_current_same; [apply same_view_posture|].
  - apply (published_current_same r); [|done..]. etrans; [|apply same_view_posture].
    by repeat split.
  - apply (published_current_same r); [|done..]. apply same_view_clear_pending.
Qed.


(** ** What a replay rebuilds *)

(** The part of the store that only facts build: the journal bookkeeping, the
    version, the discovery records, the pending anchors and the attention. *)
Record FactHistory := {
  fh_consumed : gmap Z FactKey;
  fh_applied : gmap FactKey Z;
  fh_version : Z;
  fh_records : gmap string FamilyDiscoveryRecord;
  fh_backfills : gmap string PendingFamilyBackfill;
  fh_pending : gmap string PendingReconcileAnchor;
  fh_attention : gmap string RuntimeAttentionAnchor;
}.

Definition history_of (s : StateStore) : FactHistory :=
  {| fh_consumed := consumed_journal s; fh_applied := applied_fact_journal s;
     fh_version := state_version s; fh_records := family_discovery_records s;
     fh_backfills := pending_family_backfills s; fh_pending := pending_reconcile_anchors s;
     fh_attention := runtime_attention_anchors s |}.

#[local] Arguments history_of : simpl never.

Lemma history_of_eq s t :
  history_of s = history_of t ↔
  consumed_journal s = consumed_journal t ∧ applied_fact_journal s = applied_fact_journal t ∧
  state_version s = state_version t ∧ family_discovery_records s = family_discovery_records t ∧
  pending_family_backfills s = pending_family_backfills t ∧
  pending_reconcile_anchors s = pending_reconcile_anchors t ∧
  runtime_attention_anchors s = runtime_attention_anchors t.
Proof.
  unfold history_of. split; [by intros [= -> -> -> -> -> -> ->]|].
  by intros (-> & -> & -> & -> & -> & -> & ->).
Qed.

Lemma history_of_restore_posture s : history_of (apply_restore_posture s) = history_of s.
Proof.
  unfold apply_restore_posture, enter_reconciling.
  by destruct (first_reconcile_succeeded s), (has_pending_reconcile_anchors s).
Qed.

Lemma history_record_applied s q k :
  history_of (record_applied_fact s q k).1 =
    {| fh_consumed := fh_consumed (history_of s);
       fh_applied := <[k := q]> (fh_applied (history_of s));
       fh_version := u64_add 1 (fh_version (history_of s));
       fh_records := fh_records (history_of s); fh_backfills := fh_backfills (history_of s);
       fh_pending := fh_pending (history_of s); fh_attention := fh_attention (history_of s) |} ∧
  (record_applied_fact s q k).2 = u64_add 1 (fh_version (history_of s)).
Proof.
  unfold record_applied_fact. cbn -[apply_restore_posture u64_add rebuild_fullset_anchor].
  set (s1 := rebuild_fullset_anchor _ _).
  change (state_version (apply_restore_posture s1)) with
    (fh_version (history_of (apply_restore_posture s1))).
  by rewrite !history_of_restore_posture.
Qed.

(** The effect of a consumed fact on the history, and its result, are functions of
    the history. *)
Lemma history_apply_consumed s t q f :
  history_of s = history_of t →
  history_of (apply_consumed s q f).1 = history_of (apply_consumed t q f).1 ∧
  (apply_consumed s q f).2 = (apply_consumed t q f).2.
Proof.
  intros E. assert (∀ s1 t1 d, history_of s1 = history_of t1 →
    let '(s', a) := (let '(s2, v) := record_applied_fact s1 q (fact_key f) in
                     (s2, Applied q v d)) in
    let '(t', b) := (let '(t2, v) := record_applied_fact t1 q (fact_key f) in
                     (t2, Applied q v d)) in
    history_of s' = history_of t' ∧ a = b) as Happ.
  { intros s1 t1 d E1.
    pose proof (history_record_applied s1 q (fact_key f)) as [F1 F2].
    pose proof (history_record_applied t1 q (fact_key f)) as [G1 G2].
    destruct (record_applied_fact s1 q (fact_key f)), (record_applied_fact t1 q (fact_key f)).
    cbn [fst snd] in *. by rewrite F1, F2, G1, G2, E1. }
  apply history_of_eq in E as E'. destruct E' as (E1 & E2 & E3 & E4 & E5 & E6 & E7).
  assert (∀ (u v : StateStore * ApplyResult),
    (let '(s', a) := u in let '(t', b) := v in history_of s' = history_of t' ∧ a = b) →
    history_of u.1 = history_of v.1 ∧ u.2 = v.2) as Hpair by (by intros [] []).
  apply Hpair. unfold apply_consumed, duplicate_journal_seq. rewrite <- E2, <- E3.
  destruct (applied_fact_journal s !! fact_key f); [done|].
  destruct (fi_hint f) as [|r|fam c u|a|a|pr []].
  - by apply Happ.
  - apply Happ, history_of_eq. unfold record_family_discovery; simpl. rewrite E4, E5.
    by split_and!.
  - apply Happ. unfold record_family_backfill. rewrite <- E4, <- E5.
    destruct (family_discovery_records s !! fam); apply history_of_eq; simpl; rewrite ?E4, ?E5; by split_and!.
  - split; [|done]. apply history_of_eq; simpl. rewrite E6. by split_and!.
  - apply Happ, history_of_eq; simpl. rewrite E7. by split_and!.
  - apply Happ. unfold clear_pending_reconcile. cbn [fst]. rewrite !history_of_restore_posture.
    apply history_of_eq; simpl. rewrite E6. by split_and!.
  - split; [|done]. apply history_of_eq; simpl. by split_and!.
Qed.

(** The cursors of a running store and of its replay: a bootstrapped runtime
    starts at 0, a replay at nothing. *)
Definition cursor_matches (s t : StateStore) : Prop :=
  last_consumed_journal_seq s = last_consumed_journal_seq t ∨
  (last_consumed_journal_seq s = Some 0 ∧ last_consumed_journal_seq t = None ∧
   consumed_journal t = ∅).

Lemma apply_consumed_cursor s q f :
  last_consumed_journal_seq (apply_consumed s q f).1 = last_consumed_journal_seq s.
Proof.
  pose proof (apply_consumed_settles s q f) as Hs.
  destruct (apply_consumed s q f) as [s' a]. cbn [fst].
  change (log_cursor (log_of s') = log_cursor (log_of s)).
  by inversion Hs as [|? ? ? E1 E2|]; subst; simpl.
Qed.

Lemma consume_matches s t q k :
  0 < q → history_of s = history_of t → cursor_matches s t →
  let '(s', c) := consume_journal_seq s q k in
  let '(t', d) := consume_journal_seq t q k in
  c = d ∧ history_of s' = history_of t' ∧ cursor_matches s' t' ∧
  ((c = Consumed ∨ c = AlreadyBoundToSameFact) →
   last_consumed_journal_seq s' = last_consumed_journal_seq t') ∧
  (c = OutOfOrder → last_consumed_journal_seq s' = last_consumed_journal_seq t').
Proof.
  intros Hq (E1 & E2 & E3 & E4 & E5 & E6 & E7)%history_of_eq Hc. unfold consume_journal_seq.
  assert (∀ s' t', s' = s → t' = t → history_of s' = history_of t') as Hst
    by (intros ?? -> ->; apply history_of_eq; by split_and!).
  destruct Hc as [Hc|(Hc1 & Hc2 & Hc3)].
  - rewrite <- E1, <- Hc. destruct (consumed_journal s !! q) as [k'|].
    + destruct (decide (k' = k)); (split; [done|split; [by apply Hst|]]); (split; [by left|]); done.
    + destruct (match last_consumed_journal_seq s with Some _ => _ | None => _ end).
      * split; [done|split; [by apply Hst|]]. by split; [left|].
      * split; [done|split; [|by split; [left|]]]. apply history_of_eq; simpl. rewrite E1.
        by split_and!.
  - rewrite E1, Hc3, lookup_empty, Hc1, Hc2, bool_decide_eq_false_2 by lia.
    split; [done|split; [|by split; [left|]]]. apply history_of_eq; simpl. rewrite E1, Hc3.
    by split_and!.
Qed.

(** One fact has the same result on both stores, and they keep matching. *)
Lemma apply_matches s t q f s' a :
  0 < q → history_of s = history_of t → cursor_matches s t →
  apply s q f = Returns (s', Ok a) →
  ∃ t', apply t q f = Returns (t', Ok a) ∧ history_of s' = history_of t' ∧
    last_consumed_journal_seq s' = last_consumed_journal_seq t'.
Proof.
  intros Hq E Hc. pose proof (consume_matches s t q (fact_key f) Hq E Hc) as Hm. unfold apply.
  destruct (consume_journal_seq s q (fact_key f)) as [s1 c].
  destruct (consume_journal_seq t q (fact_key f)) as [t1 d].
  destruct Hm as (<- & E1 & _ & Hcur & _).
  destruct (history_apply_consumed s1 t1 q f E1) as [F1 F2].
  pose proof (apply_consumed_cursor s1 q f) as Cs. pose proof (apply_consumed_cursor t1 q f) as Ct.
  destruct (apply_consumed s1 q f) as [s2 a2], (apply_consumed t1 q f) as [t2 b2].
  cbn [fst snd] in *. subst b2.
  destruct c; [| |done|by destruct (last_consumed_journal_seq s1)];
    intros [= <- <-]; (eexists; split; [reflexivity|]); (split; [exact F1|]);
    rewrite Cs, Ct; auto.
Qed.

(** Withdrawing the snapshot and entering [Reconciling] touch no history. *)
Lemma apply_input_store r input r' a :
  apply_input r input = Returns (r', Ok a) →
  ∃ s', apply (ar_store r) (it_journal_seq input) (into_state_fact_input input) =
          Returns (s', Ok a) ∧
    history_of (ar_store r') = history_of s' ∧
    last_consumed_journal_seq (ar_store r') = last_consumed_journal_seq s'.
Proof.
  unfold apply_input. destruct (apply _ _ _) as [[s' res]|]; simpl; [|done].
  intros [= <- ->]. exists s'. split; [done|]. by destruct a.
Qed.

Lemma replay_matches inputs r t b r' rs :
  (∀ i, i ∈ inputs → 0 < it_journal_seq i) →
  history_of (ar_store r) = history_of t → cursor_matches (ar_store r) t →
  apply_inputs r inputs = Returns (r', Ok rs) →
  ∃ t', replay_inputs t b inputs = Returns (t', Ok (b || existsb is_reconcile_required rs)) ∧
    history_of (ar_store r') = history_of t' ∧
    (inputs ≠ [] → last_consumed_journal_seq (ar_store r') = last_consumed_journal_seq t').
Proof.
  revert r t b rs. induction inputs as [|i inputs IH]; intros r t b rs Hpos E Hc; simpl.
  { intros [= <- <-]. exists t. simpl. by rewrite orb_false_r. }
  destruct (apply_input r i) as [[r1 [a|e]]|] eqn:Hi; simpl; [|done..].
  apply apply_input_store in Hi as (s1 & Hs & F1 & F2).
  destruct (apply_matches _ t _ _ _ _ (Hpos i ltac:(set_solver)) E Hc Hs) as (t1 & -> & G1 & G2).
  simpl. destruct (apply_inputs r1 inputs) as [[r2 [rs'|e]]|] eqn:Hr; simpl; [|done..].
  intros [= <- <-]. assert (∀ j, j ∈ inputs → 0 < it_journal_seq j) as Hpos' by set_solver.
  assert (history_of (ar_store r1) = history_of t1) as E1 by congruence.
  assert (last_consumed_journal_seq (ar_store r1) = last_consumed_journal_seq t1) as C1
    by congruence.
  destruct (IH r1 t1 (b || is_reconcile_required a) rs' Hpos' E1 (or_introl C1) Hr)
    as (t' & Ht & Hh & Hl).
  exists t'. rewrite Ht. simpl. rewrite orb_assoc. split; [done|split; [done|]]. intros _.
  destruct inputs as [|i' inputs]; [|by apply Hl]. simpl in *. simplify_eq. congruence.
Qed.

(** A replay that asks for no reconcile applied its first fact, and left nothing
    pending. *)
Lemma apply_progress s q f s' a :
  apply s q f = Returns (s', Ok a) →
  (is_Some (last_applied_journal_seq s) → is_Some (last_applied_journal_seq s')) ∧
  (applied_fact_journal s = ∅ →
   is_reconcile_required a = true ∨ is_Some (last_applied_journal_seq s')) ∧
  (is_reconcile_required a = false →
   pending_reconcile_anchors s = ∅ → pending_reconcile_anchors s' = ∅).
Proof.
  intros E. pose proof (apply_view _ _ _ _ _ E) as Hv. cbv beta iota in Hv.
  destruct (apply_cases s q f) as [(e & E' & _)|(s1 & Hs1 & E')];
    rewrite E' in E; [done|]. injection E as <- <-.
  assert (applied_fact_journal s1 = applied_fact_journal s ∧
          pending_reconcile_anchors s1 = pending_reconcile_anchors s) as [Ea Ep]
    by (by destruct Hs1 as [[_ ->]|[_ ->]]).
  split_and!.
  - intros Hl. destruct (is_applied _); [destruct Hv as [_ ->]; eauto|].
    by destruct Hv as (_ & -> & _).
  - intros Hnil. destruct (is_applied _) eqn:Eb; [right; destruct Hv as [_ ->]; eauto|left].
    revert Eb. unfold apply_consumed, duplicate_journal_seq. rewrite Ea, Hnil, lookup_empty.
    destruct (fi_hint f) as [| | | | |? []]; try done; by destruct (record_applied_fact _ _ _).
  - rewrite <- Ep. clear. intros Hb Hp.
    change (fh_pending (history_of (apply_consumed s1 q f).1) = ∅). revert Hb.
    assert (∀ s2 d, pending_reconcile_anchors s2 = ∅ →
      fh_pending (history_of (let '(s', v) := record_applied_fact s2 q (fact_key f) in
                              (s', Applied q v d)).1) = ∅) as Happ.
    { intros s2 d H2. pose proof (history_record_applied s2 q (fact_key f)) as [F _].
      destruct (record_applied_fact s2 q (fact_key f)). cbn [fst] in *. by rewrite F. }
    unfold apply_consumed. destruct (duplicate_journal_seq s1 (fact_key f)); [done|].
    destruct (fi_hint f) as [|r|fam c u|a|a|pr []]; intros Hb; try done; apply Happ; try done.
    + unfold record_family_backfill. by destruct (family_discovery_records s1 !! fam).
    + change (fh_pending (history_of (clear_pending_reconcile s1 pr).1) = ∅).
      unfold clear_pending_reconcile. cbn [fst]. rewrite history_of_restore_posture. simpl.
      by rewrite Hp, delete_empty.
Qed.

Lemma replay_progress inputs t b t' c :
  replay_inputs t b inputs = Returns (t', Ok c) →
  (is_Some (last_applied_journal_seq t) → is_Some (last_applied_journal_seq t')) ∧
  (applied_fact_journal t = ∅ → inputs ≠ [] →
   c = true ∨ is_Some (last_applied_journal_seq t')) ∧
  (b = true → c = true) ∧
  (c = false → pending_reconcile_anchors t = ∅ → pending_reconcile_anchors t' = ∅).
Proof.
  revert t b. induction inputs as [|i inputs IH]; intros t b; simpl.
  { intros [= <- <-]. by split_and!. }
  destruct (apply _ _ _) as [[t1 [a|e]]|] eqn:E; simpl; [|done..].
  apply apply_progress in E as (P1 & P2 & P3). intros (Q1 & Q2 & Q3 & Q4)%IH.
  assert (is_reconcile_required a = true → c = true) as Hc.
  { intros Ea. apply Q3. by rewrite Ea, orb_true_r. }
  split_and!.
  - auto.
  - intros Hnil _. destruct (P2 Hnil); auto.
  - intros ->. by apply Q3.
  - intros Ec Hp. apply Q4; [done|]. apply P3; [|done].
    destruct (is_reconcile_required a); [|done]. by rewrite Hc in Ec.
Qed.

Lemma reconcile_store_history s snap :
  history_of (reconcile_store s snap).1 = history_of s ∧
  last_consumed_journal_seq (reconcile_store s snap).1 = last_consumed_journal_seq s ∧
  last_applied_journal_seq (reconcile_store s snap).1 = last_applied_journal_seq s.
Proof.
  unfold reconcile_store. case_bool_decide; cbn [negb]; [|done].
  pose proof (complete_reconcile_adopted s snap) as [[_ _ _ _ _ _ _ _ _ Hj] _].
  assert (history_of (complete_reconcile s snap).1 = history_of s) as Hh.
  { unfold complete_reconcile. cbn [fst]. rewrite history_of_restore_posture.
    case_match; done. }
  destruct (complete_reconcile s snap) as [s' p]. cbn [fst] in *.
  unfold set_mode_if_reconciled in *. rewrite history_of_restore_posture. by destruct_and!.
Qed.

(** A runtime whose bootstrap succeeded starts at the baseline. *)
Lemma bootstrap_baseline mode snap :
  rr_succeeded (bootstrap_once (runtime_new mode) snap).2 = true →
  history_of (ar_store (bootstrap_once (runtime_new mode) snap).1) = history_of store_new ∧
  last_journal_seq (bootstrap_once (runtime_new mode) snap).1 = Some 0.
Proof.
  unfold bootstrap_once, last_journal_seq.
  pose proof (reconcile_store_history store_new snap) as (Hh & Hc & Ha).
  cbn [ar_store runtime_new].
  destruct (reconcile_store store_new snap) as [s report]. cbn [fst snd] in *. intros ->.
  unfold anchor_baseline_if_ready. cbn [ar_store set AppRuntime_eta andb].
  rewrite bool_decide_eq_true_2 by exact Ha. cbn [ar_store].
  unfold mark_reconciled_after_restore. rewrite Ha. split; [|done].
  apply history_of_eq. apply history_of_eq in Hh. simpl. by destruct_and!.
Qed.

Lemma replayed_posture_history t b :
  (b = false → pending_reconcile_anchors t = ∅) →
  history_of (replayed_posture t b) = history_of t ∧
  runtime_mode (replayed_posture t b) = (if b then Reconciling else Healthy) ∧
  last_consumed_journal_seq (replayed_posture t b) =
    (if b then last_consumed_journal_seq t
     else if bool_decide (last_applied_journal_seq t = None) then Some 0
     else last_consumed_journal_seq t).
Proof.
  intros Hp. unfold replayed_posture. destruct b; [done|]. case_bool_decide as E; [|done].
  unfold mark_reconciled_after_restore. rewrite E. split_and!; [|done..].
  apply history_of_eq; simpl. rewrite Hp by done. by split_and!.
Qed.

(** Replaying the inputs a baseline runtime took rebuilds its history and cursor. *)
Lemma replay_rebuilds inputs r0 r rs r1 :
  history_of (ar_store r0) = history_of store_new → last_journal_seq r0 = Some 0 →
  (∀ i, i ∈ inputs → 0 < it_journal_seq i) →
  apply_inputs r0 inputs = Returns (r, Ok rs) →
  ∃ r2, replay_committed_history r1 inputs = Returns (r2, Ok ()) ∧
    history_of (ar_store r2) = history_of (ar_store r) ∧
    last_journal_seq r2 = last_journal_seq r ∧
    ar_published_snapshot r2 = None ∧
    runtime_mode (ar_store r2) =
      (if existsb is_reconcile_required rs then Reconciling else Healthy) ∧
    (pending_reconcile_anchors (ar_store r2) ≠ ∅ → runtime_mode (ar_store r2) = Reconciling).
Proof.
  intros Hh Hc Hpos Hrun.
  destruct (replay_matches inputs _ store_new false r rs Hpos Hh
              (or_intror (conj Hc (conj eq_refl eq_refl))) Hrun) as (t & Ht & Eh & Ec).
  pose proof (replay_progress _ _ _ _ _ Ht) as (_ & P2 & _ & P4). simpl in Ht, P2, P4.
  unfold replay_committed_history. cbn [ar_store set AppRuntime_eta]. rewrite Ht.
  eexists. split; [reflexivity|]. unfold last_journal_seq in *. cbn [ar_store set AppRuntime_eta].
  set (b := existsb is_reconcile_required rs) in *.
  assert (b = false → pending_reconcile_anchors t = ∅) as Hp by auto.
  destruct (replayed_posture_history t b Hp) as (Q1 & Q2 & Q3). split_and!.
  - by rewrite Q1, Eh.
  - rewrite Q3. destruct inputs as [|i inputs].
    { simpl in Hrun, Ht. simplify_eq. rewrite Hc. reflexivity. }
    rewrite Ec by done. destruct (P2 eq_refl ltac:(done)) as [->|[q ->]]; [done|].
    by destruct b.
  - done.
  - done.
  - intros Hne. rewrite Q2. destruct b; [done|]. destruct Hne.
    change (fh_pending (history_of (replayed_posture t false)) = ∅). rewrite Q1.
    by apply Hp.
Qed.
(** C3. A restart rebuilds what was committed: when a bootstrapped runtime took
    a sequence of inputs, replaying the same inputs into any runtime succeeds, and
    gives the same fact history (bindings, applied facts, version, discovery
    records and backfills, pending anchors, attention) and the same journal
    cursor, with nothing published. The replayed runtime is Reconciling if any
    input required a reconcile, and otherwise Healthy; it is never Healthy with
    anchors pending. *)
Theorem restart_rebuilds mode snap inputs r rs r0
    (Hboot : rr_succeeded (bootstrap_once (runtime_new mode) snap).2 = true)
    (Hpos : ∀ i, i ∈ inputs → 0 < it_journal_seq i)
    (Hrun : apply_inputs (bootstrap_once (runtime_new mode) snap).1 inputs = Returns (r, Ok rs)) :
  ∃ r2, replay_committed_history r0 inputs = Returns (r2, Ok ()) ∧
    history_of (ar_store r2) = history_of (ar_store r) ∧
    last_journal_seq r2 = last_journal_seq r ∧
    ar_published_snapshot r2 = None ∧
    runtime_mode (ar_store r2) =
      (if existsb is_reconcile_required rs then Reconciling else Healthy) ∧
    (pending_reconcile_anchors (ar_store r2) ≠ ∅ → runtime_mode (ar_store r2) = Reconciling).
Proof.
  destruct (bootstrap_baseline mode snap Hboot) as [Hh Hc].
  exact (replay_rebuilds inputs _ r rs r0 Hh Hc Hpos Hrun).
Qed.
End runtime.

(** ** Concrete runs *)

Definition demo_inputs : list (@InputTaskEvent Micros) :=
  [input_new 1 (fi_event demo_discovery); input_new 2 (fi_event demo_submit);
   input_new 3 (fi_event demo_reconcile)].

Definition demo_runtime : @AppRuntime Micros :=
  (bootstrap_once (H := ElementsOrder) (runtime_new LiveMode) remote_snapshot_empty).1.

Definition inputs_ok (r : @AppRuntime Micros) (inputs : list (@InputTaskEvent Micros)) : bool :=
  match apply_inputs r inputs with Returns (_, Ok _) => true | _ => false end.

Lemma restart_rebuilds_witness :
  ∃ r2, replay_committed_history demo_runtime demo_inputs = Returns (r2, Ok ()) ∧
    (pending_reconcile_anchors (ar_store r2) ≠ ∅ → runtime_mode (ar_store r2) = Reconciling).
Proof.
  assert (inputs_ok demo_runtime demo_inputs = true) as Hok by (vm_compute; reflexivity).
  unfold inputs_ok in Hok.
  destruct (apply_inputs demo_runtime demo_inputs) as [[r [rs|e]]|] eqn:Hrun; try discriminate.
  destruct (restart_rebuilds (H := ElementsOrder) LiveMode remote_snapshot_empty demo_inputs r rs
    demo_runtime ltac:(vm_compute; reflexivity)
    ltac:(intros i Hi; unfold demo_inputs in Hi; repeat (apply elem_of_cons in Hi as [->|Hi];
          [reflexivity|]); by apply elem_of_nil in Hi) Hrun)
    as (r2 & H1 & _ & _ & _ & _ & H2).
  by exists r2.
Defined.

Definition demo_published : @AppRuntime Micros :=
  run_runtime_op (H := ElementsOrder)
    (run_runtime_op (H := ElementsOrder) (runtime_new (X := Micros) LiveMode)
       (RtRestoreCommittedAnchor 7 41)) (RtPublish "snapshot-7").

Lemma demo_published_reachable : runtime_reachable (H := ElementsOrder) LiveMode demo_published.
Proof.
  apply (runtime_next (H := ElementsOrder) LiveMode _ (RtPublish "snapshot-7")); [|exact I].
  apply (runtime_next (H := ElementsOrder) LiveMode _ (RtRestoreCommittedAnchor 7 41));
    [constructor|reflexivity].
Qed.


(** A replay that applied no fact leaves the store without a last applied
    sequence number, so the next successful reconcile takes the baseline branch of
    [mark_reconciled_after_restore] and puts the journal cursor back to 0, behind
    the sequence number 5 that is already bound. *)
Example reconcile_regresses_cursor :
  let cursor_after ops :=
    last_journal_seq (foldl (run_runtime_op (H := ElementsOrder)) (runtime_new (X := Micros) LiveMode) ops) in
  let replayed := [RtReplay [input_new 5 (fi_event demo_submit)]] in
  cursor_after replayed = Some 5 ∧
  cursor_after (replayed ++ [RtReconcile remote_snapshot_empty]) = Some 0.
Proof. split; vm_compute; reflexivity. Qed.
