(* ===== verification/Pricing.v ===== *)
(** * Full-set pricing

    [strategy-fullset/src/pricing.rs] and [intent.rs]: the edge of buying both
    outcomes and merging them, and of splitting and selling both. Decimal
    arithmetic may panic, so an evaluation is an outcome of a result. *)

From S2P Require Import Prelude RecordSet Externals Domain RuntimeMode Facts Store Apply.
From S2P Require Import Reconcile StoreInvariants Snapshot.

Section pricing.
Context {X : Externals}.

Record FullSetLeg := { fl_quantity : Decimal; fl_price_usdc : Decimal }.

Record FullSetFees := {
  leg_fee_rate : Decimal;
  merge_fee_usdc : Decimal;
  split_fee_usdc : Decimal;
}.

Record QuantizationPolicy := { usdc_dp : Z; price_quantum : Decimal }.

Record PricingBreakdown := {
  gross_usdc : Decimal;
  input_cost_usdc : Decimal;
  fee_usdc_equiv : Decimal;
  rounding_loss_usdc : Decimal;
  net_output_usdc : Decimal;
}.

Record NormalizedEdge := {
  ne_breakdown : PricingBreakdown;
  ne_net_edge_usdc : Decimal;
  ne_net_edge_bps : Decimal;
}.

Inductive PricingError :=
| InvalidPriceQuantum (price_quantum : Decimal)
| QuantityMismatch (yes_quantity no_quantity : Decimal)
| NegativeQuantity (leg : string) (quantity : Decimal)
| NegativePrice (leg : string) (price_usdc : Decimal)
| PriceAboveOne (leg : string) (price_usdc : Decimal)
| PriceOffTick (leg : string) (price_usdc price_quantum : Decimal).

Definition usdc_cents : QuantizationPolicy := {| usdc_dp := 2; price_quantum := dec_new 1 3 |}.

Definition with_price_quantum (quantum : Decimal) : result PricingError QuantizationPolicy :=
  if dec_leb quantum dec_zero then Err (InvalidPriceQuantum quantum)
  else Ok {| usdc_dp := 2; price_quantum := quantum |}.

Definition quantize (q : QuantizationPolicy) (value : Decimal) : Decimal :=
  dec_round_dp ToZero (usdc_dp q) value.

Definition quantize_fee (q : QuantizationPolicy) (value : Decimal) : Decimal :=
  dec_round_dp ToPositiveInfinity (usdc_dp q) value.

Definition notional (l : FullSetLeg) : outcome Decimal :=
  expect (dec_mul (fl_quantity l) (fl_price_usdc l)).

Definition quantized_leg_fees (yes_leg no_leg : FullSetLeg) (rate : Decimal)
    (q : QuantizationPolicy) : outcome Decimal :=
  yes_notional ← notional yes_leg;
  yes_fee ← expect (dec_mul yes_notional rate);
  no_notional ← notional no_leg;
  no_fee ← expect (dec_mul no_notional rate);
  expect (dec_add (quantize_fee q yes_fee) (quantize_fee q no_fee)).

Definition validate_leg (leg : string) (l : FullSetLeg) (q : QuantizationPolicy) :
    outcome (result PricingError ()) :=
  if dec_ltb (fl_quantity l) dec_zero then Returns (Err (NegativeQuantity leg (fl_quantity l)))
  else if dec_ltb (fl_price_usdc l) dec_zero then
    Returns (Err (NegativePrice leg (fl_price_usdc l)))
  else if dec_ltb dec_one (fl_price_usdc l) then
    Returns (Err (PriceAboveOne leg (fl_price_usdc l)))
  else
    ticks ← expect (dec_div (fl_price_usdc l) (price_quantum q));
    if negb (dec_eqb (dec_fract ticks) dec_zero) then
      Returns (Err (PriceOffTick leg (fl_price_usdc l) (price_quantum q)))
    else Returns (Ok ()).

Definition matched_quantity (yes_leg no_leg : FullSetLeg) : result PricingError Decimal :=
  if negb (dec_eqb (fl_quantity yes_leg) (fl_quantity no_leg)) then
    Err (QuantityMismatch (fl_quantity yes_leg) (fl_quantity no_leg))
  else Ok (fl_quantity yes_leg).

Definition build_result (gross input_cost fee rounding_loss net_output : Decimal) :
    outcome NormalizedEdge :=
  net ← expect (dec_sub net_output input_cost);
  net_edge ← expect (dec_sub net fee);
  bps ← (if dec_eqb input_cost dec_zero then Returns dec_zero
         else scaled ← expect (dec_mul net_edge (dec_new 10000 0));
              expect (dec_div scaled input_cost));
  Returns {| ne_breakdown :=
               {| gross_usdc := gross; input_cost_usdc := input_cost; fee_usdc_equiv := fee;
                  rounding_loss_usdc := rounding_loss; net_output_usdc := net_output |};
             ne_net_edge_usdc := net_edge; ne_net_edge_bps := bps |}.

Definition evaluate_buy_yes_buy_no_merge (yes_leg no_leg : FullSetLeg) (fees : FullSetFees)
    (q : QuantizationPolicy) : outcome (result PricingError NormalizedEdge) :=
  _ ←? validate_leg "YES" yes_leg q;
  _ ←? validate_leg "NO" no_leg q;
  gross ←? Returns (matched_quantity yes_leg no_leg);
  yes_notional ← notional yes_leg;
  no_notional ← notional no_leg;
  input_cost ← expect (dec_add yes_notional no_notional);
  leg_fees ← quantized_leg_fees yes_leg no_leg (leg_fee_rate fees) q;
  fee ← expect (dec_add leg_fees (quantize_fee q (merge_fee_usdc fees)));
  let net_output := quantize q gross in
  rounding_loss ← expect (dec_sub gross net_output);
  edge ← build_result gross input_cost fee rounding_loss net_output;
  Returns (Ok edge).

Definition evaluate_split_sell_yes_sell_no (yes_leg no_leg : FullSetLeg) (fees : FullSetFees)
    (q : QuantizationPolicy) : outcome (result PricingError NormalizedEdge) :=
  _ ←? validate_leg "YES" yes_leg q;
  _ ←? validate_leg "NO" no_leg q;
  input_cost ←? Returns (matched_quantity yes_leg no_leg);
  yes_notional ← notional yes_leg;
  no_notional ← notional no_leg;
  gross ← expect (dec_add yes_notional no_notional);
  net_output ← expect (dec_add (quantize q yes_notional) (quantize q no_notional));
  leg_fees ← quantized_leg_fees yes_leg no_leg (leg_fee_rate fees) q;
  fee ← expect (dec_add leg_fees (quantize_fee q (split_fee_usdc fees)));
  rounding_loss ← expect (dec_sub gross net_output);
  edge ← build_result gross input_cost fee rounding_loss net_output;
  Returns (Ok edge).

(** [intent.rs] of the full-set strategy *)
Definition stable_intent_id (route scope snapshot_id : string) (version : Z) : string :=
  route +:+ ":" +:+ scope +:+ ":" +:+ snapshot_id +:+ ":" +:+ pretty version.

Definition fullset_build_intents (v : FullSetView) : list DecisionInput :=
  [Strategy {| ic_intent_id :=
                 stable_intent_id "full-set" "default" (fv_snapshot_id v) (fv_state_version v);
               ic_source_snapshot_id := fv_snapshot_id v;
               ic_route := "full-set"; ic_scope := "default" |}].

(** ** What a priced edge guarantees *)

(** A leg the venue can trade: a quantity, and a price on a tick between 0 and 1. *)
Record valid_leg (l : FullSetLeg) (q : QuantizationPolicy) : Prop := {
  vl_quantity : dec_leb dec_zero (fl_quantity l) = true;
  vl_price_low : dec_leb dec_zero (fl_price_usdc l) = true;
  vl_price_high : dec_leb (fl_price_usdc l) dec_one = true;
  vl_tick : ∃ ticks, dec_div (fl_price_usdc l) (price_quantum q) = Some ticks ∧
    dec_eqb (dec_fract ticks) dec_zero = true;
}.

(** The fees before they are rounded. *)
Definition exact_fees (yes_leg no_leg : FullSetLeg) (rate action_fee : Decimal) : option Decimal :=
  yes_notional ← dec_mul (fl_quantity yes_leg) (fl_price_usdc yes_leg);
  yes_fee ← dec_mul yes_notional rate;
  no_notional ← dec_mul (fl_quantity no_leg) (fl_price_usdc no_leg);
  no_fee ← dec_mul no_notional rate;
  legs ← dec_add yes_fee no_fee;
  dec_add legs action_fee.

(** The rounding never favours the engine, and the edge is what remains of the
    output after the input and the fees. *)
Record conservative (yes_leg no_leg : FullSetLeg) (rate action_fee : Decimal)
    (e : NormalizedEdge) : Prop := {
  co_output : dec_leb (net_output_usdc (ne_breakdown e)) (gross_usdc (ne_breakdown e)) = true;
  co_loss : dec_sub (gross_usdc (ne_breakdown e)) (net_output_usdc (ne_breakdown e)) =
              Some (rounding_loss_usdc (ne_breakdown e)) ∧
            dec_leb dec_zero (rounding_loss_usdc (ne_breakdown e)) = true;
  co_fees : ∀ f, exact_fees yes_leg no_leg rate action_fee = Some f →
    dec_leb f (fee_usdc_equiv (ne_breakdown e)) = true;
  co_edge : ∃ net, dec_sub (net_output_usdc (ne_breakdown e)) (input_cost_usdc (ne_breakdown e)) =
                     Some net ∧
                   dec_sub net (fee_usdc_equiv (ne_breakdown e)) = Some (ne_net_edge_usdc e);
}.

(** ** Lemmas *)

Context `{!OrderLaws X, !RoundingLaws X}.

Lemma dec_ltb_leb a b : dec_ltb a b = false ↔ dec_leb b a = true.
Proof.
  unfold dec_ltb, dec_leb. rewrite (cmp_opp (cmp := dec_cmp) a b).
  by destruct (dec_cmp a b).
Qed.

Lemma validate_leg_Ok leg l q :
  validate_leg leg l q = Returns (Ok ()) ↔ valid_leg l q.
Proof.
  unfold validate_leg. split.
  - destruct (dec_ltb (fl_quantity l) dec_zero) eqn:E1; [done|].
    destruct (dec_ltb (fl_price_usdc l) dec_zero) eqn:E2; [done|].
    destruct (dec_ltb dec_one (fl_price_usdc l)) eqn:E3; [done|].
    apply dec_ltb_leb in E1, E2, E3.
    destruct (dec_div _ _) as [ticks|] eqn:E4; simpl; [|done].
    destruct (dec_eqb (dec_fract ticks) dec_zero) eqn:E5; simpl; [|done]. intros _.
    split; eauto.
  - intros [H1%dec_ltb_leb H2%dec_ltb_leb H3%dec_ltb_leb (ticks & H4 & H5)].
    rewrite H1, H2, H3, H4. simpl. by rewrite H5.
Qed.

Lemma notional_Returns l n :
  notional l = Returns n ↔ dec_mul (fl_quantity l) (fl_price_usdc l) = Some n.
Proof. apply expect_Returns. Qed.

Lemma notional_nonneg l q n :
  valid_leg l q → notional l = Returns n → dec_leb dec_zero n = true.
Proof. intros [Hq Hp _ _] Hn%notional_Returns. eapply mul_nonneg; [exact Hq|exact Hp|exact Hn]. Qed.

Lemma matched_quantity_Ok yes no n :
  matched_quantity yes no = Ok n ↔
  dec_eqb (fl_quantity yes) (fl_quantity no) = true ∧ n = fl_quantity yes.
Proof.
  unfold matched_quantity. destruct (dec_eqb _ _); simpl; naive_solver.
Qed.

(** Rounded fees cover the exact ones. *)
Lemma quantized_fees_cover yes no rate action q legs fee f :
  quantized_leg_fees yes no rate q = Returns legs →
  dec_add legs (quantize_fee q action) = Some fee →
  exact_fees yes no rate action = Some f → dec_leb f fee = true.
Proof.
  unfold quantized_leg_fees, exact_fees.
  intros (ny & Hny%notional_Returns & (fy & Hfy%expect_Returns & (nn & Hnn%notional_Returns &
    (fn & Hfn%expect_Returns & Hl%expect_Returns)%outcome_bind_Returns)%outcome_bind_Returns)
    %outcome_bind_Returns)%outcome_bind_Returns Hfee.
  rewrite Hny; simpl. rewrite Hfy; simpl. rewrite Hnn; simpl. rewrite Hfn; simpl.
  destruct (dec_add fy fn) as [l|] eqn:El; simpl; [|done]. intros Hf.
  eapply add_mono; [|apply round_up_ge|exact Hf|exact Hfee].
  eapply add_mono; [apply round_up_ge..|exact El|exact Hl].
Qed.

Lemma build_result_Returns gross input fee loss net e :
  build_result gross input fee loss net = Returns e →
  ne_breakdown e = {| gross_usdc := gross; input_cost_usdc := input; fee_usdc_equiv := fee;
                      rounding_loss_usdc := loss; net_output_usdc := net |} ∧
  ∃ n, dec_sub net input = Some n ∧ dec_sub n fee = Some (ne_net_edge_usdc e).
Proof.
  unfold build_result.
  intros (n & Hn%expect_Returns & (d & Hd%expect_Returns & (b & _ & [= <-])%outcome_bind_Returns)
    %outcome_bind_Returns)%outcome_bind_Returns.
  simpl. eauto.
Qed.

(** The common end of both evaluations. *)
Lemma conservative_result yes no rate action q legs gross input fee loss net e :
  quantized_leg_fees yes no rate q = Returns legs →
  dec_add legs (quantize_fee q action) = Some fee →
  dec_leb net gross = true → dec_sub gross net = Some loss →
  build_result gross input fee loss net = Returns e →
  conservative yes no rate action e.
Proof.
  intros Hl Hf Hng Hs (Eb & He)%build_result_Returns. split; rewrite Eb; simpl.
  - done.
  - split; [done|]. by eapply sub_nonneg.
  - intros f Hx. by eapply quantized_fees_cover.
  - done.
Qed.

End pricing.

(** ** A concrete edge *)

Definition demo_leg (price : Z) : @FullSetLeg Micros :=
  {| fl_quantity := (10000000 : @Decimal Micros); fl_price_usdc := (price : @Decimal Micros) |}.
Definition demo_fees : @FullSetFees Micros :=
  {| leg_fee_rate := (1000 : @Decimal Micros); merge_fee_usdc := (1500 : @Decimal Micros);
     split_fee_usdc := (1500 : @Decimal Micros) |}.

