(* ===== verification/NegRisk.v ===== *)
(** * Neg-risk families

    [domain/src/negrisk.rs] and [crates/strategy-negrisk]: the graph of families
    built from venue metadata, their validation, the exposure of an inventory to a
    family, family halts and the intents of the strategy. *)

From S2P Require Import Prelude Text RecordSet Externals Domain RuntimeMode Identifiers Facts Store.
From S2P Require Import Apply Reconcile StoreInvariants Snapshot Pricing.

(** ** Data *)

Inductive NegRiskVariant := StandardVariant | Augmented | UnknownVariant.
#[export] Instance NegRiskVariant_eq_dec : EqDecision NegRiskVariant.
Proof. solve_decision. Defined.

Record NegRiskNode := {
  nn_token_id : TokenId;
  nn_outcome_label : string;
  nn_is_placeholder : bool;
  nn_is_other : bool;
  nn_route : MarketRoute;
}.

Record NegRiskFamily := {
  nf_family_id : EventFamilyId;
  nf_route : MarketRoute;
  nf_members : list NegRiskNode;
}.

Inductive FamilyExclusionReason :=
| PlaceholderOutcome | OtherOutcome | AugmentedVariant | MissingNamedOutcomes | NonNegRiskRoute.

(** [venue_polymarket::NegRiskMarketMetadata] *)
Record NegRiskMarketMetadata := {
  mm_event_family_id : string;
  mm_event_id : string;
  mm_condition_id : string;
  mm_token_id : string;
  mm_outcome_label : string;
  mm_route : MarketRoute;
  mm_enable_neg_risk : option bool;
  mm_neg_risk_augmented : option bool;
  mm_neg_risk_variant : NegRiskVariant;
  mm_is_placeholder : bool;
  mm_is_other : bool;
  mm_discovery_revision : Z;
  mm_metadata_snapshot_hash : string;
}.

(** ** graph.rs *)

Record NegRiskGraphFamily := {
  gf_family : NegRiskFamily;
  gf_neg_risk_variant : NegRiskVariant;
}.

Definition NegRiskGraph : Type := list NegRiskGraphFamily.

Inductive GraphBuildError :=
| InvalidIdentifierRecords (e : IdentifierMapError)
| DuplicateMetadataMember (event_family_id condition_id token_id : string)
| MissingIdentifierRecord (condition_id token_id : string)
| MismatchedFamilyId (condition_id record_family_id metadata_family_id : string)
| MismatchedRoute (condition_id : string) (record_route metadata_route : MarketRoute)
| MixedFamilyRoute (event_family_id : string) (existing_route new_route : MarketRoute).

Record FamilyAccumulator := {
  fac_family_id : EventFamilyId;
  fac_route : MarketRoute;
  fac_members : list NegRiskNode;
  fac_variant : NegRiskVariant;
}.

Definition merge_variant (existing incoming : NegRiskVariant) : NegRiskVariant :=
  match existing, incoming with
  | Augmented, _ | _, Augmented => Augmented
  | UnknownVariant, _ | _, UnknownVariant => UnknownVariant
  | StandardVariant, StandardVariant => StandardVariant
  end.

Record GraphState := {
  gs_family_order : list EventFamilyId;
  gs_accumulators : gmap EventFamilyId FamilyAccumulator;
  gs_seen : gset (string * string);
}.

Definition metadata_member_key (row : NegRiskMarketMetadata) : string * string :=
  (mm_condition_id row, mm_token_id row).

Definition node_of_row (row : NegRiskMarketMetadata) : NegRiskNode :=
  {| nn_token_id := mm_token_id row; nn_outcome_label := mm_outcome_label row;
     nn_is_placeholder := mm_is_placeholder row; nn_is_other := mm_is_other row;
     nn_route := mm_route row |}.

(** [entry(key).or_insert(record)]: the first record of a member stays. *)
Definition index_records (records : list IdentifierRecord) :
    gmap (string * string) IdentifierRecord :=
  foldl (λ m r, let key := (ir_condition_id r, ir_token_id r) in
                match m !! key with Some _ => m | None => <[key := r]> m end) ∅ records.

(** The body of the loop over the metadata rows. *)
Definition add_metadata_row (records_by_member : gmap (string * string) IdentifierRecord)
    (st : GraphState) (row : NegRiskMarketMetadata) : result GraphBuildError GraphState :=
  if bool_decide (metadata_member_key row ∈ gs_seen st) then
    Err (DuplicateMetadataMember (mm_event_family_id row) (mm_condition_id row) (mm_token_id row))
  else
    let seen := {[ metadata_member_key row ]} ∪ gs_seen st in
    match records_by_member !! metadata_member_key row with
    | None => Err (MissingIdentifierRecord (mm_condition_id row) (mm_token_id row))
    | Some record =>
        if negb (bool_decide (ir_event_family_id record = mm_event_family_id row)) then
          Err (MismatchedFamilyId (mm_condition_id row) (ir_event_family_id record)
                 (mm_event_family_id row))
        else if negb (bool_decide (ir_route record = mm_route row)) then
          Err (MismatchedRoute (mm_condition_id row) (ir_route record) (mm_route row))
        else
          let family_id := ir_event_family_id record in
          let '(order, family) :=
            match gs_accumulators st !! family_id with
            | Some family => (gs_family_order st, family)
            | None =>
                (gs_family_order st ++ [family_id],
                 {| fac_family_id := family_id; fac_route := ir_route record;
                    fac_members := []; fac_variant := mm_neg_risk_variant row |})
            end in
          if negb (bool_decide (fac_route family = ir_route record)) then
            Err (MixedFamilyRoute (fac_family_id family) (fac_route family) (ir_route record))
          else
            Ok {| gs_family_order := order;
                  gs_accumulators :=
                    <[family_id :=
                        {| fac_family_id := fac_family_id family;
                           fac_route := fac_route family;
                           fac_members := fac_members family ++ [node_of_row row];
                           fac_variant :=
                             merge_variant (fac_variant family) (mm_neg_risk_variant row) |}]>
                      (gs_accumulators st);
                  gs_seen := seen |}
    end.

Definition graph_family (family : FamilyAccumulator) : NegRiskGraphFamily :=
  {| gf_family := {| nf_family_id := fac_family_id family; nf_route := fac_route family;
                     nf_members := fac_members family |};
     gf_neg_risk_variant := fac_variant family |}.

(** The last loop: the accumulators are taken out in the order of the families. *)
Fixpoint collect_families (accumulators : gmap EventFamilyId FamilyAccumulator)
    (order : list EventFamilyId) : outcome NegRiskGraph :=
  match order with
  | [] => Returns []
  | family_id :: order' =>
      family ← expect (accumulators !! family_id);
      families ← collect_families (delete family_id accumulators) order';
      Returns (graph_family family :: families)
  end.

Definition graph_state_new : GraphState :=
  {| gs_family_order := []; gs_accumulators := ∅; gs_seen := ∅ |}.

Definition build_family_graph (records : list IdentifierRecord)
    (metadata : list NegRiskMarketMetadata) : outcome (result GraphBuildError NegRiskGraph) :=
  match from_records records with
  | Err e => Returns (Err (InvalidIdentifierRecords e))
  | Ok _ =>
      match try_fold (add_metadata_row (index_records records)) graph_state_new metadata with
      | Err e => Returns (Err e)
      | Ok st =>
          families ← collect_families (gs_accumulators st) (gs_family_order st);
          Returns (Ok families)
      end
  end.

(** ** validator.rs *)

Definition has_named_outcome (member : NegRiskNode) : bool :=
  negb (nn_is_placeholder member) && negb (nn_is_other member) &&
  negb (is_blank (nn_outcome_label member)).

Inductive FamilyValidationStatus := Included | Excluded.

Record FamilyValidation := {
  fvd_family_id : string;
  fvd_status : FamilyValidationStatus;
  fvd_reason : option FamilyExclusionReason;
  fvd_discovery_revision : Z;
  fvd_metadata_snapshot_hash : string;
  fvd_member_count : nat;
}.

Definition exclusion_reason (f : NegRiskGraphFamily) : option FamilyExclusionReason :=
  let members := nf_members (gf_family f) in
  if negb (bool_decide (nf_route (gf_family f) = NegRisk)) then Some NonNegRiskRoute
  else if bool_decide (gf_neg_risk_variant f = Augmented) then Some AugmentedVariant
  else if existsb nn_is_placeholder members then Some PlaceholderOutcome
  else if existsb nn_is_other members then Some OtherOutcome
  else if negb (existsb has_named_outcome members) then Some MissingNamedOutcomes
  else None.

Definition validate_family (f : NegRiskGraphFamily) (discovery_revision : Z)
    (metadata_snapshot_hash : string) : FamilyValidation :=
  {| fvd_family_id := nf_family_id (gf_family f);
     fvd_status := match exclusion_reason f with Some _ => Excluded | None => Included end;
     fvd_reason := exclusion_reason f;
     fvd_discovery_revision := discovery_revision;
     fvd_metadata_snapshot_hash := metadata_snapshot_hash;
     fvd_member_count := length (nf_members (gf_family f)) |}.

(** ** intent.rs *)

(** [dedup]: of equal neighbours the first stays. *)
Fixpoint dedup (l : list string) : list string :=
  match l with
  | [] => []
  | x :: l' =>
      match dedup l' with
      | y :: l'' => if decide (x = y) then x :: l'' else x :: y :: l''
      | [] => [x]
      end
  end.

Definition negrisk_build_intents (v : NegRiskView) : list DecisionInput :=
  match family_ids v with
  | [] => []
  | ids =>
      (λ family_id,
         Strategy {| ic_intent_id :=
                       stable_intent_id "neg-risk" family_id (nv_snapshot_id v)
                         (nv_state_version v);
                     ic_source_snapshot_id := nv_snapshot_id v;
                     ic_route := "neg-risk"; ic_scope := family_id |})
      <$> dedup (sort_by str_cmp ids)
  end.

(** ** Family halts *)

Inductive FamilyHaltStatus := ActiveBlocking | StaleBlocking | Cleared.
#[export] Instance FamilyHaltStatus_eq_dec : EqDecision FamilyHaltStatus.
Proof. solve_decision. Defined.

Record FamilyHaltState := {
  fh_family_id : EventFamilyId;
  fh_metadata_snapshot_hash : string;
  fh_status : FamilyHaltStatus;
}.

Definition halt_active (family_id hash : string) : FamilyHaltState :=
  {| fh_family_id := family_id; fh_metadata_snapshot_hash := hash; fh_status := ActiveBlocking |}.

Definition with_halt_status (h : FamilyHaltState) (s : FamilyHaltStatus) : FamilyHaltState :=
  {| fh_family_id := fh_family_id h; fh_metadata_snapshot_hash := fh_metadata_snapshot_hash h;
     fh_status := s |}.

Definition reconcile_against_snapshot_hash (h : FamilyHaltState) (latest : string) :
    FamilyHaltState * FamilyHaltStatus :=
  if bool_decide (fh_status h = Cleared) then (h, fh_status h)
  else
    let s := if bool_decide (fh_metadata_snapshot_hash h = latest) then ActiveBlocking
             else StaleBlocking in
    (with_halt_status h s, s).

Definition revalidate_against_snapshot_hash (h : FamilyHaltState) (latest : string) :
    FamilyHaltState * FamilyHaltStatus :=
  ({| fh_family_id := fh_family_id h; fh_metadata_snapshot_hash := latest;
      fh_status := ActiveBlocking |}, ActiveBlocking).

Definition halt_clear (h : FamilyHaltState) : FamilyHaltState * FamilyHaltStatus :=
  (with_halt_status h Cleared, Cleared).

(** ** The graph, as a function of the metadata *)

(** The distinct elements of a list, in the order they first occur. *)
Fixpoint first_occurrences (l : list string) : list string :=
  match l with
  | [] => []
  | x :: l' => x :: filter (.≠ x) (first_occurrences l')
  end.

Definition rows_of (rows : list NegRiskMarketMetadata) (id : string) :
    list NegRiskMarketMetadata :=
  filter (λ r, mm_event_family_id r = id) rows.

(** The family a graph holds under an id: the rows that name it, in order, with
    the route of the first and the variants merged. *)
Definition family_of_rows (id : string) (rows : list NegRiskMarketMetadata) :
    option NegRiskGraphFamily :=
  match rows with
  | [] => None
  | r0 :: rest =>
      Some {| gf_family := {| nf_family_id := id; nf_route := mm_route r0;
                              nf_members := node_of_row <$> rows |};
              gf_neg_risk_variant :=
                foldl merge_variant (mm_neg_risk_variant r0) (mm_neg_risk_variant <$> rest) |}
  end.

Definition graph_of_rows (rows : list NegRiskMarketMetadata) : NegRiskGraph :=
  omap (λ id, family_of_rows id (rows_of rows id))
    (first_occurrences (mm_event_family_id <$> rows)).

(** What the rows must satisfy: distinct members, each with an identifier record
    that gives the same family and route, and one route per family. *)
Definition rows_valid (records : list IdentifierRecord) (rows : list NegRiskMarketMetadata) :
    Prop :=
  NoDup (metadata_member_key <$> rows) ∧
  (∀ row, row ∈ rows → ∃ r, r ∈ records ∧ ir_condition_id r = mm_condition_id row ∧
     ir_token_id r = mm_token_id row ∧ ir_event_family_id r = mm_event_family_id row ∧
     ir_route r = mm_route row) ∧
  (∀ row row', row ∈ rows → row' ∈ rows →
     mm_event_family_id row = mm_event_family_id row' → mm_route row = mm_route row').

(** ** Lemmas *)

Lemma merge_variant_idem v : merge_variant v v = v.
Proof. by destruct v. Qed.

Lemma first_occurrences_elem x l : x ∈ first_occurrences l ↔ x ∈ l.
Proof.
  induction l as [|y l IH]; simpl; [done|].
  rewrite !elem_of_cons, list_elem_of_filter, IH. destruct (decide (x = y)); naive_solver.
Qed.

Lemma first_occurrences_NoDup l : NoDup (first_occurrences l).
Proof.
  induction l as [|x l IH]; simpl; [constructor|]. constructor.
  - rewrite list_elem_of_filter. by intros [? _].
  - by apply NoDup_filter.
Qed.

Lemma filter_ne_notin (x : string) (l : list string) : x ∉ l → filter (.≠ x) l = l.
Proof.
  induction l as [|y l IH]; [done|]. rewrite not_elem_of_cons. intros [Hne Hl].
  rewrite filter_cons_True by congruence. by rewrite IH.
Qed.

Lemma first_occurrences_snoc l x :
  first_occurrences (l ++ [x]) =
  if decide (x ∈ l) then first_occurrences l else first_occurrences l ++ [x].
Proof.
  induction l as [|y l IH].
  { by rewrite decide_False by apply not_elem_of_nil. }
  rewrite <- app_comm_cons. cbn [first_occurrences]. rewrite IH.
  destruct (decide (x = y)) as [->|Hne].
  - rewrite (decide_True (P := y ∈ y :: l)) by set_solver. destruct (decide (y ∈ l)); [done|].
    rewrite filter_app, filter_cons_False by tauto. by rewrite filter_nil, app_nil_r.
  - destruct (decide (x ∈ l)), (decide (x ∈ y :: l)); try set_solver.
    rewrite filter_app, filter_cons_True by done. done.
Qed.

Lemma rows_of_snoc rows row id :
  rows_of (rows ++ [row]) id =
  if decide (mm_event_family_id row = id) then rows_of rows id ++ [row] else rows_of rows id.
Proof.
  unfold rows_of. rewrite filter_app, filter_cons, filter_nil.
  destruct (decide _); [done|by rewrite app_nil_r].
Qed.

(** The accumulator of a family after some rows. *)
Definition acc_of_rows (id : string) (rows : list NegRiskMarketMetadata) :
    option FamilyAccumulator :=
  match rows with
  | [] => None
  | r0 :: rest =>
      Some {| fac_family_id := id; fac_route := mm_route r0; fac_members := node_of_row <$> rows;
              fac_variant :=
                foldl merge_variant (mm_neg_risk_variant r0) (mm_neg_risk_variant <$> rest) |}
  end.

Lemma graph_family_of_acc id rows : graph_family <$> acc_of_rows id rows = family_of_rows id rows.
Proof. by destruct rows. Qed.

(** The loop's state after some rows. *)
Record state_after (rows : list NegRiskMarketMetadata) (st : GraphState) : Prop := {
  sta_order : gs_family_order st = first_occurrences (mm_event_family_id <$> rows);
  sta_acc : ∀ id, gs_accumulators st !! id = acc_of_rows id (rows_of rows id);
  sta_seen : gs_seen st = list_to_set (metadata_member_key <$> rows);
}.

Lemma rows_of_nil rows id : rows_of rows id = [] ↔ id ∉ mm_event_family_id <$> rows.
Proof.
  unfold rows_of. rewrite list_elem_of_fmap. split.
  - intros E (r & -> & Hr). apply (not_elem_of_nil r). rewrite <- E.
    by apply list_elem_of_filter.
  - intros Hn. destruct (filter _ rows) as [|r l] eqn:E; [done|]. destruct Hn. exists r.
    assert (r ∈ filter (λ r, mm_event_family_id r = id) rows) as [? ?]%list_elem_of_filter
      by (rewrite E; set_solver). done.
Qed.

(** When the next row is accepted, in terms of the rows before it. *)
Definition row_valid (records : list IdentifierRecord) (rows : list NegRiskMarketMetadata)
    (row : NegRiskMarketMetadata) : Prop :=
  metadata_member_key row ∉ metadata_member_key <$> rows ∧
  (∃ r, index_records records !! metadata_member_key row = Some r ∧
     ir_event_family_id r = mm_event_family_id row ∧ ir_route r = mm_route row) ∧
  (∀ row', row' ∈ rows → mm_event_family_id row' = mm_event_family_id row →
     mm_route row' = mm_route row).

Lemma acc_of_rows_snoc id rows row :
  acc_of_rows id (rows ++ [row]) =
  Some match acc_of_rows id rows with
       | Some a => {| fac_family_id := fac_family_id a; fac_route := fac_route a;
                      fac_members := fac_members a ++ [node_of_row row];
                      fac_variant := merge_variant (fac_variant a) (mm_neg_risk_variant row) |}
       | None => {| fac_family_id := id; fac_route := mm_route row;
                    fac_members := [node_of_row row]; fac_variant := mm_neg_risk_variant row |}
       end.
Proof.
  destruct rows as [|r0 rows]; simpl; [done|]. rewrite !fmap_app, foldl_app. done.
Qed.

Lemma acc_of_rows_route id rows a r :
  acc_of_rows id (rows_of rows id) = Some a → r ∈ rows → mm_event_family_id r = id →
  (∀ r1 r2, r1 ∈ rows → r2 ∈ rows → mm_event_family_id r1 = id → mm_event_family_id r2 = id →
     mm_route r1 = mm_route r2) → fac_route a = mm_route r.
Proof.
  intros Ha Hr Hid Hall. destruct (rows_of rows id) as [|r0 rest] eqn:E; [done|].
  injection Ha as <-. simpl. assert (r0 ∈ rows_of rows id) as H0 by (rewrite E; set_solver).
  apply list_elem_of_filter in H0 as [H0 H0']. by apply Hall.
Qed.

Definition routes_uniform (rows : list NegRiskMarketMetadata) : Prop :=
  ∀ r1 r2, r1 ∈ rows → r2 ∈ rows → mm_event_family_id r1 = mm_event_family_id r2 →
    mm_route r1 = mm_route r2.

Lemma state_after_insert rows st row order a :
  state_after rows st →
  order = first_occurrences (mm_event_family_id <$> rows ++ [row]) →
  acc_of_rows (mm_event_family_id row) (rows_of rows (mm_event_family_id row) ++ [row]) = Some a →
  state_after (rows ++ [row])
    {| gs_family_order := order;
       gs_accumulators := <[mm_event_family_id row := a]> (gs_accumulators st);
       gs_seen := {[ metadata_member_key row ]} ∪ gs_seen st |}.
Proof.
  intros [_ Ha Hs] Ho Hacc. split; simpl; [done| |].
  - intros id. rewrite rows_of_snoc. destruct (decide (mm_event_family_id row = id)) as [<-|Hne].
    + by rewrite lookup_insert_eq, Hacc.
    + by rewrite lookup_insert_ne.
  - rewrite Hs, fmap_app, list_to_set_app_L. simpl. set_solver.
Qed.

Lemma add_metadata_row_Ok records rows st row :
  state_after rows st → routes_uniform rows →
  (row_valid records rows row →
   ∃ st', add_metadata_row (index_records records) st row = Ok st') ∧
  ∀ st', add_metadata_row (index_records records) st row = Ok st' →
    row_valid records rows row ∧ state_after (rows ++ [row]) st'.
Proof.
  intros Hst Hu. pose proof Hst as [Ho Ha Hs]. unfold add_metadata_row, row_valid.
  assert (metadata_member_key row ∈ gs_seen st ↔ metadata_member_key row ∈ metadata_member_key <$> rows) as Hseen
    by (by rewrite Hs, elem_of_list_to_set).
  case_bool_decide as Hin.
  { split; [|done]. intros (Hn & _). by destruct Hn; apply Hseen. }
  rewrite Hseen in Hin. destruct (index_records records !! metadata_member_key row) as [r|] eqn:Hr.
  2: { split; [|done]. intros (_ & (r & ? & _) & _). done. }
  case_bool_decide as Hf; cbn [negb].
  2: { split; [|done]. intros (_ & (r' & ? & ? & _) & _). simplify_eq. }
  case_bool_decide as Hro; cbn [negb].
  2: { split; [|done]. intros (_ & (r' & ? & ? & ?) & _). simplify_eq. }
  rewrite Hf, Hro, Ha. set (id := mm_event_family_id row) in *.
  pose proof (acc_of_rows_snoc id (rows_of rows id) row) as Hsnoc.
  assert (mm_event_family_id <$> rows ++ [row] = (mm_event_family_id <$> rows) ++ [id]) as Hmap
    by (by rewrite fmap_app).
  destruct (acc_of_rows id (rows_of rows id)) as [a|] eqn:Eacc; cbn [fac_route].
  - assert (∃ r0, r0 ∈ rows ∧ mm_event_family_id r0 = id ∧ fac_route a = mm_route r0) as
      (r0 & Hr0 & Hid0 & Hroute).
    { destruct (rows_of rows id) as [|r0 rest] eqn:E; [done|].
      assert (r0 ∈ rows_of rows id) as H0 by (rewrite E; set_solver).
      apply list_elem_of_filter in H0 as [H0 H0']. exists r0. split_and!; try done.
      by injection Eacc as <-. }
    case_bool_decide as Hm; cbn [negb].
    2: { split; [|done]. intros (_ & _ & Hall). destruct Hm. rewrite Hroute. by apply Hall. }
    split; [by eexists|]. intros st' [= <-]. split.
    + split_and!; [done|by exists r|]. intros r' Hr' E'. rewrite <- Hm, Hroute. apply Hu; congruence.
    + apply state_after_insert; [done| |exact Hsnoc].
      rewrite Hmap, first_occurrences_snoc, decide_True; [done|].
      apply list_elem_of_fmap. by exists r0.
  - rewrite bool_decide_eq_true_2 by done. cbn [negb]. split; [by eexists|].
    assert (id ∉ mm_event_family_id <$> rows) as Hid.
    { apply rows_of_nil. by destruct (rows_of rows id). }
    intros st' [= <-]. split.
    + split_and!; [done|by exists r|]. intros r' Hr' E'. destruct Hid.
      apply list_elem_of_fmap. by exists r'.
    + apply state_after_insert; [done| |].
      * by rewrite Hmap, first_occurrences_snoc, decide_False, Ho.
      * fold id. rewrite Hsnoc. simpl. by rewrite merge_variant_idem.
Qed.

(** The conditions on the rows, against the index of the records. *)
Definition rows_indexed (records : list IdentifierRecord) (rows : list NegRiskMarketMetadata) :
    Prop :=
  NoDup (metadata_member_key <$> rows) ∧
  (∀ row, row ∈ rows → ∃ r, index_records records !! metadata_member_key row = Some r ∧
     ir_event_family_id r = mm_event_family_id row ∧ ir_route r = mm_route row) ∧
  routes_uniform rows.

Lemma rows_indexed_snoc records rows row :
  rows_indexed records (rows ++ [row]) ↔ rows_indexed records rows ∧ row_valid records rows row.
Proof.
  unfold rows_indexed, row_valid, routes_uniform. rewrite fmap_app, NoDup_app. simpl.
  split.
  - intros ((Hnd & Hn & _) & Hr & Hu). split_and!; try done.
    + intros r Hin. apply Hr. set_solver.
    + intros r1 r2 ??. apply Hu; set_solver.
    + intros Hin. apply (Hn _ Hin). set_solver.
    + apply Hr. set_solver.
    + intros r' Hr' E. apply Hu; [set_solver..|done].
  - intros ((Hnd & Hr & Hu) & Hn & Hrow & Hsame). split_and!.
    + done.
    + intros k Hk Hk'. apply list_elem_of_singleton in Hk'. by subst.
    + by apply NoDup_singleton.
    + intros r [Hin|Hin%list_elem_of_singleton]%elem_of_app; [by apply Hr|by subst].
    + intros r1 r2 [H1|H1%list_elem_of_singleton]%elem_of_app
        [H2|H2%list_elem_of_singleton]%elem_of_app E; subst; auto.
      symmetry. by apply Hsame.
Qed.

Lemma rows_indexed_app_inv records rows rest :
  rows_indexed records (rows ++ rest) → rows_indexed records rows.
Proof.
  induction rest as [|row rest IH] using rev_ind; [by rewrite app_nil_r|].
  rewrite (assoc_L app), rows_indexed_snoc. intros [? _]. auto.
Qed.

Lemma add_rows_Ok records rows st rest :
  state_after rows st → rows_indexed records rows →
  (rows_indexed records (rows ++ rest) →
   ∃ st', try_fold (add_metadata_row (index_records records)) st rest = Ok st') ∧
  ∀ st', try_fold (add_metadata_row (index_records records)) st rest = Ok st' →
    rows_indexed records (rows ++ rest) ∧ state_after (rows ++ rest) st'.
Proof.
  revert rows st. induction rest as [|row rest IH]; intros rows st Hst Hv.
  { rewrite app_nil_r. split; [by eexists|]. by intros st' [= <-]. }
  pose proof (add_metadata_row_Ok records rows st row Hst (proj2 (proj2 Hv))) as [Hrow1 Hrow2].
  rewrite (cons_middle row rows rest), (assoc_L app). simpl. split.
  - intros Hall. pose proof (rows_indexed_app_inv _ _ _ Hall) as Hsn.
    apply rows_indexed_snoc in Hsn as Hsn'. destruct (Hrow1 (proj2 Hsn')) as [st1 E].
    rewrite E; simpl. apply Hrow2 in E as [_ E]. by apply (IH _ _ E Hsn).
  - intros st'. destruct (add_metadata_row _ st row) as [st1|] eqn:E; simpl; [|done].
    destruct (Hrow2 st1 eq_refl) as [Hr E']. apply (IH _ _ E'). by apply rows_indexed_snoc.
Qed.

Lemma omap_ext_elem {A B} (f g : A → option B) (l : list A) :
  (∀ x, x ∈ l → f x = g x) → omap f l = omap g l.
Proof.
  induction l as [|x l IH]; intros Hfg; [done|].
  assert (omap f l = omap g l) as E by (apply IH; set_solver).
  change (omap f (x :: l)) with (match f x with Some y => y :: omap f l | None => omap f l end).
  by rewrite (Hfg x), E by set_solver.
Qed.

Lemma collect_families_spec (accs : gmap EventFamilyId FamilyAccumulator) order :
  NoDup order → (∀ id, id ∈ order → is_Some (accs !! id)) →
  collect_families accs order = Returns (omap (λ id, graph_family <$> accs !! id) order).
Proof.
  revert accs. induction order as [|id order IH]; intros accs Hnd Hin; simpl; [done|].
  apply NoDup_cons in Hnd as [Hni Hnd]. destruct (Hin id ltac:(set_solver)) as [a Ha].
  rewrite Ha; simpl. rewrite IH; simpl; [|done|].
  - do 2 f_equal. apply omap_ext_elem. intros id' Hid'. rewrite lookup_delete_ne; [done|set_solver].
  - intros id' Hid'. rewrite lookup_delete_ne by set_solver. apply Hin. set_solver.
Qed.

Lemma index_records_snoc records r :
  index_records (records ++ [r]) =
  match index_records records !! (ir_condition_id r, ir_token_id r) with
  | Some _ => index_records records
  | None => <[(ir_condition_id r, ir_token_id r) := r]> (index_records records)
  end.
Proof. unfold index_records. by rewrite foldl_app. Qed.

Lemma index_records_spec records :
  (∀ k r, index_records records !! k = Some r →
     r ∈ records ∧ (ir_condition_id r, ir_token_id r) = k) ∧
  (∀ r, r ∈ records → is_Some (index_records records !! (ir_condition_id r, ir_token_id r))).
Proof.
  induction records as [|r records [IH1 IH2]] using rev_ind.
  { split; [|set_solver]. intros k r. unfold index_records; simpl. by rewrite lookup_empty. }
  rewrite index_records_snoc. set (k0 := (ir_condition_id r, ir_token_id r)).
  destruct (index_records records !! k0) as [e|] eqn:E; split.
  - intros k r' H'. apply IH1 in H' as [? ?]. set_solver.
  - intros r' [Hin | ->%list_elem_of_singleton]%elem_of_app; [by apply IH2|by exists e].
  - intros k r' [[<- <-]|[_ H']]%lookup_insert_Some; [set_solver|].
    apply IH1 in H' as [? ?]. set_solver.
  - intros r' [Hin | ->%list_elem_of_singleton]%elem_of_app.
    + rewrite lookup_insert_is_Some. destruct (decide (k0 = (ir_condition_id r', ir_token_id r')));
        [by left|right]. split; [done|by apply IH2].
    + unfold k0. rewrite lookup_insert_eq. by eexists.
Qed.

Lemma rows_indexed_valid records rows :
  consistent records → rows_indexed records rows ↔ rows_valid records rows.
Proof.
  intros Hc. destruct (index_records_spec records) as [H1 H2].
  unfold rows_indexed, rows_valid, routes_uniform, metadata_member_key.
  split; intros (Hnd & Hr & Hu); (split; [done|split; [|done]]); intros row Hrow.
  - destruct (Hr row Hrow) as (r & (Hin & [= ? ?])%H1 & ? & ?). by exists r.
  - destruct (Hr row Hrow) as (r & Hin & Ec & Et & Ef & Ero).
    destruct (H2 r Hin) as [r' Hr']. rewrite Ec, Et in Hr'.
    exists r'. split; [done|]. apply H1 in Hr' as [Hin' [= Ec' Et']].
    destruct (Hc r r' Hin Hin') as [_ Hcc]. destruct Hcc as (_ & _ & ? & ?); [congruence|].
    split; congruence.
Qed.

Lemma existsb_false_iff {A} (p : A → bool) l :
  existsb p l = false ↔ ∀ x, x ∈ l → p x = false.
Proof.
  induction l as [|x l IH]; simpl; [set_solver|]. rewrite orb_false_iff, IH. set_solver.
Qed.

Lemma existsb_true_iff {A} (p : A → bool) l :
  existsb p l = true ↔ ∃ x, x ∈ l ∧ p x = true.
Proof. rewrite existsb_exists. by setoid_rewrite list_elem_of_In. Qed.

Lemma merge_variants_augmented v vs :
  foldl merge_variant v vs = Augmented ↔ v = Augmented ∨ Augmented ∈ vs.
Proof.
  revert v. induction vs as [|w vs IH]; intros v; simpl; [set_solver|].
  rewrite IH, elem_of_cons. destruct v, w; simpl; naive_solver.
Qed.

Lemma family_of_rows_spec id rows f :
  family_of_rows id rows = Some f →
  nf_family_id (gf_family f) = id ∧ nf_members (gf_family f) = node_of_row <$> rows ∧
  (gf_neg_risk_variant f = Augmented ↔ ∃ r, r ∈ rows ∧ mm_neg_risk_variant r = Augmented).
Proof.
  destruct rows as [|r0 rest]; [done|]. intros [= <-]. simpl. split_and!; try done.
  rewrite merge_variants_augmented, list_elem_of_fmap. set_solver.
Qed.

Lemma graph_of_rows_ids rows :
  nf_family_id ∘ gf_family <$> graph_of_rows rows =
  first_occurrences (mm_event_family_id <$> rows).
Proof.
  unfold graph_of_rows.
  assert (∀ id, id ∈ first_occurrences (mm_event_family_id <$> rows) →
    is_Some (family_of_rows id (rows_of rows id))) as Hall.
  { intros id Hid. rewrite first_occurrences_elem in Hid.
    destruct (rows_of rows id) eqn:E; [|by eexists]. by apply rows_of_nil in E. }
  induction (first_occurrences _) as [|id ids IH]; [done|].
  destruct (Hall id ltac:(set_solver)) as [f Hf]. simpl. rewrite Hf. simpl.
  apply family_of_rows_spec in Hf as [Hid _]. unfold compose. rewrite Hid.
  f_equal. apply IH. set_solver.
Qed.

Lemma collect_state_after rows st :
  state_after rows st →
  collect_families (gs_accumulators st) (gs_family_order st) = Returns (graph_of_rows rows).
Proof.
  intros [Ho Ha _]. rewrite Ho, collect_families_spec.
  - unfold graph_of_rows. f_equal. apply omap_ext_elem. intros id _.
    by rewrite Ha, graph_family_of_acc.
  - apply first_occurrences_NoDup.
  - intros id Hid. rewrite first_occurrences_elem in Hid. rewrite Ha.
    destruct (rows_of rows id) eqn:E; [|by eexists]. by apply rows_of_nil in E.
Qed.

(** Building the family graph never panics, and succeeds exactly when the
    identifier records do not conflict and the metadata rows are valid: distinct
    members, each with a record of the same family and route, and one route per
    family. The graph then has one family per id, in the order the ids first
    occur, whose members are exactly the rows of the family, in order, and which
    is augmented exactly when one of its rows is. *)
Theorem build_family_graph_spec records rows :
  ∃ res, build_family_graph records rows = Returns res ∧
    (is_ok res = true ↔ consistent records ∧ rows_valid records rows) ∧
    ∀ g, res = Ok g →
      g = graph_of_rows rows ∧
      nf_family_id ∘ gf_family <$> g = first_occurrences (mm_event_family_id <$> rows) ∧
      ∀ f, f ∈ g →
        let members := rows_of rows (nf_family_id (gf_family f)) in
        nf_members (gf_family f) = node_of_row <$> members ∧
        (gf_neg_risk_variant f = Augmented ↔
         ∃ r, r ∈ members ∧ mm_neg_risk_variant r = Augmented).
Proof.
  unfold build_family_graph. pose proof (from_records_ok records) as Hok.
  destruct (from_records records) as [m|e]; simpl in Hok.
  2: { eexists. split; [done|]. split; [|done]. simpl. naive_solver. }
  assert (consistent records) as Hc by (by apply Hok).
  assert (state_after [] graph_state_new) as Hnew by (split; [done|done|done]).
  assert (rows_indexed records []) as Hnil.
  { split_and!; [constructor|set_solver|intros r1 r2; set_solver]. }
  destruct (add_rows_Ok records [] graph_state_new rows Hnew Hnil) as [H1 H2]. simpl in H1, H2.
  rewrite rows_indexed_valid in H1 by done.
  destruct (try_fold _ graph_state_new rows) as [st|e] eqn:E.
  - destruct (H2 st eq_refl) as [Hv Hst]. rewrite (collect_state_after _ _ Hst). simpl.
    eexists. split; [done|]. split; [by rewrite rows_indexed_valid in Hv|].
    intros g [= <-]. split; [done|]. split; [apply graph_of_rows_ids|].
    intros f (id & _ & Hf)%list_elem_of_omap.
    apply family_of_rows_spec in Hf as (-> & ? & ?). done.
  - eexists. split; [done|]. split; [|done]. simpl. split; [done|].
    intros [_ Hv]. destruct (H1 Hv) as [st' ?]. done.
Qed.

(** What an exclusion reason says of a family, and when a family has none. *)
Definition reason_holds (f : NegRiskGraphFamily) (reason : FamilyExclusionReason) : Prop :=
  let members := nf_members (gf_family f) in
  match reason with
  | NonNegRiskRoute => nf_route (gf_family f) ≠ NegRisk
  | AugmentedVariant => gf_neg_risk_variant f = Augmented
  | PlaceholderOutcome => ∃ n, n ∈ members ∧ nn_is_placeholder n = true
  | OtherOutcome => ∃ n, n ∈ members ∧ nn_is_other n = true
  | MissingNamedOutcomes => ∀ n, n ∈ members → is_blank (nn_outcome_label n) = true
  end.

Definition includable (f : NegRiskGraphFamily) : Prop :=
  nf_route (gf_family f) = NegRisk ∧ gf_neg_risk_variant f ≠ Augmented ∧
  (∀ n, n ∈ nf_members (gf_family f) → nn_is_placeholder n = false ∧ nn_is_other n = false) ∧
  ∃ n, n ∈ nf_members (gf_family f) ∧ is_blank (nn_outcome_label n) = false.

Lemma reason_holds_excludes f reason : reason_holds f reason → ¬ includable f.
Proof.
  intros Hr (H1 & H2 & H3 & n & Hn & Hb). destruct reason; simpl in Hr; try done.
  - destruct Hr as (n' & Hn' & E). destruct (H3 n' Hn'). congruence.
  - destruct Hr as (n' & Hn' & E). destruct (H3 n' Hn'). congruence.
  - rewrite Hr in Hb; done.
Qed.

Lemma exclusion_reason_sound f :
  match exclusion_reason f with
  | Some reason => reason_holds f reason
  | None => includable f
  end.
Proof.
  unfold exclusion_reason, includable. set (ms := nf_members (gf_family f)).
  case_bool_decide as Hr; cbn [negb]; [|done].
  case_bool_decide as Ha; [done|].
  destruct (existsb nn_is_placeholder ms) eqn:Hp; [by apply existsb_true_iff|].
  destruct (existsb nn_is_other ms) eqn:Ho; [by apply existsb_true_iff|].
  rewrite existsb_false_iff in Hp, Ho.
  assert (∀ n, n ∈ ms → has_named_outcome n = negb (is_blank (nn_outcome_label n))) as Hnamed.
  { intros n Hin. unfold has_named_outcome. by rewrite (Hp n Hin), (Ho n Hin). }
  destruct (existsb has_named_outcome ms) eqn:Hn; cbn [negb].
  - apply existsb_true_iff in Hn as (n & Hin & Hn). split_and!; auto.
    exists n. rewrite (Hnamed n Hin), negb_true_iff in Hn. done.
  - intros n Hin. rewrite existsb_false_iff in Hn. specialize (Hn n Hin).
    by rewrite (Hnamed n Hin), negb_false_iff in Hn.
Qed.

(** A family is included exactly when its route is neg-risk, it is not
    augmented, no member is a placeholder or an "other" outcome and some member
    has a label that is not blank. Any other family is excluded, with a reason
    that holds of it. *)
Theorem validate_family_spec f revision hash :
  let v := validate_family f revision hash in
  (fvd_status v = Included ↔ includable f) ∧
  (fvd_status v = Excluded ↔ is_Some (fvd_reason v)) ∧
  ∀ reason, fvd_reason v = Some reason → reason_holds f reason.
Proof.
  simpl. pose proof (exclusion_reason_sound f) as Hs.
  destruct (exclusion_reason f) as [reason|]; (split; [|split]).
  - split; [done|]. by intros ?%(reason_holds_excludes _ _ Hs).
  - split; [by eexists|done].
  - by intros ? [= <-].
  - done.
  - split; [done|by intros []].
  - done.
Qed.

(** *** Halts *)

Inductive HaltOp :=
| HaltReconcile (latest : string)
| HaltRevalidate (latest : string)
| HaltClear.

Definition halt_op (h : FamilyHaltState) (op : HaltOp) : FamilyHaltState :=
  match op with
  | HaltReconcile latest => (reconcile_against_snapshot_hash h latest).1
  | HaltRevalidate latest => (revalidate_against_snapshot_hash h latest).1
  | HaltClear => (halt_clear h).1
  end.

(** The last operation of a run that sets the halt or lifts it. *)
Fixpoint last_decision (cleared : bool) (hash : string) (ops : list HaltOp) : bool * string :=
  match ops with
  | [] => (cleared, hash)
  | HaltReconcile _ :: ops' => last_decision cleared hash ops'
  | HaltRevalidate latest :: ops' => last_decision false latest ops'
  | HaltClear :: ops' => last_decision true hash ops'
  end.

Lemma reconcile_halt_frame h latest :
  let h' := (reconcile_against_snapshot_hash h latest).1 in
  (fh_status h' = Cleared ↔ fh_status h = Cleared) ∧
  fh_metadata_snapshot_hash h' = fh_metadata_snapshot_hash h ∧ fh_family_id h' = fh_family_id h.
Proof.
  unfold reconcile_against_snapshot_hash. case_bool_decide as E; simpl; [done|].
  split; [|done]. by case_bool_decide.
Qed.

Lemma halt_run_decision h ops :
  let h' := foldl halt_op h ops in
  let '(cleared, hash) :=
    last_decision (bool_decide (fh_status h = Cleared)) (fh_metadata_snapshot_hash h) ops in
  (fh_status h' = Cleared ↔ cleared = true) ∧ fh_metadata_snapshot_hash h' = hash ∧
  fh_family_id h' = fh_family_id h.
Proof.
  simpl. revert h. induction ops as [|op ops IH]; intros h; simpl.
  { by rewrite bool_decide_eq_true. }
  specialize (IH (halt_op h op)). destruct op as [latest|latest|]; simpl halt_op in *.
  - destruct (reconcile_halt_frame h latest) as (Hs & Hh & Hf).
    rewrite <- Hh, <- Hf, <- (bool_decide_ext _ _ Hs). exact IH.
  - exact IH.
  - exact IH.
Qed.

(** A family halt lifts only when it is cleared, and holds until then: after
    any operations on an active halt, it is cleared exactly when the last of the
    clears and revalidations was a clear; checking it against a snapshot never
    lifts or restores it, and leaves a halt that is not cleared active exactly when
    the snapshot is the one the halt was last validated against. *)
Theorem halt_lifts_only_when_cleared family hash ops latest :
  let h := foldl halt_op (halt_active family hash) ops in
  let '(cleared, validated) := last_decision false hash ops in
  (fh_status h = Cleared ↔ cleared = true) ∧
  let '(h', status) := reconcile_against_snapshot_hash h latest in
  fh_status h' = status ∧
  status = if cleared then Cleared
           else if bool_decide (validated = latest) then ActiveBlocking else StaleBlocking.
Proof.
  simpl. pose proof (halt_run_decision (halt_active family hash) ops) as Hrun. simpl in Hrun.
  destruct (last_decision false hash ops) as [cleared validated].
  destruct Hrun as (Hs & Hh & _). split; [done|].
  unfold reconcile_against_snapshot_hash. rewrite <- Hh.
  destruct cleared; [rewrite bool_decide_eq_true_2 by tauto; simpl; tauto|].
  rewrite bool_decide_eq_false_2 by (intros E%Hs; done). by case_bool_decide.
Qed.

(** *** Intents *)

Lemma dedup_elem l x : x ∈ dedup l ↔ x ∈ l.
Proof.
  induction l as [|y l IH]; simpl; [done|]. destruct (dedup l) as [|z l'].
  - rewrite list_elem_of_singleton, elem_of_cons, <- IH. set_solver.
  - case_decide; subst; rewrite !elem_of_cons in *; naive_solver.
Qed.

Lemma dedup_sorted l :
  StronglySorted (cmp_le str_cmp) l →
  StronglySorted (λ a b, cmp_le str_cmp a b ∧ a ≠ b) (dedup l).
Proof.
  induction 1 as [|x l Hs IH Hx]; simpl; [constructor|].
  assert (Forall (cmp_le str_cmp x) (dedup l)) as Hle.
  { apply Forall_forall. intros y Hy. rewrite dedup_elem in Hy.
    rewrite Forall_forall in Hx. by apply Hx. }
  destruct (dedup l) as [|y l']; [by repeat constructor|].
  case_decide as Exy; [by subst|]. constructor; [done|].
  apply Forall_cons in Hle as [Hxy Hle]. apply StronglySorted_inv in IH as [_ Hy].
  constructor; [done|]. rewrite Forall_forall in Hle, Hy |- *. intros z Hz.
  split; [by apply Hle|]. intros ->. destruct (Hy z Hz) as [Hyz _].
  by destruct Exy; apply (anti_symm (cmp_le str_cmp)).
Qed.

Lemma strictly_sorted_NoDup {A} (R : A → A → Prop) l :
  StronglySorted (λ a b, R a b ∧ a ≠ b) l → NoDup l.
Proof.
  induction 1 as [|x l Hs IH Hx]; constructor; [|done].
  rewrite Forall_forall in Hx. intros [_ ?]%Hx. done.
Qed.

(** The neg-risk strategy emits one intent per family of the view, no family
    twice, in the order of the family ids, each for the scope of its family, on
    the view's snapshot, and under an id of its own. *)
Theorem negrisk_intents_spec v :
  ∃ ids, NoDup ids ∧ StronglySorted (cmp_le str_cmp) ids ∧
    (∀ id, id ∈ ids ↔ id ∈ family_ids v) ∧
    negrisk_build_intents v =
      (λ id, Strategy {| ic_intent_id :=
                           stable_intent_id "neg-risk" id (nv_snapshot_id v) (nv_state_version v);
                         ic_source_snapshot_id := nv_snapshot_id v;
                         ic_route := "neg-risk"; ic_scope := id |}) <$> ids ∧
    NoDup (decision_input_id <$> negrisk_build_intents v).
Proof.
  exists (dedup (sort_by str_cmp (family_ids v))).
  pose proof (dedup_sorted _ (sort_by_sorted str_cmp (family_ids v))) as Hs.
  apply strictly_sorted_NoDup in Hs as Hnd.
  assert (negrisk_build_intents v =
    (λ id, Strategy {| ic_intent_id :=
                         stable_intent_id "neg-risk" id (nv_snapshot_id v) (nv_state_version v);
                       ic_source_snapshot_id := nv_snapshot_id v;
                       ic_route := "neg-risk"; ic_scope := id |})
      <$> dedup (sort_by str_cmp (family_ids v))) as E.
  { unfold negrisk_build_intents. by destruct (family_ids v). }
  rewrite E. split_and!; try done.
  - clear -Hs. induction Hs as [|x l _ IH Hx]; constructor; [done|].
    eapply Forall_impl; [done|]. by intros ? [? _].
  - intros id. by rewrite dedup_elem, (elem_of_sort_by str_cmp).
  - rewrite <- list_fmap_compose. apply NoDup_fmap_2_strong; [|done].
    intros x y _ _. unfold compose; simpl. unfold stable_intent_id.
    by intros ?%append_inj_l%append_inj_l%append_inj_r.
Qed.
