(* ===== verification/Exposure.v ===== *)
(** * Exposure of an inventory to a neg-risk family

    [NegRiskExposureVector::from_inventory] of [domain/src/negrisk.rs] and
    [reconstruct_family_exposure] of [strategy-negrisk/src/exposure.rs]: rows of
    inventory grouped per member of the family and per bucket, and rolled up over
    the family. *)

From S2P Require Import Prelude RecordSet Externals Domain RuntimeMode Identifiers Facts Store.
From S2P Require Import Apply Reconcile StoreInvariants Snapshot Pricing NegRisk.

Inductive NegRiskExposureError :=
| EmptyInventory
| MissingTokenCondition (token_id : TokenId)
| MissingFamilyMapping (token_id : TokenId) (condition_id : ConditionId)
| InvalidRoute (token_id : TokenId) (route : option MarketRoute)
| MixedFamily (token_id : TokenId) (expected_family_id found_family_id : EventFamilyId).

Section exposure.
Context {X : Externals} {H : HashOrder}.

Definition InventoryRow : Type := TokenId * InventoryBucket * Decimal.
#[local] Notation Buckets := (gmap InventoryBucket Decimal).

Record NegRiskMemberExposure := {
  nme_token_id : TokenId;
  nme_outcome_label : string;
  nme_bucket_quantities : Buckets;
}.

Record NegRiskExposureRollup := {
  er_bucket_quantities : Buckets;
  er_member_count : nat;
}.

Record NegRiskExposureVector := {
  ev_family_id : EventFamilyId;
  ev_members : list NegRiskMemberExposure;
  ev_rollup : NegRiskExposureRollup;
}.

(** [entry(bucket).and_modify(|existing| *existing += quantity).or_insert(quantity)] *)
Definition add_quantity (buckets : Buckets) (bucket : InventoryBucket) (quantity : Decimal) :
    outcome Buckets :=
  match buckets !! bucket with
  | Some existing => s ← expect (dec_add existing quantity); Returns (<[bucket := s]> buckets)
  | None => Returns (<[bucket := quantity]> buckets)
  end.

(** [*entry(bucket).or_insert_with(|| Decimal::new(0, 0)) += quantity] *)
Definition roll_quantity (rollup : Buckets) (bucket : InventoryBucket) (quantity : Decimal) :
    outcome Buckets :=
  s ← expect (dec_add (default dec_zero (rollup !! bucket)) quantity);
  Returns (<[bucket := s]> rollup).

(** One iteration of a loop over [&member.bucket_quantities]. *)
Definition roll_bucket (buckets rollup : Buckets) (bucket : InventoryBucket) : outcome Buckets :=
  match buckets !! bucket with
  | Some quantity => roll_quantity rollup bucket quantity
  | None => Returns rollup
  end.

Definition roll_member (rollup buckets : Buckets) : outcome Buckets :=
  outcome_fold (roll_bucket buckets) rollup (hash_iter (dom buckets)).

Definition add_inventory_row (m : IdentifierMap)
    (st : gmap TokenId NegRiskMemberExposure * option EventFamilyId) (row : InventoryRow) :
    outcome (result NegRiskExposureError
               (gmap TokenId NegRiskMemberExposure * option EventFamilyId)) :=
  let '(member_quantities, family_id) := st in
  let '(token_id, bucket, quantity) := row in
  match condition_for_token m token_id with
  | None => Returns (Err (MissingTokenCondition token_id))
  | Some condition_id =>
    let route := route_for_condition m condition_id in
    if bool_decide (route ≠ Some NegRisk) then Returns (Err (InvalidRoute token_id route)) else
    match family_for_condition m condition_id with
    | None => Returns (Err (MissingFamilyMapping token_id condition_id))
    | Some found =>
      let expected := default found family_id in
      if bool_decide (expected ≠ found) then
        Returns (Err (MixedFamily token_id expected found))
      else
        let entry := default
          {| nme_token_id := token_id;
             nme_outcome_label := default token_id (outcome_label_for_token m token_id);
             nme_bucket_quantities := ∅ |} (member_quantities !! token_id) in
        buckets ← add_quantity (nme_bucket_quantities entry) bucket quantity;
        Returns (Ok (<[token_id := {| nme_token_id := nme_token_id entry;
                                      nme_outcome_label := nme_outcome_label entry;
                                      nme_bucket_quantities := buckets |}]> member_quantities,
                     Some expected))
    end
  end.

(** [NegRiskExposureVector::from_inventory]; the members come out of a hash map
    and are sorted by token. *)
Definition from_inventory (inventory : list InventoryRow) (m : IdentifierMap) :
    outcome (result NegRiskExposureError NegRiskExposureVector) :=
  match inventory with
  | [] => Returns (Err EmptyInventory)
  | _ =>
    st ←? try_outcome_fold (add_inventory_row m) (∅, None) inventory;
    let '(member_quantities, family_id) := st in
    let members := sort_by (cmp_on nme_token_id str_cmp)
                     (omap (member_quantities !!.) (hash_iter (dom member_quantities))) in
    rollup ← outcome_fold (λ r e, roll_member r (nme_bucket_quantities e)) ∅ members;
    family ← expect family_id;
    Returns (Ok {| ev_family_id := family; ev_members := members;
                   ev_rollup := {| er_bucket_quantities := rollup;
                                   er_member_count := length members |} |})
  end.

(** *** [strategy-negrisk] *)

Record FamilyMemberExposure := {
  fme_condition_id : ConditionId;
  fme_token_id : TokenId;
  fme_outcome_label : string;
  fme_bucket_quantities : Buckets;
}.

Record FamilyExposureRollup := {
  fr_bucket_quantities : Buckets;
  fr_member_count : nat;
}.

Record FamilyExposure := {
  fe_family_id : EventFamilyId;
  fe_members : list FamilyMemberExposure;
  fe_rollup : FamilyExposureRollup;
}.

(** [quantities_by_token] and [condition_by_token]. *)
Record TokenTally := {
  tt_quantities : gmap TokenId Buckets;
  tt_conditions : gmap TokenId ConditionId;
}.

Definition add_family_row (family_tokens : gset TokenId) (family_id : EventFamilyId)
    (m : IdentifierMap) (st : TokenTally) (row : InventoryRow) :
    outcome (result NegRiskExposureError TokenTally) :=
  let '(token_id, bucket, quantity) := row in
  if bool_decide (token_id ∉ family_tokens) then Returns (Ok st) else
  match condition_for_token m token_id with
  | None => Returns (Err (MissingTokenCondition token_id))
  | Some condition_id =>
    let route := route_for_condition m condition_id in
    if bool_decide (route ≠ Some NegRisk) then Returns (Err (InvalidRoute token_id route)) else
    match family_for_condition m condition_id with
    | None => Returns (Err (MissingFamilyMapping token_id condition_id))
    | Some mapped =>
      if bool_decide (mapped ≠ family_id) then
        Returns (Err (MixedFamily token_id family_id mapped))
      else
        buckets ← add_quantity (default ∅ (tt_quantities st !! token_id)) bucket quantity;
        Returns (Ok {| tt_quantities := <[token_id := buckets]> (tt_quantities st);
                       tt_conditions := <[token_id := condition_id]> (tt_conditions st) |})
    end
  end.

(** The loop over the family's members; it removes what it takes. *)
Definition take_member (st : TokenTally * list FamilyMemberExposure) (member : NegRiskNode) :
    outcome (TokenTally * list FamilyMemberExposure) :=
  let '(tally, members) := st in
  let token_id := nn_token_id member in
  match tt_quantities tally !! token_id with
  | None => Returns st
  | Some bucket_quantities =>
    condition_id ← expect (tt_conditions tally !! token_id);
    Returns ({| tt_quantities := delete token_id (tt_quantities tally);
                tt_conditions := delete token_id (tt_conditions tally) |},
             members ++ [{| fme_condition_id := condition_id; fme_token_id := token_id;
                            fme_outcome_label := nn_outcome_label member;
                            fme_bucket_quantities := bucket_quantities |}])
  end.

Definition reconstruct_family_exposure (family : NegRiskGraphFamily)
    (inventory_rows : list InventoryRow) (m : IdentifierMap) :
    outcome (result NegRiskExposureError FamilyExposure) :=
  let family_id := nf_family_id (gf_family family) in
  let nodes := nf_members (gf_family family) in
  let family_tokens : gset TokenId := list_to_set (nn_token_id <$> nodes) in
  tally ←? try_outcome_fold (add_family_row family_tokens family_id m)
             {| tt_quantities := ∅; tt_conditions := ∅ |} inventory_rows;
  if bool_decide (tt_quantities tally = ∅) then Returns (Err EmptyInventory) else
  st ← outcome_fold take_member (tally, []) nodes;
  let members := st.2 in
  rollup ← outcome_fold (λ r e, roll_member r (fme_bucket_quantities e)) ∅ members;
  Returns (Ok {| fe_family_id := family_id; fe_members := members;
                 fe_rollup := {| fr_bucket_quantities := rollup;
                                 fr_member_count := length members |} |}).

(** ** What an exposure is *)

(** The quantities of a token in a bucket, in row order, and their sum in that order. *)
Definition quantities (rows : list InventoryRow) (tok : TokenId) (b : InventoryBucket) :
    list Decimal :=
  omap (λ '(tok', b', q), if bool_decide (tok' = tok ∧ b' = b) then Some q else None) rows.

Definition add_to (a : option Decimal) (q : Decimal) : option Decimal :=
  a ≫= λ s, dec_add s q.

Definition total (qs : list Decimal) : option Decimal :=
  match qs with [] => None | q :: qs' => foldl add_to (Some q) qs' end.

(** [buckets] holds the sums of a token: one entry per bucket with a row. *)
Definition tallied (rows : list InventoryRow) (tok : TokenId) (buckets : Buckets) : Prop :=
  ∀ b, buckets !! b = total (quantities rows tok b) ∧
       (quantities rows tok b ≠ [] → is_Some (buckets !! b)).

(** [rollup] adds the buckets of the members, member by member, to zero. *)
Definition rolled_up (members : list Buckets) (rollup : Buckets) : Prop :=
  ∀ b, let qs := omap (.!! b) members in
       rollup !! b = (if bool_decide (qs = []) then None else foldl add_to (Some dec_zero) qs) ∧
       (qs ≠ [] → is_Some (rollup !! b)).

(** A row of a token of the family. *)
Definition row_resolves (m : IdentifierMap) (family : EventFamilyId) (row : InventoryRow)
    (c : ConditionId) : Prop :=
  condition_for_token m row.1.1 = Some c ∧ route_for_condition m c = Some NegRisk ∧
  family_for_condition m c = Some family.

(** The error a row is rejected with, [expected] being the family so far. *)
Definition row_error (m : IdentifierMap) (expected : option EventFamilyId) (row : InventoryRow)
    (e : NegRiskExposureError) : Prop :=
  let tok := row.1.1 in
  (condition_for_token m tok = None ∧ e = MissingTokenCondition tok) ∨
  ∃ c, condition_for_token m tok = Some c ∧
    ((route_for_condition m c ≠ Some NegRisk ∧ e = InvalidRoute tok (route_for_condition m c)) ∨
     route_for_condition m c = Some NegRisk ∧
     ((family_for_condition m c = None ∧ e = MissingFamilyMapping tok c) ∨
      ∃ fam found, expected = Some fam ∧ family_for_condition m c = Some found ∧ fam ≠ found ∧
        e = MixedFamily tok fam found)).

(** Some sum is out of the range of a decimal. *)
Definition overflows : Prop := ∃ a b, dec_add a b = None.

(** *** Sums *)

Lemma quantities_snoc rows row tok b :
  quantities (rows ++ [row]) tok b =
  quantities rows tok b ++ (if bool_decide (row.1 = (tok, b)) then [row.2] else []).
Proof.
  unfold quantities. rewrite omap_app. f_equal. destruct row as [[tok' b'] q]; simpl.
  repeat case_bool_decide; naive_solver.
Qed.

Lemma total_snoc qs q :
  total (qs ++ [q]) = match qs with [] => Some q | _ => add_to (total qs) q end.
Proof. destruct qs as [|q0 qs]; [done|]. simpl. by rewrite foldl_app. Qed.

Lemma add_quantity_spec rows tok buckets b q :
  tallied rows tok buckets →
  match add_quantity buckets b q with
  | Returns buckets' => tallied (rows ++ [(tok, b, q)]) tok buckets'
  | Panics => overflows
  end.
Proof.
  intros Ht. unfold add_quantity. destruct (Ht b) as [Hb Hs].
  assert (∀ v, total (quantities rows tok b ++ [q]) = Some v →
    tallied (rows ++ [(tok, b, q)]) tok (<[b := v]> buckets)) as Hins.
  { intros v Hv b'. rewrite quantities_snoc. simpl. destruct (decide (b' = b)) as [->|Hne].
    - rewrite lookup_insert_eq. rewrite bool_decide_eq_true_2 by done. rewrite Hv. eauto.
    - rewrite lookup_insert_ne by done. rewrite bool_decide_eq_false_2 by congruence.
      rewrite app_nil_r. apply Ht. }
  rewrite total_snoc in Hins. destruct (quantities rows tok b) as [|q0 qs] eqn:Eq.
  - rewrite Hb. simpl. by apply Hins.
  - destruct Hs as [v Hv]; [done|]. rewrite Hv. simpl. rewrite <- Hb, Hv in Hins. simpl in Hins.
    destruct (dec_add v q) as [s|] eqn:Es; simpl; [by apply Hins|by exists v, q].
Qed.

Lemma tallied_other rows row tok buckets :
  row.1.1 ≠ tok → tallied rows tok buckets → tallied (rows ++ [row]) tok buckets.
Proof.
  intros Hne Ht b. rewrite quantities_snoc. rewrite bool_decide_eq_false_2.
  - rewrite app_nil_r. apply Ht.
  - intros E. rewrite E in Hne. done.
Qed.

(** The bucket [b] of [r] after some buckets of a member have been rolled in. *)
Definition rolled_at (buckets rollup : Buckets) (done : list InventoryBucket) (r : Buckets)
    (b : InventoryBucket) : Prop :=
  match buckets !! b with
  | Some q => if bool_decide (b ∈ done)
              then r !! b = dec_add (default dec_zero (rollup !! b)) q ∧ is_Some (r !! b)
              else r !! b = rollup !! b
  | None => r !! b = rollup !! b
  end.

Lemma roll_bucket_step buckets rollup pre x r :
  x ∉ pre → (∀ b, rolled_at buckets rollup pre r b) →
  match roll_bucket buckets r x with
  | Returns r' => ∀ b, rolled_at buckets rollup (pre ++ [x]) r' b
  | Panics => overflows
  end.
Proof.
  intros Hx Hr. unfold roll_bucket. pose proof (Hr x) as Hrx. unfold rolled_at in Hrx.
  rewrite bool_decide_eq_false_2 in Hrx by done.
  assert (∀ r', (∀ b, b ≠ x → r' !! b = r !! b) → rolled_at buckets rollup (pre ++ [x]) r' x →
    ∀ b, rolled_at buckets rollup (pre ++ [x]) r' b) as Hother.
  { intros r' Hne Hr'x b. destruct (decide (b = x)) as [->|Hb]; [done|].
    specialize (Hr b). unfold rolled_at in *. rewrite (Hne b Hb).
    destruct (buckets !! b); [|done].
    rewrite (bool_decide_ext (b ∈ pre ++ [x]) (b ∈ pre)) by set_solver. done. }
  destruct (buckets !! x) as [q|] eqn:Eq; simpl.
  - unfold roll_quantity. rewrite Hrx.
    destruct (dec_add _ q) as [v|] eqn:Ev; simpl; [|by eexists _, _].
    apply Hother; [by intros; rewrite lookup_insert_ne|]. unfold rolled_at.
    rewrite Eq, bool_decide_eq_true_2 by set_solver. rewrite lookup_insert_eq. eauto.
  - apply Hother; [done|]. unfold rolled_at. by rewrite Eq.
Qed.

(** A bucket map is its buckets, whatever order they are visited in. *)
Context {HL : HashOrderLaws H}.

Lemma roll_member_spec rollup buckets :
  match roll_member rollup buckets with
  | Returns r => ∀ b, match buckets !! b with
                      | Some q => r !! b = dec_add (default dec_zero (rollup !! b)) q ∧
                                  is_Some (r !! b)
                      | None => r !! b = rollup !! b
                      end
  | Panics => overflows
  end.
Proof.
  unfold roll_member. pose proof (hash_iter_Permutation (dom buckets)) as Hp.
  assert (NoDup (hash_iter (dom buckets))) as Hnd by (rewrite Hp; apply NoDup_elements).
  pose proof (outcome_fold_cases (roll_bucket buckets)
    (λ pre r, ∀ b, rolled_at buckets rollup pre r b) overflows rollup
    (hash_iter (dom buckets))) as Hc.
  lapply Hc; [clear Hc; intros Hc; lapply Hc; [clear Hc; intros Hc|]|].
  - destruct (outcome_fold _ _ _) as [r|]; [|done]. intros b. specialize (Hc b).
    unfold rolled_at in Hc. destruct (buckets !! b) as [q|] eqn:Eq; [|done].
    rewrite bool_decide_eq_true_2 in Hc; [done|].
    rewrite Hp, elem_of_elements, elem_of_dom. by eexists.
  - intros pre x post r El. apply roll_bucket_step. rewrite El in Hnd.
    apply NoDup_app in Hnd as (_ & Hd & _). intros Hx. apply (Hd x Hx). left.
  - intros b. unfold rolled_at. destruct (buckets !! b); [|done].
    by rewrite bool_decide_eq_false_2 by set_solver.
Qed.

Lemma rolled_up_spec {A} (proj : A → Buckets) (members : list A) :
  match outcome_fold (λ r e, roll_member r (proj e)) ∅ members with
  | Returns r => rolled_up (proj <$> members) r
  | Panics => overflows
  end.
Proof.
  apply (outcome_fold_cases _ (λ pre r, rolled_up (proj <$> pre) r)).
  - intros b. simpl. by rewrite lookup_empty.
  - intros pre e _ r _ Hr. pose proof (roll_member_spec r (proj e)) as Hs.
    destruct (roll_member r (proj e)) as [r'|]; [|done]. intros b.
    specialize (Hr b). specialize (Hs b). rewrite fmap_app, omap_app. simpl in *.
    destruct (proj e !! b) as [q|] eqn:Eq.
    + rewrite bool_decide_eq_false_2, foldl_app by (by destruct (omap _ _)).
      destruct Hr as [Hr1 Hr2], Hs as [Hs1 Hs2]. split; [|done]. rewrite Hs1, Hr1. simpl.
      case_bool_decide as En; [by rewrite En|].
      destruct (Hr2 En) as [v Hv]. rewrite <- Hr1, Hv. done.
    + by rewrite Hs, app_nil_r.
Qed.

(** *** The loop of [from_inventory] *)

Record inventory_state (m : IdentifierMap) (rows : list InventoryRow)
    (st : gmap TokenId NegRiskMemberExposure * option EventFamilyId) : Prop := {
  is_family : st.2 = None ↔ rows = [];
  is_resolves : ∀ fam row, st.2 = Some fam → row ∈ rows → ∃ c, row_resolves m fam row c;
  is_members : ∀ tok, match st.1 !! tok with
    | Some e => tok ∈ rows.*1.*1 ∧ nme_token_id e = tok ∧
                nme_outcome_label e = default tok (outcome_label_for_token m tok) ∧
                tallied rows tok (nme_bucket_quantities e)
    | None => tok ∉ rows.*1.*1
    end;
}.

Lemma tallied_empty rows tok : tok ∉ rows.*1.*1 → tallied rows tok ∅.
Proof.
  intros Hn b. assert (quantities rows tok b = []) as ->; [|by rewrite lookup_empty].
  unfold quantities. rewrite omap_nil_iff. intros [[tok' b'] q] Hin.
  case_bool_decide as E; [|done]. destruct E as [-> _]. destruct Hn.
  apply list_elem_of_fmap. exists (tok, b'). split; [done|].
  apply list_elem_of_fmap. by exists (tok, b', q).
Qed.

(** Adding a row to the sums of its token. *)
Lemma add_row_tallied rows tok b q old :
  match old with Some buckets => tallied rows tok buckets | None => tok ∉ rows.*1.*1 end →
  match add_quantity (default ∅ old) b q with
  | Returns buckets' => tallied (rows ++ [(tok, b, q)]) tok buckets'
  | Panics => overflows
  end.
Proof.
  intros Ho. apply add_quantity_spec. destruct old; [done|]. by apply tallied_empty.
Qed.

Lemma row_resolves_tok m fam tok b q c :
  condition_for_token m tok = Some c → route_for_condition m c = Some NegRisk →
  family_for_condition m c = Some fam → row_resolves m fam (tok, b, q) c.
Proof. done. Qed.

Lemma add_inventory_row_step m pre row st :
  inventory_state m pre st →
  match add_inventory_row m st row with
  | Returns (Ok st') => inventory_state m (pre ++ [row]) st'
  | Returns (Err e) => row_error m st.2 row e
  | Panics => overflows
  end.
Proof.
  intros [Hf Hr Hm]. destruct st as [members family], row as [[tok b] q]. simpl in *.
  unfold row_error; simpl. destruct (condition_for_token m tok) as [c|] eqn:Ec; [|by left].
  case_bool_decide as Eroute; [right; eauto|].
  destruct (family_for_condition m c) as [found|] eqn:Ef; [|right; eauto 7].
  case_bool_decide as Efam.
  { right. destruct family as [fam|]; simpl in *; [|done]. eauto 12. }
  pose proof (add_row_tallied pre tok b q (nme_bucket_quantities <$> members !! tok)) as Hadd.
  specialize (Hm tok) as Hmt. lapply Hadd; [clear Hadd; intros Hadd|by destruct (members !! tok); simpl; tauto].
  assert (nme_bucket_quantities (default {| nme_token_id := tok;
    nme_outcome_label := default tok (outcome_label_for_token m tok);
    nme_bucket_quantities := ∅ |} (members !! tok)) =
    default ∅ (nme_bucket_quantities <$> members !! tok)) as -> by (by destruct (members !! tok)).
  destruct (add_quantity _ b q) as [buckets|]; simpl; [|done]. split; simpl.
  - split; [done|]. by destruct pre.
  - intros fam row [= <-] [Hin | ->%list_elem_of_singleton]%elem_of_app.
    + destruct family as [fam|]; [|by rewrite (proj1 Hf eq_refl) in Hin; apply not_elem_of_nil in Hin].
      simpl. by apply Hr.
    + exists c. by apply row_resolves_tok; [| |rewrite Efam].
  - intros tok'. destruct (decide (tok' = tok)) as [->|Hne].
    + rewrite lookup_insert_eq. simpl. rewrite !fmap_app, elem_of_app. simpl.
      split_and!; [set_solver| | |done]; by destruct (members !! tok) as [e|]; simpl; [apply Hmt|].
    + rewrite lookup_insert_ne by done. specialize (Hm tok'). rewrite !fmap_app. simpl.
      destruct (members !! tok') as [e|]; [|set_solver].
      destruct Hm as (Hin & Ht & Hl & Hb). split_and!; [set_solver|done|done|].
      by apply tallied_other.
Qed.

(** The values of a hash map keyed by a field, collected and sorted by that field. *)
Lemma collected_members (mm : gmap TokenId NegRiskMemberExposure) :
  (∀ tok e, mm !! tok = Some e → nme_token_id e = tok) →
  let l := sort_by (cmp_on nme_token_id str_cmp) (omap (mm !!.) (hash_iter (dom mm))) in
  (∀ e, e ∈ l ↔ mm !! nme_token_id e = Some e) ∧
  StronglySorted (cmp_le str_cmp) (nme_token_id <$> l) ∧ NoDup (nme_token_id <$> l) ∧
  (∀ tok, tok ∈ nme_token_id <$> l ↔ tok ∈ dom mm).
Proof.
  intros Hk l. pose proof (hash_iter_Permutation (dom mm)) as Hp.
  assert (∀ toks : list TokenId, (∀ tok, tok ∈ toks → tok ∈ dom mm) →
    nme_token_id <$> omap (mm !!.) toks = toks) as Ht.
  { induction toks as [|tok toks IH]; intros Hin; [done|]. csimpl.
    assert (tok ∈ dom mm) as [e He]%elem_of_dom by (apply Hin; left).
    rewrite He. csimpl. rewrite (Hk _ _ He), IH; [done|]. intros. apply Hin. by right. }
  assert (nme_token_id <$> l = sort_by str_cmp (hash_iter (dom mm))) as El.
  { etrans; [apply (map_sort_by_on nme_token_id str_cmp)|]. f_equal. apply Ht.
    intros tok. by rewrite Hp, elem_of_elements. }
  rewrite El. split_and!.
  - intros e. unfold l. rewrite (elem_of_sort_by (cmp_on _ _)), list_elem_of_omap. split.
    + intros (tok & _ & He). by rewrite (Hk _ _ He).
    + intros He. exists (nme_token_id e). split; [|done].
      rewrite Hp, elem_of_elements, elem_of_dom. by eexists.
  - apply (sort_by_sorted str_cmp).
  - rewrite (sort_by_Permutation str_cmp), Hp. apply NoDup_elements.
  - intros tok. by rewrite (elem_of_sort_by str_cmp), Hp, elem_of_elements.
Qed.

(** What [from_inventory] promises of the exposure it returns. *)
Record exposure_of (m : IdentifierMap) (rows : list InventoryRow) (v : NegRiskExposureVector) :
    Prop := {
  eo_nonempty : rows ≠ [];
  eo_family : ∀ row, row ∈ rows → ∃ c, row_resolves m (ev_family_id v) row c;
  eo_sorted : StronglySorted (cmp_le str_cmp) (nme_token_id <$> ev_members v);
  eo_distinct : NoDup (nme_token_id <$> ev_members v);
  eo_tokens : ∀ tok, tok ∈ nme_token_id <$> ev_members v ↔ tok ∈ rows.*1.*1;
  eo_sums : ∀ e, e ∈ ev_members v →
    nme_outcome_label e = default (nme_token_id e) (outcome_label_for_token m (nme_token_id e)) ∧
    tallied rows (nme_token_id e) (nme_bucket_quantities e);
  eo_rollup : rolled_up (nme_bucket_quantities <$> ev_members v)
                (er_bucket_quantities (ev_rollup v));
  eo_count : er_member_count (ev_rollup v) = length (ev_members v);
}.

Lemma from_inventory_cases m rows :
  match from_inventory rows m with
  | Returns (Ok v) => exposure_of m rows v
  | Returns (Err e) =>
      (rows = [] ∧ e = EmptyInventory) ∨
      ∃ pre row post fam, rows = pre ++ row :: post ∧ (fam = None ↔ pre = []) ∧
        (∀ f row', fam = Some f → row' ∈ pre → ∃ c, row_resolves m f row' c) ∧
        row_error m fam row e
  | Panics => overflows
  end.
Proof.
  destruct rows as [|row0 rows0]; [by left|]. unfold from_inventory.
  remember (row0 :: rows0) as rows eqn:Erows.
  assert (inventory_state m [] (∅, None)) as H0.
  { split; simpl; [done|done|]. intros tok. rewrite lookup_empty. apply not_elem_of_nil. }
  pose proof (try_outcome_fold_cases (add_inventory_row m) (inventory_state m)
    (λ pre row e, ∃ fam, (fam = None ↔ pre = []) ∧
       (∀ f row', fam = Some f → row' ∈ pre → ∃ c, row_resolves m f row' c) ∧
       row_error m fam row e) overflows (∅, None) rows H0) as Hc.
  lapply Hc; [clear Hc; intros Hc|].
  2: { intros pre row st Hst. pose proof (add_inventory_row_step m pre row st Hst) as Hs.
       destruct (add_inventory_row m st row) as [[st'|e]|]; [done| |done].
       destruct Hst as [Hf Hr _]. by exists st.2. }
  unfold try_then at 1. destruct (try_outcome_fold _ _ rows) as [[[mm fam]|e]|]; simpl; [| |done].
  2: { right. destruct Hc as (pre & row & post & -> & fam & Hfam). by exists pre, row, post, fam. }
  destruct Hc as [Hf Hr Hm]; simpl in *.
  destruct (collected_members mm) as (He & Hsort & Hnd & Htok).
  { intros tok e E. specialize (Hm tok). rewrite E in Hm. tauto. }
  pose proof (rolled_up_spec nme_bucket_quantities
    (sort_by (cmp_on nme_token_id str_cmp) (omap (mm !!.) (hash_iter (dom mm))))) as Hroll.
  destruct (outcome_fold _ _ _) as [rollup|]; simpl; [|done].
  destruct fam as [fam|]; [|by rewrite (proj1 Hf eq_refl) in Erows]. simpl.
  split; simpl; [by rewrite Erows|by intros; apply Hr|done|done| |  |done|done].
  - intros tok. rewrite Htok, elem_of_dom. specialize (Hm tok).
    destruct (mm !! tok) as [e|]; [naive_solver|].
    split; [by intros []|done].
  - intros e E%He. specialize (Hm (nme_token_id e)). rewrite E in Hm. tauto.
Qed.

(** *** The loops of [reconstruct_family_exposure] *)

Record tally_state (m : IdentifierMap) (toks : gset TokenId) (family : EventFamilyId)
    (rows : list InventoryRow) (st : TokenTally) : Prop := {
  ts_resolves : ∀ row, row ∈ rows → row.1.1 ∈ toks → ∃ c, row_resolves m family row c;
  ts_members : ∀ tok, match tt_quantities st !! tok with
    | Some buckets => tok ∈ toks ∧ tok ∈ rows.*1.*1 ∧ tallied rows tok buckets ∧
        is_Some (condition_for_token m tok) ∧
        tt_conditions st !! tok = condition_for_token m tok
    | None => tok ∉ toks ∨ tok ∉ rows.*1.*1
    end;
}.

Lemma add_family_row_step m toks family pre row st :
  tally_state m toks family pre st →
  match add_family_row toks family m st row with
  | Returns (Ok st') => tally_state m toks family (pre ++ [row]) st'
  | Returns (Err e) => row.1.1 ∈ toks ∧ row_error m (Some family) row e
  | Panics => overflows
  end.
Proof.
  intros [Hr Hm]. destruct row as [[tok b] q]. simpl.
  case_bool_decide as Etok.
  { split.
    - intros row [Hin | ->%list_elem_of_singleton]%elem_of_app; [by apply Hr|done].
    - intros tok'. specialize (Hm tok'). rewrite !fmap_app. simpl.
      destruct (tt_quantities st !! tok') as [buckets|].
      + destruct Hm as (Hin & Hrow & Hb & Hc). split_and!; [done|set_solver| |apply Hc|apply Hc].
        apply tallied_other; [|done]. simpl. by intros ->.
      + destruct (decide (tok' = tok)) as [->|]; [by left|]. set_solver. }
  unfold row_error; simpl.
  destruct (condition_for_token m tok) as [c|] eqn:Ec; [|by split; [|left]].
  case_bool_decide as Eroute; [split; [done|right; eauto]|].
  destruct (family_for_condition m c) as [mapped|] eqn:Ef; [|split; [done|right; eauto 7]].
  case_bool_decide as Efam; [split; [done|right; eauto 12]|]. subst mapped.
  pose proof (add_row_tallied pre tok b q (tt_quantities st !! tok)) as Hadd.
  specialize (Hm tok) as Hmt.
  lapply Hadd; [clear Hadd; intros Hadd|by destruct (tt_quantities st !! tok); naive_solver].
  destruct (add_quantity _ b q) as [buckets|]; simpl; [|done]. split; simpl.
  - intros row [Hin | ->%list_elem_of_singleton]%elem_of_app; [by apply Hr|]. by exists c.
  - intros tok'. destruct (decide (tok' = tok)) as [->|Hne].
    + rewrite !lookup_insert_eq, Ec. rewrite !fmap_app. simpl.
      split_and!; [done|set_solver|done|by eexists|done].
    + rewrite !lookup_insert_ne by done. specialize (Hm tok'). rewrite !fmap_app. simpl.
      destruct (tt_quantities st !! tok') as [bk|]; [|set_solver].
      destruct Hm as (Hin & Hrow & Hb & Hc). split_and!; [done|set_solver| |apply Hc|apply Hc].
      by apply tallied_other.
Qed.

(** The members taken from a prefix of the family, the first node of each token. *)
Record taken (m : IdentifierMap) (tally : TokenTally) (nodes : list NegRiskNode)
    (st : TokenTally * list FamilyMemberExposure) : Prop := {
  tk_left : ∀ tok, tt_quantities st.1 !! tok =
    if bool_decide (tok ∈ nn_token_id <$> nodes) then None else tt_quantities tally !! tok;
  tk_conditions : ∀ tok, is_Some (tt_quantities st.1 !! tok) →
    tt_conditions st.1 !! tok = tt_conditions tally !! tok;
  tk_order : sublist ((λ e, (fme_token_id e, fme_outcome_label e)) <$> st.2)
                     ((λ n, (nn_token_id n, nn_outcome_label n)) <$> nodes);
  tk_distinct : NoDup (fme_token_id <$> st.2);
  tk_elem : ∀ tok, tok ∈ fme_token_id <$> st.2 ↔
    tok ∈ nn_token_id <$> nodes ∧ is_Some (tt_quantities tally !! tok);
  tk_buckets : ∀ e, e ∈ st.2 →
    tt_quantities tally !! fme_token_id e = Some (fme_bucket_quantities e) ∧
    tt_conditions tally !! fme_token_id e = Some (fme_condition_id e);
}.

Lemma take_member_step m tally pre node st :
  (∀ tok, is_Some (tt_quantities tally !! tok) → is_Some (tt_conditions tally !! tok)) →
  taken m tally pre st →
  match take_member st node with
  | Returns st' => taken m tally (pre ++ [node]) st'
  | Panics => False
  end.
Proof.
  intros Hcond [Hl Hc Ho Hd He Hb]. destruct st as [left members]. unfold take_member. simpl in *.
  set (tok := nn_token_id node). specialize (Hl tok) as Hlt.
  assert (∀ t, t ∈ nn_token_id <$> (pre ++ [node]) ↔ t ∈ nn_token_id <$> pre ∨ t = tok) as Hin.
  { intros t. rewrite fmap_app, elem_of_app. simpl. rewrite list_elem_of_singleton. done. }
  destruct (tt_quantities left !! tok) as [bk|] eqn:Ebk.
  - case_bool_decide as Epre; [done|]. destruct (Hcond tok) as [c Ec]; [by rewrite <- Hlt|].
    rewrite (Hc tok), Ec by (rewrite Ebk; by eexists). simpl. split; simpl.
    + intros t. destruct (decide (t = tok)) as [->|Hne].
      * rewrite lookup_delete_eq, bool_decide_eq_true_2 by (apply Hin; by right). done.
      * rewrite lookup_delete_ne, Hl by done.
        rewrite (bool_decide_ext (t ∈ nn_token_id <$> (pre ++ [node])) (t ∈ nn_token_id <$> pre));
          [done|]. rewrite Hin. naive_solver.
    + intros t Ht. destruct (decide (t = tok)) as [->|Hne].
      * rewrite lookup_delete_eq in Ht. by destruct Ht.
      * rewrite lookup_delete_ne in Ht by done. rewrite lookup_delete_ne by done. by apply Hc.
    + rewrite !fmap_app. by apply sublist_app.
    + rewrite fmap_app. apply NoDup_app. split_and!; [done| |apply NoDup_singleton].
      intros t Ht%He Ht'%list_elem_of_singleton. simpl in Ht'. subst t. tauto.
    + intros t. rewrite fmap_app, elem_of_app, He, Hin. simpl. rewrite list_elem_of_singleton.
      fold tok. split; [|naive_solver]. intros [? | ->]; [naive_solver|].
      split; [by right|]. rewrite <- Hlt. by eexists.
    + intros e [Hin' | ->%list_elem_of_singleton]%elem_of_app; [by apply Hb|]. simpl. done.
  - split; simpl; try done.
    + intros t. rewrite Hl. destruct (decide (t = tok)) as [->|Hne].
      * rewrite <- Hlt, bool_decide_eq_true_2 by (apply Hin; by right). done.
      * rewrite (bool_decide_ext (t ∈ nn_token_id <$> (pre ++ [node])) (t ∈ nn_token_id <$> pre));
          [done|]. rewrite Hin. naive_solver.
    + rewrite fmap_app. apply sublist_inserts_r. done.
    + intros t. rewrite He, Hin. split; [naive_solver|]. intros [[?|E] Hs]; [done|].
      subst t. split; [|done]. case_bool_decide; [done|]. rewrite <- Hlt in Hs. by destruct Hs.
Qed.

(** What [reconstruct_family_exposure] promises of the exposure it returns. *)
Record family_exposure_of (family : NegRiskGraphFamily) (m : IdentifierMap)
    (rows : list InventoryRow) (v : FamilyExposure) : Prop := {
  fo_family : fe_family_id v = nf_family_id (gf_family family);
  fo_rows : ∀ row, row ∈ rows → row.1.1 ∈ nn_token_id <$> nf_members (gf_family family) →
    ∃ c, row_resolves m (fe_family_id v) row c;
  fo_order : sublist ((λ e, (fme_token_id e, fme_outcome_label e)) <$> fe_members v)
    ((λ n, (nn_token_id n, nn_outcome_label n)) <$> nf_members (gf_family family));
  fo_distinct : NoDup (fme_token_id <$> fe_members v);
  fo_nonempty : fe_members v ≠ [];
  fo_tokens : ∀ tok, tok ∈ fme_token_id <$> fe_members v ↔
    tok ∈ nn_token_id <$> nf_members (gf_family family) ∧ tok ∈ rows.*1.*1;
  fo_sums : ∀ e, e ∈ fe_members v →
    condition_for_token m (fme_token_id e) = Some (fme_condition_id e) ∧
    tallied rows (fme_token_id e) (fme_bucket_quantities e);
  fo_rollup : rolled_up (fme_bucket_quantities <$> fe_members v)
                (fr_bucket_quantities (fe_rollup v));
  fo_count : fr_member_count (fe_rollup v) = length (fe_members v);
}.

Lemma tallied_loop m toks family rows :
  match try_outcome_fold (add_family_row toks family m)
          {| tt_quantities := ∅; tt_conditions := ∅ |} rows with
  | Returns (Ok st) => tally_state m toks family rows st
  | Returns (Err e) => ∃ pre row post, rows = pre ++ row :: post ∧
      (∀ row', row' ∈ pre → row'.1.1 ∈ toks → ∃ c, row_resolves m family row' c) ∧
      row.1.1 ∈ toks ∧ row_error m (Some family) row e
  | Panics => overflows
  end.
Proof.
  apply (try_outcome_fold_cases _ (tally_state m toks family)
    (λ pre row e, (∀ row', row' ∈ pre → row'.1.1 ∈ toks → ∃ c, row_resolves m family row' c) ∧
                  row.1.1 ∈ toks ∧ row_error m (Some family) row e)).
  - split; simpl; [by intros ? ?%not_elem_of_nil|]. intros tok. rewrite lookup_empty.
    right. apply not_elem_of_nil.
  - intros pre row st Hst. pose proof (add_family_row_step m toks family pre row st Hst) as Hs.
    destruct (add_family_row toks family m st row) as [[st'|e]|]; [done| |done].
    split; [apply Hst|done].
Qed.

Lemma taken_loop m tally nodes :
  (∀ tok, is_Some (tt_quantities tally !! tok) → is_Some (tt_conditions tally !! tok)) →
  ∃ st, outcome_fold take_member (tally, []) nodes = Returns st ∧ taken m tally nodes st.
Proof.
  intros Hc. pose proof (outcome_fold_cases take_member (taken m tally) False (tally, []) nodes)
    as Hf.
  lapply Hf; [clear Hf; intros Hf; lapply Hf; [clear Hf; intros Hf|]|].
  - destruct (outcome_fold _ _ _) as [st|]; [|done]. by exists st.
  - intros pre node _ st _. by apply take_member_step.
  - split; simpl; [done|done|done|constructor| |by intros ? ?%not_elem_of_nil].
    intros tok. split; [by intros ?%not_elem_of_nil|by intros [?%not_elem_of_nil _]].
Qed.

Lemma reconstruct_cases family m rows :
  match reconstruct_family_exposure family rows m with
  | Returns (Ok v) => family_exposure_of family m rows v
  | Returns (Err e) =>
      let toks := nn_token_id <$> nf_members (gf_family family) in
      (e = EmptyInventory ∧ ∀ row, row ∈ rows → row.1.1 ∉ toks) ∨
      ∃ pre row post, rows = pre ++ row :: post ∧
        (∀ row', row' ∈ pre → row'.1.1 ∈ toks →
           ∃ c, row_resolves m (nf_family_id (gf_family family)) row' c) ∧
        row.1.1 ∈ toks ∧ row_error m (Some (nf_family_id (gf_family family))) row e
  | Panics => overflows
  end.
Proof.
  unfold reconstruct_family_exposure.
  set (nodes := nf_members (gf_family family)). set (fid := nf_family_id (gf_family family)).
  set (toks := list_to_set (nn_token_id <$> nodes) : gset TokenId).
  assert (∀ tok, tok ∈ toks ↔ tok ∈ nn_token_id <$> nodes) as Htoks
    by (intros; apply elem_of_list_to_set).
  pose proof (tallied_loop m toks fid rows) as Ht. unfold try_then at 1.
  destruct (try_outcome_fold _ _ rows) as [[tally|e]|]; simpl; [| |done].
  2: { right. destruct Ht as (pre & row & post & -> & Hpre & Hin & He).
       exists pre, row, post. setoid_rewrite Htoks in Hpre. rewrite Htoks in Hin. done. }
  destruct Ht as [Hr Hm]. case_bool_decide as Eempty.
  { left. split; [done|]. intros row Hin Htok. specialize (Hm row.1.1).
    rewrite Eempty, lookup_empty in Hm. destruct Hm as [Hn|Hn]; [by rewrite Htoks in Hn|].
    apply Hn. apply list_elem_of_fmap. exists row.1. split; [done|].
    apply list_elem_of_fmap. by exists row. }
  destruct (taken_loop m tally nodes) as (st & -> & [Hl Hc Ho Hd He Hb]).
  { intros tok [bk Hbk]. specialize (Hm tok). rewrite Hbk in Hm.
    destruct Hm as (_ & _ & _ & Hs & ->). done. }
  simpl. pose proof (rolled_up_spec fme_bucket_quantities st.2) as Hroll.
  destruct (outcome_fold _ _ _) as [rollup|]; simpl; [|done].
  assert (∀ tok, is_Some (tt_quantities tally !! tok) ↔
                 tok ∈ nn_token_id <$> nodes ∧ tok ∈ rows.*1.*1) as Hq.
  { intros tok. specialize (Hm tok). rewrite <- Htoks.
    destruct (tt_quantities tally !! tok) as [bk|]; [|by split; [intros []|naive_solver]].
    split; [naive_solver|by eexists]. }
  split; simpl; try done.
  - intros row Hin Htok. apply Hr; [done|]. by apply Htoks.
  - intros En. destruct (map_choose (tt_quantities tally) Eempty) as (tok & bk & Hbk).
    assert (tok ∈ fme_token_id <$> st.2) as Hin.
    { apply He. split; [apply Hq; by eexists|by eexists]. }
    rewrite En in Hin. by apply not_elem_of_nil in Hin.
  - intros tok. rewrite He, Hq. tauto.
  - intros e Hin. destruct (Hb e Hin) as [Hbk Hcond]. specialize (Hm (fme_token_id e)).
    rewrite Hbk in Hm. destruct Hm as (_ & _ & Ht & _ & <-). done.
Qed.

Lemma tallied_unique rows tok b1 b2 : tallied rows tok b1 → tallied rows tok b2 → b1 = b2.
Proof.
  intros H1 H2. apply map_eq. intros b. by rewrite (proj1 (H1 b)), (proj1 (H2 b)).
Qed.
End exposure.

(** ** Properties *)

(** The exposure of an inventory accounts for every row, in whatever order the
    hash maps are visited: the family is the one family of all the rows, there is one
    member per token, sorted by token, whose buckets are the sums of the token's
    rows in row order, and the rollup is the sum of the members' buckets. An error
    names the first row that is not of the family of the rows before it; only an
    addition out of range panics. *)
Theorem from_inventory_spec {X : Externals} (H : HashOrder) (HL : HashOrderLaws H) m rows :
  match from_inventory rows m with
  | Returns (Ok v) => exposure_of m rows v
  | Returns (Err e) =>
      (rows = [] ∧ e = EmptyInventory) ∨
      ∃ pre row post fam, rows = pre ++ row :: post ∧ (fam = None ↔ pre = []) ∧
        (∀ f row', fam = Some f → row' ∈ pre → ∃ c, row_resolves m f row' c) ∧
        row_error m fam row e
  | Panics => overflows
  end.
Proof. apply from_inventory_cases. Qed.

(** The strategy's exposure of a family agrees with the domain's exposure of the
    inventory when every row is of a token of the family: same family, the same
    tokens and number of members, and the same buckets for each token. *)
Theorem exposures_agree {X : Externals} (H : HashOrder) (HL : HashOrderLaws H)
    family m rows v1 v2 :
  from_inventory rows m = Returns (Ok v1) →
  reconstruct_family_exposure family rows m = Returns (Ok v2) →
  (∀ row, row ∈ rows → row.1.1 ∈ nn_token_id <$> nf_members (gf_family family)) →
  fe_family_id v2 = ev_family_id v1 ∧
  fme_token_id <$> fe_members v2 ≡ₚ nme_token_id <$> ev_members v1 ∧
  (∀ e1 e2, e1 ∈ ev_members v1 → e2 ∈ fe_members v2 → fme_token_id e2 = nme_token_id e1 →
     fme_bucket_quantities e2 = nme_bucket_quantities e1) ∧
  fr_member_count (fe_rollup v2) = er_member_count (ev_rollup v1).
Proof.
  intros E1 E2 Hin. pose proof (from_inventory_cases m rows) as H1. rewrite E1 in H1.
  pose proof (reconstruct_cases family m rows) as H2. rewrite E2 in H2.
  assert (fme_token_id <$> fe_members v2 ≡ₚ nme_token_id <$> ev_members v1) as Hp.
  { apply NoDup_Permutation; [apply H2|apply H1|]. intros tok.
    rewrite (fo_tokens _ _ _ _ H2), (eo_tokens _ _ _ H1). split; [tauto|]. intros Htok.
    split; [|done]. apply list_elem_of_fmap in Htok as (k & -> & Hk).
    apply list_elem_of_fmap in Hk as (row & -> & Hrow). by apply Hin. }
  split_and!; [|done| |].
  - destruct rows as [|row rows]; [by destruct (eo_nonempty _ _ _ H1)|].
    destruct (eo_family _ _ _ H1 row) as (c1 & Ec1 & _ & Ef1); [left|].
    destruct (fo_rows _ _ _ _ H2 row) as (c2 & Ec2 & _ & Ef2); [left|apply Hin; left|].
    congruence.
  - intros e1 e2 He1 He2 Et. apply (tallied_unique rows (nme_token_id e1)).
    + rewrite <- Et. by apply (fo_sums _ _ _ _ H2).
    + by apply (eo_sums _ _ _ H1).
  - rewrite (fo_count _ _ _ _ H2), (eo_count _ _ _ H1).
    apply Permutation_length in Hp. by rewrite !length_fmap in Hp.
Qed.

(** *** Witnesses *)

Definition sample_map : IdentifierMap :=
  {| token_to_metadata :=
       <["b" := {| tm_condition_id := "cb"; tm_outcome_label := Some "B" |}]>
         {["a" := {| tm_condition_id := "ca"; tm_outcome_label := Some "A" |}]};
     condition_to_metadata :=
       let c := {| cm_market_id := None; cm_event_id := None; cm_event_family_id := Some "f";
                   cm_route := Some NegRisk |} in
       <["cb" := c]> {["ca" := c]} |}.

Definition sample_rows : list (InventoryRow (X := Micros)) :=
  [("b", Free, 5 : Z); ("a", Free, 7 : Z); ("b", Redeemable, 1 : Z); ("b", Free, 2 : Z)].

Definition sample_family : NegRiskGraphFamily :=
  let node t l := {| nn_token_id := t; nn_outcome_label := l; nn_is_placeholder := false;
                     nn_is_other := false; nn_route := NegRisk |} in
  {| gf_family := {| nf_family_id := "f"; nf_route := NegRisk;
                     nf_members := [node "b" "B"; node "a" "A"] |};
     gf_neg_risk_variant := StandardVariant |}.

Definition sample_exposure :=
  from_inventory (X := Micros) (H := ElementsOrder) sample_rows sample_map.
Definition sample_family_exposure :=
  reconstruct_family_exposure (X := Micros) (H := ElementsOrder) sample_family sample_rows
    sample_map.

Lemma from_inventory_spec_witness :
  match sample_exposure with
  | Returns (Ok v) => nme_token_id <$> ev_members v = ["a"; "b"]
  | _ => False
  end ∧
  match sample_exposure with
  | Returns (Ok v) => exposure_of sample_map sample_rows v
  | _ => True
  end.
Proof.
  split; [vm_compute; reflexivity|].
  pose proof (from_inventory_spec (X := Micros) ElementsOrder ElementsOrder_laws
                sample_map sample_rows) as Hs.
  unfold sample_exposure. by destruct (from_inventory sample_rows sample_map) as [[]|].
Defined.

Lemma exposures_agree_witness :
  match sample_exposure, sample_family_exposure with
  | Returns (Ok _), Returns (Ok v2) => fme_token_id <$> fe_members v2 = ["b"; "a"]
  | _, _ => False
  end ∧
  match sample_exposure, sample_family_exposure with
  | Returns (Ok v1), Returns (Ok v2) =>
      fme_token_id <$> fe_members v2 ≡ₚ nme_token_id <$> ev_members v1
  | _, _ => True
  end.
Proof.
  split; [vm_compute; reflexivity|]. unfold sample_exposure, sample_family_exposure.
  destruct (from_inventory sample_rows sample_map) as [[v1|]|] eqn:E1; [|done..].
  destruct (reconstruct_family_exposure sample_family sample_rows sample_map)
    as [[v2|]|] eqn:E2; [|done..].
  refine (proj1 (proj2 (exposures_agree (X := Micros) ElementsOrder ElementsOrder_laws
            sample_family sample_map sample_rows v1 v2 E1 E2 _))).
  apply Forall_forall. apply (bool_decide_unpack _). vm_compute. exact I.
Defined.
