(* ===== verification/LiveRecords.v ===== *)
(** * Neg-risk execution records

    The operator's targets and their revision ([app-live/src/config.rs]), the
    requests posted to the venue ([venue-polymarket/src/orders.rs]), and the live
    and shadow records built for the families that are ready and approved
    ([app-live/src/negrisk_live.rs], [negrisk_shadow.rs]). *)

From S2P Require Import Prelude Text RecordSet Externals Json Domain RuntimeMode Facts Store.
From S2P Require Import Snapshot Risk Plans Execution.

Section records.
Context {X : Externals} {J : JsonOps}.

(** ** config.rs: targets *)

Record NegRiskMemberLiveTarget := {
  lm_condition_id : string;
  lm_token_id : string;
  lm_price : Decimal;
  lm_quantity : Decimal;
}.

Record NegRiskFamilyLiveTarget := {
  lf_family_id : string;
  lf_members : list NegRiskMemberLiveTarget;
}.

Definition LiveTargets : Type := gmap string NegRiskFamilyLiveTarget.

Definition target_member_key (m : NegRiskMemberLiveTarget) :
    string * (string * (string * string)) :=
  (lm_condition_id m, (lm_token_id m,
    (dec_normalized (lm_price m), dec_normalized (lm_quantity m)))).

(** [canonical_members]: sorted by the rendered fields, and rendered. *)
Definition canonical_target_members (members : list NegRiskMemberLiveTarget) : list Json :=
  (λ m, JObject [("condition_id", JString (lm_condition_id m));
                 ("token_id", JString (lm_token_id m));
                 ("price", JString (dec_normalized (lm_price m)));
                 ("quantity", JString (dec_normalized (lm_quantity m)))])
  <$> sort_by (cmp_on target_member_key member_key_cmp) members.

Definition canonical_targets (targets : LiveTargets) : Json :=
  JObject [("families", JArray
    ((λ '(family_id, family),
        JObject [("family_id", JString family_id);
                 ("members", JArray (canonical_target_members (lf_members family)))])
     <$> btree_entries str_cmp targets))].

Definition neg_risk_live_target_revision_from_targets (targets : LiveTargets) : string :=
  "sha256:" +:+ hex_string (sha256 (json_text (canonical_targets targets))).

(** ** venue-polymarket: orders.rs *)

Inductive OrderSide := Buy | Sell.
Inductive OrderType := Gtc.

Record PostOrder := {
  po_maker : string;
  po_signer : string;
  po_taker : string;
  po_token_id : string;
  po_maker_amount : string;
  po_taker_amount : string;
  po_side : OrderSide;
  po_expiration : string;
  po_nonce : string;
  po_fee_rate_bps : string;
  po_signature : string;
  po_salt : string;
  po_signature_type : Z;
}.

Record PostOrderRequest := {
  pr_order : PostOrder;
  pr_owner : string;
  pr_order_type : OrderType;
  pr_defer_exec : bool;
}.

Record PostOrderTransport := {
  pt_owner : string;
  pt_order_type : OrderType;
  pt_defer_exec : bool;
}.

Inductive PostOrderBuildError := InvalidSalt (salt : string) | InvalidSide (side : string).

Definition build_post_order_request_from_signed_member (m : SignedFamilyMember)
    (transport : PostOrderTransport) : result PostOrderBuildError PostOrderRequest :=
  let salt := so_salt (sm_identity m) in
  if negb (negb (bool_decide (salt = "")) && str_forall is_digit salt) then
    Err (InvalidSalt salt)
  else
    match json_literal salt with
    | None => Err (InvalidSalt salt)
    | Some _ =>
        side ← (if bool_decide (sm_side m = "BUY") then Ok Buy
                else if bool_decide (sm_side m = "SELL") then Ok Sell
                else Err (InvalidSide (sm_side m)));
        Ok {| pr_order :=
                {| po_maker := sm_maker m; po_signer := sm_signer m; po_taker := sm_taker m;
                   po_token_id := sm_token_id m; po_maker_amount := sm_maker_amount m;
                   po_taker_amount := sm_taker_amount m; po_side := side;
                   po_expiration := sm_expiration m; po_nonce := so_nonce (sm_identity m);
                   po_fee_rate_bps := sm_fee_rate_bps m;
                   po_signature := so_signature (sm_identity m); po_salt := salt;
                   po_signature_type := sm_signature_type m |};
              pr_owner := pt_owner transport; pr_order_type := pt_order_type transport;
              pr_defer_exec := pt_defer_exec transport |}
    end.

(** [serde_json::to_value(request)], with the names serde derives. *)
Definition order_side_json (s : OrderSide) : Json :=
  JString (match s with Buy => "BUY" | Sell => "SELL" end).

Definition post_order_json (o : PostOrder) : option Json :=
  salt ← json_literal (po_salt o);
  Some (json_object
    [("maker", JString (po_maker o)); ("signer", JString (po_signer o));
     ("taker", JString (po_taker o)); ("tokenId", JString (po_token_id o));
     ("makerAmount", JString (po_maker_amount o)); ("takerAmount", JString (po_taker_amount o));
     ("side", order_side_json (po_side o)); ("expiration", JString (po_expiration o));
     ("nonce", JString (po_nonce o)); ("feeRateBps", JString (po_fee_rate_bps o));
     ("signature", JString (po_signature o)); ("salt", salt);
     ("signatureType", JNumber (po_signature_type o))]).

Definition post_order_request_json (r : PostOrderRequest) : option Json :=
  order ← post_order_json (pr_order r);
  Some (json_object [("order", order); ("owner", JString (pr_owner r));
                     ("orderType", JString (match pr_order_type r with Gtc => "GTC" end));
                     ("deferExec", JBool (pr_defer_exec r))]).

(** ** negrisk_live.rs *)

Record NegRiskLiveArtifact := { la_stream : string; la_payload : Json }.

Record NegRiskLiveExecutionRecord := {
  lr_attempt_id : string;
  lr_plan_id : string;
  lr_snapshot_id : string;
  lr_execution_mode : ExecutionMode;
  lr_attempt_no : Z;
  lr_idempotency_key : string;
  lr_route : string;
  lr_scope : string;
  lr_matched_rule_id : option string;
  lr_submission_ref : option string;
  lr_pending_ref : option string;
  lr_artifacts : list NegRiskLiveArtifact;
  lr_order_requests : list Json;
}.

(** Each message is the error it renders. *)
Inductive NegRiskLiveError :=
| LivePlanning (e : NegRiskPlanningError)
| LiveSigningHook (reason : string)
| LiveSinkFailed (e : ExecutionError)
| LiveUnexpectedOutcome (outcome : ExecutionAttemptOutcome)
| LiveBackend (reason : string).

(** The rules of a batch: one per approved family. *)
Definition live_rules (approved_families : gset string) : list RolloutRule :=
  (λ family_id, rollout_rule_new "neg-risk" family_id Live (family_id +:+ "-live"))
  <$> sort_by str_cmp (elements approved_families).

Definition live_intent (kind snapshot_id family_id : string) : DecisionInput :=
  Strategy {| ic_intent_id :=
                "negrisk-" +:+ kind +:+ "-intent:" +:+ snapshot_id +:+ ":" +:+ family_id;
              ic_source_snapshot_id := snapshot_id; ic_route := "neg-risk";
              ic_scope := family_id |}.

Definition to_member_target (m : NegRiskMemberLiveTarget) : NegRiskMemberTarget :=
  {| mt_condition_id := lm_condition_id m; mt_token_id := lm_token_id m;
     mt_price := lm_price m; mt_quantity := lm_quantity m |}.

Definition to_execution_target (t : NegRiskFamilyLiveTarget) : NegRiskFamilyTarget :=
  {| ft_family_id := lf_family_id t; ft_members := to_member_target <$> lf_members t |}.

Definition family_request (kind : string) (mode : ExecutionMode) (snapshot_id : string)
    (target : NegRiskFamilyLiveTarget) (matched_rule_id : string) : ExecutionRequest :=
  {| er_request_id :=
       "negrisk-" +:+ kind +:+ "-request:" +:+ snapshot_id +:+ ":" +:+ lf_family_id target;
     er_decision_input_id :=
       "negrisk-" +:+ kind +:+ "-intent:" +:+ snapshot_id +:+ ":" +:+ lf_family_id target;
     er_snapshot_id := snapshot_id; er_route := "neg-risk"; er_scope := lf_family_id target;
     er_activation_mode := mode; er_matched_rule_id := Some matched_rule_id |}.

(** *** The hook that records what would be posted *)

Record RecordingSignedFamilyHook := {
  rh_artifacts : list NegRiskLiveArtifact;
  rh_order_requests : list Json;
}.

Definition debug_post_order_build_error (e : PostOrderBuildError) : string :=
  match e with
  | InvalidSalt salt => "InvalidSalt { salt: " +:+ debug_str salt +:+ " }"
  | InvalidSide side => "InvalidSide { side: " +:+ debug_str side +:+ " }"
  end.

Definition recording_on_signed_family (signed : SignedFamilySubmission)
    (attempt : ExecutionAttemptContext) (h : RecordingSignedFamilyHook) :
    outcome (RecordingSignedFamilyHook * result SignedFamilyHookError ()) :=
  let transport := {| pt_owner := "owner-" +:+ ac_scope attempt; pt_order_type := Gtc;
                      pt_defer_exec := false |} in
  match collect_results (λ m, build_post_order_request_from_signed_member m transport)
          (sf_members signed) with
  | Err e =>
      Returns (h, Err {| she_reason :=
                           "post-order build failed: " +:+ debug_post_order_build_error e |})
  | Ok requests =>
      order_requests ← expect (mapM post_order_request_json requests);
      Returns ({| rh_order_requests := rh_order_requests h ++ order_requests;
                  rh_artifacts := rh_artifacts h ++
                    [{| la_stream := "neg-risk-live-orders";
                        la_payload := json_object
                          [("attempt_id", JString (ac_attempt_id attempt));
                           ("route", JString (ac_route attempt));
                           ("scope", JString (ac_scope attempt));
                           ("matched_rule_id", json_option (ac_matched_rule_id attempt));
                           ("plan_id", JString (sf_plan_id signed));
                           ("requests", JArray order_requests)] |}] |}, Ok ())
  end.

(** The sink's world is the hook; a panic in the signer or the hook ends the run,
    so nothing after it is observed. *)
Definition HookWorld : Type := outcome RecordingSignedFamilyHook.

Definition panic_reason : SignedFamilyHookError := {| she_reason := "" |}.

Definition test_order_signer : SignerProvider (World := HookWorld) :=
  {| sign_family plan w :=
       match test_sign_family plan with
       | Returns r => (w, r)
       | Panics => (Panics, Err (SignerFailure "" ""))
       end |}.

Definition recording_hook : SignedFamilyHook (World := HookWorld) :=
  {| on_signed_family signed attempt w :=
       match (h ← w; recording_on_signed_family signed attempt h) with
       | Returns (h, r) => (Returns h, r)
       | Panics => (Panics, Err panic_reason)
       end |}.

Definition ensure_success (receipt : ExecutionReceipt) : result NegRiskLiveError () :=
  if bool_decide (rc_outcome receipt = Succeeded) then Ok ()
  else Err (LiveUnexpectedOutcome (rc_outcome receipt)).

(** [HookBackedNegRiskLiveExecutionBackend::execute_live_family] *)
Definition hook_backed_execute_live_family (snapshot_id : string)
    (live_target : NegRiskFamilyLiveTarget) (matched_rule_id : string) :
    outcome (result NegRiskLiveError NegRiskLiveExecutionRecord) :=
  let request := family_request "live" Live snapshot_id live_target matched_rule_id in
  match plan_family_submission request (to_execution_target live_target) with
  | Err e => Returns (Err (LivePlanning e))
  | Ok plan =>
      let sink := live_venue_sink (live_with_order_signer_and_hook test_order_signer
                                     recording_hook) in
      let '(o, r) := @execute_with_attempt X HookWorld sink
        {| orch_sink := Returns {| rh_artifacts := []; rh_order_requests := [] |};
           orch_attempt_factory := factory_new |}
        {| pi_request := request; pi_execution_mode := er_activation_mode request;
           pi_plan := plan |} in
      h ← orch_sink o;
      match r with
      | Err e => Returns (Err (LiveSinkFailed e))
      | Ok record =>
          Returns (
            _ ← ensure_success (ar_receipt record);
            Ok {| lr_idempotency_key := "idem-" +:+ ea_attempt_id (ar_attempt record);
                  lr_attempt_id := rc_attempt_id (ar_receipt record);
                  lr_plan_id := ea_plan_id (ar_attempt record);
                  lr_snapshot_id := ea_snapshot_id (ar_attempt record);
                  lr_execution_mode := ac_execution_mode (ar_attempt_context record);
                  lr_attempt_no := ea_attempt_no (ar_attempt record);
                  lr_route := ac_route (ar_attempt_context record);
                  lr_scope := ac_scope (ar_attempt_context record);
                  lr_matched_rule_id := ac_matched_rule_id (ar_attempt_context record);
                  lr_submission_ref := rc_submission_ref (ar_receipt record);
                  lr_pending_ref := rc_pending_ref (ar_receipt record);
                  lr_artifacts := rh_artifacts h;
                  lr_order_requests := rh_order_requests h |})
      end
  end.

(** *** The backend

    What executes a live family: the venue gateway, or the hook above. [World] is
    what it acts on. *)
Section live.
Context {World : Type}.

Record NegRiskLiveExecutionBackend := {
  execute_live_family : string → NegRiskFamilyLiveTarget → string → World →
    outcome (World * result NegRiskLiveError NegRiskLiveExecutionRecord);
}.

Definition hook_backed_backend : NegRiskLiveExecutionBackend :=
  {| execute_live_family snapshot_id target rule w :=
       r ← hook_backed_execute_live_family snapshot_id target rule; Returns (w, r) |}.

(** The loop over the targets; an error returns at once. *)
Fixpoint live_records_loop (backend : NegRiskLiveExecutionBackend) (policy : ActivationPolicy)
    (snapshot_id : string) (ready_families : gset string)
    (targets : list (string * NegRiskFamilyLiveTarget)) (w : World) :
    outcome (World * result NegRiskLiveError (list NegRiskLiveExecutionRecord)) :=
  match targets with
  | [] => Returns (w, Ok [])
  | (family_id, target) :: targets' =>
      if bool_decide (family_id ∉ ready_families) then
        live_records_loop backend policy snapshot_id ready_families targets' w
      else
        let activation := activation_for policy "neg-risk" family_id snapshot_id in
        if bool_decide (evaluate_decision (live_intent "live" snapshot_id family_id) activation
                        ≠ Approved) then
          live_records_loop backend policy snapshot_id ready_families targets' w
        else
          '(w, r) ← execute_live_family backend snapshot_id target
                      (default "phase3b-negrisk-live" (ad_matched_rule_id activation)) w;
          match r with
          | Err e => Returns (w, Err e)
          | Ok record =>
              '(w, rs) ← live_records_loop backend policy snapshot_id ready_families targets' w;
              Returns (w, records ← rs; Ok (record :: records))
          end
  end.

Definition eligible_live_records_with_backend (snapshot_id : string) (targets : LiveTargets)
    (approved_families ready_families : gset string) (backend : NegRiskLiveExecutionBackend)
    (w : World) : outcome (World * result NegRiskLiveError (list NegRiskLiveExecutionRecord)) :=
  let policy := from_rules "phase3b-live-targets" (live_rules approved_families) in
  live_records_loop backend policy snapshot_id ready_families (btree_entries str_cmp targets) w.

Definition eligible_live_records (snapshot_id : string) (targets : LiveTargets)
    (approved_families ready_families : gset string) (w : World) :
    outcome (World * result NegRiskLiveError (list NegRiskLiveExecutionRecord)) :=
  eligible_live_records_with_backend snapshot_id targets approved_families ready_families
    hook_backed_backend w.
End live.

(** ** negrisk_shadow.rs *)

Record ExecutionAttemptRow := {
  xr_attempt_id : string;
  xr_plan_id : string;
  xr_snapshot_id : string;
  xr_route : string;
  xr_scope : string;
  xr_matched_rule_id : option string;
  xr_execution_mode : ExecutionMode;
  xr_attempt_no : Z;
  xr_idempotency_key : string;
  xr_run_session_id : option string;
}.

Record ShadowExecutionArtifactRow := {
  xa_attempt_id : string;
  xa_stream : string;
  xa_payload : Json;
}.

Record NegRiskShadowExecutionRecord := {
  sr_attempt : ExecutionAttemptRow;
  sr_artifacts : list ShadowExecutionArtifactRow;
}.

Inductive NegRiskShadowError :=
| ShadowPlanning (e : NegRiskPlanningError)
| ShadowDuplicateAttempt (attempt_id first_key first_family_id second_key second_family_id : string)
| ShadowSinkFailed (e : ExecutionError)
| ShadowUnexpectedOutcome (outcome : ExecutionAttemptOutcome).

Definition ensure_shadow_recorded (receipt : ExecutionReceipt) : result NegRiskShadowError () :=
  if bool_decide (rc_outcome receipt = ShadowRecorded) then Ok ()
  else Err (ShadowUnexpectedOutcome (rc_outcome receipt)).

Definition shadow_artifact_payload (attempt : ExecutionAttemptRow) (plan : ExecutionPlan) : Json :=
  let members := match plan with
    | NegRiskSubmitFamily _ members =>
        (λ m, json_object [("condition_id", JString (mo_condition_id m));
                           ("token_id", JString (mo_token_id m));
                           ("price", JString (dec_normalized (mo_price m)));
                           ("quantity", JString (dec_normalized (mo_quantity m)))]) <$> members
    | _ => []
    end in
  json_object [("attempt_id", JString (xr_attempt_id attempt));
               ("plan_id", JString (xr_plan_id attempt));
               ("snapshot_id", JString (xr_snapshot_id attempt));
               ("route", JString (xr_route attempt)); ("scope", JString (xr_scope attempt));
               ("matched_rule_id", json_option (xr_matched_rule_id attempt));
               ("members", JArray members)].

(** [i32::try_from] of a [u32] *)
Definition i32_try_from (n : Z) : option Z :=
  if bool_decide (n < 2 ^ 31) then Some n else None.

Definition execute_shadow_family (snapshot_id : string) (live_target : NegRiskFamilyLiveTarget)
    (matched_rule_id : string) (run_session_id : option string) :
    outcome (result NegRiskShadowError NegRiskShadowExecutionRecord) :=
  let request := family_request "shadow" Shadow snapshot_id live_target matched_rule_id in
  match plan_family_submission request (to_execution_target live_target) with
  | Err e => Returns (Err (ShadowPlanning e))
  | Ok plan =>
      match (execute_with_attempt
        {| orch_sink := [] : ShadowVenueSink; orch_attempt_factory := factory_new |}
        {| pi_request := request; pi_execution_mode := er_activation_mode request;
           pi_plan := plan |}).2 with
      | Err e => Returns (Err (ShadowSinkFailed e))
      | Ok record =>
          match ensure_shadow_recorded (ar_receipt record) with
          | Err e => Returns (Err e)
          | Ok _ =>
              attempt_no ← expect (i32_try_from (ea_attempt_no (ar_attempt record)));
              let attempt :=
                {| xr_attempt_id := rc_attempt_id (ar_receipt record);
                   xr_plan_id := ea_plan_id (ar_attempt record);
                   xr_snapshot_id := ea_snapshot_id (ar_attempt record);
                   xr_route := ac_route (ar_attempt_context record);
                   xr_scope := ac_scope (ar_attempt_context record);
                   xr_matched_rule_id := ac_matched_rule_id (ar_attempt_context record);
                   xr_execution_mode := ac_execution_mode (ar_attempt_context record);
                   xr_attempt_no := attempt_no;
                   xr_idempotency_key := "idem-" +:+ ea_attempt_id (ar_attempt record);
                   xr_run_session_id := run_session_id |} in
              Returns (Ok {| sr_attempt := attempt;
                             sr_artifacts :=
                               [{| xa_attempt_id := xr_attempt_id attempt;
                                   xa_stream := "neg-risk-shadow-plan";
                                   xa_payload := shadow_artifact_payload attempt plan |}] |})
          end
      end
  end.

Fixpoint shadow_records_loop (policy : ActivationPolicy) (snapshot_id : string)
    (ready_families : gset string) (run_session_id : option string)
    (targets : list (string * NegRiskFamilyLiveTarget))
    (seen_attempts : gmap string (string * string)) :
    outcome (result NegRiskShadowError (list NegRiskShadowExecutionRecord)) :=
  match targets with
  | [] => Returns (Ok [])
  | (family_id, target) :: targets' =>
      if bool_decide (family_id ∉ ready_families) then
        shadow_records_loop policy snapshot_id ready_families run_session_id targets' seen_attempts
      else
        let activation := activation_for policy "neg-risk" family_id snapshot_id in
        if bool_decide (evaluate_decision (live_intent "shadow" snapshot_id family_id) activation
                        ≠ Approved) then
          shadow_records_loop policy snapshot_id ready_families run_session_id targets'
            seen_attempts
        else
          record ←? execute_shadow_family snapshot_id target
                      (default "phase3b-negrisk-shadow" (ad_matched_rule_id activation))
                      run_session_id;
          let attempt_id := xr_attempt_id (sr_attempt record) in
          match seen_attempts !! attempt_id with
          | Some (first_key, first_family_id) =>
              Returns (Err (ShadowDuplicateAttempt attempt_id first_key first_family_id
                              family_id (lf_family_id target)))
          | None =>
              records ←? shadow_records_loop policy snapshot_id ready_families run_session_id
                           targets' (<[attempt_id := (family_id, lf_family_id target)]> seen_attempts);
              Returns (Ok (record :: records))
          end
  end.

Definition eligible_shadow_records_with_run_session_id (snapshot_id : string)
    (targets : LiveTargets) (approved_families ready_families : gset string)
    (run_session_id : option string) :
    outcome (result NegRiskShadowError (list NegRiskShadowExecutionRecord)) :=
  let policy := with_real_user_shadow_smoke
                  (from_rules "phase3b-live-targets" (live_rules approved_families)) in
  shadow_records_loop policy snapshot_id ready_families run_session_id
    (btree_entries str_cmp targets) ∅.

(** ** The families of a batch

    A ready family is executed when it is approved, or when the approvals name the
    default scope, which covers every family. *)
Definition selected_rule (approved_families : gset string) (family_id : string) : option string :=
  if bool_decide (family_id ∈ approved_families) then Some (family_id +:+ "-live")
  else if bool_decide ("default" ∈ approved_families) then Some "default-live"
  else None.

Definition selected_targets (approved_families ready_families : gset string)
    (targets : LiveTargets) : list (NegRiskFamilyLiveTarget * (string * string)) :=
  omap (λ '(family_id, target),
          if bool_decide (family_id ∈ ready_families) then
            rule ← selected_rule approved_families family_id; Some (target, (family_id, rule))
          else None)
    (btree_entries str_cmp targets).

(** *** Lemmas *)

Lemma live_rules_lookup approved f :
  index_rules (live_rules approved) !! ("neg-risk", f) =
    if bool_decide (f ∈ approved)
    then Some (rollout_rule_new "neg-risk" f Live (f +:+ "-live")) else None.
Proof.
  assert (∀ r, r ∈ live_rules approved ↔
    ∃ g, g ∈ approved ∧ r = rollout_rule_new "neg-risk" g Live (g +:+ "-live")) as Hin.
  { intros r. unfold live_rules. rewrite list_elem_of_fmap.
    setoid_rewrite (elem_of_sort_by str_cmp). setoid_rewrite elem_of_elements. naive_solver. }
  case_bool_decide as Ef.
  - destruct (index_rules (live_rules approved) !! ("neg-risk", f)) as [r|] eqn:E.
    + apply index_rules_Some in E as (_ & E & l1 & l2 & El & _).
      destruct (proj1 (Hin r)) as (g & _ & ->); [rewrite El; set_solver|]. simpl in E. by subst.
    + apply index_rules_None in E. unfold no_rule in E. rewrite Forall_forall in E. exfalso.
      apply (E (rollout_rule_new "neg-risk" f Live (f +:+ "-live"))); [|done].
      apply Hin. eauto.
  - apply index_rules_None, Forall_forall. intros r (g & Hg & ->)%Hin [_ E]. simpl in E.
    by subst.
Qed.

Lemma live_activation approved smoke f snapshot_id :
  let p := from_rules "phase3b-live-targets" (live_rules approved) in
  let p := if smoke : bool then with_real_user_shadow_smoke p else p in
  let d := activation_for p "neg-risk" f snapshot_id in
  ad_matched_rule_id d = selected_rule approved f ∧
  ad_mode d = (if bool_decide (is_Some (selected_rule approved f))
               then (if smoke then Shadow else Live) else Disabled).
Proof.
  assert (∀ s : bool, let p := from_rules "phase3b-live-targets" (live_rules approved) in
    capability_matrix (if s then with_real_user_shadow_smoke p else p) =
      index_rules (live_rules approved) ∧
    overlays (if s then with_real_user_shadow_smoke p else p) = ∅ ∧
    clamp_negrisk_live (if s then with_real_user_shadow_smoke p else p) = false ∧
    clamp_negrisk_to_shadow (if s then with_real_user_shadow_smoke p else p) = s) as Hp
    by (by intros []).
  intros p0 p d. destruct (Hp smoke) as (E1 & E2 & E3 & E4). fold p0 p in E1, E2, E3, E4.
  unfold d, activation_for, clamp_mode, resolve_rule.
  rewrite E1, E2, E3, E4, lookup_empty, !live_rules_lookup. unfold selected_rule.
  repeat case_bool_decide; simpl; try done; try (by destruct smoke);
    exfalso; by eauto using mk_is_Some.
Qed.

Lemma live_selected approved f snapshot_id smoke kind :
  let p := from_rules "phase3b-live-targets" (live_rules approved) in
  let p := if smoke : bool then with_real_user_shadow_smoke p else p in
  evaluate_decision (live_intent kind snapshot_id f)
    (activation_for p "neg-risk" f snapshot_id) = Approved ↔
  is_Some (selected_rule approved f).
Proof.
  intros p0 p. destruct (live_activation approved smoke f snapshot_id) as [_ Hm].
  unfold evaluate_decision. unfold p, p0. rewrite Hm.
  case_bool_decide; destruct smoke; simpl; naive_solver.
Qed.

(** *** Live *)

(** The families of a batch, executed one after the other until one fails. *)
Fixpoint execute_families {World} (backend : NegRiskLiveExecutionBackend (World := World))
    (snapshot_id : string) (families : list (NegRiskFamilyLiveTarget * (string * string)))
    (w : World) : outcome (World * result NegRiskLiveError (list NegRiskLiveExecutionRecord)) :=
  match families with
  | [] => Returns (w, Ok [])
  | (target, (_, rule)) :: families' =>
      '(w, r) ← execute_live_family backend snapshot_id target rule w;
      match r with
      | Err e => Returns (w, Err e)
      | Ok record =>
          '(w, rs) ← execute_families backend snapshot_id families' w;
          Returns (w, records ← rs; Ok (record :: records))
      end
  end.

Lemma live_records_loop_selected {World} (backend : NegRiskLiveExecutionBackend (World := World))
    approved ready snapshot_id targets w :
  live_records_loop backend (from_rules "phase3b-live-targets" (live_rules approved))
    snapshot_id ready targets w =
  execute_families backend snapshot_id
    (omap (λ '(family_id, target),
             if bool_decide (family_id ∈ ready) then
               rule ← selected_rule approved family_id; Some (target, (family_id, rule))
             else None) targets) w.
Proof.
  revert w. induction targets as [|[f target] targets IH]; intros w; [done|]. csimpl.
  destruct (decide (f ∈ ready)) as [Er|Er].
  2: { rewrite bool_decide_eq_true_2, bool_decide_eq_false_2 by done. apply IH. }
  rewrite (bool_decide_eq_false_2 (f ∉ ready)) by (intros Hn; by apply Hn).
  rewrite (bool_decide_eq_true_2 (f ∈ ready)) by done.
  pose proof (live_selected approved f snapshot_id false "live") as Hs. simpl in Hs.
  destruct (live_activation approved false f snapshot_id) as [Hr _]. simpl in Hr.
  rewrite Hr. destruct (selected_rule approved f) as [rule|]; simpl.
  - rewrite bool_decide_eq_false_2 by (intros Hn; apply Hn, Hs; by eexists). simpl.
    destruct (execute_live_family backend snapshot_id target rule w) as [[w' [r|e]]|]; simpl;
      try done. by rewrite IH.
  - rewrite bool_decide_eq_true_2; [apply IH|]. intros [? [=]]%Hs.
Qed.

(** *** The hook's record *)

Definition hook_request (snapshot_id : string) (target : NegRiskFamilyLiveTarget) (rule : string) :
    ExecutionRequest := family_request "live" Live snapshot_id target rule.

(** The plan of a target: planning never refuses a request of the batch. *)
Definition target_plan (target : NegRiskFamilyLiveTarget) : ExecutionPlan :=
  NegRiskSubmitFamily (lf_family_id target)
    (sort_by (cmp_on (λ m, (mo_condition_id m, mo_token_id m)) (cmp_lex str_cmp str_cmp))
       (member_plan <$> (to_member_target <$> lf_members target))).

Lemma target_plan_planned kind mode snapshot_id target rule :
  plan_family_submission (family_request kind mode snapshot_id target rule)
    (to_execution_target target) = Ok (target_plan target).
Proof.
  unfold plan_family_submission. simpl. by rewrite !bool_decide_eq_true_2 by done.
Qed.

(** What a live record says of its family. *)
Record live_record_of (snapshot_id : string) (target : NegRiskFamilyLiveTarget) (rule : string)
    (r : NegRiskLiveExecutionRecord) : Prop := {
  lro_snapshot : lr_snapshot_id r = snapshot_id;
  lro_mode : lr_execution_mode r = Live;
  lro_route : lr_route r = "neg-risk";
  lro_scope : lr_scope r = lf_family_id target;
  lro_rule : lr_matched_rule_id r = Some rule;
  lro_plan : lr_plan_id r =
    request_bound_plan_id (target_plan target) (hook_request snapshot_id target rule);
  lro_attempt : lr_attempt_no r = 1 ∧ lr_attempt_id r = attempt_id_for_plan_id (lr_plan_id r) 1;
  lro_idempotency : lr_idempotency_key r = "idem-" +:+ lr_attempt_id r;
  lro_pending : lr_submission_ref r = None ∧
    lr_pending_ref r = Some ("pending-hook:" +:+ lr_attempt_id r);
  lro_requests : length (lr_order_requests r) = length (lf_members target) ∧
    length (lr_artifacts r) = 1%nat;
}.

Lemma length_collect_results {E A B} (f : A → result E B) l bs :
  collect_results f l = Ok bs → length bs = length l.
Proof.
  revert bs. induction l as [|x l IH]; intros bs; simpl; [by intros [= <-]|].
  destruct (f x); simpl; [|done]. destruct (collect_results f l) as [ys|]; simpl; [|done].
  intros [= <-]. simpl. by rewrite (IH ys).
Qed.

(** What the recording hook answers, and records, for a signed family. *)
Lemma recording_hook_spec signed attempt h0 :
  match recording_on_signed_family signed attempt h0 with
  | Returns (h, Ok _) =>
      length (rh_order_requests h) = (length (rh_order_requests h0) + length (sf_members signed))%nat ∧
      length (rh_artifacts h) = S (length (rh_artifacts h0))
  | _ => True
  end.
Proof.
  unfold recording_on_signed_family.
  destruct (collect_results _ _) as [requests|] eqn:Er; [|done].
  apply length_collect_results in Er.
  destruct (mapM _ requests) as [js|] eqn:Ej; simpl; [|done].
  apply length_mapM in Ej. rewrite !length_app. simpl. lia.
Qed.

Lemma hook_sink_spec target attempt h0 :
  ac_execution_mode attempt = Live →
  match live_execute (live_with_order_signer_and_hook test_order_signer recording_hook)
          (target_plan target) attempt (Returns h0) with
  | (Returns h, Ok receipt) =>
      receipt = with_pending_ref (receipt_new (ac_attempt_id attempt) Succeeded)
                  ("pending-hook:" +:+ ac_attempt_id attempt) ∧
      length (rh_order_requests h) =
        (length (rh_order_requests h0) + length (lf_members target))%nat ∧
      length (rh_artifacts h) = S (length (rh_artifacts h0))
  | (Returns _, Err e) => ∃ reason, e = SinkRejected reason
  | (Panics, _) => True
  end.
Proof.
  intros Hm. unfold live_execute, ensure_live_sink_mode. rewrite Hm.
  change (is_risk_expanding (target_plan target)) with true. cbv iota.
  change (default (ac_route attempt) (plan_route (target_plan target))) with "neg-risk".
  lazymatch goal with |- context [?m !! "neg-risk"] =>
    change (m !! "neg-risk") with (Some (negrisk_adapter (Some test_order_signer)
      (Some (hook_submit_provider recording_hook)))) end.
  cbn [submit_live negrisk_adapter negrisk_submit_live test_order_signer sign_family].
  unfold negrisk_submit_live, test_order_signer; simpl.
  destruct (sign_members _ _ _) as [members|] eqn:Es; simpl; [|done].
  apply sign_members_render in Es as [Hl _].
  set (signed := {| sf_plan_id := _; sf_members := members |}).
  pose proof (recording_hook_spec signed attempt h0) as Hh.
  destruct (recording_on_signed_family signed attempt h0) as [[h [[]|e]]|]; simpl; [|by eexists|done].
  split; [done|]. destruct Hh as [-> ->]. split; [|done]. f_equal. simpl. rewrite Hl.
  unfold canonical_members. by rewrite !length_sort_by, !length_fmap.
Qed.

Lemma hook_backed_spec snapshot_id target rule :
  match hook_backed_execute_live_family snapshot_id target rule with
  | Returns (Ok r) => live_record_of snapshot_id target rule r
  | Returns (Err e) => ∃ reason, e = LiveSinkFailed (SinkFailure (SinkRejected reason))
  | Panics => True
  end.
Proof.
  unfold hook_backed_execute_live_family. rewrite target_plan_planned.
  unfold execute_with_attempt, orchestrator_plan. simpl pi_execution_mode. simpl pi_request.
  simpl er_activation_mode. rewrite bool_decide_eq_true_2 by done. simpl negb. cbv iota.
  rewrite bool_decide_eq_false_2 by done. simpl andb. cbv iota.
  unfold next_for_plan. simpl pi_plan. cbv zeta iota beta. simpl sink_execute.
  match goal with |- context [live_execute ?s ?p ?a ?h] =>
    pose proof (hook_sink_spec target a {| rh_artifacts := []; rh_order_requests := [] |} eq_refl)
      as Hs; destruct (live_execute s p a h) as [[h'|] [receipt|e]] end; simpl; try done.
  - destruct Hs as (-> & Hl1 & Hl2). simpl. split; done.
  - destruct Hs as [reason ->]. by exists reason.
Qed.

(** *** Shadow *)

Definition shadow_attempt (snapshot_id : string) (target : NegRiskFamilyLiveTarget)
    (rule : string) (run_session_id : option string) : ExecutionAttemptRow :=
  let request := family_request "shadow" Shadow snapshot_id target rule in
  let attempt_id := request_bound_attempt_id (target_plan target) request 1 in
  {| xr_attempt_id := attempt_id;
     xr_plan_id := request_bound_plan_id (target_plan target) request;
     xr_snapshot_id := snapshot_id; xr_route := "neg-risk"; xr_scope := lf_family_id target;
     xr_matched_rule_id := Some rule; xr_execution_mode := Shadow; xr_attempt_no := 1;
     xr_idempotency_key := "idem-" +:+ attempt_id; xr_run_session_id := run_session_id |}.

Definition shadow_record (snapshot_id : string) (run_session_id : option string)
    (family : NegRiskFamilyLiveTarget * (string * string)) : NegRiskShadowExecutionRecord :=
  let '(target, (_, rule)) := family in
  let attempt := shadow_attempt snapshot_id target rule run_session_id in
  {| sr_attempt := attempt;
     sr_artifacts := [{| xa_attempt_id := xr_attempt_id attempt;
                         xa_stream := "neg-risk-shadow-plan";
                         xa_payload := shadow_artifact_payload attempt (target_plan target) |}] |}.

Lemma execute_shadow_family_eq snapshot_id target rule session :
  execute_shadow_family snapshot_id target rule session =
    Returns (Ok (shadow_record snapshot_id session (target, (lf_family_id target, rule)))).
Proof.
  unfold execute_shadow_family. rewrite target_plan_planned.
  unfold execute_with_attempt, orchestrator_plan. simpl pi_execution_mode. simpl pi_request.
  simpl er_activation_mode. rewrite bool_decide_eq_true_2 by done. simpl negb. cbv iota.
  rewrite bool_decide_eq_false_2 by done. simpl andb. cbv iota.
  unfold next_for_plan. simpl pi_plan. cbv zeta iota beta. simpl sink_execute.
  unfold shadow_execute. simpl. done.
Qed.

Definition record_attempt_id (r : NegRiskShadowExecutionRecord) : string :=
  xr_attempt_id (sr_attempt r).

#[local] Arguments shadow_record : simpl never.

Lemma shadow_records_loop_selected approved ready snapshot_id session targets seen :
  let records := shadow_record snapshot_id session <$>
    omap (λ '(family_id, target),
            if bool_decide (family_id ∈ ready) then
              rule ← selected_rule approved family_id; Some (target, (family_id, rule))
            else None) targets in
  match shadow_records_loop
          (with_real_user_shadow_smoke (from_rules "phase3b-live-targets" (live_rules approved)))
          snapshot_id ready session targets seen with
  | Returns (Ok rs) =>
      rs = records ∧ NoDup (record_attempt_id <$> rs) ∧
      ∀ id, id ∈ record_attempt_id <$> rs → seen !! id = None
  | Returns (Err e) =>
      (∃ id k1 f1 k2 f2, e = ShadowDuplicateAttempt id k1 f1 k2 f2) ∧
      ¬ (NoDup (record_attempt_id <$> records) ∧
         ∀ id, id ∈ record_attempt_id <$> records → seen !! id = None)
  | Panics => False
  end.
Proof.
  revert seen. induction targets as [|[f target] targets IH]; intros seen.
  { simpl. split_and!; [done|constructor|by intros ? ?%not_elem_of_nil]. }
  csimpl. destruct (decide (f ∈ ready)) as [Er|Er].
  2: { rewrite (bool_decide_eq_true_2 (f ∉ ready)), (bool_decide_eq_false_2 (f ∈ ready)) by done.
       apply IH. }
  rewrite (bool_decide_eq_false_2 (f ∉ ready)) by (intros Hn; by apply Hn).
  rewrite (bool_decide_eq_true_2 (f ∈ ready)) by done.
  pose proof (live_selected approved f snapshot_id true "shadow") as Hs. simpl in Hs.
  destruct (live_activation approved true f snapshot_id) as [Hr _]. simpl in Hr.
  rewrite Hr. destruct (selected_rule approved f) as [rule|] eqn:Erule; csimpl.
  2: { rewrite bool_decide_eq_true_2; [apply IH|]. intros [? [=]]%Hs. }
  rewrite bool_decide_eq_false_2 by (intros Hn; apply Hn, Hs; by eexists).
  rewrite execute_shadow_family_eq.
  change (shadow_record snapshot_id session (target, (lf_family_id target, rule)))
    with (shadow_record snapshot_id session (target, (f, rule))).
  generalize (shadow_record snapshot_id session (target, (f, rule))). intros record.
  unfold try_then at 1. cbn [mbind outcome_bind].
  change (xr_attempt_id (sr_attempt record)) with (record_attempt_id record).
  set (id := record_attempt_id record).
  destruct (seen !! id) as [[k1 f1]|] eqn:Eseen.
  - split; [by eexists _, _, _, _, _|]. intros [_ Hn]. specialize (Hn id).
    rewrite Hn in Eseen; [done|]. apply elem_of_cons. by left.
  - specialize (IH (<[id := (f, lf_family_id target)]> seen)).
    unfold try_then at 1. destruct (shadow_records_loop _ _ _ _ _ _) as [[rs|e]|]; simpl; [| |done].
    + destruct IH as (-> & Hnd & Hseen). split; [done|]. csimpl.
      assert (∀ id', id' ∈ record_attempt_id <$> (shadow_record snapshot_id session <$>
        omap (λ '(family_id, target),
            if bool_decide (family_id ∈ ready) then
              rule ← selected_rule approved family_id; Some (target, (family_id, rule))
            else None) targets) → id' ≠ id ∧ seen !! id' = None) as Hfresh.
      { intros id' Hin. apply Hseen in Hin. by apply lookup_insert_None in Hin as [? ?]. }
      split.
      * constructor; [|done]. intros Hin. by apply Hfresh in Hin as [[] _].
      * intros id' [->|Hin]%elem_of_cons; [done|]. by apply Hfresh.
    + destruct IH as [He Hn]. split; [done|]. csimpl. intros [Hnd Hseen]. apply Hn.
      apply NoDup_cons in Hnd as [Hid Hnd]. split; [done|]. intros id' Hin.
      rewrite lookup_insert_ne; [apply Hseen, elem_of_cons; by right|]. by intros <-.
Qed.

(** ** Theorems *)

Lemma canonical_target_members_perm ms1 ms2 :
  target_member_key <$> ms1 ≡ₚ target_member_key <$> ms2 →
  canonical_target_members ms1 = canonical_target_members ms2.
Proof.
  set (render := λ k : string * (string * (string * string)),
    JObject [("condition_id", JString k.1); ("token_id", JString k.2.1);
             ("price", JString k.2.2.1); ("quantity", JString k.2.2.2)]).
  assert (∀ ms, canonical_target_members ms =
                render <$> sort_by member_key_cmp (target_member_key <$> ms)) as Hr.
  { intros ms. change (target_member_key <$> ms) with (map target_member_key ms).
    rewrite <- map_sort_by_on. change (map ?f ?l) with (f <$> l).
    by rewrite <- list_fmap_compose. }
  intros Hp. by rewrite !Hr, (sort_by_canonical member_key_cmp _ _ Hp).
Qed.

Lemma canonical_targets_members (t : LiveTargets) :
  canonical_targets t = JObject [("families", JArray
    ((λ '(family_id, members), JObject [("family_id", JString family_id);
                                        ("members", JArray members)])
     <$> btree_entries str_cmp
           ((λ f, canonical_target_members (lf_members f)) <$> (t : gmap string _))))].
Proof.
  unfold canonical_targets. rewrite (btree_entries_fmap str_cmp), <- list_fmap_compose.
  do 4 f_equal. apply list_fmap_ext. by intros i [] _.
Qed.

(** Reordering the members of a family, or writing their prices with other trailing
    zeros, does not change the revision of a target set. *)
Theorem target_revision_canonical (t : LiveTargets) id f1 f2 :
  target_member_key <$> lf_members f1 ≡ₚ target_member_key <$> lf_members f2 →
  neg_risk_live_target_revision_from_targets (<[id := f1]> (t : gmap string _)) =
  neg_risk_live_target_revision_from_targets (<[id := f2]> (t : gmap string _)).
Proof.
  intros Hp. unfold neg_risk_live_target_revision_from_targets.
  by rewrite !canonical_targets_members, !fmap_insert, (canonical_target_members_perm _ _ Hp).
Qed.

(** The records a backend returns for the families of a batch. *)
Lemma execute_families_records {World} (backend : NegRiskLiveExecutionBackend (World := World))
    (P : NegRiskFamilyLiveTarget → string → NegRiskLiveExecutionRecord → Prop)
    snapshot_id families w w' rs :
  (∀ t rule w0 w1 r, execute_live_family backend snapshot_id t rule w0 = Returns (w1, Ok r) →
     P t rule r) →
  execute_families backend snapshot_id families w = Returns (w', Ok rs) →
  Forall2 (λ family r, P family.1 family.2.2 r) families rs.
Proof.
  intros HP. revert w w' rs. induction families as [|[t [f rule]] families IH]; intros w w' rs; simpl.
  { intros [= _ <-]. constructor. }
  destruct (execute_live_family backend snapshot_id t rule w) as [[w1 [r|]]|] eqn:E; simpl;
    [|done..].
  destruct (execute_families backend snapshot_id families w1) as [[w2 [rs'|]]|] eqn:Ef; simpl;
    [|done..].
  intros [= -> <-]. constructor; [by eapply HP|by eapply IH].
Qed.

Lemma live_batch_selected {World} (backend : NegRiskLiveExecutionBackend (World := World))
    snapshot_id targets approved ready w :
  eligible_live_records_with_backend snapshot_id targets approved ready backend w =
  execute_families backend snapshot_id (selected_targets approved ready targets) w.
Proof. apply live_records_loop_selected. Qed.

(** The records of a batch are about its snapshot, and the artifacts of a shadow
    record about its attempt. *)
Lemma live_records_snapshot {World} (backend : NegRiskLiveExecutionBackend (World := World))
    snapshot_id targets approved ready w w' rs :
  (∀ t rule w w' r, execute_live_family backend snapshot_id t rule w = Returns (w', Ok r) →
     lr_snapshot_id r = snapshot_id) →
  eligible_live_records_with_backend snapshot_id targets approved ready backend w =
    Returns (w', Ok rs) →
  ∀ r, r ∈ rs → lr_snapshot_id r = snapshot_id.
Proof.
  intros Hb. rewrite live_batch_selected. intros Hr r Hin.
  eapply (execute_families_records backend (λ _ _ r, lr_snapshot_id r = snapshot_id)) in Hr;
    [|exact Hb].
  apply list_elem_of_lookup in Hin as [k Hk].
  by destruct (Forall2_lookup_r _ _ _ _ _ Hr Hk) as (? & _ & ?).
Qed.

Lemma hook_backed_snapshot {World} snapshot_id target rule (w w' : World) r :
  execute_live_family hook_backed_backend snapshot_id target rule w = Returns (w', Ok r) →
  lr_snapshot_id r = snapshot_id.
Proof.
  simpl. pose proof (hook_backed_spec snapshot_id target rule) as Hs.
  destruct (hook_backed_execute_live_family snapshot_id target rule) as [[r'|]|]; simpl; [|done..].
  intros [= _ ->]. apply (lro_snapshot _ _ _ _ Hs).
Qed.

Lemma shadow_records_of snapshot_id targets approved ready session rs :
  eligible_shadow_records_with_run_session_id snapshot_id targets approved ready session =
    Returns (Ok rs) →
  ∀ r, r ∈ rs → xr_snapshot_id (sr_attempt r) = snapshot_id ∧
    ∀ a, a ∈ sr_artifacts r → xa_attempt_id a = xr_attempt_id (sr_attempt r).
Proof.
  unfold eligible_shadow_records_with_run_session_id.
  pose proof (shadow_records_loop_selected approved ready snapshot_id session
    (btree_entries str_cmp targets) ∅) as Hs. cbv zeta in Hs. intros E. rewrite E in Hs.
  destruct Hs as [-> _]. intros r ([t [f rule]] & -> & _)%list_elem_of_fmap.
  split; [done|]. by intros a ->%list_elem_of_singleton.
Qed.
End records.

(** A live batch executes exactly the families that are ready and approved, each
    once, in the order of their keys, under the rule that approved them, and stops at
    the first failure; when nothing but the recording hook is behind it, each record
    is that of its own family: the snapshot, the live mode, the first attempt of the
    request's plan, one order request per member, and a pending reference of that
    attempt, without a submission reference. *)
Theorem live_batch_spec {X : Externals} {J : JsonOps} {World : Type}
    (backend : NegRiskLiveExecutionBackend (World := World)) snapshot_id targets approved ready w :
  eligible_live_records_with_backend snapshot_id targets approved ready backend w =
    execute_families backend snapshot_id (selected_targets approved ready targets) w ∧
  match eligible_live_records snapshot_id targets approved ready w with
  | Returns (w', Ok rs) =>
      Forall2 (λ family r, live_record_of snapshot_id family.1 family.2.2 r)
        (selected_targets approved ready targets) rs
  | _ => True
  end.
Proof.
  split; [apply live_batch_selected|]. unfold eligible_live_records.
  rewrite live_batch_selected.
  destruct (execute_families _ _ _ _) as [[w' [rs|]]|] eqn:E; try done.
  eapply execute_families_records; [|exact E]. intros t rule w0 w1 r. simpl.
  pose proof (hook_backed_spec snapshot_id t rule) as Hs.
  destruct (hook_backed_execute_live_family snapshot_id t rule) as [[r'|]|]; simpl; try done.
  by intros [= _ ->].
Qed.

(** A shadow batch is the records of the same families, in the same order, each
    in shadow mode for its own attempt, unless two of them would share an attempt id:
    then, and only then, the batch is refused as a whole. Planning and the sink never
    refuse, and nothing panics. *)
Theorem shadow_batch_spec {X : Externals} {J : JsonOps} snapshot_id targets approved ready session :
  let records := shadow_record snapshot_id session <$> selected_targets approved ready targets in
  match eligible_shadow_records_with_run_session_id snapshot_id targets approved ready session with
  | Returns (Ok rs) => rs = records ∧ NoDup (record_attempt_id <$> rs)
  | Returns (Err e) =>
      (∃ id k1 f1 k2 f2, e = ShadowDuplicateAttempt id k1 f1 k2 f2) ∧
      ¬ NoDup (record_attempt_id <$> records)
  | Panics => False
  end.
Proof.
  intros records. pose proof (shadow_records_loop_selected approved ready snapshot_id session
    (btree_entries str_cmp targets) ∅) as Hs. cbv zeta in Hs.
  fold (selected_targets approved ready targets) in Hs. fold records in Hs.
  unfold eligible_shadow_records_with_run_session_id.
  destruct (shadow_records_loop _ _ _ _ _ _) as [[rs|e]|]; [tauto| |done].
  destruct Hs as [He Hn]. split; [done|]. intros Hnd. apply Hn. split; [done|].
  intros id _. apply lookup_empty.
Qed.

(** *** A concrete batch *)

Definition plain_json : JsonOps (X := Micros) :=
  {| json_text := λ _, ""; json_literal := λ s, Some (JString s);
     json_decimal := λ d : @Decimal Micros, JNumber d |}.

Definition sample_target (family : string) : NegRiskFamilyLiveTarget (X := Micros) :=
  {| lf_family_id := family;
     lf_members := [@Build_NegRiskMemberLiveTarget Micros "c1" "t1" 450000 10000000] |}.

Definition sample_targets : LiveTargets (X := Micros) :=
  <["family-b" := sample_target "family-b"]> (<["family-a" := sample_target "family-a"]>
    (∅ : gmap string (NegRiskFamilyLiveTarget (X := Micros)))).

Example live_batch_runs :
  match eligible_live_records (X := Micros) (J := plain_json) (World := ()) "snapshot-7"
          sample_targets {["family-a"]} {["family-a"; "family-b"]} () with
  | Returns (_, Ok [r]) => lr_scope r = "family-a" ∧ lr_matched_rule_id r = Some "family-a-live"
  | _ => False
  end.
Proof. vm_compute. split; reflexivity. Qed.

Example shadow_batch_runs :
  match eligible_shadow_records_with_run_session_id (X := Micros) "snapshot-7"
          sample_targets {["default"]} {["family-a"; "family-b"]} None with
  | Returns (Ok rs) => xr_scope ∘ sr_attempt <$> rs = ["family-a"; "family-b"]
  | _ => False
  end.
Proof. vm_compute. reflexivity. Qed.
