(* ===== verification/Discovery.v ===== *)
(** * Candidate discovery

    The candidate queue ([app-live/src/queues.rs]) and the engine that turns a
    candidate publication into a candidate set, its validation and the revisions it
    renders ([app-live/src/discovery.rs], [domain/src/candidates.rs]). The rows are
    written to the database by a parameter. *)

From S2P Require Import Prelude Text RecordSet Externals Json Domain RuntimeMode StrategyControl.
From S2P Require Import Facts Store Snapshot Risk Plans NegRisk Execution LiveRecords.

(** ** domain/src/candidates.rs *)

Inductive CandidateValidationResult :=
| Adoptable
| DeferredCandidate (reason : string)
| RejectedCandidate (reason : string).

Record CandidatePolicyAnchor := { pa_policy_name : string; pa_policy_version : string }.

Record CandidateTarget := {
  ct_target_id : string;
  ct_family_id : EventFamilyId;
  ct_validation : CandidateValidationResult;
}.

Record AdoptableTargetRevision := {
  at_revision_id : string;
  at_source_snapshot_id : string;
  at_policy_version : string;
}.

(** ** queues.rs: candidate notices *)

Inductive CandidateRestrictionTruth :=
| Eligible
| Advisory (reason : string)
| Restricted (reason : string).
#[export] Instance CandidateRestrictionTruth_eq_dec : EqDecision CandidateRestrictionTruth.
Proof. solve_decision. Defined.

Definition restriction_code (r : CandidateRestrictionTruth) : Z * string :=
  match r with Eligible => (0, "") | Advisory s => (1, s) | Restricted s => (2, s) end.

#[export] Instance CandidateRestrictionTruth_countable : Countable CandidateRestrictionTruth.
Proof.
  refine (inj_countable' restriction_code
    (λ '(n, s), if bool_decide (n = 0) then Eligible
                else if bool_decide (n = 1) then Advisory s else Restricted s) _).
  by intros [].
Defined.

(** The derived [Ord]: by variant, then by reason. *)
Definition restriction_cmp := cmp_on restriction_code (cmp_lex Z.compare str_cmp).

Definition restriction_reason (r : CandidateRestrictionTruth) : option string :=
  match r with Eligible => None | Advisory s | Restricted s => Some s end.

Definition hard_gate_reason (r : CandidateRestrictionTruth) : option string :=
  match r with Restricted s => Some s | Eligible | Advisory _ => None end.

Section discovery.
Context {X : Externals} {J : JsonOps}.

Record CandidateTargetSet := {
  cs_target_set_id : string;
  cs_source_snapshot_id : string;
  cs_discovery_record : FamilyDiscoveryRecord;
  cs_policy : CandidatePolicyAnchor;
  cs_targets : list CandidateTarget;
  cs_adoptable_revision : option AdoptableTargetRevision;
}.

Record CandidateNotice := {
  cn_publication : CandidatePublication;
  cn_dirty_domains : gset DirtyDomain;
  cn_operator_target_revision : option string;
  cn_rendered_live_targets : LiveTargets;
  cn_restriction : CandidateRestrictionTruth;
  cn_authoritative : bool;
  cn_full_set_basis_digest : string;
}.

Definition default_full_set_basis_digest : string := "full-set-basis-default".

Definition from_publication_with_authority (publication : CandidatePublication)
    (dirty_domains : list DirtyDomain) (operator_target_revision : option string)
    (rendered_live_targets : LiveTargets) (restriction : CandidateRestrictionTruth)
    (authoritative : bool) : CandidateNotice :=
  {| cn_publication := publication; cn_dirty_domains := list_to_set dirty_domains;
     cn_operator_target_revision := operator_target_revision;
     cn_rendered_live_targets := rendered_live_targets; cn_restriction := restriction;
     cn_authoritative := authoritative;
     cn_full_set_basis_digest := default_full_set_basis_digest |}.

Definition with_full_set_basis_digest (n : CandidateNotice) (digest : string) : CandidateNotice :=
  {| cn_publication := cn_publication n; cn_dirty_domains := cn_dirty_domains n;
     cn_operator_target_revision := cn_operator_target_revision n;
     cn_rendered_live_targets := cn_rendered_live_targets n; cn_restriction := cn_restriction n;
     cn_authoritative := cn_authoritative n; cn_full_set_basis_digest := digest |}.

Definition CandidateNoticeQueue : Type := list CandidateNotice.

Definition notice_push (q : CandidateNoticeQueue) (n : CandidateNotice) : CandidateNoticeQueue :=
  q ++ [n].

Definition notice_pop_front (q : CandidateNoticeQueue) :
    CandidateNoticeQueue * option CandidateNotice :=
  match q with [] => ([], None) | n :: q' => (q', Some n) end.

Definition NoticeKey : Type :=
  string * (Z * (option string * (CandidateRestrictionTruth * (bool * string)))).

Definition notice_key (n : CandidateNotice) : NoticeKey :=
  (cp_publication_id (cn_publication n), (cp_state_version (cn_publication n),
    (cn_operator_target_revision n, (cn_restriction n,
      (cn_authoritative n, cn_full_set_basis_digest n))))).

Definition notice_key_cmp : NoticeKey → NoticeKey → comparison :=
  cmp_lex str_cmp (cmp_lex Z.compare (cmp_lex (opt_cmp str_cmp)
    (cmp_lex restriction_cmp (cmp_lex bool_cmp str_cmp)))).

(** The last notice of each key, in key order. *)
Definition notices_coalesced (q : list CandidateNotice) : list CandidateNotice :=
  btree_values notice_key_cmp
    (collect_map ((λ n, (notice_key n, n)) <$>
      filter (λ n, Candidates ∈ cn_dirty_domains n) q)).

(** ** discovery.rs *)

Record DiscoveryReport := {
  dr_candidate_revision : option string;
  dr_adoptable_revision : option string;
  dr_operator_target_revision : option string;
  dr_target_count : nat;
  dr_adoptable_target_count : nat;
  dr_deferred_target_count : nat;
  dr_excluded_target_count : nat;
  dr_live_dispatch_woken : bool;
  dr_disposition : string;
  dr_warnings : list string;
}.

(** [persistence::models] *)
Record StrategyCandidateSetRow := {
  scr_strategy_candidate_revision : string;
  scr_snapshot_id : string;
  scr_source_revision : string;
  scr_payload : Json;
}.

Record AdoptableStrategyRevisionRow := {
  asr_adoptable_strategy_revision : string;
  asr_strategy_candidate_revision : string;
  asr_rendered_operator_strategy_revision : string;
  asr_payload : Json;
}.

Record CandidateArtifactRender := {
  car_candidate : StrategyCandidateSetRow;
  car_adoptable : AdoptableStrategyRevisionRow;
}.

Record DiscoveryOutcome := {
  do_report : DiscoveryReport;
  do_candidate : option StrategyCandidateSetRow;
  do_adoptable : option AdoptableStrategyRevisionRow;
}.

Record RouteArtifact := {
  ra_key : StrategyKey;
  ra_route_policy_version : string;
  ra_semantic_digest : string;
  ra_content : Json;
}.

Definition bundle_policy_version : string := "strategy-bundle-v1".

(** *** Route artifacts *)

Definition serialized_validation (v : CandidateValidationResult) : Json :=
  match v with
  | Adoptable => json_object [("status", JString "adoptable")]
  | DeferredCandidate reason =>
      json_object [("status", JString "deferred"); ("reason", JString reason)]
  | RejectedCandidate reason =>
      json_object [("status", JString "excluded"); ("reason", JString reason)]
  end.

Definition serialized_candidate_target (t : CandidateTarget) : Json :=
  json_object [("target_id", JString (ct_target_id t)); ("family_id", JString (ct_family_id t));
               ("validation", serialized_validation (ct_validation t))].

Definition serialized_route_artifact (a : RouteArtifact) : Json :=
  json_object [("key", json_object [("route", JString (sk_route (ra_key a)));
                                    ("scope", JString (sk_scope (ra_key a)))]);
               ("route_policy_version", JString (ra_route_policy_version a));
               ("semantic_digest", JString (ra_semantic_digest a)); ("content", ra_content a)].

(** What serde derives for the targets, inside a [json!] value. *)
Definition live_target_json (t : NegRiskFamilyLiveTarget) : Json :=
  json_object
    [("family_id", JString (lf_family_id t));
     ("members", JArray
       ((λ m, json_object [("condition_id", JString (lm_condition_id m));
                           ("token_id", JString (lm_token_id m));
                           ("price", json_decimal (lm_price m));
                           ("quantity", json_decimal (lm_quantity m))]) <$> lf_members t))].

Definition live_targets_json (ts : LiveTargets) : Json :=
  JObject ((λ '(id, t), (id, live_target_json t)) <$> btree_entries str_cmp ts).

Definition route_semantic_digest (key : StrategyKey) (policy_version : string) (content : Json) :
    string :=
  canonical_strategy_artifact_semantic_digest
    {| di_key := key; di_route_policy_version := policy_version;
       di_canonical_semantic_payload := json_text content; di_source_snapshot_id := None;
       di_source_session_id := None; di_observed_at := None;
       di_strategy_candidate_revision := None; di_adoptable_strategy_revision := None;
       di_provenance_explanation := None |}.

Definition route_artifact (key : StrategyKey) (policy_version : string) (content : Json) :
    RouteArtifact :=
  {| ra_key := key; ra_route_policy_version := policy_version;
     ra_semantic_digest := route_semantic_digest key policy_version content;
     ra_content := content |}.

Definition full_set_route_artifact (full_set_basis_digest : string) : RouteArtifact :=
  route_artifact {| sk_route := "full-set"; sk_scope := "default" |} "full-set-route-policy-v1"
    (json_object [("config_basis_digest", JString full_set_basis_digest);
                  ("mode", JString "static-default")]).

Definition neg_risk_scope (t : CandidateTarget) : string :=
  if is_blank (ct_family_id t) then "target:" +:+ ct_target_id t else ct_family_id t.

Definition neg_risk_route_artifact (t : CandidateTarget)
    (rendered_live_target : option NegRiskFamilyLiveTarget) : RouteArtifact :=
  route_artifact {| sk_route := "neg-risk"; sk_scope := neg_risk_scope t |}
    "neg-risk-route-policy-v1"
    (json_object [("family_id", JString (ct_family_id t));
                  ("rendered_live_target",
                    match rendered_live_target with Some r => live_target_json r | None => JNull end);
                  ("target_id", JString (ct_target_id t));
                  ("validation", serialized_validation (ct_validation t))]).

(** The derived [Ord] of [StrategyKey]. *)
Definition strategy_key_cmp (a b : StrategyKey) : comparison :=
  cmp_lex str_cmp str_cmp (sk_route a, sk_scope a) (sk_route b, sk_scope b).

Definition route_artifacts (cs : CandidateTargetSet) (rendered_live_targets : LiveTargets)
    (full_set_basis_digest : string) : list RouteArtifact :=
  sort_by (cmp_on ra_key strategy_key_cmp)
    (full_set_route_artifact full_set_basis_digest ::
     ((λ t, neg_risk_route_artifact t
              ((rendered_live_targets : gmap _ _) !! ct_family_id t)) <$> cs_targets cs)).

Definition nul : string := String (Ascii.ascii_of_nat 0) "".

(** The bytes given to the hasher, in order. *)
Definition bundle_bytes (prefix : string) (artifacts : list RouteArtifact) : string :=
  bundle_policy_version +:+ prefix +:+
  foldr (λ a rest, sk_route (ra_key a) +:+ nul +:+ sk_scope (ra_key a) +:+ nul +:+
                   ra_semantic_digest a +:+ nul +:+ rest) "" artifacts.

Definition bundle_revision (prefix : string) (artifacts : list RouteArtifact) : string :=
  prefix +:+ "-" +:+ hex_string (sha256 (bundle_bytes prefix artifacts)).

Definition strategy_candidate_revision (artifacts : list RouteArtifact) : string :=
  bundle_revision "strategy-candidate" artifacts.
Definition adoptable_strategy_revision (artifacts : list RouteArtifact) : string :=
  bundle_revision "adoptable-strategy" artifacts.

Definition operator_strategy_revision (cs : CandidateTargetSet) (rendered : LiveTargets)
    (full_set_basis_digest : string) : string :=
  bundle_revision "operator-strategy" (route_artifacts cs rendered full_set_basis_digest).

(** *** CandidateBridge *)

Definition advisory_terms (cs : CandidateTargetSet) : Json :=
  json_object [("price_band_bps", JNumber 25); ("size_cap_contracts", JNumber 1);
               ("mode", JString "advisory_only");
               ("candidate_count", JNumber (Z.of_nat (length (cs_targets cs))))].

Definition render_candidate_with_full_set_basis (cs : CandidateTargetSet) (rendered : LiveTargets)
    (full_set_basis_digest : string) : StrategyCandidateSetRow :=
  let artifacts := route_artifacts cs rendered full_set_basis_digest in
  let revision := strategy_candidate_revision artifacts in
  {| scr_strategy_candidate_revision := revision; scr_snapshot_id := revision;
     scr_source_revision := revision;
     scr_payload := json_object
       [("strategy_candidate_revision", JString revision); ("snapshot_id", JString revision);
        ("source_revision", JString revision);
        ("bundle_policy_version", JString bundle_policy_version);
        ("policy_name", JString (pa_policy_name (cs_policy cs)));
        ("candidate_policy_version", JString (pa_policy_version (cs_policy cs)));
        ("route_artifact_count", JNumber (Z.of_nat (length artifacts)));
        ("route_artifacts", JArray (serialized_route_artifact <$> artifacts));
        ("target_count", JNumber (Z.of_nat (length (cs_targets cs))));
        ("targets", JArray (serialized_candidate_target <$> cs_targets cs));
        ("advisory_pricing", advisory_terms cs); ("warnings", JArray []);
        ("execution_requests", JArray [])] |}.

Definition render_with_full_set_basis (cs : CandidateTargetSet) (rendered : LiveTargets)
    (full_set_basis_digest : string) : result string CandidateArtifactRender :=
  let operator_revision := operator_strategy_revision cs rendered full_set_basis_digest in
  let candidate := render_candidate_with_full_set_basis cs rendered full_set_basis_digest in
  let artifacts := route_artifacts cs rendered full_set_basis_digest in
  match cs_adoptable_revision cs with
  | None => Err "candidate bridge requires an adoptable revision"
  | Some _ =>
      let revision := adoptable_strategy_revision artifacts in
      Ok {| car_candidate := candidate;
            car_adoptable :=
              {| asr_adoptable_strategy_revision := revision;
                 asr_strategy_candidate_revision := scr_strategy_candidate_revision candidate;
                 asr_rendered_operator_strategy_revision := operator_revision;
                 asr_payload := json_object
                   [("adoptable_strategy_revision", JString revision);
                    ("strategy_candidate_revision",
                      JString (scr_strategy_candidate_revision candidate));
                    ("rendered_operator_strategy_revision", JString operator_revision);
                    ("bundle_policy_version", JString bundle_policy_version);
                    ("route_artifact_count", JNumber (Z.of_nat (length artifacts)));
                    ("route_artifacts", JArray (serialized_route_artifact <$> artifacts));
                    ("rendered_live_targets", live_targets_json rendered);
                    ("warnings", JArray []); ("execution_requests", JArray [])] |} |}
  end.

(** *** Validation *)

Record ValidationSummary := {
  vs_adoptable_count : nat;
  vs_deferred_count : nat;
  vs_excluded_count : nat;
}.

Definition summary_from_targets (targets : list CandidateTarget) : ValidationSummary :=
  foldl (λ s t, match ct_validation t with
                | Adoptable =>
                    {| vs_adoptable_count := S (vs_adoptable_count s);
                       vs_deferred_count := vs_deferred_count s;
                       vs_excluded_count := vs_excluded_count s |}
                | DeferredCandidate _ =>
                    {| vs_adoptable_count := vs_adoptable_count s;
                       vs_deferred_count := S (vs_deferred_count s);
                       vs_excluded_count := vs_excluded_count s |}
                | RejectedCandidate _ =>
                    {| vs_adoptable_count := vs_adoptable_count s;
                       vs_deferred_count := vs_deferred_count s;
                       vs_excluded_count := S (vs_excluded_count s) |}
                end)
    {| vs_adoptable_count := 0; vs_deferred_count := 0; vs_excluded_count := 0 |} targets.

Definition aggregate_disposition (s : ValidationSummary) : string :=
  if bool_decide (0 < vs_adoptable_count s)%nat && bool_decide (vs_deferred_count s = 0%nat) &&
     bool_decide (vs_excluded_count s = 0%nat) then "adoptable"
  else if bool_decide (0 < vs_excluded_count s)%nat then "excluded"
  else "deferred".

Definition deferred_reason (r : FamilyDiscoveryRecord) : string :=
  match fd_backfill_completed_at r with
  | None => "candidate generation deferred until discovery backfill completes"
  | Some _ => "candidate generation deferred by conservative discovery policy"
  end.

Definition validation_for_record (r : FamilyDiscoveryRecord) (authoritative : bool) :
    CandidateValidationResult :=
  if negb authoritative && bool_decide (fd_backfill_completed_at r = None) then
    DeferredCandidate (deferred_reason r)
  else if is_blank (fd_family_id r) then
    RejectedCandidate "candidate excluded by conservative discovery policy"
  else Adoptable.

Definition target_for_record (authoritative : bool) (r : FamilyDiscoveryRecord) : CandidateTarget :=
  {| ct_target_id := "candidate-target-" +:+ fd_family_id r; ct_family_id := fd_family_id r;
     ct_validation := validation_for_record r authoritative |}.

(** [candidate_set_from_publication]; its summary and disposition are recomputed by
    the caller, which ignores them. *)
Definition candidate_set_from_publication (publication : CandidatePublication)
    (authoritative : bool) : result string CandidateTargetSet :=
  match cp_view publication with
  | None => Err "candidate publication is not ready"
  | Some view =>
      match cv_discovery_records view with
      | [] => Err "candidate publication has no discovery records"
      | discovery_record :: _ =>
          let targets := target_for_record authoritative <$> cv_discovery_records view in
          let id := cp_publication_id publication in
          Ok {| cs_target_set_id := id; cs_source_snapshot_id := id;
                cs_discovery_record := discovery_record;
                cs_policy := {| pa_policy_name := "candidate-generation";
                                pa_policy_version := "policy-v1" |};
                cs_targets := targets;
                cs_adoptable_revision :=
                  if bool_decide (aggregate_disposition (summary_from_targets targets) = "adoptable")
                  then Some {| at_revision_id := "adoptable-" +:+ id; at_source_snapshot_id := id;
                               at_policy_version := "policy-v1" |}
                  else None |}
      end
  end.

Definition is_adoptable (t : CandidateTarget) : bool :=
  match ct_validation t with Adoptable => true | _ => false end.

Definition gate_target (reason : string) (t : CandidateTarget) : CandidateTarget :=
  if is_adoptable t then
    {| ct_target_id := ct_target_id t; ct_family_id := ct_family_id t;
       ct_validation := DeferredCandidate reason |}
  else t.

Definition apply_candidate_restriction (cs : CandidateTargetSet)
    (restriction : CandidateRestrictionTruth) : CandidateTargetSet :=
  match hard_gate_reason restriction with
  | None => cs
  | Some reason =>
      {| cs_target_set_id := cs_target_set_id cs;
         cs_source_snapshot_id := cs_source_snapshot_id cs;
         cs_discovery_record := cs_discovery_record cs; cs_policy := cs_policy cs;
         cs_targets := gate_target reason <$> cs_targets cs;
         cs_adoptable_revision :=
           if existsb is_adoptable (cs_targets cs) then None else cs_adoptable_revision cs |}
  end.

(** *** DiscoverySupervisor *)

Definition process_notice (n : CandidateNotice) : result string DiscoveryOutcome :=
  let warnings := match restriction_reason (cn_restriction n) with
                  | Some reason => [reason] | None => [] end in
  if bool_decide (Candidates ∉ cn_dirty_domains n) then
    Ok {| do_report :=
            {| dr_candidate_revision := None; dr_adoptable_revision := None;
               dr_operator_target_revision := cn_operator_target_revision n;
               dr_target_count := 0; dr_adoptable_target_count := 0;
               dr_deferred_target_count := 0; dr_excluded_target_count := 0;
               dr_live_dispatch_woken := false; dr_disposition := "ignored";
               dr_warnings := [] |};
          do_candidate := None; do_adoptable := None |}
  else
    cs ← candidate_set_from_publication (cn_publication n) (cn_authoritative n);
    let cs := apply_candidate_restriction cs (cn_restriction n) in
    let summary := summary_from_targets (cs_targets cs) in
    let disposition := aggregate_disposition summary in
    let candidate := render_candidate_with_full_set_basis cs (cn_rendered_live_targets n)
                       (cn_full_set_basis_digest n) in
    let report candidate_revision adoptable_revision operator_revision :=
      {| dr_candidate_revision := Some candidate_revision;
         dr_adoptable_revision := adoptable_revision;
         dr_operator_target_revision := operator_revision;
         dr_target_count := length (cs_targets cs);
         dr_adoptable_target_count := vs_adoptable_count summary;
         dr_deferred_target_count := vs_deferred_count summary;
         dr_excluded_target_count := vs_excluded_count summary;
         dr_live_dispatch_woken := false; dr_disposition := disposition;
         dr_warnings := warnings |} in
    if negb (bool_decide (disposition = "adoptable")) then
      Ok {| do_report := report (scr_strategy_candidate_revision candidate) None None;
            do_candidate := Some candidate; do_adoptable := None |}
    else
      rendered ← render_with_full_set_basis cs (cn_rendered_live_targets n)
                   (cn_full_set_basis_digest n);
      Ok {| do_report :=
              report (scr_strategy_candidate_revision (car_candidate rendered))
                (Some (asr_adoptable_strategy_revision (car_adoptable rendered)))
                (Some (asr_rendered_operator_strategy_revision (car_adoptable rendered)));
            do_candidate := Some (car_candidate rendered);
            do_adoptable := Some (car_adoptable rendered) |}.

Definition tick_candidate_generation (q : CandidateNoticeQueue) :
    CandidateNoticeQueue * result string DiscoveryReport :=
  match notice_pop_front q with
  | (q, None) => (q, Err "candidate notice queue is empty")
  | (q, Some n) => (q, o ← process_notice n; Ok (do_report o))
  end.

(** [persist_notice_for_runtime]: the writes, in order, stop at the first error. *)
Record CandidateRepo {World : Type} := {
  upsert_strategy_candidate_set : StrategyCandidateSetRow → World → World * result string ();
  upsert_adoptable_strategy_revision :
    AdoptableStrategyRevisionRow → World → World * result string ();
  connect_pool : World → World * result string ();
}.
#[global] Arguments CandidateRepo : clear implicits.

Definition persist_notice_for_runtime {World} (repo : CandidateRepo World) (n : CandidateNotice)
    (w : World) : World * result string DiscoveryReport :=
  match process_notice n with
  | Err e => (w, Err e)
  | Ok o =>
      match do_candidate o, do_adoptable o with
      | None, None => (w, Ok (do_report o))
      | candidate, adoptable =>
          match connect_pool repo w with
          | (w, Err e) => (w, Err ("candidate persistence pool error: " +:+ e))
          | (w, Ok _) =>
              let '(w, r) := match candidate with
                             | Some row => upsert_strategy_candidate_set repo row w
                             | None => (w, Ok ())
                             end in
              match r with
              | Err e => (w, Err ("candidate persistence error: " +:+ e))
              | Ok _ =>
                  let '(w, r) := match adoptable with
                                 | Some row => upsert_adoptable_strategy_revision repo row w
                                 | None => (w, Ok ())
                                 end in
                  match r with
                  | Err e => (w, Err ("adoptable persistence error: " +:+ e))
                  | Ok _ => (w, Ok (do_report o))
                  end
              end
          end
      end
  end.

(** ** What a notice produces *)

(** A record the engine adopts: backfilled, unless the discovery is authoritative,
    and of a named family. *)
Definition record_adoptable (authoritative : bool) (r : FamilyDiscoveryRecord) : Prop :=
  (authoritative = true ∨ fd_backfill_completed_at r ≠ None) ∧ is_blank (fd_family_id r) = false.

Definition record_excluded (authoritative : bool) (r : FamilyDiscoveryRecord) : Prop :=
  (authoritative = true ∨ fd_backfill_completed_at r ≠ None) ∧ is_blank (fd_family_id r) = true.

Definition count_validation (p : CandidateValidationResult → bool) (ts : list CandidateTarget) : nat :=
  length (filter (λ t, p (ct_validation t) = true) ts).

Definition is_adoptable_result (v : CandidateValidationResult) : bool :=
  match v with Adoptable => true | _ => false end.
Definition is_deferred_result (v : CandidateValidationResult) : bool :=
  match v with DeferredCandidate _ => true | _ => false end.
Definition is_rejected_result (v : CandidateValidationResult) : bool :=
  match v with RejectedCandidate _ => true | _ => false end.

Lemma count_validation_app p ts1 ts2 :
  count_validation p (ts1 ++ ts2) = (count_validation p ts1 + count_validation p ts2)%nat.
Proof. unfold count_validation. by rewrite filter_app, length_app. Qed.

Lemma count_validation_one p t :
  count_validation p [t] = if p (ct_validation t) then 1%nat else 0%nat.
Proof.
  unfold count_validation. rewrite filter_cons, filter_nil.
  destruct (p (ct_validation t)); [by rewrite decide_True|by rewrite decide_False].
Qed.

Lemma count_validation_zero p ts :
  count_validation p ts = 0%nat ↔ ∀ t, t ∈ ts → p (ct_validation t) = false.
Proof.
  unfold count_validation. rewrite length_zero_iff_nil. split.
  - intros E t Ht. destruct (p (ct_validation t)) eqn:Ep; [|done].
    assert (t ∈ filter (λ t, p (ct_validation t) = true) ts) as Hin by by apply list_elem_of_filter.
    rewrite E in Hin. by apply not_elem_of_nil in Hin.
  - intros Hn. apply elem_of_nil_inv. intros t [Hp Ht]%list_elem_of_filter.
    by rewrite Hn in Hp.
Qed.

Lemma summary_counts ts :
  vs_adoptable_count (summary_from_targets ts) = count_validation is_adoptable_result ts ∧
  vs_deferred_count (summary_from_targets ts) = count_validation is_deferred_result ts ∧
  vs_excluded_count (summary_from_targets ts) = count_validation is_rejected_result ts.
Proof.
  induction ts as [|t ts IH] using rev_ind; [done|].
  unfold summary_from_targets in *. rewrite foldl_app. simpl.
  rewrite !count_validation_app, !count_validation_one.
  destruct (ct_validation t); simpl; lia.
Qed.

Lemma counts_total ts :
  (count_validation is_adoptable_result ts + count_validation is_deferred_result ts +
   count_validation is_rejected_result ts)%nat = length ts.
Proof.
  induction ts as [|t ts IH] using rev_ind; [done|].
  rewrite !count_validation_app, !count_validation_one, length_app. simpl.
  destruct (ct_validation t); simpl; lia.
Qed.

Lemma disposition_adoptable ts :
  aggregate_disposition (summary_from_targets ts) = "adoptable" ↔
  ts ≠ [] ∧ ∀ t, t ∈ ts → ct_validation t = Adoptable.
Proof.
  destruct (summary_counts ts) as (E1 & E2 & E3). unfold aggregate_disposition.
  rewrite E1, E2, E3. pose proof (counts_total ts) as Ht.
  assert ((ts ≠ [] ∧ ∀ t, t ∈ ts → ct_validation t = Adoptable) ↔
    (0 < count_validation is_adoptable_result ts)%nat ∧
    count_validation is_deferred_result ts = 0%nat ∧
    count_validation is_rejected_result ts = 0%nat) as ->.
  { rewrite !count_validation_zero. split.
    - intros [Hne Ha]. assert (count_validation is_deferred_result ts = 0%nat) as F1.
      { apply count_validation_zero. intros t Hin. by rewrite (Ha t Hin). }
      assert (count_validation is_rejected_result ts = 0%nat) as F2.
      { apply count_validation_zero. intros t Hin. by rewrite (Ha t Hin). }
      rewrite <- !count_validation_zero. destruct ts; [done|simpl in Ht]. lia.
    - intros (Hpos & Hd & Hr). split; [intros ->; unfold count_validation in Hpos; simpl in Hpos; lia|]. intros t Hin.
      specialize (Hd t Hin). specialize (Hr t Hin). by destruct (ct_validation t). }
  repeat case_bool_decide; simpl; first [by split|split; [done|intros; exfalso; lia]].
Qed.

Lemma disposition_cases ts :
  aggregate_disposition (summary_from_targets ts) = "excluded" ↔
  ∃ t reason, t ∈ ts ∧ ct_validation t = RejectedCandidate reason.
Proof.
  destruct (summary_counts ts) as (E1 & E2 & E3). unfold aggregate_disposition.
  rewrite E1, E2, E3.
  assert ((∃ t reason, t ∈ ts ∧ ct_validation t = RejectedCandidate reason) ↔
    (0 < count_validation is_rejected_result ts)%nat) as ->.
  { destruct (decide (count_validation is_rejected_result ts = 0%nat)) as [E|E].
    - split; [|lia]. intros (t & reason & Hin & Ht).
      apply (proj1 (count_validation_zero _ _) E) in Hin. by rewrite Ht in Hin.
    - split; [lia|]. intros _. destruct (filter (λ t, is_rejected_result (ct_validation t) = true) ts)
        as [|t l] eqn:Ef; [by unfold count_validation in E; rewrite Ef in E|].
      assert (t ∈ filter (λ t, is_rejected_result (ct_validation t) = true) ts) as Hin
        by (rewrite Ef; left).
      apply list_elem_of_filter in Hin as [Hp Hin].
      destruct (ct_validation t) as [| |reason] eqn:Et; [done|done|eauto]. }
  repeat case_bool_decide; simpl; first [by split|split; [done|intros; exfalso; lia]].
Qed.

(** The validations of a notice: those of its records, held back by a hard gate. *)
Definition notice_records (n : CandidateNotice) : list FamilyDiscoveryRecord :=
  match cp_view (cn_publication n) with Some v => cv_discovery_records v | None => [] end.

Definition notice_targets (n : CandidateNotice) : list CandidateTarget :=
  (match hard_gate_reason (cn_restriction n) with
   | Some reason => gate_target reason
   | None => id
   end) <$> (target_for_record (cn_authoritative n) <$> notice_records n).

Lemma validation_adoptable r a : validation_for_record r a = Adoptable ↔ record_adoptable a r.
Proof.
  unfold validation_for_record, record_adoptable. destruct a; simpl.
  - destruct (is_blank (fd_family_id r)); naive_solver.
  - case_bool_decide; [naive_solver|]. destruct (is_blank (fd_family_id r)); naive_solver.
Qed.

Lemma validation_rejected r a :
  (∃ reason, validation_for_record r a = RejectedCandidate reason) ↔ record_excluded a r.
Proof.
  unfold validation_for_record, record_excluded. destruct a; simpl.
  - destruct (is_blank (fd_family_id r)); naive_solver.
  - case_bool_decide; [naive_solver|]. destruct (is_blank (fd_family_id r)); naive_solver.
Qed.

(** Once a notice is of candidates, the set it processes is [notice_targets], and
    what it renders is never refused for want of an adoptable revision. *)
Lemma notice_candidate_set n :
  match candidate_set_from_publication (cn_publication n) (cn_authoritative n) with
  | Err e =>
      (cp_view (cn_publication n) = None ∧ e = "candidate publication is not ready") ∨
      (cp_view (cn_publication n) ≠ None ∧ notice_records n = [] ∧
       e = "candidate publication has no discovery records")
  | Ok cs =>
      notice_records n ≠ [] ∧
      cs_targets (apply_candidate_restriction cs (cn_restriction n)) = notice_targets n ∧
      (aggregate_disposition (summary_from_targets (notice_targets n)) = "adoptable" →
       is_Some (cs_adoptable_revision (apply_candidate_restriction cs (cn_restriction n))))
  end.
Proof.
  unfold candidate_set_from_publication, notice_targets, notice_records.
  destruct (cp_view (cn_publication n)) as [v|]; [|by left].
  destruct (cv_discovery_records v) as [|r rs]; [by right|]. split; [done|].
  set (ts := target_for_record (cn_authoritative n) <$> r :: rs).
  unfold apply_candidate_restriction.
  destruct (hard_gate_reason (cn_restriction n)) as [reason|] eqn:Eg; simpl cs_targets.
  - split; [done|]. intros Hd. apply disposition_adoptable in Hd as [_ Ha]. exfalso.
    specialize (Ha (gate_target reason (target_for_record (cn_authoritative n) r))).
    assert (gate_target reason (target_for_record (cn_authoritative n) r) ∈
            gate_target reason <$> ts) as Hin by (apply list_elem_of_fmap_2; left).
    specialize (Ha Hin). revert Ha. unfold gate_target, is_adoptable.
    destruct (ct_validation (target_for_record (cn_authoritative n) r)) eqn:Ev; [done|..];
      cbv iota; by rewrite Ev.
  - rewrite list_fmap_id. split; [done|]. intros Hd. by rewrite bool_decide_eq_true_2.
Qed.

Lemma notice_adoptable_iff n :
  notice_records n ≠ [] →
  aggregate_disposition (summary_from_targets (notice_targets n)) = "adoptable" ↔
  hard_gate_reason (cn_restriction n) = None ∧
  ∀ r, r ∈ notice_records n → record_adoptable (cn_authoritative n) r.
Proof.
  intros Hne. rewrite disposition_adoptable. unfold notice_targets.
  destruct (hard_gate_reason (cn_restriction n)) as [reason|] eqn:Eg.
  - split; [|by intros [? _]]. intros [_ Ha]. exfalso.
    destruct (notice_records n) as [|r rs]; [done|].
    specialize (Ha (gate_target reason (target_for_record (cn_authoritative n) r)) ltac:(left)).
    revert Ha. unfold gate_target, is_adoptable.
    destruct (ct_validation (target_for_record (cn_authoritative n) r)) eqn:Ev; [done|..];
      cbv iota; by rewrite Ev.
  - rewrite list_fmap_id. split.
    + intros [_ Ha]. split; [done|]. intros r Hr. apply validation_adoptable.
      apply (Ha (target_for_record (cn_authoritative n) r)). by apply list_elem_of_fmap_2.
    + intros [_ Ha]. split; [by rewrite fmap_nil_eq|].
      intros t (r & -> & Hr)%list_elem_of_fmap. by apply validation_adoptable, Ha.
Qed.

Lemma notice_excluded_iff n :
  aggregate_disposition (summary_from_targets (notice_targets n)) = "excluded" ↔
  ∃ r, r ∈ notice_records n ∧ record_excluded (cn_authoritative n) r.
Proof.
  rewrite disposition_cases. unfold notice_targets. setoid_rewrite <- validation_rejected.
  assert (∀ r reason, let t := target_for_record (cn_authoritative n) r in
    ct_validation ((match hard_gate_reason (cn_restriction n) with
                    | Some reason => gate_target reason | None => id end) t)
      = RejectedCandidate reason ↔
    validation_for_record r (cn_authoritative n) = RejectedCandidate reason) as Hv.
  { intros r reason. simpl. destruct (hard_gate_reason (cn_restriction n)); [|done].
    unfold gate_target, is_adoptable. simpl.
    by destruct (validation_for_record r (cn_authoritative n)) eqn:E; simpl; rewrite ?E. }
  split.
  - intros (t & reason & Hin & Ht). apply list_elem_of_fmap in Hin as (t' & -> & Hin).
    apply list_elem_of_fmap in Hin as (r & -> & Hin). apply Hv in Ht. eauto.
  - intros (r & Hin & reason & Hr). eexists _, reason. split; [|by apply Hv].
    by apply list_elem_of_fmap_2, list_elem_of_fmap_2.
Qed.

#[export] Instance strategy_key_cmp_total : TotalPreorder strategy_key_cmp.
Proof.
  unfold strategy_key_cmp.
  apply (cmp_on_total (λ k, (sk_route k, sk_scope k)) (cmp_lex str_cmp str_cmp)).
Qed.

#[export] Instance strategy_key_cmp_eq : CmpEq strategy_key_cmp.
Proof.
  intros [] []. unfold strategy_key_cmp. intros E%(cmp_eq (cmp := cmp_lex str_cmp str_cmp)).
  simpl in E. congruence.
Qed.

(** Candidate sets with the same targets, in any order, have the same artifacts. *)
Lemma route_artifacts_perm cs1 cs2 rendered basis :
  NoDup (neg_risk_scope <$> cs_targets cs1) → cs_targets cs1 ≡ₚ cs_targets cs2 →
  route_artifacts cs1 rendered basis = route_artifacts cs2 rendered basis.
Proof.
  intros Hnd Hp. unfold route_artifacts. apply (sort_by_on_canonical ra_key strategy_key_cmp).
  - simpl. constructor.
    + rewrite !list_elem_of_fmap. intros (a & E & Ha). apply list_elem_of_fmap in Ha as (t & -> & _).
      discriminate E.
    + rewrite <- list_fmap_compose.
      apply (NoDup_fmap_1 sk_scope). rewrite <- list_fmap_compose. exact Hnd.
  - by rewrite Hp.
Qed.
End discovery.

(** ** Theorems *)

(** A candidate notice is adopted exactly when nothing gates it and every record
    of its publication is backfilled (or the discovery authoritative) and names a
    family; it is excluded exactly when such a record names none. A gate or a
    deferral always leaves the candidate set recorded, under its revision, and never
    an adoptable one; the counts add up to the records, and the only errors are a
    publication without a view or without records. *)
Theorem notice_outcome_spec {X : Externals} {J : JsonOps} n (Hc : Candidates ∈ cn_dirty_domains n) :
  match process_notice n with
  | Err e =>
      notice_records n = [] ∧
      e = match cp_view (cn_publication n) with
          | None => "candidate publication is not ready"
          | Some _ => "candidate publication has no discovery records"
          end
  | Ok o =>
      let r := do_report o in
      notice_records n ≠ [] ∧
      (is_Some (do_adoptable o) ↔
       hard_gate_reason (cn_restriction n) = None ∧
       ∀ r, r ∈ notice_records n → record_adoptable (cn_authoritative n) r) ∧
      (dr_disposition r = "adoptable" ↔ is_Some (do_adoptable o)) ∧
      (dr_disposition r = "excluded" ↔
       ∃ r, r ∈ notice_records n ∧ record_excluded (cn_authoritative n) r) ∧
      dr_adoptable_revision r = asr_adoptable_strategy_revision <$> do_adoptable o ∧
      dr_operator_target_revision r =
        asr_rendered_operator_strategy_revision <$> do_adoptable o ∧
      (∃ c, do_candidate o = Some c ∧
        dr_candidate_revision r = Some (scr_strategy_candidate_revision c)) ∧
      dr_target_count r = length (notice_records n) ∧
      (dr_adoptable_target_count r + dr_deferred_target_count r +
       dr_excluded_target_count r)%nat = length (notice_records n)
  end.
Proof.
  unfold process_notice. rewrite bool_decide_eq_false_2 by (intros Hn; by apply Hn).
  pose proof (notice_candidate_set n) as Hs.
  destruct (candidate_set_from_publication _ _) as [cs|e]; simpl.
  2: { unfold notice_records in *. destruct Hs as [[-> ->]|(Hv & Hr & ->)]; [done|].
       split; [done|]. by destruct (cp_view (cn_publication n)). }
  destruct Hs as (Hne & Ht & Hrev). rewrite !Ht.
  assert (length (notice_targets n) = length (notice_records n)) as Hl
    by (unfold notice_targets; by rewrite !length_fmap).
  destruct (summary_counts (notice_targets n)) as (E1 & E2 & E3).
  pose proof (counts_total (notice_targets n)) as Hcount.
  pose proof (notice_adoptable_iff n Hne) as Hado. pose proof (notice_excluded_iff n) as Hex.
  case_bool_decide as Ed; simpl.
  - destruct (Hrev Ed) as [rev Erev]. unfold render_with_full_set_basis. rewrite Erev. simpl.
    rewrite Ed, E1, E2, E3, Hl, Hcount.
    split; [done|]. split; [by rewrite <- Hado; split; [|by eexists]|].
    split; [by split; [by eexists|]|]. split; [by rewrite <- Ed, Hex|]. eauto 10.
  - rewrite E1, E2, E3, Hl, Hcount.
    split; [done|]. split; [rewrite <- Hado; by split; [intros []|]|].
    split; [by split; [|intros []]|]. eauto 10.
Qed.

(** The revisions a candidate set is rendered under do not depend on the order of
    its targets, nor on the publication it came from: two sets with the same targets
    of distinct families have the same candidate revision, and the same adoptable and
    operator revisions when they are adoptable. *)
Theorem revisions_order_independent {X : Externals} {J : JsonOps} cs1 cs2 rendered basis
    (Hnd : NoDup (neg_risk_scope <$> cs_targets cs1)) (Hp : cs_targets cs1 ≡ₚ cs_targets cs2) :
  scr_strategy_candidate_revision (render_candidate_with_full_set_basis cs1 rendered basis) =
    scr_strategy_candidate_revision (render_candidate_with_full_set_basis cs2 rendered basis) ∧
  match render_with_full_set_basis cs1 rendered basis,
        render_with_full_set_basis cs2 rendered basis with
  | Ok r1, Ok r2 =>
      asr_adoptable_strategy_revision (car_adoptable r1) =
        asr_adoptable_strategy_revision (car_adoptable r2) ∧
      asr_rendered_operator_strategy_revision (car_adoptable r1) =
        asr_rendered_operator_strategy_revision (car_adoptable r2)
  | _, _ => True
  end.
Proof.
  pose proof (route_artifacts_perm cs1 cs2 rendered basis Hnd Hp) as Ea. split.
  - unfold render_candidate_with_full_set_basis; simpl. by rewrite Ea.
  - unfold render_with_full_set_basis, operator_strategy_revision.
    destruct (cs_adoptable_revision cs1), (cs_adoptable_revision cs2); simpl; try done.
    by rewrite Ea.
Qed.

#[export] Instance restriction_cmp_total : TotalPreorder restriction_cmp.
Proof. unfold restriction_cmp. apply _. Qed.

#[export] Instance notice_key_cmp_total : TotalPreorder notice_key_cmp.
Proof. unfold notice_key_cmp. apply _. Qed.

Lemma coalesced_lookup {X : Externals} {J : JsonOps} (q : list CandidateNotice) n :
  collect_map ((λ n, (notice_key n, n)) <$> filter (λ n, Candidates ∈ cn_dirty_domains n) q)
    !! notice_key n = Some n ↔
  ∃ q1 q2, q = q1 ++ n :: q2 ∧ Candidates ∈ cn_dirty_domains n ∧
    ∀ n', n' ∈ q2 → Candidates ∈ cn_dirty_domains n' → notice_key n' ≠ notice_key n.
Proof.
  induction q as [|m q IH] using rev_ind.
  { simpl. rewrite collect_map_nil, lookup_empty.
    split; [done|]. by intros ([]&?&?&?). }
  assert ((∃ q1 q2, q ++ [m] = q1 ++ n :: q2 ∧ Candidates ∈ cn_dirty_domains n ∧
      ∀ n', n' ∈ q2 → Candidates ∈ cn_dirty_domains n' → notice_key n' ≠ notice_key n) ↔
    (m = n ∧ Candidates ∈ cn_dirty_domains n) ∨
    ((Candidates ∈ cn_dirty_domains m → notice_key m ≠ notice_key n) ∧
     ∃ q1 q2, q = q1 ++ n :: q2 ∧ Candidates ∈ cn_dirty_domains n ∧
      ∀ n', n' ∈ q2 → Candidates ∈ cn_dirty_domains n' → notice_key n' ≠ notice_key n)) as ->.
  { split.
    - intros (q1 & q2 & E & Hd & Hn). destruct q2 as [|x q2 _] using rev_ind.
      + apply app_inj_tail in E as [-> ->]. by left.
      + rewrite app_comm_cons, app_assoc in E. apply app_inj_tail in E as [-> ->]. right.
        split; [intros ?; apply Hn; set_solver|]. exists q1, q2. split_and!; [done..|].
        intros n' Hin. apply Hn. set_solver.
    - intros [[-> Hd]|(Hm & q1 & q2 & -> & Hd & Hn)].
      + exists q, []. split_and!; [done..|]. by intros ? ?%not_elem_of_nil.
      + exists q1, (q2 ++ [m]). split_and!; [by rewrite <- app_assoc|done|].
        intros n' [Hin | ->%list_elem_of_singleton]%elem_of_app; [by apply Hn|done]. }
  rewrite filter_app. destruct (decide (Candidates ∈ cn_dirty_domains m)) as [Hm|Hm].
  - rewrite filter_cons_True, filter_nil, fmap_app by done. simpl. rewrite collect_map_snoc.
    destruct (decide (notice_key m = notice_key n)) as [Ek|Ek].
    + rewrite Ek, lookup_insert_eq. naive_solver.
    + rewrite lookup_insert_ne, IH by done. naive_solver.
  - rewrite filter_cons_False, filter_nil, app_nil_r, IH by done. naive_solver.
Qed.

(** Coalescing keeps, of the notices that touch candidates, the last of each key, and
    nothing else. *)
Theorem notices_coalesced_spec {X : Externals} {J : JsonOps} (q : list CandidateNotice) n :
  n ∈ notices_coalesced q ↔
  ∃ q1 q2, q = q1 ++ n :: q2 ∧ Candidates ∈ cn_dirty_domains n ∧
    ∀ n', n' ∈ q2 → Candidates ∈ cn_dirty_domains n' → notice_key n' ≠ notice_key n.
Proof.
  unfold notices_coalesced. rewrite (elem_of_btree_values notice_key_cmp).
  rewrite <- coalesced_lookup. split; [|by eexists].
  intros [k Hk]. assert (notice_key n = k) as -> by (by eapply collect_map_keyed). done.
Qed.

(** *** Witnesses *)

Definition sample_record (family : string) (completed : option Z) :
    FamilyDiscoveryRecord (X := Micros) :=
  @Build_FamilyDiscoveryRecord Micros family
    {| ds_source_kind := "k"; ds_source_session_id := "s"; ds_source_event_id := "e";
       ds_normalizer_version := "v" |} 0 None completed.

Definition sample_notice (restriction : CandidateRestrictionTruth) : CandidateNotice (X := Micros) :=
  @from_publication_with_authority Micros
    (@Build_CandidatePublication Micros "candidate-pub-3" 3 9 true None None
       (Some (@Build_CandidateView Micros "candidate-pub-3" 3 9
                [sample_record "family-a" (Some 5); sample_record "family-b" (Some 6)])))
    [Candidates] None (sample_targets : LiveTargets) restriction false.

Lemma notice_outcome_spec_witness :
  Candidates ∈ cn_dirty_domains (sample_notice Eligible) ∧
  match process_notice (X := Micros) (J := plain_json) (sample_notice Eligible) with
  | Ok o => dr_target_count (do_report o) = 2%nat ∧ dr_disposition (do_report o) = "adoptable"
  | Err _ => False
  end.
Proof.
  assert (Candidates ∈ cn_dirty_domains (sample_notice Eligible)) as Hc
    by (apply (bool_decide_unpack _); vm_compute; exact I).
  split; [exact Hc|].
  pose proof (notice_outcome_spec (J := plain_json) _ Hc) as Hs.
  destruct (process_notice (sample_notice Eligible)) as [o|e]; [|by destruct Hs].
  destruct Hs as (_ & Ha & Hd & _ & _ & _ & _ & Hcount & _). split; [exact Hcount|].
  apply Hd, Ha. split; [reflexivity|]. intros r Hr.
  assert (Forall (λ r, (fd_backfill_completed_at r ≠ None ∧ is_blank (fd_family_id r) = false))
            (notice_records (sample_notice Eligible))) as Hf
    by (repeat constructor; discriminate).
  rewrite Forall_forall in Hf. destruct (Hf r Hr) as [Hb Hn]. split; [by right|done].
Defined.

Definition sample_set (targets : list CandidateTarget) : CandidateTargetSet (X := Micros) :=
  @Build_CandidateTargetSet Micros "p" "p" (sample_record "family-a" None)
    {| pa_policy_name := "n"; pa_policy_version := "v" |} targets None.

Definition target_a : CandidateTarget :=
  {| ct_target_id := "a"; ct_family_id := "family-a"; ct_validation := Adoptable |}.
Definition target_b : CandidateTarget :=
  {| ct_target_id := "b"; ct_family_id := "family-b"; ct_validation := Adoptable |}.

Lemma revisions_order_independent_witness :
  scr_strategy_candidate_revision (render_candidate_with_full_set_basis (J := plain_json)
    (sample_set [target_a; target_b]) sample_targets "basis") =
  scr_strategy_candidate_revision (render_candidate_with_full_set_basis (J := plain_json)
    (sample_set [target_b; target_a]) sample_targets "basis").
Proof.
  refine (proj1 (revisions_order_independent (J := plain_json) (sample_set [target_a; target_b])
    (sample_set [target_b; target_a]) sample_targets "basis" _ _)).
  - apply (bool_decide_unpack _). vm_compute. exact I.
  - apply perm_swap.
Defined.
