(* ===== verification/Rows.v ===== *)
(** * Durable rows

    [crates/persistence/src/models.rs] and the error type of [lib.rs]: the rows the
    repositories read and write, their conversions to and from the domain types, and
    the checks [repos.rs] makes on a row before it is written or after it is read. *)

From Stdlib Require Import Ascii.
From S2P Require Import Prelude Text RecordSet Externals Json Domain Identifiers LiveRecords.
From S2P Require Import Discovery.

(** ** PostgreSQL

    [text_cmp] is the collation in which [ORDER BY] compares TEXT; [pg_time] is what
    a TIMESTAMPTZ column keeps of an instant (microseconds); [dt_minus] and
    [dt_minus_seconds] are [dt - duration] in Rust and [NOW() - n * INTERVAL '1
    second'] in SQL; [rfc3339] is [to_rfc3339]; [dec_from_str] is
    [Decimal::from_str]. JSONB gives back the value it was given. *)
Class PgOps {X : Externals} := {
  text_cmp : string → string → comparison;
  pg_time : DateTime → DateTime;
  dt_minus : DateTime → Duration → DateTime;
  dt_minus_seconds : DateTime → Z → DateTime;
  dur_seconds : Duration → Z;
  rfc3339 : DateTime → string;
  dec_from_str : string → option Decimal;
}.

(** A collation is a total order; a timestamp read back and written again is kept. *)
Class PgLaws {X : Externals} (P : PgOps) : Prop := {
  #[global] text_cmp_total :: TotalPreorder text_cmp;
  #[global] text_cmp_eq :: CmpEq text_cmp;
  pg_time_idemp d : pg_time (pg_time d) = pg_time d;
}.

(** ** Errors

    [err.constraint()] is the name of the violated constraint, when there is one. *)
Inductive SqlError :=
| ConstraintViolated (name : string)
| SqlFailed.
#[export] Instance SqlError_eq_dec : EqDecision SqlError.
Proof. solve_decision. Defined.

Definition constraint_name (err : SqlError) : option string :=
  match err with ConstraintViolated name => Some name | SqlFailed => None end.

Inductive PersistenceError :=
| MissingDatabaseUrl
| Sqlx (err : SqlError)
| Migration
| InvalidValue (kind value : string)
| IncompleteSignedOrderIdentity
| DuplicateSignedOrderHash (signed_order_hash existing_order_id attempted_order_id : string)
| IdentifierConflict (err : IdentifierMapError)
| InvalidOrderIdentifierLinkage (market_id condition_id token_id : string)
| ImmutableOrderConflict (order_id : string)
| MissingDiscoverySnapshot (discovery_revision : Z)
| MissingRuntimeProgressRow
| MissingRunSessionRow (run_session_id : string)
| InvalidRunSessionTransition (run_session_id from_state to_state : string)
| DuplicateExecutionAttempt (attempt_id : string)
| ConflictingCandidateTargetSet (candidate_revision : string)
| ConflictingStrategyCandidateSet (strategy_candidate_revision : string)
| ConflictingAdoptableTargetRevision (adoptable_revision : string)
| ConflictingAdoptableStrategyRevision (adoptable_strategy_revision : string)
| ConflictingCandidateAdoptionProvenance (operator_target_revision : string)
| ConflictingStrategyAdoptionProvenance (operator_strategy_revision : string)
| MissingCandidateAdoptionLink (operator_target_revision : string)
| MissingStrategyAdoptionLink (operator_strategy_revision : string)
| DuplicatePendingReconcile (pending_ref : string)
| ConflictingLiveSubmissionRecord (submission_ref : string)
| LiveSubmissionRequiresLiveAttempt (submission_ref attempt_id : string)
| ShadowArtifactRequiresShadowAttempt (attempt_id : string)
| LiveArtifactRequiresLiveAttempt (attempt_id : string)
| ConflictingLiveArtifactPayload (attempt_id stream : string).

(** ** Enumerations as text

    [match value { "a" => Ok(A), .., _ => Err(invalid_value(kind, value)) }] *)
Fixpoint match_text {A} (kind : string) (cases : list (string * A)) (value : string) :
    result PersistenceError A :=
  match cases with
  | [] => Err (InvalidValue kind value)
  | (s, a) :: cases' => if bool_decide (value = s) then Ok a else match_text kind cases' value
  end.

Definition market_route_to_str (value : MarketRoute) : string :=
  match value with Standard => "standard" | NegRisk => "negrisk" end.
Definition market_route_from_str : string → result PersistenceError MarketRoute :=
  match_text "market_route" [("standard", Standard); ("negrisk", NegRisk)].

Definition submission_state_to_str (value : SubmissionState) : string :=
  match value with
  | SubmissionDraft => "draft" | SubmissionPlanned => "planned"
  | RiskApproved => "risk_approved" | SubmissionSigned => "signed"
  | SubmissionSubmitted => "submitted" | SubmissionAcked => "acked"
  | SubmissionRejected => "rejected" | SubmissionUnknown => "unknown"
  end.
Definition submission_state_from_str : string → result PersistenceError SubmissionState :=
  match_text "submission_state"
    [("draft", SubmissionDraft); ("planned", SubmissionPlanned);
     ("risk_approved", RiskApproved); ("signed", SubmissionSigned);
     ("submitted", SubmissionSubmitted); ("acked", SubmissionAcked);
     ("rejected", SubmissionRejected); ("unknown", SubmissionUnknown)].

Definition venue_order_state_to_str (value : VenueOrderState) : string :=
  match value with
  | VenueLive => "live" | VenueMatched => "matched" | VenueDelayed => "delayed"
  | VenueUnmatched => "unmatched" | CancelPending => "cancel_pending"
  | VenueCancelled => "cancelled" | VenueExpired => "expired" | VenueUnknown => "unknown"
  end.
Definition venue_order_state_from_str : string → result PersistenceError VenueOrderState :=
  match_text "venue_state"
    [("live", VenueLive); ("matched", VenueMatched); ("delayed", VenueDelayed);
     ("unmatched", VenueUnmatched); ("cancel_pending", CancelPending);
     ("cancelled", VenueCancelled); ("expired", VenueExpired); ("unknown", VenueUnknown)].

Definition settlement_state_to_str (value : SettlementState) : string :=
  match value with
  | SettlementMatched => "matched" | SettlementMined => "mined"
  | SettlementConfirmed => "confirmed" | SettlementRetrying => "retrying"
  | SettlementFailed => "failed" | SettlementUnknown => "unknown"
  end.
Definition settlement_state_from_str : string → result PersistenceError SettlementState :=
  match_text "settlement_state"
    [("matched", SettlementMatched); ("mined", SettlementMined);
     ("confirmed", SettlementConfirmed); ("retrying", SettlementRetrying);
     ("failed", SettlementFailed); ("unknown", SettlementUnknown)].

Definition wallet_route_to_str (value : WalletRoute) : string :=
  match value with WalletEoa => "eoa" | WalletProxy => "proxy" | WalletSafe => "safe" end.
Definition wallet_route_from_str : string → result PersistenceError WalletRoute :=
  match_text "wallet_route" [("eoa", WalletEoa); ("proxy", WalletProxy); ("safe", WalletSafe)].

Definition signature_type_to_str (value : SignatureType) : string :=
  match value with SigEoa => "eoa" | SigProxy => "proxy" | SigSafe => "safe" end.
Definition signature_type_from_str : string → result PersistenceError SignatureType :=
  match_text "signature_type" [("eoa", SigEoa); ("proxy", SigProxy); ("safe", SigSafe)].

Definition approval_status_to_str (value : ApprovalStatus) : string :=
  match value with
  | ApprovalUnknown => "unknown" | ApprovalMissing => "missing" | ApprovalPending => "pending"
  | ApprovalApproved => "approved" | ApprovalRejected => "rejected"
  end.
Definition approval_status_from_str : string → result PersistenceError ApprovalStatus :=
  match_text "approval_status"
    [("unknown", ApprovalUnknown); ("missing", ApprovalMissing); ("pending", ApprovalPending);
     ("approved", ApprovalApproved); ("rejected", ApprovalRejected)].

Definition inventory_bucket_to_str (value : InventoryBucket) : string :=
  match value with
  | Free => "free" | ReservedForOrder => "reserved_for_order"
  | MatchedUnsettled => "matched_unsettled" | PendingCtfIn => "pending_ctf_in"
  | PendingCtfOut => "pending_ctf_out" | Redeemable => "redeemable"
  | Quarantined => "quarantined"
  end.
Definition inventory_bucket_from_str : string → result PersistenceError InventoryBucket :=
  match_text "inventory_bucket"
    [("free", Free); ("reserved_for_order", ReservedForOrder);
     ("matched_unsettled", MatchedUnsettled); ("pending_ctf_in", PendingCtfIn);
     ("pending_ctf_out", PendingCtfOut); ("redeemable", Redeemable);
     ("quarantined", Quarantined)].

Definition resolution_status_to_str (value : ResolutionStatus) : string :=
  match value with
  | Unresolved => "unresolved" | Resolved => "resolved" | ResolutionCancelled => "cancelled"
  end.
Definition resolution_status_from_str : string → result PersistenceError ResolutionStatus :=
  match_text "resolution_status"
    [("unresolved", Unresolved); ("resolved", Resolved); ("cancelled", ResolutionCancelled)].

Definition dispute_state_to_str (value : DisputeState) : string :=
  match value with
  | DisputeNone => "none" | Disputed => "disputed" | Challenged => "challenged"
  | UnderReview => "under_review"
  end.
Definition dispute_state_from_str : string → result PersistenceError DisputeState :=
  match_text "dispute_state"
    [("none", DisputeNone); ("disputed", Disputed); ("challenged", Challenged);
     ("under_review", UnderReview)].

Definition execution_mode_to_str (value : ExecutionMode) : string :=
  match value with
  | Disabled => "disabled" | Shadow => "shadow" | Live => "live"
  | ReduceOnly => "reduce_only" | RecoveryOnly => "recovery_only"
  end.
Definition execution_mode_from_str : string → result PersistenceError ExecutionMode :=
  match_text "execution_mode"
    [("disabled", Disabled); ("shadow", Shadow); ("live", Live); ("reduce_only", ReduceOnly);
     ("recovery_only", RecoveryOnly)].

Inductive RunSessionState := SessionStarting | SessionRunning | SessionExited | SessionFailed.
#[export] Instance RunSessionState_eq_dec : EqDecision RunSessionState.
Proof. solve_decision. Defined.

Definition run_session_state_as_str (s : RunSessionState) : string :=
  match s with
  | SessionStarting => "starting" | SessionRunning => "running"
  | SessionExited => "exited" | SessionFailed => "failed"
  end.
Definition run_session_state_from_str : string → result PersistenceError RunSessionState :=
  match_text "run_session.state"
    [("starting", SessionStarting); ("running", SessionRunning); ("exited", SessionExited);
     ("failed", SessionFailed)].

(** An enumeration stored as TEXT. *)
Class TextColumn (A : Type) := {
  column_kind : string;
  column_text : A → string;
  column_parse : string → result PersistenceError A;
  column_parse_text a : column_parse (column_text a) = Ok a;
  column_parse_spec s : match column_parse s with
    | Ok a => s = column_text a
    | Err e => e = InvalidValue column_kind s ∧ ∀ a, s ≠ column_text a
    end;
}.

Lemma match_text_spec {A} kind (cases : list (string * A)) (text : A → string) s :
  Forall (λ c, c.1 = text c.2) cases → (∀ a, (text a, a) ∈ cases) →
  match match_text kind cases s with
  | Ok a => s = text a
  | Err e => e = InvalidValue kind s ∧ ∀ a, s ≠ text a
  end.
Proof.
  intros Hc Hall.
  assert (∀ rest, rest ⊆ cases →
    match match_text kind rest s with
    | Ok a => s = text a
    | Err e => e = InvalidValue kind s ∧ s ∉ rest.*1
    end) as Hrest.
  { induction rest as [|[t a] rest IH]; intros Hsub; simpl; [by split; [|set_solver]|].
    case_bool_decide as E.
    - rewrite Forall_forall in Hc. subst. apply (Hc (t, a)), Hsub. set_solver.
    - specialize (IH ltac:(set_solver)). destruct (match_text kind rest s); set_solver. }
  specialize (Hrest cases ltac:(done)). destruct (match_text kind cases s); [done|].
  destruct Hrest as [-> Hn]. split; [done|]. intros a ->. apply Hn.
  apply list_elem_of_fmap. by exists (text a, a).
Qed.

Ltac solve_text_column :=
  first [ by intros []
        | intros s; apply match_text_spec; [by repeat constructor|intros []; set_solver] ].

#[export] Instance market_route_column : TextColumn MarketRoute.
Proof.
  refine {| column_kind := "market_route"; column_text := market_route_to_str;
            column_parse := market_route_from_str |}; solve_text_column.
Defined.
#[export] Instance submission_state_column : TextColumn SubmissionState.
Proof.
  refine {| column_kind := "submission_state"; column_text := submission_state_to_str;
            column_parse := submission_state_from_str |}; solve_text_column.
Defined.
#[export] Instance venue_order_state_column : TextColumn VenueOrderState.
Proof.
  refine {| column_kind := "venue_state"; column_text := venue_order_state_to_str;
            column_parse := venue_order_state_from_str |}; solve_text_column.
Defined.
#[export] Instance settlement_state_column : TextColumn SettlementState.
Proof.
  refine {| column_kind := "settlement_state"; column_text := settlement_state_to_str;
            column_parse := settlement_state_from_str |}; solve_text_column.
Defined.
#[export] Instance wallet_route_column : TextColumn WalletRoute.
Proof.
  refine {| column_kind := "wallet_route"; column_text := wallet_route_to_str;
            column_parse := wallet_route_from_str |}; solve_text_column.
Defined.
#[export] Instance signature_type_column : TextColumn SignatureType.
Proof.
  refine {| column_kind := "signature_type"; column_text := signature_type_to_str;
            column_parse := signature_type_from_str |}; solve_text_column.
Defined.
#[export] Instance approval_status_column : TextColumn ApprovalStatus.
Proof.
  refine {| column_kind := "approval_status"; column_text := approval_status_to_str;
            column_parse := approval_status_from_str |}; solve_text_column.
Defined.
#[export] Instance inventory_bucket_column : TextColumn InventoryBucket.
Proof.
  refine {| column_kind := "inventory_bucket"; column_text := inventory_bucket_to_str;
            column_parse := inventory_bucket_from_str |}; solve_text_column.
Defined.
#[export] Instance resolution_status_column : TextColumn ResolutionStatus.
Proof.
  refine {| column_kind := "resolution_status"; column_text := resolution_status_to_str;
            column_parse := resolution_status_from_str |}; solve_text_column.
Defined.
#[export] Instance dispute_state_column : TextColumn DisputeState.
Proof.
  refine {| column_kind := "dispute_state"; column_text := dispute_state_to_str;
            column_parse := dispute_state_from_str |}; solve_text_column.
Defined.
#[export] Instance execution_mode_column : TextColumn ExecutionMode.
Proof.
  refine {| column_kind := "execution_mode"; column_text := execution_mode_to_str;
            column_parse := execution_mode_from_str |}; solve_text_column.
Defined.
#[export] Instance run_session_state_column : TextColumn RunSessionState.
Proof.
  refine {| column_kind := "run_session.state"; column_text := run_session_state_as_str;
            column_parse := run_session_state_from_str |}; solve_text_column.
Defined.

(** ** Identifiers and orders *)

Record IdentifierRecordRow := {
  ix_event_id : string;
  ix_event_family_id : string;
  ix_market_id : string;
  ix_condition_id : string;
  ix_token_id : string;
  ix_outcome_label : string;
  ix_route : string;
}.

Definition identifier_row_from_domain (record : IdentifierRecord) : IdentifierRecordRow :=
  {| ix_event_id := ir_event_id record; ix_event_family_id := ir_event_family_id record;
     ix_market_id := ir_market_id record; ix_condition_id := ir_condition_id record;
     ix_token_id := ir_token_id record; ix_outcome_label := ir_outcome_label record;
     ix_route := market_route_to_str (ir_route record) |}.

Definition identifier_row_into_domain (row : IdentifierRecordRow) :
    result PersistenceError IdentifierRecord :=
  route ← market_route_from_str (ix_route row);
  Ok {| ir_event_id := ix_event_id row; ir_event_family_id := ix_event_family_id row;
        ir_market_id := ix_market_id row; ir_condition_id := ix_condition_id row;
        ir_token_id := ix_token_id row; ir_outcome_label := ix_outcome_label row;
        ir_route := route |}.

Definition signed_order_identity (signed_order_hash salt nonce signature : option string) :
    result PersistenceError (option SignedOrderIdentity) :=
  match signed_order_hash, salt, nonce, signature with
  | None, None, None, None => Ok None
  | Some signed_order_hash, Some salt, Some nonce, Some signature =>
      Ok (Some {| so_signed_order_hash := signed_order_hash; so_salt := salt; so_nonce := nonce;
                  so_signature := signature |})
  | _, _, _, _ => Err IncompleteSignedOrderIdentity
  end.

Record RunSessionOf {S D : Type} := {
  run_run_session_id : string;
  run_invoked_by : string;
  run_mode : string;
  run_state : S;
  run_started_at : D;
  run_last_seen_at : D;
  run_ended_at : option D;
  run_exit_status : option string;
  run_exit_reason : option string;
  run_config_path : string;
  run_config_fingerprint : string;
  run_target_source_kind : string;
  run_startup_target_revision_at_start : string;
  run_configured_operator_target_revision : option string;
  run_active_operator_target_revision_at_start : option string;
  run_configured_operator_strategy_revision : option string;
  run_active_operator_strategy_revision_at_start : option string;
  run_rollout_state_at_start : option string;
  run_real_user_shadow_smoke : bool;
}.
#[global] Arguments RunSessionOf : clear implicits.

(** The columns of a session that change, given anew. *)
Definition run_update {S T D} (row : RunSessionOf S D) (state : T) (started_at last_seen_at : D)
    (ended_at : option D) (exit_status exit_reason : option string) : RunSessionOf T D :=
  {| run_run_session_id := run_run_session_id row; run_invoked_by := run_invoked_by row;
     run_mode := run_mode row; run_state := state; run_started_at := started_at;
     run_last_seen_at := last_seen_at; run_ended_at := ended_at; run_exit_status := exit_status;
     run_exit_reason := exit_reason; run_config_path := run_config_path row;
     run_config_fingerprint := run_config_fingerprint row;
     run_target_source_kind := run_target_source_kind row;
     run_startup_target_revision_at_start := run_startup_target_revision_at_start row;
     run_configured_operator_target_revision := run_configured_operator_target_revision row;
     run_active_operator_target_revision_at_start :=
       run_active_operator_target_revision_at_start row;
     run_configured_operator_strategy_revision :=
       run_configured_operator_strategy_revision row;
     run_active_operator_strategy_revision_at_start :=
       run_active_operator_strategy_revision_at_start row;
     run_rollout_state_at_start := run_rollout_state_at_start row;
     run_real_user_shadow_smoke := run_real_user_shadow_smoke row |}.

Record RuntimeProgressRow := {
  rp_last_journal_seq : Z;
  rp_last_state_version : Z;
  rp_last_snapshot_id : option string;
  rp_operator_target_revision : option string;
  rp_operator_strategy_revision : option string;
  rp_active_run_session_id : option string;
}.

Record StrategyAdoptionProvenanceRow := {
  sap_operator_strategy_revision : string;
  sap_adoptable_strategy_revision : string;
  sap_strategy_candidate_revision : string;
}.

Record CandidateTargetSetRow := {
  cts_candidate_revision : string;
  cts_snapshot_id : string;
  cts_source_revision : string;
  cts_payload : Json;
}.

Record AdoptableTargetRevisionRow := {
  atr_adoptable_revision : string;
  atr_candidate_revision : string;
  atr_rendered_operator_target_revision : string;
  atr_payload : Json;
}.

Record CandidateAdoptionProvenanceRow := {
  cap_operator_target_revision : string;
  cap_adoptable_revision : string;
  cap_candidate_revision : string;
}.

Record PendingReconcileRow := {
  pr_pending_ref : string;
  pr_scope_kind : string;
  pr_scope_id : string;
  pr_reason : string;
  pr_payload : Json;
}.

Record LiveSubmissionRecordRow := {
  lsr_submission_ref : string;
  lsr_attempt_id : string;
  lsr_route : string;
  lsr_scope : string;
  lsr_provider : string;
  lsr_state : string;
  lsr_payload : Json;
}.

Record LiveExecutionArtifactRow := {
  lxa_attempt_id : string;
  lxa_stream : string;
  lxa_payload : Json;
}.

Record NegRiskFamilyMemberRow := {
  fmr_condition_id : string;
  fmr_token_id : string;
  fmr_outcome_label : string;
  fmr_is_placeholder : bool;
  fmr_is_other : bool;
  fmr_neg_risk_variant : string;
}.

#[export] Instance ExecutionAttemptRow_eq_dec : EqDecision ExecutionAttemptRow.
Proof. solve_decision. Defined.
#[export] Instance LiveSubmissionRecordRow_eq_dec : EqDecision LiveSubmissionRecordRow.
Proof. solve_decision. Defined.
#[export] Instance CandidateTargetSetRow_eq_dec : EqDecision CandidateTargetSetRow.
Proof. solve_decision. Defined.
#[export] Instance AdoptableTargetRevisionRow_eq_dec : EqDecision AdoptableTargetRevisionRow.
Proof. solve_decision. Defined.
#[export] Instance CandidateAdoptionProvenanceRow_eq_dec :
  EqDecision CandidateAdoptionProvenanceRow.
Proof. solve_decision. Defined.
#[export] Instance StrategyCandidateSetRow_eq_dec : EqDecision StrategyCandidateSetRow.
Proof. solve_decision. Defined.
#[export] Instance AdoptableStrategyRevisionRow_eq_dec : EqDecision AdoptableStrategyRevisionRow.
Proof. solve_decision. Defined.
#[export] Instance StrategyAdoptionProvenanceRow_eq_dec :
  EqDecision StrategyAdoptionProvenanceRow.
Proof. solve_decision. Defined.

Section rows.
Context {X : Externals} {J : JsonOps} {P : PgOps}.

Definition RunSessionRow : Type := RunSessionOf RunSessionState DateTime.

Record NewOrderRow := {
  no_order_id : string;
  no_market_id : string;
  no_condition_id : string;
  no_token_id : string;
  no_quantity : Decimal;
  no_price : Decimal;
  no_submission_state : SubmissionState;
  no_venue_state : VenueOrderState;
  no_settlement_state : SettlementState;
  no_signed_order_hash : option string;
  no_salt : option string;
  no_nonce : option string;
  no_signature : option string;
  no_retry_of_order_id : option string;
}.

Definition new_order_row_from_domain (order : Order) (retry_of_order_id : option OrderId) :
    NewOrderRow :=
  let signed := o_signed_order order in
  {| no_order_id := o_order_id order; no_market_id := o_market_id order;
     no_condition_id := o_condition_id order; no_token_id := o_token_id order;
     no_quantity := o_quantity order; no_price := o_price order;
     no_submission_state := o_submission_state order; no_venue_state := o_venue_state order;
     no_settlement_state := o_settlement_state order;
     no_signed_order_hash := so_signed_order_hash <$> signed; no_salt := so_salt <$> signed;
     no_nonce := so_nonce <$> signed; no_signature := so_signature <$> signed;
     no_retry_of_order_id := retry_of_order_id |}.

Record OrderRow := {
  ow_order_id : string;
  ow_market_id : string;
  ow_condition_id : string;
  ow_token_id : string;
  ow_quantity : Decimal;
  ow_price : Decimal;
  ow_submission_state : string;
  ow_venue_state : string;
  ow_settlement_state : string;
  ow_signed_order_hash : option string;
  ow_salt : option string;
  ow_nonce : option string;
  ow_signature : option string;
  ow_retry_of_order_id : option string;
  ow_created_at : DateTime;
  ow_updated_at : DateTime;
}.

Record StoredOrder := {
  st_order : Order;
  st_retry_of_order_id : option OrderId;
  st_created_at : DateTime;
  st_updated_at : DateTime;
}.

Definition into_stored_order (row : OrderRow) : result PersistenceError StoredOrder :=
  submission_state ← submission_state_from_str (ow_submission_state row);
  venue_state ← venue_order_state_from_str (ow_venue_state row);
  settlement_state ← settlement_state_from_str (ow_settlement_state row);
  signed_order ← signed_order_identity (ow_signed_order_hash row) (ow_salt row) (ow_nonce row)
                   (ow_signature row);
  Ok {| st_order :=
          {| o_order_id := ow_order_id row; o_market_id := ow_market_id row;
             o_condition_id := ow_condition_id row; o_token_id := ow_token_id row;
             o_quantity := ow_quantity row; o_price := ow_price row;
             o_submission_state := submission_state; o_venue_state := venue_state;
             o_settlement_state := settlement_state; o_signed_order := signed_order |};
        st_retry_of_order_id := ow_retry_of_order_id row; st_created_at := ow_created_at row;
        st_updated_at := ow_updated_at row |}.

(** [submission_state], [venue_state] and [settlement_state] of repos.rs are the
    [_to_str] functions above applied to the row. *)
Definition order_row_matches_input (existing : OrderRow) (incoming : NewOrderRow) : bool :=
  bool_decide (ow_order_id existing = no_order_id incoming) &&
  bool_decide (ow_market_id existing = no_market_id incoming) &&
  bool_decide (ow_condition_id existing = no_condition_id incoming) &&
  bool_decide (ow_token_id existing = no_token_id incoming) &&
  dec_eqb (ow_quantity existing) (no_quantity incoming) &&
  dec_eqb (ow_price existing) (no_price incoming) &&
  bool_decide (ow_submission_state existing
               = submission_state_to_str (no_submission_state incoming)) &&
  bool_decide (ow_venue_state existing = venue_order_state_to_str (no_venue_state incoming)) &&
  bool_decide (ow_settlement_state existing
               = settlement_state_to_str (no_settlement_state incoming)) &&
  bool_decide (ow_signed_order_hash existing = no_signed_order_hash incoming) &&
  bool_decide (ow_salt existing = no_salt incoming) &&
  bool_decide (ow_nonce existing = no_nonce incoming) &&
  bool_decide (ow_signature existing = no_signature incoming) &&
  bool_decide (ow_retry_of_order_id existing = no_retry_of_order_id incoming).

(** ** Approvals, inventory, resolutions *)

Record ApprovalStateRow := {
  ay_token_id : string;
  ay_spender : string;
  ay_owner_address : string;
  ay_funder_address : string;
  ay_wallet_route : string;
  ay_signature_type : string;
  ay_allowance : Decimal;
  ay_required_min_allowance : Decimal;
  ay_last_checked_at : DateTime;
  ay_approval_status : string;
  ay_updated_at : DateTime;
}.

Definition approval_row_from_domain (state : ApprovalState) : ApprovalStateRow :=
  {| ay_token_id := ap_token_id state; ay_spender := ap_spender state;
     ay_owner_address := ap_owner_address state; ay_funder_address := ap_funder_address state;
     ay_wallet_route := wallet_route_to_str (ap_wallet_route state);
     ay_signature_type := signature_type_to_str (ap_signature_type state);
     ay_allowance := ap_allowance state;
     ay_required_min_allowance := ap_required_min_allowance state;
     ay_last_checked_at := ap_last_checked_at state;
     ay_approval_status := approval_status_to_str (ap_approval_status state);
     ay_updated_at := ap_last_checked_at state |}.

Definition approval_row_into_domain (row : ApprovalStateRow) :
    result PersistenceError ApprovalState :=
  wallet_route ← wallet_route_from_str (ay_wallet_route row);
  signature_type ← signature_type_from_str (ay_signature_type row);
  approval_status ← approval_status_from_str (ay_approval_status row);
  Ok {| ap_token_id := ay_token_id row; ap_spender := ay_spender row;
        ap_owner_address := ay_owner_address row; ap_funder_address := ay_funder_address row;
        ap_wallet_route := wallet_route; ap_signature_type := signature_type;
        ap_allowance := ay_allowance row;
        ap_required_min_allowance := ay_required_min_allowance row;
        ap_last_checked_at := ay_last_checked_at row; ap_approval_status := approval_status |}.

Record InventoryBucketRow := {
  ib_token_id : string;
  ib_owner_address : string;
  ib_bucket : string;
  ib_quantity : Decimal;
  ib_linked_order_id : option string;
  ib_ctf_operation_id : option string;
  ib_relayer_transaction_id : option string;
  ib_updated_at : DateTime;
}.

Definition inventory_bucket_row_new (token_id owner_address : string) (bucket : InventoryBucket)
    (quantity : Decimal) (now : DateTime) : InventoryBucketRow :=
  {| ib_token_id := token_id; ib_owner_address := owner_address;
     ib_bucket := inventory_bucket_to_str bucket; ib_quantity := quantity;
     ib_linked_order_id := None; ib_ctf_operation_id := None; ib_relayer_transaction_id := None;
     ib_updated_at := now |}.

Definition inventory_row_bucket (row : InventoryBucketRow) :
    result PersistenceError InventoryBucket :=
  inventory_bucket_from_str (ib_bucket row).

Record ResolutionStateRow := {
  rz_condition_id : string;
  rz_resolution_status : string;
  rz_payout_vector : Json;
  rz_resolved_at : option DateTime;
  rz_dispute_state : string;
  rz_redeemable_at : option DateTime;
  rz_updated_at : DateTime;
}.

Definition payout_vector_to_json (values : list Decimal) : Json :=
  JArray ((λ value, JString (dec_normalized value)) <$> values).

Definition payout_item_from_json (item : Json) : result PersistenceError Decimal :=
  match item with
  | JString value => ok_or (dec_from_str value) (InvalidValue "payout_vector" value)
  | JNumber value =>
      ok_or (dec_from_str (pretty value)) (InvalidValue "payout_vector" (pretty value))
  | _ => Err (InvalidValue "payout_vector" (json_text item))
  end.

Definition payout_vector_from_json (value : Json) : result PersistenceError (list Decimal) :=
  items ← ok_or (json_as_array value) (InvalidValue "payout_vector" (json_text value));
  collect_results payout_item_from_json items.

Definition resolution_row_from_domain (state : ResolutionState) (now : DateTime) :
    ResolutionStateRow :=
  {| rz_condition_id := rs_condition_id state;
     rz_resolution_status := resolution_status_to_str (rs_resolution_status state);
     rz_payout_vector := payout_vector_to_json (rs_payout_vector state);
     rz_resolved_at := rs_resolved_at state;
     rz_dispute_state := dispute_state_to_str (rs_dispute_state state);
     rz_redeemable_at := rs_redeemable_at state; rz_updated_at := now |}.

Definition resolution_row_into_domain (row : ResolutionStateRow) :
    result PersistenceError ResolutionState :=
  resolution_status ← resolution_status_from_str (rz_resolution_status row);
  payout_vector ← payout_vector_from_json (rz_payout_vector row);
  dispute_state ← dispute_state_from_str (rz_dispute_state row);
  Ok {| rs_condition_id := rz_condition_id row; rs_resolution_status := resolution_status;
        rs_payout_vector := payout_vector; rs_resolved_at := rz_resolved_at row;
        rs_dispute_state := dispute_state; rs_redeemable_at := rz_redeemable_at row |}.

(** ** Control plane, publications, journal, neg-risk *)

Record OperatorStrategyAdoptionHistoryRow := {
  osh_adoption_id : string;
  osh_action_kind : string;
  osh_operator_strategy_revision : string;
  osh_previous_operator_strategy_revision : option string;
  osh_adoptable_strategy_revision : option string;
  osh_strategy_candidate_revision : option string;
  osh_adopted_at : DateTime;
}.

Record OperatorTargetAdoptionHistoryRow := {
  oth_adoption_id : string;
  oth_action_kind : string;
  oth_operator_target_revision : string;
  oth_previous_operator_target_revision : option string;
  oth_adoptable_revision : option string;
  oth_candidate_revision : option string;
  oth_adopted_at : DateTime;
}.

Record SnapshotPublicationRow := {
  sp_snapshot_id : string;
  sp_state_version : Z;
  sp_committed_journal_seq : Z;
  sp_fullset_ready : bool;
  sp_negrisk_ready : bool;
  sp_metadata : Json;
  sp_published_at : DateTime;
}.

Record ExecutionAttemptWithCreatedAtRow := {
  xc_attempt : ExecutionAttemptRow;
  xc_created_at : DateTime;
}.

Record NegRiskFamilyValidationRow := {
  fv_event_family_id : string;
  fv_validation_status : string;
  fv_exclusion_reason : option string;
  fv_metadata_snapshot_hash : string;
  fv_last_seen_discovery_revision : Z;
  fv_member_count : Z;
  fv_first_seen_at : DateTime;
  fv_last_seen_at : DateTime;
  fv_validated_at : DateTime;
  fv_updated_at : DateTime;
  fv_member_vector : list NegRiskFamilyMemberRow;
  fv_source_kind : string;
  fv_source_session_id : string;
  fv_source_event_id : string;
  fv_event_ts : DateTime;
}.

Record FamilyHaltRow := {
  fh_event_family_id : string;
  fh_halted : bool;
  fh_reason : option string;
  fh_blocks_new_risk : bool;
  fh_metadata_snapshot_hash : option string;
  fh_last_seen_discovery_revision : Z;
  fh_set_at : DateTime;
  fh_updated_at : DateTime;
  fh_member_vector : list NegRiskFamilyMemberRow;
  fh_source_kind : string;
  fh_source_session_id : string;
  fh_source_event_id : string;
  fh_event_ts : DateTime;
}.

Record NegRiskDiscoverySnapshotInput := {
  dsi_discovery_revision : Z;
  dsi_metadata_snapshot_hash : string;
  dsi_family_ids : list string;
  dsi_captured_at : DateTime;
  dsi_source_kind : string;
  dsi_source_session_id : string;
  dsi_source_event_id : string;
  dsi_dedupe_key : string;
  dsi_extra_payload : Json;
}.

Record JournalEntryInput := {
  ji_stream : string;
  ji_source_kind : string;
  ji_source_session_id : string;
  ji_source_event_id : string;
  ji_dedupe_key : string;
  ji_causal_parent_id : option Z;
  ji_event_type : string;
  ji_event_ts : DateTime;
  ji_payload : Json;
}.

Record JournalEntryRow := {
  jr_journal_seq : Z;
  jr_stream : string;
  jr_source_kind : string;
  jr_source_session_id : string;
  jr_source_event_id : string;
  jr_dedupe_key : string;
  jr_causal_parent_id : option Z;
  jr_event_type : string;
  jr_event_ts : DateTime;
  jr_payload : Json;
  jr_ingested_at : DateTime;
}.

Definition same_validation_state (existing candidate : NegRiskFamilyValidationRow) : bool :=
  bool_decide (fv_event_family_id existing = fv_event_family_id candidate) &&
  bool_decide (fv_validation_status existing = fv_validation_status candidate) &&
  bool_decide (fv_exclusion_reason existing = fv_exclusion_reason candidate) &&
  bool_decide (fv_metadata_snapshot_hash existing = fv_metadata_snapshot_hash candidate) &&
  bool_decide (fv_last_seen_discovery_revision existing
               = fv_last_seen_discovery_revision candidate) &&
  bool_decide (fv_member_count existing = fv_member_count candidate) &&
  bool_decide (fv_first_seen_at existing = fv_first_seen_at candidate) &&
  bool_decide (fv_last_seen_at existing = fv_last_seen_at candidate) &&
  bool_decide (fv_validated_at existing = fv_validated_at candidate).

Definition same_halt_state (existing candidate : FamilyHaltRow) : bool :=
  bool_decide (fh_event_family_id existing = fh_event_family_id candidate) &&
  bool_decide (fh_halted existing = fh_halted candidate) &&
  bool_decide (fh_reason existing = fh_reason candidate) &&
  bool_decide (fh_blocks_new_risk existing = fh_blocks_new_risk candidate) &&
  bool_decide (fh_metadata_snapshot_hash existing = fh_metadata_snapshot_hash candidate) &&
  bool_decide (fh_last_seen_discovery_revision existing
               = fh_last_seen_discovery_revision candidate) &&
  bool_decide (fh_set_at existing = fh_set_at candidate).

Definition member_vector_json (member_vector : list NegRiskFamilyMemberRow) : Json :=
  JArray ((λ member, json_object
    [("condition_id", JString (fmr_condition_id member));
     ("token_id", JString (fmr_token_id member));
     ("outcome_label", JString (fmr_outcome_label member));
     ("is_placeholder", JBool (fmr_is_placeholder member));
     ("is_other", JBool (fmr_is_other member));
     ("neg_risk_variant", JString (fmr_neg_risk_variant member))]) <$> member_vector).

(** ** Checks of repos.rs *)

Definition required_anchor_string (payload : Json) (field : string) :
    result PersistenceError string :=
  let key := after_last "." field in
  value ← ok_or (v ← json_get key payload; json_as_str v)
            (InvalidValue field (json_text payload));
  if is_blank value then Err (InvalidValue field (json_text payload)) else Ok value.

Definition validate_pending_reconcile_row (row : PendingReconcileRow) :
    result PersistenceError () :=
  if bool_decide (pr_scope_kind row ≠ "family") then
    Err (InvalidValue "pending_reconcile_items.scope_kind" (pr_scope_kind row))
  else
    _ ← required_anchor_string (pr_payload row) "pending_reconcile_items.payload.submission_ref";
    family_id ← required_anchor_string (pr_payload row)
                  "pending_reconcile_items.payload.family_id";
    route ← required_anchor_string (pr_payload row) "pending_reconcile_items.payload.route";
    reason ← required_anchor_string (pr_payload row) "pending_reconcile_items.payload.reason";
    if bool_decide (pr_scope_id row ≠ family_id) then
      Err (InvalidValue "pending_reconcile_items.scope_id" (pr_scope_id row))
    else if bool_decide (pr_reason row ≠ reason) then
      Err (InvalidValue "pending_reconcile_items.reason" (pr_reason row))
    else if bool_decide (route = "") then
      Err (InvalidValue "pending_reconcile_items.payload.route" (json_text (pr_payload row)))
    else Ok ().

Definition LIVE_SUBMISSION_ALLOWED_STATES : list string := ["submitted"; "pending_reconcile"].

Definition validate_live_submission_record_row (row : LiveSubmissionRecordRow) :
    result PersistenceError () :=
  submission_ref ← required_anchor_string (lsr_payload row)
                     "live_submission_records.payload.submission_ref";
  family_id ← required_anchor_string (lsr_payload row)
                "live_submission_records.payload.family_id";
  route ← required_anchor_string (lsr_payload row) "live_submission_records.payload.route";
  reason ← required_anchor_string (lsr_payload row) "live_submission_records.payload.reason";
  if bool_decide (submission_ref ≠ lsr_submission_ref row) then
    Err (InvalidValue "live_submission_records.payload.submission_ref" submission_ref)
  else if bool_decide (family_id ≠ lsr_scope row) then
    Err (InvalidValue "live_submission_records.scope" (lsr_scope row))
  else if bool_decide (route ≠ lsr_route row) then
    Err (InvalidValue "live_submission_records.route" (lsr_route row))
  else if is_blank (lsr_provider row) then
    Err (InvalidValue "live_submission_records.provider" (lsr_provider row))
  else if bool_decide (reason = "") then
    Err (InvalidValue "live_submission_records.payload.reason" (json_text (lsr_payload row)))
  else if negb (bool_decide (lsr_state row ∈ LIVE_SUBMISSION_ALLOWED_STATES)) then
    Err (InvalidValue "live_submission_records.state" (lsr_state row))
  else Ok ().

Definition validate_live_submission_record_against_attempt (row : LiveSubmissionRecordRow)
    (attempt_route attempt_scope : string) : result PersistenceError () :=
  if bool_decide (lsr_route row ≠ attempt_route) then
    Err (InvalidValue "live_submission_records.route" (lsr_route row))
  else
    let expected_scope :=
      if bool_decide (attempt_route = "neg-risk")
      then default attempt_scope (strip_prefix "family:" attempt_scope)
      else attempt_scope in
    if bool_decide (lsr_scope row ≠ expected_scope) then
      Err (InvalidValue "live_submission_records.scope" (lsr_scope row))
    else Ok ().

Definition shadow_attempt_rows_are_equivalent (existing desired : ExecutionAttemptRow) : bool :=
  bool_decide (xr_attempt_id existing = xr_attempt_id desired) &&
  bool_decide (xr_plan_id existing = xr_plan_id desired) &&
  bool_decide (xr_snapshot_id existing = xr_snapshot_id desired) &&
  bool_decide (xr_route existing = xr_route desired) &&
  bool_decide (xr_scope existing = xr_scope desired) &&
  bool_decide (xr_matched_rule_id existing = xr_matched_rule_id desired) &&
  bool_decide (xr_execution_mode existing = xr_execution_mode desired) &&
  bool_decide (xr_attempt_no existing = xr_attempt_no desired) &&
  bool_decide (xr_idempotency_key existing = xr_idempotency_key desired).

Definition is_reserved_discovery_snapshot_key (key : string) : bool :=
  bool_decide (key ∈ ["discovery_revision"; "metadata_snapshot_hash"; "discovered_family_count";
                      "family_ids"; "captured_at"]).

(** [project_run_session_state]: sessions not seen for [stale_after] are shown stale. *)
Record RunSessionProjectedRow := {
  rpr_row : RunSessionRow;
  rpr_state_label : string;
  rpr_is_stale : bool;
}.

Definition project_run_session_state (row : RunSessionRow) (stale_after : Duration)
    (now : DateTime) : RunSessionProjectedRow :=
  let is_stale :=
    match run_state row with SessionStarting | SessionRunning => true | _ => false end &&
    match dt_cmp (run_last_seen_at row) (dt_minus now stale_after) with Gt => false | _ => true end
  in
  {| rpr_row := row;
     rpr_state_label := if is_stale then "stale" else run_session_state_as_str (run_state row);
     rpr_is_stale := is_stale |}.

End rows.

(** ** A concrete instance

    Bytewise collation, instants in whole seconds. *)
Fixpoint read_digits (acc : Z) (s : string) : option Z :=
  match s with
  | EmptyString => Some acc
  | String c s' =>
      let d := Z.of_nat (nat_of_ascii c) - 48 in
      if bool_decide (0 <= d <= 9) then read_digits (10 * acc + d) s' else None
  end.

Definition plain_pg : PgOps (X := Micros) :=
  @Build_PgOps Micros str_cmp (λ d : Z, d) Z.sub Z.sub (λ d : Z, d) (λ d : Z, pretty d)
    (λ s, if bool_decide (s = "") then None else read_digits 0 s).

#[export] Instance plain_pg_laws : PgLaws plain_pg.
Proof. split; [exact _|exact _|done]. Qed.
