(* ===== verification/AppConfig.v ===== *)
(** * What the application makes of its configuration

    [app-live/src/config.rs]: the operator's targets, the credentials of the account and
    of the relayer, the sources of the venue; and the authentication material of
    [venue-polymarket/src/auth.rs]. *)

From S2P Require Import Prelude Text RecordSet Externals Json Domain Plans Execution.
From S2P Require Import LiveRecords Discovery Rows Config Validation.

(** ** Third-party code

    [url::Url] and its accessors; whether [HeaderValue::from_str] accepts a value;
    [DateTime::timestamp]; how [rust_decimal] reads a JSON value, and the texts of the
    errors of [serde_json] and [rust_decimal]. *)
Class UrlOps := {
  Url : Type;
  url_parse : string → result string Url;
  url_scheme : Url → string;
  url_host_str : Url → option string;
  url_path : Url → string;
  url_query : Url → option string;
  url_fragment : Url → option string;
  header_value_ok : string → bool;
}.

Class SerdeOps {X : Externals} := {
  json_to_decimal : Json → option Decimal;
  serde_error : Json → string;
  dec_parse_error : string → string;
  dt_timestamp : DateTime → Z;
}.

(** A number that was serialised is read back. *)
Class SerdeLaws {X : Externals} {J : JsonOps} (S : SerdeOps) : Prop := {
  json_to_of_decimal d : json_to_decimal (json_decimal d) = Some d;
}.

#[export] Instance SignatureType_eq_dec : EqDecision SignatureType.
Proof. solve_decision. Defined.

Section config.
Context {X : Externals} {J : JsonOps} {P : PgOps} {U : UrlOps} {D : SerdeOps}.

(** ** auth.rs *)

Record SignerContext := {
  sg_address : string;
  sg_funder_address : string;
  sg_signature_type : SignatureType;
  sg_wallet_route : WalletRoute;
}.

Record L2AuthHeaders := {
  la_signer : SignerContext;
  la_api_key : string;
  la_passphrase : string;
  la_timestamp : string;
  la_signature : string;
}.

Inductive RelayerAuth :=
| BuilderAuth (api_key timestamp passphrase signature : string)
| RelayerKeyAuth (api_key address : string).

(** [DerivedL2AuthMaterial] and [DerivedBuilderRelayerAuthMaterial] *)
Record DerivedAuthMaterial := {
  dm_api_key : string;
  dm_passphrase : string;
  dm_timestamp : string;
  dm_signature : string;
}.

Inductive AuthError :=
| EmptyField (name : string)
| InvalidHeaderValue (name : string)
| SignerMismatch.

Definition auth_error_text (e : AuthError) : string :=
  match e with
  | EmptyField name => "missing auth field: " +:+ name
  | InvalidHeaderValue name => "invalid auth header value: " +:+ name
  | SignerMismatch => "signature_type and wallet_route disagree"
  end.

Definition signature_type_label (t : SignatureType) : string :=
  match t with SigEoa => "EOA" | SigProxy => "POLY_PROXY" | SigSafe => "GNOSIS_SAFE" end.
Definition signature_type_to_wallet_route (t : SignatureType) : WalletRoute :=
  match t with SigEoa => WalletEoa | SigProxy => WalletProxy | SigSafe => WalletSafe end.
Definition wallet_route_label (r : WalletRoute) : string :=
  match r with WalletEoa => "eoa" | WalletProxy => "proxy" | WalletSafe => "safe" end.
Definition wallet_route_to_signature_type (r : WalletRoute) : SignatureType :=
  match r with WalletEoa => SigEoa | WalletProxy => SigProxy | WalletSafe => SigSafe end.

Definition ensure_field (field value : string) : result AuthError () :=
  if is_blank value then Err (EmptyField field) else Ok ().

Definition HeaderMap : Type := gmap string string.

Definition insert_header (name field value : string) (map : HeaderMap) :
    result AuthError HeaderMap :=
  _ ← ensure_field field value;
  if header_value_ok value then Ok (<[name := value]> map) else Err (InvalidHeaderValue field).

Definition build_l2_auth_headers (h : L2AuthHeaders) : result AuthError HeaderMap :=
  let signer := la_signer h in
  if bool_decide (wallet_route_to_signature_type (sg_wallet_route signer)
                  ≠ sg_signature_type signer) then Err SignerMismatch
  else
    _ ← ensure_field "address" (sg_address signer);
    _ ← ensure_field "funder_address" (sg_funder_address signer);
    map ← insert_header "poly-address" "address" (sg_address signer) ∅;
    map ← insert_header "poly-api-key" "api_key" (la_api_key h) map;
    map ← insert_header "poly-passphrase" "passphrase" (la_passphrase h) map;
    map ← insert_header "poly-timestamp" "timestamp" (la_timestamp h) map;
    map ← insert_header "poly-signature" "signature" (la_signature h) map;
    insert_header "poly-signature-type" "signature_type"
      (signature_type_label (sg_signature_type signer)) map.

Definition build_relayer_auth_headers (auth : RelayerAuth) : result AuthError HeaderMap :=
  match auth with
  | BuilderAuth api_key timestamp passphrase signature =>
      map ← insert_header "poly-builder-api-key" "builder_api_key" api_key ∅;
      map ← insert_header "poly-builder-timestamp" "builder_timestamp" timestamp map;
      map ← insert_header "poly-builder-passphrase" "builder_passphrase" passphrase map;
      insert_header "poly-builder-signature" "builder_signature" signature map
  | RelayerKeyAuth api_key address =>
      map ← insert_header "relayer-api-key" "relayer_api_key" api_key ∅;
      insert_header "relayer-api-key-address" "relayer_api_key_address" address map
  end.

Definition derive_signature (secret timestamp passphrase : string) : string :=
  hex_string (sha256 (secret +:+ ":" +:+ timestamp +:+ ":" +:+ passphrase)).

Definition derive_l2_auth_material (api_key secret passphrase : string) (now : DateTime) :
    result AuthError DerivedAuthMaterial :=
  _ ← ensure_field "api_key" api_key;
  _ ← ensure_field "secret" secret;
  _ ← ensure_field "passphrase" passphrase;
  let timestamp : string := pretty (dt_timestamp now) in
  Ok {| dm_api_key := api_key; dm_passphrase := passphrase; dm_timestamp := timestamp;
        dm_signature := derive_signature secret timestamp passphrase |}.

Definition derive_builder_relayer_auth_material (api_key secret passphrase : string)
    (now : DateTime) : result AuthError DerivedAuthMaterial :=
  _ ← ensure_field "api_key" api_key;
  _ ← ensure_field "secret" secret;
  _ ← ensure_field "passphrase" passphrase;
  let timestamp : string := pretty (dt_timestamp now) in
  Ok {| dm_api_key := api_key; dm_passphrase := passphrase; dm_timestamp := timestamp;
        dm_signature := derive_signature secret timestamp passphrase |}.

(** ** config.rs: data *)

Record NegRiskLiveTargetSet := { ts_revision : string; ts_targets : LiveTargets }.

Definition target_set_new (targets : LiveTargets) : NegRiskLiveTargetSet :=
  {| ts_revision := neg_risk_live_target_revision_from_targets targets; ts_targets := targets |}.

Definition target_set_empty : NegRiskLiveTargetSet := target_set_new (∅ : gmap _ _).

Definition target_set_is_empty (t : NegRiskLiveTargetSet) : bool :=
  bool_decide (size (ts_targets t : gmap _ _) = 0%nat).

Record RouteRuntimeArtifact := {
  rr_scope : string;
  rr_route_policy_version : string;
  rr_semantic_digest : string;
  rr_content : Json;
}.

Record LocalSignerIdentity := {
  ls_address : string;
  ls_funder_address : string;
  ls_signature_type : string;
  ls_wallet_route : string;
}.

Record LocalL2AuthHeaders := {
  lh_api_key : string;
  lh_passphrase : string;
  lh_timestamp : string;
  lh_signature : string;
}.

Inductive LocalRelayerAuth :=
| LocalBuilderApiKey (api_key timestamp passphrase signature : string)
| LocalRelayerApiKey (api_key address : string).

Record LocalAccountRuntimeConfig := {
  lac_signer : LocalSignerIdentity;
  lac_l2_auth : LocalL2AuthHeaders;
}.

(** [LocalRelayerRuntimeConfig] is its only field. *)
Definition LocalRelayerRuntimeConfig : Type := LocalRelayerAuth.

Record LocalSignerConfig := {
  lsc_signer : LocalSignerIdentity;
  lsc_l2_auth : LocalL2AuthHeaders;
  lsc_relayer_auth : LocalRelayerAuth;
}.

Record PolymarketGatewayCredentials := {
  gc_address : string;
  gc_funder_address : string;
  gc_signature_type : string;
  gc_wallet_route : string;
  gc_api_key : string;
  gc_secret : string;
  gc_passphrase : string;
}.

Record PolymarketSourceConfig := {
  psc_clob_host : Url;
  psc_data_api_host : Url;
  psc_relayer_host : Url;
  psc_market_ws_url : Url;
  psc_user_ws_url : Url;
  psc_heartbeat_interval_seconds : Z;
  psc_relayer_poll_interval_seconds : Z;
  psc_metadata_refresh_interval_seconds : Z;
}.

Inductive RuntimeWalletKind := RuntimeWalletEoa | RuntimeWalletNonEoa.

Inductive ConfigError :=
| InvalidJson (value message : string)
| InvalidLocalAccountRuntimeConfig (value message : string)
| InvalidLocalRelayerRuntimeConfig (value message : string)
| InvalidLocalSignerConfig (value message : string)
| MissingPolymarketGatewayCredentials
| InvalidPolymarketSourceConfig (value message : string)
| DuplicateFamilyId (family_id : string)
| MissingLocalAccountRuntimeConfig
| MissingLocalRelayerRuntimeConfig
| MissingLocalSignerConfig
| MissingPolymarketSourceConfig.

Definition config_error_text (e : ConfigError) : string :=
  match e with
  | InvalidJson _ message => "invalid neg-risk live target config: " +:+ message
  | InvalidLocalAccountRuntimeConfig _ message =>
      "invalid local account runtime config: " +:+ message
  | InvalidLocalRelayerRuntimeConfig _ message =>
      "invalid local relayer runtime config: " +:+ message
  | InvalidLocalSignerConfig _ message => "invalid local signer config: " +:+ message
  | MissingPolymarketGatewayCredentials =>
      "missing polymarket gateway credentials for live daemon inputs"
  | InvalidPolymarketSourceConfig _ message => "invalid polymarket source config: " +:+ message
  | DuplicateFamilyId family_id =>
      "duplicate neg-risk family_id in live target config: " +:+ family_id
  | MissingLocalAccountRuntimeConfig =>
      "missing local account runtime config for live neg-risk operator inputs"
  | MissingLocalRelayerRuntimeConfig =>
      "missing local relayer runtime config for live neg-risk operator inputs"
  | MissingLocalSignerConfig =>
      "missing local signer config for live neg-risk operator inputs"
  | MissingPolymarketSourceConfig =>
      "missing polymarket source config for live daemon inputs"
  end.

(** ** Targets *)

Definition parse_decimal (field value raw_value : string) : result ConfigError Decimal :=
  ok_or (dec_from_str value) (InvalidJson raw_value (field +:+ ": " +:+ dec_parse_error value)).

Definition member_live_target (m : NegRiskTargetMemberToml) :
    result ConfigError NegRiskMemberLiveTarget :=
  price ← parse_decimal "negrisk.targets.members.price" (ntm_price m) "app_live";
  quantity ← parse_decimal "negrisk.targets.members.quantity" (ntm_quantity m) "app_live";
  Ok {| lm_condition_id := ntm_condition_id m; lm_token_id := ntm_token_id m;
        lm_price := price; lm_quantity := quantity |}.

(** [if targets.insert(family_id, target).is_some() { return Err(DuplicateFamilyId) }] *)
Definition insert_family (target : NegRiskFamilyLiveTarget) (targets : LiveTargets) :
    result ConfigError LiveTargets :=
  if bool_decide ((targets : gmap _ _) !! lf_family_id target ≠ None)
  then Err (DuplicateFamilyId (lf_family_id target))
  else Ok (<[lf_family_id target := target]> (targets : gmap _ _)).

Fixpoint live_targets_from_toml (targets : LiveTargets) (families : list NegRiskTargetToml) :
    result ConfigError LiveTargets :=
  match families with
  | [] => Ok targets
  | family :: families' =>
      members ← collect_results member_live_target (ntt_members family);
      targets ← insert_family {| lf_family_id := ntt_family_id family; lf_members := members |}
                  targets;
      live_targets_from_toml targets families'
  end.

(** [NegRiskLiveTargetSet::try_from(config)] *)
Definition target_set_try_from (raw : RawAxiomConfig) :
    result ConfigError NegRiskLiveTargetSet :=
  targets ← live_targets_from_toml (∅ : gmap _ _) (negrisk_targets raw);
  Ok (target_set_new targets).

(** *** From JSON

    What [serde] derives for the targets; a struct may also be an array of its fields. *)
Definition json_struct (names : list string) (v : Json) : option (list (string * Json)) :=
  match v with
  | JObject fields => Some fields
  | JArray l => if bool_decide (length l <= length names)%nat then Some (zip names l) else None
  | _ => None
  end.

Definition json_string_field (k : string) (fields : list (string * Json)) : option string :=
  v ← field_get k fields; json_as_str v.

Definition member_from_json (v : Json) : option NegRiskMemberLiveTarget :=
  fields ← json_struct ["condition_id"; "token_id"; "price"; "quantity"] v;
  condition_id ← json_string_field "condition_id" fields;
  token_id ← json_string_field "token_id" fields;
  price ← field_get "price" fields;
  price ← json_to_decimal price;
  quantity ← field_get "quantity" fields;
  quantity ← json_to_decimal quantity;
  Some {| lm_condition_id := condition_id; lm_token_id := token_id; lm_price := price;
          lm_quantity := quantity |}.

Definition family_from_json (v : Json) : option NegRiskFamilyLiveTarget :=
  fields ← json_struct ["family_id"; "members"] v;
  family_id ← json_string_field "family_id" fields;
  items ← field_get "members" fields;
  items ← json_as_array items;
  members ← mapM member_from_json items;
  Some {| lf_family_id := family_id; lf_members := members |}.

(** [from_value::<BTreeMap<String, NegRiskFamilyLiveTarget>>] *)
Definition families_from_json (v : Json) : option LiveTargets :=
  match v with
  | JObject fields =>
      entries ← mapM (λ '(k, v), family ← family_from_json v; Some (k, family)) fields;
      Some (collect_map entries)
  | _ => None
  end.

(** The targets of the artifacts of the route that render one. *)
Fixpoint live_targets_of_artifacts (targets : LiveTargets)
    (artifacts : list RouteRuntimeArtifact) : result ConfigError LiveTargets :=
  match artifacts with
  | [] => Ok targets
  | artifact :: artifacts' =>
      match json_get "rendered_live_target" (rr_content artifact) with
      | None | Some JNull => live_targets_of_artifacts targets artifacts'
      | Some rendered =>
          target ← ok_or (family_from_json rendered)
                     (InvalidJson (rr_scope artifact) (serde_error rendered));
          targets ← insert_family target targets;
          live_targets_of_artifacts targets artifacts'
      end
  end.

Definition RouteArtifacts : Type := gmap string (list RouteRuntimeArtifact).

Definition neg_risk_live_targets_from_route_artifacts (route_artifacts : RouteArtifacts)
    (operator_strategy_revision : option string) : result ConfigError NegRiskLiveTargetSet :=
  targets ← live_targets_of_artifacts (∅ : gmap _ _)
              (default [] ((route_artifacts : gmap _ _) !! "neg-risk"));
  Ok (match operator_strategy_revision with
      | Some revision => {| ts_revision := revision; ts_targets := targets |}
      | None => target_set_new targets
      end).

(** ** Account and relayer *)

Definition require_non_empty_account_field (value field : string) : result ConfigError () :=
  if is_blank value then
    Err (InvalidLocalAccountRuntimeConfig "app_live" (field +:+ " must not be empty"))
  else Ok ().

Definition require_non_empty_relayer_field (value field : string) : result ConfigError () :=
  if is_blank value then
    Err (InvalidLocalRelayerRuntimeConfig "app_live" (field +:+ " must not be empty"))
  else Ok ().

Definition require_non_empty_optional_relayer_field (value : option string) (field : string) :
    result ConfigError string :=
  value ← ok_or value (InvalidLocalRelayerRuntimeConfig "app_live" (field +:+ " is required"));
  if is_blank value then
    Err (InvalidLocalRelayerRuntimeConfig "app_live" (field +:+ " must not be empty"))
  else Ok value.

Definition app_validate_account_view (account : PolymarketAccountToml) : result ConfigError () :=
  _ ← require_non_empty_account_field (pat_address account) "polymarket.account.address";
  _ ← match pat_funder_address account with
      | Some funder_address => require_non_empty_account_field funder_address
                                 "polymarket.account.funder_address"
      | None => Ok ()
      end;
  _ ← require_non_empty_account_field (pat_api_key account) "polymarket.account.api_key";
  _ ← require_non_empty_account_field (pat_secret account) "polymarket.account.secret";
  _ ← require_non_empty_account_field (pat_passphrase account) "polymarket.account.passphrase";
  if bool_decide (toml_signature_type_label (pat_signature_type account)
                  ≠ toml_wallet_route_label (pat_wallet_route account)) then
    Err (InvalidLocalAccountRuntimeConfig "app_live"
      "polymarket.account.wallet_route must match polymarket.account.signature_type")
  else Ok ().

Definition app_validate_relayer_auth_view (auth : PolymarketRelayerAuthToml) :
    result ConfigError () :=
  _ ← require_non_empty_relayer_field (prt_api_key auth) "polymarket.relayer_auth.api_key";
  match prt_kind auth with
  | BuilderApiKey =>
      _ ← require_non_empty_optional_relayer_field (prt_passphrase auth)
            "polymarket.relayer_auth.passphrase";
      if bool_decide (is_Some (prt_secret auth)) then
        _ ← require_non_empty_optional_relayer_field (prt_secret auth)
              "polymarket.relayer_auth.secret";
        Ok ()
      else
        _ ← require_non_empty_optional_relayer_field (prt_timestamp auth)
              "polymarket.relayer_auth.timestamp";
        _ ← require_non_empty_optional_relayer_field (prt_signature auth)
              "polymarket.relayer_auth.signature";
        Ok ()
  | RelayerApiKey =>
      _ ← require_non_empty_optional_relayer_field (prt_address auth)
            "polymarket.relayer_auth.address";
      Ok ()
  end.

Definition gateway_credentials_from_account (account : PolymarketAccountToml) :
    PolymarketGatewayCredentials :=
  {| gc_address := pat_address account;
     gc_funder_address := default (pat_address account) (pat_funder_address account);
     gc_signature_type := toml_signature_type_label (pat_signature_type account);
     gc_wallet_route := toml_wallet_route_label (pat_wallet_route account);
     gc_api_key := pat_api_key account; gc_secret := pat_secret account;
     gc_passphrase := pat_passphrase account |}.

Definition signer_identity_from_credentials (c : PolymarketGatewayCredentials) :
    LocalSignerIdentity :=
  {| ls_address := gc_address c; ls_funder_address := gc_funder_address c;
     ls_signature_type := gc_signature_type c; ls_wallet_route := gc_wallet_route c |}.

Definition signer_unsupported {A} : result ConfigError A :=
  Err (InvalidLocalAccountRuntimeConfig "app_live"
         "polymarket.signer is no longer supported; use polymarket.account").

(** [PolymarketGatewayCredentials::try_from(config)] *)
Definition gateway_credentials_try_from (raw : RawAxiomConfig) :
    result ConfigError PolymarketGatewayCredentials :=
  if has_polymarket_signer raw then signer_unsupported
  else
    account ← ok_or (raw_account raw) MissingPolymarketGatewayCredentials;
    _ ← app_validate_account_view account;
    Ok (gateway_credentials_from_account account).

(** [LocalAccountRuntimeConfig::try_from(config)] *)
Definition account_runtime_try_from (now : DateTime) (raw : RawAxiomConfig) :
    result ConfigError LocalAccountRuntimeConfig :=
  if has_polymarket_signer raw then signer_unsupported
  else
    credentials ← map_err (λ error, match error with
                                    | MissingPolymarketGatewayCredentials =>
                                        MissingLocalAccountRuntimeConfig
                                    | error => error
                                    end) (gateway_credentials_try_from raw);
    derived ← map_err (λ error, InvalidLocalAccountRuntimeConfig "app_live"
                                  (auth_error_text error))
                (derive_l2_auth_material (gc_api_key credentials) (gc_secret credentials)
                   (gc_passphrase credentials) now);
    Ok {| lac_signer := signer_identity_from_credentials credentials;
          lac_l2_auth := {| lh_api_key := dm_api_key derived;
                            lh_passphrase := dm_passphrase derived;
                            lh_timestamp := dm_timestamp derived;
                            lh_signature := dm_signature derived |} |}.

Definition map_relayer_auth (now : DateTime) (auth : PolymarketRelayerAuthToml) :
    result ConfigError LocalRelayerAuth :=
  _ ← app_validate_relayer_auth_view auth;
  match prt_kind auth with
  | BuilderApiKey =>
      passphrase ← require_non_empty_optional_relayer_field (prt_passphrase auth)
                     "polymarket.relayer_auth.passphrase";
      match prt_secret auth with
      | Some secret =>
          derived ← map_err (λ error, InvalidLocalRelayerRuntimeConfig "app_live"
                                        (auth_error_text error))
                      (derive_builder_relayer_auth_material (prt_api_key auth) secret passphrase
                         now);
          Ok (LocalBuilderApiKey (dm_api_key derived) (dm_timestamp derived)
                (dm_passphrase derived) (dm_signature derived))
      | None =>
          timestamp ← require_non_empty_optional_relayer_field (prt_timestamp auth)
                        "polymarket.relayer_auth.timestamp";
          signature ← require_non_empty_optional_relayer_field (prt_signature auth)
                        "polymarket.relayer_auth.signature";
          Ok (LocalBuilderApiKey (prt_api_key auth) timestamp passphrase signature)
      end
  | RelayerApiKey =>
      address ← require_non_empty_optional_relayer_field (prt_address auth)
                  "polymarket.relayer_auth.address";
      Ok (LocalRelayerApiKey (prt_api_key auth) address)
  end.

Definition relayer_optional_from (now : DateTime) (raw : RawAxiomConfig) :
    result ConfigError (option LocalRelayerRuntimeConfig) :=
  match raw_relayer_auth raw with
  | None => Ok None
  | Some auth => auth ← map_relayer_auth now auth; Ok (Some auth)
  end.

Definition relayer_required_from (now : DateTime) (raw : RawAxiomConfig) :
    result ConfigError LocalRelayerRuntimeConfig :=
  auth ← relayer_optional_from now raw;
  ok_or auth MissingLocalRelayerRuntimeConfig.

Definition map_account_error_to_signer_error (error : ConfigError) : ConfigError :=
  match error with
  | MissingLocalAccountRuntimeConfig => MissingLocalSignerConfig
  | InvalidLocalAccountRuntimeConfig value message => InvalidLocalSignerConfig value message
  | other => other
  end.

Definition map_relayer_error_to_signer_error (error : ConfigError) : ConfigError :=
  match error with
  | MissingLocalRelayerRuntimeConfig => MissingLocalSignerConfig
  | InvalidLocalRelayerRuntimeConfig value message => InvalidLocalSignerConfig value message
  | other => other
  end.

(** [LocalSignerConfig::try_from(config)]; the clock is read for each part. *)
Definition signer_config_try_from (account_now relayer_now : DateTime) (raw : RawAxiomConfig) :
    result ConfigError LocalSignerConfig :=
  account ← map_err map_account_error_to_signer_error (account_runtime_try_from account_now raw);
  relayer ← map_err map_relayer_error_to_signer_error (relayer_required_from relayer_now raw);
  Ok {| lsc_signer := lac_signer account; lsc_l2_auth := lac_l2_auth account;
        lsc_relayer_auth := relayer |}.

Definition account_config_of_signer_config (c : LocalSignerConfig) : LocalAccountRuntimeConfig :=
  {| lac_signer := lsc_signer c; lac_l2_auth := lsc_l2_auth c |}.

Definition runtime_wallet_kind (raw : RawAxiomConfig) : option RuntimeWalletKind :=
  _ ← raw_account raw;
  Some (if bool_decide (is_Some (raw_relayer_auth raw)) then RuntimeWalletNonEoa
        else RuntimeWalletEoa).

Definition runtime_wallet_kind_requires_relayer (raw : RawAxiomConfig) : bool :=
  match runtime_wallet_kind raw with Some RuntimeWalletNonEoa => true | _ => false end.

(** ** Sources *)

Definition source_error {A} (value message : string) : result ConfigError A :=
  Err (InvalidPolymarketSourceConfig value message).

Definition parse_source_url (field value : string) (allowed_schemes : list string)
    (raw_json : string) : result ConfigError Url :=
  url ← map_err (λ error, InvalidPolymarketSourceConfig raw_json (field +:+ ": " +:+ error))
          (url_parse value);
  if bool_decide (url_scheme url ∉ allowed_schemes) then
    source_error raw_json (field +:+ ": unsupported scheme '" +:+ url_scheme url +:+
      "', expected one of: " +:+ join ", " allowed_schemes)
  else Ok url.

Definition parse_host_url (field value : string) (allowed_schemes : list string)
    (raw_json : string) : result ConfigError Url :=
  url ← parse_source_url field value allowed_schemes raw_json;
  if bool_decide (url_host_str url = None) then
    source_error raw_json (field +:+ ": must include a host")
  else if bool_decide (url_path url ≠ "/") then
    source_error raw_json (field +:+ ": host URL must not include a path")
  else if bool_decide (url_query url ≠ None) then
    source_error raw_json (field +:+ ": host URL must not include a query string")
  else if bool_decide (url_fragment url ≠ None) then
    source_error raw_json (field +:+ ": host URL must not include a fragment")
  else Ok url.

Definition parse_positive_interval (field : string) (value : Z) (raw_json : string) :
    result ConfigError Z :=
  if bool_decide (0 < value) then Ok value else source_error raw_json (field +:+ ": must be > 0").

Definition source_config_from_view (source : PolymarketSourceToml) :
    result ConfigError PolymarketSourceConfig :=
  let http := ["http"; "https"] in
  let ws := ["ws"; "wss"] in
  clob_host ← parse_host_url "polymarket.source.clob_host" (pst_clob_host source) http
                "app_live";
  data_api_host ← parse_host_url "polymarket.source.data_api_host" (pst_data_api_host source)
                    http "app_live";
  relayer_host ← parse_host_url "polymarket.source.relayer_host" (pst_relayer_host source) http
                   "app_live";
  market_ws_url ← parse_source_url "polymarket.source.market_ws_url" (pst_market_ws_url source)
                    ws "app_live";
  user_ws_url ← parse_source_url "polymarket.source.user_ws_url" (pst_user_ws_url source) ws
                  "app_live";
  heartbeat ← parse_positive_interval "polymarket.source.heartbeat_interval_seconds"
                (pst_heartbeat_interval_seconds source) "app_live";
  relayer_poll ← parse_positive_interval "polymarket.source.relayer_poll_interval_seconds"
                   (pst_relayer_poll_interval_seconds source) "app_live";
  metadata_refresh ← parse_positive_interval
                       "polymarket.source.metadata_refresh_interval_seconds"
                       (pst_metadata_refresh_interval_seconds source) "app_live";
  Ok {| psc_clob_host := clob_host; psc_data_api_host := data_api_host;
        psc_relayer_host := relayer_host; psc_market_ws_url := market_ws_url;
        psc_user_ws_url := user_ws_url; psc_heartbeat_interval_seconds := heartbeat;
        psc_relayer_poll_interval_seconds := relayer_poll;
        psc_metadata_refresh_interval_seconds := metadata_refresh |}.

(** [PolymarketSourceConfig::try_from(config)] *)
Definition source_config_try_from (raw : RawAxiomConfig) :
    result ConfigError PolymarketSourceConfig :=
  source ← ok_or (effective_polymarket_source raw) MissingPolymarketSourceConfig;
  source_config_from_view source.
End config.
