(* ===== verification/Schema.v ===== *)
(** * The durable store

    The tables [migrations/*.sql] create, as finite maps keyed by their primary
    keys, and the two ways the repositories run SQL: statements inside a
    transaction ([Tx]), and statements on the pool ([Pool]), between which other
    sessions may commit and the connection may be lost. *)

From S2P Require Import Prelude Text RecordSet Externals Json Domain LiveRecords Discovery Rows.

(** ** Tables

    A column of an enumeration is TEXT. Columns the repositories never read
    ([created_at] of the identifier tables, [updated_at] of the progress row, ..)
    are left out. [TIMESTAMPTZ DEFAULT NOW()] columns that are read are kept. *)

Record EventColumns := { ev_family_id : string; ev_name : string }.
Record MarketColumns := {
  mk_condition_id : string;
  mk_event_id : string;
  mk_route : string;
}.
Record TokenColumns := { tk_condition_id : string; tk_outcome_label : string }.

Section schema.
Context {X : Externals}.

Record AttemptColumns := {
  at_plan_id : string;
  at_snapshot_id : string;
  at_route : string;
  at_scope : string;
  at_matched_rule_id : option string;
  at_execution_mode : string;
  at_attempt_no : Z;
  at_idempotency_key : string;
  at_run_session_id : option string;
  at_created_at : DateTime;
}.

Record Db := {
  db_event_families : gmap string string;
  db_events : gmap string EventColumns;
  db_conditions : gmap string string;
  db_markets : gmap string MarketColumns;
  db_tokens : gmap string TokenColumns;
  db_identifier_map : gmap string IdentifierRecordRow;
  db_orders : gmap string OrderRow;
  db_approval_states : gmap ApprovalKey ApprovalStateRow;
  db_inventory_buckets : gmap (string * string * string) InventoryBucketRow;
  db_resolution_states : gmap string ResolutionStateRow;
  db_family_validations : gmap string NegRiskFamilyValidationRow;
  db_family_halts : gmap string FamilyHaltRow;
  db_event_journal : gmap Z JournalEntryRow;
  db_runtime_progress : gmap string RuntimeProgressRow;
  db_run_sessions : gmap string (RunSessionOf string DateTime);
  db_snapshot_publications : gmap string SnapshotPublicationRow;
  db_execution_attempts : gmap string AttemptColumns;
  db_pending_reconcile : gmap string (PendingReconcileRow * DateTime);
  db_live_submissions : gmap string (LiveSubmissionRecordRow * DateTime);
  db_shadow_artifacts : gmap Z ShadowExecutionArtifactRow;
  db_live_artifacts : gmap (string * string) Json;
  db_candidate_target_sets : gmap string CandidateTargetSetRow;
  db_adoptable_target_revisions : gmap string AdoptableTargetRevisionRow;
  db_candidate_provenance : gmap string CandidateAdoptionProvenanceRow;
  db_target_history : gmap string (OperatorTargetAdoptionHistoryRow * Z);
  db_strategy_candidate_sets : gmap string StrategyCandidateSetRow;
  db_adoptable_strategy_revisions : gmap string AdoptableStrategyRevisionRow;
  db_strategy_provenance : gmap string StrategyAdoptionProvenanceRow;
  db_strategy_history : gmap string (OperatorStrategyAdoptionHistoryRow * Z);
  db_discover_refresh : gmap Z string;
  (* tables no repository writes, referenced by the inventory *)
  db_ctf_operations : gset string;
  db_relayer_transactions : gset string;
  (* BIGSERIAL sequences: the next value, also consumed by inserts that fail *)
  db_journal_seq : Z;
  db_artifact_seq : Z;
  db_target_history_seq : Z;
  db_strategy_history_seq : Z;
  db_refresh_seq : Z;
}.

#[export] Instance Db_eta : Eta Db := λ d,
  {| db_event_families := db_event_families d; db_events := db_events d;
     db_conditions := db_conditions d; db_markets := db_markets d; db_tokens := db_tokens d;
     db_identifier_map := db_identifier_map d; db_orders := db_orders d;
     db_approval_states := db_approval_states d;
     db_inventory_buckets := db_inventory_buckets d;
     db_resolution_states := db_resolution_states d;
     db_family_validations := db_family_validations d; db_family_halts := db_family_halts d;
     db_event_journal := db_event_journal d; db_runtime_progress := db_runtime_progress d;
     db_run_sessions := db_run_sessions d;
     db_snapshot_publications := db_snapshot_publications d;
     db_execution_attempts := db_execution_attempts d;
     db_pending_reconcile := db_pending_reconcile d;
     db_live_submissions := db_live_submissions d; db_shadow_artifacts := db_shadow_artifacts d;
     db_live_artifacts := db_live_artifacts d;
     db_candidate_target_sets := db_candidate_target_sets d;
     db_adoptable_target_revisions := db_adoptable_target_revisions d;
     db_candidate_provenance := db_candidate_provenance d;
     db_target_history := db_target_history d;
     db_strategy_candidate_sets := db_strategy_candidate_sets d;
     db_adoptable_strategy_revisions := db_adoptable_strategy_revisions d;
     db_strategy_provenance := db_strategy_provenance d;
     db_strategy_history := db_strategy_history d; db_discover_refresh := db_discover_refresh d;
     db_ctf_operations := db_ctf_operations d;
     db_relayer_transactions := db_relayer_transactions d;
     db_journal_seq := db_journal_seq d; db_artifact_seq := db_artifact_seq d;
     db_target_history_seq := db_target_history_seq d;
     db_strategy_history_seq := db_strategy_history_seq d;
     db_refresh_seq := db_refresh_seq d |}.

(** The tables right after the migrations. *)
Definition db_empty : Db :=
  {| db_event_families := ∅; db_events := ∅; db_conditions := ∅; db_markets := ∅;
     db_tokens := ∅; db_identifier_map := ∅; db_orders := ∅; db_approval_states := ∅;
     db_inventory_buckets := ∅; db_resolution_states := ∅; db_family_validations := ∅;
     db_family_halts := ∅; db_event_journal := ∅; db_runtime_progress := ∅;
     db_run_sessions := ∅; db_snapshot_publications := ∅; db_execution_attempts := ∅;
     db_pending_reconcile := ∅; db_live_submissions := ∅; db_shadow_artifacts := ∅;
     db_live_artifacts := ∅; db_candidate_target_sets := ∅;
     db_adoptable_target_revisions := ∅; db_candidate_provenance := ∅; db_target_history := ∅;
     db_strategy_candidate_sets := ∅; db_adoptable_strategy_revisions := ∅;
     db_strategy_provenance := ∅; db_strategy_history := ∅; db_discover_refresh := ∅;
     db_ctf_operations := ∅; db_relayer_transactions := ∅;
     db_journal_seq := 1; db_artifact_seq := 1; db_target_history_seq := 1;
     db_strategy_history_seq := 1; db_refresh_seq := 1 |}.

(** What a rollback restores: everything but the sequences. *)
Definition rollback (before after : Db) : Db :=
  before <| db_journal_seq := db_journal_seq after |>
         <| db_artifact_seq := db_artifact_seq after |>
         <| db_target_history_seq := db_target_history_seq after |>
         <| db_strategy_history_seq := db_strategy_history_seq after |>
         <| db_refresh_seq := db_refresh_seq after |>.

(** ** Statements

    A statement runs at an instant ([NOW()]) on the tables. It ends with a value, an
    error, or a panic of the code around it. *)
Inductive Stop := Fails (e : PersistenceError) | Panicked.

Definition Tx (A : Type) : Type := DateTime → Db → Db * result Stop A.

#[export] Instance tx_ret : MRet Tx := λ A a now db, (db, Ok a).
#[export] Instance tx_bind : MBind Tx := λ A B f m now db,
  match m now db with
  | (db, Ok a) => f a now db
  | (db, Err e) => (db, Err e)
  end.

Definition tx_fail {A} (e : PersistenceError) : Tx A := λ _ db, (db, Err (Fails e)).
Definition tx_of {A} (r : result PersistenceError A) : Tx A := λ _ db,
  (db, map_err Fails r).

(** [SELECT]: a function of the tables. *)
Definition query {A} (f : Db → A) : Tx A := λ _ db, (db, Ok (f db)).

(** [UPDATE], [DELETE] and upserts: a change of the tables. *)
Definition exec (f : Db → Db) : Tx () := λ _ db, (f db, Ok ()).

(** The same with [NOW()]. *)
Definition exec_at (f : DateTime → Db → Db) : Tx () := λ now db, (f now db, Ok ()).

(** [option.expect(..)] *)
Definition tx_expect {A} (o : option A) : Tx A := λ _ db,
  (db, match o with Some a => Ok a | None => Err Panicked end).

(** An [INSERT] without [ON CONFLICT]: the code looks at the constraint that was
    violated, so the error is a value. *)
Definition Insert : Type := Tx (result SqlError ()).

(** [.execute(..).await?] *)
Definition sqlx_ok (i : Insert) : Tx () := r ← i; tx_of (map_err Sqlx r).

(** [for x in xs { f(x).await?; }] *)
Fixpoint tx_each {A} (f : A → Tx ()) (xs : list A) : Tx () :=
  match xs with
  | [] => mret ()
  | x :: xs' => _ ← f x; tx_each f xs'
  end.

(** ** Sessions

    [fr_commits n] is what other sessions commit just before the [n]-th statement
    or transaction of this one, [fr_now n] the time at which it runs, and
    [fr_up n] whether the connection is still there. A transaction runs as one
    step: the isolation between its statements is not modelled. *)
Record Schedule := {
  fr_now : nat → DateTime;
  fr_commits : nat → Db → Db;
  fr_up : nat → bool;
}.

Definition Pool (A : Type) : Type := Schedule → nat * Db → (nat * Db) * result Stop A.

#[export] Instance pool_ret : MRet Pool := λ A a env st, (st, Ok a).
#[export] Instance pool_bind : MBind Pool := λ A B f m env st,
  match m env st with
  | (st, Ok a) => f a env st
  | (st, Err e) => (st, Err e)
  end.

Definition pool_fail {A} (e : PersistenceError) : Pool A := λ _ st, (st, Err (Fails e)).
Definition pool_of {A} (r : result PersistenceError A) : Pool A := λ _ st,
  (st, map_err Fails r).
Definition pool_expect {A} (o : option A) : Pool A := λ _ st,
  (st, match o with Some a => Ok a | None => Err Panicked end).

(** One statement on the pool. *)
Definition stmt {A} (f : Tx A) : Pool A := λ env '(n, db),
  let db := fr_commits env n db in
  if fr_up env n then
    let '(db, r) := f (fr_now env n) db in ((S n, db), r)
  else ((S n, db), Err (Fails (Sqlx SqlFailed))).

(** [pool.begin()] .. [tx.commit()]: dropped without a commit, it is rolled back. *)
Definition transaction {A} (f : Tx A) : Pool A :=
  stmt (λ now db, match f now db with
                  | (db', Ok a) => (db', Ok a)
                  | (db', Err e) => (rollback db db', Err e)
                  end).

(** A session nobody disturbs. *)
Definition quiet (now : DateTime) : Schedule :=
  {| fr_now _ := now; fr_commits _ db := db; fr_up _ := true |}.

Definition run_quiet {A} (m : Pool A) (now : DateTime) (db : Db) : Db * result Stop A :=
  let '((_, db), r) := m (quiet now) (0%nat, db) in (db, r).

(** [SELECT .. FROM table WHERE p ORDER BY cmp] *)
Definition select {K V} `{Countable K} (table : gmap K V) (p : K → V → bool)
    (cmp : (K * V) → (K * V) → comparison) : list (K * V) :=
  sort_by cmp (List.filter (λ kv, p kv.1 kv.2) (map_to_list table)).

(** [EXISTS (SELECT 1 FROM table WHERE p)] *)
Definition has_row {K V} `{Countable K} (table : gmap K V) (p : K → V → bool) : bool :=
  existsb (λ kv, p kv.1 kv.2) (map_to_list table).

(** [nextval]: an error once the largest BIGINT was handed out. *)
Definition nextval (seq : Z) : option Z := if bool_decide (seq < 2 ^ 63) then Some seq else None.

(** [LIMIT n]: a negative limit is an error. *)
Definition limited {A} (n : Z) (rows : list A) : Tx (list A) :=
  if bool_decide (n < 0) then tx_fail (Sqlx SqlFailed) else mret (take (Z.to_nat n) rows).

(** [rows.into_iter().map(f).collect::<Result<Vec<_>>>()] *)
Definition collect_rows {A B} (f : A → result PersistenceError B) (rows : list A) : Tx (list B) :=
  tx_of (collect_results f rows).
End schema.

#[global] Arguments Tx {_} _.
#[global] Arguments Pool {_} _.

(** ** Lemmas *)

Lemma has_row_spec {K V} `{Countable K} (table : gmap K V) p :
  has_row table p = true ↔ ∃ k v, table !! k = Some v ∧ p k v = true.
Proof.
  unfold has_row. rewrite existsb_exists. split.
  - intros ([k v] & Hin%list_elem_of_In & Hp). exists k, v. by rewrite <- elem_of_map_to_list.
  - intros (k & v & Hl & Hp). exists (k, v). split; [|done].
    by apply list_elem_of_In, elem_of_map_to_list.
Qed.

Lemma has_row_false {K V} `{Countable K} (table : gmap K V) p :
  has_row table p = false ↔ ∀ k v, table !! k = Some v → p k v = false.
Proof.
  rewrite <- not_true_iff_false, has_row_spec. split.
  - intros Hn k v Hl. apply not_true_iff_false. intros Hp. apply Hn. eauto.
  - intros Hf (k & v & Hl & Hp). rewrite (Hf k v Hl) in Hp. done.
Qed.

Lemma elem_of_select {K V} `{Countable K} (table : gmap K V) p cmp k v :
  (k, v) ∈ select table p cmp ↔ table !! k = Some v ∧ p k v = true.
Proof.
  unfold select. rewrite elem_of_sort_by, list_elem_of_In, filter_In, <- list_elem_of_In,
    elem_of_map_to_list. done.
Qed.

Lemma NoDup_select_keys {K V} `{Countable K} (table : gmap K V) p cmp :
  NoDup (select table p cmp).*1.
Proof.
  unfold select. rewrite sort_by_Permutation.
  apply (sublist_NoDup _ (map_to_list table).*1); [apply NoDup_fst_map_to_list|].
  induction (map_to_list table) as [|x l IH]; simpl; [done|].
  destruct (p x.1 x.2); simpl; by constructor.
Qed.

(** *** Undisturbed runs, as a big-step relation *)

Section runs.
Context {X : Externals}.

Definition runs {E A} (m : Schedule → nat * Db → (nat * Db) * result E A) (now : DateTime)
    (db db' : Db) (r : result E A) : Prop :=
  ∀ n, ∃ n', m (quiet now) (n, db) = ((n', db'), r).

Lemma runs_det {E A} (m : Schedule → nat * Db → (nat * Db) * result E A) now db db1 db2 r1 r2 :
  runs m now db db1 r1 → runs m now db db2 r2 → db1 = db2 ∧ r1 = r2.
Proof. intros H1 H2. destruct (H1 0%nat) as [? E1], (H2 0%nat) as [? E2]. split; congruence. Qed.

Lemma runs_run_quiet {A} (m : Pool A) now db db' r :
  runs m now db db' r → run_quiet m now db = (db', r).
Proof. intros Hr. unfold run_quiet. by destruct (Hr 0%nat) as [? ->]. Qed.

Lemma runs_ret {A} (a : A) now db : runs (mret a : Pool A) now db db (Ok a).
Proof. intros n. by exists n. Qed.

Lemma runs_fail {A} e now db : runs (pool_fail e : Pool A) now db db (Err (Fails e)).
Proof. intros n. by exists n. Qed.

Lemma runs_of {A} (r : result PersistenceError A) now db :
  runs (pool_of r) now db db (map_err Fails r).
Proof. intros n. by exists n. Qed.

Lemma runs_of_ok {A} (r : result PersistenceError A) a now db :
  r = Ok a → runs (pool_of r) now db db (Ok a).
Proof. intros ->. apply (runs_of (Ok a)). Qed.

Lemma runs_bind {A B} (m : Pool A) (f : A → Pool B) now db db1 db2 a r :
  runs m now db db1 (Ok a) → runs (f a) now db1 db2 r → runs (m ≫= f) now db db2 r.
Proof.
  intros Hm Hf n. destruct (Hm n) as [n1 E1]. destruct (Hf n1) as [n2 E2]. exists n2.
  unfold mbind, pool_bind. by rewrite E1.
Qed.

Lemma runs_bind_err {A B} (m : Pool A) (f : A → Pool B) now db db1 e :
  runs m now db db1 (Err e) → runs (m ≫= f) now db db1 (Err e).
Proof.
  intros Hm n. destruct (Hm n) as [n1 E1]. exists n1. unfold mbind, pool_bind. by rewrite E1.
Qed.

Lemma runs_stmt {A} (f : Tx A) now db db' r : f now db = (db', r) → runs (stmt f) now db db' r.
Proof. intros E n. exists (S n). unfold stmt; simpl. by rewrite E. Qed.

Lemma runs_query {A} (f : Db → A) now db : runs (stmt (query f)) now db db (Ok (f db)).
Proof. by apply runs_stmt. Qed.

Lemma runs_transaction_ok {A} (f : Tx A) now db db' a :
  f now db = (db', Ok a) → runs (transaction f) now db db' (Ok a).
Proof. intros E. apply runs_stmt. by rewrite E. Qed.

Lemma runs_transaction_err {A} (f : Tx A) now db db' e :
  f now db = (db', Err e) → runs (transaction f) now db (rollback db db') (Err e).
Proof. intros E. apply runs_stmt. by rewrite E. Qed.

(** *** What a transaction does, statement by statement *)

Lemma tx_bind_Ok {A B} (m : Tx A) (f : A → Tx B) now db db' b :
  (m ≫= f) now db = (db', Ok b) ↔
  ∃ db1 a, m now db = (db1, Ok a) ∧ f a now db1 = (db', Ok b).
Proof.
  unfold mbind, tx_bind. destruct (m now db) as [db1 [a|e]]; split.
  - intros E. eauto.
  - intros (?&?&[= -> ->]&?). done.
  - done.
  - intros (?&?&?&?). done.
Qed.

Lemma tx_bind_eq {A B} (m : Tx A) (f : A → Tx B) now db db1 a :
  m now db = (db1, Ok a) → (m ≫= f) now db = f a now db1.
Proof. intros E. unfold mbind, tx_bind. by rewrite E. Qed.

Lemma tx_bind_err {A B} (m : Tx A) (f : A → Tx B) now db db1 e :
  m now db = (db1, Err e) → (m ≫= f) now db = (db1, Err e).
Proof. intros E. unfold mbind, tx_bind. by rewrite E. Qed.

(** ** Relations every statement respects

    [R before after]: reflexive and transitive, and kept when a transaction is rolled
    back. Sequences only grow. *)

Record seqs_le (a b : Db) : Prop := {
  sle_journal : db_journal_seq a <= db_journal_seq b;
  sle_artifact : db_artifact_seq a <= db_artifact_seq b;
  sle_target : db_target_history_seq a <= db_target_history_seq b;
  sle_strategy : db_strategy_history_seq a <= db_strategy_history_seq b;
  sle_refresh : db_refresh_seq a <= db_refresh_seq b;
}.

#[export] Instance seqs_le_preorder : PreOrder seqs_le.
Proof.
  split; [intros a; split; lia|].
  intros a b c [] []; split; etrans; eassumption.
Qed.

Class StoreRel (R : Db → Db → Prop) : Prop := {
  #[global] store_rel_preorder :: PreOrder R;
  store_rel_seqs a b : R a b → seqs_le a b;
  store_rel_rollback a b : R a b → R a (rollback a b);
}.

Definition tx_in {A} (R : Db → Db → Prop) (f : Tx A) : Prop := ∀ now db, R db (f now db).1.

Definition pool_in {A E} (R : Db → Db → Prop)
    (m : Schedule → nat * Db → (nat * Db) * result E A) : Prop :=
  ∀ env n db, (∀ k d, R d (fr_commits env k d)) → R db (m env (n, db)).1.2.

Section within.
Context (R : Db → Db → Prop) `{!StoreRel R}.

Lemma tx_in_pure {A} (g : DateTime → Db → result Stop A) : tx_in R (λ now db, (db, g now db)).
Proof. intros now db. simpl. reflexivity. Qed.

Lemma tx_in_ret {A} (a : A) : tx_in R (mret a).
Proof. apply (tx_in_pure (λ _ _, Ok a)). Qed.
Lemma tx_in_fail {A} e : tx_in R (tx_fail e : Tx A).
Proof. apply (tx_in_pure (λ _ _, Err (Fails e))). Qed.
Lemma tx_in_of {A} (r : result PersistenceError A) : tx_in R (tx_of r).
Proof. apply (tx_in_pure (λ _ _, map_err Fails r)). Qed.
Lemma tx_in_query {A} (f : Db → A) : tx_in R (query f).
Proof. apply (tx_in_pure (λ _ db, Ok (f db))). Qed.
Lemma tx_in_expect {A} (o : option A) : tx_in R (tx_expect o).
Proof. apply (tx_in_pure (λ _ _, match o with Some a => Ok a | None => Err Panicked end)). Qed.
Lemma tx_in_exec f : (∀ db, R db (f db)) → tx_in R (exec f).
Proof. intros Hf now db. apply Hf. Qed.
Lemma tx_in_exec_at f : (∀ now db, R db (f now db)) → tx_in R (exec_at f).
Proof. intros Hf now db. apply Hf. Qed.

Lemma tx_in_bind {A B} (m : Tx A) (f : A → Tx B) :
  tx_in R m → (∀ a, tx_in R (f a)) → tx_in R (m ≫= f).
Proof.
  intros Hm Hf now db. unfold mbind, tx_bind. specialize (Hm now db).
  destruct (m now db) as [db1 [a|e]]; [|done]. simpl in Hm. etrans; [done|]. apply Hf.
Qed.

Lemma tx_in_each {A} (f : A → Tx ()) xs : (∀ x, tx_in R (f x)) → tx_in R (tx_each f xs).
Proof.
  intros Hf. induction xs; simpl; [apply tx_in_ret|]. apply tx_in_bind; [done|]. by intros _.
Qed.

Lemma pool_in_pure {A E} (g : Schedule → result E A) : pool_in R (λ env st, (st, g env)).
Proof. intros env n db _. simpl. reflexivity. Qed.

Lemma pool_in_ret {A} (a : A) : pool_in R (mret a : Pool A).
Proof. apply (pool_in_pure (λ _, Ok a)). Qed.
Lemma pool_in_fail {A} e : pool_in R (pool_fail e : Pool A).
Proof. apply (pool_in_pure (λ _, Err (Fails e))). Qed.
Lemma pool_in_of {A} (r : result PersistenceError A) : pool_in R (pool_of r).
Proof. apply (pool_in_pure (λ _, map_err Fails r)). Qed.
Lemma pool_in_expect {A} (o : option A) : pool_in R (pool_expect o).
Proof.
  apply (pool_in_pure (λ _, match o with Some a => Ok a | None => Err Panicked end)).
Qed.

Lemma pool_in_bind {A B} (m : Pool A) (f : A → Pool B) :
  pool_in R m → (∀ a, pool_in R (f a)) → pool_in R (m ≫= f).
Proof.
  intros Hm Hf env n db Hc. unfold mbind, pool_bind. specialize (Hm env n db Hc).
  destruct (m env (n, db)) as [[n1 db1] [a|e]]; [|done]. simpl in Hm. etrans; [done|].
  by apply Hf.
Qed.

Lemma pool_in_stmt {A} (f : Tx A) : tx_in R f → pool_in R (stmt f).
Proof.
  intros Hf env n db Hc. unfold stmt. destruct (fr_up env n); [|apply Hc].
  specialize (Hf (fr_now env n) (fr_commits env n db)).
  destruct (f (fr_now env n) (fr_commits env n db)) as [db' r]. simpl in *. etrans; [apply Hc|].
  done.
Qed.

Lemma pool_in_transaction {A} (f : Tx A) : tx_in R f → pool_in R (transaction f).
Proof.
  intros Hf. apply pool_in_stmt. intros now db. specialize (Hf now db).
  destruct (f now db) as [db' [a|e]]; simpl in *; [done|]. by apply store_rel_rollback.
Qed.

Lemma tx_in_if {A} (b : bool) (f g : Tx A) :
  tx_in R f → tx_in R g → tx_in R (if b then f else g).
Proof. by destruct b. Qed.
Lemma pool_in_if {A} (b : bool) (f g : Pool A) :
  pool_in R f → pool_in R g → pool_in R (if b then f else g).
Proof. by destruct b. Qed.
End within.
End runs.

Create HintDb store.
#[export] Hint Resolve tx_in_ret tx_in_fail tx_in_of tx_in_query tx_in_expect pool_in_ret
  pool_in_fail pool_in_of pool_in_expect pool_in_stmt pool_in_transaction : store.
#[export] Hint Extern 0 (StoreRel _) => typeclasses eauto : store.

(** Follows the structure of a transaction or a pool program down to its statements. *)
Ltac store_step :=
  first
    [ progress intros
    | apply tx_in_bind | apply pool_in_bind | apply tx_in_each
    | apply pool_in_transaction | apply pool_in_stmt
    | solve [eauto with store]
    | case_match ].
Ltac store_auto := repeat store_step.
