(* ===== verification/RepoJournal.v ===== *)
(** * Repositories: the event journal and the neg-risk family view

    [persistence/src/repos.rs]: [JournalRepo], [NegRiskFamilyRepo], the discovery
    snapshots and the reconciliation of the current family view with the latest of
    them. *)

From S2P Require Import Prelude Text RecordSet Externals Json Domain LiveRecords Discovery.
From S2P Require Import Rows Schema.

Section repo.
Context {X : Externals} {J : JsonOps} {P : PgOps}.

(** [a <= b] on TIMESTAMPTZ *)
Definition dt_leb (a b : DateTime) : bool := match dt_cmp a b with Gt => false | _ => true end.

(** [ORDER BY key DESC] *)
Definition desc {A} (cmp : A → A → comparison) (a b : A) : comparison := cmp b a.

(** ** The journal *)

Definition journal_entry_row (seq : Z) (entry : JournalEntryInput) (now : DateTime) :
    JournalEntryRow :=
  {| jr_journal_seq := seq; jr_stream := ji_stream entry; jr_source_kind := ji_source_kind entry;
     jr_source_session_id := ji_source_session_id entry;
     jr_source_event_id := ji_source_event_id entry; jr_dedupe_key := ji_dedupe_key entry;
     jr_causal_parent_id := ji_causal_parent_id entry; jr_event_type := ji_event_type entry;
     jr_event_ts := pg_time (ji_event_ts entry); jr_payload := ji_payload entry;
     jr_ingested_at := pg_time now |}.

(** [journal_seq] is taken from the sequence first; [dedupe_key] is unique, and the
    causal parent is an entry (possibly the new one). *)
Definition append_journal_entry (entry : JournalEntryInput) : Tx JournalEntryRow := λ now db,
  match nextval (db_journal_seq db) with
  | None => (db, Err (Fails (Sqlx SqlFailed)))
  | Some seq =>
      let db := db <| db_journal_seq := seq + 1 |> in
      let row := journal_entry_row seq entry now in
      let journal := <[seq := row]> (db_event_journal db) in
      if has_row (db_event_journal db)
           (λ _ r, bool_decide (jr_dedupe_key r = ji_dedupe_key entry)) then
        (db, Err (Fails (Sqlx (ConstraintViolated "idx_event_journal_dedupe_key"))))
      else if bool_decide (db_event_journal db !! seq ≠ None) then
        (db, Err (Fails (Sqlx (ConstraintViolated "event_journal_pkey"))))
      else if match ji_causal_parent_id entry with
              | Some parent => bool_decide (journal !! parent = None)
              | None => false
              end then
        (db, Err (Fails (Sqlx (ConstraintViolated "event_journal_causal_parent_id_fkey"))))
      else (db <| db_event_journal := journal |>, Ok row)
  end.

Definition journal_append (entry : JournalEntryInput) : Pool JournalEntryRow :=
  stmt (append_journal_entry entry).

Definition journal_rows (p : JournalEntryRow → bool) (db : Db) : list JournalEntryRow :=
  (select (db_event_journal db) (λ _, p) (cmp_on fst Z.compare)).*2.

Definition journal_list_after (after_seq limit : Z) : Pool (list JournalEntryRow) :=
  stmt (rows ← query (journal_rows (λ r, bool_decide (after_seq < jr_journal_seq r)));
        limited limit rows).

Definition journal_list_range (from_seq : Z) (to_seq : option Z) : Pool (list JournalEntryRow) :=
  match to_seq with
  | Some to_seq =>
      stmt (query (journal_rows (λ r, bool_decide (from_seq <= jr_journal_seq r) &&
                                      bool_decide (jr_journal_seq r <= to_seq))))
  | None => stmt (query (journal_rows (λ r, bool_decide (from_seq <= jr_journal_seq r))))
  end.

Definition journal_list_since (since : DateTime) : Pool (list JournalEntryRow) :=
  stmt (query (journal_rows (λ r, dt_leb (pg_time since) (jr_event_ts r) ||
                                  dt_leb (pg_time since) (jr_ingested_at r)))).

(** ** Discovery snapshots *)

Definition discovery_snapshot_fields (snapshot : NegRiskDiscoverySnapshotInput) :
    list (string * Json) :=
  [("discovery_revision", JNumber (dsi_discovery_revision snapshot));
   ("metadata_snapshot_hash", JString (dsi_metadata_snapshot_hash snapshot));
   ("discovered_family_count", JNumber (Z.of_nat (length (dsi_family_ids snapshot))));
   ("family_ids", JArray (JString <$> dsi_family_ids snapshot));
   ("captured_at", JString (rfc3339 (dsi_captured_at snapshot)))].

(** The loop over [extra_payload], in key order. *)
Fixpoint add_extra_payload (extra : list (string * Json)) (payload : list (string * Json)) :
    list (string * Json) :=
  match extra with
  | [] => payload
  | (key, value) :: extra' =>
      add_extra_payload extra'
        (if is_reserved_discovery_snapshot_key key then payload
         else field_insert key value payload)
  end.

Definition persist_discovery_snapshot (snapshot : NegRiskDiscoverySnapshotInput) :
    Pool JournalEntryRow :=
  let payload := sort_by (cmp_on fst str_cmp) (discovery_snapshot_fields snapshot) in
  let payload := match dsi_extra_payload snapshot with
    | JObject extra_payload => add_extra_payload extra_payload payload
    | _ => payload
    end in
  journal_append
    {| ji_stream := "neg_risk_discovery"; ji_source_kind := dsi_source_kind snapshot;
       ji_source_session_id := dsi_source_session_id snapshot;
       ji_source_event_id := dsi_source_event_id snapshot;
       ji_dedupe_key := dsi_dedupe_key snapshot; ji_causal_parent_id := None;
       ji_event_type := "neg_risk_discovery_snapshot";
       ji_event_ts := dsi_captured_at snapshot; ji_payload := JObject payload |}.

Definition family_ids_of_payload (payload : Json) : result PersistenceError (list string) :=
  _ ← ok_or (v ← json_get "discovery_revision" payload; json_as_i64 v)
        (InvalidValue "neg_risk_discovery_snapshot.discovery_revision" (json_text payload));
  items ← ok_or (v ← json_get "family_ids" payload; json_as_array v)
            (InvalidValue "neg_risk_discovery_snapshot.family_ids" (json_text payload));
  collect_results (λ item, ok_or (json_as_str item)
    (InvalidValue "neg_risk_discovery_snapshot.family_ids" (json_text item))) items.

(** [ORDER BY journal_seq DESC LIMIT 1] *)
Definition latest_discovery_payload (db : Db) : option Json :=
  (jr_payload ∘ snd) <$>
    head (select (db_event_journal db)
            (λ _ r, bool_decide (jr_event_type r = "neg_risk_discovery_snapshot"))
            (desc (cmp_on fst Z.compare))).

Definition latest_discovery_snapshot : Tx (option (list string)) :=
  payload ← query latest_discovery_payload;
  match payload with
  | None => mret None
  | Some payload => ids ← tx_of (family_ids_of_payload payload); mret (Some ids)
  end.

(** ** Metrics of the current view

    What is counted; the recorder itself is not modelled. *)

Definition count_authoritative_validation_rows (authoritative_family_ids : list string)
    (validation_status : string) : Tx Z :=
  query (λ db, Z.of_nat (length (List.filter (λ kv : string * NegRiskFamilyValidationRow,
    bool_decide (kv.1 ∈ authoritative_family_ids) &&
    bool_decide (fv_validation_status kv.2 = validation_status))
    (map_to_list (db_family_validations db))))).

Definition count_authoritative_halt_rows (authoritative_family_ids : list string) : Tx Z :=
  query (λ db, Z.of_nat (length (List.filter (λ kv : string * FamilyHaltRow,
    bool_decide (kv.1 ∈ authoritative_family_ids) && fh_halted kv.2)
    (map_to_list (db_family_halts db))))).

Definition record_authoritative_neg_risk_current_view_metrics : Pool (option (Z * Z * Z)) :=
  latest ← stmt latest_discovery_snapshot;
  match latest with
  | None => mret None
  | Some ids =>
      included_count ← stmt (count_authoritative_validation_rows ids "included");
      excluded_count ← stmt (count_authoritative_validation_rows ids "excluded");
      halt_count ← stmt (count_authoritative_halt_rows ids);
      mret (Some (included_count, excluded_count, halt_count))
  end.

(** An error of the metrics is only logged. *)
Definition refresh_authoritative_neg_risk_current_view_metrics_best_effort (enabled : bool) :
    Pool () := λ env st,
  if enabled then
    let '(st, r) := record_authoritative_neg_risk_current_view_metrics env st in
    (st, match r with Err Panicked => Err Panicked | _ => Ok () end)
  else (st, Ok ()).

(** ** Validations and halts *)

(** What the tables keep of a row: the columns, as [map_neg_risk_family_validation_row]
    and [map_family_halt_row] read them back. *)
Definition validation_columns (row : NegRiskFamilyValidationRow) : NegRiskFamilyValidationRow :=
  {| fv_event_family_id := fv_event_family_id row;
     fv_validation_status := fv_validation_status row;
     fv_exclusion_reason := fv_exclusion_reason row;
     fv_metadata_snapshot_hash := fv_metadata_snapshot_hash row;
     fv_last_seen_discovery_revision := fv_last_seen_discovery_revision row;
     fv_member_count := fv_member_count row; fv_first_seen_at := pg_time (fv_first_seen_at row);
     fv_last_seen_at := pg_time (fv_last_seen_at row);
     fv_validated_at := pg_time (fv_validated_at row);
     fv_updated_at := pg_time (fv_updated_at row); fv_member_vector := [];
     fv_source_kind := ""; fv_source_session_id := ""; fv_source_event_id := "";
     fv_event_ts := pg_time (fv_validated_at row) |}.

Definition halt_columns (row : FamilyHaltRow) : FamilyHaltRow :=
  {| fh_event_family_id := fh_event_family_id row; fh_halted := fh_halted row;
     fh_reason := fh_reason row; fh_blocks_new_risk := fh_blocks_new_risk row;
     fh_metadata_snapshot_hash := fh_metadata_snapshot_hash row;
     fh_last_seen_discovery_revision := fh_last_seen_discovery_revision row;
     fh_set_at := pg_time (fh_set_at row); fh_updated_at := pg_time (fh_updated_at row);
     fh_member_vector := []; fh_source_kind := ""; fh_source_session_id := "";
     fh_source_event_id := ""; fh_event_ts := pg_time (fh_set_at row) |}.

Definition validation_journal_entry (row : NegRiskFamilyValidationRow) : JournalEntryInput :=
  {| ji_stream := "neg_risk_family:" +:+ fv_event_family_id row;
     ji_source_kind := fv_source_kind row; ji_source_session_id := fv_source_session_id row;
     ji_source_event_id := fv_source_event_id row;
     ji_dedupe_key := "family_validation:" +:+ fv_event_family_id row +:+ ":" +:+
       pretty (fv_last_seen_discovery_revision row) +:+ ":" +:+
       fv_metadata_snapshot_hash row +:+ ":" +:+ fv_source_event_id row;
     ji_causal_parent_id := None; ji_event_type := "family_validation";
     ji_event_ts := fv_event_ts row;
     ji_payload := json_object
       [("event_family_id", JString (fv_event_family_id row));
        ("validation_status", JString (fv_validation_status row));
        ("exclusion_reason", json_option (fv_exclusion_reason row));
        ("metadata_snapshot_hash", JString (fv_metadata_snapshot_hash row));
        ("discovery_revision", JNumber (fv_last_seen_discovery_revision row));
        ("member_count", JNumber (fv_member_count row));
        ("first_seen_at", JString (rfc3339 (fv_first_seen_at row)));
        ("last_seen_at", JString (rfc3339 (fv_last_seen_at row)));
        ("validated_at", JString (rfc3339 (fv_validated_at row)));
        ("member_vector", member_vector_json (fv_member_vector row))] |}.

Definition halt_journal_entry (row : FamilyHaltRow) : JournalEntryInput :=
  {| ji_stream := "neg_risk_family:" +:+ fh_event_family_id row;
     ji_source_kind := fh_source_kind row; ji_source_session_id := fh_source_session_id row;
     ji_source_event_id := fh_source_event_id row;
     ji_dedupe_key := "family_halt:" +:+ fh_event_family_id row +:+ ":" +:+
       pretty (fh_last_seen_discovery_revision row) +:+ ":" +:+
       default "none" (fh_metadata_snapshot_hash row) +:+ ":" +:+ fh_source_event_id row;
     ji_causal_parent_id := None; ji_event_type := "family_halt";
     ji_event_ts := fh_event_ts row;
     ji_payload := json_object
       [("event_family_id", JString (fh_event_family_id row)); ("halted", JBool (fh_halted row));
        ("reason", json_option (fh_reason row));
        ("blocks_new_risk", JBool (fh_blocks_new_risk row));
        ("metadata_snapshot_hash", json_option (fh_metadata_snapshot_hash row));
        ("discovery_revision", JNumber (fh_last_seen_discovery_revision row));
        ("set_at", JString (rfc3339 (fh_set_at row)));
        ("member_vector", member_vector_json (fh_member_vector row))] |}.

(** [INSERT .. ON CONFLICT (event_family_id) DO UPDATE], and the journal entry; [None]
    when the row already says the same. *)
Definition upsert_validation_tx (row : NegRiskFamilyValidationRow) : Tx bool :=
  existing ← query (λ db, db_family_validations db !! fv_event_family_id row);
  if match existing with Some e => same_validation_state e row | None => false end
  then mret false
  else
    _ ← exec (λ db, db <| db_family_validations ::=
          insert (fv_event_family_id row) (validation_columns row) |>);
    _ ← append_journal_entry (validation_journal_entry row);
    mret true.

Definition upsert_validation_with_instrumentation (row : NegRiskFamilyValidationRow)
    (enabled : bool) : Pool () :=
  written ← transaction (upsert_validation_tx row);
  if (written : bool)
  then refresh_authoritative_neg_risk_current_view_metrics_best_effort enabled
  else mret ().

Definition upsert_halt_tx (row : FamilyHaltRow) : Tx bool :=
  existing ← query (λ db, db_family_halts db !! fh_event_family_id row);
  if match existing with Some e => same_halt_state e row | None => false end
  then mret false
  else
    _ ← exec (λ db, db <| db_family_halts ::=
          insert (fh_event_family_id row) (halt_columns row) |>);
    _ ← append_journal_entry (halt_journal_entry row);
    mret true.

Definition upsert_halt_with_instrumentation (row : FamilyHaltRow) (enabled : bool) : Pool () :=
  written ← transaction (upsert_halt_tx row);
  if (written : bool)
  then refresh_authoritative_neg_risk_current_view_metrics_best_effort enabled
  else mret ().

Definition upsert_validation (row : NegRiskFamilyValidationRow) : Pool () :=
  upsert_validation_with_instrumentation row false.
Definition upsert_halt (row : FamilyHaltRow) : Pool () :=
  upsert_halt_with_instrumentation row false.

Definition list_validations : Pool (list NegRiskFamilyValidationRow) :=
  stmt (query (λ db, (select (db_family_validations db) (λ _ _, true) (cmp_on fst text_cmp)).*2)).
Definition list_halts : Pool (list FamilyHaltRow) :=
  stmt (query (λ db, (select (db_family_halts db) (λ _ _, true) (cmp_on fst text_cmp)).*2)).

(** [DELETE .. WHERE NOT (event_family_id = ANY($1))] *)
Definition delete_families_not_in (family_ids : list string) : Tx () :=
  exec (λ db, db <| db_family_validations ::= filter (λ kv, kv.1 ∈ family_ids) |>
                 <| db_family_halts ::= filter (λ kv, kv.1 ∈ family_ids) |>).

(** The revision asked for only names the error. *)
Definition reconcile_current_family_view_with_instrumentation (discovery_revision : Z)
    (enabled : bool) : Pool () :=
  latest ← stmt latest_discovery_snapshot;
  match latest with
  | None => pool_fail (MissingDiscoverySnapshot discovery_revision)
  | Some family_ids =>
      _ ← transaction (delete_families_not_in family_ids);
      refresh_authoritative_neg_risk_current_view_metrics_best_effort enabled
  end.

Definition reconcile_current_family_view (discovery_revision : Z) : Pool () :=
  reconcile_current_family_view_with_instrumentation discovery_revision false.
End repo.
