(* ===== verification/RepoExecution.v ===== *)
(** * Repositories: execution attempts and what is recorded of them

    [persistence/src/repos.rs]: [ExecutionAttemptRepo], [PendingReconcileRepo],
    [LiveSubmissionRepo], [ShadowArtifactRepo], [LiveArtifactRepo], the shadow batch
    and [SnapshotPublicationRepo]. *)

From S2P Require Import Prelude Text RecordSet Externals Json Domain LiveRecords Discovery.
From S2P Require Import Rows Schema RepoJournal.

Section repo.
Context {X : Externals} {J : JsonOps} {P : PgOps}.

(** ** Attempts *)

Definition attempt_columns (row : ExecutionAttemptRow) (now : DateTime) : AttemptColumns :=
  {| at_plan_id := xr_plan_id row; at_snapshot_id := xr_snapshot_id row;
     at_route := xr_route row; at_scope := xr_scope row;
     at_matched_rule_id := xr_matched_rule_id row;
     at_execution_mode := execution_mode_to_str (xr_execution_mode row);
     at_attempt_no := xr_attempt_no row; at_idempotency_key := xr_idempotency_key row;
     at_run_session_id := xr_run_session_id row; at_created_at := pg_time now |}.

Definition map_execution_attempt_row (row : string * AttemptColumns) :
    result PersistenceError ExecutionAttemptRow :=
  execution_mode ← execution_mode_from_str (at_execution_mode row.2);
  Ok {| xr_attempt_id := row.1; xr_plan_id := at_plan_id row.2;
        xr_snapshot_id := at_snapshot_id row.2; xr_route := at_route row.2;
        xr_scope := at_scope row.2; xr_matched_rule_id := at_matched_rule_id row.2;
        xr_execution_mode := execution_mode; xr_attempt_no := at_attempt_no row.2;
        xr_idempotency_key := at_idempotency_key row.2;
        xr_run_session_id := at_run_session_id row.2 |}.

Definition map_legacy_execution_attempt_row (row : string * AttemptColumns) :
    result PersistenceError ExecutionAttemptRow :=
  execution_mode ← execution_mode_from_str (at_execution_mode row.2);
  Ok {| xr_attempt_id := row.1; xr_plan_id := at_plan_id row.2;
        xr_snapshot_id := at_snapshot_id row.2; xr_route := at_route row.2;
        xr_scope := at_scope row.2; xr_matched_rule_id := at_matched_rule_id row.2;
        xr_execution_mode := execution_mode; xr_attempt_no := at_attempt_no row.2;
        xr_idempotency_key := at_idempotency_key row.2; xr_run_session_id := None |}.

Definition map_execution_attempt_with_created_at_row (row : string * AttemptColumns) :
    result PersistenceError ExecutionAttemptWithCreatedAtRow :=
  attempt ← map_execution_attempt_row row;
  Ok {| xc_attempt := attempt; xc_created_at := at_created_at row.2 |}.

(** [run_session_id TEXT REFERENCES run_sessions] *)
Definition run_session_exists (db : Db) (run_session_id : option string) : bool :=
  match run_session_id with
  | Some id => bool_decide (db_run_sessions db !! id ≠ None)
  | None => true
  end.

Definition insert_execution_attempt (row : ExecutionAttemptRow) : Insert := λ now db,
  if bool_decide (db_execution_attempts db !! xr_attempt_id row ≠ None) then
    (db, Ok (Err (ConstraintViolated "execution_attempts_pkey")))
  else if negb (run_session_exists db (xr_run_session_id row)) then
    (db, Ok (Err (ConstraintViolated "execution_attempts_run_session_id_fkey")))
  else
    (db <| db_execution_attempts ::= insert (xr_attempt_id row) (attempt_columns row now) |>,
     Ok (Ok ())).

Definition append_execution_attempt (row : ExecutionAttemptRow) : Tx () :=
  result ← insert_execution_attempt row;
  match result with
  | Ok _ => mret ()
  | Err err =>
      if bool_decide (constraint_name err = Some "execution_attempts_pkey")
      then tx_fail (DuplicateExecutionAttempt (xr_attempt_id row))
      else tx_fail (Sqlx err)
  end.

Definition attempt_append (row : ExecutionAttemptRow) : Pool () :=
  stmt (append_execution_attempt row).

(** [created_at, attempt_id] *)
Definition attempt_order (a b : string * AttemptColumns) : comparison :=
  cmp_lex dt_cmp text_cmp (at_created_at a.2, a.1) (at_created_at b.2, b.1).

(** [execution_attempts_has_run_session_id]: the migrations add the column. *)
Definition execution_attempts_has_run_session_id : Tx bool := mret true.

Definition list_attempts_by_mode (mode : ExecutionMode) : Pool (list ExecutionAttemptRow) :=
  has_run_session_id ← stmt execution_attempts_has_run_session_id;
  rows ← stmt (query (λ db, select (db_execution_attempts db)
                (λ _ a, bool_decide (at_execution_mode a = execution_mode_to_str mode))
                attempt_order));
  if (has_run_session_id : bool)
  then pool_of (collect_results map_execution_attempt_row rows)
  else pool_of (collect_results map_legacy_execution_attempt_row rows).

Definition list_live_attempts : Pool (list ExecutionAttemptRow) := list_attempts_by_mode Live.
Definition list_shadow_attempts : Pool (list ExecutionAttemptRow) := list_attempts_by_mode Shadow.

Definition get_by_attempt_id (attempt_id : string) :
    Pool (option ExecutionAttemptWithCreatedAtRow) :=
  row ← stmt (query (λ db, db_execution_attempts db !! attempt_id));
  match row with
  | None => mret None
  | Some cols =>
      r ← pool_of (map_execution_attempt_with_created_at_row (attempt_id, cols)); mret (Some r)
  end.

(** [WHERE p ORDER BY created_at DESC, attempt_id DESC [LIMIT limit]] *)
Definition attempts_where (p : AttemptColumns → bool) (limit : option Z) :
    Pool (list ExecutionAttemptWithCreatedAtRow) :=
  rows ← stmt (rows ← query (λ db, select (db_execution_attempts db) (λ _, p)
                                     (desc attempt_order));
               match limit with Some n => limited n rows | None => mret rows end);
  pool_of (collect_results map_execution_attempt_with_created_at_row rows).

Definition mode_is (mode : ExecutionMode) (a : AttemptColumns) : bool :=
  bool_decide (at_execution_mode a = execution_mode_to_str mode).

Definition list_created_since (since : DateTime) :=
  attempts_where (λ a, dt_leb (pg_time since) (at_created_at a)) None.
Definition list_by_mode_with_created_at (mode : ExecutionMode) :=
  attempts_where (mode_is mode) None.
Definition list_by_mode_with_created_at_and_route (mode : ExecutionMode) (route : string) :=
  attempts_where (λ a, mode_is mode a && bool_decide (at_route a = route)) None.
Definition list_by_snapshot_id (snapshot_id : string) :=
  attempts_where (λ a, bool_decide (at_snapshot_id a = snapshot_id)) None.
Definition list_by_snapshot_id_and_route (snapshot_id route : string) :=
  attempts_where (λ a, bool_decide (at_snapshot_id a = snapshot_id) &&
                       bool_decide (at_route a = route)) None.
Definition list_recent_by_mode (mode : option ExecutionMode) (limit : Z) :=
  match mode with
  | Some mode => attempts_where (mode_is mode) (Some limit)
  | None => attempts_where (λ _, true) (Some limit)
  end.
Definition list_recent (limit : Z) := list_recent_by_mode None limit.
Definition list_recent_by_mode_and_route (mode : ExecutionMode) (route : string) (limit : Z) :=
  attempts_where (λ a, mode_is mode a && bool_decide (at_route a = route)) (Some limit).
Definition list_by_run_session_id (run_session_id : string) :=
  attempts_where (λ a, bool_decide (at_run_session_id a = Some run_session_id)) None.

(** ** Pending reconcile items *)

Definition insert_pending_reconcile (row : PendingReconcileRow) : Insert := λ now db,
  if bool_decide (db_pending_reconcile db !! pr_pending_ref row ≠ None) then
    (db, Ok (Err (ConstraintViolated "pending_reconcile_items_pkey")))
  else (db <| db_pending_reconcile ::= insert (pr_pending_ref row) (row, pg_time now) |>,
        Ok (Ok ())).

Definition pending_append (row : PendingReconcileRow) : Pool () :=
  _ ← pool_of (validate_pending_reconcile_row row);
  result ← stmt (insert_pending_reconcile row);
  match result with
  | Ok _ => mret ()
  | Err err =>
      if bool_decide (constraint_name err = Some "pending_reconcile_items_pkey")
      then pool_fail (DuplicatePendingReconcile (pr_pending_ref row))
      else pool_fail (Sqlx err)
  end.

Definition map_pending_reconcile_row (row : PendingReconcileRow) :
    result PersistenceError PendingReconcileRow :=
  _ ← validate_pending_reconcile_row row; Ok row.

Definition pending_list_all : Pool (list PendingReconcileRow) :=
  rows ← stmt (query (λ db, select (db_pending_reconcile db) (λ _ _, true)
                 (λ a b, cmp_lex dt_cmp text_cmp (a.2.2, a.1) (b.2.2, b.1))));
  pool_of (collect_results (map_pending_reconcile_row ∘ fst ∘ snd) rows).

(** ** Live submissions *)

Definition map_live_submission_record_row (row : LiveSubmissionRecordRow) :
    result PersistenceError LiveSubmissionRecordRow :=
  _ ← validate_live_submission_record_row row; Ok row.

(** The row joined with its attempt. *)
Definition map_live_submission_record_row_with_attempt
    (row : LiveSubmissionRecordRow * (string * string)) :
    result PersistenceError LiveSubmissionRecordRow :=
  let '(row, (attempt_route, attempt_scope)) := row in
  row ← map_live_submission_record_row row;
  _ ← validate_live_submission_record_against_attempt row attempt_route attempt_scope;
  Ok row.

(** [WHERE attempt_id = $1 AND execution_mode = 'live'] *)
Definition live_attempt (db : Db) (attempt_id : string) : option AttemptColumns :=
  a ← db_execution_attempts db !! attempt_id;
  if mode_is Live a then Some a else None.

(** The trigger lets only rows of live attempts pass; then [ON CONFLICT
    (submission_ref) DO NOTHING], and whether a row was written. *)
Definition insert_live_submission (row : LiveSubmissionRecordRow) : Tx bool := λ now db,
  if bool_decide (live_attempt db (lsr_attempt_id row) = None) then
    (db, Err (Fails (Sqlx SqlFailed)))
  else if bool_decide (db_live_submissions db !! lsr_submission_ref row ≠ None) then
    (db, Ok false)
  else (db <| db_live_submissions ::= insert (lsr_submission_ref row) (row, pg_time now) |>,
        Ok true).

(** A submission INNER JOINed with its attempt. *)
Definition join_attempt (db : Db) (row : LiveSubmissionRecordRow) :
    option (LiveSubmissionRecordRow * (string * string)) :=
  a ← db_execution_attempts db !! lsr_attempt_id row; Some (row, (at_route a, at_scope a)).

Definition submission_append (row : LiveSubmissionRecordRow) : Pool () :=
  _ ← pool_of (validate_live_submission_record_row row);
  attempt ← stmt (query (λ db, live_attempt db (lsr_attempt_id row)));
  match attempt with
  | None => pool_fail (LiveSubmissionRequiresLiveAttempt (lsr_submission_ref row)
                         (lsr_attempt_id row))
  | Some attempt =>
      _ ← pool_of (validate_live_submission_record_against_attempt row (at_route attempt)
                     (at_scope attempt));
      written ← stmt (insert_live_submission row);
      if (written : bool) then mret ()
      else
        existing ← stmt (query (λ db, '(existing, _) ←
                                        db_live_submissions db !! lsr_submission_ref row;
                                      join_attempt db existing));
        match existing with
        | Some existing =>
            existing ← pool_of (map_live_submission_record_row_with_attempt existing);
            if decide (existing = row) then mret ()
            else pool_fail (ConflictingLiveSubmissionRecord (lsr_submission_ref row))
        | None => pool_fail (LiveSubmissionRequiresLiveAttempt (lsr_submission_ref row)
                               (lsr_attempt_id row))
        end
  end.

(** [attempt_id, created_at, submission_ref] *)
Definition submission_order (a b : string * (LiveSubmissionRecordRow * DateTime)) : comparison :=
  cmp_lex text_cmp (cmp_lex dt_cmp text_cmp)
    (lsr_attempt_id a.2.1, (a.2.2, a.1)) (lsr_attempt_id b.2.1, (b.2.2, b.1)).

Definition submissions_where (p : LiveSubmissionRecordRow → bool) :
    Pool (list LiveSubmissionRecordRow) :=
  rows ← stmt (query (λ db, omap (join_attempt db ∘ fst ∘ snd)
                 (select (db_live_submissions db) (λ _ r, p r.1) submission_order)));
  pool_of (collect_results map_live_submission_record_row_with_attempt rows).

Definition submission_list_for_attempt (attempt_id : string) :
    Pool (list LiveSubmissionRecordRow) :=
  submissions_where (λ r, bool_decide (lsr_attempt_id r = attempt_id)).

(** [map.entry(key(row)).or_default().push(row)] for every row. *)
Definition group_by {A} (key : A → string) (rows : list A) : gmap string (list A) :=
  foldl (λ m row, <[key row := default [] (m !! key row) ++ [row]]> m) ∅ rows.

Definition submission_list_for_attempts (attempt_ids : list string) :
    Pool (gmap string (list LiveSubmissionRecordRow)) :=
  if bool_decide (attempt_ids = []) then mret ∅
  else
    rows ← submissions_where (λ r, bool_decide (lsr_attempt_id r ∈ attempt_ids));
    mret (group_by lsr_attempt_id rows).

(** ** Shadow artifacts *)

(** [INSERT .. SELECT .. FROM execution_attempts WHERE .. execution_mode = 'shadow'] *)
Definition append_shadow_execution_artifact (row : ShadowExecutionArtifactRow) : Tx () := λ now db,
  match db_execution_attempts db !! xa_attempt_id row with
  | Some attempt =>
      if mode_is Shadow attempt then
        match nextval (db_artifact_seq db) with
        | None => (db, Err (Fails (Sqlx SqlFailed)))
        | Some artifact_id =>
            (db <| db_artifact_seq := artifact_id + 1 |>
                <| db_shadow_artifacts ::= insert artifact_id row |>, Ok ())
        end
      else (db, Err (Fails (ShadowArtifactRequiresShadowAttempt (xa_attempt_id row))))
  | None => (db, Err (Fails (ShadowArtifactRequiresShadowAttempt (xa_attempt_id row))))
  end.

Definition shadow_artifact_append (row : ShadowExecutionArtifactRow) : Pool () :=
  stmt (append_shadow_execution_artifact row).

(** Rows equal in the columns of [ORDER BY] are listed as they were inserted. *)
Definition shadow_list_for_attempts (attempt_ids : list string) :
    Pool (list ShadowExecutionArtifactRow) :=
  if bool_decide (attempt_ids = []) then mret []
  else
    stmt (query (λ db, (select (db_shadow_artifacts db)
                          (λ _ a, bool_decide (xa_attempt_id a ∈ attempt_ids))
                          (λ a b, cmp_lex text_cmp (cmp_lex text_cmp Z.compare)
                             (xa_attempt_id a.2, (xa_stream a.2, a.1))
                             (xa_attempt_id b.2, (xa_stream b.2, b.1)))).*2)).

(** [ON CONFLICT (attempt_id) DO NOTHING], and whether a row was written. *)
Definition insert_attempt_or_nothing (row : ExecutionAttemptRow) : Tx bool := λ now db,
  if bool_decide (db_execution_attempts db !! xr_attempt_id row ≠ None) then (db, Ok false)
  else if negb (run_session_exists db (xr_run_session_id row)) then
    (db, Err (Fails (Sqlx (ConstraintViolated "execution_attempts_run_session_id_fkey"))))
  else
    (db <| db_execution_attempts ::= insert (xr_attempt_id row) (attempt_columns row now) |>,
     Ok true).

Definition append_shadow_execution_attempt_idempotent (row : ExecutionAttemptRow) : Tx () :=
  written ← insert_attempt_or_nothing row;
  if (written : bool) then mret ()
  else
    cols ← query (λ db, db_execution_attempts db !! xr_attempt_id row);
    match cols with
    | Some cols =>
        existing ← tx_of (map_execution_attempt_row (xr_attempt_id row, cols));
        if shadow_attempt_rows_are_equivalent existing row then mret ()
        else tx_fail (DuplicateExecutionAttempt (xr_attempt_id row))
    | None => tx_fail (DuplicateExecutionAttempt (xr_attempt_id row))
    end.

(** [WHERE attempt_id = $1 AND stream = $2 ORDER BY artifact_id LIMIT 1] *)
Definition first_shadow_artifact (db : Db) (attempt_id stream : string) :
    option ShadowExecutionArtifactRow :=
  snd <$> head (select (db_shadow_artifacts db)
    (λ _ a, bool_decide (xa_attempt_id a = attempt_id) && bool_decide (xa_stream a = stream))
    (cmp_on fst Z.compare)).

Definition append_shadow_execution_artifact_idempotent (row : ShadowExecutionArtifactRow) :
    Tx () :=
  existing ← query (λ db, first_shadow_artifact db (xa_attempt_id row) (xa_stream row));
  match existing with
  | Some existing =>
      if decide (xa_payload existing = xa_payload row) then mret ()
      else tx_fail (InvalidValue "shadow_execution_artifacts.payload"
             ("attempt_id=" +:+ xa_attempt_id existing +:+ " stream=" +:+ xa_stream existing +:+
              " existing_payload=" +:+ json_text (xa_payload existing) +:+
              " desired_payload=" +:+ json_text (xa_payload row)))
  | None => append_shadow_execution_artifact row
  end.

(** ** Shadow batches *)

Definition first_attempt_id (attempts : list ExecutionAttemptRow) : string :=
  default "none" (xr_attempt_id <$> head attempts).
Definition last_attempt_id (attempts : list ExecutionAttemptRow) : string :=
  default "none" (xr_attempt_id <$> last attempts).

Definition shadow_batch_guard_key (attempts : list ExecutionAttemptRow) : string :=
  "run_session_id=" +:+ default "none" (a ← head attempts; xr_run_session_id a) +:+
  ";len=" +:+ pretty (length attempts) +:+
  ";first=" +:+ first_attempt_id attempts +:+ ";last=" +:+ last_attempt_id attempts.

(** The body of the first loop. [details] is what the error says about the session
    and the server, given how many rows the attempt already had. *)
Definition append_batch_attempt (details : Z → string) (attempt : ExecutionAttemptRow) : Tx () :=
  λ now db,
  let preexisting_visible_rows :=
    if bool_decide (db_execution_attempts db !! xr_attempt_id attempt = None) then 0 else 1 in
  match append_shadow_execution_attempt_idempotent attempt now db with
  | (db, Err (Fails (DuplicateExecutionAttempt _))) =>
      (db, Err (Fails (DuplicateExecutionAttempt
                         (xr_attempt_id attempt +:+ details preexisting_visible_rows))))
  | r => r
  end.

(** [active] are the batches running in this process ([ACTIVE_SHADOW_BATCHES]); the
    guard of this one is dropped when it returns. *)
Definition append_shadow_execution_batch (active : gset string) (details : Z → string)
    (attempts : list ExecutionAttemptRow) (artifacts : list ShadowExecutionArtifactRow) :
    Pool () :=
  let key := shadow_batch_guard_key attempts in
  if bool_decide (key ∈ active) then
    pool_fail (DuplicateExecutionAttempt ("shadow-batch-reentry:" +:+ key))
  else
    transaction (
      _ ← tx_each (append_batch_attempt details) attempts;
      tx_each append_shadow_execution_artifact_idempotent artifacts).

(** ** Live artifacts *)

(** [INSERT .. SELECT .. WHERE .. execution_mode = 'live' ON CONFLICT DO NOTHING]:
    whether a row was written. *)
Definition insert_live_artifact (row : LiveExecutionArtifactRow) : Tx bool := λ now db,
  if bool_decide (live_attempt db (lxa_attempt_id row) = None) then (db, Ok false)
  else if bool_decide (db_live_artifacts db !! (lxa_attempt_id row, lxa_stream row) ≠ None) then
    (db, Ok false)
  else (db <| db_live_artifacts ::= insert (lxa_attempt_id row, lxa_stream row)
                                      (lxa_payload row) |>, Ok true).

Definition live_artifact_append (row : LiveExecutionArtifactRow) : Pool () :=
  written ← stmt (insert_live_artifact row);
  if (written : bool) then mret ()
  else
    existing_payload ← stmt (query (λ db,
      db_live_artifacts db !! (lxa_attempt_id row, lxa_stream row)));
    match existing_payload with
    | Some payload =>
        if decide (payload = lxa_payload row) then mret ()
        else pool_fail (ConflictingLiveArtifactPayload (lxa_attempt_id row) (lxa_stream row))
    | None => pool_fail (LiveArtifactRequiresLiveAttempt (lxa_attempt_id row))
    end.

Definition live_artifact_rows (p : string → bool) (db : Db) : list LiveExecutionArtifactRow :=
  (λ kv, {| lxa_attempt_id := kv.1.1; lxa_stream := kv.1.2; lxa_payload := kv.2 |}) <$>
    select (db_live_artifacts db) (λ k _, p k.1) (cmp_on fst (cmp_lex text_cmp text_cmp)).

Definition live_artifact_list_for_attempt (attempt_id : string) :
    Pool (list LiveExecutionArtifactRow) :=
  stmt (query (live_artifact_rows (λ id, bool_decide (id = attempt_id)))).

Definition live_artifact_list_for_attempts (attempt_ids : list string) :
    Pool (gmap string (list LiveExecutionArtifactRow)) :=
  if bool_decide (attempt_ids = []) then mret ∅
  else
    rows ← stmt (query (live_artifact_rows (λ id, bool_decide (id ∈ attempt_ids))));
    mret (group_by lxa_attempt_id rows).

(** ** Snapshot publications *)

Definition snapshot_publication_upsert (row : SnapshotPublicationRow) : Pool () :=
  stmt (exec (λ db, db <| db_snapshot_publications ::= insert (sp_snapshot_id row)
    {| sp_snapshot_id := sp_snapshot_id row; sp_state_version := sp_state_version row;
       sp_committed_journal_seq := sp_committed_journal_seq row;
       sp_fullset_ready := sp_fullset_ready row; sp_negrisk_ready := sp_negrisk_ready row;
       sp_metadata := sp_metadata row; sp_published_at := pg_time (sp_published_at row) |} |>)).
End repo.
