(* ===== verification/RepoSessions.v ===== *)
(** * Repositories: run sessions and runtime progress

    [persistence/src/repos.rs]: [RunSessionRepo], the life of a run of the engine,
    and [RuntimeProgressRepo], the single row of durable anchors. *)

From S2P Require Import Prelude Text RecordSet Externals Json Domain LiveRecords Discovery.
From S2P Require Import Rows Schema RepoJournal RepoExecution.

Section repo.
Context {X : Externals} {J : JsonOps} {P : PgOps}.

(** ** Run sessions *)

Definition map_run_session_row (row : RunSessionOf string DateTime) :
    result PersistenceError RunSessionRow :=
  state ← run_session_state_from_str (run_state row);
  Ok (run_update row state (run_started_at row) (run_last_seen_at row) (run_ended_at row)
        (run_exit_status row) (run_exit_reason row)).

(** The columns [create_starting] writes. *)
Definition starting_columns (row : RunSessionRow) : RunSessionOf string DateTime :=
  run_update row (run_session_state_as_str (run_state row)) (pg_time (run_started_at row))
    (pg_time (run_last_seen_at row)) None None None.

Definition insert_run_session (row : RunSessionRow) : Insert := λ now db,
  if bool_decide (db_run_sessions db !! run_run_session_id row ≠ None) then
    (db, Ok (Err (ConstraintViolated "run_sessions_pkey")))
  else (db <| db_run_sessions ::= insert (run_run_session_id row) (starting_columns row) |>,
        Ok (Ok ())).

Definition create_starting (row : RunSessionRow) : Pool () :=
  if bool_decide (run_state row ≠ SessionStarting) then
    pool_fail (InvalidValue "run_session.state" (run_session_state_as_str (run_state row)))
  else if bool_decide (run_ended_at row ≠ None) || bool_decide (run_exit_status row ≠ None) ||
          bool_decide (run_exit_reason row ≠ None) then
    pool_fail (InvalidValue "run_session.starting_payload"
                 "terminal fields must be empty for starting sessions")
  else
    _ ← (if bool_decide (run_target_source_kind row = "adopted") &&
            bool_decide (run_configured_operator_target_revision row = None) &&
            bool_decide (run_configured_operator_strategy_revision row = None) then
           pool_fail (InvalidValue "run_session.configured_operator_strategy_revision"
             "adopted sessions require configured operator strategy revision")
         else if bool_decide (run_target_source_kind row = "explicit") ||
                 bool_decide (run_target_source_kind row = "adopted") then mret ()
         else pool_fail (InvalidValue "run_session.target_source_kind"
                           (run_target_source_kind row)));
    stmt (sqlx_ok (insert_run_session row)).

(** What a session becomes; the fields of the transition. *)
Record RunSessionTransition := {
  tr_run_session_id : string;
  tr_allowed_from : list RunSessionState;
  tr_to_state : RunSessionState;
  tr_changed_at : DateTime;
  tr_exit_status : option string;
  tr_exit_reason : option string;
}.

(** [GREATEST(a, b)] *)
Definition greatest (a b : DateTime) : DateTime := if dt_leb a b then b else a.

Definition is_terminal (s : RunSessionState) : bool :=
  match s with SessionExited | SessionFailed => true | _ => false end.

Definition transition_columns (t : RunSessionTransition) (row : RunSessionOf string DateTime) :
    RunSessionOf string DateTime :=
  run_update row (run_session_state_as_str (tr_to_state t)) (run_started_at row)
    (greatest (run_last_seen_at row) (pg_time (tr_changed_at t)))
    (if is_terminal (tr_to_state t) then Some (pg_time (tr_changed_at t)) else None)
    (tr_exit_status t) (tr_exit_reason t).

(** [SET last_seen_at = GREATEST(last_seen_at, $2)] *)
Definition seen_columns (seen_at : DateTime) (row : RunSessionOf string DateTime) :
    RunSessionOf string DateTime :=
  run_update row (run_state row) (run_started_at row)
    (greatest (run_last_seen_at row) (pg_time seen_at)) (run_ended_at row) (run_exit_status row)
    (run_exit_reason row).

(** [UPDATE run_sessions .. WHERE run_session_id = $1 AND state = ANY(labels)]: whether
    a row was changed. *)
Definition update_run_session (run_session_id : string) (labels : list string)
    (change : RunSessionOf string DateTime → RunSessionOf string DateTime) : Tx bool := λ now db,
  match db_run_sessions db !! run_session_id with
  | Some row =>
      if bool_decide (run_state row ∈ labels) then
        (db <| db_run_sessions ::= insert run_session_id (change row) |>, Ok true)
      else (db, Ok false)
  | None => (db, Ok false)
  end.

Definition current_state (run_session_id : string) : Pool (option RunSessionState) :=
  state ← stmt (query (λ db, run_state <$> db_run_sessions db !! run_session_id));
  match state with
  | None => mret None
  | Some value => s ← pool_of (run_session_state_from_str value); mret (Some s)
  end.

Definition classify_run_session_update_failure (run_session_id to_state : string) : Pool () :=
  current ← current_state run_session_id;
  match current with
  | Some current_state =>
      pool_fail (InvalidRunSessionTransition run_session_id
                   (run_session_state_as_str current_state) to_state)
  | None => pool_fail (MissingRunSessionRow run_session_id)
  end.

Definition transition_active_state (t : RunSessionTransition) : Pool () :=
  updated ← stmt (update_run_session (tr_run_session_id t)
                    (run_session_state_as_str <$> tr_allowed_from t) (transition_columns t));
  if (updated : bool) then mret ()
  else classify_run_session_update_failure (tr_run_session_id t)
         (run_session_state_as_str (tr_to_state t)).

Definition mark_running (run_session_id : string) (seen_at : DateTime) : Pool () :=
  transition_active_state
    {| tr_run_session_id := run_session_id; tr_allowed_from := [SessionStarting];
       tr_to_state := SessionRunning; tr_changed_at := seen_at; tr_exit_status := None;
       tr_exit_reason := None |}.

Definition mark_exited (run_session_id : string) (ended_at : DateTime) (exit_status : string)
    (exit_reason : option string) : Pool () :=
  transition_active_state
    {| tr_run_session_id := run_session_id;
       tr_allowed_from := [SessionStarting; SessionRunning]; tr_to_state := SessionExited;
       tr_changed_at := ended_at; tr_exit_status := Some exit_status;
       tr_exit_reason := exit_reason |}.

Definition mark_failed (run_session_id : string) (ended_at : DateTime) (exit_reason : string) :
    Pool () :=
  transition_active_state
    {| tr_run_session_id := run_session_id;
       tr_allowed_from := [SessionStarting; SessionRunning]; tr_to_state := SessionFailed;
       tr_changed_at := ended_at; tr_exit_status := Some "failed";
       tr_exit_reason := Some exit_reason |}.

Definition refresh_last_seen (run_session_id : string) (seen_at : DateTime) : Pool () :=
  updated ← stmt (update_run_session run_session_id ["starting"; "running"]
                    (seen_columns seen_at));
  if (updated : bool) then mret ()
  else classify_run_session_update_failure run_session_id "refresh_last_seen".

Definition opt_row {A B} (f : A → result PersistenceError B) (row : option A) : Pool (option B) :=
  match row with
  | None => mret None
  | Some row => r ← pool_of (f row); mret (Some r)
  end.

Definition session_get (run_session_id : string) : Pool (option RunSessionRow) :=
  row ← stmt (query (λ db, db_run_sessions db !! run_session_id));
  opt_row map_run_session_row row.

Definition load_with_projected_state (run_session_id : string) (stale_after : Duration)
    (now : DateTime) : Pool (option RunSessionProjectedRow) :=
  row ← session_get run_session_id;
  match row with
  | None => mret None
  | Some row => mret (Some (project_run_session_state row stale_after now))
  end.

Record LatestRelevantRunSessionQuery := {
  lq_mode : string;
  lq_config_path : string;
  lq_config_fingerprint : string;
  lq_configured_target : option string;
  lq_configured_strategy : option string;
  lq_startup_target_revision_at_start : string;
  lq_rollout_state : option string;
  lq_stale_after : Duration;
}.

Definition relevant_to (q : LatestRelevantRunSessionQuery) (r : RunSessionOf string DateTime) :
    bool :=
  bool_decide (run_mode r = lq_mode q) && bool_decide (run_config_path r = lq_config_path q) &&
  bool_decide (run_config_fingerprint r = lq_config_fingerprint q) &&
  bool_decide (run_configured_operator_target_revision r = lq_configured_target q) &&
  bool_decide (run_configured_operator_strategy_revision r = lq_configured_strategy q) &&
  bool_decide (run_startup_target_revision_at_start r = lq_startup_target_revision_at_start q) &&
  bool_decide (run_rollout_state_at_start r = lq_rollout_state q).

(** The CASE of [ORDER BY]: [last_seen_at > NOW() - stale_after]. *)
Definition session_rank (now : DateTime) (stale_after : Duration)
    (r : RunSessionOf string DateTime) : Z :=
  let fresh := negb (dt_leb (run_last_seen_at r)
                       (dt_minus_seconds now (dur_seconds stale_after))) in
  if bool_decide (run_state r = "running") then (if fresh then 0 else 3)
  else if bool_decide (run_state r = "starting") then (if fresh then 1 else 3)
  else if bool_decide (run_state r = "exited") then 2
  else if bool_decide (run_state r = "failed") then 2
  else 4.

Definition session_order (now : DateTime) (stale_after : Duration)
    (a b : string * RunSessionOf string DateTime) : comparison :=
  then_with (Z.compare (session_rank now stale_after a.2) (session_rank now stale_after b.2))
    (then_with (desc dt_cmp (default (run_started_at a.2) (run_ended_at a.2))
                            (default (run_started_at b.2) (run_ended_at b.2)))
       (then_with (desc dt_cmp (run_started_at a.2) (run_started_at b.2))
          (desc text_cmp a.1 b.1))).

Definition latest_relevant (q : LatestRelevantRunSessionQuery) : Pool (option RunSessionRow) :=
  row ← stmt ((λ now db, (db, Ok (snd <$> head (select (db_run_sessions db)
                (λ _, relevant_to q) (session_order now (lq_stale_after q)))))) :
              Tx (option (RunSessionOf string DateTime)));
  opt_row map_run_session_row row.

Definition conflicting_active_for_run_session (active_run_session_id : string) :
    Pool (option RunSessionRow) :=
  row ← stmt (query (λ db, r ← db_run_sessions db !! active_run_session_id;
                if bool_decide (run_state r ∈ ["starting"; "running"]) then Some r else None));
  opt_row map_run_session_row row.

Definition resolve_unique_for_attempt_id (attempt_id : string) : Pool (option RunSessionRow) :=
  row ← stmt (query (λ db, ea ← db_execution_attempts db !! attempt_id;
                id ← at_run_session_id ea; db_run_sessions db !! id));
  opt_row map_run_session_row row.

(** [ids.len() == 1]: the only element of a set of ids. *)
Definition only_id (ids : list string) : option string :=
  match remove_dups ids with [id] => Some id | _ => None end.

Definition journal_session_ids (rows : list JournalEntryRow) : list string :=
  List.filter (λ id, negb (bool_decide (id = ""))) (jr_source_session_id <$> rows).

Definition resolve_unique_for_since (since : DateTime) : Pool (option RunSessionRow) :=
  attempts ← list_created_since since;
  let run_session_ids := omap (xr_run_session_id ∘ xc_attempt) attempts in
  match only_id run_session_ids with
  | Some id => session_get id
  | None =>
      if negb (bool_decide (run_session_ids = [])) then mret None
      else
        rows ← journal_list_since since;
        match only_id (journal_session_ids rows) with
        | Some id => session_get id
        | None => mret None
        end
  end.

Definition resolve_unique_for_seq_range (from_seq : Z) (to_seq : option Z) :
    Pool (option RunSessionRow) :=
  rows ← journal_list_range from_seq to_seq;
  match only_id (journal_session_ids rows) with
  | Some id => session_get id
  | None => mret None
  end.

(** ** Runtime progress *)

Definition RUNTIME_PROGRESS_KEY : string := "default".

(** [COALESCE(a, b)] *)
Definition coalesce {A} (a b : option A) : option A :=
  match a with Some _ => a | None => b end.

(** The row after the upsert: anchors that are not given keep their value. *)
Definition merged_progress (row : RuntimeProgressRow) (existing : option RuntimeProgressRow) :
    RuntimeProgressRow :=
  {| rp_last_journal_seq := rp_last_journal_seq row;
     rp_last_state_version := rp_last_state_version row;
     rp_last_snapshot_id := rp_last_snapshot_id row;
     rp_operator_target_revision :=
       coalesce (rp_operator_target_revision row) (existing ≫= rp_operator_target_revision);
     rp_operator_strategy_revision :=
       coalesce (rp_operator_strategy_revision row) (existing ≫= rp_operator_strategy_revision);
     rp_active_run_session_id :=
       coalesce (rp_active_run_session_id row) (existing ≫= rp_active_run_session_id) |}.

Definition upsert_progress (row : RuntimeProgressRow) : Insert := λ now db,
  let merged := merged_progress row (db_runtime_progress db !! RUNTIME_PROGRESS_KEY) in
  if negb (run_session_exists db (rp_active_run_session_id merged)) then
    (db, Ok (Err (ConstraintViolated "runtime_apply_progress_active_run_session_id_fkey")))
  else (db <| db_runtime_progress ::= insert RUNTIME_PROGRESS_KEY merged |>, Ok (Ok ())).

Definition record_progress_with_strategy_revision (last_journal_seq last_state_version : Z)
    (last_snapshot_id operator_target_revision operator_strategy_revision
     active_run_session_id : option string) : Pool () :=
  stmt (sqlx_ok (upsert_progress
    {| rp_last_journal_seq := last_journal_seq; rp_last_state_version := last_state_version;
       rp_last_snapshot_id := last_snapshot_id;
       rp_operator_target_revision := operator_target_revision;
       rp_operator_strategy_revision := operator_strategy_revision;
       rp_active_run_session_id := active_run_session_id |})).

Definition record_progress (last_journal_seq last_state_version : Z)
    (last_snapshot_id operator_target_revision active_run_session_id : option string) :
    Pool () :=
  record_progress_with_strategy_revision last_journal_seq last_state_version last_snapshot_id
    operator_target_revision None active_run_session_id.

Definition progress_with_session (row : RuntimeProgressRow) (id : option string) :
    RuntimeProgressRow :=
  {| rp_last_journal_seq := rp_last_journal_seq row;
     rp_last_state_version := rp_last_state_version row;
     rp_last_snapshot_id := rp_last_snapshot_id row;
     rp_operator_target_revision := rp_operator_target_revision row;
     rp_operator_strategy_revision := rp_operator_strategy_revision row;
     rp_active_run_session_id := id |}.

(** [UPDATE runtime_apply_progress SET active_run_session_id = ..]: whether the row
    exists. *)
Definition update_active_session (id : option string) : Tx bool := λ now db,
  match db_runtime_progress db !! RUNTIME_PROGRESS_KEY with
  | None => (db, Ok false)
  | Some row =>
      if negb (run_session_exists db id) then
        (db, Err (Fails (Sqlx (ConstraintViolated
                                 "runtime_apply_progress_active_run_session_id_fkey"))))
      else (db <| db_runtime_progress ::=
              insert RUNTIME_PROGRESS_KEY (progress_with_session row id) |>, Ok true)
  end.

Definition set_active_run_session_id (active_run_session_id : string) : Pool () :=
  updated ← stmt (update_active_session (Some active_run_session_id));
  if (updated : bool) then mret () else pool_fail MissingRuntimeProgressRow.

Definition clear_active_run_session_id : Pool () :=
  updated ← stmt (update_active_session None);
  if (updated : bool) then mret () else pool_fail MissingRuntimeProgressRow.

Definition progress_current : Pool (option RuntimeProgressRow) :=
  stmt (query (λ db, db_runtime_progress db !! RUNTIME_PROGRESS_KEY)).
End repo.
