(* ===== verification/RepoControl.v ===== *)
(** * Repositories: candidates, adoptions and their history

    [persistence/src/repos.rs]: [CandidateArtifactRepo] and [CandidateAdoptionRepo]
    (the legacy target tables), [StrategyControlArtifactRepo] and
    [StrategyAdoptionRepo] (the strategy tables, which fall back to them), and the two
    adoption histories. *)

From S2P Require Import Prelude Text RecordSet Externals Json Domain LiveRecords Discovery.
From S2P Require Import Rows Schema RepoJournal.

Section repo.
Context {X : Externals} {J : JsonOps} {P : PgOps}.

(** The shape of all write-once upserts: look the row up, insert it, and when another
    session was faster look at what it wrote. *)
Definition upsert_once {R} `{EqDecision R} (get : Pool (option R)) (ins : Insert)
    (pkey : string) (row : R) (conflict : PersistenceError) : Pool () :=
  existing ← get;
  match existing with
  | Some existing => if decide (existing = row) then mret () else pool_fail conflict
  | None =>
      result ← stmt ins;
      match result with
      | Ok _ => mret ()
      | Err err =>
          if bool_decide (constraint_name err = Some pkey) then
            existing ← get;
            existing ← pool_expect existing;
            if decide (existing = row) then mret () else pool_fail conflict
          else pool_fail (Sqlx err)
      end
  end.

(** ** The legacy target tables *)

Definition insert_candidate_target_set (row : CandidateTargetSetRow) : Insert := λ now db,
  if bool_decide (db_candidate_target_sets db !! cts_candidate_revision row ≠ None) then
    (db, Ok (Err (ConstraintViolated "candidate_target_sets_pkey")))
  else (db <| db_candidate_target_sets ::= insert (cts_candidate_revision row) row |>,
        Ok (Ok ())).

Definition get_candidate_target_set (candidate_revision : string) :
    Pool (option CandidateTargetSetRow) :=
  stmt (query (λ db, db_candidate_target_sets db !! candidate_revision)).

Definition upsert_candidate_target_set (row : CandidateTargetSetRow) : Pool () :=
  upsert_once (get_candidate_target_set (cts_candidate_revision row))
    (insert_candidate_target_set row) "candidate_target_sets_pkey" row
    (ConflictingCandidateTargetSet (cts_candidate_revision row)).

Definition insert_adoptable_target_revision (row : AdoptableTargetRevisionRow) : Insert :=
  λ now db,
  if bool_decide (db_adoptable_target_revisions db !! atr_adoptable_revision row ≠ None) then
    (db, Ok (Err (ConstraintViolated "adoptable_target_revisions_pkey")))
  else if bool_decide (db_candidate_target_sets db !! atr_candidate_revision row = None) then
    (db, Ok (Err (ConstraintViolated "adoptable_target_revisions_candidate_revision_fkey")))
  else (db <| db_adoptable_target_revisions ::= insert (atr_adoptable_revision row) row |>,
        Ok (Ok ())).

Definition get_adoptable_target_revision (adoptable_revision : string) :
    Pool (option AdoptableTargetRevisionRow) :=
  stmt (query (λ db, db_adoptable_target_revisions db !! adoptable_revision)).

Definition upsert_adoptable_target_revision (row : AdoptableTargetRevisionRow) : Pool () :=
  upsert_once (get_adoptable_target_revision (atr_adoptable_revision row))
    (insert_adoptable_target_revision row) "adoptable_target_revisions_pkey" row
    (ConflictingAdoptableTargetRevision (atr_adoptable_revision row)).

(** [FOREIGN KEY (adoptable_revision, candidate_revision)] *)
Definition adoptable_of_candidate (db : Db) (adoptable candidate : string) : bool :=
  match db_adoptable_target_revisions db !! adoptable with
  | Some a => bool_decide (atr_candidate_revision a = candidate)
  | None => false
  end.

Definition insert_candidate_provenance (row : CandidateAdoptionProvenanceRow) : Insert :=
  λ now db,
  if bool_decide (db_candidate_provenance db !! cap_operator_target_revision row ≠ None) then
    (db, Ok (Err (ConstraintViolated "candidate_adoption_provenance_pkey")))
  else if negb (adoptable_of_candidate db (cap_adoptable_revision row)
                  (cap_candidate_revision row)) then
    (db, Ok (Err (ConstraintViolated "candidate_adoption_provenance_adoptable_fkey")))
  else (db <| db_candidate_provenance ::= insert (cap_operator_target_revision row) row |>,
        Ok (Ok ())).

(** The provenance JOINed with its adoptable revision and its candidate set. *)
Definition joined_candidate_provenance (db : Db) (operator_target_revision : string) :
    option CandidateAdoptionProvenanceRow :=
  provenance ← db_candidate_provenance db !! operator_target_revision;
  adoptable ← db_adoptable_target_revisions db !! cap_adoptable_revision provenance;
  _ ← db_candidate_target_sets db !! cap_candidate_revision provenance;
  if bool_decide (atr_candidate_revision adoptable = cap_candidate_revision provenance) &&
     bool_decide (atr_rendered_operator_target_revision adoptable
                  = cap_operator_target_revision provenance)
  then Some provenance else None.

Definition get_by_operator_target_revision (operator_target_revision : string) :
    Pool (option CandidateAdoptionProvenanceRow) :=
  row ← stmt (query (λ db, joined_candidate_provenance db operator_target_revision));
  match row with
  | Some row => mret (Some row)
  | None =>
      exists_ ← stmt (query (λ db,
        bool_decide (db_candidate_provenance db !! operator_target_revision ≠ None)));
      if (exists_ : bool) then pool_fail (MissingCandidateAdoptionLink operator_target_revision)
      else mret None
  end.

Definition candidate_upsert_provenance (row : CandidateAdoptionProvenanceRow) : Pool () :=
  upsert_once (get_by_operator_target_revision (cap_operator_target_revision row))
    (insert_candidate_provenance row) "candidate_adoption_provenance_pkey" row
    (ConflictingCandidateAdoptionProvenance (cap_operator_target_revision row)).

(** ** The strategy tables *)

Definition insert_strategy_candidate_set (row : StrategyCandidateSetRow) : Insert := λ now db,
  if bool_decide (db_strategy_candidate_sets db !! scr_strategy_candidate_revision row ≠ None)
  then (db, Ok (Err (ConstraintViolated "strategy_candidate_sets_pkey")))
  else (db <| db_strategy_candidate_sets ::=
          insert (scr_strategy_candidate_revision row) row |>, Ok (Ok ())).

(** A row of the legacy table, its columns renamed. *)
Definition legacy_candidate_set (row : CandidateTargetSetRow) : StrategyCandidateSetRow :=
  {| scr_strategy_candidate_revision := cts_candidate_revision row;
     scr_snapshot_id := cts_snapshot_id row; scr_source_revision := cts_source_revision row;
     scr_payload := cts_payload row |}.

Definition get_strategy_candidate_set (strategy_candidate_revision : string) :
    Pool (option StrategyCandidateSetRow) :=
  row ← stmt (query (λ db, db_strategy_candidate_sets db !! strategy_candidate_revision));
  match row with
  | Some row => mret (Some row)
  | None => stmt (query (λ db, legacy_candidate_set <$>
                           db_candidate_target_sets db !! strategy_candidate_revision))
  end.

Definition repo_upsert_strategy_candidate_set (row : StrategyCandidateSetRow) : Pool () :=
  upsert_once (get_strategy_candidate_set (scr_strategy_candidate_revision row))
    (insert_strategy_candidate_set row) "strategy_candidate_sets_pkey" row
    (ConflictingStrategyCandidateSet (scr_strategy_candidate_revision row)).

Definition insert_adoptable_strategy_revision (row : AdoptableStrategyRevisionRow) : Insert :=
  λ now db,
  if bool_decide (db_adoptable_strategy_revisions db !! asr_adoptable_strategy_revision row
                  ≠ None) then
    (db, Ok (Err (ConstraintViolated "adoptable_strategy_revisions_pkey")))
  else if bool_decide (db_strategy_candidate_sets db !! asr_strategy_candidate_revision row
                       = None) then
    (db, Ok (Err (ConstraintViolated
                    "adoptable_strategy_revisions_strategy_candidate_revision_fkey")))
  else (db <| db_adoptable_strategy_revisions ::=
          insert (asr_adoptable_strategy_revision row) row |>, Ok (Ok ())).

Definition legacy_adoptable (row : AdoptableTargetRevisionRow) : AdoptableStrategyRevisionRow :=
  {| asr_adoptable_strategy_revision := atr_adoptable_revision row;
     asr_strategy_candidate_revision := atr_candidate_revision row;
     asr_rendered_operator_strategy_revision := atr_rendered_operator_target_revision row;
     asr_payload := atr_payload row |}.

Definition get_adoptable_strategy_revision (adoptable_strategy_revision : string) :
    Pool (option AdoptableStrategyRevisionRow) :=
  row ← stmt (query (λ db, db_adoptable_strategy_revisions db !! adoptable_strategy_revision));
  match row with
  | Some row => mret (Some row)
  | None => stmt (query (λ db, legacy_adoptable <$>
                           db_adoptable_target_revisions db !! adoptable_strategy_revision))
  end.

Definition repo_upsert_adoptable_strategy_revision (row : AdoptableStrategyRevisionRow) :
    Pool () :=
  upsert_once (get_adoptable_strategy_revision (asr_adoptable_strategy_revision row))
    (insert_adoptable_strategy_revision row) "adoptable_strategy_revisions_pkey" row
    (ConflictingAdoptableStrategyRevision (asr_adoptable_strategy_revision row)).

Definition append_discover_refresh (strategy_candidate_revision : string) : Pool Z :=
  stmt (λ now db,
    match nextval (db_refresh_seq db) with
    | None => (db, Err (Fails (Sqlx SqlFailed)))
    | Some refresh_seq =>
        let db := db <| db_refresh_seq := refresh_seq + 1 |> in
        if bool_decide (db_strategy_candidate_sets db !! strategy_candidate_revision = None) then
          (db, Err (Fails (Sqlx (ConstraintViolated
             "discover_refresh_history_strategy_candidate_revision_fkey"))))
        else (db <| db_discover_refresh ::= insert refresh_seq strategy_candidate_revision |>,
              Ok refresh_seq)
    end).

(** The newest refresh before [refresh_seq], JOINed with its candidate set. *)
Definition previous_discover_refresh_candidate_set (refresh_seq : Z) :
    Pool (option StrategyCandidateSetRow) :=
  stmt (query (λ db,
    head (omap (λ kv : Z * string, db_strategy_candidate_sets db !! kv.2)
            (select (db_discover_refresh db) (λ k _, bool_decide (k < refresh_seq))
               (desc (cmp_on fst Z.compare)))))).

Definition adoptable_of_strategy_candidate (db : Db) (adoptable candidate : string) : bool :=
  match db_adoptable_strategy_revisions db !! adoptable with
  | Some a => bool_decide (asr_strategy_candidate_revision a = candidate)
  | None => false
  end.

Definition insert_strategy_provenance (row : StrategyAdoptionProvenanceRow) : Insert :=
  λ now db,
  if bool_decide (db_strategy_provenance db !! sap_operator_strategy_revision row ≠ None) then
    (db, Ok (Err (ConstraintViolated "strategy_adoption_provenance_pkey")))
  else if negb (adoptable_of_strategy_candidate db (sap_adoptable_strategy_revision row)
                  (sap_strategy_candidate_revision row)) then
    (db, Ok (Err (ConstraintViolated "strategy_adoption_provenance_adoptable_fkey")))
  else (db <| db_strategy_provenance ::= insert (sap_operator_strategy_revision row) row |>,
        Ok (Ok ())).

Definition joined_strategy_provenance (db : Db) (operator_strategy_revision : string) :
    option StrategyAdoptionProvenanceRow :=
  provenance ← db_strategy_provenance db !! operator_strategy_revision;
  adoptable ← db_adoptable_strategy_revisions db !! sap_adoptable_strategy_revision provenance;
  _ ← db_strategy_candidate_sets db !! sap_strategy_candidate_revision provenance;
  if bool_decide (asr_strategy_candidate_revision adoptable
                  = sap_strategy_candidate_revision provenance) &&
     bool_decide (asr_rendered_operator_strategy_revision adoptable
                  = sap_operator_strategy_revision provenance)
  then Some provenance else None.

Definition legacy_provenance (row : CandidateAdoptionProvenanceRow) :
    StrategyAdoptionProvenanceRow :=
  {| sap_operator_strategy_revision := cap_operator_target_revision row;
     sap_adoptable_strategy_revision := cap_adoptable_revision row;
     sap_strategy_candidate_revision := cap_candidate_revision row |}.

Definition get_by_operator_strategy_revision (operator_strategy_revision : string) :
    Pool (option StrategyAdoptionProvenanceRow) :=
  row ← stmt (query (λ db, joined_strategy_provenance db operator_strategy_revision));
  match row with
  | Some row => mret (Some row)
  | None =>
      exists_ ← stmt (query (λ db,
        bool_decide (db_strategy_provenance db !! operator_strategy_revision ≠ None)));
      if (exists_ : bool)
      then pool_fail (MissingStrategyAdoptionLink operator_strategy_revision)
      else
        legacy_row ← stmt (query (λ db,
          joined_candidate_provenance db operator_strategy_revision));
        match legacy_row with
        | Some row => mret (Some (legacy_provenance row))
        | None =>
            exists_ ← stmt (query (λ db,
              bool_decide (db_candidate_provenance db !! operator_strategy_revision ≠ None)));
            if (exists_ : bool)
            then pool_fail (MissingStrategyAdoptionLink operator_strategy_revision)
            else mret None
        end
  end.

Definition strategy_upsert_provenance (row : StrategyAdoptionProvenanceRow) : Pool () :=
  upsert_once (get_by_operator_strategy_revision (sap_operator_strategy_revision row))
    (insert_strategy_provenance row) "strategy_adoption_provenance_pkey" row
    (ConflictingStrategyAdoptionProvenance (sap_operator_strategy_revision row)).

(** ** Adoption histories *)

(** The CHECKs of both tables: [adopt] names what is adopted, [rollback] does not. *)
Definition history_shape (action_kind : string) (adoptable candidate : option string) : bool :=
  (bool_decide (action_kind = "adopt") && bool_decide (adoptable ≠ None) &&
   bool_decide (candidate ≠ None)) ||
  (bool_decide (action_kind = "rollback") && bool_decide (adoptable = None) &&
   bool_decide (candidate = None)).

Definition insert_target_history (row : OperatorTargetAdoptionHistoryRow) : Insert := λ now db,
  match nextval (db_target_history_seq db) with
  | None => (db, Ok (Err SqlFailed))
  | Some seq =>
      let db := db <| db_target_history_seq := seq + 1 |> in
      if negb (history_shape (oth_action_kind row) (oth_adoptable_revision row)
                 (oth_candidate_revision row)) then
        (db, Ok (Err (ConstraintViolated "operator_target_adoption_history_row_shape_check")))
      else if bool_decide (db_target_history db !! oth_adoption_id row ≠ None) then
        (db, Ok (Err (ConstraintViolated "operator_target_adoption_history_pkey")))
      else
        (db <| db_target_history ::= insert (oth_adoption_id row)
           ({| oth_adoption_id := oth_adoption_id row; oth_action_kind := oth_action_kind row;
               oth_operator_target_revision := oth_operator_target_revision row;
               oth_previous_operator_target_revision := oth_previous_operator_target_revision row;
               oth_adoptable_revision := oth_adoptable_revision row;
               oth_candidate_revision := oth_candidate_revision row;
               oth_adopted_at := pg_time (oth_adopted_at row) |}, seq) |>, Ok (Ok ()))
  end.

Definition target_history_append (row : OperatorTargetAdoptionHistoryRow) : Pool () :=
  stmt (sqlx_ok (insert_target_history row)).

Definition target_history_by_seq (p : OperatorTargetAdoptionHistoryRow → bool) (db : Db) :
    option OperatorTargetAdoptionHistoryRow :=
  (fst ∘ snd) <$> head (select (db_target_history db) (λ _ r, p r.1)
                          (desc (cmp_on (snd ∘ snd) Z.compare))).

Definition target_history_latest : Pool (option OperatorTargetAdoptionHistoryRow) :=
  stmt (query (target_history_by_seq (λ _, true))).

(** [revision = $1 AND previous IS NOT NULL AND previous <> $1] *)
Definition distinct_from (current : string) (revision : string) (previous : option string) :
    bool :=
  bool_decide (revision = current) &&
  match previous with Some p => negb (bool_decide (p = current)) | None => false end.

Definition target_previous_distinct_revision (current_revision : string) :
    Pool (option string) :=
  stmt (query (λ db, r ← target_history_by_seq
    (λ r, distinct_from current_revision (oth_operator_target_revision r)
            (oth_previous_operator_target_revision r)) db;
    oth_previous_operator_target_revision r)).

Definition insert_strategy_history (row : OperatorStrategyAdoptionHistoryRow) : Insert :=
  λ now db,
  match nextval (db_strategy_history_seq db) with
  | None => (db, Ok (Err SqlFailed))
  | Some seq =>
      let db := db <| db_strategy_history_seq := seq + 1 |> in
      if negb (history_shape (osh_action_kind row) (osh_adoptable_strategy_revision row)
                 (osh_strategy_candidate_revision row)) then
        (db, Ok (Err (ConstraintViolated "operator_strategy_adoption_history_row_shape_check")))
      else if bool_decide (db_strategy_history db !! osh_adoption_id row ≠ None) then
        (db, Ok (Err (ConstraintViolated "operator_strategy_adoption_history_pkey")))
      else
        (db <| db_strategy_history ::= insert (osh_adoption_id row)
           ({| osh_adoption_id := osh_adoption_id row; osh_action_kind := osh_action_kind row;
               osh_operator_strategy_revision := osh_operator_strategy_revision row;
               osh_previous_operator_strategy_revision :=
                 osh_previous_operator_strategy_revision row;
               osh_adoptable_strategy_revision := osh_adoptable_strategy_revision row;
               osh_strategy_candidate_revision := osh_strategy_candidate_revision row;
               osh_adopted_at := pg_time (osh_adopted_at row) |}, seq) |>, Ok (Ok ()))
  end.

Definition strategy_history_append (row : OperatorStrategyAdoptionHistoryRow) : Pool () :=
  stmt (sqlx_ok (insert_strategy_history row)).

(** [combined_history]: rows of both tables with [history_seq] and [source_priority]. *)
Definition legacy_history_row (r : OperatorTargetAdoptionHistoryRow) :
    OperatorStrategyAdoptionHistoryRow :=
  {| osh_adoption_id := oth_adoption_id r; osh_action_kind := oth_action_kind r;
     osh_operator_strategy_revision := oth_operator_target_revision r;
     osh_previous_operator_strategy_revision := oth_previous_operator_target_revision r;
     osh_adoptable_strategy_revision := oth_adoptable_revision r;
     osh_strategy_candidate_revision := oth_candidate_revision r;
     osh_adopted_at := oth_adopted_at r |}.

Definition combined_history (db : Db) : list (OperatorStrategyAdoptionHistoryRow * (Z * Z)) :=
  ((λ kv, (kv.2.1, (kv.2.2, 0))) <$> map_to_list (db_strategy_history db)) ++
  ((λ kv, (legacy_history_row kv.2.1, (kv.2.2, 1))) <$> map_to_list (db_target_history db)).

(** [ORDER BY history_seq DESC, adopted_at DESC, source_priority ASC, adoption_id DESC] *)
Definition combined_order (a b : OperatorStrategyAdoptionHistoryRow * (Z * Z)) : comparison :=
  then_with (desc Z.compare a.2.1 b.2.1)
    (then_with (desc dt_cmp (osh_adopted_at a.1) (osh_adopted_at b.1))
       (then_with (Z.compare a.2.2 b.2.2)
          (desc text_cmp (osh_adoption_id a.1) (osh_adoption_id b.1)))).

Definition combined_first (p : OperatorStrategyAdoptionHistoryRow → bool) (db : Db) :
    option OperatorStrategyAdoptionHistoryRow :=
  fst <$> head (sort_by combined_order (List.filter (p ∘ fst) (combined_history db))).

Definition strategy_history_latest : Pool (option OperatorStrategyAdoptionHistoryRow) :=
  stmt (query (combined_first (λ _, true))).

Definition strategy_previous_distinct_revision (current_revision : string) :
    Pool (option string) :=
  stmt (query (λ db, r ← combined_first
    (λ r, distinct_from current_revision (osh_operator_strategy_revision r)
            (osh_previous_operator_strategy_revision r)) db;
    osh_previous_operator_strategy_revision r)).
End repo.
