(* ===== verification/RepoCatalog.v ===== *)
(** * Repositories: identifiers, orders, approvals, inventory, resolutions

    [persistence/src/repos.rs]: [IdentifierRepo], [OrderRepo], [ApprovalRepo],
    [InventoryRepo] and [ResolutionRepo]. *)

From S2P Require Import Prelude Text RecordSet Externals Json Domain Identifiers LiveRecords.
From S2P Require Import Discovery Rows Schema RepoJournal.

#[export] Instance IdentifierRecord_eq_dec : EqDecision IdentifierRecord.
Proof. solve_decision. Defined.

Section repo.
Context {X : Externals} {J : JsonOps} {P : PgOps}.

(** ** Identifiers *)

(** [ORDER BY event_family_id, event_id, market_id, token_id] *)
Definition identifier_order (a b : string * IdentifierRecordRow) : comparison :=
  let key r := (ix_event_family_id r, (ix_event_id r, (ix_market_id r, ix_token_id r))) in
  cmp_lex text_cmp (cmp_lex text_cmp (cmp_lex text_cmp text_cmp)) (key a.2) (key b.2).

Definition identifier_rows (db : Db) : list IdentifierRecordRow :=
  (select (db_identifier_map db) (λ _ _, true) identifier_order).*2.

Definition list_records_in_tx : Tx (list IdentifierRecord) :=
  rows ← query identifier_rows; collect_rows identifier_row_into_domain rows.

(** [IdentifierMap::from_records(records)?] *)
Definition check_records (records : list IdentifierRecord) : Tx () :=
  match from_records records with
  | Ok _ => mret ()
  | Err e => tx_fail (IdentifierConflict e)
  end.

Definition validate_record_in_tx (record : IdentifierRecord) : Tx () :=
  records ← list_records_in_tx; check_records (records ++ [record]).

(** A foreign key: the error when the row it points to is missing. *)
Definition fkey (name : string) (found : bool) : Tx () :=
  if found then mret () else tx_fail (Sqlx (ConstraintViolated name)).

Definition condition_conflict (row : IdentifierRecordRow) : Tx () :=
  tx_fail (IdentifierConflict (ConflictingConditionMetadata (ix_condition_id row))).

Definition insert_or_confirm_event_family (row : IdentifierRecordRow) : Tx () :=
  existing ← query (λ db, db_event_families db !! ix_event_family_id row);
  match existing with
  | None => exec (λ db, db <| db_event_families ::=
                    insert (ix_event_family_id row) (ix_event_family_id row) |>)
  | Some existing_name =>
      if bool_decide (existing_name ≠ ix_event_family_id row) then condition_conflict row
      else mret ()
  end.

Definition insert_or_confirm_event (row : IdentifierRecordRow) : Tx () :=
  existing ← query (λ db, db_events db !! ix_event_id row);
  match existing with
  | None =>
      found ← query (λ db, bool_decide (db_event_families db !! ix_event_family_id row ≠ None));
      _ ← fkey "events_event_family_id_fkey" found;
      exec (λ db, db <| db_events ::= insert (ix_event_id row)
        {| ev_family_id := ix_event_family_id row; ev_name := ix_event_id row |} |>)
  | Some existing =>
      if bool_decide (ev_family_id existing ≠ ix_event_family_id row) ||
         bool_decide (ev_name existing ≠ ix_event_id row)
      then condition_conflict row else mret ()
  end.

Definition insert_or_confirm_condition (row : IdentifierRecordRow) : Tx () :=
  existing ← query (λ db, db_conditions db !! ix_condition_id row);
  match existing with
  | None =>
      found ← query (λ db, bool_decide (db_events db !! ix_event_id row ≠ None));
      _ ← fkey "conditions_event_id_fkey" found;
      exec (λ db, db <| db_conditions ::= insert (ix_condition_id row) (ix_event_id row) |>)
  | Some existing_event_id =>
      if bool_decide (existing_event_id ≠ ix_event_id row) then condition_conflict row
      else mret ()
  end.

(** [market_id] and [condition_id] are both unique. *)
Definition market_of_condition (db : Db) (condition_id : string) : bool :=
  has_row (db_markets db) (λ _ m, bool_decide (mk_condition_id m = condition_id)).

Definition insert_or_confirm_market (row : IdentifierRecordRow) : Tx () :=
  existing ← query (λ db, db_markets db !! ix_market_id row);
  taken ← query (λ db, market_of_condition db (ix_condition_id row));
  match existing with
  | Some existing =>
      if bool_decide (mk_condition_id existing ≠ ix_condition_id row) ||
         bool_decide (mk_event_id existing ≠ ix_event_id row)
      then condition_conflict row
      else if bool_decide (mk_route existing ≠ ix_route row) then
        existing_route ← tx_of (market_route_from_str (mk_route existing));
        new_route ← tx_of (market_route_from_str (ix_route row));
        tx_fail (IdentifierConflict
          (ConflictingConditionRoute (ix_condition_id row) existing_route new_route))
      else mret ()
  | None =>
      if (taken : bool) then condition_conflict row
      else
        found ← query (λ db, bool_decide (db_conditions db !! ix_condition_id row
                                          = Some (ix_event_id row)));
        _ ← fkey "markets_condition_event_consistent" found;
        exec (λ db, db <| db_markets ::= insert (ix_market_id row)
          {| mk_condition_id := ix_condition_id row; mk_event_id := ix_event_id row;
             mk_route := ix_route row |} |>)
  end.

Definition insert_or_confirm_token (row : IdentifierRecordRow) : Tx () :=
  existing ← query (λ db, db_tokens db !! ix_token_id row);
  match existing with
  | None =>
      found ← query (λ db, bool_decide (db_conditions db !! ix_condition_id row ≠ None));
      _ ← fkey "tokens_condition_id_fkey" found;
      exec (λ db, db <| db_tokens ::= insert (ix_token_id row)
        {| tk_condition_id := ix_condition_id row;
           tk_outcome_label := ix_outcome_label row |} |>)
  | Some existing =>
      if bool_decide (tk_condition_id existing ≠ ix_condition_id row) then
        tx_fail (IdentifierConflict (ConflictingTokenCondition (ix_token_id row)
                   (tk_condition_id existing) (ix_condition_id row)))
      else if bool_decide (tk_outcome_label existing ≠ ix_outcome_label row) then
        tx_fail (IdentifierConflict (ConflictingTokenMetadata (ix_token_id row)))
      else mret ()
  end.

(** The five foreign keys of [identifier_map]. *)
Definition identifier_links (db : Db) (row : IdentifierRecordRow) : bool :=
  match db_tokens db !! ix_token_id row, db_markets db !! ix_market_id row,
        db_events db !! ix_event_id row with
  | Some t, Some m, Some e =>
      bool_decide (tk_condition_id t = ix_condition_id row) &&
      bool_decide (mk_condition_id m = ix_condition_id row) &&
      bool_decide (mk_route m = ix_route row) &&
      bool_decide (db_conditions db !! ix_condition_id row = Some (ix_event_id row)) &&
      bool_decide (ev_family_id e = ix_event_family_id row) &&
      bool_decide (db_event_families db !! ix_event_family_id row ≠ None)
  | _, _, _ => false
  end.

Definition outcome_taken (db : Db) (condition_id outcome_label : string) : bool :=
  has_row (db_identifier_map db) (λ _ r, bool_decide (ix_condition_id r = condition_id) &&
                                         bool_decide (ix_outcome_label r = outcome_label)).

Definition insert_or_confirm_identifier_map (row : IdentifierRecordRow) : Tx () :=
  existing ← query (λ db, db_identifier_map db !! ix_token_id row);
  taken ← query (λ db, outcome_taken db (ix_condition_id row) (ix_outcome_label row));
  match existing with
  | Some existing_row =>
      existing ← tx_of (identifier_row_into_domain existing_row);
      attempted ← tx_of (identifier_row_into_domain row);
      if bool_decide (existing ≠ attempted) then
        records ← list_records_in_tx;
        _ ← check_records (records ++ [attempted]);
        tx_fail (IdentifierConflict (ConflictingTokenMetadata (ix_token_id row)))
      else mret ()
  | None =>
      if (taken : bool) then
        tx_fail (IdentifierConflict (ConflictingTokenMetadata (ix_token_id row)))
      else
        found ← query (λ db, identifier_links db row);
        _ ← fkey "identifier_map_links" found;
        exec (λ db, db <| db_identifier_map ::= insert (ix_token_id row) row |>)
  end.

Definition upsert_record (record : IdentifierRecord) : Pool () :=
  let row := identifier_row_from_domain record in
  transaction (
    _ ← validate_record_in_tx record;
    _ ← insert_or_confirm_event_family row;
    _ ← insert_or_confirm_event row;
    _ ← insert_or_confirm_condition row;
    _ ← insert_or_confirm_market row;
    _ ← insert_or_confirm_token row;
    insert_or_confirm_identifier_map row).

Definition list_records : Pool (list IdentifierRecord) := stmt list_records_in_tx.

(** ** Orders *)

Definition order_by_hash (db : Db) (signed_order_hash : string) (p : string → bool) :
    option string :=
  fst <$> head (select (db_orders db)
    (λ id o, bool_decide (ow_signed_order_hash o = Some signed_order_hash) && p id)
    (cmp_on fst str_cmp)).

Definition find_order_id_by_signed_hash_excluding (signed_order_hash order_id : string) :
    Tx (option string) :=
  query (λ db, order_by_hash db signed_order_hash (λ id, negb (bool_decide (id = order_id)))).

Definition find_order_id_by_signed_hash_in_pool (signed_order_hash : string) :
    Tx (option string) :=
  query (λ db, order_by_hash db signed_order_hash (λ _, true)).

Definition order_columns (row : NewOrderRow) (now : DateTime) : OrderRow :=
  {| ow_order_id := no_order_id row; ow_market_id := no_market_id row;
     ow_condition_id := no_condition_id row; ow_token_id := no_token_id row;
     ow_quantity := no_quantity row; ow_price := no_price row;
     ow_submission_state := submission_state_to_str (no_submission_state row);
     ow_venue_state := venue_order_state_to_str (no_venue_state row);
     ow_settlement_state := settlement_state_to_str (no_settlement_state row);
     ow_signed_order_hash := no_signed_order_hash row; ow_salt := no_salt row;
     ow_nonce := no_nonce row; ow_signature := no_signature row;
     ow_retry_of_order_id := no_retry_of_order_id row; ow_created_at := pg_time now;
     ow_updated_at := pg_time now |}.

(** [orders_identifier_map_link_valid] *)
Definition order_link_valid (db : Db) (row : NewOrderRow) : bool :=
  match db_identifier_map db !! no_token_id row with
  | Some r => bool_decide (ix_market_id r = no_market_id row) &&
              bool_decide (ix_condition_id r = no_condition_id row)
  | None => false
  end.

(** [ON CONFLICT (order_id) DO NOTHING]: whether a row was written. An order may name
    itself as the one it retries. When both foreign keys are violated the first is
    reported. *)
Definition insert_order (row : NewOrderRow) : Tx (result SqlError bool) := λ now db,
  if bool_decide (db_orders db !! no_order_id row ≠ None) then (db, Ok (Ok false))
  else if match no_signed_order_hash row with
          | Some hash => bool_decide (order_by_hash db hash (λ _, true) ≠ None)
          | None => false
          end then
    (db, Ok (Err (ConstraintViolated "orders_signed_order_hash_unique")))
  else if negb (order_link_valid db row) then
    (db, Ok (Err (ConstraintViolated "orders_identifier_map_link_valid")))
  else if match no_retry_of_order_id row with
          | Some id => bool_decide (db_orders db !! id = None) &&
                       negb (bool_decide (id = no_order_id row))
          | None => false
          end then
    (db, Ok (Err (ConstraintViolated "orders_retry_of_order_id_fkey")))
  else (db <| db_orders ::= insert (no_order_id row) (order_columns row now) |>, Ok (Ok true)).

Definition signed_field_count (row : NewOrderRow) : nat :=
  length (List.filter id [bool_decide (no_signed_order_hash row ≠ None);
                          bool_decide (no_salt row ≠ None); bool_decide (no_nonce row ≠ None);
                          bool_decide (no_signature row ≠ None)]).

(** The lookup on the pool after a violation of the unique hash sees the rows the
    transaction saw: it has written nothing. *)
Definition insert_signed_order_tx (row : NewOrderRow) : Tx () :=
  _ ← (match no_signed_order_hash row with
       | Some signed_order_hash =>
           existing ← find_order_id_by_signed_hash_excluding signed_order_hash (no_order_id row);
           match existing with
           | Some existing_order_id =>
               tx_fail (DuplicateSignedOrderHash signed_order_hash existing_order_id
                          (no_order_id row))
           | None => mret ()
           end
       | None => mret ()
       end);
  query_result ← insert_order row;
  match query_result with
  | Ok true => mret ()
  | Ok false =>
      existing ← query (λ db, db_orders db !! no_order_id row);
      existing ← tx_expect existing;
      if order_row_matches_input existing row then mret ()
      else tx_fail (ImmutableOrderConflict (no_order_id row))
  | Err err =>
      if bool_decide (constraint_name err = Some "orders_signed_order_hash_unique") then
        signed_order_hash ← tx_expect (no_signed_order_hash row);
        existing ← find_order_id_by_signed_hash_in_pool signed_order_hash;
        tx_fail (DuplicateSignedOrderHash signed_order_hash (default "<unknown>" existing)
                   (no_order_id row))
      else if bool_decide (constraint_name err = Some "orders_identifier_map_link_valid") then
        tx_fail (InvalidOrderIdentifierLinkage (no_market_id row) (no_condition_id row)
                   (no_token_id row))
      else tx_fail (Sqlx err)
  end.

Definition insert_signed_order (row : NewOrderRow) : Pool () :=
  let n := signed_field_count row in
  if negb (bool_decide (n = 0%nat)) && negb (bool_decide (n = 4%nat)) then
    pool_fail IncompleteSignedOrderIdentity
  else transaction (insert_signed_order_tx row).

Definition get_order (order_id : OrderId) : Pool (option StoredOrder) :=
  row ← stmt (query (λ db, db_orders db !! order_id));
  match row with
  | None => mret None
  | Some row => order ← pool_of (into_stored_order row); mret (Some order)
  end.

(** ** Approvals, inventory, resolutions *)

Definition upsert_approval_state (state : ApprovalState) : Pool () :=
  let row := approval_row_from_domain state in
  stmt (
    found ← query (λ db, bool_decide (db_tokens db !! ay_token_id row ≠ None));
    _ ← fkey "approval_states_token_id_fkey" found;
    exec_at (λ now db, db <| db_approval_states ::= insert
      {| ak_token_id := ay_token_id row; ak_spender := ay_spender row;
         ak_owner_address := ay_owner_address row |}
      {| ay_token_id := ay_token_id row; ay_spender := ay_spender row;
         ay_owner_address := ay_owner_address row; ay_funder_address := ay_funder_address row;
         ay_wallet_route := ay_wallet_route row; ay_signature_type := ay_signature_type row;
         ay_allowance := ay_allowance row;
         ay_required_min_allowance := ay_required_min_allowance row;
         ay_last_checked_at := pg_time (ay_last_checked_at row);
         ay_approval_status := ay_approval_status row; ay_updated_at := pg_time now |} |>)).

Definition get_approval_state (token_id spender owner_address : string) :
    Pool (option ApprovalState) :=
  row ← stmt (query (λ db, db_approval_states db !!
    {| ak_token_id := token_id; ak_spender := spender; ak_owner_address := owner_address |}));
  match row with
  | None => mret None
  | Some row => state ← pool_of (approval_row_into_domain row); mret (Some state)
  end.

Definition in_set_or_null (id : option string) (ids : gset string) : bool :=
  match id with Some id => bool_decide (id ∈ ids) | None => true end.

Definition upsert_bucket (row : InventoryBucketRow) : Pool () :=
  stmt (
    _ ← (if is_ok (inventory_bucket_from_str (ib_bucket row)) then mret ()
         else tx_fail (Sqlx (ConstraintViolated "inventory_buckets_bucket_check")));
    found ← query (λ db, bool_decide (db_tokens db !! ib_token_id row ≠ None) &&
                         in_set_or_null (ib_linked_order_id row) (dom (db_orders db)) &&
                         in_set_or_null (ib_ctf_operation_id row) (db_ctf_operations db) &&
                         in_set_or_null (ib_relayer_transaction_id row)
                           (db_relayer_transactions db));
    _ ← fkey "inventory_buckets_fkey" found;
    exec_at (λ now db, db <| db_inventory_buckets ::= insert
      (ib_token_id row, ib_owner_address row, ib_bucket row)
      {| ib_token_id := ib_token_id row; ib_owner_address := ib_owner_address row;
         ib_bucket := ib_bucket row; ib_quantity := ib_quantity row;
         ib_linked_order_id := ib_linked_order_id row;
         ib_ctf_operation_id := ib_ctf_operation_id row;
         ib_relayer_transaction_id := ib_relayer_transaction_id row;
         ib_updated_at := pg_time now |} |>)).

Definition list_by_owner (owner_address : string) : Pool (list InventoryBucketRow) :=
  stmt (query (λ db, (select (db_inventory_buckets db)
    (λ _ r, bool_decide (ib_owner_address r = owner_address))
    (λ a b, cmp_lex text_cmp text_cmp (ib_token_id a.2, ib_bucket a.2)
                                      (ib_token_id b.2, ib_bucket b.2))).*2)).

Definition upsert_resolution_state (state : ResolutionState) : Pool () :=
  stmt (
    found ← query (λ db, bool_decide (db_conditions db !! rs_condition_id state ≠ None));
    _ ← fkey "resolution_states_condition_id_fkey" found;
    exec_at (λ now db,
      let row := resolution_row_from_domain state now in
      db <| db_resolution_states ::= insert (rz_condition_id row)
      {| rz_condition_id := rz_condition_id row;
         rz_resolution_status := rz_resolution_status row;
         rz_payout_vector := rz_payout_vector row; rz_resolved_at := pg_time <$> rz_resolved_at row;
         rz_dispute_state := rz_dispute_state row;
         rz_redeemable_at := pg_time <$> rz_redeemable_at row;
         rz_updated_at := pg_time now |} |>)).

Definition get_resolution_state (condition_id : ConditionId) : Pool (option ResolutionState) :=
  row ← stmt (query (λ db, db_resolution_states db !! condition_id));
  match row with
  | None => mret None
  | Some row => state ← pool_of (resolution_row_into_domain row); mret (Some state)
  end.
End repo.
