(* ===== verification/RepoInvariants.v ===== *)
(** * What every history of the store keeps

    The operations of all repositories as one type, the histories they can produce
    when any number of sessions run them side by side and connections are lost, and
    the two facts that hold along every history: rows that are not meant to change
    never do, and the tables stay consistent with each other. *)

From S2P Require Import Prelude Text RecordSet Externals Json Domain Identifiers LiveRecords.
From S2P Require Import Discovery Rows Schema RepoJournal RepoExecution RepoSessions.
From S2P Require Import RepoControl RepoCatalog.

Section histories.
Context {X : Externals} {J : JsonOps} {P : PgOps}.

(** ** Operations *)

Inductive RepoOp :=
| OpUpsertRecord (record : IdentifierRecord)
| OpInsertSignedOrder (row : NewOrderRow)
| OpUpsertApprovalState (state : ApprovalState)
| OpUpsertBucket (row : InventoryBucketRow)
| OpUpsertResolutionState (state : ResolutionState)
| OpUpsertValidation (row : NegRiskFamilyValidationRow) (enabled : bool)
| OpUpsertHalt (row : FamilyHaltRow) (enabled : bool)
| OpPersistDiscoverySnapshot (snapshot : NegRiskDiscoverySnapshotInput)
| OpReconcileCurrentFamilyView (discovery_revision : Z) (enabled : bool)
| OpJournalAppend (entry : JournalEntryInput)
| OpCreateStarting (row : RunSessionRow)
| OpMarkRunning (run_session_id : string) (seen_at : DateTime)
| OpMarkExited (run_session_id : string) (ended_at : DateTime) (exit_status : string)
    (exit_reason : option string)
| OpMarkFailed (run_session_id : string) (ended_at : DateTime) (exit_reason : string)
| OpRefreshLastSeen (run_session_id : string) (seen_at : DateTime)
| OpRecordProgress (last_journal_seq last_state_version : Z)
    (last_snapshot_id operator_target_revision operator_strategy_revision
     active_run_session_id : option string)
| OpSetActiveRunSession (run_session_id : string)
| OpClearActiveRunSession
| OpUpsertCandidateTargetSet (row : CandidateTargetSetRow)
| OpUpsertAdoptableTargetRevision (row : AdoptableTargetRevisionRow)
| OpUpsertCandidateProvenance (row : CandidateAdoptionProvenanceRow)
| OpUpsertStrategyCandidateSet (row : StrategyCandidateSetRow)
| OpUpsertAdoptableStrategyRevision (row : AdoptableStrategyRevisionRow)
| OpUpsertStrategyProvenance (row : StrategyAdoptionProvenanceRow)
| OpAppendDiscoverRefresh (strategy_candidate_revision : string)
| OpAppendTargetHistory (row : OperatorTargetAdoptionHistoryRow)
| OpAppendStrategyHistory (row : OperatorStrategyAdoptionHistoryRow)
| OpUpsertPublication (row : SnapshotPublicationRow)
| OpAppendAttempt (row : ExecutionAttemptRow)
| OpAppendPending (row : PendingReconcileRow)
| OpAppendSubmission (row : LiveSubmissionRecordRow)
| OpAppendShadowArtifact (row : ShadowExecutionArtifactRow)
| OpAppendShadowBatch (active : gset string) (details : Z → string)
    (attempts : list ExecutionAttemptRow) (artifacts : list ShadowExecutionArtifactRow)
| OpAppendLiveArtifact (row : LiveExecutionArtifactRow).

Definition ignore {A} (m : Pool A) : Pool () := _ ← m; mret ().

Definition repo_op (op : RepoOp) : Pool () :=
  match op with
  | OpUpsertRecord record => upsert_record record
  | OpInsertSignedOrder row => insert_signed_order row
  | OpUpsertApprovalState state => upsert_approval_state state
  | OpUpsertBucket row => upsert_bucket row
  | OpUpsertResolutionState state => upsert_resolution_state state
  | OpUpsertValidation row enabled => upsert_validation_with_instrumentation row enabled
  | OpUpsertHalt row enabled => upsert_halt_with_instrumentation row enabled
  | OpPersistDiscoverySnapshot snapshot => ignore (persist_discovery_snapshot snapshot)
  | OpReconcileCurrentFamilyView revision enabled =>
      reconcile_current_family_view_with_instrumentation revision enabled
  | OpJournalAppend entry => ignore (journal_append entry)
  | OpCreateStarting row => create_starting row
  | OpMarkRunning id seen_at => mark_running id seen_at
  | OpMarkExited id ended_at status reason => mark_exited id ended_at status reason
  | OpMarkFailed id ended_at reason => mark_failed id ended_at reason
  | OpRefreshLastSeen id seen_at => refresh_last_seen id seen_at
  | OpRecordProgress seq version snapshot target strategy session =>
      record_progress_with_strategy_revision seq version snapshot target strategy session
  | OpSetActiveRunSession id => set_active_run_session_id id
  | OpClearActiveRunSession => clear_active_run_session_id
  | OpUpsertCandidateTargetSet row => upsert_candidate_target_set row
  | OpUpsertAdoptableTargetRevision row => upsert_adoptable_target_revision row
  | OpUpsertCandidateProvenance row => candidate_upsert_provenance row
  | OpUpsertStrategyCandidateSet row => repo_upsert_strategy_candidate_set row
  | OpUpsertAdoptableStrategyRevision row => repo_upsert_adoptable_strategy_revision row
  | OpUpsertStrategyProvenance row => strategy_upsert_provenance row
  | OpAppendDiscoverRefresh revision => ignore (append_discover_refresh revision)
  | OpAppendTargetHistory row => target_history_append row
  | OpAppendStrategyHistory row => strategy_history_append row
  | OpUpsertPublication row => snapshot_publication_upsert row
  | OpAppendAttempt row => attempt_append row
  | OpAppendPending row => pending_append row
  | OpAppendSubmission row => submission_append row
  | OpAppendShadowArtifact row => shadow_artifact_append row
  | OpAppendShadowBatch active details attempts artifacts =>
      append_shadow_execution_batch active details attempts artifacts
  | OpAppendLiveArtifact row => live_artifact_append row
  end.

(** [evolves a b]: some history leads from [a] to [b]. Between the statements of an
    operation other sessions may make any history of their own, and any statement may
    find the connection gone. *)
Inductive evolves : Db → Db → Prop :=
| evolves_refl db : evolves db db
| evolves_op op env n db :
    (∀ k d, evolves d (fr_commits env k d)) → evolves db (repo_op op env (n, db)).1.2
| evolves_trans a b c : evolves a b → evolves b c → evolves a c.

(** ** What never changes *)

(** The columns of a session no operation writes again. *)
Definition session_identity (r : RunSessionOf string DateTime) :=
  ((run_run_session_id r, run_invoked_by r, run_mode r, run_started_at r),
   (run_config_path r, run_config_fingerprint r, run_target_source_kind r,
    run_startup_target_revision_at_start r),
   (run_configured_operator_target_revision r, run_active_operator_target_revision_at_start r,
    run_configured_operator_strategy_revision r,
    run_active_operator_strategy_revision_at_start r),
   (run_rollout_state_at_start r, run_real_user_shadow_smoke r)).

(** The steps of a session's life: [starting], [running], then [exited] or [failed]. *)
Definition session_next (old new : string) : bool :=
  bool_decide ((old, new) ∈
    [("starting", "starting"); ("starting", "running"); ("starting", "exited");
     ("starting", "failed"); ("running", "running"); ("running", "exited");
     ("running", "failed")]).

Record session_le (old new : RunSessionOf string DateTime) : Prop := {
  sl_identity : session_identity old = session_identity new;
  sl_seen : dt_leb (run_last_seen_at old) (run_last_seen_at new) = true;
  sl_state : old = new ∨ session_next (run_state old) (run_state new) = true;
}.

Definition sessions_le (s s' : gmap string (RunSessionOf string DateTime)) : Prop :=
  ∀ id r, s !! id = Some r → ∃ r', s' !! id = Some r' ∧ session_le r r'.

Record append_only (a b : Db) : Prop := {
  ao_event_families : db_event_families a ⊆ db_event_families b;
  ao_events : db_events a ⊆ db_events b;
  ao_conditions : db_conditions a ⊆ db_conditions b;
  ao_markets : db_markets a ⊆ db_markets b;
  ao_tokens : db_tokens a ⊆ db_tokens b;
  ao_identifier_map : db_identifier_map a ⊆ db_identifier_map b;
  ao_orders : db_orders a ⊆ db_orders b;
  ao_journal : db_event_journal a ⊆ db_event_journal b;
  ao_attempts : db_execution_attempts a ⊆ db_execution_attempts b;
  ao_pending : db_pending_reconcile a ⊆ db_pending_reconcile b;
  ao_submissions : db_live_submissions a ⊆ db_live_submissions b;
  ao_shadow_artifacts : db_shadow_artifacts a ⊆ db_shadow_artifacts b;
  ao_live_artifacts : db_live_artifacts a ⊆ db_live_artifacts b;
  ao_candidates : db_candidate_target_sets a ⊆ db_candidate_target_sets b;
  ao_adoptables : db_adoptable_target_revisions a ⊆ db_adoptable_target_revisions b;
  ao_provenance : db_candidate_provenance a ⊆ db_candidate_provenance b;
  ao_target_history : db_target_history a ⊆ db_target_history b;
  ao_strategy_candidates : db_strategy_candidate_sets a ⊆ db_strategy_candidate_sets b;
  ao_strategy_adoptables :
    db_adoptable_strategy_revisions a ⊆ db_adoptable_strategy_revisions b;
  ao_strategy_provenance : db_strategy_provenance a ⊆ db_strategy_provenance b;
  ao_strategy_history : db_strategy_history a ⊆ db_strategy_history b;
  ao_refresh : db_discover_refresh a ⊆ db_discover_refresh b;
  ao_ctf_operations : db_ctf_operations a = db_ctf_operations b;
  ao_relayer_transactions : db_relayer_transactions a = db_relayer_transactions b;
  ao_sessions : sessions_le (db_run_sessions a) (db_run_sessions b);
}.

(** ** What the tables agree on *)

(** At most one row has a given value of a column. *)
Definition unique_on {K V A} `{Countable K} (column : V → option A) (t : gmap K V) : Prop :=
  ∀ k1 k2 r1 r2 a, t !! k1 = Some r1 → t !! k2 = Some r2 →
    column r1 = Some a → column r2 = Some a → k1 = k2.

(** A foreign key that may be NULL. *)
Definition refers {K V} `{Countable K} (key : option K) (t : gmap K V) : Prop :=
  ∀ k, key = Some k → is_Some (t !! k).

Definition journal_wf (next : Z) (t : gmap Z JournalEntryRow) : Prop :=
  map_Forall (λ k r, jr_journal_seq r = k ∧ k < next ∧ refers (jr_causal_parent_id r) t) t ∧
  unique_on (Some ∘ jr_dedupe_key) t.

Definition session_shape (r : RunSessionOf string DateTime) : Prop :=
  match run_session_state_from_str (run_state r) with
  | Ok s =>
      if is_terminal s then is_Some (run_ended_at r) ∧ is_Some (run_exit_status r)
      else run_ended_at r = None ∧ run_exit_status r = None ∧ run_exit_reason r = None
  | Err _ => False
  end.

Definition sessions_wf (t : gmap string (RunSessionOf string DateTime)) : Prop :=
  map_Forall (λ k r, run_run_session_id r = k ∧ session_shape r) t.

Definition attempts_wf (sessions : gmap string (RunSessionOf string DateTime))
    (t : gmap string AttemptColumns) : Prop :=
  map_Forall (λ _ a, is_ok (execution_mode_from_str (at_execution_mode a)) = true ∧
                     refers (at_run_session_id a) sessions) t.

Definition pending_wf (t : gmap string (PendingReconcileRow * DateTime)) : Prop :=
  map_Forall (λ k v, pr_pending_ref v.1 = k ∧ validate_pending_reconcile_row v.1 = Ok ()) t.

(** A row belongs to an attempt of the given mode. *)
Definition of_attempt (mode : ExecutionMode) (attempts : gmap string AttemptColumns)
    (attempt_id : string) : Prop :=
  ∃ a, attempts !! attempt_id = Some a ∧ mode_is mode a = true.

Definition submissions_wf (attempts : gmap string AttemptColumns)
    (t : gmap string (LiveSubmissionRecordRow * DateTime)) : Prop :=
  map_Forall (λ k v, lsr_submission_ref v.1 = k ∧
    validate_live_submission_record_row v.1 = Ok () ∧
    ∃ a, attempts !! lsr_attempt_id v.1 = Some a ∧ mode_is Live a = true ∧
      validate_live_submission_record_against_attempt v.1 (at_route a) (at_scope a) = Ok ()) t.

Definition shadow_artifacts_wf (attempts : gmap string AttemptColumns) (next : Z)
    (t : gmap Z ShadowExecutionArtifactRow) : Prop :=
  map_Forall (λ k v, k < next ∧ of_attempt Shadow attempts (xa_attempt_id v)) t.

Definition live_artifacts_wf (attempts : gmap string AttemptColumns)
    (t : gmap (string * string) Json) : Prop :=
  map_Forall (λ k _, of_attempt Live attempts k.1) t.

Definition progress_wf (sessions : gmap string (RunSessionOf string DateTime))
    (t : gmap string RuntimeProgressRow) : Prop :=
  map_Forall (λ _ p, refers (rp_active_run_session_id p) sessions) t.

Definition candidates_wf (t : gmap string CandidateTargetSetRow) : Prop :=
  map_Forall (λ k r, cts_candidate_revision r = k) t.
Definition adoptables_wf (candidates : gmap string CandidateTargetSetRow)
    (t : gmap string AdoptableTargetRevisionRow) : Prop :=
  map_Forall (λ k r, atr_adoptable_revision r = k ∧
                     is_Some (candidates !! atr_candidate_revision r)) t.
Definition provenance_wf (adoptables : gmap string AdoptableTargetRevisionRow)
    (t : gmap string CandidateAdoptionProvenanceRow) : Prop :=
  map_Forall (λ k r, cap_operator_target_revision r = k ∧
    ∃ a, adoptables !! cap_adoptable_revision r = Some a ∧
         atr_candidate_revision a = cap_candidate_revision r) t.
Definition target_history_wf (next : Z)
    (t : gmap string (OperatorTargetAdoptionHistoryRow * Z)) : Prop :=
  map_Forall (λ k v, oth_adoption_id v.1 = k ∧ v.2 < next ∧
    history_shape (oth_action_kind v.1) (oth_adoptable_revision v.1)
      (oth_candidate_revision v.1) = true) t ∧
  unique_on (Some ∘ snd) t.

Definition strategy_candidates_wf (t : gmap string StrategyCandidateSetRow) : Prop :=
  map_Forall (λ k r, scr_strategy_candidate_revision r = k) t.
Definition strategy_adoptables_wf (candidates : gmap string StrategyCandidateSetRow)
    (t : gmap string AdoptableStrategyRevisionRow) : Prop :=
  map_Forall (λ k r, asr_adoptable_strategy_revision r = k ∧
                     is_Some (candidates !! asr_strategy_candidate_revision r)) t.
Definition strategy_provenance_wf (adoptables : gmap string AdoptableStrategyRevisionRow)
    (t : gmap string StrategyAdoptionProvenanceRow) : Prop :=
  map_Forall (λ k r, sap_operator_strategy_revision r = k ∧
    ∃ a, adoptables !! sap_adoptable_strategy_revision r = Some a ∧
         asr_strategy_candidate_revision a = sap_strategy_candidate_revision r) t.
Definition strategy_history_wf (next : Z)
    (t : gmap string (OperatorStrategyAdoptionHistoryRow * Z)) : Prop :=
  map_Forall (λ k v, osh_adoption_id v.1 = k ∧ v.2 < next ∧
    history_shape (osh_action_kind v.1) (osh_adoptable_strategy_revision v.1)
      (osh_strategy_candidate_revision v.1) = true) t ∧
  unique_on (Some ∘ snd) t.
Definition refresh_wf (candidates : gmap string StrategyCandidateSetRow) (next : Z)
    (t : gmap Z string) : Prop :=
  map_Forall (λ k r, k < next ∧ is_Some (candidates !! r)) t.

Definition markets_wf (conditions : gmap string string) (t : gmap string MarketColumns) : Prop :=
  map_Forall (λ _ m, conditions !! mk_condition_id m = Some (mk_event_id m)) t ∧
  unique_on (Some ∘ mk_condition_id) t.

(** The records of the identifier map. *)
Definition records_of (rows : list IdentifierRecordRow) : result PersistenceError (list IdentifierRecord) :=
  collect_results identifier_row_into_domain rows.

Definition identifiers_wf (d : Db) : Prop :=
  map_Forall (λ k r, ix_token_id r = k ∧ identifier_links d r = true) (db_identifier_map d) ∧
  unique_on (λ r, Some (ix_condition_id r, ix_outcome_label r)) (db_identifier_map d) ∧
  ∃ records, records_of (identifier_rows d) = Ok records ∧ consistent records.

Definition orders_wf (identifiers : gmap string IdentifierRecordRow) (t : gmap string OrderRow) :
    Prop :=
  map_Forall (λ k o, ow_order_id o = k ∧ is_ok (into_stored_order o) = true ∧
    refers (ow_retry_of_order_id o) t ∧
    ∃ r, identifiers !! ow_token_id o = Some r ∧ ix_market_id r = ow_market_id o ∧
         ix_condition_id r = ow_condition_id o) t ∧
  unique_on ow_signed_order_hash t.

Definition approvals_wf (tokens : gmap string TokenColumns)
    (t : gmap ApprovalKey ApprovalStateRow) : Prop :=
  map_Forall (λ k r, ak_token_id k = ay_token_id r ∧ is_Some (tokens !! ay_token_id r) ∧
                     is_ok (approval_row_into_domain r) = true) t.

Definition buckets_wf (d : Db) : Prop :=
  map_Forall (λ k r, k = (ib_token_id r, ib_owner_address r, ib_bucket r) ∧
    is_ok (inventory_row_bucket r) = true ∧ is_Some (db_tokens d !! ib_token_id r) ∧
    refers (ib_linked_order_id r) (db_orders d)) (db_inventory_buckets d).

Record db_wf (d : Db) : Prop := {
  wf_journal : journal_wf (db_journal_seq d) (db_event_journal d);
  wf_sessions : sessions_wf (db_run_sessions d);
  wf_attempts : attempts_wf (db_run_sessions d) (db_execution_attempts d);
  wf_pending : pending_wf (db_pending_reconcile d);
  wf_submissions : submissions_wf (db_execution_attempts d) (db_live_submissions d);
  wf_shadow_artifacts :
    shadow_artifacts_wf (db_execution_attempts d) (db_artifact_seq d) (db_shadow_artifacts d);
  wf_live_artifacts : live_artifacts_wf (db_execution_attempts d) (db_live_artifacts d);
  wf_progress : progress_wf (db_run_sessions d) (db_runtime_progress d);
  wf_candidates : candidates_wf (db_candidate_target_sets d);
  wf_adoptables :
    adoptables_wf (db_candidate_target_sets d) (db_adoptable_target_revisions d);
  wf_provenance :
    provenance_wf (db_adoptable_target_revisions d) (db_candidate_provenance d);
  wf_target_history : target_history_wf (db_target_history_seq d) (db_target_history d);
  wf_strategy_candidates : strategy_candidates_wf (db_strategy_candidate_sets d);
  wf_strategy_adoptables :
    strategy_adoptables_wf (db_strategy_candidate_sets d) (db_adoptable_strategy_revisions d);
  wf_strategy_provenance :
    strategy_provenance_wf (db_adoptable_strategy_revisions d) (db_strategy_provenance d);
  wf_strategy_history : strategy_history_wf (db_strategy_history_seq d) (db_strategy_history d);
  wf_refresh :
    refresh_wf (db_strategy_candidate_sets d) (db_refresh_seq d) (db_discover_refresh d);
  wf_events : map_Forall (λ _ e, is_Some (db_event_families d !! ev_family_id e)) (db_events d);
  wf_conditions : map_Forall (λ _ e, is_Some (db_events d !! e)) (db_conditions d);
  wf_markets : markets_wf (db_conditions d) (db_markets d);
  wf_tokens : map_Forall (λ _ t, is_Some (db_conditions d !! tk_condition_id t)) (db_tokens d);
  wf_identifiers : identifiers_wf d;
  wf_orders : orders_wf (db_identifier_map d) (db_orders d);
  wf_approvals : approvals_wf (db_tokens d) (db_approval_states d);
  wf_buckets : buckets_wf d;
  wf_resolutions :
    map_Forall (λ k _, is_Some (db_conditions d !! k)) (db_resolution_states d);
}.
End histories.
