(* ===== verification/RepoHistory.v ===== *)
(** * Every history of the store keeps it

    The theorems about [RepoInvariants]: along every history rows are only added,
    sessions only move forward, and the tables stay consistent. *)

From S2P Require Import Prelude Text RecordSet Externals Json Domain Identifiers LiveRecords.
From S2P Require Import Discovery Rows Schema RepoJournal RepoExecution RepoSessions.
From S2P Require Import RepoControl RepoCatalog RepoInvariants.

#[local] Arguments set : simpl never.

Section tables.
Context {K V : Type} `{Countable K}.
Implicit Types (t : gmap K V).

Lemma unique_on_insert {A} (column : V → option A) t k row :
  unique_on column t →
  (∀ k' r a, t !! k' = Some r → column r = Some a → column row = Some a → k' = k) →
  unique_on column (<[k := row]> t).
Proof.
  intros Hu Hr k1 k2 r1 r2 a. rewrite !lookup_insert_Some.
  intros [[<- <-]|[? H1]] [[<- <-]|[? H2]] C1 C2; [done|symmetry| |]; eauto.
Qed.

Lemma refers_mono {V'} (key : option K) (t : gmap K V) (t' : gmap K V') :
  (∀ k, is_Some (t !! k) → is_Some (t' !! k)) → refers key t → refers key t'.
Proof. unfold refers. auto. Qed.

Lemma refers_subseteq (key : option K) t t' : t ⊆ t' → refers key t → refers key t'.
Proof. intros Hs. apply refers_mono. intros k [v Hv]. exists v. by eapply lookup_weaken. Qed.

Lemma is_Some_weaken t t' k : t ⊆ t' → is_Some (t !! k) → is_Some (t' !! k).
Proof. intros Hs [v Hv]. exists v. by eapply lookup_weaken. Qed.
End tables.

Lemma collect_results_Ok {E A B} (f : A → result E B) l ys :
  collect_results f l = Ok ys ↔ Forall2 (λ x y, f x = Ok y) l ys.
Proof.
  revert ys. induction l as [|x l IH]; intros ys; simpl.
  - split; [intros [= <-]; constructor|by inversion 1].
  - split.
    + intros (y & Hy & (ys' & Hys & [= <-])%result_bind_Ok)%result_bind_Ok.
      constructor; [done|by apply IH].
    + inversion 1 as [|???? Hy Hys]; subst. apply IH in Hys. by rewrite Hy; simpl; rewrite Hys.
Qed.

Lemma collect_results_total {E A B} (f : A → result E B) l :
  (∀ x, x ∈ l → ∃ y, f x = Ok y) → ∃ ys, collect_results f l = Ok ys.
Proof.
  intros Hl. assert (∃ ys, Forall2 (λ x y, f x = Ok y) l ys) as [ys Hys].
  { induction l as [|x l IH]; [by exists []|]. destruct (Hl x ltac:(left)) as [y Hy].
    destruct IH as [ys Hys]; [intros; apply Hl; by right|]. exists (y :: ys). by constructor. }
  exists ys. by apply collect_results_Ok.
Qed.

Lemma elem_of_collect_results {E A B} (f : A → result E B) l ys y :
  collect_results f l = Ok ys → y ∈ ys ↔ ∃ x, x ∈ l ∧ f x = Ok y.
Proof.
  intros Hl%collect_results_Ok. split.
  - intros Hy. apply list_elem_of_lookup in Hy as [i Hi].
    destruct (Forall2_lookup_r _ _ _ _ _ Hl Hi) as (x & Hx & ?). exists x.
    split; [by eapply list_elem_of_lookup_2|done].
  - intros (x & Hx & Hf). apply list_elem_of_lookup in Hx as [i Hi].
    destruct (Forall2_lookup_l _ _ _ _ _ Hl Hi) as (y' & Hy & ?). simplify_eq.
    replace y with y' by congruence. by eapply list_elem_of_lookup_2.
Qed.

Section history.
Context {X : Externals} {O : OrderLaws X} {J : JsonOps} {P : PgOps} {PL : PgLaws P}.

(** ** Sessions *)

Lemma dt_leb_refl a : dt_leb a a = true.
Proof. unfold dt_leb. by rewrite (cmp_refl dt_cmp). Qed.

Lemma dt_leb_trans a b c : dt_leb a b = true → dt_leb b c = true → dt_leb a c = true.
Proof.
  unfold dt_leb. pose proof (cmp_trans (cmp:=dt_cmp) a b c).
  destruct (dt_cmp a b), (dt_cmp b c), (dt_cmp a c); naive_solver.
Qed.

Lemma dt_leb_greatest a b : dt_leb a (greatest a b) = true.
Proof. unfold greatest. destruct (dt_leb a b) eqn:E; [done|apply dt_leb_refl]. Qed.

Lemma session_next_trans a b c :
  session_next a b = true → session_next b c = true → session_next a c = true.
Proof.
  unfold session_next. rewrite !bool_decide_eq_true, !elem_of_cons, !elem_of_nil. naive_solver.
Qed.

#[export] Instance session_le_preorder : PreOrder session_le.
Proof.
  split.
  - intros r. split; [done|apply dt_leb_refl|by left].
  - intros r1 r2 r3 [I1 S1 T1] [I2 S2 T2]. split; [congruence|eauto using dt_leb_trans|].
    destruct T1 as [->|T1]; [done|]. destruct T2 as [<-|T2]; [by right|].
    right. eauto using session_next_trans.
Qed.

#[export] Instance sessions_le_preorder : PreOrder sessions_le.
Proof.
  split; [intros s id r Hr; exists r; split; [done|reflexivity]|].
  intros s1 s2 s3 H1 H2 id r Hr. destruct (H1 id r Hr) as (r' & Hr' & L1).
  destruct (H2 id r' Hr') as (r'' & Hr'' & L2). exists r''. split; [done|by etrans].
Qed.

Lemma sessions_le_insert s id r r' :
  s !! id = Some r → session_le r r' → sessions_le s (<[id := r']> s).
Proof.
  intros Hr Hle id' q Hq. destruct (decide (id = id')) as [<-|].
  - exists r'. rewrite lookup_insert_eq. naive_solver.
  - exists q. rewrite lookup_insert_ne by done. split; [done|reflexivity].
Qed.

Lemma sessions_le_new s id r : s !! id = None → sessions_le s (<[id := r]> s).
Proof.
  intros Hn id' q Hq. exists q. split; [|reflexivity]. rewrite lookup_insert_ne; congruence.
Qed.

Lemma refers_sessions key s s' : sessions_le s s' → refers key s → refers key s'.
Proof.
  intros Hs. apply refers_mono. intros k [r Hr]. destruct (Hs k r Hr) as (r' & ? & _). by exists r'.
Qed.

Lemma run_session_exists_refers db key :
  run_session_exists db key = true ↔ refers key (db_run_sessions db).
Proof.
  unfold run_session_exists, refers. destruct key as [k|]; [|naive_solver].
  rewrite bool_decide_eq_true. split.
  - intros Hk ? [= <-]. by apply not_eq_None_Some.
  - intros Hk. apply not_eq_None_Some. auto.
Qed.

#[export] Instance append_only_preorder : PreOrder append_only.
Proof.
  split; [intros a; split; reflexivity|].
  intros a b c [] []; split; etrans; eassumption.
Qed.

(** ** The tables agree, whatever is added *)

Lemma journal_wf_next n n' t : n <= n' → journal_wf n t → journal_wf n' t.
Proof.
  intros Hn [Ht Hu]. split; [|done]. eapply map_Forall_impl; [exact Ht|]. naive_solver (lia).
Qed.

Lemma attempts_wf_mono s s' t : sessions_le s s' → attempts_wf s t → attempts_wf s' t.
Proof.
  intros Hs Ht. eapply map_Forall_impl; [exact Ht|]. simpl. naive_solver (eauto using refers_sessions).
Qed.

Lemma progress_wf_mono s s' t : sessions_le s s' → progress_wf s t → progress_wf s' t.
Proof.
  intros Hs Ht. eapply map_Forall_impl; [exact Ht|]. simpl. eauto using refers_sessions.
Qed.

Lemma submissions_wf_mono a a' t : a ⊆ a' → submissions_wf a t → submissions_wf a' t.
Proof.
  intros Hs Ht. eapply map_Forall_impl; [exact Ht|]. simpl.
  naive_solver (eauto using lookup_weaken).
Qed.

Lemma of_attempt_mono mode a a' id : a ⊆ a' → of_attempt mode a id → of_attempt mode a' id.
Proof. unfold of_attempt. naive_solver (eauto using lookup_weaken). Qed.

Lemma shadow_artifacts_wf_mono a a' n n' t :
  a ⊆ a' → n <= n' → shadow_artifacts_wf a n t → shadow_artifacts_wf a' n' t.
Proof.
  intros Hs Hn Ht. eapply map_Forall_impl; [exact Ht|]. simpl.
  intros k v [? Hv]. split; [lia|eauto using of_attempt_mono].
Qed.

Lemma live_artifacts_wf_mono a a' t : a ⊆ a' → live_artifacts_wf a t → live_artifacts_wf a' t.
Proof.
  intros Hs Ht. eapply map_Forall_impl; [exact Ht|]. simpl. eauto using of_attempt_mono.
Qed.

Lemma adoptables_wf_mono c c' t : c ⊆ c' → adoptables_wf c t → adoptables_wf c' t.
Proof.
  intros Hs Ht. eapply map_Forall_impl; [exact Ht|]. naive_solver (eauto using is_Some_weaken).
Qed.

Lemma provenance_wf_mono a a' t : a ⊆ a' → provenance_wf a t → provenance_wf a' t.
Proof.
  intros Hs Ht. eapply map_Forall_impl; [exact Ht|]. simpl.
  naive_solver (eauto using lookup_weaken).
Qed.

Lemma strategy_adoptables_wf_mono c c' t :
  c ⊆ c' → strategy_adoptables_wf c t → strategy_adoptables_wf c' t.
Proof.
  intros Hs Ht. eapply map_Forall_impl; [exact Ht|]. naive_solver (eauto using is_Some_weaken).
Qed.

Lemma strategy_provenance_wf_mono a a' t :
  a ⊆ a' → strategy_provenance_wf a t → strategy_provenance_wf a' t.
Proof.
  intros Hs Ht. eapply map_Forall_impl; [exact Ht|]. simpl.
  naive_solver (eauto using lookup_weaken).
Qed.

Lemma refresh_wf_mono c c' n n' t :
  c ⊆ c' → n <= n' → refresh_wf c n t → refresh_wf c' n' t.
Proof.
  intros Hs Hn Ht. eapply map_Forall_impl; [exact Ht|]. simpl.
  intros k v [? Hv]. split; [lia|eauto using is_Some_weaken].
Qed.

Lemma target_history_wf_next n n' t : n <= n' → target_history_wf n t → target_history_wf n' t.
Proof.
  intros Hn [Ht Hu]. split; [|done]. eapply map_Forall_impl; [exact Ht|]. naive_solver (lia).
Qed.
Lemma strategy_history_wf_next n n' t :
  n <= n' → strategy_history_wf n t → strategy_history_wf n' t.
Proof.
  intros Hn [Ht Hu]. split; [|done]. eapply map_Forall_impl; [exact Ht|]. naive_solver (lia).
Qed.

Lemma markets_wf_mono c c' t : c ⊆ c' → markets_wf c t → markets_wf c' t.
Proof.
  intros Hs [Ht Hu]. split; [|done]. eapply map_Forall_impl; [exact Ht|].
  simpl. eauto using lookup_weaken.
Qed.

Lemma references_mono {K V K' V'} `{Countable K, Countable K'} (key : V' → K) (t t' : gmap K V)
    (u : gmap K' V') :
  t ⊆ t' → map_Forall (λ _ r, is_Some (t !! key r)) u → map_Forall (λ _ r, is_Some (t' !! key r)) u.
Proof.
  intros Hs Ht. eapply map_Forall_impl; [exact Ht|]. simpl. eauto using is_Some_weaken.
Qed.

Lemma references_key_mono {K V V'} `{Countable K} (t t' : gmap K V) (u : gmap K V') :
  t ⊆ t' → map_Forall (λ k _, is_Some (t !! k)) u → map_Forall (λ k _, is_Some (t' !! k)) u.
Proof.
  intros Hs Ht. eapply map_Forall_impl; [exact Ht|]. simpl. eauto using is_Some_weaken.
Qed.

Lemma orders_wf_mono i i' t : i ⊆ i' → orders_wf i t → orders_wf i' t.
Proof.
  intros Hs [Ht Hu]. split; [|done]. eapply map_Forall_impl; [exact Ht|]. simpl.
  naive_solver (eauto using lookup_weaken).
Qed.

Lemma approvals_wf_mono s s' t : s ⊆ s' → approvals_wf s t → approvals_wf s' t.
Proof.
  intros Hs Ht. eapply map_Forall_impl; [exact Ht|]. naive_solver (eauto using is_Some_weaken).
Qed.

Lemma buckets_wf_mono a b :
  db_inventory_buckets a = db_inventory_buckets b → db_tokens a ⊆ db_tokens b →
  db_orders a ⊆ db_orders b → buckets_wf a → buckets_wf b.
Proof.
  unfold buckets_wf. intros <- Ht Ho Hw. eapply map_Forall_impl; [exact Hw|]. simpl.
  naive_solver (eauto using is_Some_weaken, refers_subseteq).
Qed.

Lemma identifier_links_mono a b r :
  append_only a b → identifier_links a r = true → identifier_links b r = true.
Proof.
  intros [Hf He Hc Hm Ht]. unfold identifier_links.
  destruct (db_tokens a !! ix_token_id r) eqn:E1, (db_markets a !! ix_market_id r) eqn:E2,
    (db_events a !! ix_event_id r) eqn:E3;
    try (intros; discriminate).
  rewrite (lookup_weaken _ _ _ _ E1 Ht), (lookup_weaken _ _ _ _ E2 Hm),
    (lookup_weaken _ _ _ _ E3 He), !andb_true_iff, !bool_decide_eq_true.
  intros (((((->&->)&->)&Hcond)&->)&Hfam). split_and!; try done.
  - by eapply lookup_weaken.
  - rewrite not_eq_None_Some in Hfam. apply not_eq_None_Some. by eapply is_Some_weaken.
Qed.

Lemma identifiers_wf_mono a b :
  append_only a b → db_identifier_map a = db_identifier_map b →
  identifiers_wf a → identifiers_wf b.
Proof.
  unfold identifiers_wf, identifier_rows. intros Hab <- (Ht & Hrest). split; [|done].
  eapply map_Forall_impl; [exact Ht|]. simpl. naive_solver (eauto using identifier_links_mono).
Qed.
End history.

(** ** Statements *)

Section statements.
Context {X : Externals} {O : OrderLaws X} {J : JsonOps} {P : PgOps} {PL : PgLaws P}.

(** What every statement does to the store. *)
Record lawful (a b : Db) : Prop := {
  lw_seqs : seqs_le a b;
  lw_wf : db_wf a → append_only a b ∧ db_wf b;
}.

#[export] Instance lawful_preorder : PreOrder lawful.
Proof.
  split; [intros a; split; [reflexivity|split; [reflexivity|done]]|].
  intros a b c [S1 W1] [S2 W2]; split; [by etrans|].
  intros W. destruct (W1 W) as [A1 W']. destruct (W2 W') as [A2 W'']. split; [by etrans|done].
Qed.

Lemma lawful_rollback a b : lawful a b → lawful a (rollback a b).
Proof.
  intros [[] _]. split; [constructor; assumption|].
  intros []. split; [constructor; reflexivity|]. constructor; try assumption.
  - by eapply journal_wf_next.
  - by eapply shadow_artifacts_wf_mono.
  - by eapply target_history_wf_next.
  - by eapply strategy_history_wf_next.
  - by eapply refresh_wf_mono.
Qed.

#[export] Instance lawful_store : StoreRel lawful.
Proof. split; [exact _|by intros ?? []|apply lawful_rollback]. Qed.

(** A change of tables no invariant is about. *)
Ltac untouched := split; [constructor; simpl; lia|
  intros []; split; [constructor; reflexivity|constructor; assumption]].

(** A change that adds a row; what is left is about the invariants of its table. *)
Ltac adds_row := split; [constructor; simpl; lia|]; intros []; split;
  [ constructor; simpl; first [ reflexivity | assumption | apply insert_subseteq ]; try assumption
  | constructor; try assumption; simpl ].

Lemma nextval_Some seq n : nextval seq = Some n → n = seq.
Proof. unfold nextval. case_bool_decide; congruence. Qed.

Lemma lawful_bump_journal db :
  lawful db (db <| db_journal_seq := db_journal_seq db + 1 |>).
Proof.
  adds_row. eapply journal_wf_next; [|done]. lia.
Qed.

Lemma lawful_journal_insert db entry now :
  has_row (db_event_journal db) (λ _ r, bool_decide (jr_dedupe_key r = ji_dedupe_key entry))
    = false →
  db_event_journal db !! db_journal_seq db = None →
  match ji_causal_parent_id entry with
  | Some parent =>
      <[db_journal_seq db := journal_entry_row (db_journal_seq db) entry now]>
        (db_event_journal db) !! parent ≠ None
  | None => True
  end →
  lawful db (db <| db_journal_seq := db_journal_seq db + 1 |>
                <| db_event_journal := <[db_journal_seq db :=
                     journal_entry_row (db_journal_seq db) entry now]> (db_event_journal db) |>).
Proof.
  intros Hd Hn Hp. adds_row.
  destruct wf_journal as [Ht Hu]. split.
  - apply map_Forall_insert_2.
    + simpl. split_and!; [done|lia|]. intros k E. rewrite E in Hp. by apply not_eq_None_Some.
    + eapply map_Forall_impl; [exact Ht|]. simpl. intros k r (? & ? & Hr). split_and!; [done|lia|].
      eapply refers_subseteq; [|done]. by apply insert_subseteq.
  - apply unique_on_insert; [done|]. intros k' r a Hr [= <-] [= E].
    rewrite has_row_false in Hd. apply Hd in Hr. simpl in E. rewrite E in Hr.
    apply bool_decide_eq_false in Hr. done.
Qed.

Lemma tx_in_append_journal_entry entry : tx_in lawful (append_journal_entry entry).
Proof.
  intros now db. unfold append_journal_entry.
  destruct (nextval _) as [seq|] eqn:E; [|reflexivity]. apply nextval_Some in E as ->. simpl.
  destruct (has_row _ _) eqn:Hd; [apply lawful_bump_journal|].
  case_bool_decide as Hn; [apply lawful_bump_journal|].
  destruct (match ji_causal_parent_id entry with Some _ => _ | None => false end) eqn:Hp;
    [apply lawful_bump_journal|].
  apply lawful_journal_insert; [done|done|].
  destruct (ji_causal_parent_id entry); [|done]. by apply bool_decide_eq_false in Hp.
Qed.

(** *** Executions *)

Lemma lawful_insert_attempt db row now :
  db_execution_attempts db !! xr_attempt_id row = None →
  run_session_exists db (xr_run_session_id row) = true →
  lawful db (db <| db_execution_attempts ::=
                  insert (xr_attempt_id row) (attempt_columns row now) |>).
Proof.
  intros Hn Hr%run_session_exists_refers.
  pose proof (insert_subseteq _ _ (attempt_columns row now) Hn) as Hs.
  adds_row.
  - apply map_Forall_insert_2; [|done]. simpl. split; [|done]. by destruct (xr_execution_mode row).
  - by eapply submissions_wf_mono.
  - by eapply shadow_artifacts_wf_mono; [..|done].
  - by eapply live_artifacts_wf_mono.
Qed.

Lemma tx_in_insert_execution_attempt row : tx_in lawful (insert_execution_attempt row).
Proof.
  intros now db. unfold insert_execution_attempt.
  case_bool_decide as E; [reflexivity|].
  destruct (run_session_exists _ _) eqn:Er; [|reflexivity]. by apply lawful_insert_attempt.
Qed.

Lemma tx_in_insert_attempt_or_nothing row : tx_in lawful (insert_attempt_or_nothing row).
Proof.
  intros now db. unfold insert_attempt_or_nothing.
  case_bool_decide as E; [reflexivity|].
  destruct (run_session_exists _ _) eqn:Er; [|reflexivity]. by apply lawful_insert_attempt.
Qed.

Lemma tx_in_insert_pending_reconcile row :
  validate_pending_reconcile_row row = Ok () → tx_in lawful (insert_pending_reconcile row).
Proof.
  intros Hv now db. unfold insert_pending_reconcile.
  case_bool_decide as E; [reflexivity|]. simpl.
  adds_row. by apply map_Forall_insert_2.
Qed.

Lemma tx_in_insert_live_submission_at row now db a :
  validate_live_submission_record_row row = Ok () →
  live_attempt db (lsr_attempt_id row) = Some a →
  validate_live_submission_record_against_attempt row (at_route a) (at_scope a) = Ok () →
  lawful db (insert_live_submission row now db).1.
Proof.
  intros Hv Ha Hr. unfold insert_live_submission. rewrite bool_decide_eq_false_2 by congruence.
  case_bool_decide as E; [reflexivity|]. simpl.
  adds_row. apply map_Forall_insert_2; [|done]. simpl.
  split_and!; [done|done|]. exists a. unfold live_attempt in Ha.
  apply bind_Some in Ha as (a' & Ha' & Hl). destruct (mode_is Live a') eqn:?; naive_solver.
Qed.

Lemma tx_in_append_shadow_artifact row : tx_in lawful (append_shadow_execution_artifact row).
Proof.
  intros now db. unfold append_shadow_execution_artifact.
  destruct (db_execution_attempts db !! _) as [a|] eqn:Ea; [|reflexivity].
  destruct (mode_is Shadow a) eqn:Em; [|reflexivity].
  destruct (nextval _) as [seq|] eqn:E; [|reflexivity]. apply nextval_Some in E as ->. simpl.
  split; [constructor; simpl; lia|]. intros Hwf.
  assert (db_shadow_artifacts db !! db_artifact_seq db = None) as Hn.
  { apply eq_None_not_Some. intros [v Hv]. apply (wf_shadow_artifacts _ Hwf) in Hv as [? _]. lia. }
  destruct Hwf. split; [constructor; simpl; try reflexivity; by apply insert_subseteq|].
  constructor; try assumption. simpl. apply map_Forall_insert_2.
  - split; [lia|]. by exists a.
  - eapply shadow_artifacts_wf_mono; [done|..|done]. lia.
Qed.

Lemma tx_in_insert_live_artifact row : tx_in lawful (insert_live_artifact row).
Proof.
  intros now db. unfold insert_live_artifact.
  case_bool_decide as Ha; [reflexivity|]. case_bool_decide as Hn; [reflexivity|]. simpl. adds_row. apply map_Forall_insert_2; [|done]. simpl.
  unfold live_attempt in Ha. destruct (db_execution_attempts db !! _) as [a|] eqn:E; [|done].
  exists a. split; [done|]. simpl in Ha. by destruct (mode_is Live a).
Qed.

(** *** Sessions and progress *)

Lemma run_session_state_text s : run_session_state_from_str (run_session_state_as_str s) = Ok s.
Proof. exact (column_parse_text (A := RunSessionState) s). Qed.

Lemma tx_in_insert_run_session row :
  run_state row = SessionStarting → tx_in lawful (insert_run_session row).
Proof.
  intros Hs now db. unfold insert_run_session. case_bool_decide as Hn; [reflexivity|]. simpl.
  pose proof (sessions_le_new _ _ (starting_columns row) Hn) as Hle.
  adds_row.
  - apply map_Forall_insert_2; [|done]. split; [done|].
    unfold session_shape, starting_columns; simpl. by rewrite run_session_state_text, Hs.
  - by eapply attempts_wf_mono.
  - by eapply progress_wf_mono.
Qed.

Lemma tx_in_update_run_session id labels change :
  (∀ r, run_state r ∈ labels → session_le r (change r)) →
  (∀ r, run_state r ∈ labels → session_shape r → session_shape (change r)) →
  tx_in lawful (update_run_session id labels change).
Proof.
  intros Hle Hshape now db. unfold update_run_session.
  destruct (db_run_sessions db !! id) as [r|] eqn:E; [|reflexivity].
  case_bool_decide as Hl; [|reflexivity]. simpl.
  pose proof (sessions_le_insert _ _ _ _ E (Hle r Hl)) as Hs.
  adds_row.
  - destruct (wf_sessions _ _ E) as [Hid Hr]. apply map_Forall_insert_2; [|done].
    split; [|auto]. destruct (Hle r Hl) as [Hi _ _]. unfold session_identity in Hi. congruence.
  - by eapply attempts_wf_mono.
  - by eapply progress_wf_mono.
Qed.

Lemma session_le_transition t r :
  session_next (run_state r) (run_session_state_as_str (tr_to_state t)) = true →
  session_le r (transition_columns t r).
Proof. intros Hn. split; [done|apply dt_leb_greatest|by right]. Qed.

Lemma session_shape_transition t r :
  (if is_terminal (tr_to_state t) then is_Some (tr_exit_status t)
   else tr_exit_status t = None ∧ tr_exit_reason t = None) →
  session_shape (transition_columns t r).
Proof.
  intros Ht. unfold session_shape, transition_columns; simpl. rewrite run_session_state_text.
  destruct (is_terminal _); naive_solver.
Qed.

Lemma tx_in_transition t :
  (∀ s, s ∈ run_session_state_as_str <$> tr_allowed_from t →
        session_next s (run_session_state_as_str (tr_to_state t)) = true) →
  (if is_terminal (tr_to_state t) then is_Some (tr_exit_status t)
   else tr_exit_status t = None ∧ tr_exit_reason t = None) →
  tx_in lawful (update_run_session (tr_run_session_id t)
    (run_session_state_as_str <$> tr_allowed_from t) (transition_columns t)).
Proof.
  intros Hn Ht. apply tx_in_update_run_session.
  - intros r Hr. by apply session_le_transition, Hn.
  - intros r _ _. by apply session_shape_transition.
Qed.

Lemma tx_in_seen id seen_at :
  tx_in lawful (update_run_session id ["starting"; "running"] (seen_columns seen_at)).
Proof.
  apply tx_in_update_run_session; intros r Hr.
  - split; [done|apply dt_leb_greatest|right]. simpl.
    apply elem_of_cons in Hr as [->| ->%list_elem_of_singleton]; done.
  - unfold session_shape, seen_columns; simpl. done.
Qed.

Lemma lawful_progress db row :
  run_session_exists db (rp_active_run_session_id row) = true →
  lawful db (db <| db_runtime_progress ::= insert RUNTIME_PROGRESS_KEY row |>).
Proof.
  intros Hr%run_session_exists_refers. adds_row. by apply map_Forall_insert_2.
Qed.

Lemma tx_in_upsert_progress row : tx_in lawful (upsert_progress row).
Proof.
  intros now db. unfold upsert_progress. destruct (run_session_exists _ _) eqn:E; [|reflexivity].
  by apply lawful_progress.
Qed.

Lemma tx_in_update_active_session id : tx_in lawful (update_active_session id).
Proof.
  intros now db. unfold update_active_session.
  destruct (db_runtime_progress db !! _) as [row|]; [|reflexivity].
  destruct (run_session_exists _ _) eqn:E; [|reflexivity]. by apply lawful_progress.
Qed.

(** *** The control plane *)

Lemma tx_in_insert_candidate_target_set row : tx_in lawful (insert_candidate_target_set row).
Proof.
  intros now db. unfold insert_candidate_target_set. case_bool_decide as Hn; [reflexivity|]. simpl.
  pose proof (insert_subseteq _ _ row Hn) as Hs.
  adds_row; [by apply map_Forall_insert_2|by eapply adoptables_wf_mono].
Qed.

Lemma tx_in_insert_adoptable_target_revision row :
  tx_in lawful (insert_adoptable_target_revision row).
Proof.
  intros now db. unfold insert_adoptable_target_revision.
  case_bool_decide as Hn; [reflexivity|]. case_bool_decide as Hc; [reflexivity|]. simpl.
  pose proof (insert_subseteq _ _ row Hn) as Hs. apply not_eq_None_Some in Hc.
  adds_row; [by apply map_Forall_insert_2|by eapply provenance_wf_mono].
Qed.

Lemma tx_in_insert_candidate_provenance row : tx_in lawful (insert_candidate_provenance row).
Proof.
  intros now db. unfold insert_candidate_provenance, adoptable_of_candidate.
  case_bool_decide as Hn; [reflexivity|].
  destruct (db_adoptable_target_revisions db !! _) as [a|] eqn:Ha; [|reflexivity]. simpl.
  case_bool_decide as Hc; [|reflexivity]. simpl.
  adds_row. apply map_Forall_insert_2; [|done]. split; [done|]. by exists a.
Qed.

Lemma tx_in_insert_strategy_candidate_set row : tx_in lawful (insert_strategy_candidate_set row).
Proof.
  intros now db. unfold insert_strategy_candidate_set.
  case_bool_decide as Hn; [reflexivity|]. simpl. pose proof (insert_subseteq _ _ row Hn) as Hs.
  adds_row; [by apply map_Forall_insert_2|by eapply strategy_adoptables_wf_mono|].
  eapply refresh_wf_mono; [done|..|done]. lia.
Qed.

Lemma tx_in_insert_adoptable_strategy_revision row :
  tx_in lawful (insert_adoptable_strategy_revision row).
Proof.
  intros now db. unfold insert_adoptable_strategy_revision.
  case_bool_decide as Hn; [reflexivity|]. case_bool_decide as Hc; [reflexivity|]. simpl.
  pose proof (insert_subseteq _ _ row Hn) as Hs. apply not_eq_None_Some in Hc.
  adds_row; [by apply map_Forall_insert_2|by eapply strategy_provenance_wf_mono].
Qed.

Lemma tx_in_insert_strategy_provenance row : tx_in lawful (insert_strategy_provenance row).
Proof.
  intros now db. unfold insert_strategy_provenance, adoptable_of_strategy_candidate.
  case_bool_decide as Hn; [reflexivity|].
  destruct (db_adoptable_strategy_revisions db !! _) as [a|] eqn:Ha; [|reflexivity]. simpl.
  case_bool_decide as Hc; [|reflexivity]. simpl.
  adds_row. apply map_Forall_insert_2; [|done]. split; [done|]. by exists a.
Qed.

Lemma lawful_bump_refresh db : lawful db (db <| db_refresh_seq := db_refresh_seq db + 1 |>).
Proof. adds_row. eapply refresh_wf_mono; [..|done]; [done|lia]. Qed.
Lemma lawful_bump_target db :
  lawful db (db <| db_target_history_seq := db_target_history_seq db + 1 |>).
Proof. adds_row. eapply target_history_wf_next; [|done]. lia. Qed.
Lemma lawful_bump_strategy db :
  lawful db (db <| db_strategy_history_seq := db_strategy_history_seq db + 1 |>).
Proof. adds_row. eapply strategy_history_wf_next; [|done]. lia. Qed.

Lemma pool_in_append_discover_refresh revision : pool_in lawful (append_discover_refresh revision).
Proof.
  apply pool_in_stmt; [exact _|]. intros now db.
  destruct (nextval _) as [seq|] eqn:E; [|reflexivity]. apply nextval_Some in E as ->. simpl.
  case_bool_decide as Hc; [apply lawful_bump_refresh|]. apply not_eq_None_Some in Hc. simpl.
  split; [constructor; simpl; lia|]. intros Hwf.
  assert (db_discover_refresh db !! db_refresh_seq db = None) as Hn.
  { apply eq_None_not_Some. intros [v Hv]. apply (wf_refresh _ Hwf) in Hv as [? _]. lia. }
  destruct Hwf. split; [constructor; simpl; try reflexivity; by apply insert_subseteq|].
  constructor; try assumption. simpl. apply map_Forall_insert_2; [split; [lia|done]|].
  eapply refresh_wf_mono; [done|..|done]. lia.
Qed.

Lemma tx_in_insert_target_history row : tx_in lawful (insert_target_history row).
Proof.
  intros now db. unfold insert_target_history.
  destruct (nextval _) as [seq|] eqn:E; [|reflexivity]. apply nextval_Some in E as ->. simpl.
  destruct (history_shape _ _ _) eqn:Hh; [|apply lawful_bump_target]. simpl.
  case_bool_decide as Hn; [apply lawful_bump_target|]. simpl.
  adds_row. destruct wf_target_history as [Ht Hu]. split.
  - apply map_Forall_insert_2; [split_and!; [done|simpl; lia|done]|].
    eapply map_Forall_impl; [exact Ht|]. naive_solver (lia).
  - apply unique_on_insert; [done|]. intros k r a Hr [= <-] [= E]. apply Ht in Hr. lia.
Qed.

Lemma tx_in_insert_strategy_history row : tx_in lawful (insert_strategy_history row).
Proof.
  intros now db. unfold insert_strategy_history.
  destruct (nextval _) as [seq|] eqn:E; [|reflexivity]. apply nextval_Some in E as ->. simpl.
  destruct (history_shape _ _ _) eqn:Hh; [|apply lawful_bump_strategy]. simpl.
  case_bool_decide as Hn; [apply lawful_bump_strategy|]. simpl.
  adds_row. destruct wf_strategy_history as [Ht Hu]. split.
  - apply map_Forall_insert_2; [split_and!; [done|simpl; lia|done]|].
    eapply map_Forall_impl; [exact Ht|]. naive_solver (lia).
  - apply unique_on_insert; [done|]. intros k r a Hr [= <-] [= E]. apply Ht in Hr. lia.
Qed.

(** *** Identifiers *)

(** A change that adds a row other tables refer to. *)
Ltac extends a b :=
  let Ha := fresh "Hkept" in
  assert (append_only a b) as Ha
    by (constructor; simpl; first [reflexivity | by apply insert_subseteq]);
  split; [constructor; simpl; lia|]; intros [];
  split; [exact Ha|constructor; try assumption; simpl];
  try (by apply (identifiers_wf_mono _ _ Ha)).

Lemma tx_in_insert_event_family row : tx_in lawful (insert_or_confirm_event_family row).
Proof.
  intros now db. unfold insert_or_confirm_event_family, mbind, tx_bind, query.
  destruct (db_event_families db !! _) eqn:E; [case_match; reflexivity|]. simpl.
  match goal with |- lawful ?a ?b => extends a b end.
  eapply references_mono; [by apply insert_subseteq|done].
Qed.

Lemma tx_in_insert_event row : tx_in lawful (insert_or_confirm_event row).
Proof.
  intros now db. unfold insert_or_confirm_event, mbind, tx_bind, query.
  destruct (db_events db !! _) eqn:E; [case_match; reflexivity|].
  case_bool_decide as Hf; [|reflexivity]. apply not_eq_None_Some in Hf. simpl.
  match goal with |- lawful ?a ?b => extends a b end.
  - by apply map_Forall_insert_2.
  - eapply (references_mono id); [by apply insert_subseteq|done].
Qed.

Lemma tx_in_insert_condition row : tx_in lawful (insert_or_confirm_condition row).
Proof.
  intros now db. unfold insert_or_confirm_condition, mbind, tx_bind, query.
  destruct (db_conditions db !! _) eqn:E; [case_match; reflexivity|].
  case_bool_decide as Hf; [|reflexivity]. apply not_eq_None_Some in Hf. simpl.
  match goal with |- lawful ?a ?b => extends a b end.
  - by apply map_Forall_insert_2.
  - eapply markets_wf_mono; [by apply insert_subseteq|done].
  - eapply references_mono; [by apply insert_subseteq|done].
  - eapply references_key_mono; [by apply insert_subseteq|done].
Qed.

Lemma tx_in_insert_market row : tx_in lawful (insert_or_confirm_market row).
Proof.
  intros now db. unfold insert_or_confirm_market, mbind, tx_bind, query, tx_of.
  destruct (db_markets db !! _) eqn:E; [repeat case_match; simplify_eq/=; reflexivity|].
  destruct (market_of_condition _ _) eqn:Ht; [reflexivity|].
  case_bool_decide as Hf; [|reflexivity]. simpl.
  match goal with |- lawful ?a ?b => extends a b end.
  destruct wf_markets as [Hm Hu]. split; [by apply map_Forall_insert_2|].
  apply unique_on_insert; [done|]. intros k r a Hr [= <-] [= Ea].
  unfold market_of_condition in Ht. rewrite has_row_false in Ht. apply Ht in Hr.
  by apply bool_decide_eq_false in Hr.
Qed.

Lemma tx_in_insert_token row : tx_in lawful (insert_or_confirm_token row).
Proof.
  intros now db. unfold insert_or_confirm_token, mbind, tx_bind, query.
  destruct (db_tokens db !! _) eqn:E; [repeat case_match; reflexivity|].
  case_bool_decide as Hf; [|reflexivity]. apply not_eq_None_Some in Hf. simpl.
  match goal with |- lawful ?a ?b => extends a b end.
  - by apply map_Forall_insert_2.
  - eapply approvals_wf_mono; [by apply insert_subseteq|done].
  - eapply buckets_wf_mono; [..|done]; simpl; [done|by apply insert_subseteq|done].
Qed.

Lemma identifier_row_roundtrip record :
  identifier_row_into_domain (identifier_row_from_domain record) = Ok record.
Proof. destruct record as [?????? []]; reflexivity. Qed.

Lemma elem_of_identifier_rows db row :
  row ∈ identifier_rows db ↔ ∃ k, db_identifier_map db !! k = Some row.
Proof.
  unfold identifier_rows. rewrite list_elem_of_fmap. split.
  - intros ([k r] & -> & [Hr _]%elem_of_select). by exists k.
  - intros [k Hk]. exists (k, row). split; [done|]. by apply elem_of_select.
Qed.

(** The new record agrees with those in the map, as far as they can be read. *)
Definition agrees_with_map (db : Db) (record : IdentifierRecord) : Prop :=
  ∀ records, records_of (identifier_rows db) = Ok records → consistent (records ++ [record]).

Lemma validate_record_in_tx_Ok record now db db' :
  validate_record_in_tx record now db = (db', Ok ()) → db' = db ∧ agrees_with_map db record.
Proof.
  unfold validate_record_in_tx, list_records_in_tx, collect_rows, check_records, agrees_with_map,
    records_of, mbind, tx_bind, query, tx_of. simpl.
  destruct (collect_results _ _) as [records|e]; simpl; [|done].
  pose proof (from_records_ok (records ++ [record])) as Hok.
  destruct (from_records _) as [m|e]; [|done]. intros [= <-]. split; [done|].
  intros ? [= <-]. by apply Hok.
Qed.

Lemma tx_in_insert_identifier record now db :
  agrees_with_map db record →
  lawful db (insert_or_confirm_identifier_map (identifier_row_from_domain record) now db).1.
Proof.
  intros Hag. set (row := identifier_row_from_domain record).
  unfold insert_or_confirm_identifier_map, list_records_in_tx, collect_rows, check_records,
    mbind, tx_bind, query, tx_of, mret, tx_ret, tx_fail.
  destruct (db_identifier_map db !! _) as [old|] eqn:E.
  { repeat case_match; simplify_eq/=; reflexivity. }
  destruct (outcome_taken _ _ _) eqn:Ht; [reflexivity|].
  destruct (identifier_links db row) eqn:Hl; [|reflexivity]. simpl.
  match goal with |- lawful ?a ?b => extends a b end.
  - destruct wf_identifiers as (Hm & Hu & records & Hr & Hc).
    assert (∀ r, r ∈ identifier_rows (db <| db_identifier_map ::= insert (ix_token_id row) row |>) ↔
                 r = row ∨ r ∈ identifier_rows db) as Hrows.
    { intros r. rewrite !elem_of_identifier_rows. simpl. setoid_rewrite lookup_insert_Some. split.
      - intros (k & [[_ <-]|[_ Hk]]); [by left|right; by exists k].
      - intros [->|[k Hk]]; [by exists (ix_token_id row); left|].
        exists k. right. split; [|done]. intros <-. by pose proof (eq_trans (eq_sym Hk) E). }
    split_and!.
    + apply map_Forall_insert_2; [by split|]. eapply map_Forall_impl; [exact Hm|]. done.
    + apply unique_on_insert; [done|]. intros k r a Hk [= <-] [= E1 E2].
      unfold outcome_taken in Ht. rewrite has_row_false in Ht. apply Ht in Hk.
      rewrite !bool_decide_eq_true_2 in Hk by done. done.
    + destruct (collect_results_total identifier_row_into_domain (identifier_rows
        (db <| db_identifier_map ::= insert (ix_token_id row) row |>))) as [rs Hrs].
      { intros r [->|Hin]%Hrows; [exists record; apply identifier_row_roundtrip|].
        apply collect_results_Ok in Hr. apply list_elem_of_lookup in Hin as [i Hi].
        destruct (Forall2_lookup_l _ _ _ _ _ Hr Hi) as (y & _ & Hy). by exists y. }
      exists rs. split; [exact Hrs|].
      assert (∀ r, r ∈ rs → r ∈ records ++ [record]) as Hsub.
      { intros r (x & [->|Hx]%Hrows & Hf)%(elem_of_collect_results _ _ _ _ Hrs).
        - pose proof (eq_trans (eq_sym Hf) (identifier_row_roundtrip record)) as [= <-]. set_solver.
        - apply elem_of_app. left. apply (elem_of_collect_results _ _ _ _ Hr). by exists x. }
      intros a b Ha Hb. apply (Hag _ Hr); auto.
  - eapply orders_wf_mono; [by apply insert_subseteq|done].
Qed.

(** Statements that leave the identifier map alone. *)
Definition keeps_map (f : Tx ()) : Prop := ∀ now db,
  db_identifier_map (f now db).1 = db_identifier_map db.

Ltac solve_keeps_map := intros now db; unfold mbind, tx_bind, query, tx_of, fkey, mret, tx_ret,
  tx_fail, condition_conflict; repeat (case_match; simplify_eq/=); reflexivity.

Lemma keeps_map_event_family row : keeps_map (insert_or_confirm_event_family row).
Proof. unfold insert_or_confirm_event_family. solve_keeps_map. Qed.
Lemma keeps_map_event row : keeps_map (insert_or_confirm_event row).
Proof. unfold insert_or_confirm_event. solve_keeps_map. Qed.
Lemma keeps_map_condition row : keeps_map (insert_or_confirm_condition row).
Proof. unfold insert_or_confirm_condition. solve_keeps_map. Qed.
Lemma keeps_map_market row : keeps_map (insert_or_confirm_market row).
Proof. unfold insert_or_confirm_market. solve_keeps_map. Qed.
Lemma keeps_map_token row : keeps_map (insert_or_confirm_token row).
Proof. unfold insert_or_confirm_token. solve_keeps_map. Qed.

Lemma agrees_with_map_same a b record :
  db_identifier_map b = db_identifier_map a → agrees_with_map a record → agrees_with_map b record.
Proof. unfold agrees_with_map, identifier_rows. by intros ->. Qed.

(** The rest of a transaction, run where its first statement left the tables. *)
Lemma lawful_bind {A B} (m : Tx A) (f : A → Tx B) now db :
  lawful db (m now db).1 →
  (∀ a db', m now db = (db', Ok a) → lawful db' (f a now db').1) →
  lawful db ((m ≫= f) now db).1.
Proof.
  unfold mbind, tx_bind. destruct (m now db) as [db' [a|e]]; simpl; intros Hm Hf; [|done].
  etrans; [exact Hm|]. by apply Hf.
Qed.

Lemma lawful_bind_map (m : Tx ()) (f : () → Tx ()) record now db :
  tx_in lawful m → keeps_map m → agrees_with_map db record →
  (∀ db', agrees_with_map db' record → lawful db' (f tt now db').1) →
  lawful db ((m ≫= f) now db).1.
Proof.
  intros Hm Hk Ha Hf. apply lawful_bind; [apply Hm|]. intros [] db' E. apply Hf.
  eapply agrees_with_map_same; [|done]. specialize (Hk now db). by rewrite E in Hk.
Qed.

Lemma pool_in_upsert_record record : pool_in lawful (upsert_record record).
Proof.
  apply pool_in_transaction; [exact _|]. intros now db. apply lawful_bind.
  { unfold validate_record_in_tx, list_records_in_tx, collect_rows, check_records,
      mbind, tx_bind, query, tx_of, mret, tx_ret, tx_fail.
    repeat (case_match; simplify_eq/=); reflexivity. }
  intros [] db' [-> Ha]%validate_record_in_tx_Ok.
  apply (lawful_bind_map _ _ record); [apply tx_in_insert_event_family|apply keeps_map_event_family|done|].
  clear db Ha. intros db Ha.
  apply (lawful_bind_map _ _ record); [apply tx_in_insert_event|apply keeps_map_event|done|].
  clear db Ha. intros db Ha.
  apply (lawful_bind_map _ _ record); [apply tx_in_insert_condition|apply keeps_map_condition|done|].
  clear db Ha. intros db Ha.
  apply (lawful_bind_map _ _ record); [apply tx_in_insert_market|apply keeps_map_market|done|].
  clear db Ha. intros db Ha.
  apply (lawful_bind_map _ _ record); [apply tx_in_insert_token|apply keeps_map_token|done|].
  clear db Ha. intros db Ha. by apply tx_in_insert_identifier.
Qed.

(** *** Orders, approvals, inventory, resolutions *)

Lemma order_by_hash_None db hash :
  order_by_hash db hash (λ _, true) = None →
  ∀ k o, db_orders db !! k = Some o → ow_signed_order_hash o ≠ Some hash.
Proof.
  unfold order_by_hash. intros Hn k o Ho E.
  destruct (select _ _ _) as [|x l] eqn:Es; [|done].
  assert ((k, o) ∈ @nil (string * OrderRow)) as []%elem_of_nil.
  rewrite <- Es. apply elem_of_select. split; [done|]. by rewrite E, bool_decide_eq_true_2.
Qed.

Lemma column_parse_states row now :
  (∃ s, signed_order_identity (no_signed_order_hash row) (no_salt row) (no_nonce row)
          (no_signature row) = Ok s) →
  is_ok (into_stored_order (order_columns row now)) = true.
Proof.
  intros [s Hs]. unfold into_stored_order, order_columns; simpl.
  destruct (no_submission_state row), (no_venue_state row), (no_settlement_state row); simpl;
    by rewrite Hs.
Qed.

Lemma signed_identity_complete row :
  signed_field_count row = 0%nat ∨ signed_field_count row = 4%nat →
  ∃ s, signed_order_identity (no_signed_order_hash row) (no_salt row) (no_nonce row)
         (no_signature row) = Ok s.
Proof.
  unfold signed_field_count.
  destruct (no_signed_order_hash row), (no_salt row), (no_nonce row), (no_signature row); simpl;
    intros [|]; try done; by eexists.
Qed.

Lemma tx_in_insert_order row :
  signed_field_count row = 0%nat ∨ signed_field_count row = 4%nat →
  tx_in lawful (insert_order row).
Proof.
  intros Hc%signed_identity_complete now db. unfold insert_order.
  case_bool_decide as Hn; [reflexivity|].
  destruct (match no_signed_order_hash row with Some _ => _ | None => false end) eqn:Hh;
    [reflexivity|].
  destruct (order_link_valid db row) eqn:Hl; [|reflexivity]. simpl.
  destruct (match no_retry_of_order_id row with Some _ => _ | None => false end) eqn:Hr;
    [reflexivity|]. simpl.
  adds_row.
  - destruct wf_orders as [Ho Hu]. split.
    + apply map_Forall_insert_2.
      * split_and!; [done|by apply column_parse_states| |].
        -- intros k E. simpl in E. rewrite E in Hr.
           destruct (decide (k = no_order_id row)) as [->|Hne]; [by rewrite lookup_insert_eq|].
           rewrite lookup_insert_ne by done. apply not_eq_None_Some. intros Hk.
           rewrite Hk, bool_decide_eq_true_2, bool_decide_eq_false_2 in Hr; done.
        -- unfold order_link_valid in Hl. destruct (db_identifier_map db !! _) as [r|]; [|done].
           apply andb_true_iff in Hl as [H1%bool_decide_eq_true H2%bool_decide_eq_true].
           by exists r.
      * eapply map_Forall_impl; [exact Ho|]. simpl. intros k o (?&?&?&?).
        split_and!; [done|done| |done]. eapply refers_subseteq; [|done]. by apply insert_subseteq.
    + apply unique_on_insert; [done|]. intros k o a Hk E1 E2. simpl in E2. rewrite E2 in Hh.
      apply bool_decide_eq_false in Hh. apply dec_stable in Hh.
      by destruct (order_by_hash_None _ _ Hh k o Hk).
  - eapply buckets_wf_mono; [..|done]; simpl; [done|done|by apply insert_subseteq].
Qed.

Lemma tx_in_insert_signed_order_tx row :
  signed_field_count row = 0%nat ∨ signed_field_count row = 4%nat →
  tx_in lawful (insert_signed_order_tx row).
Proof.
  intros Hc. unfold insert_signed_order_tx, find_order_id_by_signed_hash_excluding,
    find_order_id_by_signed_hash_in_pool.
  pose proof (tx_in_insert_order row Hc). store_auto.
Qed.

Lemma pool_in_upsert_approval_state state : pool_in lawful (upsert_approval_state state).
Proof.
  apply pool_in_stmt; [exact _|]. intros now db. unfold mbind, tx_bind, query, fkey.
  case_bool_decide as Hf; [|reflexivity]. apply not_eq_None_Some in Hf. simpl.
  adds_row. apply map_Forall_insert_2; [|done]. split_and!; [done|done|].
  unfold approval_row_into_domain; simpl.
  by destruct (ap_wallet_route state), (ap_signature_type state), (ap_approval_status state).
Qed.

Lemma pool_in_upsert_bucket row : pool_in lawful (upsert_bucket row).
Proof.
  apply pool_in_stmt; [exact _|]. intros now db. unfold mbind, tx_bind, query, fkey.
  destruct (is_ok (inventory_bucket_from_str (ib_bucket row))) eqn:Hb; [|reflexivity]. simpl.
  match goal with |- context [if ?c then _ else _] => destruct c eqn:Hf end; [|reflexivity].
  rewrite !andb_true_iff, bool_decide_eq_true in Hf. destruct Hf as (((Ht & Ho) & _) & _).
  apply not_eq_None_Some in Ht. simpl.
  adds_row. apply map_Forall_insert_2; [|done]. simpl. split_and!; [done|done|done|].
  intros k E. unfold in_set_or_null in Ho. rewrite E in Ho. apply bool_decide_eq_true in Ho.
  by apply elem_of_dom.
Qed.

Lemma pool_in_upsert_resolution_state state : pool_in lawful (upsert_resolution_state state).
Proof.
  apply pool_in_stmt; [exact _|]. intros now db. unfold mbind, tx_bind, query, fkey.
  case_bool_decide as Hf; [|reflexivity]. apply not_eq_None_Some in Hf. simpl.
  adds_row. by apply map_Forall_insert_2.
Qed.

(** ** Operations *)

Lemma pool_in_read {A} (f : Db → A) : pool_in lawful (stmt (query f)).
Proof. store_auto. Qed.

Lemma tx_in_latest_discovery_snapshot : tx_in lawful latest_discovery_snapshot.
Proof. unfold latest_discovery_snapshot. store_auto. Qed.

Lemma pool_in_refresh_metrics enabled :
  pool_in lawful (refresh_authoritative_neg_risk_current_view_metrics_best_effort enabled).
Proof.
  intros env n db Hc. unfold refresh_authoritative_neg_risk_current_view_metrics_best_effort.
  destruct enabled; [|reflexivity].
  assert (pool_in lawful record_authoritative_neg_risk_current_view_metrics) as Hp.
  { unfold record_authoritative_neg_risk_current_view_metrics, count_authoritative_validation_rows,
      count_authoritative_halt_rows. pose proof tx_in_latest_discovery_snapshot. store_auto. }
  specialize (Hp env n db Hc). destruct (record_authoritative_neg_risk_current_view_metrics _ _).
  done.
Qed.

Lemma pool_in_upsert_validation row enabled :
  pool_in lawful (upsert_validation_with_instrumentation row enabled).
Proof.
  pose proof (pool_in_refresh_metrics enabled) as Hm.
  unfold upsert_validation_with_instrumentation, upsert_validation_tx.
  pose proof (tx_in_append_journal_entry (validation_journal_entry row)).
  assert (tx_in lawful (exec (λ db, db <| db_family_validations ::=
    insert (fv_event_family_id row) (validation_columns row) |>)))
    by (apply tx_in_exec; intros; untouched).
  store_auto.
Qed.

Lemma pool_in_upsert_halt row enabled :
  pool_in lawful (upsert_halt_with_instrumentation row enabled).
Proof.
  pose proof (pool_in_refresh_metrics enabled) as Hm.
  unfold upsert_halt_with_instrumentation, upsert_halt_tx.
  pose proof (tx_in_append_journal_entry (halt_journal_entry row)).
  assert (tx_in lawful (exec (λ db, db <| db_family_halts ::=
    insert (fh_event_family_id row) (halt_columns row) |>)))
    by (apply tx_in_exec; intros; untouched).
  store_auto.
Qed.

Lemma pool_in_reconcile_view revision enabled :
  pool_in lawful (reconcile_current_family_view_with_instrumentation revision enabled).
Proof.
  pose proof (pool_in_refresh_metrics enabled) as Hm. pose proof tx_in_latest_discovery_snapshot.
  unfold reconcile_current_family_view_with_instrumentation.
  assert (∀ ids, tx_in lawful (delete_families_not_in ids))
    by (intros; apply tx_in_exec; intros; untouched).
  store_auto.
Qed.

Lemma pool_in_journal_append entry : pool_in lawful (journal_append entry).
Proof.
  pose proof (tx_in_append_journal_entry entry). unfold journal_append. store_auto.
Qed.

Lemma pool_in_create_starting row : pool_in lawful (create_starting row).
Proof.
  unfold create_starting. case_bool_decide as Hs; [store_auto|].
  assert (tx_in lawful (insert_run_session row)) by (by apply tx_in_insert_run_session).
  unfold sqlx_ok. store_auto.
Qed.

Lemma pool_in_classify id to_state :
  pool_in lawful (classify_run_session_update_failure id to_state).
Proof. unfold classify_run_session_update_failure, current_state. store_auto. Qed.

Lemma pool_in_transition t :
  tx_in lawful (update_run_session (tr_run_session_id t)
    (run_session_state_as_str <$> tr_allowed_from t) (transition_columns t)) →
  pool_in lawful (transition_active_state t).
Proof.
  intros Ht. pose proof (pool_in_classify (tr_run_session_id t)).
  unfold transition_active_state. store_auto.
Qed.

Lemma pool_in_marks id at_ status reason reason' :
  pool_in lawful (mark_running id at_) ∧ pool_in lawful (mark_exited id at_ status reason) ∧
  pool_in lawful (mark_failed id at_ reason').
Proof.
  split_and!; apply pool_in_transition, tx_in_transition; simpl; try done;
    intros s Hs; rewrite ?elem_of_cons, ?elem_of_nil in Hs; naive_solver.
Qed.

Lemma pool_in_refresh_last_seen id seen_at : pool_in lawful (refresh_last_seen id seen_at).
Proof.
  pose proof (tx_in_seen id seen_at). pose proof (pool_in_classify id).
  unfold refresh_last_seen. store_auto.
Qed.

Lemma pool_in_upsert_once {R} `{EqDecision R} (get : Pool (option R)) ins pkey row conflict :
  pool_in lawful get → tx_in lawful ins → pool_in lawful (upsert_once get ins pkey row conflict).
Proof. intros Hg Hi. unfold upsert_once. store_auto. Qed.

Lemma pool_in_get_target_provenance id :
  pool_in lawful (get_by_operator_target_revision id).
Proof. unfold get_by_operator_target_revision. store_auto. Qed.
Lemma pool_in_get_strategy_provenance id :
  pool_in lawful (get_by_operator_strategy_revision id).
Proof. unfold get_by_operator_strategy_revision. store_auto. Qed.
Lemma pool_in_get_strategy_candidate id : pool_in lawful (get_strategy_candidate_set id).
Proof. unfold get_strategy_candidate_set. store_auto. Qed.
Lemma pool_in_get_strategy_adoptable id : pool_in lawful (get_adoptable_strategy_revision id).
Proof. unfold get_adoptable_strategy_revision. store_auto. Qed.

Lemma tx_in_append_execution_attempt row : tx_in lawful (append_execution_attempt row).
Proof.
  pose proof (tx_in_insert_execution_attempt row). unfold append_execution_attempt. store_auto.
Qed.

Lemma pool_in_pending_append row : pool_in lawful (pending_append row).
Proof.
  unfold pending_append. destruct (validate_pending_reconcile_row row) as [[]|e] eqn:E.
  - pose proof (tx_in_insert_pending_reconcile row E). store_auto.
  - intros env n db _. reflexivity.
Qed.

(** Between the look-up of the attempt and the insertion it does not change. *)
Lemma pool_in_submission_append row : pool_in lawful (submission_append row).
Proof.
  intros env n db Hc. unfold submission_append.
  destruct (validate_live_submission_record_row row) as [[]|e] eqn:Hv; [|reflexivity].
  unfold mbind at 1, pool_bind at 1. simpl. unfold mbind at 1, pool_bind at 1, stmt at 1.
  destruct (fr_up env n); [|apply Hc]. simpl. set (db1 := fr_commits env n db).
  etrans; [apply (Hc n)|]. fold db1.
  destruct (live_attempt db1 (lsr_attempt_id row)) as [a|] eqn:Ha; [|reflexivity].
  unfold mbind at 1, pool_bind at 1, pool_of at 1.
  destruct (validate_live_submission_record_against_attempt _ _ _) as [[]|e] eqn:Hr; [|reflexivity].
  simpl. unfold mbind at 1, pool_bind at 1, stmt at 1. set (db2 := fr_commits env (S n) db1).
  destruct (fr_up env (S n)); [|apply Hc].
  assert (lawful db1 (insert_live_submission row (fr_now env (S n)) db2).1) as Hins.
  { destruct (Hc (S n) db1) as [Hseq Hwf]. fold db2 in Hseq, Hwf.
    assert (db_wf db1 → lawful db2 (insert_live_submission row (fr_now env (S n)) db2).1) as Hl.
    { intros W. destruct (Hwf W) as [Hk _]. eapply tx_in_insert_live_submission_at; [done| |done].
      unfold live_attempt in *. apply bind_Some in Ha as (a' & Ha' & Hlive).
      by rewrite (lookup_weaken _ _ _ _ Ha' (ao_attempts _ _ Hk)). }
    split.
    - etrans; [exact Hseq|]. unfold insert_live_submission. repeat case_match; constructor; simpl; lia.
    - intros W. destruct (Hwf W) as [Hk W2]. destruct (lw_wf _ _ (Hl W) W2) as [Hk2 W3].
      split; [by etrans|done]. }
  destruct (insert_live_submission row _ db2) as [db3 [[]|e]]; [exact Hins| |exact Hins].
  etrans; [exact Hins|]. simpl.
  assert (pool_in lawful (existing ← stmt (query (λ db, '(existing, _) ←
                                        db_live_submissions db !! lsr_submission_ref row;
                                      join_attempt db existing));
        match existing with
        | Some existing =>
            existing ← pool_of (map_live_submission_record_row_with_attempt existing);
            if decide (existing = row) then mret ()
            else pool_fail (ConflictingLiveSubmissionRecord (lsr_submission_ref row))
        | None => pool_fail (LiveSubmissionRequiresLiveAttempt (lsr_submission_ref row)
                               (lsr_attempt_id row))
        end)) as Hrest by store_auto.
  by apply Hrest.
Qed.

Lemma tx_in_batch_attempt details attempt : tx_in lawful (append_batch_attempt details attempt).
Proof.
  assert (tx_in lawful (append_shadow_execution_attempt_idempotent attempt)) as Ha.
  { pose proof (tx_in_insert_attempt_or_nothing attempt).
    unfold append_shadow_execution_attempt_idempotent. store_auto. }
  intros now db. specialize (Ha now db). unfold append_batch_attempt.
  destruct (append_shadow_execution_attempt_idempotent attempt now db) as [db' [|[[]|]]]; exact Ha.
Qed.

Lemma pool_in_shadow_batch active details attempts artifacts :
  pool_in lawful (append_shadow_execution_batch active details attempts artifacts).
Proof.
  pose proof (tx_in_batch_attempt details). pose proof tx_in_append_shadow_artifact.
  unfold append_shadow_execution_batch, append_shadow_execution_artifact_idempotent. store_auto.
Qed.

Lemma pool_in_live_artifact_append row : pool_in lawful (live_artifact_append row).
Proof. pose proof (tx_in_insert_live_artifact row). unfold live_artifact_append. store_auto. Qed.

Lemma repo_op_lawful op : pool_in lawful (repo_op op).
Proof.
  destruct op; simpl; unfold ignore.
  - apply pool_in_upsert_record.
  - unfold insert_signed_order. destruct (_ && _) eqn:E; [store_auto|].
    apply (pool_in_transaction lawful), tx_in_insert_signed_order_tx. revert E. repeat case_bool_decide; naive_solver.
  - apply pool_in_upsert_approval_state.
  - apply pool_in_upsert_bucket.
  - apply pool_in_upsert_resolution_state.
  - apply pool_in_upsert_validation.
  - apply pool_in_upsert_halt.
  - apply (pool_in_bind lawful); [apply pool_in_journal_append|store_auto].
  - apply pool_in_reconcile_view.
  - apply (pool_in_bind lawful); [apply pool_in_journal_append|store_auto].
  - apply pool_in_create_starting.
  - apply (pool_in_marks _ _ "" None "").
  - apply (pool_in_marks _ _ _ _ "").
  - apply (pool_in_marks _ _ "" None _).
  - apply pool_in_refresh_last_seen.
  - pose proof tx_in_upsert_progress. unfold record_progress_with_strategy_revision, sqlx_ok.
    store_auto.
  - pose proof tx_in_update_active_session. unfold set_active_run_session_id. store_auto.
  - pose proof tx_in_update_active_session. unfold clear_active_run_session_id. store_auto.
  - apply pool_in_upsert_once; [apply pool_in_read|apply tx_in_insert_candidate_target_set].
  - apply pool_in_upsert_once; [apply pool_in_read|apply tx_in_insert_adoptable_target_revision].
  - apply pool_in_upsert_once;
      [apply pool_in_get_target_provenance|apply tx_in_insert_candidate_provenance].
  - apply pool_in_upsert_once;
      [apply pool_in_get_strategy_candidate|apply tx_in_insert_strategy_candidate_set].
  - apply pool_in_upsert_once;
      [apply pool_in_get_strategy_adoptable|apply tx_in_insert_adoptable_strategy_revision].
  - apply pool_in_upsert_once;
      [apply pool_in_get_strategy_provenance|apply tx_in_insert_strategy_provenance].
  - apply (pool_in_bind lawful); [apply pool_in_append_discover_refresh|store_auto].
  - pose proof tx_in_insert_target_history. unfold target_history_append, sqlx_ok. store_auto.
  - pose proof tx_in_insert_strategy_history. unfold strategy_history_append, sqlx_ok. store_auto.
  - apply (pool_in_stmt lawful), tx_in_exec. intros db. untouched.
  - apply (pool_in_stmt lawful), tx_in_append_execution_attempt.
  - apply pool_in_pending_append.
  - apply pool_in_submission_append.
  - apply (pool_in_stmt lawful), tx_in_append_shadow_artifact.
  - apply pool_in_shadow_batch.
  - apply pool_in_live_artifact_append.
Qed.

Lemma evolves_lawful a b : evolves a b → lawful a b.
Proof.
  induction 1 as [|op env n db _ IH|]; [reflexivity| |by etrans].
  by apply repo_op_lawful.
Qed.

(** An undisturbed run is a history. *)
Lemma runs_lawful {A} (m : Pool A) now db db' r :
  pool_in lawful m → runs m now db db' r → lawful db db'.
Proof.
  intros Hm Hr. destruct (Hr 0%nat) as [n E].
  pose proof (Hm (quiet now) 0%nat db ltac:(intros; reflexivity)) as H. by rewrite E in H.
Qed.
End statements.

(** ** Theorems *)

Section theorems.
Context {X : Externals} {O : OrderLaws X} {J : JsonOps} {P : PgOps} {PL : PgLaws P}.

Lemma db_empty_wf : db_wf db_empty.
Proof.
  assert (∀ K `{Countable K} V A (column : V → option A), unique_on (K := K) column ∅)
    as Hu by (intros * k1 k2 r1 r2 a E; by rewrite lookup_empty in E).
  constructor; simpl; try exact (map_Forall_empty _);
    try (split; [exact (map_Forall_empty _)|apply Hu]).
  split_and!; [exact (map_Forall_empty _)|apply Hu|]. exists []. split; [done|apply consistent_nil].
Qed.

(** C7. The tables stay consistent with each other along every history: every
    operation of every repository, run by any number of sessions side by side and
    interrupted anywhere, keeps [db_wf]. Journal entries have fresh numbers, unique
    dedupe keys and existing parents, attempts name existing run sessions, submissions
    and artifacts belong to attempts of the right mode and pass the checks made when
    they are read, adoptions point to what they adopt, and identifiers and orders agree
    with the identifier map. *)
Theorem repositories_keep_integrity :
  db_wf db_empty ∧ ∀ a b, db_wf a → evolves a b → db_wf b.
Proof.
  split; [apply db_empty_wf|]. intros a b Hw He. by apply (evolves_lawful _ _ He).
Qed.

(** What the repositories record is never rewritten: along every history attempts,
    journal entries, submissions, artifacts, candidates, adoptions, histories,
    identifiers and orders are only added, sequences only grow, and run sessions
    change only along their life cycle. *)
Theorem recorded_rows_never_change a b :
  db_wf a → evolves a b → append_only a b ∧ seqs_le a b.
Proof.
  intros Hw He. destruct (evolves_lawful _ _ He) as [Hs Hl]. split; [by apply Hl|done].
Qed.

(** C27. The life of a run session, whoever else uses the store: it never disappears, what
    identifies it never changes, [last_seen_at] never goes back, an exited or failed
    session is never touched again, and [ended_at] is set exactly in those states. *)
Theorem run_session_life a b id r :
  db_wf a → evolves a b → db_run_sessions a !! id = Some r →
  ∃ r' s s', db_run_sessions b !! id = Some r' ∧
    run_session_state_from_str (run_state r) = Ok s ∧
    run_session_state_from_str (run_state r') = Ok s' ∧
    session_identity r' = session_identity r ∧
    dt_leb (run_last_seen_at r) (run_last_seen_at r') = true ∧
    (is_terminal s = true → r' = r) ∧
    (s' = SessionStarting → s = SessionStarting) ∧
    (is_Some (run_ended_at r') ↔ is_terminal s' = true).
Proof.
  intros Hw He Hr. destruct (evolves_lawful _ _ He) as [_ Hl]. destruct (Hl Hw) as [Hk Hw'].
  destruct (ao_sessions _ _ Hk _ _ Hr) as (r' & Hr' & [Hi Hs Ht]).
  apply (wf_sessions _ Hw) in Hr as [_ Hr]. pose proof (wf_sessions _ Hw' _ _ Hr') as [_ Hrs].
  unfold session_shape in Hr, Hrs.
  destruct (run_session_state_from_str (run_state r)) as [s|] eqn:E; [|done].
  destruct (run_session_state_from_str (run_state r')) as [s'|] eqn:E'; [|done].
  exists r', s, s'. split_and!; try done.
  - intros Hterm. destruct Ht as [|Ht]; [done|]. exfalso. unfold session_next in Ht.
    apply bool_decide_eq_true in Ht. rewrite !elem_of_cons, elem_of_nil in Ht.
    destruct Ht as [[= E1 _]|[[= E1 _]|[[= E1 _]|[[= E1 _]|[[= E1 _]|[[= E1 _]|[[= E1 _]|[]]]]]]]];
      rewrite E1 in E; vm_compute in E; injection E as <-; discriminate Hterm.
  - intros ->. destruct Ht as [->|Ht]; [congruence|]. unfold session_next in Ht.
    apply bool_decide_eq_true in Ht. rewrite !elem_of_cons, elem_of_nil in Ht.
    destruct Ht as [[= E1 E2]|[[= E1 E2]|[[= E1 E2]|[[= E1 E2]|[[= E1 E2]|[[= E1 E2]|[[= E1 E2]|[]]]]]]]];
      rewrite E1 in E; rewrite E2 in E'; vm_compute in E, E'; congruence.
  - destruct (is_terminal s'); [naive_solver|]. destruct Hrs as [-> _]. split; [by intros []|done].
Qed.

(** What a transition of a run session does when nobody interferes: from an allowed
    state it writes exactly the new columns, otherwise nothing, and it says why. *)
Theorem run_session_transition_outcome t now db :
  db_wf db →
  match db_run_sessions db !! tr_run_session_id t with
  | Some r =>
      if bool_decide (run_state r ∈ run_session_state_as_str <$> tr_allowed_from t)
      then runs (transition_active_state t) now db
             (db <| db_run_sessions ::= insert (tr_run_session_id t) (transition_columns t r) |>)
             (Ok ())
      else runs (transition_active_state t) now db db
             (Err (Fails (InvalidRunSessionTransition (tr_run_session_id t) (run_state r)
                            (run_session_state_as_str (tr_to_state t)))))
  | None => runs (transition_active_state t) now db db
              (Err (Fails (MissingRunSessionRow (tr_run_session_id t))))
  end.
Proof.
  intros Hw. unfold transition_active_state.
  destruct (db_run_sessions db !! tr_run_session_id t) as [r|] eqn:E.
  - case_bool_decide as Ha.
    + eapply runs_bind.
      * apply runs_stmt. unfold update_run_session. by rewrite E, bool_decide_eq_true_2.
      * apply runs_ret.
    + eapply runs_bind; [apply runs_stmt|].
      { unfold update_run_session. by rewrite E, bool_decide_eq_false_2. }
      apply (wf_sessions _ Hw) in E as Hr. destruct Hr as [_ Hr]. unfold session_shape in Hr.
      pose proof (column_parse_spec (A := RunSessionState) (run_state r)) as Hp. simpl in Hp.
      destruct (run_session_state_from_str (run_state r)) as [s|] eqn:Es; [|done].
      rewrite Hp.
      eapply runs_bind; [eapply runs_bind; [apply runs_query|]|].
      * rewrite E. simpl. eapply runs_bind; [by apply runs_of_ok|]. apply runs_ret.
      * apply runs_fail.
  - eapply runs_bind; [apply runs_stmt; unfold update_run_session; by rewrite E|].
    eapply runs_bind; [eapply runs_bind; [apply runs_query|]|].
    + rewrite E. apply runs_ret.
    + apply runs_fail.
Qed.

Lemma is_ok_exists {E A} (r : result E A) : is_ok r = true → ∃ a, r = Ok a.
Proof. destruct r; [by eexists|done]. Qed.

Lemma runs_collect {A B} (f : A → result PersistenceError B) (rows : Db → list A) now db :
  (∀ x, x ∈ rows db → ∃ y, f x = Ok y) →
  ∃ ys, Forall2 (λ x y, f x = Ok y) (rows db) ys ∧
    runs (rows ← stmt (query rows); pool_of (collect_results f rows)) now db db (Ok ys).
Proof.
  intros Hl. destruct (collect_results_total f _ Hl) as [ys Hys]. exists ys.
  split; [by apply collect_results_Ok|].
  eapply runs_bind; [apply runs_query|]. by apply runs_of_ok.
Qed.

Lemma runs_opt_row {A B} (f : A → result PersistenceError B) (row : Db → option A) now db :
  (∀ x, row db = Some x → ∃ y, f x = Ok y) →
  ∃ y, runs (row ← stmt (query row); opt_row f row) now db db (Ok y).
Proof.
  intros Hf. destruct (row db) as [x|] eqn:E.
  - destruct (Hf x eq_refl) as [y Hy]. exists (Some y).
    eapply runs_bind; [apply runs_query|]. rewrite E.
    eapply runs_bind; [by apply runs_of_ok|]. apply runs_ret.
  - exists None. eapply runs_bind; [apply runs_query|]. rewrite E. apply runs_ret.
Qed.

Lemma attempts_load db mode a id :
  db_wf db → db_execution_attempts db !! id = Some a →
  at_execution_mode a = execution_mode_to_str mode →
  ∃ y, map_execution_attempt_row (id, a) = Ok y.
Proof.
  intros Hw Ha _. apply (wf_attempts _ Hw) in Ha as [[m Hm]%is_ok_exists _].
  unfold map_execution_attempt_row. simpl. rewrite Hm. by eexists.
Qed.

Lemma submissions_load db x :
  db_wf db →
  (∃ k v, db_live_submissions db !! k = Some v ∧ join_attempt db v.1 = Some x) →
  map_live_submission_record_row_with_attempt x = Ok x.1.
Proof.
  intros Hw (k & [row at_] & Hk & Hj). apply (wf_submissions _ Hw) in Hk as (_ & Hv & a & Ha & _ & Hr).
  simpl in *. unfold join_attempt in Hj. rewrite Ha in Hj. simpl in Hj. injection Hj as <-.
  unfold map_live_submission_record_row_with_attempt, map_live_submission_record_row.
  simpl. by rewrite Hv; simpl; rewrite Hr.
Qed.

Lemma runs_submissions_where p now db :
  db_wf db →
  runs (submissions_where p) now db db
    (Ok (omap (λ kv, fst <$> join_attempt db kv.2.1)
           (select (db_live_submissions db) (λ _ r, p r.1) submission_order))).
Proof.
  intros Hw. eapply runs_bind; [apply runs_query|]. apply runs_of_ok, collect_results_Ok.
  match goal with |- Forall2 _ (omap _ ?l) _ => set (rows := l) end.
  assert (∀ kv, kv ∈ rows → db_live_submissions db !! kv.1 = Some kv.2) as Hrows.
  { intros [k v] [Hk _]%elem_of_select. done. }
  clearbody rows. induction rows as [|[k v] rows IH]; simpl; [constructor|].
  destruct (join_attempt db v.1) as [x|] eqn:Ej; simpl; [|apply IH; set_solver].
  constructor; [|apply IH; set_solver].
  apply (submissions_load db); [done|]. exists k, v. split; [apply (Hrows (k, v)); left|done].
Qed.

(** Whatever was recorded can be read back: on a consistent store no listing and no
    look-up the engine starts from fails, and none changes the store. *)
Theorem recorded_rows_always_load db now :
  db_wf db →
  (∀ mode, ∃ rows, runs (list_attempts_by_mode mode) now db db (Ok rows)) ∧
  (∃ rows, runs pending_list_all now db db (Ok rows)) ∧
  (∀ ids, ∃ rows, runs (submission_list_for_attempts ids) now db db (Ok rows)) ∧
  (∀ id, ∃ row, runs (session_get id) now db db (Ok row)) ∧
  (∃ records, runs list_records now db db (Ok records) ∧ is_ok (from_records records) = true) ∧
  (∀ id, ∃ order, runs (get_order id) now db db (Ok order)) ∧
  (∀ token spender owner, ∃ state, runs (get_approval_state token spender owner) now db db (Ok state)).
Proof.
  intros Hw. split_and!.
  - intros mode.
    destruct (runs_collect map_execution_attempt_row (λ db, select (db_execution_attempts db)
      (λ _ a, bool_decide (at_execution_mode a = execution_mode_to_str mode)) attempt_order)
      now db) as (ys & _ & Hr).
    { intros [id a] [Ha Hm%bool_decide_eq_true]%elem_of_select. by eapply attempts_load. }
    exists ys. eapply runs_bind; [by apply runs_stmt|]. exact Hr.
  - destruct (runs_collect (map_pending_reconcile_row ∘ fst ∘ snd) (λ db,
      select (db_pending_reconcile db) (λ _ _, true)
        (λ a b, cmp_lex dt_cmp text_cmp (a.2.2, a.1) (b.2.2, b.1))) now db) as (ys & _ & Hr).
    { intros [k v] [Hk _]%elem_of_select. apply (wf_pending _ Hw) in Hk as [_ Hk].
      exists v.1. unfold map_pending_reconcile_row; simpl. by rewrite Hk. }
    exists ys. exact Hr.
  - intros ids. unfold submission_list_for_attempts. case_bool_decide.
    + exists ∅. apply runs_ret.
    + eexists. eapply runs_bind; [by apply runs_submissions_where|]. apply runs_ret.
  - intros id. apply (runs_opt_row map_run_session_row (λ db, db_run_sessions db !! id)).
    intros r Hr. apply (wf_sessions _ Hw) in Hr as [_ Hr]. unfold session_shape in Hr.
    unfold map_run_session_row. destruct (run_session_state_from_str _); [by eexists|done].
  - destruct (wf_identifiers _ Hw) as (_ & _ & records & Hr & Hc). exists records. split.
    + apply runs_stmt. unfold list_records_in_tx, mbind, tx_bind, query, collect_rows, tx_of.
      simpl. unfold records_of in Hr. by rewrite Hr.
    + by apply from_records_ok.
  - intros id. apply (runs_opt_row into_stored_order (λ db, db_orders db !! id)).
    intros o Ho. apply (wf_orders _ Hw) in Ho as (_ & Ho & _). by apply is_ok_exists.
  - intros token spender owner.
    apply (runs_opt_row approval_row_into_domain (λ db, db_approval_states db !! _)).
    intros r Hr. apply (wf_approvals _ Hw) in Hr as (_ & _ & Hr). by apply is_ok_exists.
Qed.
End theorems.

(** ** Witnesses *)

Definition instant (n : Z) : DateTime (Externals := Micros) := n.

Definition example_session : RunSessionOf RunSessionState (DateTime (Externals := Micros)) :=
  {| run_run_session_id := "run-1"; run_invoked_by := "operator"; run_mode := "live";
     run_state := SessionStarting; run_started_at := instant 100; run_last_seen_at := instant 100;
     run_ended_at := None; run_exit_status := None; run_exit_reason := None;
     run_config_path := "config.toml"; run_config_fingerprint := "f";
     run_target_source_kind := "explicit"; run_startup_target_revision_at_start := "targets-1";
     run_configured_operator_target_revision := None;
     run_active_operator_target_revision_at_start := None;
     run_configured_operator_strategy_revision := None;
     run_active_operator_strategy_revision_at_start := None; run_rollout_state_at_start := None;
     run_real_user_shadow_smoke := false |}.

Module witnesses.

#[local] Existing Instance Micros.
#[local] Existing Instance plain_json.
#[local] Existing Instance plain_pg.

Definition started : Db := (repo_op (OpCreateStarting example_session) (quiet (instant 100)) (0%nat, db_empty)).1.2.
Definition finished : Db :=
  (repo_op (OpMarkFailed "run-1" (instant 200) "lost connection") (quiet (instant 200)) (0%nat, started)).1.2.

Lemma started_evolves : evolves db_empty started.
Proof. apply evolves_op. intros. apply evolves_refl. Qed.
Lemma finished_evolves : evolves started finished.
Proof. apply evolves_op. intros. apply evolves_refl. Qed.

Lemma repositories_keep_integrity_witness :
  db_wf started ∧ run_state <$> db_run_sessions started !! "run-1" = Some "starting".
Proof.
  split; [|vm_compute; reflexivity].
  apply (proj2 repositories_keep_integrity db_empty); [apply db_empty_wf|apply started_evolves].
Defined.

Lemma recorded_rows_never_change_witness :
  append_only started finished ∧ seqs_le started finished.
Proof.
  apply (recorded_rows_never_change started finished); [|apply finished_evolves].
  apply (evolves_lawful _ _ started_evolves), db_empty_wf.
Defined.

Lemma run_session_life_witness :
  ∃ r', db_run_sessions finished !! "run-1" = Some r' ∧ is_Some (run_ended_at r').
Proof.
  destruct (run_session_life started finished "run-1" (starting_columns example_session))
    as (r' & s & s' & Hr & _ & Hs & _ & _ & _ & _ & Hend).
  - apply (evolves_lawful _ _ started_evolves), db_empty_wf.
  - apply finished_evolves.
  - reflexivity.
  - exists r'. split; [exact Hr|]. apply Hend. vm_compute in Hr. injection Hr as <-.
    vm_compute in Hs. injection Hs as <-. reflexivity.
Defined.

Lemma run_session_transition_outcome_witness :
  runs (mark_running "run-2" (instant 100)) (instant 100) db_empty db_empty (Err (Fails (MissingRunSessionRow "run-2"))).
Proof.
  apply (run_session_transition_outcome
    {| tr_run_session_id := "run-2"; tr_allowed_from := [SessionStarting];
       tr_to_state := SessionRunning; tr_changed_at := (instant 100); tr_exit_status := None;
       tr_exit_reason := None |} (instant 100) db_empty), db_empty_wf.
Defined.

Lemma recorded_rows_always_load_witness :
  ∃ row, runs (session_get "run-1") (instant 100) started started (Ok row).
Proof.
  apply (recorded_rows_always_load started (instant 100)).
  apply (evolves_lawful _ _ started_evolves), db_empty_wf.
Defined.
End witnesses.
