(* ===== verification/StoreProofs.v ===== *)
(** * What the repositories promise

    Write-once rows under interference, shadow batches, discovery snapshots and
    adoption histories. *)

From S2P Require Import Prelude Text RecordSet Externals Json Domain LiveRecords Discovery.
From S2P Require Import Rows Schema RepoJournal RepoExecution RepoSessions RepoControl.
From S2P Require Import RepoInvariants RepoHistory.

#[local] Arguments set : simpl never.

(** ** Orders *)

#[local] Typeclasses Opaque desc.
#[export] Instance desc_total {A} (cmp : A → A → comparison) `{!TotalPreorder cmp} :
  TotalPreorder (desc cmp).
Proof.
  split; unfold desc.
  - intros a b. apply cmp_opp.
  - intros a b c H1 H2. by apply (cmp_trans (cmp := cmp) c b a).
Qed.

(** What comes before all other elements comes first. *)
Lemma head_sort_by {A} (cmp : A → A → comparison) `{!TotalPreorder cmp} l x :
  x ∈ l → (∀ y, y ∈ l → y = x ∨ cmp x y = Lt) → head (sort_by cmp l) = Some x.
Proof.
  intros Hx Hl. pose proof (sort_by_sorted cmp l) as Hs.
  assert (∀ y, y ∈ sort_by cmp l ↔ y ∈ l) as Hin by (intros; apply elem_of_sort_by).
  destruct (sort_by cmp l) as [|h t].
  { apply Hin, elem_of_nil in Hx. done. }
  simpl. f_equal. destruct (Hl h) as [|Hlt]; [apply Hin; by left|done|].
  apply Hin, elem_of_cons in Hx as [->|Hx]; [done|].
  apply StronglySorted_inv in Hs as [_ Hf]. rewrite Forall_forall in Hf.
  specialize (Hf x Hx). unfold cmp_le in Hf.
  rewrite (cmp_opp (cmp := cmp) x h), Hlt in Hf. done.
Qed.

Lemma head_select {K V} `{Countable K} (table : gmap K V) p cmp `{!TotalPreorder cmp} k v :
  table !! k = Some v → p k v = true →
  (∀ k' v', table !! k' = Some v' → p k' v' = true → k' ≠ k → cmp (k, v) (k', v') = Lt) →
  head (select table p cmp) = Some (k, v).
Proof.
  intros Hk Hp Hl. unfold select. apply head_sort_by; [done| |].
  - rewrite list_elem_of_In, filter_In, <- list_elem_of_In, elem_of_map_to_list. done.
  - intros [k' v']. rewrite list_elem_of_In, filter_In, <- list_elem_of_In, elem_of_map_to_list.
    intros [Hk' Hp']. destruct (decide (k' = k)) as [->|]; [left; congruence|right]. by apply Hl.
Qed.

(** ** Rows that are written once *)

Section once.
Context {X : Externals} {O : OrderLaws X} {J : JsonOps} {P : PgOps} {PL : PgLaws P}.

(** Other sessions use the repositories. *)
Definition civil (env : Schedule) : Prop := ∀ k d, evolves d (fr_commits env k d).

(** An error of the database itself. *)
Definition is_sqlx (pkey : string) (e : Stop) : Prop :=
  ∃ s, e = Fails (Sqlx s) ∧ constraint_name s ≠ Some pkey.

Section generic.
Context {R : Type} `{EqDecision R} (get : Pool (option R)) (ins : Insert) (pkey : string) (row : R)
  (conflict : PersistenceError) (recorded : Db → R → Prop) (taken : Db → Prop).
Hypothesis get_lawful : pool_in lawful get.
Hypothesis ins_lawful : tx_in lawful ins.
Hypothesis get_spec : ∀ env n db, civil env → db_wf db →
  match get env (n, db) with
  | ((_, db'), Ok (Some r)) => recorded db' r
  | (_, Ok None) => ¬ taken db
  | (_, Err e) => is_sqlx pkey e
  end.
Hypothesis ins_spec : ∀ now db,
  match ins now db with
  | (db', Ok (Ok ())) => recorded db' row
  | (db', Ok (Err e)) => constraint_name e = Some pkey → taken db'
  | (_, Err _) => False
  end.

(** Whatever other sessions do, [Ok] means that the row is recorded, and a conflict that
    another one is; the only other errors are the database's, and the code never panics. *)
Lemma upsert_once_spec env n db :
  civil env → db_wf db →
  match upsert_once get ins pkey row conflict env (n, db) with
  | ((_, db'), Ok _) => recorded db' row
  | ((_, db'), Err e) => (e = Fails conflict ∧ ∃ r, recorded db' r ∧ r ≠ row) ∨ is_sqlx pkey e
  end.
Proof.
  intros Hciv Hw.
  assert (∀ k d, lawful d (fr_commits env k d)) as Hc by (intros; by apply evolves_lawful).
  unfold upsert_once, mbind, pool_bind.
  pose proof (get_spec env n db Hciv Hw) as Hg. pose proof (get_lawful env n db Hc) as Hl.
  destruct (get env (n, db)) as [[n1 db1] [[r|]|e]]; [| |by right].
  { case_decide; simpl; [by subst|]. left. eauto. }
  simpl in Hl. destruct (lw_wf _ _ Hl Hw) as [_ Hw1]. unfold stmt.
  destruct (fr_up env n1); [|right; by exists SqlFailed].
  set (db2 := fr_commits env n1 db1).
  assert (db_wf db2) as Hw2 by (apply (lw_wf _ _ (Hc n1 db1) Hw1)).
  pose proof (ins_spec (fr_now env n1) db2) as Hi. pose proof (ins_lawful (fr_now env n1) db2) as Hil.
  destruct (ins (fr_now env n1) db2) as [db3 [[[]|err]|]]; [done| |done].
  case_bool_decide as Ek; [|right; by exists err].
  simpl in Hil. assert (db_wf db3) as Hw3 by (apply (lw_wf _ _ Hil Hw2)).
  pose proof (get_spec env (S n1) db3 Hciv Hw3) as Hg3.
  destruct (get env (S n1, db3)) as [[n4 db4] [[r|]|e]]; [| |by right].
  - simpl. case_decide; simpl; [by subst|]. left. eauto.
  - destruct Hg3. auto.
Qed.
End generic.

(** What a write-once upsert of [row] promises, whatever other sessions do. *)
Definition written_once {R} (m : Pool ()) (recorded : Db → R → Prop) (row : R)
    (conflict : PersistenceError) (pkey : string) : Prop :=
  ∀ env n db, civil env → db_wf db →
    match m env (n, db) with
    | ((_, db'), Ok _) => recorded db' row
    | ((_, db'), Err e) => (e = Fails conflict ∧ ∃ r, recorded db' r ∧ r ≠ row) ∨ is_sqlx pkey e
    end.

Definition stored {R} (table : Db → gmap string R) (key : string) (db : Db) (r : R) : Prop :=
  table db !! key = Some r.

(** A row of the strategy table, or of the legacy table it falls back to. *)
Definition stored_or_legacy {R L} (table : Db → gmap string R) (legacy : Db → gmap string L)
    (f : L → R) (key : string) (db : Db) (r : R) : Prop :=
  table db !! key = Some r ∨ f <$> legacy db !! key = Some r.

Lemma once_from_table {R} `{EqDecision R} (table : Db → gmap string R) key ins pkey (row : R)
    conflict :
  (∀ a b, append_only a b → table a ⊆ table b) → tx_in lawful ins →
  (∀ now db, match ins now db with
     | (db', Ok (Ok ())) => table db' !! key = Some row
     | (db', Ok (Err e)) => constraint_name e = Some pkey → is_Some (table db' !! key)
     | (_, Err _) => False
     end) →
  written_once (upsert_once (stmt (query (λ db, table db !! key))) ins pkey row conflict)
    (stored table key) row conflict pkey.
Proof.
  intros Hk Hl Hi env n db. apply upsert_once_spec with (taken := λ db, is_Some (table db !! key));
    [apply pool_in_read|done| |exact Hi].
  intros env' n' db' Hciv Hw. unfold stmt. destruct (fr_up env' n'); [|by exists SqlFailed].
  simpl. destruct (table (fr_commits env' n' db') !! key) as [r|] eqn:E; [done|].
  intros [r Hr]. destruct (evolves_lawful _ _ (Hciv n' db')) as [_ Hl']. destruct (Hl' Hw) as [Ha _].
  pose proof (lookup_weaken _ _ _ _ Hr (Hk _ _ Ha)). congruence.
Qed.

Lemma once_from_two_tables {R L} `{EqDecision R} (table : Db → gmap string R)
    (legacy : Db → gmap string L) (f : L → R) key ins pkey (row : R) conflict :
  (∀ a b, append_only a b → table a ⊆ table b) → tx_in lawful ins →
  (∀ now db, match ins now db with
     | (db', Ok (Ok ())) => table db' !! key = Some row
     | (db', Ok (Err e)) => constraint_name e = Some pkey → is_Some (table db' !! key)
     | (_, Err _) => False
     end) →
  written_once (upsert_once
      (r ← stmt (query (λ db, table db !! key));
       match r with
       | Some r => mret (Some r)
       | None => stmt (query (λ db, f <$> legacy db !! key))
       end) ins pkey row conflict)
    (stored_or_legacy table legacy f key) row conflict pkey.
Proof.
  intros Hk Hl Hi env n db. apply upsert_once_spec with (taken := λ db, is_Some (table db !! key));
    [store_auto|done| |].
  - intros env' n' db' Hciv Hw. unfold mbind, pool_bind, stmt.
    destruct (fr_up env' n'); [|by exists SqlFailed]. simpl.
    destruct (table (fr_commits env' n' db') !! key) as [r|] eqn:E; [by left|].
    destruct (fr_up env' (S n')); [|by exists SqlFailed]. simpl.
    destruct (f <$> legacy _ !! key) as [r|] eqn:E2; [by right|].
    intros [r Hr]. destruct (evolves_lawful _ _ (Hciv n' db')) as [_ Hl'].
    destruct (Hl' Hw) as [Ha _]. pose proof (lookup_weaken _ _ _ _ Hr (Hk _ _ Ha)). congruence.
  - intros now db'. specialize (Hi now db'). destruct (ins now db') as [db2 [[[]|e]|e]]; [|done|done].
    by left.
Qed.

Ltac insert_once := intros now db; simpl; case_bool_decide as Hn;
  [by intros _; apply not_eq_None_Some|];
  try (case_bool_decide; [done|]); simpl; by rewrite lookup_insert_eq.

(** Candidate and adoptable revisions are written once, whatever other sessions do in
    the meantime: an upsert that succeeds leaves exactly its row behind, in the strategy
    tables possibly as the legacy row it was migrated from; a conflict is reported only
    when a different row is there; every other error comes from the database; and the
    [expect] after a violated primary key never panics. *)
Theorem candidate_artifacts_written_once :
  (∀ row, written_once (upsert_candidate_target_set row)
     (stored db_candidate_target_sets (cts_candidate_revision row)) row
     (ConflictingCandidateTargetSet (cts_candidate_revision row)) "candidate_target_sets_pkey") ∧
  (∀ row, written_once (upsert_adoptable_target_revision row)
     (stored db_adoptable_target_revisions (atr_adoptable_revision row)) row
     (ConflictingAdoptableTargetRevision (atr_adoptable_revision row))
     "adoptable_target_revisions_pkey") ∧
  (∀ row, written_once (repo_upsert_strategy_candidate_set row)
     (stored_or_legacy db_strategy_candidate_sets db_candidate_target_sets legacy_candidate_set
        (scr_strategy_candidate_revision row)) row
     (ConflictingStrategyCandidateSet (scr_strategy_candidate_revision row))
     "strategy_candidate_sets_pkey") ∧
  (∀ row, written_once (repo_upsert_adoptable_strategy_revision row)
     (stored_or_legacy db_adoptable_strategy_revisions db_adoptable_target_revisions
        legacy_adoptable (asr_adoptable_strategy_revision row)) row
     (ConflictingAdoptableStrategyRevision (asr_adoptable_strategy_revision row))
     "adoptable_strategy_revisions_pkey").
Proof.
  split_and!; intros row.
  - apply once_from_table; [apply ao_candidates|apply tx_in_insert_candidate_target_set|].
    unfold insert_candidate_target_set. insert_once.
  - apply once_from_table; [apply ao_adoptables|apply tx_in_insert_adoptable_target_revision|].
    unfold insert_adoptable_target_revision. insert_once.
  - apply once_from_two_tables; [apply ao_strategy_candidates|apply tx_in_insert_strategy_candidate_set|].
    unfold insert_strategy_candidate_set. insert_once.
  - apply once_from_two_tables;
      [apply ao_strategy_adoptables|apply tx_in_insert_adoptable_strategy_revision|].
    unfold insert_adoptable_strategy_revision. insert_once.
Qed.

(** A candidate set that exists only in the legacy table cannot be used any more: the
    upsert of the same set succeeds without writing it to the strategy table, so that
    recording a refresh of it, or an adoptable revision of it, violates a foreign key. *)
Theorem legacy_candidate_blocks_refresh db now legacy adoptable :
  let revision := cts_candidate_revision legacy in
  db_candidate_target_sets db !! revision = Some legacy →
  db_strategy_candidate_sets db !! revision = None →
  db_adoptable_strategy_revisions db !! asr_adoptable_strategy_revision adoptable = None →
  db_adoptable_target_revisions db !! asr_adoptable_strategy_revision adoptable = None →
  asr_strategy_candidate_revision adoptable = revision → db_refresh_seq db < 2 ^ 63 →
  runs (repo_upsert_strategy_candidate_set (legacy_candidate_set legacy)) now db db (Ok ()) ∧
  runs (append_discover_refresh revision) now db
    (db <| db_refresh_seq := db_refresh_seq db + 1 |>)
    (Err (Fails (Sqlx (ConstraintViolated
       "discover_refresh_history_strategy_candidate_revision_fkey")))) ∧
  runs (repo_upsert_adoptable_strategy_revision adoptable) now db db
    (Err (Fails (Sqlx (ConstraintViolated
       "adoptable_strategy_revisions_strategy_candidate_revision_fkey")))).
Proof.
  intros revision Hl Hn Ha Hal Hr Hseq. split_and!.
  - unfold repo_upsert_strategy_candidate_set, upsert_once.
    eapply runs_bind.
    + unfold get_strategy_candidate_set. eapply runs_bind; [apply runs_query|].
      cbn [scr_strategy_candidate_revision legacy_candidate_set]. fold revision. rewrite Hn.
      apply runs_query.
    + cbn [scr_strategy_candidate_revision legacy_candidate_set]. fold revision. rewrite Hl. simpl.
      rewrite decide_True by done. apply runs_ret.
  - apply runs_stmt. unfold nextval. rewrite bool_decide_eq_true_2 by done.
    rewrite bool_decide_eq_true_2; [done|]. simpl. by fold revision.
  - unfold repo_upsert_adoptable_strategy_revision, upsert_once.
    eapply runs_bind.
    + unfold get_adoptable_strategy_revision. eapply runs_bind; [apply runs_query|]. rewrite Ha.
      apply runs_query.
    + rewrite Hal. simpl. eapply runs_bind.
      * apply runs_stmt. unfold insert_adoptable_strategy_revision.
        rewrite Ha, bool_decide_eq_false_2 by (by intros []).
        rewrite Hr, Hn, bool_decide_eq_true_2 by done. reflexivity.
      * apply runs_fail.
Qed.
End once.

(** ** Shadow batches *)

Section batches.
Context {X : Externals} {O : OrderLaws X} {J : JsonOps} {P : PgOps} {PL : PgLaws P}.

(** The store has the attempt, as far as the batch looks at it. *)
Definition attempt_recorded (db : Db) (row : ExecutionAttemptRow) : Prop :=
  ∃ cols existing, db_execution_attempts db !! xr_attempt_id row = Some cols ∧
    map_execution_attempt_row (xr_attempt_id row, cols) = Ok existing ∧
    shadow_attempt_rows_are_equivalent existing row = true.

Definition artifact_recorded (db : Db) (row : ShadowExecutionArtifactRow) : Prop :=
  ∃ existing, first_shadow_artifact db (xa_attempt_id row) (xa_stream row) = Some existing ∧
    xa_payload existing = xa_payload row.

Lemma attempt_columns_reads row now :
  map_execution_attempt_row (xr_attempt_id row, attempt_columns row now) = Ok row.
Proof.
  unfold map_execution_attempt_row, attempt_columns; simpl.
  pose proof (column_parse_text (A := ExecutionMode) (xr_execution_mode row)) as Hm. simpl in Hm.
  rewrite Hm. by destruct row.
Qed.

Lemma equivalent_refl row : shadow_attempt_rows_are_equivalent row row = true.
Proof. unfold shadow_attempt_rows_are_equivalent. by rewrite !bool_decide_eq_true_2. Qed.

(** *** One attempt *)

Lemma batch_attempt_recorded details row now db :
  attempt_recorded db row → append_batch_attempt details row now db = (db, Ok ()).
Proof.
  intros (cols & existing & Hc & Hm & He).
  unfold append_batch_attempt, append_shadow_execution_attempt_idempotent, insert_attempt_or_nothing,
    mbind, tx_bind, query, tx_of.
  rewrite Hc, bool_decide_eq_true_2 by done. rewrite Hc, Hm. simpl. by rewrite He.
Qed.

Lemma batch_attempt_Ok details row now db db' :
  append_batch_attempt details row now db = (db', Ok ()) →
  attempt_recorded db' row ∧ db_execution_attempts db ⊆ db_execution_attempts db' ∧
  db_shadow_artifacts db' = db_shadow_artifacts db.
Proof.
  unfold append_batch_attempt, append_shadow_execution_attempt_idempotent, insert_attempt_or_nothing,
    mbind, tx_bind, query, tx_of, mret, tx_ret, tx_fail.
  case_bool_decide as Hn; simpl.
  - destruct (db_execution_attempts db !! xr_attempt_id row) as [cols|] eqn:Hc; [|done].
    destruct (map_execution_attempt_row _) as [existing|e] eqn:Hm; simpl.
    + destruct (shadow_attempt_rows_are_equivalent existing row) eqn:He; [|done]. intros [= <-].
      split_and!; [by exists cols, existing|done|done].
    + intros E. exfalso. destruct e; discriminate E.
  - destruct (run_session_exists _ _); [|done]. simpl. intros [= <-].
    split_and!; [|simpl; by apply insert_subseteq|done].
    exists (attempt_columns row now), row. simpl. rewrite lookup_insert_eq.
    split_and!; [done|apply attempt_columns_reads|apply equivalent_refl].
Qed.

Lemma attempt_recorded_mono db db' row :
  db_execution_attempts db ⊆ db_execution_attempts db' →
  attempt_recorded db row → attempt_recorded db' row.
Proof.
  intros Hs (cols & existing & Hc & Hrest). exists cols, existing.
  split; [by eapply lookup_weaken|done].
Qed.

(** *** One artifact *)

Lemma artifact_recorded_again row now db :
  artifact_recorded db row →
  append_shadow_execution_artifact_idempotent row now db = (db, Ok ()).
Proof.
  intros (existing & Hf & Hp). unfold append_shadow_execution_artifact_idempotent, mbind, tx_bind, query.
  rewrite Hf. by rewrite decide_True.
Qed.

Lemma select_head_insert (t : gmap Z ShadowExecutionArtifactRow) (p : ShadowExecutionArtifactRow → bool) k v :
  t !! k = None → p v = false →
  select (<[k := v]> t) (λ _, p) (cmp_on fst Z.compare) = select t (λ _, p) (cmp_on fst Z.compare).
Proof.
  intros Hk Hp. unfold select. apply (sort_by_on_canonical fst Z.compare).
  - apply (sublist_NoDup _ (map_to_list (<[k := v]> t)).*1); [apply NoDup_fst_map_to_list|].
    induction (map_to_list _) as [|x l IH]; simpl; [done|]. destruct (p x.2); simpl; by constructor.
  - assert (∀ l1 l2 : list (Z * ShadowExecutionArtifactRow), l1 ≡ₚ l2 →
      List.filter (λ kv, p kv.2) l1 ≡ₚ List.filter (λ kv, p kv.2) l2) as Hf.
    { intros l1 l2 Hl. induction Hl as [|x l1 l2 _ IH|x y l|l1 l2 l3 _ IH1 _ IH2]; simpl.
      - done.
      - destruct (p x.2); [by constructor|done].
      - destruct (p x.2), (p y.2); try done. by constructor.
      - by etrans. }
    rewrite (Hf _ _ (map_to_list_insert t k v Hk)). simpl. by rewrite Hp.
Qed.

Lemma first_artifact_None db id stream :
  first_shadow_artifact db id stream = None →
  ∀ k v, db_shadow_artifacts db !! k = Some v → xa_attempt_id v = id → xa_stream v = stream → False.
Proof.
  unfold first_shadow_artifact. intros Hn k v Hv E1 E2.
  destruct (select _ _ _) as [|x l] eqn:Es; [|done].
  assert ((k, v) ∈ @nil (Z * ShadowExecutionArtifactRow)) as []%elem_of_nil.
  rewrite <- Es. apply elem_of_select. split; [done|].
  by rewrite !bool_decide_eq_true_2.
Qed.

Lemma first_artifact_insert_ne db k v id stream :
  db_shadow_artifacts db !! k = None → xa_attempt_id v ≠ id ∨ xa_stream v ≠ stream →
  first_shadow_artifact (db <| db_artifact_seq := k + 1 |> <| db_shadow_artifacts ::= insert k v |>)
    id stream = first_shadow_artifact db id stream.
Proof.
  intros Hk Hne. unfold first_shadow_artifact. simpl.
  rewrite (select_head_insert _ (λ a, bool_decide (xa_attempt_id a = id) &&
    bool_decide (xa_stream a = stream)) k v Hk); [done|].
  destruct Hne; [by rewrite bool_decide_eq_false_2|].
  by rewrite (bool_decide_eq_false_2 (xa_stream v = stream)), andb_false_r.
Qed.

Lemma first_artifact_insert_eq db k v :
  first_shadow_artifact db (xa_attempt_id v) (xa_stream v) = None →
  first_shadow_artifact (db <| db_artifact_seq := k + 1 |> <| db_shadow_artifacts ::= insert k v |>)
    (xa_attempt_id v) (xa_stream v) = Some v.
Proof.
  intros Hn. unfold first_shadow_artifact. simpl.
  match goal with |- snd <$> head ?l = _ => set (rows := l) end.
  assert (∀ x, x ∈ rows → x.2 = v) as Hall.
  { intros [k' v'] [Hl Hp]%elem_of_select. simpl. apply andb_true_iff in Hp as [E1%bool_decide_eq_true
      E2%bool_decide_eq_true]. apply lookup_insert_Some in Hl as [[_ ->]|[_ Hl]]; [done|].
    by destruct (first_artifact_None _ _ _ Hn k' v'). }
  assert ((k, v) ∈ rows) as Hin.
  { apply elem_of_select. rewrite lookup_insert_eq. split; [done|]. by rewrite !bool_decide_eq_true_2. }
  destruct rows as [|x rows]; [by apply elem_of_nil in Hin|]. simpl. f_equal. apply Hall. by left.
Qed.

Lemma artifact_Ok row now db db' :
  db_wf db →
  append_shadow_execution_artifact_idempotent row now db = (db', Ok ()) →
  artifact_recorded db' row ∧ db_execution_attempts db' = db_execution_attempts db ∧ db_wf db' ∧
  ∀ other, artifact_recorded db other → artifact_recorded db' other.
Proof.
  intros Hw Hrun.
  assert (tx_in lawful (append_shadow_execution_artifact_idempotent row)) as Hl.
  { pose proof tx_in_append_shadow_artifact. unfold append_shadow_execution_artifact_idempotent.
    store_auto. }
  pose proof (Hl now db) as Hlaw. rewrite Hrun in Hlaw. simpl in Hlaw.
  destruct (lw_wf _ _ Hlaw Hw) as [_ Hw']. clear Hl Hlaw.
  unfold append_shadow_execution_artifact_idempotent, append_shadow_execution_artifact, mbind, tx_bind,
    query in Hrun.
  destruct (first_shadow_artifact db _ _) as [existing|] eqn:Hf.
  { case_decide as Ep; [|done]. injection Hrun as <-. split_and!; try done. by exists existing. }
  destruct (db_execution_attempts db !! _) as [a|]; [|done]. destruct (mode_is Shadow a); [|done].
  destruct (nextval _) as [seq|] eqn:En; [|done]. apply nextval_Some in En as ->.
  injection Hrun as <-.
  assert (db_shadow_artifacts db !! db_artifact_seq db = None) as Hnone.
  { apply eq_None_not_Some. intros [v Hv]. apply (wf_shadow_artifacts _ Hw) in Hv as [? _]. lia. }
  split_and!; [|done|done|].
  - exists row. split; [by apply first_artifact_insert_eq|done].
  - intros other (existing & Hother & Hp). exists existing. split; [|done].
    rewrite <- Hother. apply first_artifact_insert_ne; [done|].
    destruct (decide (xa_attempt_id row = xa_attempt_id other)) as [E1|]; [|by left].
    destruct (decide (xa_stream row = xa_stream other)) as [E2|]; [|by right].
    rewrite <- E1, <- E2, Hf in Hother. done.
Qed.

(** *** The loops *)

Lemma attempts_Ok details attempts now db db' :
  tx_each (append_batch_attempt details) attempts now db = (db', Ok ()) →
  (∀ row, row ∈ attempts → attempt_recorded db' row) ∧
  db_execution_attempts db ⊆ db_execution_attempts db'.
Proof.
  revert db. induction attempts as [|row attempts IH]; intros db; simpl.
  { intros [= <-]. split; [|done]. intros ? []%elem_of_nil. }
  intros (db1 & [] & H1 & H2)%tx_bind_Ok. apply batch_attempt_Ok in H1 as (Hr & Hs & _).
  apply IH in H2 as [Hall Hs']. split; [|by etrans].
  intros r [->|Hin]%elem_of_cons; [by eapply attempt_recorded_mono|by apply Hall].
Qed.

Lemma attempts_again details attempts now db :
  (∀ row, row ∈ attempts → attempt_recorded db row) →
  tx_each (append_batch_attempt details) attempts now db = (db, Ok ()).
Proof.
  intros Hall. induction attempts as [|row attempts IH]; [done|]. simpl.
  erewrite tx_bind_eq by (apply batch_attempt_recorded, Hall; by left). apply IH. set_solver.
Qed.

Lemma artifacts_Ok artifacts now db db' :
  db_wf db → tx_each append_shadow_execution_artifact_idempotent artifacts now db = (db', Ok ()) →
  (∀ row, row ∈ artifacts → artifact_recorded db' row) ∧
  (∀ row, artifact_recorded db row → artifact_recorded db' row) ∧
  db_execution_attempts db' = db_execution_attempts db.
Proof.
  revert db. induction artifacts as [|row artifacts IH]; intros db Hw; simpl.
  { intros [= <-]. split_and!; try done. intros ? []%elem_of_nil. }
  intros (db1 & [] & H1 & H2)%tx_bind_Ok.
  destruct (artifact_Ok _ _ _ _ Hw H1) as (Hr & Ha & Hw1 & Hk).
  destruct (IH db1 Hw1 H2) as (Hall & Hk' & Ha'). split_and!; [|auto|congruence].
  intros r [->|Hin]%elem_of_cons; auto.
Qed.

Lemma artifacts_again artifacts now db :
  (∀ row, row ∈ artifacts → artifact_recorded db row) →
  tx_each append_shadow_execution_artifact_idempotent artifacts now db = (db, Ok ()).
Proof.
  intros Hall. induction artifacts as [|row artifacts IH]; [done|]. simpl.
  erewrite tx_bind_eq by (apply artifact_recorded_again, Hall; by left). apply IH. set_solver.
Qed.

Lemma rollback_same db : rollback db db = db.
Proof. by destruct db. Qed.

(** A shadow batch is atomic and idempotent: when it succeeds every attempt and every
    artifact of it is recorded, and running it again succeeds and changes nothing; when it
    fails no table has changed (only sequence numbers may be spent). *)
Theorem shadow_batch_idempotent active details attempts artifacts now db :
  db_wf db →
  ∃ db' r, runs (append_shadow_execution_batch active details attempts artifacts) now db db' r ∧
    match r with
    | Ok _ =>
        (∀ row, row ∈ attempts → attempt_recorded db' row) ∧
        (∀ row, row ∈ artifacts → artifact_recorded db' row) ∧
        ∀ now', runs (append_shadow_execution_batch active details attempts artifacts) now' db' db'
                  (Ok ())
    | Err _ => db' = rollback db db'
    end.
Proof.
  intros Hw. unfold append_shadow_execution_batch. case_bool_decide as Ha.
  { exists db. eexists. split; [apply runs_fail|]. by rewrite rollback_same. }
  set (tx := _ ← tx_each (append_batch_attempt details) attempts;
             tx_each append_shadow_execution_artifact_idempotent artifacts).
  destruct (tx now db) as [db' [[]|e]] eqn:E.
  - exists db', (Ok ()). split; [by apply runs_transaction_ok|].
    unfold tx in E. apply tx_bind_Ok in E as (db1 & [] & H1 & H2).
    assert (tx_in lawful (tx_each (append_batch_attempt details) attempts)) as Hl.
    { pose proof (tx_in_batch_attempt details). store_auto. }
    specialize (Hl now db). rewrite H1 in Hl. destruct (lw_wf _ _ Hl Hw) as [_ Hw1].
    apply attempts_Ok in H1 as [Hatt _]. apply artifacts_Ok in H2 as (Hart & _ & Hsame); [|done].
    assert (∀ row, row ∈ attempts → attempt_recorded db' row) as Hatt'.
    { intros row Hrow. eapply attempt_recorded_mono; [|by apply Hatt]. by rewrite Hsame. }
    split_and!; [done|done|]. intros now'. apply runs_transaction_ok. unfold tx.
    erewrite tx_bind_eq by (by apply attempts_again). by apply artifacts_again.
  - exists (rollback db db'), (Err e). split; [by apply runs_transaction_err|]. done.
Qed.
End batches.

(** ** Discovery snapshots *)

Section discovery.
Context {X : Externals} {O : OrderLaws X} {J : JsonOps} {P : PgOps} {PL : PgLaws P}.

Lemma add_extra_payload_reserved k extra fields :
  is_reserved_discovery_snapshot_key k = true →
  field_get k (add_extra_payload extra fields) = field_get k fields.
Proof.
  intros Hk. revert fields. induction extra as [|[k' v] extra IH]; intros fields; simpl; [done|].
  rewrite IH. destruct (is_reserved_discovery_snapshot_key k') eqn:E; [done|].
  apply field_get_insert_ne. congruence.
Qed.

(** The fields of the snapshot, whatever comes with it. *)
Definition snapshot_payload (snapshot : NegRiskDiscoverySnapshotInput) : list (string * Json) :=
  let payload := sort_by (cmp_on fst str_cmp) (discovery_snapshot_fields snapshot) in
  match dsi_extra_payload snapshot with
  | JObject extra_payload => add_extra_payload extra_payload payload
  | _ => payload
  end.

Lemma snapshot_payload_field snapshot k :
  is_reserved_discovery_snapshot_key k = true →
  json_get k (JObject (snapshot_payload snapshot)) =
  field_get k (discovery_snapshot_fields snapshot).
Proof.
  intros Hk. transitivity (json_get k (json_object (discovery_snapshot_fields snapshot))).
  - unfold snapshot_payload, json_object. simpl. destruct (dsi_extra_payload snapshot); try done.
    by apply add_extra_payload_reserved.
  - apply json_get_object. apply (bool_decide_unpack _). vm_compute. exact I.
Qed.

Lemma snapshot_family_ids snapshot :
  - 2 ^ 63 <= dsi_discovery_revision snapshot < 2 ^ 63 →
  family_ids_of_payload (JObject (snapshot_payload snapshot)) = Ok (dsi_family_ids snapshot).
Proof.
  intros Hr. unfold family_ids_of_payload.
  rewrite !snapshot_payload_field by reflexivity. simpl. rewrite bool_decide_eq_true_2 by done.
  simpl. apply collect_results_Ok. induction (dsi_family_ids snapshot); simpl; by constructor.
Qed.

(** The newest snapshot is the one read. *)
Lemma latest_payload_insert db db' seq row :
  db_event_journal db' = <[seq := row]> (db_event_journal db) →
  (∀ k r, db_event_journal db !! k = Some r → k < seq) →
  jr_event_type row = "neg_risk_discovery_snapshot" →
  latest_discovery_payload db' = Some (jr_payload row).
Proof.
  intros E Hlt Ht. unfold latest_discovery_payload. rewrite E, (head_select _ _ _ seq row); [done| | |].
  - apply lookup_insert_eq.
  - by rewrite bool_decide_eq_true_2.
  - intros k r Hk _ Hne. rewrite lookup_insert_ne in Hk by done. apply Hlt in Hk.
    unfold desc, cmp_on. simpl. by apply Z.compare_lt_iff.
Qed.

(** A discovery snapshot decides the current family view: once it is persisted, the
    families it names are read back whatever else its payload carries (the reserved
    fields cannot be overridden), and a reconciliation for any requested revision keeps
    exactly the validations and halts of those families. *)
Theorem discovery_view_roundtrip snapshot now now' db db' row revision :
  db_wf db → - 2 ^ 63 <= dsi_discovery_revision snapshot < 2 ^ 63 →
  runs (persist_discovery_snapshot snapshot) now db db' (Ok row) →
  runs (stmt latest_discovery_snapshot) now' db' db' (Ok (Some (dsi_family_ids snapshot))) ∧
  runs (reconcile_current_family_view revision) now' db'
    (db' <| db_family_validations ::= filter (λ kv, kv.1 ∈ dsi_family_ids snapshot) |>
         <| db_family_halts ::= filter (λ kv, kv.1 ∈ dsi_family_ids snapshot) |>) (Ok ()).
Proof.
  intros Hw Hr Hrun.
  assert (runs (stmt latest_discovery_snapshot) now' db' db' (Ok (Some (dsi_family_ids snapshot))))
    as Hlatest.
  { apply runs_stmt. unfold latest_discovery_snapshot, mbind, tx_bind, query, tx_of.
    assert (latest_discovery_payload db' = Some (JObject (snapshot_payload snapshot))) as ->.
    { unfold persist_discovery_snapshot in Hrun. fold (snapshot_payload snapshot) in Hrun.
      destruct (Hrun 0%nat) as [n E]. unfold journal_append, stmt in E. simpl in E.
      unfold append_journal_entry in E.
      destruct (nextval _) as [seq|] eqn:En; [|done]. apply nextval_Some in En as ->.
      destruct (has_row _ _); [done|]. case_bool_decide; [done|]. simpl in E.
      injection E as _ <- _.
      etrans; [eapply (latest_payload_insert db); [reflexivity| |done]|done].
      intros k r Hk. apply (wf_journal _ Hw) in Hk as (_ & ? & _). done. }
    by rewrite snapshot_family_ids. }
  split; [done|]. unfold reconcile_current_family_view, reconcile_current_family_view_with_instrumentation.
  eapply runs_bind; [exact Hlatest|]. simpl.
  eapply runs_bind; [apply runs_transaction_ok; reflexivity|]. intros n. by exists n.
Qed.
End discovery.

(** ** Adoption histories *)

Section history.
Context {X : Externals} {O : OrderLaws X} {J : JsonOps} {P : PgOps} {PL : PgLaws P}.

#[local] Instance combined_order_total : TotalPreorder combined_order.
Proof.
  change combined_order with (cmp_on
    (λ a : OperatorStrategyAdoptionHistoryRow * (Z * Z),
       (a.2.1, (osh_adopted_at a.1, (a.2.2, osh_adoption_id a.1))))
    (cmp_lex (desc Z.compare) (cmp_lex (desc dt_cmp) (cmp_lex Z.compare (desc text_cmp))))).
  exact _.
Qed.

(** [latest] compares the sequence numbers of two independent tables: as long as a row
    of the legacy table has a number the strategy table's sequence has not reached, the
    latest action is never the one that was just appended. *)
Theorem new_adoption_hidden_by_legacy row now now' db db' legacy legacy_id n :
  db_wf db → db_target_history db !! legacy_id = Some (legacy, n) →
  db_strategy_history_seq db < n →
  db_target_history db !! osh_adoption_id row = None →
  runs (strategy_history_append row) now db db' (Ok ()) →
  ∃ latest, runs strategy_history_latest now' db' db' (Ok (Some latest)) ∧
    osh_adoption_id latest ≠ osh_adoption_id row ∧
    ∃ id v, db_target_history db !! id = Some v ∧ latest = legacy_history_row v.1.
Proof.
  intros Hw Hl Hn Hid Hrun. destruct (Hrun 0%nat) as [m E].
  assert (lawful db db') as Hlaw.
  { eapply runs_lawful; [|exact Hrun]. apply (pool_in_stmt lawful). unfold sqlx_ok.
    pose proof tx_in_insert_strategy_history. store_auto. }
  destruct (lw_wf _ _ Hlaw Hw) as [_ Hw'].
  assert (db_target_history db' = db_target_history db ∧
          db_strategy_history_seq db' <= db_strategy_history_seq db + 1) as [Ht Hs].
  { unfold strategy_history_append, stmt, sqlx_ok, insert_strategy_history, mbind, tx_bind in E.
    simpl in E. destruct (nextval _) as [seq|] eqn:En; [|done]. apply nextval_Some in En as ->.
    destruct (history_shape _ _ _); [|done]. simpl in E. case_bool_decide; [done|].
    simpl in E. injection E as _ <-. split; [done|]. simpl. lia. }
  assert ((legacy_history_row legacy, (n, 1)) ∈ combined_history db') as Hin.
  { apply elem_of_app. right. apply list_elem_of_fmap. exists (legacy_id, (legacy, n)).
    split; [done|]. rewrite elem_of_map_to_list. by rewrite Ht. }
  pose proof (sort_by_sorted combined_order (combined_history db')) as Hsort.
  destruct (sort_by combined_order (combined_history db')) as [|h rest] eqn:Es.
  { rewrite sort_by_nil in Es. rewrite Es in Hin. by apply elem_of_nil in Hin. }
  assert (h ∈ combined_history db') as Hh.
  { rewrite <- (elem_of_sort_by combined_order), Es. by left. }
  assert (n <= h.2.1) as Hge.
  { rewrite <- (elem_of_sort_by combined_order), Es in Hin. apply elem_of_cons in Hin as [<-|Hin]; [done|].
    apply StronglySorted_inv in Hsort as [_ Hf]. rewrite Forall_forall in Hf. apply Hf in Hin.
    unfold cmp_le, combined_order, then_with, desc in Hin. simpl in Hin.
    destruct (Z.compare_spec n h.2.1); lia || done. }
  exists h.1. split.
  { apply runs_stmt. unfold query, combined_first. do 2 f_equal.
    replace (List.filter _ _) with (combined_history db'); [by rewrite Es|].
    clear. induction (combined_history db') as [|x l IH]; simpl; congruence. }
  apply elem_of_app in Hh as [Hh|Hh]; apply list_elem_of_fmap in Hh as ([id v] & -> & Hv);
    rewrite elem_of_map_to_list in Hv; simpl in Hge |- *.
  - exfalso. apply (proj1 (wf_strategy_history _ Hw')) in Hv as (_ & ? & _). lia.
  - rewrite Ht in Hv. split; [|by exists id, v].
    apply (proj1 (wf_target_history _ Hw)) in Hv as Hv'. destruct Hv' as (<- & _).
    intros Eid. rewrite Eid in Hv. congruence.
Qed.
End history.

(** ** Witnesses *)

Module witnesses.
#[local] Existing Instance Micros.
#[local] Existing Instance plain_json.
#[local] Existing Instance plain_pg.

Definition example_candidate : CandidateTargetSetRow :=
  {| cts_candidate_revision := "candidate-1"; cts_snapshot_id := "snapshot-1";
     cts_source_revision := "discovery-1"; cts_payload := JNull |}.

Lemma candidate_artifacts_written_once_witness :
  match upsert_candidate_target_set example_candidate (quiet (instant 10)) (0%nat, db_empty) with
  | ((_, db'), Ok _) => stored db_candidate_target_sets "candidate-1" db' example_candidate
  | ((_, db'), Err e) =>
      (e = Fails (ConflictingCandidateTargetSet "candidate-1") ∧
       ∃ r, stored db_candidate_target_sets "candidate-1" db' r ∧ r ≠ example_candidate) ∨
      is_sqlx "candidate_target_sets_pkey" e
  end.
Proof.
  destruct candidate_artifacts_written_once as [H _].
  apply (H example_candidate (quiet (instant 10)) 0%nat db_empty).
  - intros k d. constructor.
  - apply db_empty_wf.
Defined.

Definition legacy_only : Db :=
  db_empty <| db_candidate_target_sets := {["candidate-1" := example_candidate]} |>.

Lemma legacy_candidate_blocks_refresh_witness :
  runs (append_discover_refresh "candidate-1") (instant 10) legacy_only
    (legacy_only <| db_refresh_seq := 2 |>)
    (Err (Fails (Sqlx (ConstraintViolated
       "discover_refresh_history_strategy_candidate_revision_fkey")))).
Proof.
  apply (legacy_candidate_blocks_refresh legacy_only (instant 10) example_candidate
    {| asr_adoptable_strategy_revision := "adoptable-1";
       asr_strategy_candidate_revision := "candidate-1";
       asr_rendered_operator_strategy_revision := "strategy-1"; asr_payload := JNull |});
    try reflexivity.
Defined.

Definition example_attempt : ExecutionAttemptRow :=
  {| xr_attempt_id := "attempt-1"; xr_plan_id := "plan-1"; xr_snapshot_id := "snapshot-1";
     xr_route := "neg-risk"; xr_scope := "family-a"; xr_matched_rule_id := None;
     xr_execution_mode := Shadow; xr_attempt_no := 1; xr_idempotency_key := "key-1";
     xr_run_session_id := None |}.

Lemma shadow_batch_idempotent_witness :
  ∃ db' r, runs (append_shadow_execution_batch ∅ (λ _, "") [example_attempt]
      [{| xa_attempt_id := "attempt-1"; xa_stream := "plan"; xa_payload := JNull |}])
    (instant 10) db_empty db' r ∧ is_ok r = true.
Proof.
  destruct (shadow_batch_idempotent ∅ (λ _, "") [example_attempt]
    [{| xa_attempt_id := "attempt-1"; xa_stream := "plan"; xa_payload := JNull |}] (instant 10)
    db_empty db_empty_wf) as (db' & r & Hr & _).
  exists db', r. split; [exact Hr|]. destruct (Hr 0%nat) as [n E].
  apply (f_equal (λ x, is_ok x.2)) in E. simpl in E. rewrite <- E. vm_compute. reflexivity.
Defined.

Definition example_snapshot : NegRiskDiscoverySnapshotInput :=
  {| dsi_discovery_revision := 7; dsi_metadata_snapshot_hash := "hash";
     dsi_family_ids := ["family-a"]; dsi_captured_at := instant 5; dsi_source_kind := "gamma";
     dsi_source_session_id := "session"; dsi_source_event_id := "event"; dsi_dedupe_key := "dedupe";
     dsi_extra_payload := JObject [("family_ids", JArray [])] |}.

Definition snapshot_entry : JournalEntryInput :=
  {| ji_stream := "neg_risk_discovery"; ji_source_kind := "gamma";
     ji_source_session_id := "session"; ji_source_event_id := "event"; ji_dedupe_key := "dedupe";
     ji_causal_parent_id := None; ji_event_type := "neg_risk_discovery_snapshot";
     ji_event_ts := instant 5; ji_payload := JObject (snapshot_payload example_snapshot) |}.

Lemma discovery_view_roundtrip_witness :
  ∃ db', runs (stmt latest_discovery_snapshot) (instant 20) db' db' (Ok (Some ["family-a"])).
Proof.
  set (row := journal_entry_row 1 snapshot_entry (instant 10)).
  set (db' := db_empty <| db_journal_seq := 2 |> <| db_event_journal := {[1 := row]} |>).
  exists db'. apply (discovery_view_roundtrip example_snapshot (instant 10) (instant 20) db_empty db'
    row 7).
  - apply db_empty_wf.
  - simpl. lia.
  - apply runs_stmt. reflexivity.
Defined.

Definition legacy_adoption : OperatorTargetAdoptionHistoryRow :=
  {| oth_adoption_id := "adoption-1"; oth_action_kind := "rollback";
     oth_operator_target_revision := "targets-1"; oth_previous_operator_target_revision := None;
     oth_adoptable_revision := None; oth_candidate_revision := None; oth_adopted_at := instant 1 |}.

Definition new_adoption : OperatorStrategyAdoptionHistoryRow :=
  {| osh_adoption_id := "adoption-2"; osh_action_kind := "rollback";
     osh_operator_strategy_revision := "strategy-2";
     osh_previous_operator_strategy_revision := None; osh_adoptable_strategy_revision := None;
     osh_strategy_candidate_revision := None; osh_adopted_at := instant 9 |}.

(** The legacy sequence has skipped a number. *)
Lemma new_adoption_hidden_by_legacy_witness :
  ∃ db db' latest,
    runs (strategy_history_append new_adoption) (instant 10) db db' (Ok ()) ∧
    runs strategy_history_latest (instant 20) db' db' (Ok (Some latest)) ∧
    osh_adoption_id latest ≠ "adoption-2".
Proof.
  set (db0 := db_empty <| db_target_history_seq := 2 |>).
  set (db := db0 <| db_target_history_seq := 3 |>
                 <| db_target_history ::= insert "adoption-1" (legacy_adoption, 2) |>).
  set (db' := db <| db_strategy_history_seq := 2 |>
                 <| db_strategy_history ::= insert "adoption-2" (new_adoption, 1) |>).
  assert (lawful db0 db) as Hlaw.
  { apply (runs_lawful (target_history_append legacy_adoption) (instant 1) _ _ (Ok ())).
    - exact (repo_op_lawful (OpAppendTargetHistory legacy_adoption)).
    - apply runs_stmt. reflexivity. }
  assert (db_wf db) as Hw.
  { apply (lw_wf _ _ Hlaw). destruct db_empty_wf. constructor; try assumption.
    eapply target_history_wf_next; [|exact wf_target_history]. simpl. lia. }
  assert (runs (strategy_history_append new_adoption) (instant 10) db db' (Ok ())) as Hr
    by (apply runs_stmt; reflexivity).
  assert (db_target_history db !! "adoption-1" = Some (legacy_adoption, 2)) as Hl
    by (apply lookup_insert_eq).
  assert (db_target_history db !! "adoption-2" = None) as Hn
    by (unfold db; simpl; rewrite lookup_insert_ne by discriminate; apply lookup_empty).
  destruct (new_adoption_hidden_by_legacy new_adoption (instant 10) (instant 20) db db'
    legacy_adoption "adoption-1" 2 Hw Hl eq_refl Hn Hr) as (latest & Hlatest & Hne & _).
  exists db, db', latest. split; [exact Hr|]. split; [exact Hlatest|exact Hne].
Defined.
End witnesses.
