(* ===== verification/ConfigProofs.v ===== *)
(** * Theorems about the configuration

    What validation guarantees to the rest of the application, and what the rewrites of
    the file preserve. *)

From S2P Require Import Prelude Text RecordSet Externals Json Domain Plans LiveRecords Discovery.
From S2P Require Import Rows AppConfig Config Validation ConfigFile.

(** ** TOML tables *)

Lemma toml_get_insert k v fields : toml_get k (toml_insert k v fields) = Some v.
Proof.
  induction fields as [|[k' v'] fields IH]; simpl; [by rewrite decide_True|].
  case_decide; simpl; [by rewrite decide_True|by rewrite decide_False].
Qed.

Lemma toml_get_insert_ne k k' v fields :
  k ≠ k' → toml_get k (toml_insert k' v fields) = toml_get k fields.
Proof.
  intros Hk. induction fields as [|[k2 v2] fields IH]; simpl; [by rewrite decide_False|].
  case_decide; simpl; repeat case_decide; congruence.
Qed.

Lemma toml_get_remove k fields : toml_get k (toml_remove k fields) = None.
Proof.
  induction fields as [|[k' v'] fields IH]; simpl; [done|].
  case_decide; simpl; [done|by rewrite decide_False].
Qed.

Lemma toml_get_remove_ne k k' fields :
  k ≠ k' → toml_get k (toml_remove k' fields) = toml_get k fields.
Proof.
  intros Hk. induction fields as [|[k2 v2] fields IH]; simpl; [done|].
  repeat case_decide; simpl; repeat case_decide; congruence.
Qed.

Lemma toml_insert_keys k v fields k' :
  k' ∈ (toml_insert k v fields).*1 ↔ k' = k ∨ k' ∈ fields.*1.
Proof.
  induction fields as [|[k2 v2] fields IH]; simpl; [set_solver|].
  case_decide; simpl; rewrite !elem_of_cons; naive_solver.
Qed.

Lemma toml_insert_NoDup k v fields : NoDup fields.*1 → NoDup (toml_insert k v fields).*1.
Proof.
  induction fields as [|[k2 v2] fields IH]; simpl; [intros; apply NoDup_singleton|].
  rewrite NoDup_cons. intros [Hn Hd]. case_decide; simpl; rewrite NoDup_cons; [naive_solver|].
  rewrite toml_insert_keys. naive_solver.
Qed.

#[global] Hint Rewrite toml_get_insert toml_get_remove : toml.
#[global] Hint Rewrite toml_get_insert_ne toml_get_remove_ne using done : toml.

(** A field is read through its key only. *)
Lemma de_field_ext {A} (de : Toml → option A) k fs fs' :
  toml_get k fs = toml_get k fs' → de_field de k fs = de_field de k fs'.
Proof. unfold de_field. by intros ->. Qed.
Lemma de_option_ext {A} (de : Toml → option A) k fs fs' :
  toml_get k fs = toml_get k fs' → de_option de k fs = de_option de k fs'.
Proof. unfold de_option. by intros ->. Qed.
Lemma de_default_ext {A} (a : A) (de : Toml → option A) k fs fs' :
  toml_get k fs = toml_get k fs' → de_default a de k fs = de_default a de k fs'.
Proof. unfold de_default. by intros ->. Qed.

Lemma de_option_some {A} (de : Toml → option A) k fs v a :
  toml_get k fs = Some v → de v = Some a → de_option de k fs = Some (Some a).
Proof. unfold de_option. by intros -> ->. Qed.
Lemma de_option_none {A} (de : Toml → option A) k fs :
  toml_get k fs = None → de_option de k fs = Some None.
Proof. unfold de_option. by intros ->. Qed.

(** ** Validated live configurations *)

Section validated.
Context {X : Externals} {J : JsonOps} {P : PgOps} {U : UrlOps} {D : SerdeOps}.

Lemma require_field_ok value field :
  require_non_empty_local_signer_field value field = Ok () ↔ is_blank value = false.
Proof. unfold require_non_empty_local_signer_field. by destruct (is_blank value). Qed.

Lemma require_optional_ok value field v :
  require_non_empty_optional_local_signer_field value field = Ok v ↔
  value = Some v ∧ is_blank v = false.
Proof.
  unfold require_non_empty_optional_local_signer_field. destruct value as [x|]; simpl;
    [|split; [done|intros [? _]; done]].
  destruct (is_blank x) eqn:E; split; intros H; simplify_eq; try done; destruct H; congruence.
Qed.

Lemma account_field_ok value field :
  is_blank value = false → require_non_empty_account_field value field = Ok ().
Proof. unfold require_non_empty_account_field. by intros ->. Qed.

Lemma relayer_field_ok value field :
  is_blank value = false → require_non_empty_relayer_field value field = Ok ().
Proof. unfold require_non_empty_relayer_field. by intros ->. Qed.

Lemma optional_relayer_field_ok v field :
  is_blank v = false → require_non_empty_optional_relayer_field (Some v) field = Ok v.
Proof. unfold require_non_empty_optional_relayer_field. simpl. by intros ->. Qed.

(** Splits [Ok] of a sequence of checks. *)
Ltac checks := repeat match goal with
  | H : (_ ≫= _) = Ok _ |- _ => unfold mbind, result_bind in H
  | H : match ?m with Ok _ => _ | Err _ => _ end = Ok _ |- _ =>
      let E := fresh "E" in destruct m eqn:E; [|discriminate H]
  | u : unit |- _ => destruct u
  end.

Lemma account_views_agree account :
  validate_account_view account = Ok () →
  app_validate_account_view account = Ok () ∧
  is_blank (pat_api_key account) = false ∧ is_blank (pat_secret account) = false ∧
  is_blank (pat_passphrase account) = false ∧
  toml_signature_type_label (pat_signature_type account)
    = toml_wallet_route_label (pat_wallet_route account).
Proof.
  unfold validate_account_view, app_validate_account_view. intros H. checks.
  case_bool_decide as Hl; [discriminate H|].
  repeat match goal with H : require_non_empty_local_signer_field _ _ = Ok _ |- _ =>
    apply require_field_ok in H end.
  rewrite !account_field_ok by done. simpl. split; [|done].
  destruct (pat_funder_address account); simpl in *; [|done].
  by rewrite account_field_ok by (eapply require_field_ok; eauto).
Qed.

Lemma derive_ok api_key secret passphrase now :
  is_blank api_key = false → is_blank secret = false → is_blank passphrase = false →
  is_ok (derive_l2_auth_material api_key secret passphrase now) = true ∧
  is_ok (derive_builder_relayer_auth_material api_key secret passphrase now) = true.
Proof.
  intros H1 H2 H3. unfold derive_l2_auth_material, derive_builder_relayer_auth_material,
    ensure_field. rewrite H1, H2, H3. done.
Qed.

Lemma relayer_views_agree auth now :
  validate_relayer_auth_view auth = Ok () → is_ok (map_relayer_auth now auth) = true.
Proof.
  unfold validate_relayer_auth_view, map_relayer_auth, app_validate_relayer_auth_view.
  intros H. checks. apply require_field_ok in E. rewrite relayer_field_ok by done. simpl.
  destruct (prt_kind auth); checks.
  - apply require_optional_ok in E0 as [-> Hp]. rewrite !optional_relayer_field_ok by done. simpl.
    destruct (prt_secret auth) as [secret|]; simpl in H; checks.
    + apply require_optional_ok in E0 as [[= <-] Hs]. rewrite optional_relayer_field_ok by done.
      simpl. destruct (derive_ok (prt_api_key auth) secret a now) as [_ Hb]; [done..|].
      by destruct (derive_builder_relayer_auth_material _ _ _ _).
    + apply require_optional_ok in E0 as [-> Ht]. apply require_optional_ok in E1 as [-> Hg].
      by rewrite !optional_relayer_field_ok by done.
  - apply require_optional_ok in E0 as [-> Ha]. by rewrite !optional_relayer_field_ok by done.
Qed.

(** A live configuration that was validated is usable: the credentials of the account
    and, for the wallets that need one, of the relayer can be built from it, and the
    wallet kind the runtime derives from the sections that are present is the one the
    validation checked. *)
Theorem validated_live_config_usable raw validated config now relayer_now :
  validated_config_new raw = Ok validated → for_app_live validated = Ok config →
  is_live raw = true →
  config = raw ∧ ∃ account, raw_account raw = Some account ∧
    gateway_credentials_try_from raw = Ok (gateway_credentials_from_account account) ∧
    is_ok (account_runtime_try_from now raw) = true ∧
    runtime_wallet_kind_requires_relayer raw
      = requires_relayer_auth (validated_wallet_kind account) ∧
    (requires_relayer_auth (validated_wallet_kind account) = true →
     is_ok (relayer_required_from relayer_now raw) = true ∧
     is_ok (signer_config_try_from now relayer_now raw) = true).
Proof.
  unfold validated_config_new. intros Hv Ha Hl. checks. injection Hv as <-.
  unfold for_app_live in Ha. unfold is_live in Hl. apply bool_decide_eq_true in Hl.
  rewrite Hl in Ha. case_bool_decide as Hsig; [discriminate Ha|]. checks. injection Ha as <-.
  split; [done|]. unfold require_account in E0.
  destruct (raw_account raw) as [account|] eqn:Eacc; [|discriminate E0].
  injection E0 as <-. exists account. split; [done|].
  apply account_views_agree in E1 as (Hav & Hk & Hs & Hp & Hlab).
  assert (gateway_credentials_try_from raw = Ok (gateway_credentials_from_account account)) as Hg.
  { unfold gateway_credentials_try_from, has_polymarket_signer.
    rewrite bool_decide_eq_false_2 by done. rewrite Eacc. simpl. by rewrite Hav. }
  destruct (derive_ok _ _ _ now Hk Hs Hp) as [Hd _].
  assert (is_ok (account_runtime_try_from now raw) = true) as Hacc.
  { unfold account_runtime_try_from, has_polymarket_signer.
    rewrite bool_decide_eq_false_2 by done. rewrite Hg. simpl.
    by destruct (derive_l2_auth_material _ _ _ _). }
  split_and!; [done..| |].
  - unfold runtime_wallet_kind_requires_relayer, runtime_wallet_kind. rewrite Eacc. simpl.
    unfold validate_global_invariants in E. destruct (_ && _); [discriminate E|]. checks.
    unfold validate_wallet_kind_relayer_invariants in E. rewrite Eacc in E.
    unfold validated_wallet_kind, raw_wallet_kind, require_relayer_auth_view in *.
    destruct (raw_relayer_auth raw), (pat_signature_type account), (pat_wallet_route account);
      simpl in *; done.
  - intros Hr. rewrite Hr in E2. checks. unfold require_relayer_auth_view in E0.
    destruct (raw_relayer_auth raw) as [auth|] eqn:Er; [|discriminate E0]. injection E0 as <-.
    apply (relayer_views_agree _ relayer_now) in E2.
    assert (is_ok (relayer_required_from relayer_now raw) = true) as Hrel.
    { unfold relayer_required_from, relayer_optional_from. rewrite Er.
      by destruct (map_relayer_auth relayer_now auth). }
    split; [done|]. unfold signer_config_try_from.
    destruct (account_runtime_try_from now raw); [|done]. simpl.
    by destruct (relayer_required_from relayer_now raw).
Qed.
End validated.

(** ** A concrete library *)

Definition plain_url : UrlOps :=
  {| Url := string; url_parse s := Ok s; url_scheme _ := "https"; url_host_str s := Some s;
     url_path _ := "/"; url_query _ := None; url_fragment _ := None;
     header_value_ok _ := true |}.

Definition plain_serde : SerdeOps (X := Micros) :=
  {| json_to_decimal j := match j with JNumber n => Some (n : @Decimal Micros) | _ => None end;
     serde_error _ := "invalid type"; dec_parse_error _ := "invalid decimal";
     dt_timestamp (t : @DateTime Micros) := t |}.

#[export] Instance plain_serde_laws : SerdeLaws (J := plain_json) plain_serde.
Proof. by split. Qed.

Module witnesses.
#[local] Existing Instance Micros.
#[local] Existing Instance plain_json.
#[local] Existing Instance plain_url.
#[local] Existing Instance plain_serde.

Definition example_account : PolymarketAccountToml :=
  {| pat_address := "0xaddress"; pat_funder_address := None; pat_signature_type := TomlSigSafe;
     pat_wallet_route := TomlWalletSafe; pat_api_key := "key"; pat_secret := "secret";
     pat_passphrase := "phrase" |}.
Definition example_relayer : PolymarketRelayerAuthToml :=
  {| prt_kind := BuilderApiKey; prt_api_key := "builder"; prt_secret := Some "hidden";
     prt_timestamp := None; prt_passphrase := Some "words"; prt_signature := None;
     prt_address := None |}.
Definition example_live : RawAxiomConfig :=
  {| rc_runtime := {| rt_mode := ModeLive; rt_real_user_shadow_smoke := false |};
     rc_strategy_control := Some {| sct_source := ControlAdopted;
       sct_operator_strategy_revision := Some "strategy-rev-1" |};
     rc_strategies := None;
     rc_polymarket := Some {| pm_account := Some example_account;
       pm_relayer_auth := Some example_relayer; pm_source_overrides := None; pm_source := None;
       pm_signer := None |};
     rc_negrisk := None |}.

Lemma validated_live_config_usable_witness :
  ∃ account, raw_account example_live = Some account ∧
    requires_relayer_auth (validated_wallet_kind account) = true ∧
    is_ok (signer_config_try_from (X := Micros) (7 : @DateTime Micros) (8 : @DateTime Micros)
             example_live) = true.
Proof.
  destruct (validated_live_config_usable example_live example_live example_live
    (7 : @DateTime Micros) (8 : @DateTime Micros)) as (_ & account & E & _ & _ & _ & H);
    [reflexivity..|].
  exists account. injection E as <-. split; [reflexivity|]. split; [reflexivity|].
  apply H. reflexivity.
Defined.
End witnesses.
