(* ===== verification/ConfigRewrite.v ===== *)
(** * What a rewrite of the configuration file preserves

    A document that was printed reads back up to the order of its keys; what the schema
    makes of it does not depend on that order. Hence a rewrite changes what it means to
    change, and nothing else. *)

From S2P Require Import Prelude Text RecordSet Config Validation ConfigFile ConfigProofs.

(** ** Decoders respect what a document reads as *)

(** A value without empty tables, and what is read where it was printed. *)
Definition good (v v' : Toml) : Prop := toml_solid v = true ∧ reads_as v v'.
Definition good_at (k : string) (fs fs' : TomlFields) : Prop :=
  option_Forall2 good (toml_get k fs) (toml_get k fs').
Definition goods (fs fs' : TomlFields) : Prop := ∀ k, good_at k fs fs'.

Definition respects {A} (de : Toml → option A) : Prop := ∀ v v', good v v' → de v = de v'.

Create HintDb toml_good.

Lemma toml_get_elem k v fs : toml_get k fs = Some v → (k, v) ∈ fs.
Proof.
  induction fs as [|[k' v'] fs IH]; simpl; [done|].
  case_decide; intros Hv; simplify_eq; [left|right; auto].
Qed.

Lemma forallb_elem {A} (f : A → bool) l x : forallb f l = true → x ∈ l → f x = true.
Proof. rewrite forallb_forall. intros H Hx. apply H. by apply list_elem_of_In. Qed.

Lemma solid_entry fs k v :
  forallb (λ kv, toml_solid kv.2) fs = true → toml_get k fs = Some v → toml_solid v = true.
Proof. intros Hs Hk. exact (forallb_elem _ _ _ Hs (toml_get_elem _ _ _ Hk)). Qed.

Lemma reads_entry_good fs k v' :
  forallb (λ kv, toml_solid kv.2) fs = true → reads_entry reads_as (toml_get k fs) v' →
  option_Forall2 good (toml_get k fs) v'.
Proof.
  intros Hs. destruct (toml_get k fs) as [v|] eqn:E; intros H; inversion H; subst.
  - constructor. split; [by eapply solid_entry|done].
  - apply (solid_entry fs k) in E; [done|exact Hs].
  - constructor.
Qed.

Lemma good_tab fs fs' : good (TTab fs) (TTab fs') → goods fs fs'.
Proof.
  intros [Hs Hr] k. simpl in Hs. apply andb_true_iff in Hs as [_ Hs]. inversion Hr; subst.
  by apply reads_entry_good.
Qed.

Lemma good_tab_shape fs v : good (TTab fs) v → ∃ fs', v = TTab fs' ∧ goods fs fs'.
Proof.
  intros H. pose proof H as [_ Hr]. inversion Hr; subst. eexists; split; [done|by apply good_tab].
Qed.

Lemma Forall2_good l l' :
  forallb toml_solid l = true → Forall2 reads_as l l' → Forall2 good l l'.
Proof.
  intros Hs H. induction H as [|v v' l l' Hv _ IH]; [constructor|].
  simpl in Hs. apply andb_true_iff in Hs as [H1 H2]. constructor; [split|]; auto.
Qed.

Lemma good_arr l l' : good (TArr l) (TArr l') → Forall2 good l l'.
Proof. intros [Hs Hr]. inversion Hr; subst. by apply Forall2_good. Qed.

Lemma good_tables ts ts' : good (TTables ts) (TTables ts') → Forall2 good (TTab <$> ts) (TTab <$> ts').
Proof.
  intros [Hs Hr]. inversion Hr as [| | | | |? ? H|]; subst. apply Forall2_good.
  - clear Hr H. simpl in Hs. induction ts as [|t ts IH]; [done|]. simpl in *.
    apply andb_true_iff in Hs as [H1 H2]. rewrite H1. simpl. auto.
  - by apply Forall2_fmap.
Qed.

Lemma goods_zip names l l' : Forall2 good l l' → goods (zip names l) (zip names l').
Proof.
  intros H k. unfold good_at. revert names.
  induction H as [|v v' l l' Hv _ IH]; intros [|n names]; simpl; try constructor. case_decide; [by constructor|apply IH].
Qed.

Lemma struct_fields_good names v v' :
  good v v' → option_Forall2 goods (struct_fields names v) (struct_fields names v').
Proof.
  intros Hg. pose proof Hg as [_ Hr]. destruct Hr as [| | | |l l' Hl|ts ts' Ht|fs fs' Hf]; simpl;
    try constructor.
  - apply good_arr in Hg. rewrite (Forall2_length _ _ _ Hg).
    case_bool_decide; constructor. by apply goods_zip.
  - apply good_tables in Hg. rewrite (Forall2_length _ _ _ Hg).
    case_bool_decide; constructor. by apply goods_zip.
  - by apply good_tab.
Qed.

Lemma de_field_good {A} (de : Toml → option A) k fs fs' :
  respects de → good_at k fs fs' → de_field de k fs = de_field de k fs'.
Proof. intros Hd Hg. unfold de_field. destruct Hg as [v v' Hv|]; simpl; auto. Qed.

Lemma de_option_good {A} (de : Toml → option A) k fs fs' :
  respects de → good_at k fs fs' → de_option de k fs = de_option de k fs'.
Proof.
  intros Hd Hg. unfold de_option. destruct Hg as [v v' Hv|]; [|done]. by rewrite (Hd _ _ Hv).
Qed.

Lemma de_default_good {A} (a : A) (de : Toml → option A) k fs fs' :
  respects de → good_at k fs fs' → de_default a de k fs = de_default a de k fs'.
Proof. intros Hd Hg. unfold de_default. destruct Hg as [v v' Hv|]; auto. Qed.

Lemma de_option_alias_good {A} (de : Toml → option A) k alias fs fs' :
  respects de → good_at k fs fs' → good_at alias fs fs' →
  de_option_alias de k alias fs = de_option_alias de k alias fs'.
Proof.
  intros Hd Hg Ha. unfold de_option_alias. rewrite (de_option_good de k fs fs' Hd Hg).
  destruct Hg as [v v' Hv|], Ha as [w w' Hw|]; auto. by rewrite (Hd _ _ Hw).
Qed.

Lemma de_string_good : respects de_string.
Proof. intros v v' [_ []]; done. Qed.
Lemma de_bool_good : respects de_bool.
Proof. intros v v' [_ []]; done. Qed.
Lemma de_u64_good : respects de_u64.
Proof. intros v v' [_ []]; done. Qed.
Lemma de_enum_good {A} (cases : list (string * A)) : respects (de_enum cases).
Proof. intros v v' Hg. unfold de_enum. by rewrite (de_string_good v v' Hg). Qed.

Lemma mapM_good {A} (de : Toml → option A) l l' :
  respects de → Forall2 good l l' → mapM de l = mapM de l'.
Proof.
  intros Hd H. induction H as [|v v' l l' Hv _ IH]; [done|]. simpl.
  by rewrite (Hd _ _ Hv), IH.
Qed.

Lemma de_vec_good {A} (de : Toml → option A) : respects de → respects (de_vec de).
Proof.
  intros Hd v v' Hg. pose proof Hg as [_ Hr]. destruct Hr; simpl; try done.
  - apply mapM_good; [done|by apply good_arr].
  - apply mapM_good; [done|by apply good_tables].
Qed.

Lemma bind_ext {A B} (m m' : option A) (f f' : A → option B) :
  m = m' → (∀ a, f a = f' a) → m ≫= f = m' ≫= f'.
Proof. intros -> Hf. destruct m'; simpl; auto. Qed.

Lemma goods_at k fs fs' : goods fs fs' → good_at k fs fs'.
Proof. done. Qed.

#[export] Hint Resolve goods_at de_field_good de_option_good de_default_good de_option_alias_good
  de_string_good de_bool_good de_u64_good de_enum_good de_vec_good : toml_good.

(** A struct is read field by field. *)
Ltac struct_good := let v := fresh "v" in let v' := fresh "v'" in let Hg := fresh in
  intros v v' Hg;
  match goal with |- ?de v = _ => unfold de end;
  match goal with |- (struct_fields ?names v ≫= _) = _ =>
    destruct (struct_fields_good names v v' Hg) as [fs fs' Hfs|]; simpl; [|done] end;
  repeat (apply bind_ext; [solve [eauto with toml_good]|intros]); done.

Lemma de_runtime_good : respects de_runtime. Proof. struct_good. Qed.
Lemma de_strategy_control_good : respects de_strategy_control. Proof. struct_good. Qed.
Lemma de_route_rollout_good : respects de_route_rollout. Proof. struct_good. Qed.
#[export] Hint Resolve de_route_rollout_good : toml_good.
Lemma de_strategy_route_good : respects de_strategy_route. Proof. struct_good. Qed.
#[export] Hint Resolve de_strategy_route_good : toml_good.
Lemma de_strategies_good : respects de_strategies. Proof. struct_good. Qed.
Lemma de_account_good : respects de_account. Proof. struct_good. Qed.
Lemma de_source_good : respects de_source. Proof. struct_good. Qed.
Lemma de_signer_good : respects de_signer. Proof. struct_good. Qed.
Lemma de_relayer_auth_good : respects de_relayer_auth. Proof. struct_good. Qed.
#[export] Hint Resolve de_account_good de_source_good de_signer_good de_relayer_auth_good
  : toml_good.
Lemma de_polymarket_good : respects de_polymarket. Proof. struct_good. Qed.
Lemma de_target_source_good : respects de_target_source. Proof. struct_good. Qed.
Lemma de_negrisk_rollout_good : respects de_negrisk_rollout. Proof. struct_good. Qed.
#[export] Hint Resolve de_target_source_good de_negrisk_rollout_good de_runtime_good
  de_strategy_control_good de_strategies_good de_polymarket_good : toml_good.

(** ** Documents after an edit *)

Section edits.
Context (ok : Toml → bool).

Lemma forallb_insert k v fs :
  ok v = true → forallb (λ kv, ok kv.2) fs = true →
  forallb (λ kv, ok kv.2) (toml_insert k v fs) = true.
Proof.
  intros Hv. induction fs as [|[k' v'] fs IH]; simpl; [by rewrite Hv|].
  rewrite andb_true_iff. intros [H1 H2]. case_decide; simpl; rewrite ?Hv, ?H1; auto.
Qed.

Lemma forallb_remove k fs :
  forallb (λ kv, ok kv.2) fs = true → forallb (λ kv, ok kv.2) (toml_remove k fs) = true.
Proof.
  induction fs as [|[k' v'] fs IH]; simpl; [done|].
  rewrite andb_true_iff. intros [H1 H2]. case_decide; simpl; rewrite ?H1; auto.
Qed.

Lemma forallb_get k v fs :
  forallb (λ kv, ok kv.2) fs = true → toml_get k fs = Some v → ok v = true.
Proof. intros Hs Hk. exact (forallb_elem _ _ _ Hs (toml_get_elem _ _ _ Hk)). Qed.
End edits.

Lemma toml_remove_sub k fs k' : k' ∈ (toml_remove k fs).*1 → k' ∈ fs.*1.
Proof.
  induction fs as [|[k2 v2] fs IH]; simpl; [done|]. case_decide; simpl; set_solver.
Qed.
Lemma toml_remove_NoDup k fs : NoDup fs.*1 → NoDup (toml_remove k fs).*1.
Proof.
  induction fs as [|[k2 v2] fs IH]; simpl; [done|]. rewrite NoDup_cons. intros [Hn Hd].
  case_decide; simpl; [auto|]. rewrite NoDup_cons. split; [|auto].
  by intros Hk%toml_remove_sub.
Qed.

Lemma ok_tab fs :
  toml_ok (TTab fs) = true ↔ NoDup fs.*1 ∧ forallb (λ kv, toml_ok kv.2) fs = true.
Proof. simpl. unfold fields_ok. by rewrite andb_true_iff, bool_decide_eq_true. Qed.

#[local] Arguments toml_ok : simpl never.

Lemma ok_insert k v fs :
  toml_ok v = true → toml_ok (TTab fs) = true → toml_ok (TTab (toml_insert k v fs)) = true.
Proof.
  rewrite !ok_tab. intros Hv [Hn Hf]. split; [by apply toml_insert_NoDup|].
  by apply forallb_insert.
Qed.
Lemma ok_remove k fs :
  toml_ok (TTab fs) = true → toml_ok (TTab (toml_remove k fs)) = true.
Proof.
  rewrite !ok_tab. intros [Hn Hf]. split; [by apply toml_remove_NoDup|by apply forallb_remove].
Qed.
Lemma ok_get k v fs : toml_ok (TTab fs) = true → toml_get k fs = Some v → toml_ok v = true.
Proof. rewrite ok_tab. intros [_ Hf]. by apply forallb_get. Qed.

#[export] Hint Resolve ok_insert ok_remove ok_get : toml_good.

Definition solid_fields (fs : TomlFields) : Prop := forallb (λ kv, toml_solid kv.2) fs = true.

Lemma solid_tab fs : toml_solid (TTab fs) = true ↔ fs ≠ [] ∧ solid_fields fs.
Proof.
  simpl. rewrite andb_true_iff, negb_true_iff, bool_decide_eq_false. unfold solid_fields.
  destruct fs; naive_solver.
Qed.
Lemma solid_insert k v fs :
  toml_solid v = true → solid_fields fs → toml_solid (TTab (toml_insert k v fs)) = true.
Proof.
  intros Hv Hf. apply solid_tab. split; [|by apply forallb_insert].
  destruct fs as [|[k' v'] fs]; simpl; [done|by case_decide].
Qed.

(** ** Sections of a document *)

(** The table at [k], or the one [in_table] creates. *)
Definition table_at (k : string) (fs : TomlFields) : option TomlFields :=
  as_table (Some (default (TTab []) (toml_get k fs))).

Lemma table_at_ok k fs t : toml_ok (TTab fs) = true → table_at k fs = Some t →
  toml_ok (TTab t) = true.
Proof.
  unfold table_at. intros Hok. destruct (toml_get k fs) as [v|] eqn:E; simpl.
  - destruct v; intros H; simplify_eq. exact (ok_get _ _ _ Hok E).
  - by intros [= <-].
Qed.
Lemma table_at_solid k fs t : solid_fields fs → table_at k fs = Some t → solid_fields t.
Proof.
  unfold table_at. intros Hs. destruct (toml_get k fs) as [v|] eqn:E; simpl.
  - apply (solid_entry _ _ _ Hs) in E. destruct v; try done. intros [= ->].
    by apply solid_tab in E as [_ E].
  - by intros [= <-].
Qed.

Lemma in_table_at k f fs t t' :
  table_at k fs = Some t → f t = Returns t' →
  in_table k f fs = Returns (toml_insert k (TTab t') fs).
Proof. unfold table_at, in_table. intros -> E. simpl. by rewrite E. Qed.

(** The legacy rollout of a document. *)
Definition legacy_rollout (document : TomlFields) : option Toml :=
  negrisk ← as_table (toml_get "negrisk" document); toml_get "rollout" negrisk.

(** A rollout that does not use the names the rewrite gives its lists. *)
Definition plain_rollout (rollout : Toml) : Prop :=
  ∀ fs, rollout = TTab fs →
    toml_get "approved_scopes" fs = None ∧ toml_get "ready_scopes" fs = None.

(** A document the rewrite can edit: the sections it touches are tables, and they do not
    use the other name of a key that is written. *)
Record plain_sections (document control strategies neg_risk : TomlFields) : Prop := {
  ps_control : table_at "strategy_control" document = Some control;
  ps_control_alias : toml_get "operator_target_revision" control = None;
  ps_negrisk : is_Some (table_at "negrisk" document);
  ps_rollout rollout : legacy_rollout document = Some rollout → plain_rollout rollout;
  ps_strategies : table_at "strategies" document = Some strategies;
  ps_neg_risk : table_at "neg_risk" strategies = Some neg_risk;
}.

Definition edited_control (revision : string) (control : TomlFields) : TomlFields :=
  toml_insert "operator_strategy_revision" (TStr revision)
    (toml_insert "source" (TStr "adopted") control).
Definition edited_strategies (rollout : Toml) (strategies neg_risk : TomlFields) : TomlFields :=
  toml_insert "neg_risk"
    (TTab (toml_insert "rollout" (normalize_route_owned_rollout_item rollout) neg_risk)) strategies.
Definition edited_negrisk (negrisk : TomlFields) : TomlFields :=
  toml_remove "targets" (toml_remove "target_source" (toml_remove "rollout" negrisk)).

(** The document the edit leaves, key by key. *)
Record edited (revision : string) (document control strategies neg_risk ed : TomlFields) :
    Prop := {
  ed_ok : toml_ok (TTab document) = true → toml_ok (TTab ed) = true;
  ed_control : toml_get "strategy_control" ed = Some (TTab (edited_control revision control));
  ed_negrisk : toml_get "negrisk" ed =
    (TTab ∘ edited_negrisk) <$> as_table (toml_get "negrisk" document);
  ed_strategies : toml_get "strategies" ed =
    match legacy_rollout document with
    | Some rollout => Some (TTab (edited_strategies rollout strategies neg_risk))
    | None => toml_get "strategies" document
    end;
  ed_other k : k ≠ "strategy_control" → k ≠ "strategies" → k ≠ "negrisk" →
    toml_get k ed = toml_get k document;
}.

Lemma ok_rename old new fs :
  toml_ok (TTab fs) = true → toml_ok (TTab (rename_field old new fs)) = true.
Proof.
  unfold rename_field. destruct (toml_get old fs) as [v|] eqn:E; [|done].
  intros Hok. apply ok_insert; [exact (ok_get _ _ _ Hok E)|by apply ok_remove].
Qed.
Lemma ok_normalize r :
  toml_ok r = true → toml_ok (normalize_route_owned_rollout_item r) = true.
Proof. intros H. destruct r; try done. by apply ok_rename, ok_rename. Qed.

Lemma as_table_some v fs : as_table v = Some fs → v = Some (TTab fs).
Proof. destruct v as [[]|]; simpl; naive_solver. Qed.

Lemma ok_edited_strategies document rollout strategies neg_risk :
  toml_ok (TTab document) = true → legacy_rollout document = Some rollout →
  table_at "strategies" document = Some strategies →
  table_at "neg_risk" strategies = Some neg_risk →
  toml_ok (TTab (edited_strategies rollout strategies neg_risk)) = true.
Proof.
  unfold legacy_rollout. intros Hok Hr Hs Hn.
  destruct (as_table (toml_get "negrisk" document)) as [n|] eqn:En; [|done]. simpl in Hr.
  apply as_table_some in En.
  pose proof (table_at_ok _ _ _ Hok Hs) as Hs'. pose proof (table_at_ok _ _ _ Hs' Hn) as Hn'.
  apply ok_insert; [|done]. apply ok_insert; [|done]. apply ok_normalize.
  exact (ok_get _ _ _ (ok_get _ _ _ Hok En) Hr).
Qed.

(** The document the edit built has the entries it should. *)
Ltac split_edited := split; [by auto using ok_insert|..];
  unfold legacy_rollout; simplify_option_eq;
  repeat match goal with
  | H : toml_get ?k ?fs = _ |- context [toml_get ?k ?fs] => rewrite H; simpl
  end; intros; autorewrite with toml; try done; try by rewrite !toml_get_insert_ne.

Lemma rewrite_edits revision document control strategies neg_risk :
  plain_sections document control strategies neg_risk →
  ∃ ed, rewrite_strategy_document revision document = Returns ed ∧
        edited revision document control strategies neg_risk ed.
Proof.
  intros [Hc Ha [n Hn] Hr Hs Hg]. unfold rewrite_strategy_document, set_strategy_control.
  rewrite (in_table_at _ _ _ _ (edited_control revision control) Hc) by done. simpl.
  unfold clear_legacy_control. rewrite toml_get_insert_ne by done.
  assert (Hd : toml_ok (TTab document) = true → toml_ok (TTab (toml_insert "strategy_control"
    (TTab (edited_control revision control)) document)) = true).
  { intros Hok. apply ok_insert; [|done]. apply ok_insert; [done|]. apply ok_insert; [done|].
    exact (table_at_ok _ _ _ Hok Hc). }
  pose proof (λ r H1 H2, ok_edited_strategies document r strategies neg_risk H1 H2 Hs Hg) as Hokr.
  unfold legacy_rollout in *. unfold table_at in Hn.
  destruct (toml_get "negrisk" document) as [v|] eqn:En; simpl in Hn.
  - destruct v; try done. injection Hn as ->. simpl in *.
    set (d := toml_insert "negrisk" _ _).
    assert (Hd2 : toml_ok (TTab document) = true → toml_ok (TTab d) = true).
    { intros Hok. apply ok_insert; [|by apply Hd].
      do 3 apply ok_remove. exact (ok_get _ _ _ Hok En). }
    destruct (toml_get "rollout" n) as [r|] eqn:Er.
    + unfold move_rollout. exists (toml_insert "strategies"
        (TTab (edited_strategies r strategies neg_risk)) d). split.
      { apply (in_table_at _ _ _ strategies).
        - unfold table_at, d. by rewrite !toml_get_insert_ne.
        - unfold edited_strategies. by apply (in_table_at _ _ _ neg_risk). }
      split_edited; unfold d; autorewrite with toml; try done; by rewrite !toml_get_insert_ne.
    + exists d. split; [done|].
      split_edited; unfold d; autorewrite with toml; try done; by rewrite !toml_get_insert_ne.
  - eexists. split; [done|]. split_edited.
Qed.

(** ** What the schema makes of the edited document *)

Definition route_rollout_of (r : NegRiskRolloutToml) : StrategyRouteRolloutToml :=
  {| srr_approved_scopes := nrr_approved_families r; srr_ready_scopes := nrr_ready_families r |}.

(** The legacy rollout as the rollout of the route. *)
Definition with_route_rollout (r : NegRiskRolloutToml) (strategies : option StrategiesToml) :
    StrategiesToml :=
  {| st_full_set := s ← strategies; st_full_set s;
     st_neg_risk := Some
       {| srt_enabled := default false (s ← strategies; n ← st_neg_risk s; Some (srt_enabled n));
          srt_rollout := Some (route_rollout_of r) |} |}.

Definition no_negrisk : NegRiskToml :=
  {| nr_target_source := None; nr_rollout := None; nr_targets := targets_default |}.

(** The configuration after the rewrite. *)
Definition with_strategy_revision (revision : string) (negrisk : option NegRiskToml)
    (raw : RawAxiomConfig) : RawAxiomConfig :=
  {| rc_runtime := rc_runtime raw;
     rc_strategy_control := Some {| sct_source := ControlAdopted;
                                    sct_operator_strategy_revision := Some revision |};
     rc_strategies :=
       match raw_negrisk_rollout raw with
       | Some rollout => Some (with_route_rollout rollout (rc_strategies raw))
       | None => rc_strategies raw
       end;
     rc_polymarket := rc_polymarket raw; rc_negrisk := negrisk |}.

Lemma rename_get old new fs k :
  toml_get new fs = None → old ≠ new →
  toml_get k (rename_field old new fs) =
    if decide (k = new) then toml_get old fs
    else if decide (k = old) then None else toml_get k fs.
Proof.
  intros Hn Ho. unfold rename_field. destruct (toml_get old fs) as [v|] eqn:E.
  - case_decide as Hk; [subst; by autorewrite with toml|]. rewrite toml_get_insert_ne by done.
    case_decide; [subst; by autorewrite with toml|by rewrite toml_get_remove_ne].
  - repeat case_decide; congruence.
Qed.

Ltac vec_cases := match goal with
  |- context [de_vec de_string ?v] => destruct (de_vec de_string v); simpl end.

(** The renamed lists are the ones that were read under the legacy names. *)
Lemma normalized_rollout r :
  plain_rollout r →
  de_route_rollout (normalize_route_owned_rollout_item r)
    = route_rollout_of <$> de_negrisk_rollout r.
Proof.
  intros Hp. unfold de_route_rollout, de_negrisk_rollout.
  destruct r as [| | | |l|l|fs]; simpl; try done.
  1, 2: case_bool_decide as Hl; simpl; [|done]; destruct l as [|a [|b [|]]]; simpl in *; try lia;
    unfold de_default; simpl; by repeat vec_cases.
  destruct (Hp fs) as [Ha Hr]; [done|]. unfold de_default.
  rewrite !rename_get by (rewrite ?rename_get; done). simpl.
  destruct (toml_get "approved_families" fs), (toml_get "ready_families" fs); simpl;
    by repeat vec_cases.
Qed.

Lemma solid_rename old new fs :
  toml_solid (TTab fs) = true → toml_solid (TTab (rename_field old new fs)) = true.
Proof.
  intros Hs. unfold rename_field. destruct (toml_get old fs) as [v|] eqn:E; [|done].
  apply solid_tab in Hs as [_ Hs].
  apply solid_insert; [exact (solid_entry _ _ _ Hs E)|by apply forallb_remove].
Qed.
Lemma solid_normalize r :
  toml_solid r = true → toml_solid (normalize_route_owned_rollout_item r) = true.
Proof. intros H. destruct r; try done. by apply solid_rename, solid_rename. Qed.

#[local] Arguments toml_solid : simpl never.

Section loads.
Context (revision : string) (document control strategies neg_risk ed fs' : TomlFields).
Context (raw : RawAxiomConfig).
Hypothesis Hplain : plain_sections document control strategies neg_risk.
Hypothesis Hedited : edited revision document control strategies neg_risk ed.
Hypothesis Hsolid : solid_fields document.
Hypothesis Hreads : reads_as (TTab ed) (TTab fs').
Hypothesis Hraw : de_raw_config document = Some raw.

Lemma reads_get k : reads_entry reads_as (toml_get k ed) (toml_get k fs').
Proof. inversion Hreads as [| | | | | |? ? H]; subst. apply H. Qed.

Lemma other_good k :
  k ≠ "strategy_control" → k ≠ "strategies" → k ≠ "negrisk" → good_at k document fs'.
Proof.
  intros H1 H2 H3. apply reads_entry_good; [done|].
  rewrite <- (ed_other _ _ _ _ _ _ Hedited k) by done. apply reads_get.
Qed.

(** A table of the edited document. *)
Lemma table_good k fs :
  toml_get k ed = Some (TTab fs) → toml_solid (TTab fs) = true →
  ∃ v, toml_get k fs' = Some v ∧ good (TTab fs) v.
Proof.
  intros E Hs. pose proof (reads_get k) as H. rewrite E in H. inversion H; subst.
  - eexists. split; [done|]. by split.
  - done.
Qed.

Lemma table_option_good {A} (de : Toml → option A) k fs a :
  toml_get k ed = Some (TTab fs) → toml_solid (TTab fs) = true → respects de →
  de (TTab fs) = Some a → de_option de k fs' = Some (Some a).
Proof.
  intros E Hs Hd Ha. destruct (table_good k fs E Hs) as (v & Ev & Hg).
  eapply de_option_some; [done|]. by rewrite <- (Hd _ _ Hg).
Qed.

Lemma control_loads :
  de_option de_strategy_control "strategy_control" fs' =
    Some (Some {| sct_source := ControlAdopted;
                  sct_operator_strategy_revision := Some revision |}).
Proof.
  eapply table_option_good; [apply Hedited| |apply de_strategy_control_good|].
  - apply solid_insert; [done|]. apply solid_tab. apply solid_insert; [done|].
    exact (table_at_solid _ _ _ Hsolid (ps_control _ _ _ _ Hplain)).
  - unfold de_strategy_control, edited_control. simpl. unfold de_field, de_option_alias, de_option.
    autorewrite with toml. simpl.
    rewrite (ps_control_alias _ _ _ _ Hplain). by autorewrite with toml.
Qed.

Lemma raw_negrisk_of :
  de_option de_negrisk "negrisk" document = Some (rc_negrisk raw) ∧
  de_option de_strategies "strategies" document = Some (rc_strategies raw).
Proof. revert Hraw. unfold de_raw_config. intros H. by simplify_option_eq. Qed.

Lemma legacy_rollout_loads :
  match legacy_rollout document with
  | None => raw_negrisk_rollout raw = None
  | Some rollout => toml_solid rollout = true ∧
      ∃ r, de_negrisk_rollout rollout = Some r ∧ raw_negrisk_rollout raw = Some r
  end.
Proof.
  destruct raw_negrisk_of as [Hn _]. destruct (ps_negrisk _ _ _ _ Hplain) as [n Ht].
  unfold legacy_rollout, raw_negrisk_rollout. unfold table_at, de_option in *.
  destruct (toml_get "negrisk" document) as [v|] eqn:En; simpl in Ht; [|by injection Hn as <-].
  destruct v; try done. injection Ht as ->. simpl in *. unfold de_negrisk in Hn. simpl in Hn.
  apply (solid_entry _ _ _ Hsolid) in En. apply solid_tab in En as [_ En].
  unfold de_option in Hn. destruct (toml_get "rollout" n) as [r|] eqn:Er; simplify_option_eq.
  - split; [exact (solid_entry _ _ _ En Er)|]. by eexists.
  - done.
Qed.

(** The route section with the legacy rollout in it. *)
Lemma edited_strategies_loads rollout r :
  plain_rollout rollout → de_negrisk_rollout rollout = Some r →
  de_strategies (TTab (edited_strategies rollout strategies neg_risk))
    = Some (with_route_rollout r (rc_strategies raw)).
Proof.
  intros Hp Hr. destruct raw_negrisk_of as [_ Hs].
  pose proof (ps_strategies _ _ _ _ Hplain) as Ht. pose proof (ps_neg_risk _ _ _ _ Hplain) as Hn.
  assert (∃ full_set neg, de_option de_strategy_route "full_set" strategies = Some full_set ∧
    de_option de_strategy_route "neg_risk" strategies = Some neg ∧
    full_set = (s ← rc_strategies raw; st_full_set s) ∧
    neg = (s ← rc_strategies raw; st_neg_risk s)) as (f & g & Hf & Hg & -> & ->).
  { unfold table_at, de_option in Ht, Hs.
    destruct (toml_get "strategies" document) as [v|]; simpl in Ht.
    - destruct v; try done. injection Ht as ->.
      destruct (de_strategies (TTab strategies)) as [st|] eqn:Ed; [|done].
      injection Hs as <-. unfold de_strategies in Ed. simplify_option_eq. eauto 10.
    - injection Ht as <-. injection Hs as <-. by exists None, None. }
  assert (de_default false de_bool "enabled" neg_risk =
    Some (default false (s ← rc_strategies raw; n ← st_neg_risk s; Some (srt_enabled n)))) as He.
  { unfold table_at, de_option in Hn, Hg.
    destruct (toml_get "neg_risk" strategies) as [v|]; simpl in Hn.
    - destruct v; try done. injection Hn as ->.
      destruct (de_strategy_route (TTab neg_risk)) as [n|] eqn:Ed; [|done].
      injection Hg as Hg. destruct (rc_strategies raw) as [s|]; [|done]. simpl in *.
      rewrite <- Hg. simpl. unfold de_strategy_route in Ed. by simplify_option_eq.
    - injection Hn as <-. injection Hg as Hg. destruct (rc_strategies raw) as [s|]; [|done].
      simpl in *. by rewrite <- Hg. }
  unfold de_strategies, edited_strategies. simpl.
  rewrite (de_option_ext _ "full_set" _ strategies) by by autorewrite with toml.
  rewrite Hf. simpl. unfold de_option at 1. autorewrite with toml. unfold de_strategy_route. simpl.
  rewrite (de_default_ext _ _ "enabled" _ neg_risk) by by autorewrite with toml.
  rewrite He. simpl. unfold de_option. autorewrite with toml.
  by rewrite (normalized_rollout _ Hp), Hr.
Qed.

Lemma strategies_load :
  de_option de_strategies "strategies" fs' =
    Some (rc_strategies (with_strategy_revision revision None raw)).
Proof.
  pose proof legacy_rollout_loads as Hl. pose proof (ed_strategies _ _ _ _ _ _ Hedited) as He.
  simpl. destruct (legacy_rollout document) as [rollout|] eqn:El.
  - destruct Hl as (Hs & r & Hr & ->). eapply table_option_good; [done| | |].
    + apply solid_insert; [apply solid_insert; [by apply solid_normalize|]|].
      * eapply table_at_solid; [|apply Hplain].
        eapply table_at_solid; [|apply Hplain]. done.
      * eapply table_at_solid; [|apply Hplain]. done.
    + apply de_strategies_good.
    + apply edited_strategies_loads; [|done]. by eapply ps_rollout.
  - rewrite Hl. destruct raw_negrisk_of as [_ <-]. symmetry. apply de_option_good.
    + apply de_strategies_good.
    + apply reads_entry_good; [done|]. rewrite <- He. apply reads_get.
Qed.

Lemma negrisk_loads :
  ∃ negrisk, de_option de_negrisk "negrisk" fs' = Some negrisk ∧
             (negrisk = None ∨ negrisk = Some no_negrisk).
Proof.
  pose proof (ed_negrisk _ _ _ _ _ _ Hedited) as He.
  pose proof (reads_get "negrisk") as Hr. rewrite He in Hr. unfold de_option.
  destruct (as_table (toml_get "negrisk" document)) as [n|] eqn:En; simpl in Hr;
    inversion Hr as [|? v' Hv|]; subst; [|by eauto|by eauto].
  eexists. split; [|by right].
  inversion Hv as [| | | | | |? fs Hfs]; subst. unfold de_negrisk. simpl.
  assert (∀ k, k ∈ ["rollout"; "target_source"; "targets"] → toml_get k fs = None) as Hk.
  { intros k Hk. pose proof (Hfs k) as H. unfold edited_negrisk in H.
    assert (toml_get k (toml_remove "targets" (toml_remove "target_source"
              (toml_remove "rollout" n))) = None) as E.
    { destruct (decide (k = "targets")) as [->|]; [by autorewrite with toml|].
      rewrite toml_get_remove_ne by done.
      destruct (decide (k = "target_source")) as [->|]; [by autorewrite with toml|].
      rewrite toml_get_remove_ne by done.
      assert (k = "rollout") as -> by set_solver. by autorewrite with toml. }
    rewrite E in H. by inversion H. }
  rewrite (de_option_none _ "target_source"), (de_option_none _ "rollout") by (apply Hk; set_solver).
  unfold de_default. rewrite (Hk "targets") by set_solver. done.
Qed.

Lemma edited_loads :
  ∃ negrisk, de_raw_config fs' = Some (with_strategy_revision revision negrisk raw) ∧
             (negrisk = None ∨ negrisk = Some no_negrisk).
Proof.
  destruct negrisk_loads as (negrisk & Hn & Hc). exists negrisk. split; [|done].
  unfold de_raw_config.
  rewrite <- (de_field_good de_runtime "runtime" document) by auto using de_runtime_good, other_good.
  rewrite control_loads, strategies_load, Hn.
  rewrite <- (de_option_good de_polymarket "polymarket" document)
    by auto using de_polymarket_good, other_good.
  revert Hraw. unfold de_raw_config. intros H. by simplify_option_eq.
Qed.
End loads.

(** The document has no empty table, and the sections the rewrite touches are plain. *)
Definition editable (document : TomlFields) : Prop :=
  solid_fields document ∧
  ∃ control strategies neg_risk, plain_sections document control strategies neg_risk.

Lemma load_document_ok document raw :
  load_raw_config_from_document document = Ok raw ↔
  reject_removed_polymarket_http_config document = Ok () ∧ de_raw_config document = Some raw.
Proof.
  unfold load_raw_config_from_document, ok_or.
  destruct (reject_removed_polymarket_http_config document) as [[]|]; simpl; [|naive_solver].
  destruct (de_raw_config document); simpl; naive_solver.
Qed.

Lemma http_good document fs' :
  good_at "polymarket" document fs' → reject_removed_polymarket_http_config document = Ok () →
  reject_removed_polymarket_http_config fs' = Ok ().
Proof.
  unfold reject_removed_polymarket_http_config. intros [v v' Hg|]; [|done].
  pose proof Hg as [_ Hr]. destruct Hr; try done. apply good_tab in Hg. pose proof (Hg "http") as Hh.
  unfold good_at in Hh. by destruct Hh.
Qed.

(** Validation does not look at the sections that were rewritten, but for the revision. *)
Lemma rewritten_validates revision negrisk raw :
  is_blank revision = false → negrisk = None ∨ negrisk = Some no_negrisk →
  validated_config_new raw = Ok raw →
  validated_config_new (with_strategy_revision revision negrisk raw)
    = Ok (with_strategy_revision revision negrisk raw).
Proof.
  unfold validated_config_new, validate_global_invariants. intros Hb Hn Hv.
  change (is_paper (with_strategy_revision revision negrisk raw)) with (is_paper raw).
  change (real_user_shadow_smoke (with_strategy_revision revision negrisk raw))
    with (real_user_shadow_smoke raw).
  destruct (is_paper raw && real_user_shadow_smoke raw); [done|].
  unfold validate_strategy_control at 1. simpl.
  unfold require_non_empty_local_signer_field. rewrite Hb. simpl.
  assert (validate_negrisk (with_strategy_revision revision negrisk raw) = Ok ()) as ->
    by by destruct Hn as [-> | ->].
  change (validate_wallet_kind_relayer_invariants (with_strategy_revision revision negrisk raw))
    with (validate_wallet_kind_relayer_invariants raw). simpl.
  destruct (validate_strategy_control raw) as [[]|]; simpl in Hv; [|done].
  destruct (validate_negrisk raw) as [[]|]; simpl in Hv; [|done].
  by destruct (validate_wallet_kind_relayer_invariants raw) as [[]|].
Qed.

Section rewrite.
Context {T : TomlOps} `{!TomlLaws T}.

Lemma rewritten_file_loads revision text document raw :
  toml_parse text = Some document → editable document →
  load_raw_config_from_document document = Ok raw →
  ∃ ed text' negrisk,
    rewrite_strategy_document revision document = Returns ed ∧ text' = toml_print ed ∧
    load_raw_config_from_str text' = Ok (with_strategy_revision revision negrisk raw) ∧
    (negrisk = None ∨ negrisk = Some no_negrisk).
Proof.
  intros Hp (Hs & control & strategies & neg_risk & Hplain) Hl.
  destruct (rewrite_edits revision _ _ _ _ Hplain) as (ed & Hed & Hedited).
  pose proof (toml_parse_ok _ _ Hp) as Hok. apply (ed_ok _ _ _ _ _ _ Hedited) in Hok.
  destruct (toml_print_reads ed Hok) as (fs' & Hp' & Hr).
  apply load_document_ok in Hl as [Hh Hd].
  destruct (edited_loads revision document control strategies neg_risk ed fs' raw)
    as (negrisk & Hload & Hn); [done..|].
  exists ed, (toml_print ed), negrisk. split_and!; [done|done| |done].
  unfold load_raw_config_from_str. rewrite Hp'. simpl. apply load_document_ok. split; [|done].
  apply (http_good document); [|done].
  by apply (other_good revision document control strategies neg_risk ed).
Qed.

Lemma strategy_rewrite_file revision text document raw :
  toml_parse text = Some document → editable document →
  load_raw_config_from_path (Some text) = Ok raw → validated_config_new raw = Ok raw →
  is_blank revision = false →
  ∃ text' negrisk,
    rewrite_operator_strategy_revision true revision (Some text)
      = (Some text', Returns (Ok ())) ∧
    load_raw_config_from_path (Some text')
      = Ok (with_strategy_revision revision negrisk raw) ∧
    validated_config_new (with_strategy_revision revision negrisk raw)
      = Ok (with_strategy_revision revision negrisk raw) ∧
    (negrisk = None ∨ negrisk = Some no_negrisk).
Proof.
  intros Hp He Hl Hv Hb. pose proof Hl as Hl'.
  unfold load_raw_config_from_path, load_raw_config_from_str in Hl'. simpl in Hl'.
  rewrite Hp in Hl'. simpl in Hl'.
  destruct (rewritten_file_loads revision text document raw Hp He Hl')
    as (ed & text' & negrisk & Hed & -> & Hload & Hn).
  exists (toml_print ed), negrisk. pose proof (rewritten_validates _ _ _ Hb Hn Hv) as Hval.
  split_and!; [|done..]. unfold rewrite_operator_strategy_revision, rewrite_file.
  rewrite Hl. simpl. rewrite Hv. simpl. rewrite Hp. simpl. rewrite Hed. simpl.
  rewrite Hload. simpl. rewrite Hval. simpl. by rewrite bool_decide_eq_true_2.
Qed.

Definition rollout_view (r : NegRiskRolloutToml) : AppLiveNegRiskRolloutView :=
  {| rv_approved_families := nrr_approved_families r; rv_ready_families := nrr_ready_families r |}.

End rewrite.

(** ** Any rewrite *)

(** Either the file is left as it was, or it is one that loads and validates, and says what
    was to be written. *)
Definition rewrites_safely {T : TomlOps}
    (persisted : RawAxiomConfig → RawAxiomConfig → Prop) (file : option string)
    (result : Rewrite) : Prop :=
  (result.1 = file ∧ result.2 ≠ Returns (Ok ())) ∨
  (result.2 = Returns (Ok ()) ∧ ∃ raw raw',
     load_raw_config_from_path file = Ok raw ∧ load_raw_config_from_path result.1 = Ok raw' ∧
     validated_config_new raw' = Ok raw' ∧ persisted raw raw').

Section safety.
Context {T : TomlOps}.

Lemma validated_self raw raw' : validated_config_new raw = Ok raw' → raw' = raw.
Proof.
  unfold validated_config_new. destruct (validate_global_invariants raw); simpl; congruence.
Qed.

Lemma map_err_ok {E F A} (f : E → F) (r : result E A) a : map_err f r = Ok a → r = Ok a.
Proof. by destruct r; simpl; intros; simplify_eq. Qed.

Lemma rewrite_file_safe writable edit (persisted : RawAxiomConfig → RawAxiomConfig → _)
    (P : RawAxiomConfig → RawAxiomConfig → Prop) file :
  (∀ raw raw', persisted raw raw' = Ok () → P raw raw') →
  rewrites_safely P file (rewrite_file writable edit persisted file).
Proof.
  intros HP. unfold rewrite_file, rewrites_safely.
  destruct (load_raw_config_from_path file) as [raw|] eqn:El; simpl; [|by left].
  destruct (ok_or file (FileSchema ConfigIo)) as [text|] eqn:Et; simpl; [|by left].
  destruct (map_err FileSchema (validated_config_new raw)); simpl; [|by left].
  destruct (ok_or (toml_parse text) FileParse) as [document|]; simpl; [|by left].
  destruct (edit raw document) as [[ed|]|]; simpl; [|by left..].
  destruct (map_err FileSchema (load_raw_config_from_str (toml_print ed))) as [raw'|] eqn:Er;
    simpl; [|by left].
  destruct (map_err FileSchema (validated_config_new raw')) as [v|] eqn:Ev; simpl; [|by left].
  destruct (persisted raw raw') as [[]|] eqn:Ep; simpl; [|by left].
  destruct writable; simpl; [right|by left]. split; [done|]. exists raw, raw'.
  apply map_err_ok in Er, Ev. pose proof (validated_self _ _ Ev) as ->. auto.
Qed.

End safety.

(** A configuration with a rollout of the route and a legacy one uses the first; once a
    revision is adopted it uses the second. *)
Lemma legacy_rollout_overrides revision negrisk raw current legacy :
  raw_route_rollout raw = Some current → raw_negrisk_rollout raw = Some legacy →
  negrisk_rollout raw = Some {| rv_approved_families := srr_approved_scopes current;
                                rv_ready_families := srr_ready_scopes current |} ∧
  negrisk_rollout (with_strategy_revision revision negrisk raw)
    = Some {| rv_approved_families := nrr_approved_families legacy;
              rv_ready_families := nrr_ready_families legacy |}.
Proof.
  intros Hr Hl. unfold negrisk_rollout. rewrite Hr. split; [done|].
  unfold raw_route_rollout, with_strategy_revision. simpl. by rewrite Hl.
Qed.

(** ** A concrete TOML library *)

Fixpoint toml_tree (v : Toml) : gen_tree (string + Z + bool) :=
  match v with
  | TStr s => GenNode 0 [GenLeaf (inl (inl s))]
  | TInt n => GenNode 1 [GenLeaf (inl (inr n))]
  | TBool b => GenNode 2 [GenLeaf (inr b)]
  | TOther s => GenNode 3 [GenLeaf (inl (inl s))]
  | TArr l => GenNode 4 (toml_tree <$> l)
  | TTables ts => GenNode 5 ((λ t, GenNode 0 ((λ kv,
      GenNode 0 [GenLeaf (inl (inl kv.1)); toml_tree kv.2]) <$> t)) <$> ts)
  | TTab fs => GenNode 6 ((λ kv, GenNode 0 [GenLeaf (inl (inl kv.1)); toml_tree kv.2]) <$> fs)
  end.

Definition tree_entry (f : gen_tree (string + Z + bool) → Toml)
    (t : gen_tree (string + Z + bool)) : string * Toml :=
  match t with
  | GenNode 0 [GenLeaf (inl (inl k)); v] => (k, f v)
  | _ => ("", TBool false)
  end.

Fixpoint tree_toml (t : gen_tree (string + Z + bool)) : Toml :=
  match t with
  | GenNode 0 [GenLeaf (inl (inl s))] => TStr s
  | GenNode 1 [GenLeaf (inl (inr n))] => TInt n
  | GenNode 2 [GenLeaf (inr b)] => TBool b
  | GenNode 3 [GenLeaf (inl (inl s))] => TOther s
  | GenNode 4 l => TArr (tree_toml <$> l)
  | GenNode 5 l => TTables ((λ t, match t with
      | GenNode _ l => tree_entry tree_toml <$> l
      | _ => []
      end) <$> l)
  | GenNode 6 l => TTab (tree_entry tree_toml <$> l)
  | _ => TBool false
  end.

Section toml_induction.
Context (Q : Toml → Prop).
Context (Hs : ∀ s, Q (TStr s)) (Hi : ∀ n, Q (TInt n)) (Hb : ∀ b, Q (TBool b)).
Context (Ho : ∀ s, Q (TOther s)) (Ha : ∀ l, Forall Q l → Q (TArr l)).
Context (Hts : ∀ ts, Forall (Forall (λ kv, Q kv.2)) ts → Q (TTables ts)).
Context (Ht : ∀ fs, Forall (λ kv, Q kv.2) fs → Q (TTab fs)).

Fixpoint toml_induction (v : Toml) : Q v :=
  let fields := fix fields (fs : TomlFields) : Forall (λ kv, Q kv.2) fs :=
    match fs with
    | [] => List.Forall_nil _
    | (k, v) :: fs => @List.Forall_cons _ (λ kv, Q kv.2) (k, v) fs (toml_induction v) (fields fs)
    end in
  match v with
  | TStr s => Hs s
  | TInt n => Hi n
  | TBool b => Hb b
  | TOther s => Ho s
  | TArr l => Ha l ((fix go (l : list Toml) : Forall Q l :=
      match l with
      | [] => List.Forall_nil _
      | v :: l => List.Forall_cons Q v l (toml_induction v) (go l)
      end) l)
  | TTables ts => Hts ts ((fix go (ts : list TomlFields) : Forall (Forall (λ kv, Q kv.2)) ts :=
      match ts with
      | [] => List.Forall_nil _
      | t :: ts => List.Forall_cons (Forall (λ kv, Q kv.2)) t ts (fields t) (go ts)
      end) ts)
  | TTab fs => Ht fs (fields fs)
  end.
End toml_induction.

Lemma fmap_id_Forall {A B} (f : A → B) (g : B → A) l :
  Forall (λ x, g (f x) = x) l → g <$> (f <$> l) = l.
Proof. induction 1 as [|x l Hx _ IH]; [done|]. rewrite !fmap_cons. by rewrite Hx, IH. Qed.

Lemma tree_toml_tree v : tree_toml (toml_tree v) = v.
Proof.
  induction v as [s|n|b|s|l IH|ts IH|fs IH] using toml_induction; try done.
  - simpl. f_equal. by apply fmap_id_Forall.
  - simpl. f_equal. apply fmap_id_Forall. eapply Forall_impl; [exact IH|]. intros t Ht.
    apply fmap_id_Forall. eapply Forall_impl; [exact Ht|]. intros [k v] Hv. simpl in *.
    by rewrite Hv.
  - simpl. f_equal. apply fmap_id_Forall. eapply Forall_impl; [exact IH|]. intros [k v] Hv.
    simpl in *. by rewrite Hv.
Qed.

Fixpoint bits (p : positive) : string :=
  match p with
  | xH => ""
  | xO p => "0" +:+ bits p
  | xI p => "1" +:+ bits p
  end.
Fixpoint of_bits (s : string) : positive :=
  match s with
  | EmptyString => xH
  | String c s => if bool_decide (String c "" = "0") then xO (of_bits s) else xI (of_bits s)
  end.
Lemma of_bits_bits p : of_bits (bits p) = p.
Proof.
  induction p as [p IH|p IH|]; simpl; [| |done]; unfold bool_decide; simpl; by f_equal.
Qed.

(** Prints a tree as the digits of its code. *)
#[export] Instance bits_toml : TomlOps := {
  toml_parse text :=
    t ← decode (of_bits text);
    match tree_toml t with
    | TTab fields => if toml_ok (TTab fields) then Some fields else None
    | _ => None
    end;
  toml_print fields := bits (encode (toml_tree (TTab fields)));
}.

Lemma reads_refl v : reads_as v v.
Proof.
  induction v as [s|n|b|s|l IH|ts IH|fs IH] using toml_induction; constructor.
  - induction IH; constructor; auto.
  - induction IH as [|t ts Ht _ IH]; constructor; [|done]. constructor. intros k.
    clear IH. induction Ht as [|[k' v] t Hv _ IH]; simpl; [constructor|].
    case_decide; [by constructor|done].
  - intros k. induction IH as [|[k' v] t Hv _ IH]; simpl; [constructor|].
    case_decide; [by constructor|done].
Qed.

Lemma bits_parse_print fields :
  toml_ok (TTab fields) = true → toml_parse (toml_print fields) = Some fields.
Proof.
  intros Hok. unfold toml_parse, toml_print, bits_toml. rewrite of_bits_bits, decode_encode.
  cbn [mbind option_bind]. rewrite tree_toml_tree. by rewrite Hok.
Qed.

Lemma load_printed fields :
  toml_ok (TTab fields) = true →
  load_raw_config_from_path (Some (toml_print fields)) = load_raw_config_from_document fields.
Proof.
  intros Hok. unfold load_raw_config_from_path, load_raw_config_from_str.
  cbn [ok_or mbind result_bind]. by rewrite bits_parse_print.
Qed.

#[export] Instance bits_toml_laws : TomlLaws bits_toml.
Proof.
  split.
  - unfold toml_parse, bits_toml. intros text fields.
    destruct (decode (of_bits text)) as [t|]; [|done]. cbn [mbind option_bind].
    destruct (tree_toml t) as [| | | | | |fs]; try done.
    destruct (toml_ok (TTab fs)) eqn:E; [|done]. by intros [= <-].
  - intros fields Hok. exists fields. split; [by apply bits_parse_print|apply reads_refl].
Qed.

Module witnesses.

Definition example_document : TomlFields :=
  [("runtime", TTab [("mode", TStr "paper")]);
   ("negrisk", TTab
      [("target_source", TTab [("source", TStr "adopted");
                               ("operator_target_revision", TStr "targets-rev-1")]);
       ("rollout", TTab [("approved_families", TArr [TStr "family-a"])])])].

Definition example_raw : RawAxiomConfig :=
  {| rc_runtime := {| rt_mode := ModePaper; rt_real_user_shadow_smoke := false |};
     rc_strategy_control := None; rc_strategies := None; rc_polymarket := None;
     rc_negrisk := Some
       {| nr_target_source := Some {| nts_source := TargetsAdopted;
            nts_operator_target_revision := Some "targets-rev-1" |};
          nr_rollout := Some {| nrr_approved_families := ["family-a"];
                                nrr_ready_families := [] |};
          nr_targets := targets_default |} |}.

Lemma example_editable : editable example_document.
Proof.
  split; [reflexivity|]. exists [], [], []. split; try reflexivity; [by eexists|].
  intros r [= <-] fs [= <-]. done.
Qed.

Lemma example_loads :
  load_raw_config_from_path (Some (toml_print example_document)) = Ok example_raw.
Proof.
  by rewrite load_printed.
Qed.

End witnesses.
