(* ===== verification/Command.v ===== *)
(** * Commands

    What the operator's commands do: statements on the pool that end with an error of the
    command's own ([Pooled]), and edits of the configuration file between them
    ([Command]). *)

From S2P Require Import Prelude Text RecordSet Externals Json Rows Schema Config Validation.
From S2P Require Import ConfigFile.

Inductive Halt (E : Type) := Halted (e : E) | HaltPanicked.
Arguments Halted {_} _.
Arguments HaltPanicked {_}.

Section command.
Context {X : Externals}.

Definition Pooled (E A : Type) : Type := Schedule → nat * Db → (nat * Db) * result (Halt E) A.

#[export] Instance pooled_ret {E} : MRet (Pooled E) := λ A a env st, (st, Ok a).
#[export] Instance pooled_bind {E} : MBind (Pooled E) := λ A B f m env st,
  match m env st with
  | (st, Ok a) => f a env st
  | (st, Err e) => (st, Err e)
  end.

Definition pooled_fail {E A} (e : E) : Pooled E A := λ _ st, (st, Err (Halted e)).
Definition pooled_of {E A} (r : result E A) : Pooled E A := λ _ st, (st, map_err Halted r).

(** [m.await.map_err(f)?] *)
Definition from_repo {E A} (f : PersistenceError → E) (m : Pool A) : Pooled E A := λ env st,
  let '(st, r) := m env st in
  (st, map_err (λ e, match e with Fails e => Halted (f e) | Panicked => HaltPanicked end) r).

Definition map_pooled_err {E F A} (f : E → F) (m : Pooled E A) : Pooled F A := λ env st,
  let '(st, r) := m env st in
  (st, map_err (λ e, match e with Halted e => Halted (f e) | HaltPanicked => HaltPanicked end) r).

(** The session and the configuration file. Nobody else edits the file meanwhile. *)
Definition CommandWorld : Type := (nat * Db) * option string.

Definition Command (E A : Type) : Type :=
  Schedule → CommandWorld → CommandWorld * result (Halt E) A.

#[export] Instance command_ret {E} : MRet (Command E) := λ A a env w, (w, Ok a).
#[export] Instance command_bind {E} : MBind (Command E) := λ A B f m env w,
  match m env w with
  | (w, Ok a) => f a env w
  | (w, Err e) => (w, Err e)
  end.

Definition command_fail {E A} (e : E) : Command E A := λ _ w, (w, Err (Halted e)).
Definition command_of {E A} (r : result E A) : Command E A := λ _ w, (w, map_err Halted r).

Definition on_pool {E A} (m : Pooled E A) : Command E A := λ env '(st, file),
  let '(st, r) := m env st in ((st, file), r).

(** A part of the command that reads the file. *)
Definition with_file {E A} (f : option string → Command E A) : Command E A := λ env w,
  f w.2 env w.

Definition on_file {E} (f : FileError → E) (rewrite : option string → Rewrite) :
    Command E () := λ _ '(st, file),
  let '(file, r) := rewrite file in
  ((st, file), match r with
               | Panics => Err HaltPanicked
               | Returns r => map_err (Halted ∘ f) r
               end).

(** ** Undisturbed runs of a command *)

Definition command_runs {E A} (m : Command E A) (now : DateTime) (db : Db)
    (file : option string) (db' : Db) (file' : option string) (r : result (Halt E) A) : Prop :=
  ∀ n, ∃ n', m (quiet now) ((n, db), file) = (((n', db'), file'), r).

Lemma runs_pooled_ret {E A} (a : A) now db : runs (mret a : Pooled E A) now db db (Ok a).
Proof. intros n. by exists n. Qed.

Lemma runs_pooled_of {E A} (r : result E A) now db :
  runs (pooled_of r) now db db (map_err Halted r).
Proof. intros n. by exists n. Qed.

Lemma runs_pooled_bind {E A B} (m : Pooled E A) (f : A → Pooled E B) now db db1 db2 a r :
  runs m now db db1 (Ok a) → runs (f a) now db1 db2 r → runs (m ≫= f) now db db2 r.
Proof.
  intros Hm Hf n. destruct (Hm n) as [n1 E1]. destruct (Hf n1) as [n2 E2]. exists n2.
  unfold mbind, pooled_bind. by rewrite E1.
Qed.

Lemma runs_pooled_bind_err {E A B} (m : Pooled E A) (f : A → Pooled E B) now db db1 e :
  runs m now db db1 (Err e) → runs (m ≫= f) now db db1 (Err e).
Proof.
  intros Hm n. destruct (Hm n) as [n1 E1]. exists n1. unfold mbind, pooled_bind. by rewrite E1.
Qed.

Lemma runs_from_repo {E A} (f : PersistenceError → E) (m : Pool A) now db db' r :
  runs m now db db' r →
  runs (from_repo f m) now db db'
    (map_err (λ e, match e with Fails e => Halted (f e) | Panicked => HaltPanicked end) r).
Proof.
  intros Hm n. destruct (Hm n) as [n' E1]. exists n'. unfold from_repo. by rewrite E1.
Qed.

Lemma runs_from_repo_ok {E A} (f : PersistenceError → E) (m : Pool A) now db db' a :
  runs m now db db' (Ok a) → runs (from_repo f m) now db db' (Ok a).
Proof. apply (runs_from_repo f m now db db' (Ok a)). Qed.

Lemma runs_map_pooled_ok {E F A} (f : E → F) (m : Pooled E A) now db db' a :
  runs m now db db' (Ok a) → runs (map_pooled_err f m) now db db' (Ok a).
Proof.
  intros Hm n. destruct (Hm n) as [n' E1]. exists n'. unfold map_pooled_err. by rewrite E1.
Qed.

Lemma command_runs_bind {E A B} (m : Command E A) (f : A → Command E B) now db file db1 file1
    db2 file2 a r :
  command_runs m now db file db1 file1 (Ok a) →
  command_runs (f a) now db1 file1 db2 file2 r →
  command_runs (m ≫= f) now db file db2 file2 r.
Proof.
  intros Hm Hf n. destruct (Hm n) as [n1 E1]. destruct (Hf n1) as [n2 E2]. exists n2.
  unfold mbind, command_bind. by rewrite E1.
Qed.

Lemma command_runs_bind_err {E A B} (m : Command E A) (f : A → Command E B) now db file db1
    file1 e :
  command_runs m now db file db1 file1 (Err e) →
  command_runs (m ≫= f) now db file db1 file1 (Err e).
Proof.
  intros Hm n. destruct (Hm n) as [n1 E1]. exists n1. unfold mbind, command_bind. by rewrite E1.
Qed.

Lemma command_runs_ret {E A} (a : A) now db file :
  command_runs (mret a : Command E A) now db file db file (Ok a).
Proof. intros n. by exists n. Qed.

Lemma command_runs_of {E A} (r : result E A) now db file :
  command_runs (command_of r) now db file db file (map_err Halted r).
Proof. intros n. by exists n. Qed.

Lemma command_runs_pool {E A} (m : Pooled E A) now db file db' r :
  runs m now db db' r → command_runs (on_pool m) now db file db' file r.
Proof. intros Hm n. destruct (Hm n) as [n' E1]. exists n'. unfold on_pool. by rewrite E1. Qed.

Lemma command_runs_with_file {E A} (f : option string → Command E A) now db file db' file' r :
  command_runs (f file) now db file db' file' r →
  command_runs (with_file f) now db file db' file' r.
Proof. intros Hf n. destruct (Hf n) as [n' E1]. by exists n'. Qed.

Lemma command_runs_file {E} (f : FileError → E) (rewrite_ : option string → Rewrite) now db file
    file' r :
  rewrite_ file = (file', Returns r) →
  command_runs (on_file f rewrite_) now db file db file' (map_err (Halted ∘ f) r).
Proof. intros E1 n. exists n. unfold on_file. by rewrite E1. Qed.
End command.

#[global] Arguments Pooled {_} _ _.
#[global] Arguments Command {_} _ _.
#[global] Arguments CommandWorld {_}.
