(* ===== verification/Startup.v ===== *)
(** * What a live start runs

    [app-live/src/strategy_control/route_registry.rs] and [route_adapters]: which scopes a
    route accepts; [strategy_control/resolver.rs]: whether the configured revision can be
    run; [startup.rs]: the targets and route artifacts of the revision, from the adopted
    artifacts. *)

From S2P Require Import Prelude Text RecordSet Externals Json Domain LiveRecords Discovery Rows.
From S2P Require Import AppConfig Schema RepoControl Config Validation ConfigFile Command.

(** ** Routes *)

Record RouteScopeError := { rse_route : string; rse_scope : string; rse_reason : string }.

Record RouteAdapter := {
  ad_route : string;
  ad_validate_scope : string → result RouteScopeError ();
}.

Definition RouteRegistry : Type := list RouteAdapter.

(** An adapter of the same route is replaced. *)
Fixpoint registry_register (adapter : RouteAdapter) (registry : RouteRegistry) :
    RouteRegistry :=
  match registry with
  | [] => [adapter]
  | existing :: registry' =>
      if decide (ad_route existing = ad_route adapter) then adapter :: registry'
      else existing :: registry_register adapter registry'
  end.

Definition registry_adapter (registry : RouteRegistry) (route : string) : option RouteAdapter :=
  List.find (λ adapter, bool_decide (ad_route adapter = route)) registry.

Definition supports_scope (adapter : RouteAdapter) (scope : string) : bool :=
  is_ok (ad_validate_scope adapter scope).

Definition full_set_adapter : RouteAdapter :=
  {| ad_route := "full-set";
     ad_validate_scope scope :=
       if bool_decide (scope = "default") then Ok ()
       else Err {| rse_route := "full-set"; rse_scope := scope;
                   rse_reason := "full-set only supports the default scope" |} |}.

Definition neg_risk_adapter : RouteAdapter :=
  {| ad_route := "neg-risk";
     ad_validate_scope scope :=
       if is_blank scope then
         Err {| rse_route := "neg-risk"; rse_scope := scope;
                rse_reason := "neg-risk scope must be a family id or the default fallback" |}
       else Ok () |}.

Definition live_route_registry : RouteRegistry :=
  registry_register neg_risk_adapter (registry_register full_set_adapter []).

(** [RouteArtifactValidationError] is its message. *)
Definition validate_live_route_scope (route scope : string) : result string () :=
  match registry_adapter live_route_registry route with
  | None => Err ("unregistered route_artifacts route " +:+ route)
  | Some adapter =>
      map_err (λ error, "route " +:+ route +:+ " scope " +:+ scope +:+ " is invalid: " +:+
                        rse_reason error) (ad_validate_scope adapter scope)
  end.

(** ** resolver.rs *)

Record ResolvedStrategyControl := {
  rsc_operator_strategy_revision : string;
  rsc_active_operator_strategy_revision : option string;
  rsc_restart_required : bool;
}.

Inductive ResolveStrategyControlError :=
| ResolveMigrationRequired (message : string)
| ResolveInvalidConfig (message : string)
| MissingCanonicalPersistence (message : string).

(** [canonical_persistence]: the revision that is persisted; [runtime_progress]: the
    revision of the progress row, when there is a row. *)
Definition resolve_strategy_control (config : RawAxiomConfig)
    (canonical_persistence : option string) (runtime_progress : option (option string)) :
    result ResolveStrategyControlError ResolvedStrategyControl :=
  if has_canonical_strategy_control config then
    if has_target_source config || is_legacy_explicit_strategy_config config then
      Err (ResolveInvalidConfig
        ("canonical strategy_control cannot be mixed with legacy negrisk control-plane " +:+
         "input"))
    else
      revision ← ok_or (canonical_operator_strategy_revision config)
        (ResolveInvalidConfig "missing strategy_control.operator_strategy_revision");
      if bool_decide (canonical_persistence = Some revision) then
        let active := runtime_progress ≫= id in
        Ok {| rsc_operator_strategy_revision := revision;
              rsc_active_operator_strategy_revision := active;
              rsc_restart_required :=
                match active with
                | Some active => negb (bool_decide (active = revision))
                | None => false
                end |}
      else Err (MissingCanonicalPersistence
        ("operator_strategy_revision " +:+ revision +:+ " has no matching canonical persistence"))
  else if has_target_source config then
    if is_legacy_explicit_strategy_config config then
      Err (ResolveInvalidConfig
        "legacy negrisk.target_source cannot be combined with explicit negrisk.targets")
    else
      revision ← ok_or (source ← raw_target_source config; nts_operator_target_revision source)
        (ResolveInvalidConfig "missing negrisk.target_source.operator_target_revision");
      Err (ResolveMigrationRequired
        ("legacy negrisk.target_source with operator_target_revision " +:+ revision +:+
         " requires migration"))
  else if is_legacy_explicit_strategy_config config then
    match negrisk_targets config with
    | [] => Err (ResolveInvalidConfig "empty negrisk.targets array is invalid legacy input")
    | _ => Err (ResolveMigrationRequired "legacy explicit negrisk.targets requires migration")
    end
  else Err (ResolveInvalidConfig "missing strategy_control").

(** ** startup.rs *)

Section startup.
Context {X : Externals} {J : JsonOps} {P : PgOps} {U : UrlOps} {D : SerdeOps}.

Record ResolvedTargets := {
  rtg_targets : NegRiskLiveTargetSet;
  rtg_operator_target_revision : option string;
}.

Record ResolvedStrategyRevision := {
  rsr_operator_strategy_revision : option string;
  rsr_route_artifacts : RouteArtifacts;
  rsr_compatibility_mode : bool;
}.

Inductive StartupError :=
| StartupConfig (e : ConfigError)
| StartupPersistence (e : PersistenceError)
| MigrationRequired (message : string)
| MissingOperatorTargetRevision
| MissingOperatorStrategyRevision
| MissingAdoptionProvenance (operator_target_revision : string)
| MissingStrategyAdoptionProvenance (operator_strategy_revision : string)
| MissingRouteArtifacts (operator_strategy_revision : string)
| EmptyRouteArtifacts (operator_strategy_revision : string)
| InvalidRouteArtifacts (operator_strategy_revision message : string)
| MissingRenderedLiveTargets (operator_target_revision : string)
| EmptyRenderedLiveTargets (operator_target_revision : string)
| InvalidRenderedLiveTargets (operator_target_revision message : string).

(** [show]: the text of a persistence error. *)
Definition startup_error_text (show : PersistenceError → string) (e : StartupError) : string :=
  match e with
  | StartupConfig error => config_error_text error
  | StartupPersistence error => show error
  | MigrationRequired message => message
  | MissingOperatorTargetRevision => "missing negrisk.target_source.operator_target_revision"
  | MissingOperatorStrategyRevision => "missing strategy_control.operator_strategy_revision"
  | MissingAdoptionProvenance revision =>
      "operator_target_revision " +:+ revision +:+
      " could not be linked back to a candidate adoption provenance chain"
  | MissingStrategyAdoptionProvenance revision =>
      "operator_strategy_revision " +:+ revision +:+
      " could not be linked back to a strategy adoption provenance chain"
  | MissingRouteArtifacts revision =>
      "missing route_artifacts for operator_strategy_revision " +:+ revision
  | EmptyRouteArtifacts revision =>
      "empty route_artifacts for operator_strategy_revision " +:+ revision
  | InvalidRouteArtifacts revision message =>
      "invalid route_artifacts for operator_strategy_revision " +:+ revision +:+ ": " +:+ message
  | MissingRenderedLiveTargets revision =>
      "missing rendered_live_targets for operator_target_revision " +:+ revision
  | EmptyRenderedLiveTargets revision =>
      "empty rendered_live_targets for operator_target_revision " +:+ revision
  | InvalidRenderedLiveTargets revision message =>
      "invalid rendered_live_targets for operator_target_revision " +:+ revision +:+ ": " +:+
      message
  end.

Definition Starting : Type → Type := Pooled StartupError.

(** *** Artifacts *)

Record SerializedRouteArtifact := {
  sra_route : string;
  sra_scope : string;
  sra_route_policy_version : string;
  sra_semantic_digest : string;
  sra_content : Json;
}.

Definition artifact_from_json (v : Json) : option SerializedRouteArtifact :=
  fields ← json_struct ["key"; "route_policy_version"; "semantic_digest"; "content"] v;
  key ← field_get "key" fields;
  key ← json_struct ["route"; "scope"] key;
  route ← json_string_field "route" key;
  scope ← json_string_field "scope" key;
  policy_version ← json_string_field "route_policy_version" fields;
  digest ← json_string_field "semantic_digest" fields;
  content ← field_get "content" fields;
  Some {| sra_route := route; sra_scope := scope; sra_route_policy_version := policy_version;
          sra_semantic_digest := digest; sra_content := content |}.

(** [from_value::<Vec<SerializedRouteArtifact>>] *)
Definition artifacts_from_json (v : Json) : option (list SerializedRouteArtifact) :=
  items ← json_as_array v; mapM artifact_from_json items.

Definition runtime_artifact (a : SerializedRouteArtifact) : RouteRuntimeArtifact :=
  {| rr_scope := sra_scope a; rr_route_policy_version := sra_route_policy_version a;
     rr_semantic_digest := sra_semantic_digest a; rr_content := sra_content a |}.

(** [grouped.entry(route).or_insert_with(Vec::new).push(artifact)] *)
Definition push_artifact (a : SerializedRouteArtifact) (grouped : RouteArtifacts) :
    RouteArtifacts :=
  <[sra_route a := default [] ((grouped : gmap _ _) !! sra_route a) ++ [runtime_artifact a]]>
    (grouped : gmap _ _).

Fixpoint group_artifacts (operator_strategy_revision : string) (grouped : RouteArtifacts)
    (artifacts : list SerializedRouteArtifact) : result StartupError RouteArtifacts :=
  match artifacts with
  | [] => Ok grouped
  | a :: artifacts' =>
      _ ← map_err (InvalidRouteArtifacts operator_strategy_revision)
            (validate_live_route_scope (sra_route a) (sra_scope a));
      group_artifacts operator_strategy_revision (push_artifact a grouped) artifacts'
  end.

Definition parse_route_artifacts (payload : Json) (operator_strategy_revision : string) :
    result StartupError RouteArtifacts :=
  artifacts ← ok_or (json_get "route_artifacts" payload)
                (MissingRouteArtifacts operator_strategy_revision);
  artifacts ← ok_or (artifacts_from_json artifacts)
                (InvalidRouteArtifacts operator_strategy_revision (serde_error artifacts));
  match artifacts with
  | [] => Err (EmptyRouteArtifacts operator_strategy_revision)
  | _ => group_artifacts operator_strategy_revision (∅ : gmap _ _) artifacts
  end.

Definition parse_rendered_live_targets (payload : Json) (operator_revision : string) :
    result StartupError LiveTargets :=
  rendered ← ok_or (json_get "rendered_live_targets" payload)
               (MissingRenderedLiveTargets operator_revision);
  targets ← ok_or (families_from_json rendered)
              (InvalidRenderedLiveTargets operator_revision (serde_error rendered));
  if bool_decide (size (targets : gmap _ _) = 0%nat)
  then Err (EmptyRenderedLiveTargets operator_revision)
  else Ok targets.

Definition default_full_set_artifact : RouteRuntimeArtifact :=
  {| rr_scope := "default"; rr_route_policy_version := "full-set-route-policy-v1";
     rr_semantic_digest := "full-set-basis-default";
     rr_content := json_object [("config_basis_digest", JString "full-set-basis-default");
                                ("mode", JString "static-default")] |}.

Definition target_artifact (target : NegRiskFamilyLiveTarget) : RouteRuntimeArtifact :=
  {| rr_scope := lf_family_id target; rr_route_policy_version := "neg-risk-route-policy-v1";
     rr_semantic_digest := lf_family_id target;
     rr_content := json_object
       [("family_id", JString (lf_family_id target));
        ("rendered_live_target", live_target_json target);
        ("target_id", JString ("candidate-target-" +:+ lf_family_id target));
        ("validation", json_object [("status", JString "adoptable")])] |}.

Definition compatibility_route_artifacts_from_targets (targets : NegRiskLiveTargetSet) :
    RouteArtifacts :=
  <["neg-risk" := target_artifact <$> btree_values str_cmp (ts_targets targets : gmap _ _)]>
    (<["full-set" := [default_full_set_artifact]]> (∅ : gmap _ _)).

(** *** Resolution *)

Definition resolve_adopted_targets_from_operator_target_revision
    (operator_target_revision : string) : Starting ResolvedTargets :=
  provenance ← from_repo StartupPersistence
                 (get_by_operator_target_revision operator_target_revision);
  provenance ← pooled_of (ok_or provenance
                 (MissingAdoptionProvenance operator_target_revision));
  adoptable ← from_repo StartupPersistence
                (get_adoptable_target_revision (cap_adoptable_revision provenance));
  adoptable ← pooled_of (ok_or adoptable (MissingAdoptionProvenance operator_target_revision));
  targets ← pooled_of (parse_rendered_live_targets (atr_payload adoptable)
                         operator_target_revision);
  mret {| rtg_targets := {| ts_revision := operator_target_revision; ts_targets := targets |};
          rtg_operator_target_revision := Some operator_target_revision |}.

(** The artifacts of an adopted payload: its own, or those of its targets. *)
Definition payload_route_artifacts (payload : Json) (operator_strategy_revision : string) :
    result StartupError RouteArtifacts :=
  match parse_route_artifacts payload operator_strategy_revision with
  | Err (MissingRouteArtifacts _) =>
      targets ← parse_rendered_live_targets payload operator_strategy_revision;
      Ok (compatibility_route_artifacts_from_targets
            {| ts_revision := operator_strategy_revision; ts_targets := targets |})
  | r => r
  end.

Definition resolve_adopted_strategy_revision (operator_strategy_revision : string) :
    Starting ResolvedStrategyRevision :=
  provenance ← from_repo StartupPersistence
                 (get_by_operator_strategy_revision operator_strategy_revision);
  provenance ← pooled_of (ok_or provenance
                 (MissingStrategyAdoptionProvenance operator_strategy_revision));
  adoptable ← from_repo StartupPersistence
                (get_adoptable_strategy_revision (sap_adoptable_strategy_revision provenance));
  adoptable ← pooled_of (ok_or adoptable
                (MissingStrategyAdoptionProvenance operator_strategy_revision));
  route_artifacts ← pooled_of (payload_route_artifacts (asr_payload adoptable)
                                 operator_strategy_revision);
  mret {| rsr_operator_strategy_revision := Some operator_strategy_revision;
          rsr_route_artifacts := route_artifacts; rsr_compatibility_mode := false |}.

Definition resolve_startup_strategy_revision (config : RawAxiomConfig) :
    Starting ResolvedStrategyRevision :=
  if is_legacy_explicit_strategy_config config then
    pooled_fail (MigrationRequired
      "migration required: legacy explicit negrisk.targets requires migration")
  else
    match source ← raw_target_source config;
          if target_source_is_adopted source then Some source else None with
    | Some target_source =>
        revision ← pooled_of (ok_or (nts_operator_target_revision target_source)
                                MissingOperatorTargetRevision);
        resolved ← resolve_adopted_targets_from_operator_target_revision revision;
        mret {| rsr_operator_strategy_revision := Some revision;
                rsr_route_artifacts :=
                  compatibility_route_artifacts_from_targets (rtg_targets resolved);
                rsr_compatibility_mode := false |}
    | None =>
        if has_adopted_strategy_source config && negb (has_target_source config) &&
           negb (is_legacy_explicit_strategy_config config) then
          revision ← pooled_of (ok_or (view_operator_strategy_revision config)
                                  MissingOperatorStrategyRevision);
          resolve_adopted_strategy_revision revision
        else
          targets ← pooled_of (map_err StartupConfig (target_set_try_from config));
          mret {| rsr_operator_strategy_revision := view_operator_strategy_revision config;
                  rsr_route_artifacts := compatibility_route_artifacts_from_targets targets;
                  rsr_compatibility_mode := is_legacy_explicit_strategy_config config |}
    end.

Definition resolve_startup_targets (config : RawAxiomConfig) : Starting ResolvedTargets :=
  resolved ← resolve_startup_strategy_revision config;
  targets ← pooled_of (map_err StartupConfig
              (neg_risk_live_targets_from_route_artifacts (rsr_route_artifacts resolved)
                 (rsr_operator_strategy_revision resolved)));
  mret {| rtg_targets := targets;
          rtg_operator_target_revision :=
            match rsr_operator_strategy_revision resolved with
            | Some revision => Some revision
            | None => if target_set_is_empty targets then None else Some (ts_revision targets)
            end |}.

Definition resolve_route_artifacts_for_operator_target_revision
    (operator_target_revision : string) : Starting RouteArtifacts :=
  resolved ← resolve_adopted_targets_from_operator_target_revision operator_target_revision;
  mret (compatibility_route_artifacts_from_targets (rtg_targets resolved)).

Definition resolve_route_artifacts_for_operator_strategy_revision
    (operator_strategy_revision : string) : Starting RouteArtifacts :=
  resolved ← resolve_adopted_strategy_revision operator_strategy_revision;
  mret (rsr_route_artifacts resolved).
End startup.
