(* ===== verification/Targets.v ===== *)
(** * The operator's target control plane

    [app-live/src/commands/targets/state.rs]: which revision is configured and which is
    active, what can be adopted, and how an adoption or a rollback selects a revision. *)

From S2P Require Import Prelude Text RecordSet Externals Json Domain LiveRecords Discovery Rows.
From S2P Require Import AppConfig Schema RepoJournal RepoSessions RepoControl Config Validation.
From S2P Require Import ConfigFile Command Startup.

Inductive StrategyControlMigrationError :=
| MigrationInvalidConfig (message : string)
| MissingLineage (message : string)
| MigrationPersistence (message : string)
| MigrationRewrite (message : string).

(** [Box<dyn Error>]: the errors that are boxed, and the messages built here. *)
Inductive CommandError :=
| CommandPersistence (e : PersistenceError)
| CommandSchema (e : ConfigSchemaError)
| CommandFile (e : FileError)
| CommandMigration (e : StrategyControlMigrationError)
| CommandMessage (message : string).

Definition LEGACY_EXPLICIT_COMPATIBILITY_MODE : string := "legacy-explicit".

Section targets.
Context {X : Externals} {J : JsonOps} {P : PgOps} {U : UrlOps} {D : SerdeOps} {T : TomlOps}.

Record TargetControlPlaneState := {
  tcp_configured_operator_strategy_revision : option string;
  tcp_active_operator_strategy_revision : option string;
  tcp_restart_needed : option bool;
  tcp_compatibility_mode : option string;
  tcp_provenance : option StrategyAdoptionProvenanceRow;
  tcp_latest_action : option OperatorStrategyAdoptionHistoryRow;
}.

Record TargetCandidatesCatalog := {
  tcc_advisory_candidates : list StrategyCandidateSetRow;
  tcc_adoptable_revisions : list AdoptableStrategyRevisionRow;
}.

Record TargetCandidatesSummary := {
  tcs_advisory_candidate_count : nat;
  tcs_adoptable_revision_count : nat;
  tcs_deferred_target_count : nat;
  tcs_excluded_target_count : nat;
  tcs_recommended_adoptable_revision : option string;
  tcs_non_adoptable_reasons : list string;
}.

Definition non_adoptable_summary (s : TargetCandidatesSummary) : string :=
  "deferred:" +:+ pretty (tcs_deferred_target_count s) +:+ " excluded:" +:+
  pretty (tcs_excluded_target_count s).

Record ResolvedStrategyAdoptionSelection := {
  ras_operator_strategy_revision : string;
  ras_adoptable_revision : option string;
  ras_migration_source : option string;
}.

(** Statements whose errors are boxed. *)
Definition Targeting : Type → Type := Pooled CommandError.

Definition boxed {A} (m : Pool A) : Targeting A := from_repo CommandPersistence m.

Definition message_or {A} (o : option A) (message : string) : Targeting A :=
  pooled_of (ok_or o (CommandMessage message)).

(** ** The configuration file *)

Definition load_validated_raw_config (file : option string) : result CommandError RawAxiomConfig :=
  raw ← map_err CommandSchema (load_raw_config_from_path file);
  _ ← map_err CommandSchema (validated_config_new raw);
  Ok raw.

Definition configured_operator_strategy_revision (file : option string) :
    result CommandError (option string) :=
  raw ← load_validated_raw_config file;
  Ok (if is_legacy_explicit_strategy_config raw then None else configured_revision raw).

Definition compatibility_mode (file : option string) : result CommandError (option string) :=
  raw ← load_validated_raw_config file;
  Ok (if is_legacy_explicit_strategy_config raw
      then Some LEGACY_EXPLICIT_COMPATIBILITY_MODE else None).

(** [item.as_array_of_tables()]: arrays written inline are not. *)
Definition as_array_of_tables (v : option Toml) : option (list TomlFields) :=
  match v with Some (TTables ts) => Some ts | _ => None end.

Definition explicit_targets_required : string :=
  "migration required: legacy explicit targets require explicit negrisk.targets".

Definition toml_str_field (k : string) (fields : TomlFields) : result CommandError string :=
  ok_or (v ← toml_get k fields; de_string v)
    (CommandMessage ("negrisk.targets.members." +:+ k +:+ " must be present")).

Definition explicit_decimal (k text : string) : result CommandError Decimal :=
  ok_or (dec_from_str text)
    (CommandMessage ("invalid negrisk.targets.members." +:+ k +:+ ": " +:+ dec_parse_error text)).

Definition explicit_member (member : TomlFields) : result CommandError NegRiskMemberLiveTarget :=
  condition_id ← toml_str_field "condition_id" member;
  token_id ← toml_str_field "token_id" member;
  price ← toml_str_field "price" member;
  quantity ← toml_str_field "quantity" member;
  price ← explicit_decimal "price" price;
  quantity ← explicit_decimal "quantity" quantity;
  Ok {| lm_condition_id := condition_id; lm_token_id := token_id; lm_price := price;
        lm_quantity := quantity |}.

Definition explicit_family (target : TomlFields) : result CommandError NegRiskFamilyLiveTarget :=
  family_id ← ok_or (v ← toml_get "family_id" target; de_string v)
                (CommandMessage "negrisk.targets.family_id must be present");
  members ← ok_or (as_array_of_tables (toml_get "members" target))
              (CommandMessage "negrisk.targets.members must be present");
  members ← collect_results explicit_member members;
  Ok {| lf_family_id := family_id; lf_members := members |}.

Fixpoint explicit_families (targets : LiveTargets) (tables : list TomlFields) :
    result CommandError LiveTargets :=
  match tables with
  | [] => Ok targets
  | table :: tables' =>
      family ← explicit_family table;
      targets ← map_err (λ _, CommandMessage
                  ("duplicate neg-risk family_id in live target config: " +:+
                   lf_family_id family)) (insert_family family targets);
      explicit_families targets tables'
  end.

(** Indexing by a key that is not there panics. *)
Definition parse_legacy_explicit_targets (document : TomlFields) :
    outcome (result CommandError NegRiskLiveTargetSet) :=
  negrisk ← expect (toml_get "negrisk" document);
  targets ← expect (fields ← as_table (Some negrisk); toml_get "targets" fields);
  Returns
    (tables ← ok_or (as_array_of_tables (Some targets)) (CommandMessage explicit_targets_required);
     families ← explicit_families (∅ : gmap _ _) tables;
     Ok {| ts_revision := neg_risk_live_target_revision_from_targets families;
           ts_targets := families |}).

Definition legacy_explicit_targets (file : option string) :
    outcome (result CommandError NegRiskLiveTargetSet) :=
  raw ←? Returns (load_validated_raw_config file);
  if is_legacy_explicit_strategy_config raw then
    text ←? Returns (ok_or file (CommandSchema ConfigIo));
    document ←? Returns (ok_or (toml_parse text) (CommandFile FileParse));
    parse_legacy_explicit_targets document
  else Returns (Err (CommandMessage explicit_targets_required)).

Definition synthetic_strategy_revision (targets : LiveTargets) : string :=
  let digest := neg_risk_live_target_revision_from_targets targets in
  "strategy-rev-" +:+ default digest (strip_prefix "sha256:" digest).

Definition synthetic_strategy_revision_for_legacy_explicit_config (file : option string) :
    outcome (result CommandError string) :=
  targets ←? legacy_explicit_targets file;
  Returns (Ok (synthetic_strategy_revision (ts_targets targets))).

(** ** Payloads *)

(** A [ValidatedRouteArtifact] has the fields of a [SerializedRouteArtifact]. *)
Definition artifact_has_blank_field (a : SerializedRouteArtifact) : bool :=
  is_blank (sra_route a) || is_blank (sra_scope a) || is_blank (sra_route_policy_version a) ||
  is_blank (sra_semantic_digest a).

Definition validate_rendered_live_targets (payload : Json) (operator_strategy_revision : string) :
    result CommandError () :=
  let about := " for operator_strategy_revision " +:+ operator_strategy_revision in
  rendered ← ok_or (json_get "rendered_live_targets" payload)
               (CommandMessage ("missing rendered_live_targets" +:+ about));
  targets ← ok_or (families_from_json rendered)
              (CommandMessage ("invalid rendered_live_targets" +:+ about +:+ ": " +:+
                               serde_error rendered));
  if bool_decide (size (targets : gmap _ _) = 0%nat)
  then Err (CommandMessage ("empty rendered_live_targets" +:+ about))
  else Ok ().

Definition validate_strategy_payload (payload : Json) (operator_strategy_revision : string) :
    result CommandError () :=
  let about := " for operator_strategy_revision " +:+ operator_strategy_revision in
  match json_get "route_artifacts" payload with
  | Some route_artifacts =>
      artifacts ← ok_or (artifacts_from_json route_artifacts)
                    (CommandMessage ("invalid route_artifacts" +:+ about +:+ ": " +:+
                                     serde_error route_artifacts));
      match artifacts with
      | [] => Err (CommandMessage ("empty route_artifacts" +:+ about))
      | _ =>
          if existsb artifact_has_blank_field artifacts then
            Err (CommandMessage ("invalid route_artifacts" +:+ about))
          else
            _ ← collect_results (λ a,
              map_err (λ error, CommandMessage ("invalid route_artifacts" +:+ about +:+ ": " +:+
                                                error))
                (validate_live_route_scope (sra_route a) (sra_scope a))) artifacts;
            Ok ()
      end
  | None => validate_rendered_live_targets payload operator_strategy_revision
  end.

(** ** Lineage *)

Definition selection_from_lineage
    (operator_strategy_revision adoptable_revision strategy_candidate_revision : string) :
    Targeting ResolvedStrategyAdoptionSelection :=
  adoptable ← boxed (get_adoptable_strategy_revision adoptable_revision);
  adoptable ← message_or adoptable
                ("adoptable_revision " +:+ adoptable_revision +:+ " is unavailable");
  if bool_decide (asr_strategy_candidate_revision adoptable ≠ strategy_candidate_revision) ||
     bool_decide (asr_rendered_operator_strategy_revision adoptable
                  ≠ operator_strategy_revision) then
    pooled_fail (CommandMessage ("adoptable_revision " +:+ adoptable_revision +:+
      " does not match operator_strategy_revision " +:+ operator_strategy_revision))
  else
    candidate ← boxed (get_strategy_candidate_set strategy_candidate_revision);
    _ ← message_or candidate ("strategy_candidate_revision " +:+ strategy_candidate_revision +:+
                              " is unavailable");
    _ ← pooled_of (validate_strategy_payload (asr_payload adoptable) operator_strategy_revision);
    mret {| ras_operator_strategy_revision := operator_strategy_revision;
            ras_adoptable_revision := Some adoptable_revision; ras_migration_source := None |}.

(** [ORDER BY history_seq DESC, source_priority ASC] *)
Definition lineage_order (a b : OperatorStrategyAdoptionHistoryRow * (Z * Z)) : comparison :=
  then_with (desc Z.compare a.2.1 b.2.1) (Z.compare a.2.2 b.2.2).

Definition revision_history (operator_strategy_revision : string) (db : Db) :
    list OperatorStrategyAdoptionHistoryRow :=
  fst <$> sort_by lineage_order
    (List.filter (λ r, bool_decide (osh_operator_strategy_revision r.1
                                    = operator_strategy_revision)) (combined_history db)).

Definition no_durable_lineage (operator_strategy_revision : string) : string :=
  "operator_strategy_revision " +:+ operator_strategy_revision +:+
  " has history but no durable lineage".

Fixpoint first_lineage (operator_strategy_revision : string)
    (rows : list OperatorStrategyAdoptionHistoryRow) :
    result CommandError (option (string * string)) :=
  match rows with
  | [] => Err (CommandMessage (no_durable_lineage operator_strategy_revision))
  | row :: rows' =>
      match osh_adoptable_strategy_revision row, osh_strategy_candidate_revision row with
      | None, None =>
          if bool_decide (osh_action_kind row = "rollback")
          then first_lineage operator_strategy_revision rows'
          else Err (CommandMessage (no_durable_lineage operator_strategy_revision))
      | Some adoptable, Some candidate =>
          if bool_decide (osh_action_kind row = "adopt") then Ok (Some (adoptable, candidate))
          else Err (CommandMessage (no_durable_lineage operator_strategy_revision))
      | _, _ => Err (CommandMessage (no_durable_lineage operator_strategy_revision))
      end
  end.

Definition latest_history_lineage_from_rows (operator_strategy_revision : string)
    (rows : list OperatorStrategyAdoptionHistoryRow) :
    result CommandError (option (string * string)) :=
  match rows with
  | [] => Ok None
  | _ => first_lineage operator_strategy_revision rows
  end.

Definition latest_history_lineage (operator_strategy_revision : string) :
    Targeting (option (string * string)) :=
  rows ← boxed (stmt (query (revision_history operator_strategy_revision)));
  pooled_of (latest_history_lineage_from_rows operator_strategy_revision rows).

(** ** Selecting a revision *)

Definition exactly_one_selector : string :=
  "exactly one of --operator-strategy-revision or --adoptable-revision must be provided".

Definition adopt_by_operator_revision (operator_strategy_revision : string) :
    Targeting ResolvedStrategyAdoptionSelection :=
  provenance ← boxed (get_by_operator_strategy_revision operator_strategy_revision);
  match provenance with
  | Some provenance =>
      selection_from_lineage (sap_operator_strategy_revision provenance)
        (sap_adoptable_strategy_revision provenance)
        (sap_strategy_candidate_revision provenance)
  | None =>
      lineage ← latest_history_lineage operator_strategy_revision;
      match lineage with
      | Some (adoptable_revision, strategy_candidate_revision) =>
          selection_from_lineage operator_strategy_revision adoptable_revision
            strategy_candidate_revision
      | None => pooled_fail (CommandMessage ("operator_strategy_revision " +:+
          operator_strategy_revision +:+
          " has no durable adoption provenance or history lineage"))
      end
  end.

Definition adopt_by_adoptable_revision (adoptable_revision : string) :
    Targeting ResolvedStrategyAdoptionSelection :=
  adoptable ← boxed (get_adoptable_strategy_revision adoptable_revision);
  adoptable ← message_or adoptable
                ("adoptable_revision " +:+ adoptable_revision +:+ " is unavailable");
  _ ← pooled_of (validate_strategy_payload (asr_payload adoptable)
                   (asr_rendered_operator_strategy_revision adoptable));
  candidate ← boxed (get_strategy_candidate_set (asr_strategy_candidate_revision adoptable));
  _ ← message_or candidate ("strategy_candidate_revision " +:+
        asr_strategy_candidate_revision adoptable +:+ " is unavailable");
  mret {| ras_operator_strategy_revision := asr_rendered_operator_strategy_revision adoptable;
          ras_adoptable_revision := Some (asr_adoptable_strategy_revision adoptable);
          ras_migration_source := None |}.

Definition resolve_adoption_selection
    (operator_strategy_revision adoptable_revision : option string) :
    Targeting ResolvedStrategyAdoptionSelection :=
  match operator_strategy_revision, adoptable_revision with
  | Some _, Some _ | None, None => pooled_fail (CommandMessage exactly_one_selector)
  | Some revision, None => adopt_by_operator_revision revision
  | None, Some revision => adopt_by_adoptable_revision revision
  end.

Definition has_neutral_history (revision : string) (db : Db) : bool :=
  has_row (db_strategy_history db)
    (λ _ r, bool_decide (osh_operator_strategy_revision r.1 = revision)).

Definition resolve_rollback_selection (compatibility_mode
    configured_operator_strategy_revision to_operator_strategy_revision : option string) :
    Targeting ResolvedStrategyAdoptionSelection :=
  configured ← message_or configured_operator_strategy_revision
                 "configured operator_strategy_revision is unavailable";
  _ ← (if bool_decide (compatibility_mode = Some LEGACY_EXPLICIT_COMPATIBILITY_MODE) then
         has_history ← boxed (stmt (query (has_neutral_history configured)));
         if (has_history : bool) then mret ()
         else pooled_fail (CommandMessage
           "neutral adoption history is required before compatibility mode can roll back")
       else mret ());
  destination ←
    match to_operator_strategy_revision with
    | Some revision => mret revision
    | None =>
        previous ← boxed (strategy_previous_distinct_revision configured);
        message_or previous ("operator_strategy_revision " +:+ configured +:+
                             " has no previous distinct revision")
    end;
  resolve_adoption_selection (Some destination) None.

(** ** The active revision *)

Definition legacy_target_revision_matches_strategy_revision
    (operator_strategy_revision operator_target_revision : string) : bool :=
  match strip_prefix "strategy-rev-" operator_strategy_revision with
  | Some digest => bool_decide (operator_target_revision = "sha256:" +:+ digest)
  | None => false
  end.

Definition normalize_active_operator_strategy_revision (configured active_target
    active_strategy : option string) : option string :=
  match active_strategy with
  | Some revision => Some revision
  | None =>
      active_target ← active_target;
      match configured with
      | Some configured =>
          if bool_decide (configured = active_target) ||
             legacy_target_revision_matches_strategy_revision configured active_target
          then Some configured else Some active_target
      | None => Some active_target
      end
  end.

Definition load_active_operator_strategy_revision (configured : option string) :
    Targeting (option string) :=
  row ← boxed progress_current;
  match row with
  | None => mret None
  | Some row =>
      active ← message_or
        (normalize_active_operator_strategy_revision configured (rp_operator_target_revision row)
           (rp_operator_strategy_revision row))
        "runtime progress row exists without operator_strategy_revision anchor";
      mret (Some active)
  end.

Definition load_target_control_plane_state (file : option string) :
    Targeting TargetControlPlaneState :=
  compatibility_mode ← pooled_of (compatibility_mode file);
  configured ← pooled_of (configured_operator_strategy_revision file);
  active ← load_active_operator_strategy_revision configured;
  provenance ←
    match configured with
    | None => mret None
    | Some revision =>
        provenance ← boxed (get_by_operator_strategy_revision revision);
        provenance ← message_or provenance
          ("configured operator_strategy_revision " +:+ revision +:+
           " has no durable adoption provenance");
        mret (Some provenance)
    end;
  latest_action ← boxed strategy_history_latest;
  mret {| tcp_configured_operator_strategy_revision := configured;
          tcp_active_operator_strategy_revision := active;
          tcp_restart_needed :=
            (configured ← configured; active ← active;
             Some (negb (bool_decide (configured = active))));
          tcp_compatibility_mode := compatibility_mode; tcp_provenance := provenance;
          tcp_latest_action := latest_action |}.

(** ** The catalog *)

Definition has_strategy_adoptable (db : Db) (candidate : string) : bool :=
  has_row (db_adoptable_strategy_revisions db)
    (λ _ a, bool_decide (asr_strategy_candidate_revision a = candidate)).
Definition has_target_adoptable (db : Db) (candidate : string) : bool :=
  has_row (db_adoptable_target_revisions db)
    (λ _ a, bool_decide (atr_candidate_revision a = candidate)).

(** The candidates nothing adoptable was made of; a row of the strategy table hides the
    legacy row of the same revision. *)
Definition advisory_candidates (db : Db) : list StrategyCandidateSetRow :=
  (λ kv, kv.2) <$> btree_entries (desc text_cmp)
    (filter (λ kv, has_strategy_adoptable db kv.1 = false) (db_strategy_candidate_sets db) ∪
     (legacy_candidate_set <$>
        filter (λ kv, has_target_adoptable db kv.1 = false) (db_candidate_target_sets db))).

Definition adoptable_revisions (db : Db) : list AdoptableStrategyRevisionRow :=
  (λ kv, kv.2) <$> btree_entries (desc text_cmp)
    (db_adoptable_strategy_revisions db ∪
     (legacy_adoptable <$> db_adoptable_target_revisions db)).

Definition load_target_candidates_catalog : Targeting TargetCandidatesCatalog :=
  advisory ← boxed (stmt (query advisory_candidates));
  adoptable ← boxed (stmt (query adoptable_revisions));
  mret {| tcc_advisory_candidates := advisory; tcc_adoptable_revisions := adoptable |}.

(** The [validation] objects of the targets of a candidate. *)
Definition candidate_validations (candidate : StrategyCandidateSetRow) : list Json :=
  omap (json_get "validation")
    (default [] (targets ← json_get "targets" (scr_payload candidate); json_as_array targets)).

Definition validation_text (k : string) (validation : Json) : option string :=
  v ← json_get k validation; json_as_str v.

Definition count_status (status : string) (validations : list Json) : nat :=
  length (List.filter (λ v, bool_decide (validation_text "status" v = Some status)) validations).

Definition summarize_target_candidates (catalog : TargetCandidatesCatalog) :
    TargetCandidatesSummary :=
  let validations := concat (candidate_validations <$> tcc_advisory_candidates catalog) in
  let reasons : gset string := list_to_set (omap (validation_text "reason") validations) in
  {| tcs_advisory_candidate_count := length (tcc_advisory_candidates catalog);
     tcs_adoptable_revision_count := length (tcc_adoptable_revisions catalog);
     tcs_deferred_target_count := count_status "deferred" validations;
     tcs_excluded_target_count := count_status "excluded" validations;
     tcs_recommended_adoptable_revision :=
       asr_adoptable_strategy_revision <$> head (tcc_adoptable_revisions catalog);
     tcs_non_adoptable_reasons := sort_by str_cmp (elements reasons) |}.
End targets.
