(* ===== verification/Migration.v ===== *)
(** * Migrating the legacy control plane

    [app-live/src/strategy_control/migration.rs]: a configuration that names a legacy
    target revision, or lists its targets, becomes one that names a strategy revision
    whose artifacts are in the strategy tables. *)

From S2P Require Import Prelude Text RecordSet Externals Json Domain LiveRecords Discovery Rows.
From S2P Require Import AppConfig Schema RepoJournal RepoControl Config Validation ConfigFile.
From S2P Require Import Command Startup Targets.

(** What [Display] makes of errors that carry text of the libraries, and what
    PostgreSQL's [->>] gives for a JSON value that is not a string. *)
Class ErrorText := {
  persistence_text : PersistenceError → string;
  schema_text : ConfigSchemaError → string;
  command_text : CommandError → string;
  file_text : FileError → string;
  jsonb_text : Json → string;
}.

Section migration.
Context {X : Externals} {J : JsonOps} {P : PgOps} {U : UrlOps} {D : SerdeOps} {T : TomlOps}.
Context {E : ErrorText}.

Inductive MigrationSource := LegacyTargetSource | LegacyExplicitTargets.

Record MigrationOutcome := {
  mo_operator_strategy_revision : string;
  mo_adoptable_strategy_revision : string;
  mo_strategy_candidate_revision : string;
  mo_source : MigrationSource;
}.

Definition Migrating : Type → Type := Pooled StrategyControlMigrationError.

Definition persisted {A} (m : Pool A) : Migrating A :=
  from_repo (λ e, MigrationPersistence (persistence_text e)) m.

(** ** Revisions *)

Definition canonical_strategy_revision_from_legacy_target_revision
    (operator_target_revision : string) : result StrategyControlMigrationError string :=
  match strip_prefix "targets-rev-" operator_target_revision with
  | Some suffix => Ok ("strategy-rev-" +:+ suffix)
  | None =>
      match strip_prefix "sha256:" operator_target_revision with
      | Some suffix => Ok ("strategy-rev-" +:+ suffix)
      | None => Err (MigrationInvalidConfig
          ("legacy operator_target_revision " +:+ operator_target_revision +:+
           " cannot be mapped to a canonical operator_strategy_revision"))
      end
  end.

(** [s.trim_start_matches(p)], for a prefix that is not empty; each round makes [s]
    shorter. *)
Fixpoint trim_start_matches_fuel (fuel : nat) (p s : string) : string :=
  match fuel with
  | O => s
  | S fuel' =>
      match strip_prefix p s with
      | Some s' => trim_start_matches_fuel fuel' p s'
      | None => s
      end
  end.
Definition trim_start_matches (p s : string) : string :=
  trim_start_matches_fuel (String.length s) p s.

Definition synthetic_adoptable_revision (operator_strategy_revision : string) : string :=
  "adoptable-strategy-" +:+ trim_start_matches "strategy-rev-" operator_strategy_revision.
Definition synthetic_strategy_candidate_revision (operator_strategy_revision : string) : string :=
  "strategy-candidate-" +:+ trim_start_matches "strategy-rev-" operator_strategy_revision.

(** ** Payloads *)

Definition payload_with_inserted_string (payload : Json) (key value : string) : Json :=
  match payload with
  | JObject fields => JObject (field_insert key (JString value) fields)
  | _ => payload
  end.

Definition payload_with_rendered_strategy_revision (payload : Json)
    (operator_strategy_revision migration_source : string) : Json :=
  payload_with_inserted_string
    (payload_with_inserted_string payload "rendered_operator_strategy_revision"
       operator_strategy_revision) "migration_source" migration_source.

(** ** Materialising rows

    Shared with the adoption command, which has the same functions with other errors:
    [lineage] is the word its message uses. *)
Definition insert_on_conflict_do_nothing (exists_ : Db → bool) (ins : Insert) : Insert :=
  λ now db, if exists_ db then (db, Ok (Ok ())) else ins now db.

Definition materialize {F R} `{EqDecision R} (wrap : PersistenceError → F) (fail : string → F)
    (exists_ : Db → bool) (ins : Insert) (get : Db → option R) (row : R)
    (kind revision lineage : string) : Pooled F () :=
  _ ← from_repo wrap (stmt (sqlx_ok (insert_on_conflict_do_nothing exists_ ins)));
  stored ← from_repo wrap (stmt (query get));
  stored ← pooled_of (ok_or stored
             (fail (kind +:+ " " +:+ revision +:+ " was not materialized")));
  if decide (stored = row) then mret ()
  else pooled_fail (fail (kind +:+ " " +:+ revision +:+ " conflicts with existing " +:+ lineage +:+
                          " lineage")).

Definition load_materialized_strategy_candidate_set (revision : string) (db : Db) :
    option StrategyCandidateSetRow := db_strategy_candidate_sets db !! revision.
Definition load_materialized_adoptable_strategy_revision (revision : string) (db : Db) :
    option AdoptableStrategyRevisionRow := db_adoptable_strategy_revisions db !! revision.

Definition materialize_strategy_candidate_set {F} (wrap : PersistenceError → F)
    (fail : string → F) (lineage : string) (row : StrategyCandidateSetRow) : Pooled F () :=
  let revision := scr_strategy_candidate_revision row in
  materialize wrap fail
    (λ db, bool_decide (is_Some (load_materialized_strategy_candidate_set revision db)))
    (insert_strategy_candidate_set row) (load_materialized_strategy_candidate_set revision) row
    "strategy_candidate_revision" revision lineage.

Definition materialize_adoptable_strategy_revision {F} (wrap : PersistenceError → F)
    (fail : string → F) (lineage : string) (row : AdoptableStrategyRevisionRow) : Pooled F () :=
  let revision := asr_adoptable_strategy_revision row in
  materialize wrap fail
    (λ db, bool_decide (is_Some (load_materialized_adoptable_strategy_revision revision db)))
    (insert_adoptable_strategy_revision row)
    (load_materialized_adoptable_strategy_revision revision) row
    "adoptable_strategy_revision" revision lineage.

Definition migration_failure (message : string) : StrategyControlMigrationError :=
  MigrationPersistence message.
Definition migration_persistence (e : PersistenceError) : StrategyControlMigrationError :=
  MigrationPersistence (persistence_text e).

(** ** Existing lineage *)

(** [payload ->> key] *)
Definition json_arrow_text (key : string) (payload : Json) : option string :=
  v ← json_get key payload;
  match v with JNull => None | JString s => Some s | v => Some (jsonb_text v) end.

Definition migrated_from (db : Db) (operator_target_revision : string)
    (p : StrategyAdoptionProvenanceRow) : bool :=
  match db_adoptable_strategy_revisions db !! sap_adoptable_strategy_revision p with
  | None => false
  | Some a =>
      bool_decide (asr_strategy_candidate_revision a = sap_strategy_candidate_revision p) &&
      bool_decide (asr_rendered_operator_strategy_revision a
                   = sap_operator_strategy_revision p) &&
      bool_decide (json_arrow_text "legacy_operator_target_revision" (asr_payload a)
                   = Some operator_target_revision)
  end.

Definition canonical_migrations (operator_target_revision : string) (db : Db) :
    list StrategyAdoptionProvenanceRow :=
  (λ kv, kv.2) <$> select (db_strategy_provenance db)
    (λ _ p, migrated_from db operator_target_revision p) (cmp_on fst text_cmp).

Definition load_existing_canonical_target_source_migration (operator_target_revision : string) :
    Migrating (option StrategyAdoptionProvenanceRow) :=
  mapped ← persisted (stmt (query (canonical_migrations operator_target_revision)));
  if bool_decide (1 < length mapped)%nat then
    pooled_fail (MissingLineage ("legacy operator_target_revision " +:+
      operator_target_revision +:+ " maps to multiple canonical strategy revisions"))
  else mret (last mapped).

Definition ensure_existing_canonical_artifacts_present
    (operator_strategy_revision adoptable_strategy_revision strategy_candidate_revision : string) :
    Migrating () :=
  candidate ← persisted (stmt (query
    (load_materialized_strategy_candidate_set strategy_candidate_revision)));
  if bool_decide (candidate = None) then
    pooled_fail (MissingLineage ("canonical strategy_candidate_revision " +:+
      strategy_candidate_revision +:+
      " is unavailable and no legacy artifacts exist to repair it"))
  else
    adoptable ← persisted (stmt (query
      (load_materialized_adoptable_strategy_revision adoptable_strategy_revision)));
    adoptable ← pooled_of (ok_or adoptable (MissingLineage
      ("canonical adoptable_strategy_revision " +:+ adoptable_strategy_revision +:+
       " is unavailable and no legacy artifacts exist to repair it")));
    if bool_decide (asr_strategy_candidate_revision adoptable ≠ strategy_candidate_revision) ||
       bool_decide (asr_rendered_operator_strategy_revision adoptable
                    ≠ operator_strategy_revision) then
      pooled_fail (MissingLineage ("canonical adoptable_strategy_revision " +:+
        adoptable_strategy_revision +:+ " does not match expected strategy lineage"))
    else mret ().

(** ** A legacy target source *)

(** The operator, adoptable and candidate revision of the migrated configuration. *)
Definition lineage_of (p : StrategyAdoptionProvenanceRow) : string * string * string :=
  (sap_operator_strategy_revision p, sap_adoptable_strategy_revision p,
   sap_strategy_candidate_revision p).

Definition synthetic_lineage (operator_strategy_revision : string) : string * string * string :=
  (operator_strategy_revision, synthetic_adoptable_revision operator_strategy_revision,
   synthetic_strategy_candidate_revision operator_strategy_revision).

Definition migrated_lineage (operator_target_revision derived : string)
    (existing_marker existing_derived : option StrategyAdoptionProvenanceRow) :
    result StrategyControlMigrationError (string * string * string) :=
  match existing_marker, existing_derived with
  | Some marker, Some derived =>
      if bool_decide (sap_operator_strategy_revision marker
                      ≠ sap_operator_strategy_revision derived) then
        Err (MissingLineage ("legacy operator_target_revision " +:+ operator_target_revision +:+
               " maps to conflicting canonical strategy revisions"))
      else Ok (lineage_of marker)
  | Some existing, None | None, Some existing => Ok (lineage_of existing)
  | None, None => Ok (synthetic_lineage derived)
  end.

Definition migrated_candidate (operator_target_revision strategy_candidate_revision : string)
    (candidate : CandidateTargetSetRow) : StrategyCandidateSetRow :=
  {| scr_strategy_candidate_revision := strategy_candidate_revision;
     scr_snapshot_id := cts_snapshot_id candidate;
     scr_source_revision := cts_source_revision candidate;
     scr_payload := payload_with_inserted_string
       (payload_with_inserted_string (cts_payload candidate) "legacy_operator_target_revision"
          operator_target_revision) "strategy_candidate_revision" strategy_candidate_revision |}.

Definition migrated_adoptable (operator_target_revision : string)
    (lineage : string * string * string) (adoptable : AdoptableTargetRevisionRow) :
    AdoptableStrategyRevisionRow :=
  let '(operator_revision, adoptable_revision, candidate_revision) := lineage in
  {| asr_adoptable_strategy_revision := adoptable_revision;
     asr_strategy_candidate_revision := candidate_revision;
     asr_rendered_operator_strategy_revision := operator_revision;
     asr_payload := payload_with_inserted_string
       (payload_with_inserted_string
          (payload_with_rendered_strategy_revision (atr_payload adoptable) operator_revision
             "legacy-target-source") "legacy_operator_target_revision" operator_target_revision)
       "adoptable_strategy_revision" adoptable_revision |}.

(** The artifacts are copied from the legacy tables. *)
Definition materialize_legacy (operator_target_revision : string)
    (lineage : string * string * string) (provenance : CandidateAdoptionProvenanceRow) :
    Migrating () :=
  candidate ← persisted (get_candidate_target_set (cap_candidate_revision provenance));
  candidate ← pooled_of (ok_or candidate (MissingLineage
    ("candidate_revision " +:+ cap_candidate_revision provenance +:+ " is unavailable")));
  adoptable ← persisted (get_adoptable_target_revision (cap_adoptable_revision provenance));
  adoptable ← pooled_of (ok_or adoptable (MissingLineage
    ("adoptable_revision " +:+ cap_adoptable_revision provenance +:+ " is unavailable")));
  _ ← materialize_strategy_candidate_set migration_persistence migration_failure "canonical"
        (migrated_candidate operator_target_revision lineage.2 candidate);
  materialize_adoptable_strategy_revision migration_persistence migration_failure "canonical"
    (migrated_adoptable operator_target_revision lineage adoptable).

Definition strategy_provenance_of (lineage : string * string * string) :
    StrategyAdoptionProvenanceRow :=
  {| sap_operator_strategy_revision := lineage.1.1;
     sap_adoptable_strategy_revision := lineage.1.2;
     sap_strategy_candidate_revision := lineage.2 |}.

(** What happens on the pool for the legacy revision [operator_target_revision]. *)
Definition migrate_target_revision (operator_target_revision : string) :
    Migrating (string * string * string) :=
  existing_marker ← load_existing_canonical_target_source_migration operator_target_revision;
  legacy_provenance ← persisted (get_by_operator_target_revision operator_target_revision);
  derived ← pooled_of
    (canonical_strategy_revision_from_legacy_target_revision operator_target_revision);
  existing_derived ← (if bool_decide (is_Some legacy_provenance)
                      then persisted (get_by_operator_strategy_revision derived)
                      else mret None);
  if bool_decide (legacy_provenance = None) && bool_decide (existing_marker = None) then
    pooled_fail (MissingLineage ("legacy operator_target_revision " +:+
      operator_target_revision +:+
      " has no target-shaped provenance or canonical strategy lineage"))
  else
    lineage ← pooled_of (migrated_lineage operator_target_revision derived existing_marker
                           existing_derived);
    _ ← match legacy_provenance with
        | Some provenance => materialize_legacy operator_target_revision lineage provenance
        | None => ensure_existing_canonical_artifacts_present lineage.1.1 lineage.1.2 lineage.2
        end;
    _ ← persisted (strategy_upsert_provenance (strategy_provenance_of lineage));
    mret lineage.

Definition migration_outcome (lineage : string * string * string) (source : MigrationSource) :
    MigrationOutcome :=
  {| mo_operator_strategy_revision := lineage.1.1;
     mo_adoptable_strategy_revision := lineage.1.2;
     mo_strategy_candidate_revision := lineage.2; mo_source := source |}.

(** The commands of the operator run with the configuration file. *)
Definition rewrite_migrated (writable : bool) (operator_strategy_revision : string) :
    Command StrategyControlMigrationError () :=
  on_file (λ e, MigrationRewrite (file_text e))
    (rewrite_operator_strategy_revision writable operator_strategy_revision).

Definition migrate_legacy_target_source (writable : bool) (raw : RawAxiomConfig) :
    Command StrategyControlMigrationError MigrationOutcome :=
  target_source ← command_of (ok_or (raw_target_source raw)
    (MigrationInvalidConfig "missing required section: negrisk.target_source"));
  operator_target_revision ← command_of (ok_or
    (revision ← nts_operator_target_revision target_source;
     if bool_decide (trim revision = "") then None else Some (trim revision))
    (MigrationInvalidConfig "missing negrisk.target_source.operator_target_revision"));
  lineage ← on_pool (migrate_target_revision operator_target_revision);
  _ ← rewrite_migrated writable lineage.1.1;
  mret (migration_outcome lineage LegacyTargetSource).

(** ** Explicit targets *)

Definition explicit_candidate (lineage : string * string * string) : StrategyCandidateSetRow :=
  let '(operator_revision, _, candidate_revision) := lineage in
  {| scr_strategy_candidate_revision := candidate_revision;
     scr_snapshot_id := "compatibility-migration-" +:+ operator_revision;
     scr_source_revision := "legacy-explicit";
     scr_payload := json_object
       [("migration_source", JString "legacy-explicit");
        ("strategy_candidate_revision", JString candidate_revision)] |}.

Definition explicit_adoptable (lineage : string * string * string) (targets : LiveTargets) :
    AdoptableStrategyRevisionRow :=
  let '(operator_revision, adoptable_revision, candidate_revision) := lineage in
  {| asr_adoptable_strategy_revision := adoptable_revision;
     asr_strategy_candidate_revision := candidate_revision;
     asr_rendered_operator_strategy_revision := operator_revision;
     asr_payload := json_object
       [("migration_source", JString "legacy-explicit");
        ("adoptable_strategy_revision", JString adoptable_revision);
        ("strategy_candidate_revision", JString candidate_revision);
        ("rendered_operator_strategy_revision", JString operator_revision);
        ("rendered_live_targets", live_targets_json targets)] |}.

Definition migrate_explicit_targets (operator_strategy_revision : string)
    (targets : LiveTargets) : Migrating (string * string * string) :=
  let lineage := synthetic_lineage operator_strategy_revision in
  _ ← materialize_strategy_candidate_set migration_persistence migration_failure "canonical"
        (explicit_candidate lineage);
  _ ← materialize_adoptable_strategy_revision migration_persistence migration_failure "canonical"
        (explicit_adoptable lineage targets);
  _ ← persisted (strategy_upsert_provenance (strategy_provenance_of lineage));
  mret lineage.

(** [f(config_path).map_err(|e| InvalidConfig(e.to_string()))?] *)
Definition invalid_config {A} (f : option string → outcome (result CommandError A)) :
    Command StrategyControlMigrationError A := λ env w,
  match f w.2 with
  | Panics => (w, Err HaltPanicked)
  | Returns r => (w, map_err (λ e, Halted (MigrationInvalidConfig (command_text e))) r)
  end.

Definition migrate_legacy_explicit_targets (writable : bool) (raw : RawAxiomConfig) :
    Command StrategyControlMigrationError MigrationOutcome :=
  if is_legacy_explicit_strategy_config raw && bool_decide (length (negrisk_targets raw) = 0%nat)
  then command_fail (MigrationInvalidConfig "empty negrisk.targets array is invalid legacy input")
  else
    operator_strategy_revision ←
      invalid_config synthetic_strategy_revision_for_legacy_explicit_config;
    targets ← invalid_config legacy_explicit_targets;
    lineage ← on_pool (migrate_explicit_targets operator_strategy_revision (ts_targets targets));
    _ ← rewrite_migrated writable lineage.1.1;
    mret (migration_outcome lineage LegacyExplicitTargets).

Definition migrate_legacy_strategy_control (writable : bool) :
    Command StrategyControlMigrationError MigrationOutcome :=
  with_file (λ file,
    raw ← command_of (map_err (λ e, MigrationInvalidConfig (schema_text e))
                        (load_raw_config_from_path file));
    let has_canonical := bool_decide (is_Some (rc_strategy_control raw)) in
    let has_explicit_targets := is_legacy_explicit_strategy_config raw in
    if has_canonical && (has_target_source raw || has_explicit_targets) then
      command_fail (MigrationInvalidConfig
        ("canonical [strategy_control] cannot be combined with legacy negrisk " +:+
         "control-plane input"))
    else if has_target_source raw && has_explicit_targets then
      command_fail (MigrationInvalidConfig
        "legacy negrisk.target_source cannot be combined with explicit negrisk.targets")
    else if has_target_source raw then migrate_legacy_target_source writable raw
    else if has_explicit_targets then migrate_legacy_explicit_targets writable raw
    else command_fail (MigrationInvalidConfig
      "config does not contain migratable legacy strategy-control input")).
End migration.
