(* ===== verification/Adoption.v ===== *)
(** * Adopting and rolling back a revision

    [app-live/src/commands/targets/adopt.rs] and [rollback.rs]. *)

From S2P Require Import Prelude Text RecordSet Externals Json Domain LiveRecords Discovery Rows.
From S2P Require Import AppConfig Schema RepoControl Config Validation ConfigFile Command.
From S2P Require Import Startup Targets Migration.

Section adoption.
Context {X : Externals} {J : JsonOps} {P : PgOps} {U : UrlOps} {D : SerdeOps} {T : TomlOps}.
Context {E : ErrorText}.

(** [AdoptSummary] and [RollbackSummary] *)
Record ChangeSummary := {
  cg_selection : ResolvedStrategyAdoptionSelection;
  cg_previous_operator_strategy_revision : option string;
  cg_restart_required : option bool;
}.

(** The clock, when the history row is built: the nanoseconds of its id, and its time. *)
Record Clock := { ck_nanos : Z; ck_adopted_at : DateTime }.

(** ** The state of the file *)

Definition has_migratable_legacy_strategy_control (file : option string) :
    result CommandError bool :=
  raw ← map_err CommandSchema (load_raw_config_from_path file);
  Ok (bool_decide (rc_strategy_control raw = None) &&
      (has_target_source raw || is_legacy_explicit_strategy_config raw)).

Definition config_requires_strategy_control_rewrite (file : option string) :
    result CommandError bool :=
  raw ← map_err CommandSchema (load_raw_config_from_path file);
  Ok (bool_decide (rc_strategy_control raw = None) || has_target_source raw ||
      is_legacy_explicit_strategy_config raw).

Definition validate_selector_flags
    (operator_strategy_revision adoptable_revision file : option string) :
    result CommandError () :=
  match operator_strategy_revision, adoptable_revision with
  | Some _, None | None, Some _ => Ok ()
  | None, None =>
      migratable ← has_migratable_legacy_strategy_control file;
      if (migratable : bool) then Ok () else Err (CommandMessage exactly_one_selector)
  | Some _, Some _ => Err (CommandMessage exactly_one_selector)
  end.

(** ** Provenance *)

Definition unavailable (kind revision : string) : string :=
  kind +:+ " " +:+ revision +:+ " is unavailable".

(** Legacy artifacts are copied to the strategy tables. *)
Definition ensure_strategy_artifact_lineage (adoptable_revision : string) : Targeting () :=
  adoptable ← boxed (get_adoptable_strategy_revision adoptable_revision);
  adoptable ← message_or adoptable (unavailable "adoptable_revision" adoptable_revision);
  candidate ← boxed (get_strategy_candidate_set (asr_strategy_candidate_revision adoptable));
  candidate ← message_or candidate
    (unavailable "strategy_candidate_revision" (asr_strategy_candidate_revision adoptable));
  _ ← materialize_strategy_candidate_set CommandPersistence CommandMessage "neutral" candidate;
  materialize_adoptable_strategy_revision CommandPersistence CommandMessage "neutral" adoptable.

Definition ensure_canonical_provenance (selection : ResolvedStrategyAdoptionSelection) :
    Targeting () :=
  match ras_adoptable_revision selection with
  | None => mret ()
  | Some adoptable_revision =>
      _ ← ensure_strategy_artifact_lineage adoptable_revision;
      adoptable ← boxed (get_adoptable_strategy_revision adoptable_revision);
      adoptable ← message_or adoptable (unavailable "adoptable_revision" adoptable_revision);
      let canonical :=
        {| sap_operator_strategy_revision := ras_operator_strategy_revision selection;
           sap_adoptable_strategy_revision := asr_adoptable_strategy_revision adoptable;
           sap_strategy_candidate_revision := asr_strategy_candidate_revision adoptable |} in
      existing ← boxed (get_by_operator_strategy_revision
                          (sap_operator_strategy_revision canonical));
      match existing with
      | Some _ => mret ()
      | None => boxed (strategy_upsert_provenance canonical)
      end
  end.

Definition strategy_candidate_revision_for_selection
    (selection : ResolvedStrategyAdoptionSelection) : Targeting (option string) :=
  match ras_adoptable_revision selection with
  | None => mret None
  | Some adoptable_revision =>
      row ← boxed (get_adoptable_strategy_revision adoptable_revision);
      mret (asr_strategy_candidate_revision <$> row)
  end.

(** ** adopt.rs *)

Definition migration_source_label (source : MigrationSource) : string :=
  match source with
  | LegacyTargetSource => "legacy-target-source"
  | LegacyExplicitTargets => "legacy-explicit"
  end.

Definition selection_of_migration (outcome : MigrationOutcome) :
    ResolvedStrategyAdoptionSelection :=
  {| ras_operator_strategy_revision := mo_operator_strategy_revision outcome;
     ras_adoptable_revision := Some (mo_adoptable_strategy_revision outcome);
     ras_migration_source := Some (migration_source_label (mo_source outcome)) |}.

(** Without a selector, the legacy configuration is migrated. *)
Definition select_revision (writable : bool)
    (operator_strategy_revision adoptable_revision : option string) :
    Command CommandError ResolvedStrategyAdoptionSelection :=
  match operator_strategy_revision, adoptable_revision with
  | None, None => λ env w,
      let '(w, r) := migrate_legacy_strategy_control writable env w in
      (w, match r with
          | Ok outcome => Ok (selection_of_migration outcome)
          | Err (Halted e) => Err (Halted (CommandMigration e))
          | Err HaltPanicked => Err HaltPanicked
          end)
  | _, _ => on_pool (resolve_adoption_selection operator_strategy_revision adoptable_revision)
  end.

Definition adoption_row (clock : Clock) (selection : ResolvedStrategyAdoptionSelection)
    (previous strategy_candidate_revision : option string) : OperatorStrategyAdoptionHistoryRow :=
  {| osh_adoption_id := "adopt-" +:+ pretty (ck_nanos clock) +:+ "-" +:+
                        ras_operator_strategy_revision selection;
     osh_action_kind := "adopt";
     osh_operator_strategy_revision := ras_operator_strategy_revision selection;
     osh_previous_operator_strategy_revision := previous;
     osh_adoptable_strategy_revision := ras_adoptable_revision selection;
     osh_strategy_candidate_revision := strategy_candidate_revision;
     osh_adopted_at := ck_adopted_at clock |}.

Definition differs_from (selection : ResolvedStrategyAdoptionSelection)
    (active : option string) : option bool :=
  active ← active;
  Some (negb (bool_decide (active = ras_operator_strategy_revision selection))).

Definition rewrite_selected (writable : bool) (selection : ResolvedStrategyAdoptionSelection) :
    Command CommandError () :=
  on_file CommandFile (rewrite_operator_strategy_revision writable
                         (ras_operator_strategy_revision selection)).

(** The history row is appended before the file is rewritten. *)
Definition adopt_selected_revision (writable : bool) (clock : Clock)
    (operator_strategy_revision adoptable_revision : option string) :
    Command CommandError ChangeSummary :=
  _ ← with_file (λ file, command_of
        (validate_selector_flags operator_strategy_revision adoptable_revision file));
  previous ← with_file (λ file, command_of (configured_operator_strategy_revision file));
  selection ← select_revision writable operator_strategy_revision adoptable_revision;
  active ← on_pool (load_active_operator_strategy_revision
                      (Some (ras_operator_strategy_revision selection)));
  required ← with_file (λ file, command_of (config_requires_strategy_control_rewrite file));
  let rewrite_required :=
    required || bool_decide (previous ≠ Some (ras_operator_strategy_revision selection)) in
  _ ← on_pool (ensure_canonical_provenance selection);
  strategy_candidate_revision ← on_pool (strategy_candidate_revision_for_selection selection);
  _ ← on_pool (boxed (strategy_history_append
        (adoption_row clock selection previous strategy_candidate_revision)));
  _ ← (if rewrite_required then rewrite_selected writable selection else mret ());
  mret {| cg_selection := selection;
          cg_previous_operator_strategy_revision := if rewrite_required then previous else None;
          cg_restart_required := differs_from selection active |}.

(** ** rollback.rs *)

Definition build_rollback_history_row (clock : Clock) (previous : option string)
    (selection : ResolvedStrategyAdoptionSelection) : OperatorStrategyAdoptionHistoryRow :=
  {| osh_adoption_id := "rollback-" +:+ pretty (ck_nanos clock) +:+ "-" +:+
                        ras_operator_strategy_revision selection;
     osh_action_kind := "rollback";
     osh_operator_strategy_revision := ras_operator_strategy_revision selection;
     osh_previous_operator_strategy_revision := previous;
     osh_adoptable_strategy_revision := None; osh_strategy_candidate_revision := None;
     osh_adopted_at := ck_adopted_at clock |}.

(** The configured revision, or the one explicit targets would have. *)
Definition rollback_origin (compatibility configured file : option string) :
    outcome (option string) :=
  match configured, compatibility with
  | Some revision, _ => Returns (Some revision)
  | None, None => Returns None
  | None, Some _ =>
      r ← synthetic_strategy_revision_for_legacy_explicit_config file;
      Returns (match r with Ok revision => Some revision | Err _ => None end)
  end.

Definition command_of_outcome {F A} (r : outcome A) : Command F A := λ _ w,
  (w, match r with Returns a => Ok a | Panics => Err HaltPanicked end).

Definition rollback_execute (writable : bool) (clock : Clock)
    (to_operator_strategy_revision : option string) : Command CommandError ChangeSummary :=
  compatibility ← with_file (λ file, command_of (compatibility_mode file));
  configured ← with_file (λ file, command_of (configured_operator_strategy_revision file));
  previous ← with_file (λ file, command_of_outcome
               (rollback_origin compatibility configured file));
  selection ← on_pool (resolve_rollback_selection compatibility previous
                         to_operator_strategy_revision);
  active ← on_pool (load_active_operator_strategy_revision
                      (Some (ras_operator_strategy_revision selection)));
  let changed := bool_decide (previous ≠ Some (ras_operator_strategy_revision selection)) in
  _ ← (if changed then
         _ ← on_pool (boxed (strategy_history_append
               (build_rollback_history_row clock previous selection)));
         rewrite_selected writable selection
       else mret ());
  mret {| cg_selection := selection;
          cg_previous_operator_strategy_revision := if changed then previous else None;
          cg_restart_required := differs_from selection active |}.
End adoption.
