(* ===== verification/Status.v ===== *)
(** * The status of the application

    [app-live/src/commands/status]: what the operator is told, and what to do next; and
    [app-live/src/run_session.rs]: the session row a start writes, which the status looks
    up again. *)

From S2P Require Import Prelude Text RecordSet Externals Json Domain Plans LiveRecords Discovery.
From S2P Require Import Rows AppConfig Schema RepoSessions RepoControl Config Validation.
From S2P Require Import ConfigFile Command Startup Targets Migration.

(** ** model.rs *)

Inductive StatusMode := StatusPaper | StatusRealUserShadowSmoke | StatusLive.
Inductive StatusReadiness :=
| PaperReady | DiscoveryRequired | DiscoveryReadyNotAdoptable | AdoptableReady | RestartRequired
| SmokeRolloutRequired | SmokeConfigReady | LiveRolloutRequired | LiveConfigReady
| StatusBlocked.
Inductive StatusRolloutState := RolloutRequired | RolloutReady.
Inductive StatusAction :=
| RunDiscover | InspectDiscoveryReasons | ChooseAndAdoptRevision | RunDoctor | RunAppLiveApply
| PerformControlledRestart | RunAppLiveRun | FixBlockingIssueAndRerunStatus | EnableSmokeRollout
| EnableLiveRollout | MigrateLegacyExplicitTargets.
Inductive StatusTargetSource := StatusLegacyExplicitTargets | StatusAdoptedTargets.

#[export] Instance StatusMode_eq_dec : EqDecision StatusMode.
Proof. solve_decision. Defined.

Definition status_mode_label (m : StatusMode) : string :=
  match m with
  | StatusPaper => "paper"
  | StatusRealUserShadowSmoke => "real-user shadow smoke"
  | StatusLive => "live"
  end.
Definition readiness_label (r : StatusReadiness) : string :=
  match r with
  | PaperReady => "paper-ready" | DiscoveryRequired => "discovery-required"
  | DiscoveryReadyNotAdoptable => "discovery-ready-not-adoptable"
  | AdoptableReady => "adoptable-ready" | RestartRequired => "restart-required"
  | SmokeRolloutRequired => "smoke-rollout-required"
  | SmokeConfigReady => "smoke-config-ready"
  | LiveRolloutRequired => "live-rollout-required" | LiveConfigReady => "live-config-ready"
  | StatusBlocked => "blocked"
  end.
Definition rollout_state_label (s : StatusRolloutState) : string :=
  match s with RolloutRequired => "required" | RolloutReady => "ready" end.
Definition action_label (a : StatusAction) : string :=
  match a with
  | RunDiscover => "run discover"
  | InspectDiscoveryReasons => "inspect discovery reasons"
  | ChooseAndAdoptRevision => "choose and adopt an adoptable revision"
  | RunDoctor => "run doctor"
  | RunAppLiveApply => "run app-live apply"
  | PerformControlledRestart => "perform controlled restart"
  | RunAppLiveRun => "run app-live run"
  | FixBlockingIssueAndRerunStatus => "fix blocking issue and rerun status"
  | EnableSmokeRollout => "enable smoke rollout"
  | EnableLiveRollout => "enable live rollout"
  | MigrateLegacyExplicitTargets => "migrate legacy explicit targets"
  end.
Definition target_source_label (s : StatusTargetSource) : string :=
  match s with
  | StatusLegacyExplicitTargets => "legacy explicit targets"
  | StatusAdoptedTargets => "adopted targets"
  end.

(** [render_action_template_with_mode]: the command that is suggested. *)
Definition render_action_template_with_mode (action : StatusAction) (mode : option StatusMode) :
    string :=
  match action with
  | RunDiscover => "app-live discover --config {config}"
  | InspectDiscoveryReasons => "app-live targets candidates --config {config}"
  | ChooseAndAdoptRevision =>
      if bool_decide (mode = Some StatusRealUserShadowSmoke)
      then "app-live apply --config {config}" else "app-live targets adopt --config {config}"
  | RunAppLiveApply | EnableSmokeRollout => "app-live apply --config {config}"
  | RunAppLiveRun => "app-live run --config {config}"
  | RunDoctor => "app-live doctor --config {config}"
  | PerformControlledRestart => "perform controlled restart"
  | FixBlockingIssueAndRerunStatus =>
      "fix the blocking issue, then rerun app-live status --config {config}"
  | EnableLiveRollout =>
      "edit {config} and set [strategies.neg_risk.rollout].approved_scopes and " +:+
      "ready_scopes for adopted scopes"
  | MigrateLegacyExplicitTargets => "app-live targets adopt --config {config}"
  end.

Section status.
Context {X : Externals} {J : JsonOps} {P : PgOps} {U : UrlOps} {D : SerdeOps} {T : TomlOps}.
Context {E : ErrorText}.

Record StatusDetails := {
  sdt_configured_target : option string;
  sdt_active_target : option string;
  sdt_target_source : option StatusTargetSource;
  sdt_rollout_state : option StatusRolloutState;
  sdt_restart_needed : option bool;
  sdt_relevant_run_session_id : option string;
  sdt_relevant_run_state : option string;
  sdt_relevant_run_started_at : option DateTime;
  sdt_relevant_startup_target_revision : option string;
  sdt_conflicting_active_run_session_id : option string;
  sdt_conflicting_active_run_state : option string;
  sdt_conflicting_active_started_at : option DateTime;
  sdt_conflicting_active_startup_target_revision : option string;
  sdt_reason : option string;
}.

#[export] Instance StatusDetails_eta : Eta StatusDetails := λ d,
  {| sdt_configured_target := sdt_configured_target d; sdt_active_target := sdt_active_target d;
     sdt_target_source := sdt_target_source d; sdt_rollout_state := sdt_rollout_state d;
     sdt_restart_needed := sdt_restart_needed d;
     sdt_relevant_run_session_id := sdt_relevant_run_session_id d;
     sdt_relevant_run_state := sdt_relevant_run_state d;
     sdt_relevant_run_started_at := sdt_relevant_run_started_at d;
     sdt_relevant_startup_target_revision := sdt_relevant_startup_target_revision d;
     sdt_conflicting_active_run_session_id := sdt_conflicting_active_run_session_id d;
     sdt_conflicting_active_run_state := sdt_conflicting_active_run_state d;
     sdt_conflicting_active_started_at := sdt_conflicting_active_started_at d;
     sdt_conflicting_active_startup_target_revision :=
       sdt_conflicting_active_startup_target_revision d;
     sdt_reason := sdt_reason d |}.

Definition no_details : StatusDetails :=
  {| sdt_configured_target := None; sdt_active_target := None; sdt_target_source := None;
     sdt_rollout_state := None; sdt_restart_needed := None;
     sdt_relevant_run_session_id := None; sdt_relevant_run_state := None;
     sdt_relevant_run_started_at := None; sdt_relevant_startup_target_revision := None;
     sdt_conflicting_active_run_session_id := None; sdt_conflicting_active_run_state := None;
     sdt_conflicting_active_started_at := None;
     sdt_conflicting_active_startup_target_revision := None; sdt_reason := None |}.

Record StatusSummary := {
  ssm_mode : option StatusMode;
  ssm_readiness : StatusReadiness;
  ssm_details : StatusDetails;
  ssm_actions : list StatusAction;
}.

(** ** evaluate.rs *)

Definition live_or_smoke (smoke_mode : bool) : StatusMode :=
  if smoke_mode then StatusRealUserShadowSmoke else StatusLive.

Definition missing_neutral_adopted_strategy_revision (config : RawAxiomConfig) : bool :=
  has_adopted_strategy_source config && negb (has_target_source config) &&
  bool_decide (view_operator_strategy_revision config = None).

(** [database_url]: whether the variable is set. *)
Definition paper_summary (database_url : bool) : StatusSummary :=
  if database_url then
    {| ssm_mode := Some StatusPaper; ssm_readiness := PaperReady; ssm_details := no_details;
       ssm_actions := [RunAppLiveRun] |}
  else
    {| ssm_mode := Some StatusPaper; ssm_readiness := StatusBlocked;
       ssm_details := no_details <| sdt_reason :=
         Some "DATABASE_URL is required before paper run can start" |>;
       ssm_actions := [FixBlockingIssueAndRerunStatus] |}.

Definition blocked_summary (reason : string) : StatusSummary :=
  {| ssm_mode := None; ssm_readiness := StatusBlocked;
     ssm_details := no_details <| sdt_reason := Some reason |>;
     ssm_actions := [FixBlockingIssueAndRerunStatus] |}.

Definition legacy_explicit_targets_summary (smoke_mode : bool) : StatusSummary :=
  {| ssm_mode := Some (live_or_smoke smoke_mode); ssm_readiness := StatusBlocked;
     ssm_details := no_details
       <| sdt_target_source := Some StatusLegacyExplicitTargets |>
       <| sdt_reason := Some "migration required: legacy explicit targets require migration" |>;
     ssm_actions := [MigrateLegacyExplicitTargets] |}.

Definition legacy_explicit_targets_summary_from_raw (raw : RawAxiomConfig) :
    option StatusSummary :=
  if is_live raw && is_legacy_explicit_strategy_config raw
  then Some (legacy_explicit_targets_summary (real_user_shadow_smoke raw)) else None.

Definition pre_adoption_summary (mode : StatusMode) (state : TargetControlPlaneState)
    (summary : TargetCandidatesSummary) : StatusSummary :=
  let '(readiness, actions, reason) :=
    if bool_decide (0 < tcs_adoptable_revision_count summary)%nat then
      (AdoptableReady, [ChooseAndAdoptRevision],
       "adoptable revisions are available; recommended_adoptable_revision = " +:+
       default "unavailable" (tcs_recommended_adoptable_revision summary))
    else if bool_decide (0 < tcs_advisory_candidate_count summary)%nat then
      (DiscoveryReadyNotAdoptable, [InspectDiscoveryReasons],
       "discovery artifacts exist but no adoptable revisions were produced" +:+
       match tcs_non_adoptable_reasons summary with
       | [] => ""
       | reasons => "; reasons: " +:+ join "; " reasons
       end)
    else
      (DiscoveryRequired, [RunDiscover], "no persisted discovery artifacts exist yet") in
  {| ssm_mode := Some mode; ssm_readiness := readiness;
     ssm_details := no_details
       <| sdt_active_target := tcp_active_operator_strategy_revision state |>
       <| sdt_target_source := Some StatusAdoptedTargets |>
       <| sdt_restart_needed := tcp_restart_needed state |>
       <| sdt_reason := Some reason |>;
     ssm_actions := actions |}.

Definition rollout_covers_families (config : RawAxiomConfig) (family_ids : gset string) : bool :=
  match negrisk_rollout config with
  | None => false
  | Some rollout =>
      bool_decide (set_Forall (λ id, id ∈ rv_approved_families rollout ∧
                                     id ∈ rv_ready_families rollout) family_ids)
  end.

(** The conflicting session, unless it is the relevant one. *)
Definition shown_conflict (relevant conflicting : option RunSessionProjectedRow) :
    option RunSessionProjectedRow :=
  match relevant, conflicting with
  | Some r, Some c =>
      if bool_decide (run_run_session_id (rpr_row r) = run_run_session_id (rpr_row c))
      then None else Some c
  | _, _ => conflicting
  end.

Definition session_details (relevant conflicting : option RunSessionProjectedRow) :
    StatusDetails :=
  let conflicting := shown_conflict relevant conflicting in
  no_details
    <| sdt_relevant_run_session_id := run_run_session_id ∘ rpr_row <$> relevant |>
    <| sdt_relevant_run_state := rpr_state_label <$> relevant |>
    <| sdt_relevant_run_started_at := run_started_at ∘ rpr_row <$> relevant |>
    <| sdt_relevant_startup_target_revision :=
         run_startup_target_revision_at_start ∘ rpr_row <$> relevant |>
    <| sdt_conflicting_active_run_session_id := run_run_session_id ∘ rpr_row <$> conflicting |>
    <| sdt_conflicting_active_run_state := rpr_state_label <$> conflicting |>
    <| sdt_conflicting_active_started_at := run_started_at ∘ rpr_row <$> conflicting |>
    <| sdt_conflicting_active_startup_target_revision :=
         run_startup_target_revision_at_start ∘ rpr_row <$> conflicting |>.

(** *** An adopted source *)

Definition Evaluating : Type → Type := Pooled string.

Definition status_pool {A} (m : Pool A) : Evaluating A := from_repo persistence_text m.
Definition status_targeting {A} (m : Targeting A) : Evaluating A := map_pooled_err command_text m.
Definition status_starting {A} (m : Starting A) : Evaluating A :=
  map_pooled_err (startup_error_text persistence_text) m.

(** The control plane, and the active revision of a pure strategy configuration. *)
Definition status_control_plane (config : RawAxiomConfig) (file : option string) :
    Evaluating (TargetControlPlaneState * option string) :=
  if has_target_source config then
    state ← status_targeting (load_target_control_plane_state file);
    mret (state, None)
  else
    progress ← status_pool progress_current;
    let active := normalize_active_operator_strategy_revision
      (view_operator_strategy_revision config)
      (progress ← progress; rp_operator_target_revision progress)
      (progress ← progress; rp_operator_strategy_revision progress) in
    mret ({| tcp_configured_operator_strategy_revision := None;
             tcp_active_operator_strategy_revision := active; tcp_restart_needed := None;
             tcp_compatibility_mode := None; tcp_provenance := None;
             tcp_latest_action := None |}, active).

Definition status_configured_revision (config : RawAxiomConfig)
    (state : TargetControlPlaneState) : option string :=
  match tcp_configured_operator_strategy_revision state with
  | Some revision => Some revision
  | None => if has_target_source config then None else view_operator_strategy_revision config
  end.

Definition config_fingerprint (text : string) : string := hex_string (sha256 text).

Definition target_families (targets : ResolvedTargets) : gset string :=
  dom (ts_targets (rtg_targets targets) : gmap string NegRiskFamilyLiveTarget).

(** [stale_after] is five minutes. *)
Definition relevant_query (stale_after : Duration) (config : RawAxiomConfig)
    (config_path config_text configured_revision : string) (resolved : ResolvedTargets) :
    LatestRelevantRunSessionQuery :=
  {| lq_mode := "live"; lq_config_path := config_path;
     lq_config_fingerprint := config_fingerprint config_text;
     lq_configured_target :=
       if has_target_source config then Some configured_revision else None;
     lq_configured_strategy :=
       if has_target_source config then None else Some configured_revision;
     lq_startup_target_revision_at_start :=
       default (ts_revision (rtg_targets resolved)) (rtg_operator_target_revision resolved);
     lq_rollout_state := Some (if rollout_covers_families config (target_families resolved)
                               then "ready" else "required");
     lq_stale_after := stale_after |}.

Definition load_relevant (stale_after : Duration) (clock : DateTime)
    (q : LatestRelevantRunSessionQuery) : Evaluating (option RunSessionProjectedRow) :=
  relevant ← status_pool (latest_relevant q);
  match relevant with
  | Some row => status_pool (load_with_projected_state (run_run_session_id row) stale_after clock)
  | None => mret None
  end.

Definition load_conflicting (stale_after : Duration) (clock : DateTime) :
    Evaluating (option RunSessionProjectedRow) :=
  progress ← status_pool progress_current;
  match progress ← progress; rp_active_run_session_id progress with
  | Some id => status_pool (load_with_projected_state id stale_after clock)
  | None => mret None
  end.

Definition rollout_action (smoke_mode : bool) : StatusAction :=
  if smoke_mode then EnableSmokeRollout else EnableLiveRollout.

Definition restart_actions (rollout_ready smoke_mode : bool) : list StatusAction :=
  if rollout_ready && negb smoke_mode then [RunAppLiveApply]
  else (if rollout_ready then [] else [rollout_action smoke_mode]) ++ [PerformControlledRestart].

Definition config_readiness (rollout_ready smoke_mode : bool) :
    StatusReadiness * list StatusAction :=
  match rollout_ready, smoke_mode with
  | true, true => (SmokeConfigReady, [RunDoctor])
  | true, false => (LiveConfigReady, [RunAppLiveApply])
  | false, true => (SmokeRolloutRequired, [EnableSmokeRollout])
  | false, false => (LiveRolloutRequired, [EnableLiveRollout])
  end.

(** The summary of a configuration whose targets are resolved. *)
Definition resolved_summary (config : RawAxiomConfig) (smoke_mode : bool)
    (configured_revision : string) (active_revision : option string)
    (resolved : ResolvedTargets) (relevant conflicting : option RunSessionProjectedRow) :
    StatusSummary :=
  let family_ids := target_families resolved in
  if bool_decide (family_ids = ∅) then
    blocked_summary "resolved adopted target set did not contain any families"
  else
    let rollout_ready := rollout_covers_families config family_ids in
    let label := join ", " (sort_by str_cmp (elements family_ids)) in
    let rollout_reason :=
      if rollout_ready then "adopted families are covered by rollout: " +:+ label
      else "rollout must cover adopted families: " +:+ label in
    let restart_needed :=
      (active ← active_revision; Some (negb (bool_decide (active = configured_revision)))) in
    let details := session_details relevant conflicting
      <| sdt_configured_target := Some configured_revision |>
      <| sdt_active_target := active_revision |>
      <| sdt_target_source := Some StatusAdoptedTargets |>
      <| sdt_rollout_state :=
           Some (if rollout_ready then RolloutReady else RolloutRequired) |>
      <| sdt_restart_needed := restart_needed |> in
    if bool_decide (restart_needed = Some true) then
      {| ssm_mode := Some (live_or_smoke smoke_mode); ssm_readiness := RestartRequired;
         ssm_details := details <| sdt_reason := Some ("configured and active " +:+
           (if has_target_source config then "operator_target_revision"
            else "operator_strategy_revision") +:+ " differ; " +:+ rollout_reason) |>;
         ssm_actions := restart_actions rollout_ready smoke_mode |}
    else
      let '(readiness, actions) := config_readiness rollout_ready smoke_mode in
      {| ssm_mode := Some (live_or_smoke smoke_mode); ssm_readiness := readiness;
         ssm_details := details <| sdt_reason := Some rollout_reason |>;
         ssm_actions := actions |}.

Definition adopted_summary (connect : result PersistenceError ()) (stale_after : Duration)
    (relevant_clock conflicting_clock : DateTime) (config_path : string) (file : option string)
    (config : RawAxiomConfig) (smoke_mode : bool) : Evaluating StatusSummary :=
  _ ← pooled_of (map_err persistence_text connect);
  control ← status_control_plane config file;
  let '(state, active_strategy) := control in
  match status_configured_revision config state with
  | None =>
      catalog ← status_targeting load_target_candidates_catalog;
      mret (pre_adoption_summary (live_or_smoke smoke_mode) state
              (summarize_target_candidates catalog))
  | Some configured_revision =>
      text ← pooled_of (ok_or file (file_text (FileSchema ConfigIo)));
      resolved ← status_starting (resolve_startup_targets config);
      relevant ← load_relevant stale_after relevant_clock
                   (relevant_query stale_after config config_path text configured_revision
                      resolved);
      conflicting ← load_conflicting stale_after conflicting_clock;
      let active_revision :=
        if has_target_source config then tcp_active_operator_strategy_revision state
        else match active_strategy with
             | Some revision => Some revision
             | None => tcp_active_operator_strategy_revision state
             end in
      mret (resolved_summary config smoke_mode configured_revision active_revision resolved
              relevant conflicting)
  end.

(** [evaluate] never fails: an error is a blocked summary. *)
Definition or_blocked (m : Evaluating StatusSummary) : Evaluating StatusSummary := λ env st,
  let '(st, r) := m env st in
  (st, match r with Err (Halted reason) => Ok (blocked_summary reason) | r => r end).

Definition evaluate_live (connect : result PersistenceError ()) (stale_after : Duration)
    (relevant_clock conflicting_clock : DateTime) (config_path : string) (file : option string)
    (config : RawAxiomConfig) : Evaluating StatusSummary :=
  let smoke_mode := real_user_shadow_smoke config in
  if missing_neutral_adopted_strategy_revision config then
    mret (blocked_summary "missing strategy_control.operator_strategy_revision")
  else if has_adopted_strategy_source config then
    or_blocked (adopted_summary connect stale_after relevant_clock conflicting_clock config_path
                  file config smoke_mode)
  else if is_legacy_explicit_strategy_config config then
    mret (legacy_explicit_targets_summary smoke_mode)
  else mret (blocked_summary "high-level status requires an adopted target source").

Definition status_evaluate (connect : result PersistenceError ()) (database_url : bool)
    (stale_after : Duration) (relevant_clock conflicting_clock : DateTime)
    (config_path : string) (file : option string) : Evaluating StatusSummary :=
  match load_raw_config_from_path file with
  | Err error => mret (blocked_summary (schema_text error))
  | Ok raw =>
      match legacy_explicit_targets_summary_from_raw raw with
      | Some summary => mret summary
      | None =>
          match (validated ← validated_config_new raw; for_app_live validated) with
          | Err error => mret (blocked_summary (schema_text error))
          | Ok config =>
              match rt_mode (rc_runtime config) with
              | ModePaper => mret (paper_summary database_url)
              | ModeLive => evaluate_live connect stale_after relevant_clock conflicting_clock
                              config_path file config
              end
          end
      end
  end.

(** ** run_session.rs *)

Record StartupRevisionSnapshot := {
  srs_target_source_kind : string;
  srs_startup_target_revision_at_start : string;
  srs_configured_operator_target_revision : option string;
  srs_active_operator_target_revision_at_start : option string;
  srs_configured_operator_strategy_revision : option string;
  srs_active_operator_strategy_revision_at_start : option string;
}.

Inductive SnapshotError := SnapshotConfig (e : ConfigError) | SnapshotInput (message : string).

Definition startup_snapshot_target_source (config : RawAxiomConfig) :
    result SnapshotError (string * string * option string) :=
  if is_paper config then Ok ("explicit", "paper-runtime", None)
  else if has_adopted_strategy_source config then
    let configured_target :=
      (source ← raw_target_source config;
       if target_source_is_adopted source then nts_operator_target_revision source else None) in
    startup_revision ← ok_or
      (match configured_target with
       | Some revision => Some revision
       | None => view_operator_strategy_revision config
       end)
      (SnapshotInput "adopted run session snapshot requires operator_strategy_revision");
    Ok ("adopted", startup_revision, configured_target)
  else
    targets ← map_err SnapshotConfig (target_set_try_from config);
    Ok ("explicit", ts_revision targets, None).

Definition startup_revision_snapshot (config : RawAxiomConfig)
    (active_progress : option RuntimeProgressRow) :
    result SnapshotError StartupRevisionSnapshot :=
  source ← startup_snapshot_target_source config;
  let '(kind, startup_revision, configured_target) := source in
  Ok {| srs_target_source_kind := kind;
        srs_startup_target_revision_at_start := startup_revision;
        srs_configured_operator_target_revision := configured_target;
        srs_active_operator_target_revision_at_start :=
          (row ← active_progress; rp_operator_target_revision row);
        srs_configured_operator_strategy_revision :=
          if has_target_source config then None else view_operator_strategy_revision config;
        srs_active_operator_strategy_revision_at_start :=
          (row ← active_progress; rp_operator_strategy_revision row) |}.

Definition rollout_state_at_start (config : RawAxiomConfig) : option string :=
  if is_paper config then None
  else
    match negrisk_rollout config with
    | None => Some "required"
    | Some rollout =>
        Some (if existsb (λ family, bool_decide (family ∈ rv_ready_families rollout))
                   (rv_approved_families rollout) then "ready" else "required")
    end.

(** The hash of the path, the command, the process id and the nanoseconds of the start. *)
Definition new_run_session_id (config_path invoked_by : string) (process_id nanos : Z) :
    string :=
  "run-session-" +:+
  hex_string (sha256 (config_path +:+ invoked_by +:+ pretty process_id +:+ pretty nanos)).

Definition build_starting_row (config_path config_text invoked_by : string)
    (process_id nanos : Z) (config : RawAxiomConfig) (active_progress : option RuntimeProgressRow)
    (started_at : DateTime) : result SnapshotError RunSessionRow :=
  snapshot ← startup_revision_snapshot config active_progress;
  Ok {| run_run_session_id := new_run_session_id config_path invoked_by process_id nanos;
        run_invoked_by := invoked_by;
        run_mode := match rt_mode (rc_runtime config) with
                    | ModePaper => "paper" | ModeLive => "live"
                    end;
        run_state := SessionStarting; run_started_at := started_at;
        run_last_seen_at := started_at; run_ended_at := None; run_exit_status := None;
        run_exit_reason := None; run_config_path := config_path;
        run_config_fingerprint := config_fingerprint config_text;
        run_target_source_kind := srs_target_source_kind snapshot;
        run_startup_target_revision_at_start := srs_startup_target_revision_at_start snapshot;
        run_configured_operator_target_revision :=
          srs_configured_operator_target_revision snapshot;
        run_active_operator_target_revision_at_start :=
          srs_active_operator_target_revision_at_start snapshot;
        run_configured_operator_strategy_revision :=
          srs_configured_operator_strategy_revision snapshot;
        run_active_operator_strategy_revision_at_start :=
          srs_active_operator_strategy_revision_at_start snapshot;
        run_rollout_state_at_start := rollout_state_at_start config;
        run_real_user_shadow_smoke := real_user_shadow_smoke config |}.

(** *** RunSessionHandle

    Each operation connects and makes one call of the repository. *)
Inductive RunSessionError :=
| RunSessionPersistence (e : PersistenceError)
| RunSessionSnapshot (e : SnapshotError)
| RunSessionIo.

Definition with_pool {A} (connect : result PersistenceError ()) (m : Pool A) :
    Pooled RunSessionError A :=
  _ ← pooled_of (map_err RunSessionPersistence connect);
  from_repo RunSessionPersistence m.

Definition load_active_runtime_progress_at_start (connect : result PersistenceError ()) :
    Pooled RunSessionError (option RuntimeProgressRow) := with_pool connect progress_current.

(** The id of the session. *)
Definition handle_create_starting (connect : result PersistenceError ())
    (config_path invoked_by : string) (file : option string) (process_id nanos : Z)
    (config : RawAxiomConfig) (started_at : DateTime) : Pooled RunSessionError string :=
  text ← pooled_of (ok_or file RunSessionIo);
  progress ← load_active_runtime_progress_at_start connect;
  row ← pooled_of (map_err RunSessionSnapshot
          (build_starting_row config_path text invoked_by process_id nanos config progress
             started_at));
  _ ← with_pool connect (create_starting row);
  mret (run_run_session_id row).

Definition handle_mark_running (connect : result PersistenceError ()) (id : string)
    (seen_at : DateTime) : Pooled RunSessionError () := with_pool connect (mark_running id seen_at).
Definition handle_refresh_last_seen (connect : result PersistenceError ()) (id : string)
    (seen_at : DateTime) : Pooled RunSessionError () :=
  with_pool connect (refresh_last_seen id seen_at).
Definition handle_mark_exited (connect : result PersistenceError ()) (id : string)
    (ended_at : DateTime) : Pooled RunSessionError () :=
  with_pool connect (mark_exited id ended_at "success" None).
Definition handle_mark_failed (connect : result PersistenceError ()) (id reason : string)
    (ended_at : DateTime) : Pooled RunSessionError () :=
  with_pool connect (mark_failed id ended_at reason).
End status.
