(* ===== verification/ControlProofs.v ===== *)
(** * Theorems about the control plane

    What an operator adopts is what the next start runs, and what a rollback undoes. The
    commands run undisturbed here: no other session commits while they do. *)

From S2P Require Import Prelude Text RecordSet Externals Json Domain LiveRecords Discovery Rows.
From S2P Require Import AppConfig Schema RepoJournal RepoControl RepoInvariants RepoHistory StoreProofs.
From S2P Require Import Config Validation ConfigFile ConfigProofs ConfigRewrite Command Startup.
From S2P Require Import RepoSessions Targets Migration Adoption Status.

#[local] Arguments set : simpl never.

(** ** Undisturbed runs, step by step *)

Section inversion.
Context {X : Externals}.

Definition goes {E A} (m : Pooled E A) (now : DateTime) (n : nat) (db : Db) (n' : nat)
    (db' : Db) (r : result (Halt E) A) : Prop := m (quiet now) (n, db) = ((n', db'), r).

Lemma goes_bind {E A B} (m : Pooled E A) (f : A → Pooled E B) now n db n' db' b :
  goes (m ≫= f) now n db n' db' (Ok b) →
  ∃ n1 db1 a, goes m now n db n1 db1 (Ok a) ∧ goes (f a) now n1 db1 n' db' (Ok b).
Proof.
  unfold goes, mbind, pooled_bind. destruct (m (quiet now) (n, db)) as [[n1 db1] [a|e]] eqn:E1.
  - eauto 10.
  - done.
Qed.

Lemma goes_runs {E A} (m : Pooled E A) now n db n1 db1 r db2 r2 :
  goes m now n db n1 db1 r → runs m now db db2 r2 → db1 = db2 ∧ r = r2.
Proof. unfold goes. intros H Hr. destruct (Hr n) as [n' E1]. split; congruence. Qed.

Lemma runs_goes {E A} (m : Pooled E A) now db db' r :
  runs m now db db' r → ∃ n', goes m now 0 db n' db' r.
Proof. intros H. apply H. Qed.

Lemma goes_of {E A} (r : result E A) now n db n' db' a :
  goes (pooled_of r) now n db n' db' (Ok a) → db' = db ∧ r = Ok a.
Proof. unfold goes, pooled_of. destruct r; simpl; intros; simplify_eq; done. Qed.

Lemma goes_ret {E A} (a b : A) now n db n' db' :
  goes (mret a : Pooled E A) now n db n' db' (Ok b) → db' = db ∧ b = a.
Proof. unfold goes. intros [= <- <- <-]. done. Qed.

Lemma goes_fail {E A} (e : E) now n db n' db' (a : A) :
  goes (pooled_fail e) now n db n' db' (Ok a) → False.
Proof. unfold goes, pooled_fail. done. Qed.
End inversion.

(** ** What the repositories show *)

Section views.
Context {X : Externals} {J : JsonOps} {P : PgOps} {U : UrlOps} {D : SerdeOps} {T : TomlOps}.

Definition adoptable_view (db : Db) (k : string) : option AdoptableStrategyRevisionRow :=
  match db_adoptable_strategy_revisions db !! k with
  | Some r => Some r
  | None => legacy_adoptable <$> db_adoptable_target_revisions db !! k
  end.

Definition candidate_view (db : Db) (k : string) : option StrategyCandidateSetRow :=
  match db_strategy_candidate_sets db !! k with
  | Some r => Some r
  | None => legacy_candidate_set <$> db_candidate_target_sets db !! k
  end.

Lemma runs_two_tables {R} (f g : Db → option R) now db :
  runs (r ← stmt (query f); match r with Some r => mret (Some r) | None => stmt (query g) end)
    now db db (Ok (match f db with Some r => Some r | None => g db end)).
Proof.
  eapply runs_bind; [apply runs_query|]. destruct (f db); [apply runs_ret|apply runs_query].
Qed.

Lemma runs_get_adoptable k now db :
  runs (get_adoptable_strategy_revision k) now db db (Ok (adoptable_view db k)).
Proof.
  apply (runs_two_tables (λ db, db_adoptable_strategy_revisions db !! k)
           (λ db, legacy_adoptable <$> db_adoptable_target_revisions db !! k)).
Qed.
Lemma runs_get_candidate k now db :
  runs (get_strategy_candidate_set k) now db db (Ok (candidate_view db k)).
Proof.
  apply (runs_two_tables (λ db, db_strategy_candidate_sets db !! k)
           (λ db, legacy_candidate_set <$> db_candidate_target_sets db !! k)).
Qed.

(** The provenance of a revision; an error when its link is broken. *)
Definition provenance_view (db : Db) (k : string) :
    result Stop (option StrategyAdoptionProvenanceRow) :=
  match joined_strategy_provenance db k with
  | Some row => Ok (Some row)
  | None =>
      if bool_decide (db_strategy_provenance db !! k ≠ None)
      then Err (Fails (MissingStrategyAdoptionLink k))
      else
        match joined_candidate_provenance db k with
        | Some row => Ok (Some (legacy_provenance row))
        | None =>
            if bool_decide (db_candidate_provenance db !! k ≠ None)
            then Err (Fails (MissingStrategyAdoptionLink k)) else Ok None
        end
  end.

Lemma runs_get_provenance k now db :
  runs (get_by_operator_strategy_revision k) now db db (provenance_view db k).
Proof.
  unfold get_by_operator_strategy_revision, provenance_view.
  eapply runs_bind; [apply runs_query|].
  destruct (joined_strategy_provenance db k) as [row|]; [apply runs_ret|].
  eapply runs_bind; [apply runs_query|]. simpl.
  destruct (bool_decide (db_strategy_provenance db !! k ≠ None)); [apply runs_fail|].
  eapply runs_bind; [apply runs_query|].
  destruct (joined_candidate_provenance db k) as [row|]; [apply runs_ret|].
  eapply runs_bind; [apply runs_query|]. simpl.
  destruct (bool_decide (db_candidate_provenance db !! k ≠ None)); [apply runs_fail|apply runs_ret].
Qed.

(** Rows carry the key they are found under. *)
Lemma adoptable_view_key db k a :
  db_wf db → adoptable_view db k = Some a → asr_adoptable_strategy_revision a = k.
Proof.
  intros Hw. unfold adoptable_view.
  destruct (db_adoptable_strategy_revisions db !! k) as [r|] eqn:E.
  - intros [= ->]. by destruct (wf_strategy_adoptables _ Hw k a E).
  - destruct (db_adoptable_target_revisions db !! k) as [r|] eqn:E2; [|done].
    intros [= <-]. by destruct (wf_adoptables _ Hw k r E2).
Qed.
Lemma candidate_view_key db k c :
  db_wf db → candidate_view db k = Some c → scr_strategy_candidate_revision c = k.
Proof.
  intros Hw. unfold candidate_view.
  destruct (db_strategy_candidate_sets db !! k) as [r|] eqn:E.
  - intros [= ->]. by apply (wf_strategy_candidates _ Hw k c E).
  - destruct (db_candidate_target_sets db !! k) as [r|] eqn:E2; [|done].
    intros [= <-]. by apply (wf_candidates _ Hw k r E2).
Qed.

(** ** What is selected *)

(** What a selection stands for: an adoptable revision that is stored with its candidate,
    renders the revision that is selected, and has a payload that can be run. *)
Record selected (db : Db) (s : ResolvedStrategyAdoptionSelection) (k : string)
    (a : AdoptableStrategyRevisionRow) (c : StrategyCandidateSetRow) : Prop := {
  sel_adoptable : ras_adoptable_revision s = Some k;
  sel_row : adoptable_view db k = Some a;
  sel_candidate : candidate_view db (asr_strategy_candidate_revision a) = Some c;
  sel_rendered : asr_rendered_operator_strategy_revision a = ras_operator_strategy_revision s;
  sel_payload :
    validate_strategy_payload (asr_payload a) (ras_operator_strategy_revision s) = Ok ();
}.

Lemma runs_boxed {A} (m : Pool A) now db db' a :
  runs m now db db' (Ok a) → runs (boxed m) now db db' (Ok a).
Proof. apply runs_from_repo_ok. Qed.

Lemma goes_message {A} (o : option A) message now n db n' db' a :
  goes (message_or o message) now n db n' db' (Ok a) → db' = db ∧ o = Some a.
Proof.
  intros [-> H]%goes_of. split; [done|]. destruct o; simpl in H; congruence.
Qed.

Lemma goes_adoptable k now n db n' db' r :
  goes (boxed (get_adoptable_strategy_revision k)) now n db n' db' r →
  db' = db ∧ r = Ok (adoptable_view db k).
Proof.
  intros H. destruct (goes_runs _ _ _ _ _ _ _ _ _ H (runs_boxed _ _ _ _ _ (runs_get_adoptable k now db))).
  done.
Qed.
Lemma goes_candidate k now n db n' db' r :
  goes (boxed (get_strategy_candidate_set k)) now n db n' db' r →
  db' = db ∧ r = Ok (candidate_view db k).
Proof.
  intros H. destruct (goes_runs _ _ _ _ _ _ _ _ _ H (runs_boxed _ _ _ _ _ (runs_get_candidate k now db))).
  done.
Qed.
Lemma goes_query {A} (f : Db → A) now n db n' db' r :
  goes (boxed (stmt (query f))) now n db n' db' r → db' = db ∧ r = Ok (f db).
Proof.
  intros H. destruct (goes_runs _ _ _ _ _ _ _ _ _ H (runs_boxed _ _ _ _ _ (runs_query f now db))).
  done.
Qed.
Lemma goes_provenance k now n db n' db' r :
  goes (boxed (get_by_operator_strategy_revision k)) now n db n' db' r → db' = db.
Proof.
  intros H. by destruct (goes_runs _ _ _ _ _ _ _ _ _ H
    (runs_from_repo CommandPersistence _ _ _ _ _ (runs_get_provenance k now db))).
Qed.

(** Takes a run of a sequence apart. *)
Ltac goes_step := match goal with
  | H : goes (_ ≫= _) _ _ _ _ _ (Ok _) |- _ =>
      let n := fresh "n" in let d := fresh "d" in let a := fresh "a" in let H1 := fresh "H" in
      apply goes_bind in H as (n & d & a & H1 & H)
  | H : goes (pooled_fail _) _ _ _ _ _ (Ok _) |- _ => by apply goes_fail in H
  | H : goes (mret _) _ _ _ _ _ (Ok _) |- _ => apply goes_ret in H as [-> H]
  | H : goes (message_or _ _) _ _ _ _ _ (Ok _) |- _ => apply goes_message in H as [-> H]
  | H : goes (pooled_of _) _ _ _ _ _ (Ok _) |- _ => apply goes_of in H as [-> H]
  | H : goes (boxed (get_adoptable_strategy_revision _)) _ _ _ _ _ _ |- _ =>
      apply goes_adoptable in H as [-> [= ->]]
  | H : goes (boxed (get_strategy_candidate_set _)) _ _ _ _ _ _ |- _ =>
      apply goes_candidate in H as [-> [= ->]]
  | H : goes (boxed (stmt (query _))) _ _ _ _ _ _ |- _ => apply goes_query in H as [-> [= ->]]
  | H : goes (boxed (get_by_operator_strategy_revision _)) _ _ _ _ _ _ |- _ =>
      apply goes_provenance in H as ->
  end.

Lemma lineage_selected operator adoptable candidate now n db n' db' s :
  goes (selection_from_lineage operator adoptable candidate) now n db n' db' (Ok s) →
  db' = db ∧ ∃ a c, selected db s adoptable a c.
Proof.
  unfold selection_from_lineage. intros H. repeat goes_step.
  destruct (_ || _) eqn:E; [by apply goes_fail in H|]. apply orb_false_iff in E as [E1 E2].
  apply bool_decide_eq_false in E1, E2. repeat goes_step. subst. split; [done|].
  apply dec_stable in E1, E2. subst.
  match goal with u : unit |- _ => destruct u end. eexists _, _. by split.
Qed.

Lemma selection_selected op ad now db db' s :
  db_wf db → runs (resolve_adoption_selection op ad) now db db' (Ok s) →
  db' = db ∧ ∃ k a c, selected db s k a c.
Proof.
  intros Hw Hr. apply runs_goes in Hr as [n' H]. unfold resolve_adoption_selection in H.
  destruct op as [op|], ad as [ad|]; [by apply goes_fail in H| | |by apply goes_fail in H].
  - unfold adopt_by_operator_revision in H. repeat goes_step. destruct a as [p|].
    + apply lineage_selected in H as (-> & a & c & H). eauto.
    + unfold latest_history_lineage in H. repeat goes_step.
      match goal with o : option (string * string) |- _ => destruct o as [[adoptable candidate]|] end;
        [|by apply goes_fail in H].
      apply lineage_selected in H as (-> & a' & c & H). eauto.
  - unfold adopt_by_adoptable_revision in H. repeat goes_step. subst. split; [done|].
    match goal with u : unit |- _ => destruct u end. eexists ad, _, _. split; simpl; try done.
    by rewrite (adoptable_view_key db ad _ Hw).
Qed.

(** ** What is written *)

(** A row that is copied into the table it may already be in. *)
Lemma runs_materialize {F R} `{EqDecision R} (wrap : PersistenceError → F) (fail : string → F)
    (exists_ : Db → bool) (ins : Insert) (get : Db → option R) (row : R) kind revision lineage
    now db db' :
  (if exists_ db then db' = db else ins now db = (db', Ok (Ok ()))) → get db' = Some row →
  runs (materialize wrap fail exists_ ins get row kind revision lineage) now db db' (Ok ()).
Proof.
  intros Hi Hg. unfold materialize. eapply runs_pooled_bind.
  { apply runs_from_repo_ok, runs_stmt. instantiate (1 := ()). instantiate (1 := db').
    unfold sqlx_ok, insert_on_conflict_do_nothing, mbind, tx_bind.
    destruct (exists_ db); by rewrite Hi. }
  eapply runs_pooled_bind; [apply runs_from_repo_ok, runs_query|]. rewrite Hg.
  eapply runs_pooled_bind; [apply (runs_pooled_of (Ok row))|]. rewrite decide_True by done.
  apply runs_pooled_ret.
Qed.

(** The strategy tables with the rows of a lineage in them. *)
Definition with_candidate (c : StrategyCandidateSetRow) (db : Db) : Db :=
  db <| db_strategy_candidate_sets ::= insert (scr_strategy_candidate_revision c) c |>.
Definition with_adoptable (a : AdoptableStrategyRevisionRow) (db : Db) : Db :=
  db <| db_adoptable_strategy_revisions ::= insert (asr_adoptable_strategy_revision a) a |>.
Definition with_provenance (p : StrategyAdoptionProvenanceRow) (db : Db) : Db :=
  db <| db_strategy_provenance ::= insert (sap_operator_strategy_revision p) p |>.

Lemma with_candidate_id c db :
  db_strategy_candidate_sets db !! scr_strategy_candidate_revision c = Some c →
  with_candidate c db = db.
Proof. intros H. unfold with_candidate, set. simpl. rewrite insert_id by done. by destruct db. Qed.
Lemma with_adoptable_id a db :
  db_adoptable_strategy_revisions db !! asr_adoptable_strategy_revision a = Some a →
  with_adoptable a db = db.
Proof. intros H. unfold with_adoptable, set. simpl. rewrite insert_id by done. by destruct db. Qed.

Lemma runs_materialize_candidate {F} (wrap : PersistenceError → F) fail lineage c now db :
  candidate_view db (scr_strategy_candidate_revision c) = Some c →
  runs (materialize_strategy_candidate_set wrap fail lineage c) now db (with_candidate c db)
    (Ok ()).
Proof.
  unfold candidate_view. intros Hv. apply runs_materialize.
  - unfold load_materialized_strategy_candidate_set, insert_strategy_candidate_set.
    destruct (db_strategy_candidate_sets db !! scr_strategy_candidate_revision c) as [r|] eqn:E.
    + simplify_eq. rewrite bool_decide_eq_true_2 by (by eexists). by apply with_candidate_id.
    + rewrite bool_decide_eq_false_2 by (by intros [? ?]).
      by rewrite bool_decide_eq_false_2 by (intros H; by apply H).
  - unfold load_materialized_strategy_candidate_set, with_candidate. simpl. unfold set. simpl.
    by rewrite lookup_insert_eq.
Qed.

Lemma runs_materialize_adoptable {F} (wrap : PersistenceError → F) fail lineage a now db :
  adoptable_view db (asr_adoptable_strategy_revision a) = Some a →
  is_Some (db_strategy_candidate_sets db !! asr_strategy_candidate_revision a) →
  runs (materialize_adoptable_strategy_revision wrap fail lineage a) now db (with_adoptable a db)
    (Ok ()).
Proof.
  unfold adoptable_view. intros Hv Hc. apply runs_materialize.
  - unfold load_materialized_adoptable_strategy_revision, insert_adoptable_strategy_revision.
    destruct (db_adoptable_strategy_revisions db !! asr_adoptable_strategy_revision a) as [r|] eqn:E.
    + simplify_eq. rewrite bool_decide_eq_true_2 by (by eexists). by apply with_adoptable_id.
    + rewrite bool_decide_eq_false_2 by (by intros [? ?]).
      rewrite bool_decide_eq_false_2 by (intros H; by apply H).
      by rewrite bool_decide_eq_false_2 by (intros H; rewrite H in Hc; by destruct Hc).
  - unfold load_materialized_adoptable_strategy_revision, with_adoptable. simpl. unfold set. simpl.
    by rewrite lookup_insert_eq.
Qed.

(** Both tables have the rows of the lineage afterwards, and nothing else is different. *)
Lemma runs_ensure_lineage db s k a c now :
  db_wf db → selected db s k a c →
  runs (ensure_strategy_artifact_lineage k) now db (with_adoptable a (with_candidate c db)) (Ok ()).
Proof.
  intros Hw Hs. pose proof (adoptable_view_key _ _ _ Hw (sel_row _ _ _ _ _ Hs)) as Hk.
  pose proof (candidate_view_key _ _ _ Hw (sel_candidate _ _ _ _ _ Hs)) as Hc.
  unfold ensure_strategy_artifact_lineage.
  eapply runs_pooled_bind; [apply runs_boxed, runs_get_adoptable|].
  rewrite (sel_row _ _ _ _ _ Hs).
  eapply runs_pooled_bind; [apply (runs_pooled_of (Ok a))|]. simpl.
  eapply runs_pooled_bind; [apply runs_boxed, runs_get_candidate|].
  rewrite (sel_candidate _ _ _ _ _ Hs).
  eapply runs_pooled_bind; [apply (runs_pooled_of (Ok c))|]. simpl.
  eapply runs_pooled_bind.
  - apply runs_materialize_candidate. rewrite Hc. apply (sel_candidate _ _ _ _ _ Hs).
  - apply runs_materialize_adoptable.
    + rewrite Hk. apply (sel_row _ _ _ _ _ Hs).
    + unfold with_candidate, set. simpl. rewrite <- Hc, lookup_insert_eq. by eexists.
Qed.

(** *** The provenance of the selection *)

Definition lineage_db (a : AdoptableStrategyRevisionRow) (c : StrategyCandidateSetRow) (db : Db) :
    Db := with_adoptable a (with_candidate c db).

Lemma lineage_adoptables db s k a c k' r :
  db_wf db → selected db s k a c → db_adoptable_strategy_revisions db !! k' = Some r →
  db_adoptable_strategy_revisions (lineage_db a c db) !! k' = Some r.
Proof.
  intros Hw Hs Hr. unfold lineage_db, with_adoptable, with_candidate, set. simpl.
  pose proof (adoptable_view_key _ _ _ Hw (sel_row _ _ _ _ _ Hs)) as ->.
  destruct (decide (k = k')) as [->|]; [|by rewrite lookup_insert_ne].
  rewrite lookup_insert_eq. pose proof (sel_row _ _ _ _ _ Hs) as Hv. unfold adoptable_view in Hv.
  rewrite Hr in Hv. congruence.
Qed.
Lemma lineage_candidates db s k a c k' r :
  db_wf db → selected db s k a c → db_strategy_candidate_sets db !! k' = Some r →
  db_strategy_candidate_sets (lineage_db a c db) !! k' = Some r.
Proof.
  intros Hw Hs Hr. unfold lineage_db, with_adoptable, with_candidate, set. simpl.
  pose proof (sel_candidate _ _ _ _ _ Hs) as Hv.
  pose proof (candidate_view_key _ _ _ Hw Hv) as Hk. rewrite Hk.
  destruct (decide (asr_strategy_candidate_revision a = k')) as [<-|];
    [|by rewrite lookup_insert_ne].
  rewrite lookup_insert_eq. unfold candidate_view in Hv. rewrite Hr in Hv. congruence.
Qed.

Lemma lineage_row db s k a c :
  db_wf db → selected db s k a c →
  db_adoptable_strategy_revisions (lineage_db a c db) !! k = Some a ∧
  db_strategy_candidate_sets (lineage_db a c db) !! asr_strategy_candidate_revision a = Some c.
Proof.
  intros Hw Hs. pose proof (adoptable_view_key _ _ _ Hw (sel_row _ _ _ _ _ Hs)) as Hk.
  pose proof (candidate_view_key _ _ _ Hw (sel_candidate _ _ _ _ _ Hs)) as Hc.
  unfold lineage_db, with_adoptable, with_candidate, set. simpl. rewrite Hk, Hc.
  by rewrite !lookup_insert_eq.
Qed.

Lemma lineage_provenance db s k a c rev o :
  db_wf db → selected db s k a c → provenance_view db rev = Ok o →
  provenance_view (lineage_db a c db) rev = Ok o.
Proof.
  intros Hw Hs. unfold provenance_view.
  change (db_strategy_provenance (lineage_db a c db)) with (db_strategy_provenance db).
  change (db_candidate_provenance (lineage_db a c db)) with (db_candidate_provenance db).
  change (joined_candidate_provenance (lineage_db a c db) rev)
    with (joined_candidate_provenance db rev).
  unfold joined_strategy_provenance.
  change (db_strategy_provenance (lineage_db a c db)) with (db_strategy_provenance db).
  destruct (db_strategy_provenance db !! rev) as [p|]; cbn [mbind option_bind]; [|done].
  destruct (db_adoptable_strategy_revisions db !! _) as [a'|] eqn:Ea; cbn [mbind option_bind];
    [|done].
  rewrite (lineage_adoptables _ _ _ _ _ _ _ Hw Hs Ea). cbn [mbind option_bind].
  destruct (db_strategy_candidate_sets db !! _) as [c'|] eqn:Ec; cbn [mbind option_bind]; [|done].
  by rewrite (lineage_candidates _ _ _ _ _ _ _ Hw Hs Ec).
Qed.

Definition selection_provenance (s : ResolvedStrategyAdoptionSelection)
    (a : AdoptableStrategyRevisionRow) : StrategyAdoptionProvenanceRow :=
  {| sap_operator_strategy_revision := ras_operator_strategy_revision s;
     sap_adoptable_strategy_revision := asr_adoptable_strategy_revision a;
     sap_strategy_candidate_revision := asr_strategy_candidate_revision a |}.

(** The database after the provenance was ensured. *)
Definition adopted_db (s : ResolvedStrategyAdoptionSelection) (a : AdoptableStrategyRevisionRow)
    (c : StrategyCandidateSetRow) (existing : option StrategyAdoptionProvenanceRow) (db : Db) : Db :=
  match existing with
  | Some _ => lineage_db a c db
  | None => with_provenance (selection_provenance s a) (lineage_db a c db)
  end.

Lemma runs_ensure_canonical db s k a c o now :
  db_wf db → selected db s k a c →
  provenance_view db (ras_operator_strategy_revision s) = Ok o →
  runs (ensure_canonical_provenance s) now db (adopted_db s a c o db) (Ok ()).
Proof.
  intros Hw Hs Ho. unfold ensure_canonical_provenance. rewrite (sel_adoptable _ _ _ _ _ Hs).
  pose proof (lineage_provenance _ _ _ _ _ _ _ Hw Hs Ho) as Hp.
  destruct (lineage_row _ _ _ _ _ Hw Hs) as [Ha _].
  pose proof (adoptable_view_key _ _ _ Hw (sel_row _ _ _ _ _ Hs)) as Hk.
  eapply runs_pooled_bind; [by eapply runs_ensure_lineage|]. fold (lineage_db a c db).
  eapply runs_pooled_bind; [apply runs_boxed, runs_get_adoptable|].
  assert (adoptable_view (lineage_db a c db) k = Some a) as -> by (unfold adoptable_view; by rewrite Ha).
  eapply runs_pooled_bind; [apply (runs_pooled_of (Ok a))|]. cbv zeta.
  eapply runs_pooled_bind; [apply runs_boxed; rewrite <- Hp; apply runs_get_provenance|].
  destruct o as [p|]; simpl; [apply runs_pooled_ret|]. apply runs_boxed.
  fold (selection_provenance s a). unfold strategy_upsert_provenance, upsert_once. simpl.
  eapply runs_bind; [rewrite <- Hp; apply runs_get_provenance|]. cbn iota.
  eapply runs_bind; [apply runs_stmt|].
  - unfold insert_strategy_provenance.
    assert (db_strategy_provenance (lineage_db a c db) !! ras_operator_strategy_revision s = None)
      as Hn.
    { revert Hp. unfold provenance_view.
      destruct (joined_strategy_provenance _ _); [done|]. case_bool_decide as E; [done|].
      intros _. destruct (_ !! _); [by destruct E|done]. }
    simpl sap_operator_strategy_revision. rewrite Hn. simpl. unfold adoptable_of_strategy_candidate. rewrite Hk, Ha.
    rewrite bool_decide_eq_true_2 by done. simpl. reflexivity.
  - apply runs_ret.
Qed.

(** What a start finds for the revision that was adopted. *)
Lemma adopted_lineage db s k a c o :
  db_wf db → selected db s k a c →
  provenance_view db (ras_operator_strategy_revision s) = Ok o →
  (∀ p, o = Some p → sap_adoptable_strategy_revision p = k) →
  ∃ p, provenance_view (adopted_db s a c o db) (ras_operator_strategy_revision s) = Ok (Some p) ∧
       sap_adoptable_strategy_revision p = k ∧
       adoptable_view (adopted_db s a c o db) k = Some a.
Proof.
  intros Hw Hs Ho Hk. destruct (lineage_row _ _ _ _ _ Hw Hs) as [Ha Hc].
  pose proof (adoptable_view_key _ _ _ Hw (sel_row _ _ _ _ _ Hs)) as Hka.
  destruct o as [p|]; simpl.
  - exists p. split_and!; [by eapply lineage_provenance|by apply Hk|].
    unfold adoptable_view. by rewrite Ha.
  - exists (selection_provenance s a). split_and!; [|done|].
    + unfold provenance_view.
      assert (joined_strategy_provenance (with_provenance (selection_provenance s a)
        (lineage_db a c db)) (ras_operator_strategy_revision s)
        = Some (selection_provenance s a)) as ->; [|done].
      unfold joined_strategy_provenance.
      assert (db_strategy_provenance (with_provenance (selection_provenance s a)
        (lineage_db a c db)) !! ras_operator_strategy_revision s
        = Some (selection_provenance s a)) as ->
        by (unfold with_provenance, set; simpl; by rewrite lookup_insert_eq).
      cbn [mbind option_bind].
      change (db_adoptable_strategy_revisions (with_provenance _ ?d))
        with (db_adoptable_strategy_revisions d).
      change (db_strategy_candidate_sets (with_provenance _ ?d))
        with (db_strategy_candidate_sets d).
      change (sap_adoptable_strategy_revision (selection_provenance s a))
        with (asr_adoptable_strategy_revision a).
      change (sap_strategy_candidate_revision (selection_provenance s a))
        with (asr_strategy_candidate_revision a).
      rewrite Hka, Ha. cbn [mbind option_bind]. rewrite Hc. cbn [mbind option_bind].
      rewrite !bool_decide_eq_true_2; [done| |done]. apply (sel_rendered _ _ _ _ _ Hs).
    + unfold adoptable_view. change (db_adoptable_strategy_revisions (with_provenance _ ?d))
        with (db_adoptable_strategy_revisions d). by rewrite Ha.
Qed.

(** *** The history *)

(** The row as it is stored. *)
Definition stored_history_row (row : OperatorStrategyAdoptionHistoryRow) :
    OperatorStrategyAdoptionHistoryRow :=
  {| osh_adoption_id := osh_adoption_id row; osh_action_kind := osh_action_kind row;
     osh_operator_strategy_revision := osh_operator_strategy_revision row;
     osh_previous_operator_strategy_revision := osh_previous_operator_strategy_revision row;
     osh_adoptable_strategy_revision := osh_adoptable_strategy_revision row;
     osh_strategy_candidate_revision := osh_strategy_candidate_revision row;
     osh_adopted_at := pg_time (osh_adopted_at row) |}.

Definition with_history (row : OperatorStrategyAdoptionHistoryRow) (db : Db) : Db :=
  db <| db_strategy_history_seq := db_strategy_history_seq db + 1 |>
     <| db_strategy_history ::=
          insert (osh_adoption_id row) (stored_history_row row, db_strategy_history_seq db) |>.

(** The sequence has numbers left, and the id is new. *)
Definition history_free (id : string) (db : Db) : Prop :=
  db_strategy_history_seq db < 2 ^ 63 ∧ db_strategy_history db !! id = None.

Lemma runs_history_append row now db :
  history_free (osh_adoption_id row) db →
  history_shape (osh_action_kind row) (osh_adoptable_strategy_revision row)
    (osh_strategy_candidate_revision row) = true →
  runs (strategy_history_append row) now db (with_history row db) (Ok ()).
Proof.
  intros [Hq Hn] Hs. apply runs_stmt. unfold sqlx_ok, mbind, tx_bind, insert_strategy_history.
  unfold nextval. rewrite bool_decide_eq_true_2 by done. rewrite Hs. simpl negb. cbn iota.
  change (db_strategy_history (db <| db_strategy_history_seq := _ |>)) with (db_strategy_history db).
  rewrite Hn. rewrite bool_decide_eq_false_2 by (intros H; by apply H). reflexivity.
Qed.

(** ** What the next start runs *)

Lemma group_artifacts_ok rev artifacts grouped :
  is_ok (collect_results (λ a, map_err (λ error, CommandMessage ("invalid route_artifacts" +:+
    (" for operator_strategy_revision " +:+ rev) +:+ ": " +:+ error))
    (validate_live_route_scope (sra_route a) (sra_scope a))) artifacts) = true →
  ∃ r, group_artifacts rev grouped artifacts = Ok r.
Proof.
  revert grouped. induction artifacts as [|a artifacts IH]; intros grouped; simpl; [by eexists|].
  destruct (validate_live_route_scope (sra_route a) (sra_scope a)) as [[]|]; simpl; [|done].
  destruct (collect_results _ artifacts); simpl in *; [|done]. intros _. by apply IH.
Qed.

(** A payload that adoption accepts has artifacts that a start can run. *)
Lemma validated_payload_resolves payload rev :
  validate_strategy_payload payload rev = Ok () →
  ∃ artifacts, payload_route_artifacts payload rev = Ok artifacts.
Proof.
  unfold validate_strategy_payload, payload_route_artifacts, parse_route_artifacts.
  destruct (json_get "route_artifacts" payload) as [j|]; simpl.
  - destruct (artifacts_from_json j) as [artifacts|]; simpl; [|done].
    destruct artifacts as [|a artifacts]; [done|].
    destruct (existsb _ _); [done|]. intros H.
    destruct (group_artifacts_ok rev (a :: artifacts) (∅ : gmap _ _)) as [r ->]; [|by eexists].
    by destruct (collect_results _ (a :: artifacts)).
  - unfold validate_rendered_live_targets, parse_rendered_live_targets.
    destruct (json_get "rendered_live_targets" payload) as [j|]; simpl; [|done].
    destruct (families_from_json j) as [targets|]; simpl; [|done].
    case_bool_decide; [done|]. intros _. by eexists.
Qed.

(** A configuration that names a strategy revision, and nothing of the legacy control plane. *)
Record names_revision (raw : RawAxiomConfig) (rev : string) : Prop := {
  nm_explicit : is_legacy_explicit_strategy_config raw = false;
  nm_target_source : raw_target_source raw = None;
  nm_control : sct_operator_strategy_revision <$> rc_strategy_control raw = Some (Some rev);
}.

Lemma startup_resolves raw rev p k a artifacts now db :
  names_revision raw rev → provenance_view db rev = Ok (Some p) →
  sap_adoptable_strategy_revision p = k → adoptable_view db k = Some a →
  payload_route_artifacts (asr_payload a) rev = Ok artifacts →
  runs (resolve_startup_strategy_revision raw) now db db
    (Ok {| rsr_operator_strategy_revision := Some rev; rsr_route_artifacts := artifacts;
           rsr_compatibility_mode := false |}).
Proof.
  intros [He Ht Hc] Hp <- Ha Hr. unfold resolve_startup_strategy_revision. rewrite He, Ht. simpl.
  unfold has_adopted_strategy_source, has_canonical_strategy_control, has_target_source,
    view_operator_strategy_revision, canonical_operator_strategy_revision. rewrite He, Ht.
  destruct (rc_strategy_control raw) as [control|]; simpl in Hc; [|done].
  destruct control as [[] revision]. simpl in *. injection Hc as ->. simpl.
  eapply runs_pooled_bind; [apply (runs_pooled_of (Ok rev))|].
  unfold resolve_adopted_strategy_revision.
  eapply runs_pooled_bind; [apply runs_from_repo_ok; rewrite <- Hp; apply runs_get_provenance|].
  eapply runs_pooled_bind; [apply (runs_pooled_of (Ok p))|].
  eapply runs_pooled_bind; [apply runs_from_repo_ok, runs_get_adoptable|]. rewrite Ha.
  eapply runs_pooled_bind; [apply (runs_pooled_of (Ok a))|]. rewrite Hr.
  eapply runs_pooled_bind; [apply (runs_pooled_of (Ok artifacts))|]. apply runs_pooled_ret.
Qed.

Lemma rewritten_names revision negrisk raw :
  negrisk = None ∨ negrisk = Some no_negrisk →
  names_revision (with_strategy_revision revision negrisk raw) revision.
Proof. by intros [-> | ->]. Qed.

(** ** Adoption *)

Lemma load_validated_ok file raw :
  load_validated_raw_config file = Ok raw ↔
  load_raw_config_from_path file = Ok raw ∧ validated_config_new raw = Ok raw.
Proof.
  unfold load_validated_raw_config. destruct (load_raw_config_from_path file) as [r|]; simpl;
    [|split; [done|by intros []]].
  destruct (validated_config_new r) as [v|] eqn:E; simpl.
  - pose proof (validated_self _ _ E) as ->.
    split; [intros [= <-]; done|by intros [[= <-] _]].
  - split; [done|]. intros [[= <-] H]. congruence.
Qed.

(** The file after the adoption: rewritten unless it already names the revision. *)
Lemma adoption_file `{!TomlLaws T} text document raw rev :
  toml_parse text = Some document → editable document →
  load_validated_raw_config (Some text) = Ok raw → is_blank rev = false →
  let previous := if is_legacy_explicit_strategy_config raw then None else configured_revision raw in
  let required := bool_decide (rc_strategy_control raw = None) || has_target_source raw ||
                  is_legacy_explicit_strategy_config raw in
  ∃ text' raw', load_validated_raw_config (Some text') = Ok raw' ∧ names_revision raw' rev ∧
    rc_runtime raw' = rc_runtime raw ∧ rc_polymarket raw' = rc_polymarket raw ∧
    if required || bool_decide (previous ≠ Some rev) then
      rewrite_operator_strategy_revision true rev (Some text) = (Some text', Returns (Ok ()))
    else text' = text.
Proof.
  intros Hp He Hl Hb. pose proof Hl as [Hload Hval]%load_validated_ok. cbv zeta.
  destruct (_ || bool_decide (_ ≠ Some rev)) eqn:Er.
  - destruct (strategy_rewrite_file rev text document raw Hp He Hload Hval Hb)
      as (text' & negrisk & Hw & Hload' & Hval' & Hn).
    exists text', (with_strategy_revision rev negrisk raw). split_and!; try done.
    + by apply load_validated_ok.
    + by apply rewritten_names.
  - rewrite !orb_false_iff in Er. destruct Er as [[[Hc Ht] Hx] Hprev].
    exists text, raw. split_and!; try done. split; [done| |].
    + unfold has_target_source in Ht. apply bool_decide_eq_false in Ht.
      by destruct (raw_target_source raw) eqn:E; [destruct Ht; eexists|].
    + rewrite Hx in Hprev. apply bool_decide_eq_false in Hc, Hprev.
      assert (configured_revision raw = Some rev) as Hr
        by (destruct (decide (configured_revision raw = Some rev)); [done|by destruct Hprev]).
      unfold configured_revision in Hr. unfold has_target_source in Ht.
      apply bool_decide_eq_false in Ht. destruct (rc_strategy_control raw) as [control|]; [|done].
      simpl in *. destruct (sct_operator_strategy_revision control); [by simplify_eq|].
      destruct (raw_target_source raw); [by destruct Ht|done].
Qed.

Context {E : ErrorText}.

Definition adoption_id (clock : Clock) (s : ResolvedStrategyAdoptionSelection) : string :=
  "adopt-" +:+ pretty (ck_nanos clock) +:+ "-" +:+ ras_operator_strategy_revision s.

(** The database after an adoption. *)
Definition adoption_db (clock : Clock) (s : ResolvedStrategyAdoptionSelection)
    (a : AdoptableStrategyRevisionRow) (c : StrategyCandidateSetRow)
    (existing : option StrategyAdoptionProvenanceRow) (previous : option string) (db : Db) : Db :=
  with_history (adoption_row clock s previous (Some (asr_strategy_candidate_revision a)))
    (adopted_db s a c existing db).

Lemma selector_ok op ad now db db' s file :
  runs (resolve_adoption_selection op ad) now db db' (Ok s) →
  validate_selector_flags op ad file = Ok () ∧
  ∀ writable, select_revision writable op ad = on_pool (resolve_adoption_selection op ad).
Proof.
  intros Hr. apply runs_goes in Hr as [n Hr]. unfold resolve_adoption_selection in Hr.
  destruct op, ad; try (by apply goes_fail in Hr); done.
Qed.

Lemma configured_ok file raw :
  load_validated_raw_config file = Ok raw →
  configured_operator_strategy_revision file =
    Ok (if is_legacy_explicit_strategy_config raw then None else configured_revision raw).
Proof. unfold configured_operator_strategy_revision. by intros ->. Qed.

Lemma rewrite_required_ok file raw :
  load_validated_raw_config file = Ok raw →
  config_requires_strategy_control_rewrite file =
    Ok (bool_decide (rc_strategy_control raw = None) || has_target_source raw ||
        is_legacy_explicit_strategy_config raw).
Proof.
  intros [H _]%load_validated_ok. unfold config_requires_strategy_control_rewrite. by rewrite H.
Qed.

Lemma command_runs_ok {F A} (x : A) now db file :
  command_runs (command_of (Ok x) : Command F A) now db file db file (Ok x).
Proof. apply (command_runs_of (Ok x)). Qed.

(** The whole command, up to the rewrite of the file. *)
Lemma runs_adoption db file raw op ad s k a c o active clock now required previous file' :
  db_wf db → load_validated_raw_config file = Ok raw →
  selected db s k a c → runs (resolve_adoption_selection op ad) now db db (Ok s) →
  provenance_view db (ras_operator_strategy_revision s) = Ok o →
  (∀ p, o = Some p → sap_adoptable_strategy_revision p = k) →
  runs (load_active_operator_strategy_revision (Some (ras_operator_strategy_revision s)))
    now db db (Ok active) →
  history_free (adoption_id clock s) db →
  previous = (if is_legacy_explicit_strategy_config raw then None else configured_revision raw) →
  required = (bool_decide (rc_strategy_control raw = None) || has_target_source raw ||
              is_legacy_explicit_strategy_config raw ||
              bool_decide (previous ≠ Some (ras_operator_strategy_revision s))) →
  (if required then rewrite_operator_strategy_revision true (ras_operator_strategy_revision s) file
                    = (file', Returns (Ok ()))
   else file' = file) →
  command_runs (adopt_selected_revision true clock op ad) now db file
    (adoption_db clock s a c o previous db) file'
    (Ok {| cg_selection := s;
           cg_previous_operator_strategy_revision := if required then previous else None;
           cg_restart_required := differs_from s active |}).
Proof.
  intros Hw Hl Hs Hr Ho Hk Ha Hf -> Hreq Hfile. unfold adopt_selected_revision.
  destruct (selector_ok op ad now db db s file Hr) as [Hsel Hselect]. rewrite Hselect.
  destruct (adopted_lineage _ _ _ _ _ _ Hw Hs Ho Hk) as (p & _ & _ & Hrow).
  eapply command_runs_bind; [apply command_runs_with_file; rewrite Hsel; apply command_runs_ok|].
  eapply command_runs_bind.
  { apply command_runs_with_file. rewrite (configured_ok _ _ Hl). apply command_runs_ok. }
  eapply command_runs_bind; [apply command_runs_pool, Hr|].
  eapply command_runs_bind; [apply command_runs_pool, Ha|].
  eapply command_runs_bind.
  { apply command_runs_with_file. rewrite (rewrite_required_ok _ _ Hl). apply command_runs_ok. }
  eapply command_runs_bind; [by eapply command_runs_pool, runs_ensure_canonical|].
  eapply command_runs_bind.
  { apply command_runs_pool. unfold strategy_candidate_revision_for_selection.
    rewrite (sel_adoptable _ _ _ _ _ Hs).
    eapply runs_pooled_bind; [apply runs_boxed, runs_get_adoptable|]. rewrite Hrow.
    apply runs_pooled_ret. }
  eapply command_runs_bind.
  { apply command_runs_pool, runs_boxed, runs_history_append.
    - by destruct o.
    - simpl. by rewrite (sel_adoptable _ _ _ _ _ Hs). }
  rewrite <- Hreq. destruct required.
  - eapply command_runs_bind.
    + apply (command_runs_file CommandFile _ _ _ _ _ (Ok ())). exact Hfile.
    + apply command_runs_ret.
  - subst file'. eapply command_runs_bind; apply command_runs_ret.
Qed.


(** ** Rollback *)

Lemma provenance_view_key db k p :
  db_wf db → provenance_view db k = Ok (Some p) → sap_operator_strategy_revision p = k.
Proof.
  intros Hw. unfold provenance_view. destruct (joined_strategy_provenance db k) as [q|] eqn:E1.
  - intros [= <-]. unfold joined_strategy_provenance in E1.
    destruct (db_strategy_provenance db !! k) as [p'|] eqn:Ep; [|done]. simpl in E1.
    pose proof (wf_strategy_provenance _ Hw k p' Ep) as [Hk _]. simplify_option_eq. done.
  - case_bool_decide; [done|]. destruct (joined_candidate_provenance db k) as [q|] eqn:E2.
    + intros [= <-]. unfold joined_candidate_provenance in E2.
      destruct (db_candidate_provenance db !! k) as [p'|] eqn:Ep; [|done]. simpl in E2.
      pose proof (wf_provenance _ Hw k p' Ep) as [Hk _]. simplify_option_eq. done.
    + by case_bool_decide.
Qed.

Lemma lineage_operator operator adoptable candidate now n db n' db' s :
  goes (selection_from_lineage operator adoptable candidate) now n db n' db' (Ok s) →
  ras_operator_strategy_revision s = operator.
Proof.
  unfold selection_from_lineage. intros H. repeat goes_step.
  destruct (_ || _); [by apply goes_fail in H|]. repeat goes_step. by subst.
Qed.

(** Selecting an operator revision selects that revision. *)
Lemma operator_selected rev now db db' s :
  db_wf db → runs (resolve_adoption_selection (Some rev) None) now db db' (Ok s) →
  ras_operator_strategy_revision s = rev.
Proof.
  intros Hw Hr. apply runs_goes in Hr as [n' H]. unfold resolve_adoption_selection,
    adopt_by_operator_revision in H.
  apply goes_bind in H as (n & d & a & H1 & H).
  destruct (goes_runs _ _ _ _ _ _ _ _ _ H1 (runs_from_repo CommandPersistence _ _ _ _ _
    (runs_get_provenance rev now db))) as [<- Ha]. destruct a as [p|].
  - apply lineage_operator in H. rewrite H. eapply provenance_view_key; [exact Hw|].
    destruct (provenance_view d rev) as [o|[]]; simpl in Ha; congruence.
  - unfold latest_history_lineage in H. repeat goes_step.
    match goal with o : option (string * string) |- _ => destruct o as [[adoptable candidate]|] end;
      [|by apply goes_fail in H]. by apply lineage_operator in H.
Qed.

Definition rollback_id (clock : Clock) (s : ResolvedStrategyAdoptionSelection) : string :=
  "rollback-" +:+ pretty (ck_nanos clock) +:+ "-" +:+ ras_operator_strategy_revision s.

(** Every row of the legacy history is older than the rows to come. *)
Definition legacy_history_older (db : Db) : Prop :=
  map_Forall (λ _ r, r.2 < db_strategy_history_seq db) (db_target_history db).

Context {O : OrderLaws X} {PL : PgLaws P}.

#[local] Instance combined_order_total : TotalPreorder combined_order.
Proof.
  change (TotalPreorder (cmp_on (λ r : OperatorStrategyAdoptionHistoryRow * (Z * Z),
    (r.2.1, (osh_adopted_at r.1, (r.2.2, osh_adoption_id r.1))))
    (cmp_lex (desc Z.compare) (cmp_lex (desc dt_cmp) (cmp_lex Z.compare (desc text_cmp)))))).
  apply cmp_on_total, cmp_lex_total; [exact _|apply cmp_lex_total; [exact _|apply cmp_lex_total; exact _]].
Qed.

(** The row appended last is the first that is looked at. *)
Lemma previous_of_latest row db now :
  db_wf db → legacy_history_older db → osh_previous_operator_strategy_revision row ≠ None →
  osh_previous_operator_strategy_revision row ≠ Some (osh_operator_strategy_revision row) →
  runs (strategy_previous_distinct_revision (osh_operator_strategy_revision row)) now
    (with_history row db) (with_history row db)
    (Ok (osh_previous_operator_strategy_revision row)).
Proof.
  intros Hw Hl Hp Hd. set (db1 := with_history row db).
  assert (combined_first (λ r, distinct_from (osh_operator_strategy_revision row)
    (osh_operator_strategy_revision r) (osh_previous_operator_strategy_revision r)) db1
    = Some (stored_history_row row)) as E1.
  { unfold combined_first.
    rewrite (head_sort_by _ _ (stored_history_row row, (db_strategy_history_seq db, 0))); [done| |].
    - rewrite list_elem_of_In, filter_In, <- list_elem_of_In. split.
      + unfold combined_history. apply elem_of_app. left. apply list_elem_of_fmap.
        exists (osh_adoption_id row, (stored_history_row row, db_strategy_history_seq db)).
        split; [done|]. apply elem_of_map_to_list. unfold db1, with_history, set. simpl.
        by rewrite lookup_insert_eq.
      + simpl. unfold distinct_from. rewrite bool_decide_eq_true_2 by done. simpl.
        destruct (osh_previous_operator_strategy_revision row) as [p|]; [|done].
        rewrite bool_decide_eq_false_2; [done|]. intros ->. by apply Hd.
    - intros y Hy. rewrite list_elem_of_In, filter_In, <- list_elem_of_In in Hy.
      destruct Hy as [Hy _]. unfold combined_history in Hy. apply elem_of_app in Hy as [Hy|Hy];
        apply list_elem_of_fmap in Hy as ([k [r seq]] & -> & Hk);
        apply elem_of_map_to_list in Hk; simpl.
      + unfold db1, with_history, set in Hk. simpl in Hk.
        apply lookup_insert_Some in Hk as [[_ [= <- <-]]|[_ Hk]]; [by left|right].
        pose proof (wf_strategy_history _ Hw) as [Hh _]. destruct (Hh _ _ Hk) as (_ & Hs & _).
        simpl in Hs. unfold combined_order, desc. simpl.
        by rewrite (proj2 (Z.compare_lt_iff seq (db_strategy_history_seq db)) Hs).
      + right. change (db_target_history db1) with (db_target_history db) in Hk.
        pose proof (Hl _ _ Hk) as Hs. simpl in Hs. unfold combined_order, desc. simpl.
        by rewrite (proj2 (Z.compare_lt_iff seq (db_strategy_history_seq db)) Hs). }
  unfold strategy_previous_distinct_revision. pose proof (runs_query (λ db, r ← combined_first
    (λ r, distinct_from (osh_operator_strategy_revision row) (osh_operator_strategy_revision r)
      (osh_previous_operator_strategy_revision r)) db;
    osh_previous_operator_strategy_revision r) now db1) as H.
  cbv beta in H. rewrite E1 in H. exact H.
Qed.

Lemma compatibility_ok file raw :
  load_validated_raw_config file = Ok raw → is_legacy_explicit_strategy_config raw = false →
  compatibility_mode file = Ok None.
Proof. unfold compatibility_mode. intros -> H. simpl. by rewrite H. Qed.

End views.

(** ** The session of a start *)

Section sessions.
Context {X : Externals} {J : JsonOps} {P : PgOps} {U : UrlOps} {D : SerdeOps} {T : TomlOps}.

Lemma resolved_revision config rev now db db' resolved :
  names_revision config rev → runs (resolve_startup_targets config) now db db' (Ok resolved) →
  rtg_operator_target_revision resolved = Some rev.
Proof.
  intros [He Ht Hc] H. apply runs_goes in H as [n H].
  unfold resolve_startup_targets in H. apply goes_bind in H as (n1 & d1 & r & Hr & H).
  apply goes_bind in H as (n2 & d2 & targets & [-> _]%goes_of & H). apply goes_ret in H as [_ ->].
  simpl. assert (rsr_operator_strategy_revision r = Some rev) as ->; [|done].
  unfold resolve_startup_strategy_revision in Hr. rewrite He, Ht in Hr. simpl in Hr.
  unfold has_adopted_strategy_source, has_canonical_strategy_control, has_target_source,
    view_operator_strategy_revision, canonical_operator_strategy_revision in Hr.
  rewrite He, Ht in Hr.
  destruct (rc_strategy_control config) as [[[] revision]|]; simpl in Hc; [|done].
  injection Hc as ->. simpl in Hr.
  apply goes_bind in Hr as (n3 & d3 & rev' & [-> [= ->]]%goes_of & Hr).
  unfold resolve_adopted_strategy_revision in Hr.
  repeat (apply goes_bind in Hr as (? & ? & ? & _ & Hr)). by apply goes_ret in Hr as [_ ->].
Qed.

(** The rollout as a status sees it. *)
Definition status_rollout (config : RawAxiomConfig) (resolved : ResolvedTargets) : string :=
  if rollout_covers_families config (target_families resolved) then "ready" else "required".

Lemma session_relevant stale config rev path text invoked_by pid nanos progress started row
    resolved :
  names_revision config rev → rt_mode (rc_runtime config) = ModeLive →
  build_starting_row path text invoked_by pid nanos config progress started = Ok row →
  rtg_operator_target_revision resolved = Some rev →
  relevant_to (relevant_query stale config path text rev resolved) (starting_columns row)
    = bool_decide (rollout_state_at_start config = Some (status_rollout config resolved)).
Proof.
  intros [He Ht Hc] Hm Hb Hr.
  unfold build_starting_row, startup_revision_snapshot, startup_snapshot_target_source in Hb.
  unfold relevant_to, relevant_query, status_rollout. rewrite Hr.
  unfold is_paper, has_adopted_strategy_source, has_canonical_strategy_control,
    has_target_source, view_operator_strategy_revision, canonical_operator_strategy_revision in *.
  rewrite Hm, ?He, ?Ht in *. rewrite bool_decide_eq_false_2 in Hb by done.
  rewrite (bool_decide_eq_false_2 (is_Some None)) in * by (by intros [? ?]).
  destruct (rc_strategy_control config) as [[[] revision]|]; simpl in Hc; [|done].
  injection Hc as ->. simpl in Hb. injection Hb as <-. simpl.
  rewrite !(bool_decide_eq_true_2 (_ = _)) by done. done.
Qed.

End sessions.

(** ** A concrete control plane *)

Definition plain_errors : ErrorText :=
  {| persistence_text _ := "persistence error"; schema_text _ := "config error";
     command_text _ := "command error"; file_text _ := "file error"; jsonb_text _ := "" |}.

Module witnesses.
#[local] Existing Instance Micros.
#[local] Existing Instance plain_json.
#[local] Existing Instance plain_pg.
#[local] Existing Instance plain_url.
#[local] Existing Instance plain_serde.
#[local] Existing Instance plain_errors.

Definition example_payload : Json :=
  JObject [("route_artifacts", JArray [JObject
    [("key", JObject [("route", JString "full-set"); ("scope", JString "default")]);
     ("route_policy_version", JString "v1"); ("semantic_digest", JString "digest");
     ("content", JNull)]])].

Definition example_candidate : StrategyCandidateSetRow :=
  {| scr_strategy_candidate_revision := "candidate-1"; scr_snapshot_id := "snapshot-1";
     scr_source_revision := "discovery-1"; scr_payload := JNull |}.
Definition example_adoptable : AdoptableStrategyRevisionRow :=
  {| asr_adoptable_strategy_revision := "adoptable-1";
     asr_strategy_candidate_revision := "candidate-1";
     asr_rendered_operator_strategy_revision := "strategy-rev-1";
     asr_payload := example_payload |}.

Definition example_db : Db :=
  db_empty <| db_strategy_candidate_sets := {["candidate-1" := example_candidate]} |>
           <| db_adoptable_strategy_revisions := {["adoptable-1" := example_adoptable]} |>.

Lemma example_db_wf : db_wf example_db.
Proof.
  destruct db_empty_wf. constructor; try assumption.
  - by apply map_Forall_singleton.
  - apply map_Forall_singleton. split; [done|]. by eexists.
  - intros k r Hk. discriminate Hk.
  - intros k r Hk. discriminate Hk.
Qed.

Definition example_selection : ResolvedStrategyAdoptionSelection :=
  {| ras_operator_strategy_revision := "strategy-rev-1"; ras_adoptable_revision := Some "adoptable-1";
     ras_migration_source := None |}.

Definition example_clock : Clock := {| ck_nanos := 7; ck_adopted_at := instant 7 |}.

Definition example_text : string := toml_print ConfigRewrite.witnesses.example_document.

Lemma example_text_loads :
  load_validated_raw_config (Some example_text) = Ok ConfigRewrite.witnesses.example_raw.
Proof.
  apply load_validated_ok. split; [apply ConfigRewrite.witnesses.example_loads|reflexivity].
Qed.


(** Two adoptable revisions; the first was adopted before. *)
Definition earlier_adoptable : AdoptableStrategyRevisionRow :=
  {| asr_adoptable_strategy_revision := "adoptable-0";
     asr_strategy_candidate_revision := "candidate-1";
     asr_rendered_operator_strategy_revision := "strategy-rev-0";
     asr_payload := example_payload |}.
Definition earlier_provenance : StrategyAdoptionProvenanceRow :=
  {| sap_operator_strategy_revision := "strategy-rev-0";
     sap_adoptable_strategy_revision := "adoptable-0";
     sap_strategy_candidate_revision := "candidate-1" |}.

Definition earlier_db : Db :=
  example_db
    <| db_adoptable_strategy_revisions :=
         <["adoptable-0" := earlier_adoptable]> {["adoptable-1" := example_adoptable]} |>
    <| db_strategy_provenance := {["strategy-rev-0" := earlier_provenance]} |>.

Definition adopted_row : OperatorStrategyAdoptionHistoryRow :=
  adoption_row example_clock example_selection (Some "strategy-rev-0") (Some "candidate-1").

Lemma earlier_db_wf : db_wf earlier_db.
Proof.
  destruct example_db_wf. constructor; try assumption.
  - apply map_Forall_insert_2; [|apply map_Forall_singleton]; (split; [done|by eexists]).
  - apply map_Forall_singleton. split; [done|]. by exists earlier_adoptable.
Qed.

Lemma adopted_history_key k r :
  db_strategy_history (with_history adopted_row earlier_db) !! k = Some r →
  k = osh_adoption_id adopted_row.
Proof.
  unfold with_history, set. simpl.
  intros [[<- _]|[_ Hk]]%(lookup_insert_Some (M := gmap string)); [done|discriminate Hk].
Qed.

Lemma adopted_db_wf : db_wf (with_history adopted_row earlier_db).
Proof.
  destruct earlier_db_wf. constructor; try assumption. split.
  - apply map_Forall_singleton. by split_and!.
  - intros k1 k2 r1 r2 n H1%adopted_history_key H2%adopted_history_key _ _. congruence.
Qed.

Definition adopted_document : TomlFields :=
  [("runtime", TTab [("mode", TStr "paper")]);
   ("strategy_control", TTab [("source", TStr "adopted");
                              ("operator_strategy_revision", TStr "strategy-rev-1")])].
Definition adopted_raw : RawAxiomConfig :=
  {| rc_runtime := {| rt_mode := ModePaper; rt_real_user_shadow_smoke := false |};
     rc_strategy_control := Some {| sct_source := ControlAdopted;
       sct_operator_strategy_revision := Some "strategy-rev-1" |};
     rc_strategies := None; rc_polymarket := None; rc_negrisk := None |}.

Lemma adopted_editable : editable adopted_document.
Proof.
  split; [reflexivity|].
  exists [("source", TStr "adopted"); ("operator_strategy_revision", TStr "strategy-rev-1")], [], [].
  split; try reflexivity; [by eexists|]. intros r [=].
Qed.


(** A rollout of one of the two families of the revision. *)
Definition family_targets : LiveTargets :=
  <["family-b" := sample_target "family-b"]> (<["family-a" := sample_target "family-a"]>
    (∅ : gmap string NegRiskFamilyLiveTarget)).

Definition families_db : Db :=
  earlier_db
    <| db_adoptable_strategy_revisions := {["adoptable-0" :=
         {| asr_adoptable_strategy_revision := "adoptable-0";
            asr_strategy_candidate_revision := "candidate-1";
            asr_rendered_operator_strategy_revision := "strategy-rev-0";
            asr_payload := JObject [("rendered_live_targets", live_targets_json family_targets)] |}]} |>.

Definition partial_rollout : RawAxiomConfig :=
  {| rc_runtime := {| rt_mode := ModeLive; rt_real_user_shadow_smoke := false |};
     rc_strategy_control := Some {| sct_source := ControlAdopted;
       sct_operator_strategy_revision := Some "strategy-rev-0" |};
     rc_strategies := Some {| st_full_set := None; st_neg_risk := Some {| srt_enabled := true;
       srt_rollout := Some {| srr_approved_scopes := ["family-a"];
                              srr_ready_scopes := ["family-a"] |} |} |};
     rc_polymarket := None; rc_negrisk := None |}.

Definition resolved_families : ResolvedTargets :=
  {| rtg_targets := {| ts_revision := "strategy-rev-0"; ts_targets := family_targets |};
     rtg_operator_target_revision := Some "strategy-rev-0" |}.

End witnesses.
