(* ===== verification/Supervisor.v ===== *)
(** * The application supervisor

    [app-live/src/supervisor.rs], [snapshot_meta.rs] and [posture.rs]: the object
    that drains the ingress queue into the runtime, publishes snapshots with their
    rollout evidence, executes the eligible families, and restores a committed
    state after a restart. Its live backend and its database are parameters that act
    on a [World]; metrics and spans are left out, with the evidence last emitted to
    them. *)

From S2P Require Import Prelude Text RecordSet Externals Json Domain RuntimeMode Facts Store Apply.
From S2P Require Import Reconcile StoreInvariants Snapshot Risk Plans Execution Dispatch Runtime.
From S2P Require Import LiveRecords Discovery.
Import RuntimeMode.

(** ** posture.rs *)

Inductive SupervisorPosture := Healthy | DegradedIngress | DegradedDispatch | GlobalHalt.

Inductive NegRiskLiveStateSource := LiveSourceNone | SyntheticBootstrap | DurableRestore.

Inductive NegRiskRolloutEvidenceSource :=
| EvidenceNone | EvidenceBootstrap | EvidenceNeutral | EvidenceSnapshot.

(** ** snapshot_meta.rs *)

Definition snapshot_id_for (version : Z) : string := "snapshot-" +:+ pretty version.

Record NegRiskRolloutEvidence := {
  re_snapshot_id : string;
  re_live_ready_family_count : nat;
  re_blocked_family_count : nat;
  re_parity_mismatch_count : Z;
}.
#[export] Instance NegRiskRolloutEvidence_eq_dec : EqDecision NegRiskRolloutEvidence.
Proof. solve_decision. Defined.

Definition neutral_evidence (snapshot_id : string) : NegRiskRolloutEvidence :=
  {| re_snapshot_id := snapshot_id; re_live_ready_family_count := 0;
     re_blocked_family_count := 0; re_parity_mismatch_count := 0 |}.

Definition rollout_evidence_from_snapshot (s : PublishedSnapshot) : NegRiskRolloutEvidence :=
  match ps_negrisk s with
  | None => neutral_evidence (ps_snapshot_id s)
  | Some negrisk =>
      let ready := length (filter (λ f, live_ready f = true) (nv_families negrisk)) in
      {| re_snapshot_id := ps_snapshot_id s; re_live_ready_family_count := ready;
         re_blocked_family_count := length (nv_families negrisk) - ready;
         re_parity_mismatch_count :=
           Z.of_nat (length (filter (λ f, nr_shadow_parity_ready f = false)
                               (nv_families negrisk))) |}
  end.

Record CandidateRestoreStatus := {
  crs_latest_candidate_revision : option string;
  crs_latest_adoptable_revision : option string;
  crs_latest_candidate_operator_target_revision : option string;
  crs_adoption_provenance_resolved : bool;
}.

Definition candidate_restore_status_default : CandidateRestoreStatus :=
  {| crs_latest_candidate_revision := None; crs_latest_adoptable_revision := None;
     crs_latest_candidate_operator_target_revision := None;
     crs_adoption_provenance_resolved := false |}.

Section supervisor.
Context {X : Externals} {J : JsonOps} {H : HashOrder} {World : Type}.

(** ** Errors: each is the message the code builds, with what it shows *)
Inductive SupervisorError :=
| SvApply (e : ApplyError)
| SvLive (e : NegRiskLiveError)
| SvShadow (e : NegRiskShadowError)
| SvPersistence (e : string)
| SvResumeNeedsLastSeq
| SvRestoreNeedsLastSeq
| SvPendingCountMismatch (durable rebuilt : nat)
| SvPendingCountRequired
| SvStateVersionMismatch (rebuilt expected : Z)
| SvLastJournalSeqMismatch (rebuilt expected : Z)
| SvEvidenceMismatch (durable rebuilt : NegRiskRolloutEvidence)
| SvEvidenceMissing (durable : NegRiskRolloutEvidence)
| SvEvidenceRequired
| SvShadowNeedsSnapshot
| SvShadowNeedsRecords
| SvShadowSnapshotMismatch
| SvLiveRecordsRequired
| SvLiveNeedsSnapshot
| SvLiveSnapshotMismatch
| SvDaemonNeedsTick.

Record RuntimeSeed := {
  sd_last_journal_seq : option Z;
  sd_last_state_version : Z;
  sd_published_snapshot_id : option string;
  sd_committed_state_version : option Z;
  sd_pending_reconcile_count : option nat;
  sd_pending_reconcile_anchors : list PendingReconcileAnchor;
  sd_candidate_restore_status : CandidateRestoreStatus;
  sd_rollout_evidence : option NegRiskRolloutEvidence;
  sd_live_records : list NegRiskLiveExecutionRecord;
  sd_shadow_attempts : list ExecutionAttemptRow;
  sd_shadow_artifacts : list ShadowExecutionArtifactRow;
}.

#[export] Instance RuntimeSeed_eta : Eta RuntimeSeed := λ s,
  {| sd_last_journal_seq := sd_last_journal_seq s;
     sd_last_state_version := sd_last_state_version s;
     sd_published_snapshot_id := sd_published_snapshot_id s;
     sd_committed_state_version := sd_committed_state_version s;
     sd_pending_reconcile_count := sd_pending_reconcile_count s;
     sd_pending_reconcile_anchors := sd_pending_reconcile_anchors s;
     sd_candidate_restore_status := sd_candidate_restore_status s;
     sd_rollout_evidence := sd_rollout_evidence s; sd_live_records := sd_live_records s;
     sd_shadow_attempts := sd_shadow_attempts s; sd_shadow_artifacts := sd_shadow_artifacts s |}.

Definition seed_default : RuntimeSeed :=
  {| sd_last_journal_seq := None; sd_last_state_version := 0; sd_published_snapshot_id := None;
     sd_committed_state_version := None; sd_pending_reconcile_count := None;
     sd_pending_reconcile_anchors := [];
     sd_candidate_restore_status := candidate_restore_status_default;
     sd_rollout_evidence := None; sd_live_records := []; sd_shadow_attempts := [];
     sd_shadow_artifacts := [] |}.

(** What the supervisor is given: its database and the clock; [env_now n] is the
    [n]-th reading of [Utc::now()] in a batch. *)
Record SupervisorEnv := {
  env_persist_live : list NegRiskLiveExecutionRecord → option string → World →
    World * result string ();
  env_persist_shadow : list ExecutionAttemptRow → list ShadowExecutionArtifactRow →
    option string → World → World * result string ();
  env_candidates : CandidateRepo World;
  env_now : nat → DateTime;
}.

Record AppSupervisor := {
  sv_dispatcher : DispatchLoop;
  sv_posture : SupervisorPosture;
  sv_runtime : AppRuntime;
  sv_bootstrap_snapshot : RemoteSnapshot;
  sv_committed_log : list InputTaskEvent;
  sv_input_tasks : list InputTaskEvent;
  sv_seed : RuntimeSeed;
  sv_real_user_shadow_smoke_enabled : bool;
  sv_durable_live_persistence_enabled : bool;
  sv_durable_shadow_persistence_enabled : bool;
  sv_run_session_id : option string;
  sv_live_targets : LiveTargets;
  sv_live_target_revision : option string;
  sv_live_approved_families : gset string;
  sv_live_ready_families : gset string;
  sv_live_backend : option (NegRiskLiveExecutionBackend (World := World));
  sv_rollout_evidence : option NegRiskRolloutEvidence;
  sv_rollout_evidence_source : NegRiskRolloutEvidenceSource;
  sv_candidate_restore_status : CandidateRestoreStatus;
  sv_live_records : list NegRiskLiveExecutionRecord;
  sv_live_state_source : NegRiskLiveStateSource;
  sv_shadow_attempts : list ExecutionAttemptRow;
  sv_shadow_artifacts : list ShadowExecutionArtifactRow;
  sv_world : World;
}.

#[export] Instance AppSupervisor_eta : Eta AppSupervisor := λ s,
  {| sv_dispatcher := sv_dispatcher s; sv_posture := sv_posture s; sv_runtime := sv_runtime s;
     sv_bootstrap_snapshot := sv_bootstrap_snapshot s; sv_committed_log := sv_committed_log s;
     sv_input_tasks := sv_input_tasks s; sv_seed := sv_seed s;
     sv_real_user_shadow_smoke_enabled := sv_real_user_shadow_smoke_enabled s;
     sv_durable_live_persistence_enabled := sv_durable_live_persistence_enabled s;
     sv_durable_shadow_persistence_enabled := sv_durable_shadow_persistence_enabled s;
     sv_run_session_id := sv_run_session_id s; sv_live_targets := sv_live_targets s;
     sv_live_target_revision := sv_live_target_revision s;
     sv_live_approved_families := sv_live_approved_families s;
     sv_live_ready_families := sv_live_ready_families s; sv_live_backend := sv_live_backend s;
     sv_rollout_evidence := sv_rollout_evidence s;
     sv_rollout_evidence_source := sv_rollout_evidence_source s;
     sv_candidate_restore_status := sv_candidate_restore_status s;
     sv_live_records := sv_live_records s; sv_live_state_source := sv_live_state_source s;
     sv_shadow_attempts := sv_shadow_attempts s; sv_shadow_artifacts := sv_shadow_artifacts s;
     sv_world := sv_world s |}.

(** [new_with_metrics]; the world is the one it runs in. *)
Definition supervisor_new (mode : AppRuntimeMode) (bootstrap_snapshot : RemoteSnapshot) (w : World) :
    AppSupervisor :=
  {| sv_dispatcher := dispatch_default; sv_posture := Healthy; sv_runtime := runtime_new mode;
     sv_bootstrap_snapshot := bootstrap_snapshot; sv_committed_log := []; sv_input_tasks := [];
     sv_seed := seed_default; sv_real_user_shadow_smoke_enabled := false;
     sv_durable_live_persistence_enabled := false;
     sv_durable_shadow_persistence_enabled := false; sv_run_session_id := None;
     sv_live_targets := (∅ : gmap _ _); sv_live_target_revision := None;
     sv_live_approved_families := ∅; sv_live_ready_families := ∅; sv_live_backend := None;
     sv_rollout_evidence := None; sv_rollout_evidence_source := EvidenceNone;
     sv_candidate_restore_status := candidate_restore_status_default; sv_live_records := [];
     sv_live_state_source := LiveSourceNone; sv_shadow_attempts := [];
     sv_shadow_artifacts := []; sv_world := w |}.

(** A method that may fail: the state is kept on either return. *)
#[local] Notation Method A := (outcome (AppSupervisor * result SupervisorError A)%type).

Definition method_then {A B} (m : Method A) (f : AppSupervisor → A → Method B) : Method B :=
  match m with
  | Returns (s, Ok a) => f s a
  | Returns (s, Err e) => Returns (s, Err e)
  | Panics => Panics
  end.

Notation "'let!' s x := m 'in' k" := (method_then m (λ s x, k))
  (at level 200, s name, x name, m at level 100, k at level 200, right associativity).

(** ** Publication *)

Definition synthetic_live_ready_family_count (s : AppSupervisor) : nat :=
  length (filter (λ id, id ∈ sv_live_ready_families s ∧ id ∈ sv_live_approved_families s)
    (btree_keys str_cmp (sv_live_targets s))).

Definition rollout_evidence_for_snapshot (s : AppSupervisor) (snapshot : PublishedSnapshot)
    (allow_operator_synthesis : bool) : NegRiskRolloutEvidence * NegRiskRolloutEvidenceSource :=
  let id := ps_snapshot_id snapshot in
  match ps_negrisk snapshot with
  | Some _ => (rollout_evidence_from_snapshot snapshot, EvidenceSnapshot)
  | None =>
      match (if allow_operator_synthesis then None
             else e ← sd_rollout_evidence (sv_seed s);
                  if bool_decide (re_snapshot_id e = id) then Some e else None) with
      | Some e => (e, EvidenceBootstrap)
      | None =>
          if allow_operator_synthesis then
            let ready := synthetic_live_ready_family_count s in
            ({| re_snapshot_id := id; re_live_ready_family_count := ready;
                re_blocked_family_count := size (sv_live_targets s : gmap _ _) - ready;
                re_parity_mismatch_count := 0 |}, EvidenceBootstrap)
          else (neutral_evidence id, EvidenceNeutral)
      end
  end.

Definition retain_current_live_records (s : AppSupervisor) : AppSupervisor :=
  match published_snapshot_id (sv_runtime s) with
  | None => s <| sv_live_records := [] |> <| sv_live_state_source := LiveSourceNone |>
  | Some id =>
      let evidence_id := default id (re_snapshot_id <$> sv_rollout_evidence s) in
      let s := s <| sv_live_records ::=
        filter (λ r, lr_snapshot_id r = id ∧ lr_snapshot_id r = evidence_id) |> in
      if bool_decide (length (sv_live_records s) = 0%nat)
      then s <| sv_live_state_source := LiveSourceNone |> else s
  end.

Definition retain_current_shadow_records (s : AppSupervisor) : AppSupervisor :=
  match published_snapshot_id (sv_runtime s) with
  | None => s <| sv_shadow_attempts := [] |> <| sv_shadow_artifacts := [] |>
  | Some id =>
      let s := s <| sv_shadow_attempts ::= filter (λ a, xr_snapshot_id a = id) |> in
      s <| sv_shadow_artifacts ::=
        filter (λ a, xa_attempt_id a ∈ xr_attempt_id <$> sv_shadow_attempts s) |>
  end.

Definition publish_current_snapshot (s : AppSupervisor) (allow_operator_synthesis : bool) :
    outcome AppSupervisor :=
  '(r, published) ← publish_snapshot (sv_runtime s)
                      (snapshot_id_for (runtime_state_version (sv_runtime s)));
  let s := s <| sv_runtime := r |> in
  Returns (match published with
    | Some snapshot =>
        let '(evidence, source) := rollout_evidence_for_snapshot s snapshot
                                     allow_operator_synthesis in
        let s := s <| sv_rollout_evidence := Some evidence |>
                   <| sv_rollout_evidence_source := source |> in
        let s := retain_current_shadow_records (retain_current_live_records s) in
        s <| sv_dispatcher ::= λ d, observe_snapshot d snapshot |>
    | None =>
        let s := s <| sv_rollout_evidence := None |>
                   <| sv_rollout_evidence_source := EvidenceNone |> in
        retain_current_shadow_records (retain_current_live_records s)
    end).

(** ** The committed log *)

Definition record_committed_input (s : AppSupervisor) (input : InputTaskEvent) : AppSupervisor :=
  if bool_decide (input ∈ sv_committed_log s) then s
  else s <| sv_committed_log ::= λ log,
              sort_by (cmp_on it_journal_seq Z.compare) (log ++ [input]) |>.

(** ** Candidates *)

Definition materialize_candidate_artifacts_with_authority (env : SupervisorEnv)
    (s : AppSupervisor) (authoritative : bool) : outcome AppSupervisor :=
  published ← runtime_candidate_publication (sv_runtime s);
  Returns (match published with
    | None => s
    | Some publication =>
        match cp_view publication with
        | None => s
        | Some view =>
            if bool_decide (length (cv_discovery_records view) = 0%nat) then s else
            let notice := from_publication_with_authority publication [Candidates]
              (sv_live_target_revision s) (sv_live_targets s) Eligible authoritative in
            match persist_notice_for_runtime (env_candidates env) notice (sv_world s) with
            | (w, Err _) => s <| sv_world := w |>
            | (w, Ok report) =>
                let s := s <| sv_world := w |> in
                s <| sv_candidate_restore_status :=
                  {| crs_latest_candidate_revision := dr_candidate_revision report;
                     crs_latest_adoptable_revision := dr_adoptable_revision report;
                     crs_latest_candidate_operator_target_revision :=
                       dr_operator_target_revision report;
                     crs_adoption_provenance_resolved :=
                       crs_adoption_provenance_resolved (sv_candidate_restore_status s) &&
                       bool_decide (dr_operator_target_revision report = sv_live_target_revision s)
                  |} |>
            end
        end
    end).

(** ** The drain *)

(** One iteration: the input is applied, committed and removed. The boolean is
    whether candidates became dirty. *)
Definition drain_one (s : AppSupervisor) (input : InputTaskEvent) : Method bool :=
  '(r, res) ← apply_input (sv_runtime s) input;
  let s := s <| sv_runtime := r |> in
  match res with
  | Err e => Returns (s, Err (SvApply e))
  | Ok (Applied _ version dirty) =>
      let s := s <| sv_dispatcher ::= λ d, record_apply d version dirty |> in
      let s := record_committed_input s input in
      let s := s <| sv_input_tasks ::= λ q, (ingress_remove q input).1 |> in
      s ← publish_current_snapshot s false;
      Returns (s, Ok (bool_decide (Candidates ∈ dirty)))
  | Ok _ =>
      let s := record_committed_input s input in
      Returns (s <| sv_input_tasks ::= λ q, (ingress_remove q input).1 |>, Ok false)
  end.

(** [while let Some(input) = next_after(durable_anchor)], with fuel; [None] is out of
    fuel. [per_input] materialises candidates at each input that dirtied them. *)
Fixpoint drain_loop (env : SupervisorEnv) (per_input : bool) (fuel : nat)
    (durable_anchor : option Z) (processed : nat) (candidate_dirty_seen : bool)
    (s : AppSupervisor) : option (Method (nat * bool)) :=
  match next_after (sv_input_tasks s) durable_anchor with
  | None => Some (Returns (s, Ok (processed, candidate_dirty_seen)))
  | Some input =>
      match fuel with
      | O => None
      | S fuel' =>
          match drain_one s input with
          | Panics => Some Panics
          | Returns (s, Err e) => Some (Returns (s, Err e))
          | Returns (s, Ok candidate_dirty) =>
              match (if per_input && candidate_dirty
                     then materialize_candidate_artifacts_with_authority env s false
                     else Returns s) with
              | Panics => Some Panics
              | Returns s =>
                  drain_loop env per_input fuel' durable_anchor (S processed)
                    (candidate_dirty_seen || candidate_dirty) s
              end
          end
      end
  end.

(** The queue is enough fuel: [drain_terminates]. *)
Definition run_drain (env : SupervisorEnv) (per_input : bool) (s : AppSupervisor) :
    option (Method (nat * bool)) :=
  drain_loop env per_input (length (sv_input_tasks s)) (last_journal_seq (sv_runtime s)) 0 false s.

Definition drain_input_tasks (env : SupervisorEnv) (s : AppSupervisor) : Method nat :=
  let! s x := default Panics (run_drain env true s) in Returns (s, Ok x.1).

Definition drain_input_tasks_authoritative_discovery (env : SupervisorEnv) (s : AppSupervisor) :
    Method nat :=
  let! s x := default Panics (run_drain env false s) in
  s ← (if x.2 then materialize_candidate_artifacts_with_authority env s true else Returns s);
  Returns (s, Ok x.1).

(** ** Live and shadow records *)

(** [apply_live_submit_facts]: [n] counts the records applied so far, which is also
    the number of clock readings. *)
Fixpoint apply_live_submit_facts (env : SupervisorEnv) (records : list NegRiskLiveExecutionRecord)
    (next_journal_seq : Z) (n : nat) (s : AppSupervisor) : Method nat :=
  match records with
  | [] => Returns (s, Ok n)
  | record :: records' =>
      match (match lr_submission_ref record with
             | Some r => Some r | None => lr_pending_ref record end) with
      | None => apply_live_submit_facts env records' next_journal_seq n s
      | Some submission_ref =>
          let next_journal_seq := i64_add next_journal_seq 1 in
          let input := input_new next_journal_seq
            (negrisk_live_submit_observed "app-live-bootstrap"
               ("live-submit-" +:+ lr_attempt_id record) (lr_attempt_id record)
               (lr_scope record) submission_ref (env_now env n)) in
          '(r, res) ← apply_input (sv_runtime s) input;
          let s := s <| sv_runtime := r |> in
          match res with
          | Err e => Returns (s, Err (SvApply e))
          | Ok applied =>
              s ← (match applied with
                   | Applied _ version dirty =>
                       publish_current_snapshot
                         (s <| sv_dispatcher ::= λ d, record_apply d version dirty |>) false
                   | _ => Returns s
                   end);
              let s := record_committed_input s input in
              if bool_decide (0 < runtime_pending_reconcile_count (sv_runtime s))%nat
              then Returns (s, Ok (S n))
              else apply_live_submit_facts env records' next_journal_seq (S n) s
          end
      end
  end.

Definition refresh_shadow_records (env : SupervisorEnv) (snapshot_id : string)
    (s : AppSupervisor) : Method () :=
  r ← eligible_shadow_records_with_run_session_id snapshot_id (sv_live_targets s)
        (sv_live_approved_families s) (sv_live_ready_families s) (sv_run_session_id s);
  match r with
  | Err e => Returns (s, Err (SvShadow e))
  | Ok records =>
      let attempts := sr_attempt <$> records in
      let artifacts := records ≫= sr_artifacts in
      let '(w, persisted) :=
        if sv_durable_shadow_persistence_enabled s
        then env_persist_shadow env attempts artifacts (sv_run_session_id s) (sv_world s)
        else (sv_world s, Ok ()) in
      let s := s <| sv_world := w |> in
      match persisted with
      | Err e => Returns (s, Err (SvPersistence e))
      | Ok _ =>
          Returns (s <| sv_shadow_attempts := attempts |> <| sv_shadow_artifacts := artifacts |>
                     <| sv_live_records := [] |> <| sv_live_state_source := LiveSourceNone |>,
                   Ok ())
      end
  end.

Definition refresh_live_records (env : SupervisorEnv) (snapshot_id : string)
    (s : AppSupervisor) : Method () :=
  '(w, r) ← (match sv_live_backend s with
             | Some backend =>
                 eligible_live_records_with_backend snapshot_id (sv_live_targets s)
                   (sv_live_approved_families s) (sv_live_ready_families s) backend (sv_world s)
             | None =>
                 eligible_live_records snapshot_id (sv_live_targets s)
                   (sv_live_approved_families s) (sv_live_ready_families s) (sv_world s)
             end);
  let s := s <| sv_world := w |> in
  match r with
  | Err e => Returns (s, Err (SvLive e))
  | Ok records =>
      let! s applied := apply_live_submit_facts env records
        (default 0 (last_journal_seq (sv_runtime s))) 0 s in
      let applied_records := take applied records in
      let '(w, persisted) :=
        if sv_durable_live_persistence_enabled s
        then env_persist_live env applied_records (sv_run_session_id s) (sv_world s)
        else (sv_world s, Ok ()) in
      let s := s <| sv_world := w |> in
      match persisted with
      | Err e => Returns (s, Err (SvPersistence e))
      | Ok _ =>
          let s := s <| sv_live_records := applied_records |> in
          Returns (s <| sv_live_state_source :=
                      if bool_decide (length applied_records = 0%nat) then LiveSourceNone
                      else SyntheticBootstrap |>, Ok ())
      end
  end.

Definition is_live_mode (r : AppRuntime) : bool :=
  match ar_app_mode r with LiveMode => true | Paper => false end.

Definition refresh_neg_risk_live_execution_records (env : SupervisorEnv)
    (allow_operator_synthesis : bool) (s : AppSupervisor) : Method () :=
  if negb (is_live_mode (sv_runtime s)) || negb allow_operator_synthesis then Returns (s, Ok ())
  else if (if sv_real_user_shadow_smoke_enabled s
           then negb (bool_decide (length (sv_shadow_attempts s) = 0%nat))
           else negb (bool_decide (length (sv_live_records s) = 0%nat))) then Returns (s, Ok ())
  else
    match published_snapshot_id (sv_runtime s), sv_rollout_evidence s with
    | Some snapshot_id, Some evidence =>
        if bool_decide (re_live_ready_family_count evidence = 0%nat) then Returns (s, Ok ())
        else if sv_real_user_shadow_smoke_enabled s
        then refresh_shadow_records env snapshot_id s
        else refresh_live_records env snapshot_id s
    | _, _ => Returns (s, Ok ())
    end.

(** ** Anchors *)

Definition seeded_state_version (seed : RuntimeSeed) : Z :=
  default (sd_last_state_version seed) (sd_committed_state_version seed).

Definition validate_rollout_evidence_anchor (s : AppSupervisor) : result SupervisorError () :=
  let seed := sv_seed s in
  if negb (is_live_mode (sv_runtime s)) then Ok ()
  else if bool_decide (sd_last_journal_seq seed = None) &&
          bool_decide (seeded_state_version seed = 0) &&
          bool_decide (last_journal_seq (sv_runtime s) = Some 0) &&
          bool_decide (runtime_state_version (sv_runtime s) = 0) &&
          bool_decide (sd_rollout_evidence seed = None) then Ok ()
  else if bool_decide (runtime_state_version (sv_runtime s) = 0) &&
          bool_decide (sd_published_snapshot_id seed = None) &&
          bool_decide (sv_rollout_evidence s = None) then Ok ()
  else
    match sd_rollout_evidence seed, sv_rollout_evidence s with
    | Some expected, Some actual =>
        if bool_decide (expected = actual) then Ok () else Err (SvEvidenceMismatch expected actual)
    | Some expected, None => Err (SvEvidenceMissing expected)
    | None, Some _ => Err SvEvidenceRequired
    | None, None => Ok ()
    end.

Definition validate_shadow_anchor (s : AppSupervisor) : result SupervisorError () :=
  if negb (sv_real_user_shadow_smoke_enabled s) ||
     (bool_decide (length (sd_shadow_attempts (sv_seed s)) = 0%nat) &&
      bool_decide (length (sd_shadow_artifacts (sv_seed s)) = 0%nat)) then Ok ()
  else
    match published_snapshot_id (sv_runtime s) with
    | None => Err SvShadowNeedsSnapshot
    | Some id =>
        if bool_decide (length (sv_shadow_attempts s) = 0%nat) ||
           bool_decide (length (sv_shadow_artifacts s) = 0%nat) then Err SvShadowNeedsRecords
        else if existsb (λ a, negb (bool_decide (xr_snapshot_id a = id))) (sv_shadow_attempts s)
        then Err SvShadowSnapshotMismatch
        else Ok ()
    end.

Definition validate_live_anchor (s : AppSupervisor) : result SupervisorError () :=
  if negb (is_live_mode (sv_runtime s)) then Ok ()
  else if sv_real_user_shadow_smoke_enabled s then Ok ()
  else if bool_decide (default 0%nat (re_live_ready_family_count <$> sv_rollout_evidence s) = 0%nat)
  then Ok ()
  else if bool_decide (length (sv_live_records s) = 0%nat) then Err SvLiveRecordsRequired
  else
    match published_snapshot_id (sv_runtime s) with
    | None => Err SvLiveNeedsSnapshot
    | Some id =>
        if existsb (λ r, negb (bool_decide (lr_snapshot_id r = id))) (sv_live_records s)
        then Err SvLiveSnapshotMismatch
        else Ok ()
    end.

Definition check (s : AppSupervisor) (r : result SupervisorError ()) : Method () := Returns (s, r).

(** ** Seeds *)

Definition has_seeded_startup_state (s : AppSupervisor) : bool :=
  let seed := sv_seed s in
  bool_decide (is_Some (sd_last_journal_seq seed)) ||
  bool_decide (is_Some (sd_committed_state_version seed)) ||
  bool_decide (is_Some (sd_published_snapshot_id seed)) ||
  bool_decide (is_Some (sd_pending_reconcile_count seed)) ||
  negb (bool_decide (length (sd_pending_reconcile_anchors seed) = 0%nat)) ||
  negb (bool_decide (length (sd_live_records seed) = 0%nat)) ||
  negb (bool_decide (length (sd_shadow_attempts seed) = 0%nat)).

Definition allow_operator_rollout_evidence_synthesis (s : AppSupervisor) : bool :=
  let seed := sv_seed s in
  let pristine_bootstrap :=
    bool_decide (sd_last_journal_seq seed = None) &&
    bool_decide (sd_committed_state_version seed = None) &&
    bool_decide (sd_published_snapshot_id seed = None) &&
    bool_decide (sd_pending_reconcile_count seed = None) &&
    bool_decide (length (sd_pending_reconcile_anchors seed) = 0%nat) &&
    bool_decide (sd_rollout_evidence seed = None) &&
    bool_decide (length (sd_live_records seed) = 0%nat) &&
    bool_decide (length (sd_shadow_attempts seed) = 0%nat) &&
    bool_decide (length (sv_committed_log s) = 0%nat) &&
    bool_decide (last_journal_seq (sv_runtime s) = Some 0) &&
    bool_decide (runtime_state_version (sv_runtime s) = 0) in
  pristine_bootstrap ||
  (has_seeded_startup_state s &&
   bool_decide (runtime_pending_reconcile_count (sv_runtime s) = 0%nat) &&
   bool_decide (length (sv_live_records s) = 0%nat) &&
   bool_decide (length (sv_shadow_attempts s) = 0%nat) &&
   bool_decide (length (sd_pending_reconcile_anchors seed) = 0%nat) &&
   bool_decide (sd_rollout_evidence seed = None)).

Definition validate_seeded_startup_restore (s : AppSupervisor) : result SupervisorError () :=
  _ ← (if bool_decide (sd_rollout_evidence (sv_seed s) = None) then Ok ()
       else validate_rollout_evidence_anchor s);
  if bool_decide (length (sd_live_records (sv_seed s)) = 0%nat) then Ok ()
  else validate_live_anchor s.


(** The seeding methods. *)
Inductive SeedOp :=
| SeedRuntimeProgress (last_journal_seq last_state_version : Z)
    (published_snapshot_id : option string)
| SeedCommittedStateVersion (v : Z)
| SeedPendingReconcileCount (n : nat)
| SeedPendingReconcileAnchor (a : PendingReconcileAnchor)
| SeedRolloutEvidence (e : NegRiskRolloutEvidence)
| SeedCandidateRestoreStatus (c : CandidateRestoreStatus)
| SeedLiveTargets (targets : LiveTargets)
| SeedLiveApproval (family_id : string)
| SeedLiveReadyFamily (family_id : string)
| SeedLiveRecord (r : NegRiskLiveExecutionRecord)
| SeedShadowAttempt (a : ExecutionAttemptRow)
| SeedShadowArtifact (a : ShadowExecutionArtifactRow)
| SeedCommittedInput (i : InputTaskEvent)
| SeedUnappliedJournalEntry (journal_seq : Z) (i : InputTaskEvent)
| EnableRealUserShadowSmoke
| EnableDurableLivePersistence
| EnableDurableShadowPersistence
| SetRunSessionId (id : string)
| SetLiveBackend (b : NegRiskLiveExecutionBackend (World := World)).

Definition seed_neg_risk_live_targets (s : AppSupervisor) (targets : LiveTargets) :
    AppSupervisor :=
  s <| sv_live_target_revision :=
         if bool_decide (size (targets : gmap _ _) = 0%nat) then None
         else Some (neg_risk_live_target_revision_from_targets targets) |>
    <| sv_live_targets := targets |>.

Definition seed_unapplied_journal_entry (s : AppSupervisor) (journal_seq : Z)
    (input : InputTaskEvent) : AppSupervisor :=
  let input := {| it_journal_seq := journal_seq; it_event := it_event input;
                  it_hint := it_hint input |} in
  s <| sv_input_tasks ::= λ q, ingress_push q input |>.

Definition seed_op (s : AppSupervisor) (op : SeedOp) : AppSupervisor :=
  match op with
  | SeedRuntimeProgress q v id =>
      s <| sv_seed ::= λ d, d <| sd_last_journal_seq := Some q |> <| sd_last_state_version := v |>
                              <| sd_published_snapshot_id := id |> |>
  | SeedCommittedStateVersion v => s <| sv_seed ::= λ d, d <| sd_committed_state_version := Some v |> |>
  | SeedPendingReconcileCount n => s <| sv_seed ::= λ d, d <| sd_pending_reconcile_count := Some n |> |>
  | SeedPendingReconcileAnchor a =>
      s <| sv_seed ::= λ d, d <| sd_pending_reconcile_anchors ::= λ l, l ++ [a] |> |>
  | SeedRolloutEvidence e => s <| sv_seed ::= λ d, d <| sd_rollout_evidence := Some e |> |>
  | SeedCandidateRestoreStatus c =>
      s <| sv_seed ::= λ d, d <| sd_candidate_restore_status := c |> |>
        <| sv_candidate_restore_status := c |>
  | SeedLiveTargets targets => seed_neg_risk_live_targets s targets
  | SeedLiveApproval f => s <| sv_live_approved_families ::= λ fs, {[ f ]} ∪ fs |>
  | SeedLiveReadyFamily f => s <| sv_live_ready_families ::= λ fs, {[ f ]} ∪ fs |>
  | SeedLiveRecord r => s <| sv_seed ::= λ d, d <| sd_live_records ::= λ l, l ++ [r] |> |>
  | SeedShadowAttempt a => s <| sv_seed ::= λ d, d <| sd_shadow_attempts ::= λ l, l ++ [a] |> |>
  | SeedShadowArtifact a => s <| sv_seed ::= λ d, d <| sd_shadow_artifacts ::= λ l, l ++ [a] |> |>
  | SeedCommittedInput i => record_committed_input s i
  | SeedUnappliedJournalEntry q i => seed_unapplied_journal_entry s q i
  | EnableRealUserShadowSmoke => s <| sv_real_user_shadow_smoke_enabled := true |>
  | EnableDurableLivePersistence => s <| sv_durable_live_persistence_enabled := true |>
  | EnableDurableShadowPersistence => s <| sv_durable_shadow_persistence_enabled := true |>
  | SetRunSessionId id => s <| sv_run_session_id := Some id |>
  | SetLiveBackend b => s <| sv_live_backend := Some b |>
  end.

(** ** Summaries and the dispatcher *)

Record SupervisorSummary := {
  sm_fullset_mode : ExecutionMode;
  sm_negrisk_mode : ExecutionMode;
  sm_real_user_shadow_smoke : bool;
  sm_live_attempt_count : nat;
  sm_live_state_source : NegRiskLiveStateSource;
  sm_rollout_evidence_source : NegRiskRolloutEvidenceSource;
  sm_bootstrap_status : BootstrapStatus;
  sm_runtime_mode : RuntimeMode;
  sm_pending_reconcile_count : nat;
  sm_last_journal_seq : Z;
  sm_last_state_version : Z;
  sm_published_snapshot_id : option string;
  sm_published_snapshot_committed_journal_seq : option Z;
  sm_candidate_restore_status : CandidateRestoreStatus;
  sm_rollout_evidence : option NegRiskRolloutEvidence;
  sm_global_posture : SupervisorPosture;
  sm_ingress_backlog_count : nat;
  sm_follow_up_backlog_count : nat;
}.

Definition summary (s : AppSupervisor) : SupervisorSummary :=
  let r := sv_runtime s in
  let live_attempts := length (sv_live_records s) in
  {| sm_fullset_mode := Live;
     sm_negrisk_mode := if bool_decide (0 < live_attempts)%nat then Live else Shadow;
     sm_real_user_shadow_smoke := sv_real_user_shadow_smoke_enabled s;
     sm_live_attempt_count := live_attempts;
     sm_live_state_source := sv_live_state_source s;
     sm_rollout_evidence_source := sv_rollout_evidence_source s;
     sm_bootstrap_status := bootstrap_status r;
     sm_runtime_mode := runtime_mode (ar_store r);
     sm_pending_reconcile_count := runtime_pending_reconcile_count r;
     sm_last_journal_seq := default 0 (last_journal_seq r);
     sm_last_state_version := runtime_state_version r;
     sm_published_snapshot_id := published_snapshot_id r;
     sm_published_snapshot_committed_journal_seq :=
       ps_committed_journal_seq <$> ar_published_snapshot r;
     sm_candidate_restore_status := sv_candidate_restore_status s;
     sm_rollout_evidence := sv_rollout_evidence s;
     sm_global_posture := sv_posture s;
     sm_ingress_backlog_count := length (sv_input_tasks s);
     sm_follow_up_backlog_count := runtime_pending_reconcile_count r |}.

Definition flush_dispatch (s : AppSupervisor) : AppSupervisor * DispatchSummary :=
  let '(d, m) := flush (sv_dispatcher s) in (s <| sv_dispatcher := d |>, m).

Definition push_dirty_snapshot (s : AppSupervisor) (version : Z)
    (fullset_ready negrisk_ready : bool) : AppSupervisor :=
  s <| sv_dispatcher ::= λ d, push_test_snapshot d version fullset_ready negrisk_ready |>.

Definition can_resume_ingest_loops (s : AppSupervisor) : bool :=
  bool_decide (runtime_pending_reconcile_count (sv_runtime s) = 0%nat) &&
  bool_decide (length (sv_input_tasks s) = 0%nat).

Definition is_ready (r : AppRuntime) : bool :=
  match bootstrap_status r with BootstrapReady => true | BootstrapCancelOnly => false end.

Definition restoring_seeded_startup (s : AppSupervisor) : bool :=
  negb (is_ready (sv_runtime s)) && has_seeded_startup_state s.

Definition startup_phase_label (s : AppSupervisor) : string :=
  if restoring_seeded_startup s then "restore" else "bootstrap".

(** ** Runs *)

(** What [restore_seeded_startup_state] and [resume_once] start from. *)
Definition fresh_runtime (s : AppSupervisor) (c : CandidateRestoreStatus) : AppSupervisor :=
  s <| sv_runtime := runtime_new (ar_app_mode (sv_runtime s)) |>
    <| sv_rollout_evidence := None |> <| sv_rollout_evidence_source := EvidenceNone |>
    <| sv_candidate_restore_status := c |> <| sv_live_records := [] |>
    <| sv_live_state_source := LiveSourceNone |>
    <| sv_shadow_attempts := [] |> <| sv_shadow_artifacts := [] |>.

(** The durable records, as far as the published snapshot still has them. *)
Definition adopt_durable_records (s : AppSupervisor) : AppSupervisor :=
  let seed := sv_seed s in
  let s := s <| sv_live_records := sd_live_records seed |>
             <| sv_live_state_source :=
                  if bool_decide (length (sd_live_records seed) = 0%nat) then LiveSourceNone
                  else DurableRestore |>
             <| sv_shadow_attempts := sd_shadow_attempts seed |>
             <| sv_shadow_artifacts := sd_shadow_artifacts seed |> in
  retain_current_shadow_records (retain_current_live_records s).

(** The end of [restore_seeded_startup_state], past the count check. *)
Definition publish_restored (s : AppSupervisor) : Method () :=
  s ← publish_current_snapshot s false;
  let s := adopt_durable_records s in check s (validate_shadow_anchor s).

Definition restore_seeded_startup_state (s : AppSupervisor) : Method () :=
  let seed := sv_seed s in
  let s := fresh_runtime s (sd_candidate_restore_status seed) in
  match sd_last_journal_seq seed with
  | None => Returns (s, Err SvRestoreNeedsLastSeq)
  | Some last_journal_seq =>
      let s := s <| sv_runtime ::= λ r, foldl runtime_restore_pending_reconcile_anchor
                      (runtime_restore_committed_anchor r (seeded_state_version seed)
                         last_journal_seq)
                      (sd_pending_reconcile_anchors seed) |> in
      let restored := runtime_pending_reconcile_count (sv_runtime s) in
      match sd_pending_reconcile_count seed with
      | Some expected =>
          if bool_decide (restored = expected) then publish_restored s
          else Returns (s, Err (SvPendingCountMismatch expected restored))
      | None => publish_restored s
      end
  end.

Definition bootstrap_runtime (s : AppSupervisor) : AppSupervisor :=
  s <| sv_runtime ::= λ r, (bootstrap_once r (sv_bootstrap_snapshot s)).1 |>.

(** The end of every run: the anchor is checked, the dispatcher flushed. *)
Definition finish_run (s : AppSupervisor) : Method SupervisorSummary :=
  let! s _ := check s (validate_live_anchor s) in
  let s := (flush_dispatch s).1 in Returns (s, Ok (summary s)).

Definition run_once (env : SupervisorEnv) (s : AppSupervisor) : Method SupervisorSummary :=
  let restoring := restoring_seeded_startup s in
  let! s _ := (if restoring then restore_seeded_startup_state s
               else Returns (if is_ready (sv_runtime s) then s else bootstrap_runtime s, Ok ())) in
  let allow_operator_synthesis := allow_operator_rollout_evidence_synthesis s in
  s ← publish_current_snapshot s allow_operator_synthesis;
  let! s _ := refresh_neg_risk_live_execution_records env allow_operator_synthesis s in
  let! s _ := check s (if restoring then validate_seeded_startup_restore s else Ok ()) in
  let! s _ := drain_input_tasks env s in
  finish_run s.

Definition run_authoritative_discovery_once (env : SupervisorEnv)
    (rendered_live_targets : LiveTargets) (inputs : list InputTaskEvent) (s : AppSupervisor) :
    Method SupervisorSummary :=
  let s := seed_neg_risk_live_targets s rendered_live_targets in
  let s := foldl (λ s input, seed_unapplied_journal_entry s (it_journal_seq input) input) s inputs in
  let s := if is_ready (sv_runtime s) then s else bootstrap_runtime s in
  let allow_operator_synthesis := allow_operator_rollout_evidence_synthesis s in
  s ← publish_current_snapshot s allow_operator_synthesis;
  let! s _ := refresh_neg_risk_live_execution_records env allow_operator_synthesis s in
  let! s _ := drain_input_tasks_authoritative_discovery env s in
  finish_run s.

Definition materialize_authoritative_discovery_batch (env : SupervisorEnv)
    (rendered_live_targets : LiveTargets) (inputs : list InputTaskEvent) (run_session_id : string)
    (w : World) : Method SupervisorSummary :=
  let s := supervisor_new LiveMode remote_snapshot_empty w in
  let s := s <| sv_run_session_id := Some run_session_id |> in
  run_authoritative_discovery_once env rendered_live_targets inputs s.

Record AppRunResult := {
  rn_runtime : AppRuntime;
  rn_report : ReconcileReport;
  rn_summary : SupervisorSummary;
}.

Definition run_startup (env : SupervisorEnv) (s : AppSupervisor) : Method AppRunResult :=
  let! s sm := run_once env s in
  Returns (s, Ok {| rn_runtime := sv_runtime s;
                    rn_report := {| rr_succeeded := true; rr_promoted_from_bootstrap := false;
                                    rr_remote_applied := false; rr_attention := [] |};
                    rn_summary := sm |}).

(** The error of [refresh_neg_risk_live_execution_records] is [expect]ed away. *)
Definition run_bootstrap (env : SupervisorEnv) (s : AppSupervisor) : outcome AppRunResult :=
  let '(r, report) := bootstrap_once (sv_runtime s) (sv_bootstrap_snapshot s) in
  let s := s <| sv_runtime := r |> in
  let allow_operator_synthesis := allow_operator_rollout_evidence_synthesis s in
  s ← publish_current_snapshot s allow_operator_synthesis;
  match refresh_neg_risk_live_execution_records env allow_operator_synthesis s with
  | Panics | Returns (_, Err _) => Panics
  | Returns (s, Ok _) =>
      let s := (flush_dispatch s).1 in
      Returns {| rn_runtime := sv_runtime s; rn_report := report; rn_summary := summary s |}
  end.

(** ** Resume *)

Definition resume_last_journal_seq (s : AppSupervisor) : result SupervisorError Z :=
  match sd_last_journal_seq (sv_seed s) with
  | Some q => Ok q
  | None =>
      if bool_decide (seeded_state_version (sv_seed s) = 0) &&
         bool_decide (length (sv_committed_log s) = 0%nat) then Ok 0
      else Err SvResumeNeedsLastSeq
  end.

(** A seed that counts no pending anchors clears those the replay rebuilt. *)
Definition check_pending_reconcile (s : AppSupervisor) : Method () :=
  let rebuilt := runtime_pending_reconcile_count (sv_runtime s) in
  match sd_pending_reconcile_count (sv_seed s) with
  | Some O => Returns (s <| sv_runtime ::= runtime_clear_pending_reconcile_after_restore |>, Ok ())
  | Some expected =>
      if bool_decide (rebuilt = expected) then Returns (s, Ok ())
      else Returns (s, Err (SvPendingCountMismatch expected rebuilt))
  | None =>
      if bool_decide (rebuilt = 0%nat) then Returns (s, Ok ())
      else Returns (s, Err SvPendingCountRequired)
  end.

Definition check_durable_anchor (s : AppSupervisor) (last_seq : Z) : result SupervisorError () :=
  let r := sv_runtime s in
  let version := seeded_state_version (sv_seed s) in
  if negb (bool_decide (runtime_state_version r = version))
  then Err (SvStateVersionMismatch (runtime_state_version r) version)
  else if negb (bool_decide (last_journal_seq r = Some last_seq))
  then Err (SvLastJournalSeqMismatch (default 0 (last_journal_seq r)) last_seq)
  else Ok ().

(** The part of [resume_once] before the drain. *)
Definition resume_state (s : AppSupervisor) : Method () :=
  let s := fresh_runtime s candidate_restore_status_default in
  match resume_last_journal_seq s with
  | Err e => Returns (s, Err e)
  | Ok last_seq =>
      '(r, res) ← replay_committed_history (sv_runtime s) (sv_committed_log s);
      let s := s <| sv_runtime := r |> in
      match res with
      | Err e => Returns (s, Err (SvApply e))
      | Ok _ =>
          let s := s <| sv_candidate_restore_status := sd_candidate_restore_status (sv_seed s) |> in
          let! s _ := check_pending_reconcile s in
          let! s _ := check s (check_durable_anchor s last_seq) in
          s ← (if bool_decide (0 < runtime_state_version (sv_runtime s)) ||
                  bool_decide (is_Some (sd_published_snapshot_id (sv_seed s))) ||
                  bool_decide (sd_last_state_version (sv_seed s) = 0)
               then publish_current_snapshot s false else Returns s);
          let s := adopt_durable_records s in
          let! s _ := check s (validate_shadow_anchor s) in
          check s (validate_rollout_evidence_anchor s)
      end
  end.

Definition resume_once (env : SupervisorEnv) (s : AppSupervisor) : Method SupervisorSummary :=
  let! s _ := resume_state s in
  let! s _ := drain_input_tasks env s in
  s ← (if bool_decide (published_snapshot_id (sv_runtime s) = None) &&
          bool_decide (0 < runtime_state_version (sv_runtime s))
       then publish_current_snapshot s false else Returns s);
  finish_run s.
End supervisor.

(** ** Concrete runs *)

(** The world counts the writes to the database. *)
Definition counting_env : SupervisorEnv (X := Micros) (World := nat) :=
  @Build_SupervisorEnv Micros nat (λ _ _ w, (S w, Ok ())) (λ _ _ _ w, (S w, Ok ()))
    {| upsert_strategy_candidate_set _ w := (S w, Ok ());
       upsert_adoptable_strategy_revision _ w := (S w, Ok ());
       connect_pool w := (w, Ok ()) |} (λ _, 0).

(** A live supervisor whose operator has approved the given families, both of which
    are ready. *)
Definition operator_supervisor (approved : list string) (ops : list SeedOp) :
    AppSupervisor (X := Micros) (World := nat) :=
  foldl (seed_op (J := plain_json))
    (supervisor_new LiveMode remote_snapshot_empty 0%nat)
    ([SeedLiveTargets sample_targets; SeedLiveReadyFamily "family-a";
      SeedLiveReadyFamily "family-b"] ++ (SeedLiveApproval <$> approved) ++ ops).

Definition run_of (s : AppSupervisor (X := Micros) (World := nat)) :=
  run_once (J := plain_json) (H := ElementsOrder) counting_env s.

(** [supervisor_uses_injected_neg_risk_backend_for_synthetic_live_bootstrap] *)
Example operator_live_run :
  match run_of (operator_supervisor ["family-a"] [EnableDurableLivePersistence]) with
  | Returns (s, Ok m) =>
      (sm_negrisk_mode m, lr_scope <$> sv_live_records s, sm_live_state_source m,
       sm_pending_reconcile_count m, sv_world s) =
      (Live, ["family-a"], SyntheticBootstrap, 1%nat, 1%nat)
  | _ => False
  end.
Proof. vm_compute. reflexivity. Qed.

(** [smoke_supervisor_without_durable_persistence_capability_ignores_ambient_database_url] *)
Example operator_smoke_run :
  match run_of (operator_supervisor ["family-a"] [EnableRealUserShadowSmoke]) with
  | Returns (s, Ok m) =>
      (sm_negrisk_mode m, sm_live_attempt_count m, length (sv_shadow_attempts s),
       length (sv_shadow_artifacts s), sv_world s) = (Shadow, 0, 1, 1, 0)%nat
  | _ => False
  end.
Proof. vm_compute. reflexivity. Qed.

(** With two families approved the backend submits both, but the first submission
    leaves a pending reconcile, at which the facts stop: the second attempt is neither
    applied, kept nor persisted. *)
Example second_submission_dropped :
  let s := operator_supervisor ["family-a"; "family-b"] [EnableDurableLivePersistence] in
  match eligible_live_records (J := plain_json) "snapshot-0" (sv_live_targets s)
          (sv_live_approved_families s) (sv_live_ready_families s) 0%nat, run_of s with
  | Returns (_, Ok submitted), Returns (s', Ok _) =>
      (lr_scope <$> submitted, lr_scope <$> sv_live_records s',
       it_journal_seq <$> sv_committed_log s') =
      (["family-a"; "family-b"], ["family-a"], [1])
  | _, _ => False
  end.
Proof. vm_compute. reflexivity. Qed.
