(* ===== verification/Durable.v ===== *)
(** * The durable side of the application

    The functions of [app-live/src/runtime.rs] that write execution records to the
    repositories, load them at startup, check the durable anchors and start a live
    supervisor from them; and the repositories as the supervisor's database. *)

From S2P Require Import Prelude Text RecordSet Externals Json Domain RuntimeMode Facts Store Apply.
From S2P Require Import Reconcile StoreInvariants Snapshot Risk Plans Execution Dispatch Runtime.
From S2P Require Import LiveRecords Discovery Supervisor Rows AppConfig Schema RepoJournal.
From S2P Require Import RepoExecution RepoSessions RepoControl.

Section durable.
Context {X : Externals} {J : JsonOps} {P : PgOps}.

(** [Box<dyn Error>]: the errors that are boxed, and the messages built here. *)
Inductive BoxedError :=
| FromPersistence (e : PersistenceError)
| FromSupervisor (e : SupervisorError)
| Boxed (message : string).

Inductive AppStop := AppFails (e : BoxedError) | AppPanicked.

(** What runs on the pool and ends with a boxed error. *)
Definition App (A : Type) : Type := Schedule → nat * Db → (nat * Db) * result AppStop A.

#[export] Instance app_ret : MRet App := λ A a env st, (st, Ok a).
#[export] Instance app_bind : MBind App := λ A B f m env st,
  match m env st with
  | (st, Ok a) => f a env st
  | (st, Err e) => (st, Err e)
  end.

Definition app_fail {A} (e : BoxedError) : App A := λ _ st, (st, Err (AppFails e)).
Definition app_of {A} (r : result BoxedError A) : App A := λ _ st, (st, map_err AppFails r).

(** [m.await?]: a [PersistenceError] is boxed. *)
Definition from_pool {A} (m : Pool A) : App A := λ env st,
  let '(st, r) := m env st in
  (st, map_err (λ e, match e with
                     | Fails e => AppFails (FromPersistence e)
                     | Panicked => AppPanicked
                     end) r).

(** [connect_pool_from_env]: whether there is a database is the same for every call. *)
Definition connect_pool_from_env (connect : result PersistenceError ()) : App () :=
  app_of (map_err FromPersistence connect).

Fixpoint app_each {A} (f : A → App ()) (xs : list A) : App () :=
  match xs with
  | [] => mret ()
  | x :: xs' => _ ← f x; app_each f xs'
  end.

(** ** Targets *)

Definition operator_target_revision_for (targets : NegRiskLiveTargetSet) : option string :=
  if target_set_is_empty targets then None
  else Some (ts_revision targets).

(** ** Writing execution records *)

Definition execution_attempt_row_for_live_record (record : NegRiskLiveExecutionRecord)
    (run_session_id : option string) : result BoxedError ExecutionAttemptRow :=
  attempt_no ← ok_or (i32_try_from (lr_attempt_no record))
    (Boxed ("live attempt " +:+ lr_attempt_id record +:+ " attempt_no " +:+
            pretty (lr_attempt_no record) +:+ " does not fit in i32"));
  Ok {| xr_attempt_id := lr_attempt_id record; xr_plan_id := lr_plan_id record;
        xr_snapshot_id := lr_snapshot_id record; xr_route := lr_route record;
        xr_scope := lr_scope record; xr_matched_rule_id := lr_matched_rule_id record;
        xr_execution_mode := lr_execution_mode record; xr_attempt_no := attempt_no;
        xr_idempotency_key := lr_idempotency_key record;
        xr_run_session_id := run_session_id |}.

Definition attempt_row_with_run_session_id (attempt : ExecutionAttemptRow)
    (run_session_id : option string) : ExecutionAttemptRow :=
  match run_session_id with
  | Some id =>
      {| xr_attempt_id := xr_attempt_id attempt; xr_plan_id := xr_plan_id attempt;
         xr_snapshot_id := xr_snapshot_id attempt; xr_route := xr_route attempt;
         xr_scope := xr_scope attempt; xr_matched_rule_id := xr_matched_rule_id attempt;
         xr_execution_mode := xr_execution_mode attempt; xr_attempt_no := xr_attempt_no attempt;
         xr_idempotency_key := xr_idempotency_key attempt; xr_run_session_id := Some id |}
  | None => attempt
  end.

(** The submission row of a record, given its reference. *)
Definition submission_row_for_live_record (record : NegRiskLiveExecutionRecord)
    (submission_ref : string) : LiveSubmissionRecordRow :=
  {| lsr_submission_ref := submission_ref; lsr_attempt_id := lr_attempt_id record;
     lsr_route := lr_route record; lsr_scope := lr_scope record;
     lsr_provider := "venue-polymarket";
     lsr_state := if bool_decide (lr_pending_ref record ≠ None) then "pending_reconcile"
                  else "submitted";
     lsr_payload := json_object
       [("submission_ref", JString submission_ref); ("family_id", JString (lr_scope record));
        ("route", JString (lr_route record)); ("reason", JString "submitted_for_execution");
        ("requests", JArray (lr_order_requests record))] |}.

(** The body of the loop: the attempt and its submission are written one after the
    other, not in one transaction. *)
Definition persist_live_record (run_session_id : option string)
    (record : NegRiskLiveExecutionRecord) : App () :=
  submission_ref ← app_of (ok_or
    (match lr_submission_ref record with Some r => Some r | None => lr_pending_ref record end)
    (Boxed ("missing durable live submission ref for attempt " +:+ lr_attempt_id record)));
  attempt ← app_of (execution_attempt_row_for_live_record record run_session_id);
  _ ← from_pool (attempt_append attempt);
  from_pool (submission_append (submission_row_for_live_record record submission_ref)).

Definition persist_live_execution_records_with_run_session_id
    (connect : result PersistenceError ()) (records : list NegRiskLiveExecutionRecord)
    (run_session_id : option string) : App () :=
  _ ← connect_pool_from_env connect;
  app_each (persist_live_record run_session_id) records.

Definition debug_option_str (s : option string) : string :=
  match s with Some s => "Some(" +:+ debug_str s +:+ ")" | None => "None" end.

(** What is said of each attempt when an id occurs twice. *)
Definition attempt_entry (a : ExecutionAttemptRow) : string :=
  "scope=" +:+ xr_scope a +:+ " plan_id=" +:+ xr_plan_id a +:+ " run_session_id=" +:+
  debug_option_str (xr_run_session_id a).

(** The first id, in order, that occurs more than once, with its entries. *)
Definition first_duplicate (attempts : list ExecutionAttemptRow) :
    option (string * list ExecutionAttemptRow) :=
  head (List.filter (λ kv : string * list ExecutionAttemptRow,
                       bool_decide (1 < length kv.2)%nat)
          (btree_entries str_cmp (group_by xr_attempt_id attempts))).

Definition persist_shadow_execution_records_with_run_session_id
    (connect : result PersistenceError ()) (active : gset string) (details : Z → string)
    (attempts : list ExecutionAttemptRow) (artifacts : list ShadowExecutionArtifactRow)
    (run_session_id : option string) : App () :=
  let attempts := (λ a, attempt_row_with_run_session_id a run_session_id) <$> attempts in
  match first_duplicate attempts with
  | Some (attempt_id, entries) =>
      app_fail (Boxed
        ("duplicate shadow attempt rows reached persistence boundary: attempt_id=" +:+
         attempt_id +:+ " entries=[" +:+
         join ", " ((debug_str ∘ attempt_entry) <$> entries) +:+ "]"))
  | None =>
      _ ← connect_pool_from_env connect;
      from_pool (append_shadow_execution_batch active details attempts artifacts)
  end.

(** ** Loading *)

Definition payload_string (payload : Json) (key : string) : result string string :=
  ok_or (v ← json_get key payload; s ← json_as_str v;
         if bool_decide (trim s = "") then None else Some (trim s))
    ("missing durable payload field " +:+ key).

Definition result_or {E A} (r : result E A) (a : A) : A :=
  match r with Ok x => x | Err _ => a end.

Definition pending_reconcile_anchor_from_row (row : PendingReconcileRow) :
    result BoxedError PendingReconcileAnchor :=
  submission_ref ← map_err Boxed (payload_string (pr_payload row) "submission_ref");
  Ok {| pa_pending_ref := pr_pending_ref row; pa_submission_ref := submission_ref;
        pa_family_id := result_or (payload_string (pr_payload row) "family_id") (pr_scope_id row);
        pa_route := result_or (payload_string (pr_payload row) "route") "neg-risk";
        pa_reason := result_or (payload_string (pr_payload row) "reason") (pr_reason row) |}.

(** [u32::try_from] of an [i32], [u64::try_from] of an [i64]. *)
Definition unsigned_try_from (n : Z) : option Z :=
  if bool_decide (0 <= n) then Some n else None.

Definition durable_live_record
    (submissions_by_attempt : gmap string (list LiveSubmissionRecordRow))
    (pending_by_submission_ref : gmap string string) (attempt : ExecutionAttemptRow) :
    result BoxedError NegRiskLiveExecutionRecord :=
  attempt_no ← ok_or (unsigned_try_from (xr_attempt_no attempt))
    (Boxed ("durable live attempt " +:+ xr_attempt_id attempt +:+ " has negative attempt_no " +:+
            pretty (xr_attempt_no attempt)));
  match default [] (submissions_by_attempt !! xr_attempt_id attempt) with
  | [] => Err (Boxed ("missing durable live submission record for attempt " +:+
                      xr_attempt_id attempt))
  | first :: rest =>
      Ok {| lr_attempt_id := xr_attempt_id attempt; lr_plan_id := xr_plan_id attempt;
            lr_snapshot_id := xr_snapshot_id attempt;
            lr_execution_mode := xr_execution_mode attempt; lr_attempt_no := attempt_no;
            lr_idempotency_key := xr_idempotency_key attempt; lr_route := xr_route attempt;
            lr_scope := xr_scope attempt; lr_matched_rule_id := xr_matched_rule_id attempt;
            lr_submission_ref := Some (lsr_submission_ref first);
            lr_pending_ref := pending_by_submission_ref !! lsr_submission_ref first;
            lr_artifacts := []; lr_order_requests := lsr_payload <$> first :: rest |}
  end.

Definition durable_live_execution_records (attempts : list ExecutionAttemptRow)
    (submissions_by_attempt : gmap string (list LiveSubmissionRecordRow))
    (pending_rows : list PendingReconcileRow) :
    result BoxedError (list NegRiskLiveExecutionRecord) :=
  pending ← collect_results (λ row,
    submission_ref ← map_err Boxed (payload_string (pr_payload row) "submission_ref");
    Ok (submission_ref, pr_pending_ref row)) pending_rows;
  collect_results (durable_live_record submissions_by_attempt (collect_map pending)) attempts.

Definition durable_progress_anchor (progress : option RuntimeProgressRow)
    (has_follow_up_work : bool) : result BoxedError (Z * Z * option string) :=
  match progress with
  | Some progress =>
      version ← ok_or (unsigned_try_from (rp_last_state_version progress))
        (Boxed ("durable runtime progress state version " +:+
                pretty (rp_last_state_version progress) +:+ " is negative"));
      Ok (rp_last_journal_seq progress, version, rp_last_snapshot_id progress)
  | None =>
      if has_follow_up_work then
        Err (Boxed "durable runtime progress is required when live follow-up work exists")
      else Ok (0, 0, Some "snapshot-0")
  end.

Record DurableShadowExecutionState := {
  dss_attempts : list ExecutionAttemptRow;
  dss_artifacts : list ShadowExecutionArtifactRow;
}.

(** Both loops report the first row that fails. *)
Definition durable_shadow_execution_state (attempts : list ExecutionAttemptRow)
    (artifacts : list ShadowExecutionArtifactRow) :
    result BoxedError DurableShadowExecutionState :=
  let known_attempt_ids : list string := xr_attempt_id <$> attempts in
  _ ← collect_results (λ a,
    if bool_decide (xa_attempt_id a ∈ known_attempt_ids) then Ok ()
    else Err (Boxed ("shadow artifact " +:+ xa_stream a +:+
                     " is missing durable shadow attempt " +:+ xa_attempt_id a))) artifacts;
  _ ← collect_results (λ a,
    if bool_decide (xr_attempt_id a ∈ xa_attempt_id <$> artifacts) then Ok ()
    else Err (Boxed ("missing durable shadow artifact for attempt " +:+ xr_attempt_id a)))
    attempts;
  Ok {| dss_attempts := attempts; dss_artifacts := artifacts |}.

Definition strategy_anchor_required : BoxedError :=
  Boxed ("operator strategy revision anchor is required when " +:+
         "a startup strategy bundle is supplied").
Definition target_anchor_required : BoxedError :=
  Boxed "operator target revision anchor is required when live operator targets are supplied".

Definition validate_operator_revision (progress : option RuntimeProgressRow)
    (expected_strategy_revision expected_target_revision : option string)
    (allow_legacy_target_source_resume has_durable_follow_up_work : bool) :
    result BoxedError () :=
  match expected_strategy_revision with
  | Some expected =>
      if negb has_durable_follow_up_work then Ok ()
      else
        match progress with
        | None => Err strategy_anchor_required
        | Some progress =>
            match rp_operator_strategy_revision progress with
            | Some actual =>
                if bool_decide (actual = expected) then Ok ()
                else Err (Boxed ("operator strategy revision anchor mismatch: persisted=" +:+
                                 actual +:+ " configured=" +:+ expected))
            | None =>
                if allow_legacy_target_source_resume &&
                   bool_decide (rp_operator_target_revision progress = Some expected)
                then Ok () else Err strategy_anchor_required
            end
        end
  | None =>
      match expected_target_revision with
      | None => Ok ()
      | Some expected =>
          if negb has_durable_follow_up_work then Ok ()
          else
            match progress with
            | None => Err target_anchor_required
            | Some progress =>
                match rp_operator_target_revision progress with
                | Some actual =>
                    if bool_decide (actual = expected) then Ok ()
                    else Err (Boxed ("operator target revision anchor mismatch: persisted=" +:+
                                     actual +:+ " configured=" +:+ expected))
                | None => Err target_anchor_required
                end
            end
      end
  end.

(** The candidate chain behind the persisted target revision. *)
Definition load_candidate_restore_status (progress : option RuntimeProgressRow) :
    App CandidateRestoreStatus :=
  match p ← progress; rp_operator_target_revision p with
  | None => mret candidate_restore_status_default
  | Some revision =>
      provenance ← from_pool (get_by_operator_target_revision revision);
      match provenance with
      | None => mret candidate_restore_status_default
      | Some provenance =>
          candidate ← from_pool (get_candidate_target_set (cap_candidate_revision provenance));
          candidate ← app_of (ok_or candidate (Boxed
            ("candidate adoption provenance " +:+ revision +:+ " could not load candidate " +:+
             cap_candidate_revision provenance)));
          adoptable ← from_pool (get_adoptable_target_revision
                                   (cap_adoptable_revision provenance));
          adoptable ← app_of (ok_or adoptable (Boxed
            ("candidate adoption provenance " +:+ revision +:+ " could not load adoptable " +:+
             cap_adoptable_revision provenance)));
          if bool_decide (atr_candidate_revision adoptable ≠ cap_candidate_revision provenance) ||
             bool_decide (atr_rendered_operator_target_revision adoptable ≠ revision) then
            app_fail (Boxed ("candidate adoption provenance chain mismatch for operator target " +:+
                             "revision " +:+ revision))
          else
            mret {| crs_latest_candidate_revision := Some (cts_candidate_revision candidate);
                    crs_latest_adoptable_revision := Some (atr_adoptable_revision adoptable);
                    crs_latest_candidate_operator_target_revision := Some revision;
                    crs_adoption_provenance_resolved := true |}
      end
  end.

Record DurableLiveStartupState := {
  dl_last_journal_seq : Z;
  dl_last_state_version : Z;
  dl_published_snapshot_id : option string;
  dl_pending_reconcile_anchors : list PendingReconcileAnchor;
  dl_live_execution_records : list NegRiskLiveExecutionRecord;
  dl_shadow_execution_attempts : list ExecutionAttemptRow;
  dl_shadow_execution_artifacts : list ShadowExecutionArtifactRow;
  dl_candidate_restore_status : CandidateRestoreStatus;
}.

Definition load_shadow_execution_state (load_shadow_state : bool) :
    App DurableShadowExecutionState :=
  if load_shadow_state then
    shadow_attempts ← from_pool list_shadow_attempts;
    shadow_artifacts ← from_pool (shadow_list_for_attempts (xr_attempt_id <$> shadow_attempts));
    app_of (durable_shadow_execution_state shadow_attempts shadow_artifacts)
  else mret {| dss_attempts := []; dss_artifacts := [] |}.

(** The pending anchors and the live records. *)
Definition load_live_follow_up :
    App (list PendingReconcileAnchor * list NegRiskLiveExecutionRecord) :=
  live_attempts ← from_pool list_live_attempts;
  submissions_by_attempt ←
    from_pool (submission_list_for_attempts (xr_attempt_id <$> live_attempts));
  pending_rows ← from_pool pending_list_all;
  anchors ← app_of (collect_results pending_reconcile_anchor_from_row pending_rows);
  records ← app_of (durable_live_execution_records live_attempts submissions_by_attempt
                      pending_rows);
  mret (anchors, records).

Definition load_durable_live_startup_state_for_strategy (connect : result PersistenceError ())
    (operator_strategy_revision operator_target_revision : option string)
    (allow_legacy_target_source_resume load_shadow_state : bool) : App DurableLiveStartupState :=
  _ ← connect_pool_from_env connect;
  progress ← from_pool progress_current;
  follow_up ← load_live_follow_up;
  let '(anchors, records) := follow_up in
  shadow ← load_shadow_execution_state load_shadow_state;
  let has_durable_follow_up_work :=
    negb (bool_decide (anchors = [])) || negb (bool_decide (length records = 0%nat)) ||
    negb (bool_decide (length (dss_attempts shadow) = 0%nat)) in
  candidate_restore_status ← load_candidate_restore_status progress;
  _ ← app_of (validate_operator_revision progress operator_strategy_revision
                operator_target_revision allow_legacy_target_source_resume
                has_durable_follow_up_work);
  anchor ← app_of (durable_progress_anchor progress has_durable_follow_up_work);
  let '(last_journal_seq, last_state_version, published_snapshot_id) := anchor in
  mret {| dl_last_journal_seq := last_journal_seq; dl_last_state_version := last_state_version;
          dl_published_snapshot_id := published_snapshot_id;
          dl_pending_reconcile_anchors := anchors; dl_live_execution_records := records;
          dl_shadow_execution_attempts := dss_attempts shadow;
          dl_shadow_execution_artifacts := dss_artifacts shadow;
          dl_candidate_restore_status := candidate_restore_status |}.

Definition load_durable_live_startup_state (connect : result PersistenceError ())
    (operator_target_revision : option string) (load_shadow_state : bool) :
    App DurableLiveStartupState :=
  load_durable_live_startup_state_for_strategy connect None operator_target_revision false
    load_shadow_state.

Definition validate_real_user_shadow_smoke_restore (durable_state : DurableLiveStartupState)
    (real_user_shadow_smoke : bool) : result BoxedError () :=
  if real_user_shadow_smoke &&
     negb (bool_decide (length (dl_live_execution_records durable_state) = 0%nat)) then
    Err (Boxed "real-user shadow smoke cannot resume with durable live execution records")
  else Ok ().

(** ** Anchoring the operator's revision *)

Definition persist_operator_target_revision_anchor_with_run_session_id
    (connect : result PersistenceError ()) (summary : SupervisorSummary)
    (operator_target_revision operator_strategy_revision active_run_session_id : option string) :
    App () :=
  if bool_decide (operator_target_revision = None) &&
     bool_decide (operator_strategy_revision = None) then mret ()
  else
    _ ← connect_pool_from_env connect;
    version ← app_of (ok_or (if bool_decide (sm_last_state_version summary < 2 ^ 63)
                             then Some (sm_last_state_version summary) else None)
      (Boxed ("startup state version " +:+ pretty (sm_last_state_version summary) +:+
              " does not fit in i64")));
    from_pool (record_progress_with_strategy_revision (sm_last_journal_seq summary) version
                 (sm_published_snapshot_id summary) operator_target_revision
                 operator_strategy_revision active_run_session_id).

Definition persist_operator_startup_anchor (connect : result PersistenceError ())
    (summary : SupervisorSummary)
    (operator_target_revision operator_strategy_revision : option string) : App () :=
  persist_operator_target_revision_anchor_with_run_session_id connect summary
    operator_target_revision operator_strategy_revision None.

(** ** The repositories as the supervisor's database

    The world of the supervisor is the session. Errors reach it rendered ([show] is
    their [Display]). The functions it calls do not panic. *)
Definition as_result {A} (show : BoxedError → string) (r : result AppStop A) : result string A :=
  map_err (λ e, match e with AppFails e => show e | AppPanicked => "" end) r.

Definition run_app {A} (show : BoxedError → string) (m : App A) (env : Schedule)
    (w : nat * Db) : (nat * Db) * result string A :=
  let '(w, r) := m env w in (w, as_result show r).

Definition store_env (connect : result PersistenceError ()) (active : gset string)
    (details : Z → string) (show : BoxedError → string) (env : Schedule)
    (now : nat → DateTime) : SupervisorEnv (World := nat * Db) :=
  {| env_persist_live records run_session_id w :=
       run_app show (persist_live_execution_records_with_run_session_id connect records
                       run_session_id) env w;
     env_persist_shadow attempts artifacts run_session_id w :=
       run_app show (persist_shadow_execution_records_with_run_session_id connect active details
                       attempts artifacts run_session_id) env w;
     env_candidates :=
       {| upsert_strategy_candidate_set row w :=
            run_app show (from_pool (repo_upsert_strategy_candidate_set row)) env w;
          upsert_adoptable_strategy_revision row w :=
            run_app show (from_pool (repo_upsert_adoptable_strategy_revision row)) env w;
          connect_pool w := run_app show (connect_pool_from_env connect) env w |};
     env_now := now |}.

(** ** Starting from the store *)

(** The seeding calls, in order. *)
Definition durable_seeds {World} (durable_state : DurableLiveStartupState)
    (real_user_shadow_smoke : bool) (targets : LiveTargets)
    (approved_families ready_families : list string) : list (SeedOp (World := World)) :=
  [EnableDurableLivePersistence] ++
  (if real_user_shadow_smoke
   then [EnableRealUserShadowSmoke; EnableDurableShadowPersistence] else []) ++
  [SeedRuntimeProgress (dl_last_journal_seq durable_state) (dl_last_state_version durable_state)
     (dl_published_snapshot_id durable_state);
   SeedCommittedStateVersion (dl_last_state_version durable_state);
   SeedPendingReconcileCount (length (dl_pending_reconcile_anchors durable_state));
   SeedCandidateRestoreStatus (dl_candidate_restore_status durable_state)] ++
  (SeedPendingReconcileAnchor <$> dl_pending_reconcile_anchors durable_state) ++
  (SeedLiveRecord <$> dl_live_execution_records durable_state) ++
  (if real_user_shadow_smoke
   then (SeedShadowAttempt <$> dl_shadow_execution_attempts durable_state) ++
        (SeedShadowArtifact <$> dl_shadow_execution_artifacts durable_state)
   else []) ++
  [SeedLiveTargets targets] ++ (SeedLiveApproval <$> approved_families) ++
  (SeedLiveReadyFamily <$> ready_families).

Definition run_live_from_durable_store {H : HashOrder} (connect : result PersistenceError ())
    (active : gset string) (details : Z → string) (show : BoxedError → string)
    (now : nat → DateTime) (snapshot : RemoteSnapshot)
    (operator_strategy_revision : option string) (allow_legacy_target_source_resume : bool)
    (neg_risk_live_targets : NegRiskLiveTargetSet)
    (approved_families ready_families : gset string) (real_user_shadow_smoke : bool) :
    App AppRunResult := λ env st,
  let operator_target_revision := operator_target_revision_for neg_risk_live_targets in
  (durable_state ← load_durable_live_startup_state_for_strategy connect
                     operator_strategy_revision operator_target_revision
                     allow_legacy_target_source_resume real_user_shadow_smoke;
   _ ← app_of (validate_real_user_shadow_smoke_restore durable_state real_user_shadow_smoke);
   run ← (λ env st,
     let s := foldl seed_op (supervisor_new LiveMode snapshot st)
       (durable_seeds durable_state real_user_shadow_smoke (ts_targets neg_risk_live_targets)
          (sort_by str_cmp (elements approved_families))
          (sort_by str_cmp (elements ready_families))) in
     match run_startup (store_env connect active details show env now) s with
     | Panics => (st, Err AppPanicked)
     | Returns (s, Ok run) => (sv_world s, Ok run)
     | Returns (s, Err e) => (sv_world s, Err (AppFails (FromSupervisor e)))
     end);
   _ ← persist_operator_startup_anchor connect (rn_summary run) operator_target_revision
         operator_strategy_revision;
   mret run) env st.
End durable.

#[global] Arguments App {_} _.
