(* ===== verification/DurableProofs.v ===== *)
(** * What the engine finds again after a restart

    Round trips through the store of [Durable]: live execution records, shadow batches,
    operator anchors and discovery snapshots. *)

From Stdlib Require Import Ascii.
From S2P Require Import Prelude Text RecordSet Externals Json Domain RuntimeMode Facts Store Apply.
From S2P Require Import Reconcile StoreInvariants Snapshot Risk Plans Execution Dispatch Runtime.
From S2P Require Import LiveRecords Discovery Supervisor Rows Schema RepoJournal RepoExecution.
From S2P Require Import RepoSessions RepoControl RepoInvariants RepoHistory Durable.

#[local] Arguments set : simpl never.

Section app.
Context {X : Externals} {J : JsonOps} {P : PgOps}.

(** ** Undisturbed runs of the application *)

Lemma runs_app_ret {A} (a : A) now db : runs (mret a : App A) now db db (Ok a).
Proof. intros n. by exists n. Qed.

Lemma runs_app_of {A} (r : result BoxedError A) now db :
  runs (app_of r) now db db (map_err AppFails r).
Proof. intros n. by exists n. Qed.

Lemma runs_app_of_ok {A} (r : result BoxedError A) a now db :
  r = Ok a → runs (app_of r) now db db (Ok a).
Proof. intros ->. apply (runs_app_of (Ok a)). Qed.

Lemma runs_app_of_err {A} (r : result BoxedError A) e now db :
  r = Err e → runs (app_of r) now db db (Err (AppFails e)).
Proof. intros ->. apply (runs_app_of (Err e)). Qed.

Lemma runs_app_bind {A B} (m : App A) (f : A → App B) now db db1 db2 a r :
  runs m now db db1 (Ok a) → runs (f a) now db1 db2 r → runs (m ≫= f) now db db2 r.
Proof.
  intros Hm Hf n. destruct (Hm n) as [n1 E1]. destruct (Hf n1) as [n2 E2]. exists n2.
  unfold mbind, app_bind. by rewrite E1.
Qed.

Lemma runs_app_bind_err {A B} (m : App A) (f : A → App B) now db db1 e :
  runs m now db db1 (Err e) → runs (m ≫= f) now db db1 (Err e).
Proof.
  intros Hm n. destruct (Hm n) as [n1 E1]. exists n1. unfold mbind, app_bind. by rewrite E1.
Qed.

Lemma runs_from_pool {A} (m : Pool A) now db db' a :
  runs m now db db' (Ok a) → runs (from_pool m) now db db' (Ok a).
Proof. intros Hm n. destruct (Hm n) as [n1 E1]. exists n1. unfold from_pool. by rewrite E1. Qed.

Lemma runs_from_pool_err {A} (m : Pool A) now db db' e :
  runs m now db db' (Err (Fails e)) →
  runs (from_pool m) now db db' (Err (AppFails (FromPersistence e))).
Proof. intros Hm n. destruct (Hm n) as [n1 E1]. exists n1. unfold from_pool. by rewrite E1. Qed.

Lemma runs_app_each {A} (f : A → App ()) (step : A → Db → Db) (I : Db → list A → Prop) now :
  (∀ x xs db, I db (x :: xs) → runs (f x) now db (step x db) (Ok ()) ∧ I (step x db) xs) →
  ∀ xs db, I db xs → runs (app_each f xs) now db (foldl (λ d x, step x d) db xs) (Ok ()).
Proof.
  intros Hf xs. induction xs as [|x xs IH]; intros db HI; simpl; [apply runs_app_ret|].
  destruct (Hf _ _ _ HI) as [Hx HI']. eapply runs_app_bind; [exact Hx|]. by apply IH.
Qed.
End app.

Section live.
Context {X : Externals} {O : OrderLaws X} {J : JsonOps} {P : PgOps} {PL : PgLaws P}.

(** ** Writing live records *)

(** The reference a record is stored under. *)
Definition record_ref (record : NegRiskLiveExecutionRecord) : option string :=
  match lr_submission_ref record with Some r => Some r | None => lr_pending_ref record end.

(** What it takes to store a record that is not stored yet. *)
Record persistable (db : Db) (session : option string) (record : NegRiskLiveExecutionRecord)
    (ref : string) : Prop := {
  ps_ref : record_ref record = Some ref;
  ps_attempt_no : 0 <= lr_attempt_no record < 2 ^ 31;
  ps_mode : lr_execution_mode record = Live;
  ps_new_attempt : db_execution_attempts db !! lr_attempt_id record = None;
  ps_new_ref : db_live_submissions db !! ref = None;
  ps_session : refers session (db_run_sessions db);
  ps_ref_blank : is_blank ref = false;
  ps_scope_blank : is_blank (lr_scope record) = false;
  ps_route_blank : is_blank (lr_route record) = false;
  ps_scope : strip_prefix "family:" (lr_scope record) = None;
}.

Definition attempt_row (session : option string) (record : NegRiskLiveExecutionRecord) :
    ExecutionAttemptRow :=
  {| xr_attempt_id := lr_attempt_id record; xr_plan_id := lr_plan_id record;
     xr_snapshot_id := lr_snapshot_id record; xr_route := lr_route record;
     xr_scope := lr_scope record; xr_matched_rule_id := lr_matched_rule_id record;
     xr_execution_mode := lr_execution_mode record; xr_attempt_no := lr_attempt_no record;
     xr_idempotency_key := lr_idempotency_key record; xr_run_session_id := session |}.

Definition with_attempt session now record (db : Db) : Db :=
  db <| db_execution_attempts ::=
          insert (lr_attempt_id record) (attempt_columns (attempt_row session record) now) |>.

Definition with_record session now record (db : Db) : Db :=
  let ref := default "" (record_ref record) in
  with_attempt session now record db
    <| db_live_submissions ::=
         insert ref (submission_row_for_live_record record ref, pg_time now) |>.

Lemma attempt_row_for_live_record session record :
  0 <= lr_attempt_no record < 2 ^ 31 →
  execution_attempt_row_for_live_record record session = Ok (attempt_row session record).
Proof.
  intros Hn. unfold execution_attempt_row_for_live_record, i32_try_from.
  by rewrite bool_decide_eq_true_2 by lia.
Qed.

Lemma required_payload_field (payload : Json) (field s : string) :
  json_get (after_last "." field) payload = Some (JString s) → is_blank s = false →
  required_anchor_string payload field = Ok s.
Proof. intros Hg Hb. unfold required_anchor_string. rewrite Hg. simpl. by rewrite Hb. Qed.

Lemma submission_row_valid db session record ref :
  persistable db session record ref →
  validate_live_submission_record_row (submission_row_for_live_record record ref) = Ok () ∧
  validate_live_submission_record_against_attempt (submission_row_for_live_record record ref)
    (lr_route record) (lr_scope record) = Ok ().
Proof.
  intros [_ _ _ _ _ _ Hr Hs Ht Hp]. split.
  - unfold validate_live_submission_record_row.
    assert (∀ k, json_get k (lsr_payload (submission_row_for_live_record record ref)) =
      field_get k [("submission_ref", JString ref); ("family_id", JString (lr_scope record));
        ("route", JString (lr_route record)); ("reason", JString "submitted_for_execution");
        ("requests", JArray (lr_order_requests record))]) as Hg.
    { intros k. apply json_get_object. apply (bool_decide_unpack _). vm_compute. exact I. }
    rewrite (required_payload_field _ "live_submission_records.payload.submission_ref" ref),
      (required_payload_field _ "live_submission_records.payload.family_id" (lr_scope record)),
      (required_payload_field _ "live_submission_records.payload.route" (lr_route record)),
      (required_payload_field _ "live_submission_records.payload.reason" "submitted_for_execution");
      try done; try (rewrite Hg; reflexivity).
    simpl. rewrite !bool_decide_eq_false_2 by (by intros []). simpl.
    by destruct (bool_decide (lr_pending_ref record ≠ None)).
  - unfold validate_live_submission_record_against_attempt, submission_row_for_live_record.
    cbn [lsr_route lsr_scope]. rewrite bool_decide_eq_false_2 by (by intros []). rewrite Hp.
    destruct (bool_decide (lr_route record = "neg-risk")); cbn [default];
      by rewrite bool_decide_eq_false_2 by (by intros []).
Qed.

Lemma runs_attempt_append db now row :
  db_execution_attempts db !! xr_attempt_id row = None →
  refers (xr_run_session_id row) (db_run_sessions db) →
  runs (attempt_append row) now db
    (db <| db_execution_attempts ::= insert (xr_attempt_id row) (attempt_columns row now) |>) (Ok ()).
Proof.
  intros Hn Hs%run_session_exists_refers. apply runs_stmt.
  unfold append_execution_attempt, insert_execution_attempt, mbind, tx_bind.
  rewrite bool_decide_eq_false_2 by (rewrite Hn; by intros []). by rewrite Hs.
Qed.

Lemma runs_submission_append db now row a :
  live_attempt db (lsr_attempt_id row) = Some a →
  db_live_submissions db !! lsr_submission_ref row = None →
  validate_live_submission_record_row row = Ok () →
  validate_live_submission_record_against_attempt row (at_route a) (at_scope a) = Ok () →
  runs (submission_append row) now db
    (db <| db_live_submissions ::= insert (lsr_submission_ref row) (row, pg_time now) |>) (Ok ()).
Proof.
  intros Hl Hn Hv Ha. unfold submission_append.
  eapply runs_bind; [by apply runs_of_ok|].
  eapply runs_bind; [apply runs_query|]. rewrite Hl.
  eapply runs_bind; [by apply runs_of_ok|].
  eapply runs_bind.
  - apply runs_stmt. unfold insert_live_submission. rewrite Hl, bool_decide_eq_false_2 by done.
    rewrite bool_decide_eq_false_2 by (rewrite Hn; by intros []). reflexivity.
  - apply runs_ret.
Qed.

Lemma live_attempt_with_attempt db now session record :
  lr_execution_mode record = Live →
  live_attempt (with_attempt session now record db) (lr_attempt_id record)
  = Some (attempt_columns (attempt_row session record) now).
Proof.
  intros Hm. unfold live_attempt, with_attempt. simpl. rewrite lookup_insert_eq. simpl.
  unfold mode_is; simpl. by rewrite Hm.
Qed.

(** The two appends of a record. *)
Lemma runs_record_appends db now session record ref :
  persistable db session record ref →
  runs (attempt_append (attempt_row session record)) now db (with_attempt session now record db)
    (Ok ()) ∧
  runs (submission_append (submission_row_for_live_record record ref)) now
    (with_attempt session now record db) (with_record session now record db) (Ok ()).
Proof.
  intros Hp. pose proof (submission_row_valid _ _ _ _ Hp) as [Hv Ha].
  destruct Hp as [Href Hno Hm Hna Hnr Hs _ _ _ _]. unfold with_record. rewrite Href. split.
  - by apply runs_attempt_append.
  - eapply runs_submission_append; [by apply live_attempt_with_attempt|done..].
Qed.

Lemma runs_persist_live_record db now session record ref :
  persistable db session record ref →
  runs (persist_live_record session record) now db (with_record session now record db) (Ok ()).
Proof.
  intros Hp. destruct (runs_record_appends _ now _ _ _ Hp) as [H1 H2].
  unfold persist_live_record. fold (record_ref record). rewrite (ps_ref _ _ _ _ Hp).
  eapply runs_app_bind; [by apply runs_app_of_ok|].
  eapply runs_app_bind.
  { eapply runs_app_of_ok, attempt_row_for_live_record, ps_attempt_no, Hp. }
  eapply runs_app_bind; by apply runs_from_pool.
Qed.

Lemma with_record_lawful db now session record ref :
  persistable db session record ref → lawful db (with_record session now record db).
Proof.
  intros Hp. destruct (runs_record_appends _ now _ _ _ Hp) as [H1 H2].
  etrans; (eapply runs_lawful; [|eassumption]).
  - apply (pool_in_stmt lawful), tx_in_append_execution_attempt.
  - apply pool_in_submission_append.
Qed.

(** A batch of records none of which is stored yet. *)
Record persistable_all (db : Db) (session : option string)
    (records : list NegRiskLiveExecutionRecord) : Prop := {
  pa_each : ∀ record, record ∈ records → ∃ ref, persistable db session record ref;
  pa_ids : NoDup (lr_attempt_id <$> records);
  pa_refs : NoDup (record_ref <$> records);
}.

Definition with_records session now records (db : Db) : Db :=
  foldl (λ d record, with_record session now record d) db records.

Lemma persistable_all_tail db session now record records :
  persistable_all db session (record :: records) →
  persistable_all (with_record session now record db) session records.
Proof.
  intros [Hall Hids Hrefs]. rewrite fmap_cons, NoDup_cons in Hids. rewrite fmap_cons, NoDup_cons in Hrefs.
  destruct Hids as [Hid Hids], Hrefs as [Href Hrefs]. split; [|done|done].
  intros r Hr. destruct (Hall r ltac:(by right)) as [ref []].
  destruct (Hall record ltac:(by left)) as [ref' []]. exists ref.
  split; try assumption; unfold with_record, with_attempt; simpl.
  - rewrite lookup_insert_ne; [done|]. intros E. apply Hid. rewrite E. by apply list_elem_of_fmap_2.
  - rewrite lookup_insert_ne; [done|]. intros E. apply Href.
    apply list_elem_of_fmap. exists r. split; [|done]. rewrite ps_ref1 in E. simpl in E. congruence.
Qed.

Lemma runs_persist_live_records db now session records :
  persistable_all db session records →
  runs (app_each (persist_live_record session) records) now db
    (with_records session now records db) (Ok ()).
Proof.
  apply (runs_app_each _ (with_record session now) (λ d rs, persistable_all d session rs)).
  intros record rs d Hp. split; [|by apply persistable_all_tail].
  destruct (pa_each _ _ _ Hp record ltac:(by left)) as [ref Href]. by eapply runs_persist_live_record.
Qed.

Lemma with_records_lawful db now session records :
  persistable_all db session records → lawful db (with_records session now records db).
Proof.
  revert db. induction records as [|r records IH]; intros db Hp; simpl; [reflexivity|].
  destruct (pa_each _ _ _ Hp r ltac:(by left)) as [ref Href].
  etrans; [by eapply with_record_lawful|]. apply IH. by apply persistable_all_tail.
Qed.

(** The tables after a batch. *)
Lemma with_records_tables session now records db :
  persistable_all db session records →
  (∀ record, record ∈ records →
     db_execution_attempts (with_records session now records db) !! lr_attempt_id record =
     Some (attempt_columns (attempt_row session record) now)) ∧
  (∀ id, id ∉ lr_attempt_id <$> records →
     db_execution_attempts (with_records session now records db) !! id =
     db_execution_attempts db !! id) ∧
  (∀ record ref, record ∈ records → record_ref record = Some ref →
     db_live_submissions (with_records session now records db) !! ref =
     Some (submission_row_for_live_record record ref, pg_time now)) ∧
  (∀ ref, Some ref ∉ record_ref <$> records →
     db_live_submissions (with_records session now records db) !! ref =
     db_live_submissions db !! ref) ∧
  db_pending_reconcile (with_records session now records db) = db_pending_reconcile db ∧
  db_run_sessions (with_records session now records db) = db_run_sessions db.
Proof.
  revert db. induction records as [|r records IH]; intros db Hp.
  { simpl. split_and!; try done; intros ?; set_solver. }
  pose proof (persistable_all_tail _ _ now _ _ Hp) as Hp'.
  destruct (IH _ Hp') as (IA & IN & IS & ISN & IP & IR). clear IH.
  destruct Hp as [Hall Hids Hrefs]. rewrite fmap_cons, NoDup_cons in Hids. rewrite fmap_cons, NoDup_cons in Hrefs.
  destruct Hids as [Hid _], Hrefs as [Href _].
  destruct (Hall r ltac:(by left)) as [ref [Hr _ _ _ _ _ _ _ _ _]].
  simpl. split_and!; [| | | |done|done].
  - intros record [->|Hin]%elem_of_cons; [|by apply IA].
    rewrite IN by done. unfold with_record, with_attempt; simpl. by rewrite lookup_insert_eq.
  - intros id Hn. rewrite not_elem_of_cons in Hn. destruct Hn as [Hne Hn]. rewrite IN by done.
    unfold with_record, with_attempt; simpl. by rewrite lookup_insert_ne.
  - intros record ref' [->|Hin]%elem_of_cons Hr'; [|by apply IS].
    replace ref' with ref in * by congruence. rewrite ISN by (by rewrite <- Hr).
    unfold with_record; simpl. rewrite Hr. simpl. by rewrite lookup_insert_eq.
  - intros ref' Hn. rewrite not_elem_of_cons in Hn. destruct Hn as [Hne Hn]. rewrite ISN by done.
    unfold with_record; simpl. rewrite Hr in Hne |- *. simpl. rewrite lookup_insert_ne by congruence.
    done.
Qed.

(** ** Loading *)

Lemma group_by_lookup {A} (key : A → string) (rows : list A) k :
  default [] (group_by key rows !! k) = List.filter (λ r, bool_decide (key r = k)) rows.
Proof.
  unfold group_by.
  assert (∀ m : gmap string (list A), default [] (foldl (λ m row, <[key row := default [] (m !! key row) ++ [row]]> m) m
    rows !! k) = default [] (m !! k) ++ List.filter (λ r, bool_decide (key r = k)) rows) as H.
  { induction rows as [|r rows IH]; intros m; simpl; [by rewrite app_nil_r|]. rewrite IH.
    case_bool_decide as E.
    - rewrite <- E, lookup_insert_eq. simpl. by rewrite <- (assoc_L app).
    - by rewrite lookup_insert_ne. }
  by rewrite H, lookup_empty.
Qed.

Lemma NoDup_filter_single {A} (p : A → bool) (l : list A) x :
  NoDup l → x ∈ l → p x = true → (∀ y, y ∈ l → p y = true → y = x) → List.filter p l = [x].
Proof.
  intros Hnd Hx Hp Hu.
  assert (NoDup (List.filter p l)) as Hnd'.
  { clear -Hnd. induction Hnd as [|y l Hy Hnd IH]; simpl; [constructor|].
    destruct (p y); [|done]. constructor; [|done].
    rewrite list_elem_of_In, filter_In, <- list_elem_of_In. tauto. }
  assert (∀ y, y ∈ List.filter p l ↔ y = x) as Hin.
  { intros y. rewrite list_elem_of_In, filter_In, <- list_elem_of_In. naive_solver. }
  destruct (List.filter p l) as [|a [|b l']].
  - pose proof (proj2 (Hin x) eq_refl) as Hx'. by apply elem_of_nil in Hx'.
  - f_equal. apply Hin. by left.
  - apply NoDup_cons in Hnd' as [Hn _]. destruct Hn. rewrite (proj1 (Hin a)) by (by left).
    rewrite <- (proj1 (Hin b)) by (right; by left). by left.
Qed.

Lemma submissions_join db p :
  db_wf db →
  omap (λ kv, fst <$> join_attempt db kv.2.1)
    (select (db_live_submissions db) (λ _ r, p r.1) submission_order) =
  (fst ∘ snd) <$> select (db_live_submissions db) (λ _ r, p r.1) submission_order.
Proof.
  intros Hw. match goal with |- omap _ ?l = _ => set (rows := l) end.
  assert (∀ kv, kv ∈ rows → db_live_submissions db !! kv.1 = Some kv.2) as Hrows.
  { intros [k v] [Hk _]%elem_of_select. done. }
  clearbody rows. induction rows as [|[k v] rows IH]; simpl; [done|].
  assert (db_live_submissions db !! k = Some v) as Hk by (apply (Hrows (k, v)); left).
  apply (wf_submissions _ Hw) in Hk as (_ & _ & a & Ha & _). unfold join_attempt at 1.
  rewrite Ha. simpl. f_equal. apply IH. set_solver.
Qed.

(** The submissions of some attempts, as they are listed. *)
Definition listed_submissions (db : Db) (ids : list string) : list LiveSubmissionRecordRow :=
  (fst ∘ snd) <$> select (db_live_submissions db)
    (λ _ r, bool_decide (lsr_attempt_id r.1 ∈ ids)) submission_order.

Lemma elem_of_listed_submissions db ids row :
  row ∈ listed_submissions db ids ↔
  lsr_attempt_id row ∈ ids ∧ ∃ ref t, db_live_submissions db !! ref = Some (row, t).
Proof.
  unfold listed_submissions. rewrite list_elem_of_fmap. split.
  - intros ([ref [r t]] & -> & [Hk Hp%bool_decide_eq_true]%elem_of_select). simpl. eauto.
  - intros (Hi & ref & t & Hk). exists (ref, (row, t)). split; [done|].
    apply elem_of_select. split; [done|]. by apply bool_decide_eq_true.
Qed.

Lemma NoDup_listed_submissions db ids : db_wf db → NoDup (listed_submissions db ids).
Proof.
  intros Hw. apply (NoDup_fmap_1 lsr_submission_ref).
  replace (lsr_submission_ref <$> listed_submissions db ids) with
    (select (db_live_submissions db) (λ _ r, bool_decide (lsr_attempt_id r.1 ∈ ids))
       submission_order).*1; [apply NoDup_select_keys|].
  unfold listed_submissions. rewrite <- list_fmap_compose.
  apply list_fmap_ext. intros i [ref v] Hi%list_elem_of_lookup_2.
  apply elem_of_select in Hi as [Hk _]. by apply (wf_submissions _ Hw) in Hk as [<- _].
Qed.

Lemma runs_submission_list db ids now :
  db_wf db →
  ∃ M, runs (submission_list_for_attempts ids) now db db (Ok M) ∧
    ∀ id, id ∈ ids → default [] (M !! id) =
      List.filter (λ r, bool_decide (lsr_attempt_id r = id)) (listed_submissions db ids).
Proof.
  intros Hw. unfold submission_list_for_attempts. case_bool_decide as E.
  - exists ∅. split; [apply runs_ret|]. subst. set_solver.
  - eexists. split.
    + eapply runs_bind; [by apply runs_submissions_where|]. apply runs_ret.
    + intros id _. rewrite group_by_lookup. f_equal.
      exact (submissions_join db (λ r, bool_decide (lsr_attempt_id r ∈ ids)) Hw).
Qed.

(** Every live attempt has a submission. *)
Definition live_complete (db : Db) : Prop :=
  ∀ id a, db_execution_attempts db !! id = Some a → mode_is Live a = true →
    0 <= at_attempt_no a ∧
    ∃ ref v, db_live_submissions db !! ref = Some v ∧ lsr_attempt_id v.1 = id.

Lemma runs_list_live_attempts db now :
  db_wf db →
  ∃ attempts, runs list_live_attempts now db db (Ok attempts) ∧
    ∀ row, row ∈ attempts ↔ ∃ id a, db_execution_attempts db !! id = Some a ∧
      mode_is Live a = true ∧ map_execution_attempt_row (id, a) = Ok row.
Proof.
  intros Hw.
  destruct (runs_collect map_execution_attempt_row (λ db, select (db_execution_attempts db)
    (λ _ a, bool_decide (at_execution_mode a = execution_mode_to_str Live)) attempt_order)
    now db) as (ys & Hys & Hr).
  { intros [id a] [Ha Hm%bool_decide_eq_true]%elem_of_select. by eapply attempts_load. }
  exists ys. split.
  - eapply runs_bind; [by apply runs_stmt|]. exact Hr.
  - apply collect_results_Ok in Hys. intros row. rewrite (elem_of_collect_results _ _ _ _ Hys).
    split.
    + intros ([id a] & [Ha Hm]%elem_of_select & Hf). eauto.
    + intros (id & a & Ha & Hm & Hf). exists (id, a). split; [|done]. by apply elem_of_select.
Qed.

Lemma map_execution_attempt_row_id id a row :
  map_execution_attempt_row (id, a) = Ok row →
  xr_attempt_id row = id ∧ xr_attempt_no row = at_attempt_no a.
Proof. intros (m & _ & [= <-])%result_bind_Ok. done. Qed.

Lemma runs_pending_empty db now :
  db_pending_reconcile db = ∅ → runs pending_list_all now db db (Ok []).
Proof.
  intros Hpend. unfold pending_list_all. eapply runs_bind; [apply runs_query|].
  apply runs_of_ok. rewrite Hpend. unfold select. rewrite map_to_list_empty. reflexivity.
Qed.

Lemma runs_load_live_follow_up db now :
  db_wf db → db_pending_reconcile db = ∅ → live_complete db →
  ∃ attempts records, runs load_live_follow_up now db db (Ok ([], records)) ∧
    (∀ row, row ∈ attempts ↔ ∃ id a, db_execution_attempts db !! id = Some a ∧
      mode_is Live a = true ∧ map_execution_attempt_row (id, a) = Ok row) ∧
    ∃ M, (∀ row, row ∈ attempts → default [] (M !! xr_attempt_id row) =
      List.filter (λ r, bool_decide (lsr_attempt_id r = xr_attempt_id row))
        (listed_submissions db (xr_attempt_id <$> attempts))) ∧
    collect_results (durable_live_record M ∅) attempts = Ok records.
Proof.
  intros Hw Hpend Hc. destruct (runs_list_live_attempts db now Hw) as (attempts & Hr & Ha).
  destruct (runs_submission_list db (xr_attempt_id <$> attempts) now Hw) as (M & HrM & HM).
  assert (∃ records, collect_results (durable_live_record M ∅) attempts = Ok records)
    as [records Hrec].
  { apply collect_results_total. intros row Hin. apply Ha in Hin as Hrow.
    destruct Hrow as (id & a & Hid & Hm & Hf).
    apply map_execution_attempt_row_id in Hf as [<- Hno].
    destruct (Hc _ _ Hid Hm) as [Hpos (ref & v & Hv & Hvid)].
    unfold durable_live_record, unsigned_try_from. rewrite Hno, bool_decide_eq_true_2 by done.
    simpl. rewrite HM by (by apply list_elem_of_fmap_2).
    destruct (List.filter _ _) as [|x l] eqn:El; [|by eexists].
    exfalso. assert (v.1 ∈ @nil LiveSubmissionRecordRow) as []%elem_of_nil.
    rewrite <- El, list_elem_of_In, filter_In, <- list_elem_of_In. split.
    - apply elem_of_listed_submissions. rewrite Hvid. split; [by apply list_elem_of_fmap_2|].
      exists ref, v.2. by destruct v.
    - by apply bool_decide_eq_true. }
  exists attempts, records. split; [|split; [done|]].
  - unfold load_live_follow_up.
    eapply runs_app_bind; [by apply runs_from_pool|].
    eapply runs_app_bind; [by apply runs_from_pool|].
    eapply runs_app_bind.
    { by apply runs_from_pool, runs_pending_empty. }
    eapply runs_app_bind; [by apply runs_app_of_ok|].
    eapply runs_app_bind; [|apply runs_app_ret].
    apply runs_app_of_ok. unfold durable_live_execution_records. simpl. exact Hrec.
  - exists M. split; [|done]. intros row Hin. apply HM. by apply list_elem_of_fmap_2.
Qed.

Lemma attempt_columns_roundtrip row now :
  map_execution_attempt_row (xr_attempt_id row, attempt_columns row now) = Ok row.
Proof.
  unfold map_execution_attempt_row, attempt_columns; simpl.
  pose proof (column_parse_text (A := ExecutionMode) (xr_execution_mode row)) as Hm. simpl in Hm.
  rewrite Hm. by destruct row.
Qed.

(** A record as it is found after a restart. *)
Definition reloaded (record : NegRiskLiveExecutionRecord) : NegRiskLiveExecutionRecord :=
  let ref := default "" (record_ref record) in
  {| lr_attempt_id := lr_attempt_id record; lr_plan_id := lr_plan_id record;
     lr_snapshot_id := lr_snapshot_id record; lr_execution_mode := lr_execution_mode record;
     lr_attempt_no := lr_attempt_no record; lr_idempotency_key := lr_idempotency_key record;
     lr_route := lr_route record; lr_scope := lr_scope record;
     lr_matched_rule_id := lr_matched_rule_id record; lr_submission_ref := Some ref;
     lr_pending_ref := None; lr_artifacts := [];
     lr_order_requests := [lsr_payload (submission_row_for_live_record record ref)] |}.

Section batch.
Context (db : Db) (session : option string) (records : list NegRiskLiveExecutionRecord)
  (now : DateTime) (Hw : db_wf db) (Hp : persistable_all db session records).

Let db' := with_records session now records db.

Lemma records_wf : db_wf db'.
Proof. by apply (lw_wf _ _ (with_records_lawful _ now _ _ Hp)). Qed.

Lemma records_complete : live_complete db → live_complete db'.
Proof.
  intros Hc id a Ha Hm.
  destruct (with_records_tables session now records db Hp) as (IA & IN & IS & ISN & _ & _).
  destruct (decide (id ∈ lr_attempt_id <$> records)) as [Hin|Hn].
  - apply list_elem_of_fmap in Hin as (r & -> & Hr). unfold db' in Ha. rewrite (IA r Hr) in Ha.
    injection Ha as <-. destruct (pa_each _ _ _ Hp r Hr) as [ref Href]. split.
    + apply (ps_attempt_no _ _ _ _ Href).
    + exists ref. eexists. split; [by apply IS, (ps_ref _ _ _ _ Href)|done].
  - unfold db' in Ha. rewrite IN in Ha by done. destruct (Hc id a Ha Hm) as [Hno (ref & v & Hv & Hid)].
    split; [done|]. exists ref, v. split; [|done]. unfold db'. rewrite ISN; [done|].
    intros Hin. apply list_elem_of_fmap in Hin as (r & Er & Hr).
    destruct (pa_each _ _ _ Hp r Hr) as [ref' Href]. destruct Href. congruence.
Qed.

(** The new attempt has exactly the submission that was written for it. *)
Lemma record_submissions record ref ids :
  record ∈ records → record_ref record = Some ref → lr_attempt_id record ∈ ids →
  List.filter (λ r, bool_decide (lsr_attempt_id r = lr_attempt_id record))
    (listed_submissions db' ids) = [submission_row_for_live_record record ref].
Proof.
  intros Hr Href Hids.
  destruct (with_records_tables session now records db Hp) as (IA & IN & IS & ISN & _ & _).
  apply NoDup_filter_single; [apply NoDup_listed_submissions, records_wf| |by apply bool_decide_eq_true|].
  - apply elem_of_listed_submissions. split; [done|]. eexists ref, _. by apply IS.
  - intros row (Hi & ref' & t & Hrow)%elem_of_listed_submissions Hid%bool_decide_eq_true.
    destruct (decide (Some ref' ∈ record_ref <$> records)) as [Hin|Hn].
    + apply list_elem_of_fmap in Hin as (r2 & Er & Hr2). unfold db' in Hrow.
      rewrite (IS r2 ref' Hr2 (eq_sym Er)) in Hrow. injection Hrow as <- _. simpl in Hid.
      assert (r2 = record) as ->; [|congruence].
      apply list_elem_of_lookup in Hr as [i Hi1], Hr2 as [j Hj].
      assert (j = i) as ->; [|congruence].
      apply (NoDup_lookup _ _ _ (lr_attempt_id record) (pa_ids _ _ _ Hp));
        rewrite list_lookup_fmap; [by rewrite Hj; simpl; rewrite Hid|by rewrite Hi1].
    + exfalso. unfold db' in Hrow. rewrite ISN in Hrow by done.
      apply (wf_submissions _ Hw) in Hrow as (_ & _ & a & Ha & _). simpl in Ha. rewrite Hid in Ha.
      destruct (pa_each _ _ _ Hp record Hr) as [? Hpr]. destruct Hpr. congruence.
Qed.

Lemma reload_record M record :
  record ∈ records →
  default [] (M !! lr_attempt_id record) =
    [submission_row_for_live_record record (default "" (record_ref record))] →
  durable_live_record M ∅ (attempt_row session record) = Ok (reloaded record).
Proof.
  intros Hr HM. destruct (pa_each _ _ _ Hp record Hr) as [ref [_ Hno _ _ _ _ _ _ _ _]].
  unfold durable_live_record, unsigned_try_from. simpl.
  rewrite bool_decide_eq_true_2 by lia. simpl. rewrite HM. done.
Qed.

Lemma records_reload now' :
  db_pending_reconcile db = ∅ → live_complete db →
  ∃ loaded, runs load_live_follow_up now' db' db' (Ok ([], loaded)) ∧
    ∀ record, record ∈ records → reloaded record ∈ loaded.
Proof.
  intros Hpend Hc.
  destruct (with_records_tables session now records db Hp) as (IA & IN & IS & ISN & IP & _).
  destruct (runs_load_live_follow_up db' now' records_wf) as (attempts & loaded & Hrun & Ha & M & HM & Hl).
  { unfold db'. by rewrite IP. }
  { by apply records_complete. }
  exists loaded. split; [done|]. intros record Hr.
  destruct (pa_each _ _ _ Hp record Hr) as [ref Href].
  assert (attempt_row session record ∈ attempts) as Hin.
  { apply Ha. exists (lr_attempt_id record), (attempt_columns (attempt_row session record) now).
    split_and!; [by apply IA| |apply (attempt_columns_roundtrip (attempt_row session record))].
    unfold mode_is; simpl. by rewrite (ps_mode _ _ _ _ Href). }
  apply (elem_of_collect_results _ _ _ _ Hl). exists (attempt_row session record).
  split; [done|]. apply reload_record; [done|]. etrans; [exact (HM _ Hin)|].
  rewrite (ps_ref _ _ _ _ Href). simpl.
  apply (record_submissions record ref); [done|by apply (ps_ref _ _ _ _ Href)|].
  by apply (list_elem_of_fmap_2 xr_attempt_id _ (attempt_row session record)).
Qed.
End batch.

(** C8. Live execution records survive a restart: when a batch of new records is written to
    a store in which every live attempt has its submission, the load that follows
    succeeds and finds every one of them under its submission reference, the store is
    again complete, and the order requests come back inside the submission's payload. *)
Theorem live_records_roundtrip db session records now now' :
  db_wf db → db_pending_reconcile db = ∅ → live_complete db →
  persistable_all db session records →
  ∃ db' loaded,
    runs (persist_live_execution_records_with_run_session_id (Ok ()) records session)
      now db db' (Ok ()) ∧
    runs load_live_follow_up now' db' db' (Ok ([], loaded)) ∧
    (∀ record, record ∈ records → reloaded record ∈ loaded) ∧ live_complete db'.
Proof.
  intros Hw Hpend Hc Hp.
  destruct (records_reload db session records now Hw Hp now' Hpend Hc) as (loaded & Hrun & Hl).
  exists (with_records session now records db), loaded. split_and!; [|done|done|].
  - eapply runs_app_bind; [by apply runs_app_of_ok|]. by apply runs_persist_live_records.
  - by apply records_complete.
Qed.

(** ** A lost connection between the two appends *)

Lemma collect_results_one_err {E A B} (f : A → result E B) l x e :
  x ∈ l → f x = Err e → (∀ y, y ∈ l → f y = Err e ∨ ∃ z, f y = Ok z) →
  collect_results f l = Err e.
Proof.
  intros Hx He Hl. induction l as [|y l IH]; [by apply elem_of_nil in Hx|]. simpl.
  destruct (Hl y ltac:(by left)) as [Ey|[z Ez]]; [by rewrite Ey|]. rewrite Ez. simpl.
  rewrite IH; [done| |intros; apply Hl; by right].
  apply elem_of_cons in Hx as [->|]; [congruence|done].
Qed.

(** The load of a store in which one live attempt has no submission. *)
Lemma runs_load_missing db now id a :
  db_wf db → db_pending_reconcile db = ∅ →
  db_execution_attempts db !! id = Some a → mode_is Live a = true → 0 <= at_attempt_no a →
  (∀ ref v, db_live_submissions db !! ref = Some v → lsr_attempt_id v.1 ≠ id) →
  (∀ id' a', db_execution_attempts db !! id' = Some a' → mode_is Live a' = true → id' ≠ id →
     0 <= at_attempt_no a' ∧
     ∃ ref v, db_live_submissions db !! ref = Some v ∧ lsr_attempt_id v.1 = id') →
  runs load_live_follow_up now db db
    (Err (AppFails (Boxed ("missing durable live submission record for attempt " +:+ id)))).
Proof.
  intros Hw Hpend Hid Hm Hno Hnone Hothers.
  destruct (runs_list_live_attempts db now Hw) as (attempts & Hr & Ha).
  destruct (runs_submission_list db (xr_attempt_id <$> attempts) now Hw) as (M & HrM & HM).
  unfold load_live_follow_up.
  eapply runs_app_bind; [by apply runs_from_pool|].
  eapply runs_app_bind; [by apply runs_from_pool|].
  eapply runs_app_bind; [by apply runs_from_pool, runs_pending_empty|].
  eapply runs_app_bind; [by apply runs_app_of_ok|].
  apply runs_app_bind_err, runs_app_of_err. unfold durable_live_execution_records. simpl.
  assert (∀ row, row ∈ attempts → xr_attempt_id row = id → durable_live_record M ∅ row =
    Err (Boxed ("missing durable live submission record for attempt " +:+ id))) as Herr.
  { intros row Hin <-. apply Ha in Hin as Hrow. destruct Hrow as (id' & a' & Hid' & Hm' & Hf).
    apply map_execution_attempt_row_id in Hf as [E Hno']. rewrite <- E in Hid'.
    assert (a' = a) as -> by congruence.
    unfold durable_live_record, unsigned_try_from. rewrite Hno', bool_decide_eq_true_2 by done.
    simpl. rewrite HM by (by apply list_elem_of_fmap_2).
    destruct (List.filter _ _) as [|x l] eqn:El; [done|]. exfalso.
    assert (x ∈ x :: l) as Hx by left. rewrite <- El, list_elem_of_In, filter_In in Hx.
    destruct Hx as [Hx%list_elem_of_In Hxid%bool_decide_eq_true].
    apply elem_of_listed_submissions in Hx as (_ & ref & t & Href). by apply Hnone in Href. }
  destruct (wf_attempts _ Hw _ _ Hid) as [[mode Hmode]%is_ok_exists _].
  destruct (attempts_load db Live a id Hw Hid ltac:(by apply bool_decide_eq_true in Hm)) as [row Hrow].
  assert (row ∈ attempts) as Hin by (apply Ha; eauto).
  pose proof (map_execution_attempt_row_id _ _ _ Hrow) as [Hrid _].
  apply (collect_results_one_err _ _ row); [done|by apply Herr|].
  intros y Hy. destruct (decide (xr_attempt_id y = id)) as [E|Hne]; [left; by apply Herr|right].
  apply Ha in Hy as Hrow'. destruct Hrow' as (id' & a' & Hid' & Hm' & Hf).
  apply map_execution_attempt_row_id in Hf as [E Hno']. rewrite <- E in *.
  destruct (Hothers _ _ Hid' Hm' Hne) as [Hpos (ref & v & Hv & Hvid)].
  unfold durable_live_record, unsigned_try_from. rewrite Hno', bool_decide_eq_true_2 by done.
  simpl. rewrite HM by (by apply list_elem_of_fmap_2).
  destruct (List.filter _ _) as [|x l] eqn:El; [|by eexists].
  exfalso. assert (v.1 ∈ @nil LiveSubmissionRecordRow) as []%elem_of_nil.
  rewrite <- El, list_elem_of_In, filter_In, <- list_elem_of_In. split.
  - apply elem_of_listed_submissions. rewrite Hvid. split; [by apply list_elem_of_fmap_2|].
    exists ref, v.2. by destruct v.
  - by apply bool_decide_eq_true.
Qed.

(** The connection is there for the first statement only. *)
Definition one_statement (now : DateTime) : Schedule :=
  {| fr_now _ := now; fr_commits _ db := db; fr_up n := bool_decide (n = 0%nat) |}.

(** C36. The attempt and the submission of a live record are written one after the other
    and not in one transaction: when the connection is lost between them, the attempt
    stays without a submission. From then on every load at startup fails, naming the
    attempt, and writing the record again fails because the attempt exists. *)
Theorem interrupted_persist_blocks_restart db session record ref now now' :
  db_wf db → db_pending_reconcile db = ∅ → live_complete db →
  persistable db session record ref →
  let id := lr_attempt_id record in
  ∃ n db',
    persist_live_record session record (one_statement now) (0%nat, db) =
      ((n, db'), Err (AppFails (FromPersistence (Sqlx SqlFailed)))) ∧
    runs load_live_follow_up now' db' db'
      (Err (AppFails (Boxed ("missing durable live submission record for attempt " +:+ id)))) ∧
    runs (persist_live_record session record) now' db' db'
      (Err (AppFails (FromPersistence (DuplicateExecutionAttempt id)))).
Proof.
  intros Hw Hpend Hc Hp id. destruct (runs_record_appends _ now _ _ _ Hp) as [H1 _].
  pose proof (ps_attempt_no _ _ _ _ Hp) as Hno.
  assert (lawful db (with_attempt session now record db)) as Hl.
  { eapply runs_lawful; [|exact H1]. apply (pool_in_stmt lawful), tx_in_append_execution_attempt. }
  assert (db_execution_attempts (with_attempt session now record db) !! id =
          Some (attempt_columns (attempt_row session record) now)) as Hid.
  { unfold with_attempt; simpl. by rewrite lookup_insert_eq. }
  exists 2%nat, (with_attempt session now record db). split_and!.
  - unfold persist_live_record. fold (record_ref record). rewrite (ps_ref _ _ _ _ Hp). simpl.
    rewrite (attempt_row_for_live_record session record Hno).
    pose proof (H1 0%nat) as [n1 E1]. unfold attempt_append, stmt in E1. simpl in E1.
    destruct (append_execution_attempt _ now db) as [db1 r1] eqn:Ea. injection E1 as _ -> ->.
    destruct (submission_row_valid _ _ _ _ Hp) as [Hv _].
    unfold mbind, app_bind, from_pool, app_of, attempt_append, stmt; simpl.
    rewrite Ea. unfold submission_append. rewrite Hv. reflexivity.
  - eapply (runs_load_missing _ _ id).
    + by apply (lw_wf _ _ Hl).
    + done.
    + exact Hid.
    + unfold mode_is; simpl. by rewrite (ps_mode _ _ _ _ Hp).
    + simpl. lia.
    + intros ref' v Hv E. apply (wf_submissions _ Hw) in Hv as (_ & _ & a & Ha & _).
      rewrite E in Ha. pose proof (ps_new_attempt _ _ _ _ Hp). unfold id in Ha. congruence.
    + intros id' a' Ha' Hm' Hne. apply (Hc id' a'); [|done].
      unfold with_attempt in Ha'; simpl in Ha'. by rewrite lookup_insert_ne in Ha'.
  - unfold persist_live_record. fold (record_ref record). rewrite (ps_ref _ _ _ _ Hp).
    eapply runs_app_bind; [by apply runs_app_of_ok|].
    eapply runs_app_bind; [by eapply runs_app_of_ok, attempt_row_for_live_record|].
    apply runs_app_bind_err, runs_from_pool_err, runs_stmt.
    unfold append_execution_attempt, insert_execution_attempt, mbind, tx_bind.
    cbn [xr_attempt_id attempt_row]. unfold id in Hid. by rewrite Hid.
Qed.

(** ** Operator anchors *)

(** The operator's revisions are anchored durably: after a startup anchor is persisted,
    the progress row read back carries the summary's journal position, state version and
    snapshot, the same revisions are accepted at the next startup whatever work is
    pending, and while work is pending another strategy revision, or without one another
    target revision, is refused naming both. *)
Theorem operator_anchor_roundtrip db summary target strategy now now' :
  db_wf db → 0 <= sm_last_state_version summary < 2 ^ 63 →
  target ≠ None ∨ strategy ≠ None →
  ∃ db' row,
    runs (persist_operator_startup_anchor (Ok ()) summary target strategy) now db db' (Ok ()) ∧
    runs progress_current now' db' db' (Ok (Some row)) ∧
    (∀ work, durable_progress_anchor (Some row) work =
       Ok (sm_last_journal_seq summary, sm_last_state_version summary,
           sm_published_snapshot_id summary)) ∧
    (∀ allow work, validate_operator_revision (Some row) strategy target allow work = Ok ()) ∧
    (∀ s s' t allow, strategy = Some s → s' ≠ s →
       validate_operator_revision (Some row) (Some s') t allow true =
       Err (Boxed ("operator strategy revision anchor mismatch: persisted=" +:+ s +:+
                   " configured=" +:+ s'))) ∧
    (∀ t t' allow, target = Some t → t' ≠ t →
       validate_operator_revision (Some row) None (Some t') allow true =
       Err (Boxed ("operator target revision anchor mismatch: persisted=" +:+ t +:+
                   " configured=" +:+ t'))).
Proof.
  intros Hw Hv Hsome.
  set (merged := merged_progress
    {| rp_last_journal_seq := sm_last_journal_seq summary;
       rp_last_state_version := sm_last_state_version summary;
       rp_last_snapshot_id := sm_published_snapshot_id summary;
       rp_operator_target_revision := target; rp_operator_strategy_revision := strategy;
       rp_active_run_session_id := None |} (db_runtime_progress db !! RUNTIME_PROGRESS_KEY)).
  exists (db <| db_runtime_progress ::= insert RUNTIME_PROGRESS_KEY merged |>), merged.
  split_and!.
  - unfold persist_operator_startup_anchor, persist_operator_target_revision_anchor_with_run_session_id.
    replace (bool_decide (target = None) && bool_decide (strategy = None)) with false
      by (destruct Hsome; repeat case_bool_decide; naive_solver).
    eapply runs_app_bind; [by apply runs_app_of_ok|].
    eapply runs_app_bind; [apply runs_app_of_ok; by rewrite bool_decide_eq_true_2 by lia|].
    assert (run_session_exists db (rp_active_run_session_id merged) = true) as Hactive.
    { apply run_session_exists_refers. unfold merged; simpl.
      destruct (db_runtime_progress db !! RUNTIME_PROGRESS_KEY) as [p|] eqn:E; simpl.
      - by apply (wf_progress _ Hw _ _ E).
      - by intros ? [=]. }
    apply runs_from_pool, runs_stmt. unfold sqlx_ok, upsert_progress, mbind, tx_bind.
    fold merged. by rewrite Hactive.
  - apply runs_stmt. unfold query. simpl. by rewrite lookup_insert_eq.
  - intros work. unfold durable_progress_anchor, unsigned_try_from. simpl.
    by rewrite bool_decide_eq_true_2 by lia.
  - intros allow work. unfold validate_operator_revision. destruct strategy as [s|]; simpl.
    + destruct work; [|done]. simpl. by rewrite bool_decide_eq_true_2.
    + destruct target as [t|]; [|done]. destruct work; [|done]. simpl.
      by rewrite bool_decide_eq_true_2.
  - intros s s' t allow -> Hne. unfold validate_operator_revision. simpl.
    by rewrite bool_decide_eq_false_2.
  - intros t t' allow -> Hne. unfold validate_operator_revision. simpl.
    by rewrite bool_decide_eq_false_2.
Qed.
End live.

(** ** Witnesses *)

Module witnesses.
#[local] Existing Instance Micros.
#[local] Existing Instance plain_json.
#[local] Existing Instance plain_pg.

Definition example_record : NegRiskLiveExecutionRecord :=
  {| lr_attempt_id := "attempt-1"; lr_plan_id := "plan-1"; lr_snapshot_id := "snapshot-1";
     lr_execution_mode := Live; lr_attempt_no := 1; lr_idempotency_key := "key-1";
     lr_route := "neg-risk"; lr_scope := "family-a"; lr_matched_rule_id := Some "family-a-live";
     lr_submission_ref := Some "ref-1"; lr_pending_ref := None; lr_artifacts := [];
     lr_order_requests := [JString "order"] |}.

Lemma example_persistable : persistable db_empty None example_record "ref-1".
Proof. split; try reflexivity; [simpl; lia|by intros ? [=]]. Qed.

Lemma example_persistable_all : persistable_all db_empty None [example_record].
Proof.
  split; [|apply (bool_decide_unpack _); vm_compute; exact I..].
  intros r ->%list_elem_of_singleton. exists "ref-1". apply example_persistable.
Qed.

Lemma empty_complete : live_complete db_empty.
Proof. intros id a Ha. unfold db_empty in Ha; simpl in Ha. by rewrite lookup_empty in Ha. Qed.

Lemma live_records_roundtrip_witness :
  ∃ db' loaded,
    runs (persist_live_execution_records_with_run_session_id (Ok ()) [example_record] None)
      (instant 10) db_empty db' (Ok ()) ∧
    runs load_live_follow_up (instant 20) db' db' (Ok ([], loaded)) ∧
    reloaded example_record ∈ loaded.
Proof.
  destruct (live_records_roundtrip db_empty None [example_record] (instant 10) (instant 20))
    as (db' & loaded & H1 & H2 & H3 & _).
  - apply db_empty_wf.
  - reflexivity.
  - apply empty_complete.
  - apply example_persistable_all.
  - exists db', loaded. split; [exact H1|]. split; [exact H2|]. apply H3. left.
Defined.

Lemma interrupted_persist_blocks_restart_witness :
  ∃ n db',
    persist_live_record None example_record (one_statement (instant 10)) (0%nat, db_empty) =
      ((n, db'), Err (AppFails (FromPersistence (Sqlx SqlFailed)))) ∧
    runs load_live_follow_up (instant 20) db' db'
      (Err (AppFails (Boxed "missing durable live submission record for attempt attempt-1"))).
Proof.
  destruct (interrupted_persist_blocks_restart db_empty None example_record "ref-1" (instant 10)
    (instant 20)) as (n & db' & H1 & H2 & _).
  - apply db_empty_wf.
  - reflexivity.
  - apply empty_complete.
  - apply example_persistable.
  - exists n, db'. split; [exact H1|exact H2].
Defined.

Definition example_summary : SupervisorSummary :=
  summary (supervisor_new LiveMode (remote_snapshot_empty) ()).

Lemma operator_anchor_roundtrip_witness :
  ∃ db' row,
    runs (persist_operator_startup_anchor (Ok ()) example_summary (Some "targets-1") None)
      (instant 10) db_empty db' (Ok ()) ∧
    validate_operator_revision (Some row) None (Some "targets-2") false true =
      Err (Boxed ("operator target revision anchor mismatch: persisted=targets-1" +:+
                  " configured=targets-2")).
Proof.
  destruct (operator_anchor_roundtrip db_empty example_summary (Some "targets-1") None (instant 10)
    (instant 20)) as (db' & row & H1 & _ & _ & _ & _ & H2).
  - apply db_empty_wf.
  - vm_compute. split; [discriminate|reflexivity].
  - left. discriminate.
  - exists db', row. split; [exact H1|]. apply (H2 "targets-1" "targets-2" false eq_refl).
    discriminate.
Defined.
End witnesses.
