(* ===== verification/SupervisorProofs.v ===== *)
(** * What the supervisor guarantees

    The drain of [Supervisor] terminates and is a fold over the entries after the
    anchor; it commits what it consumes; what was committed can be resumed; the
    rollout evidence is about the published snapshot; a smoke run is independent of
    the live backend. *)

From S2P Require Import Prelude Text RecordSet Externals Json Domain RuntimeMode Facts Store Apply.
From S2P Require Import Reconcile StoreInvariants Snapshot Risk Plans Execution Dispatch Runtime.
From S2P Require Import LiveRecords Discovery Supervisor.
Import RuntimeMode.

Section proofs.
Context {X : Externals} {J : JsonOps} {H : HashOrder} {World : Type}.
Implicit Types (s : AppSupervisor (X := X) (World := World)) (env : SupervisorEnv (X := X) (World := World)).
#[local] Notation Method A :=
  (outcome (AppSupervisor (X := X) (World := World) * result SupervisorError A)%type).

#[local] Arguments set : simpl never.

(** ** Reference definitions *)

(** The predicate of [next_after]. *)
Definition after_anchor (anchor : option Z) (i : InputTaskEvent) : Prop :=
  match anchor with None => True | Some last => last < it_journal_seq i end.
#[export] Instance after_anchor_dec anchor i : Decision (after_anchor anchor i).
Proof. destruct anchor; simpl; apply _. Defined.

(** One turn of the loop: the input, then the candidates it dirtied. *)
Definition drain_turn env (per_input : bool) s (input : InputTaskEvent) : Method bool :=
  match drain_one s input with
  | Returns (s, Ok dirty) =>
      s ← (if per_input && dirty then materialize_candidate_artifacts_with_authority env s false
           else Returns s);
      Returns (s, Ok dirty)
  | m => m
  end.

Fixpoint drain_each env (per_input : bool) (inputs : list InputTaskEvent) (n : nat) (seen : bool)
    s : Method (nat * bool) :=
  match inputs with
  | [] => Returns (s, Ok (n, seen))
  | input :: inputs' =>
      match drain_turn env per_input s input with
      | Panics => Panics
      | Returns (s, Err e) => Returns (s, Err e)
      | Returns (s, Ok dirty) => drain_each env per_input inputs' (S n) (seen || dirty) s
      end
  end.

(** ** Publishing and materialising keep the queue, the log and the store *)

Record same_inputs s s' : Prop := {
  si_tasks : sv_input_tasks s' = sv_input_tasks s;
  si_log : sv_committed_log s' = sv_committed_log s;
  si_store : ar_store (sv_runtime s') = ar_store (sv_runtime s);
  si_mode : ar_app_mode (sv_runtime s') = ar_app_mode (sv_runtime s);
  si_seed : sv_seed s' = sv_seed s;
  si_smoke : sv_real_user_shadow_smoke_enabled s' = sv_real_user_shadow_smoke_enabled s;
}.

#[local] Instance same_inputs_preorder : PreOrder same_inputs.
Proof.
  split; [by split|]. intros s1 s2 s3 [] []. split; congruence.
Qed.

Lemma retain_same_inputs s :
  same_inputs s (retain_current_shadow_records (retain_current_live_records s)).
Proof.
  unfold retain_current_live_records, retain_current_shadow_records.
  destruct (published_snapshot_id (sv_runtime s)); simpl; [case_match; simpl|]; case_match; by split.
Qed.

Lemma same_inputs_dispatcher s u f : same_inputs s u → same_inputs s (u <| sv_dispatcher ::= f |>).
Proof. intros []. by split. Qed.

Lemma publish_total r id : ∃ r' p,
  publish_snapshot r id = Returns (r', p) ∧ ar_store r' = ar_store r ∧
  ar_app_mode r' = ar_app_mode r.
Proof.
  unfold publish_snapshot. destruct (last_applied_journal_seq (ar_store r)) as [q|] eqn:E.
  - unfold snapshot_from_store. rewrite E. simpl. by eexists _, _.
  - by eexists _, _.
Qed.

Lemma publish_current_total s b : ∃ s',
  publish_current_snapshot s b = Returns s' ∧ same_inputs s s'.
Proof.
  unfold publish_current_snapshot.
  destruct (publish_total (sv_runtime s) (snapshot_id_for (runtime_state_version (sv_runtime s))))
    as (r' & p & -> & Es & Em). simpl. eexists. split; [reflexivity|].
  destruct p as [p|]; [destruct (rollout_evidence_for_snapshot _ p b) as [e src]|].
  - apply same_inputs_dispatcher. etrans; [|apply retain_same_inputs]. by split.
  - etrans; [|apply retain_same_inputs]. by split.
Qed.

Lemma materialize_total env s a : ∃ s',
  materialize_candidate_artifacts_with_authority env s a = Returns s' ∧ same_inputs s s' ∧
  ∃ w c, s' = s <| sv_world := w |> <| sv_candidate_restore_status := c |>.
Proof.
  unfold materialize_candidate_artifacts_with_authority, runtime_candidate_publication.
  assert (∀ s', (∃ w c, s' = s <| sv_world := w |> <| sv_candidate_restore_status := c |>) →
    same_inputs s s' ∧ ∃ w c, s' = s <| sv_world := w |> <| sv_candidate_restore_status := c |>)
    as Hs by (intros s' Hs; split; [destruct Hs as (w & c & ->); by split|done]).
  assert (∃ w c, s = s <| sv_world := w |> <| sv_candidate_restore_status := c |>) as Hid
    by (exists (sv_world s), (sv_candidate_restore_status s); by destruct s).
  destruct (last_applied_journal_seq (ar_store (sv_runtime s))) as [q|] eqn:E.
  2:{ simpl. by eexists. }
  unfold candidate_publication_from_store. rewrite E. simpl.
  eexists. split; [reflexivity|]. apply Hs. case_bool_decide; [done|].
  destruct (persist_notice_for_runtime _ _ _) as [w [r|e]].
  - by eexists _, _.
  - by exists w, (sv_candidate_restore_status s); destruct s.
Qed.

(** ** The queue *)

Lemma next_after_find (q : list InputTaskEvent) anchor :
  match next_after q anchor with
  | None => filter (after_anchor anchor) q = []
  | Some x => ∃ q1 q2, q = q1 ++ x :: q2 ∧ Forall (λ i, ¬ after_anchor anchor i) q1 ∧
      after_anchor anchor x
  end.
Proof.
  unfold next_after. induction q as [|i q IH]; [done|]. cbn [find].
  assert ((match anchor with None => true | Some last => bool_decide (last < it_journal_seq i) end)
          = bool_decide (after_anchor anchor i)) as -> by (by destruct anchor).
  case_bool_decide as Hi.
  - exists [], q. by split_and!.
  - destruct (find _ q) as [x|]; [|by rewrite filter_cons_False].
    destruct IH as (q1 & q2 & -> & Hf & Hx). exists (i :: q1), q2. split_and!; [done|by constructor|done].
Qed.

Lemma ingress_remove_first q1 x q2 :
  x ∉ q1 → (ingress_remove (q1 ++ x :: q2) x).1 = q1 ++ q2.
Proof.
  induction q1 as [|i q1 IH]; simpl; intros Hx; [by rewrite decide_True|].
  apply not_elem_of_cons in Hx as [Hne Hx]. rewrite decide_False by congruence.
  specialize (IH Hx). destruct (ingress_remove _ _) as [q o]. simpl in *. by rewrite IH.
Qed.

(** What the loop takes next, and what is left of the queue. *)
Lemma next_after_pending (q : list InputTaskEvent) anchor x :
  next_after q anchor = Some x →
  ∃ q' : list InputTaskEvent, (ingress_remove q x).1 = q' ∧
    filter (after_anchor anchor) q = x :: filter (after_anchor anchor) q' ∧
    filter (λ i, ¬ after_anchor anchor i) q' = filter (λ i, ¬ after_anchor anchor i) q ∧
    length q = S (length q').
Proof.
  intros E. pose proof (next_after_find q anchor) as Hf. rewrite E in Hf.
  destruct Hf as (q1 & q2 & -> & Hq1 & Hx). exists (q1 ++ q2).
  split; [apply ingress_remove_first; rewrite Forall_forall in Hq1; intros Hin; by apply (Hq1 x)|].
  assert (filter (after_anchor anchor) q1 = []) as E1.
  { clear E. induction Hq1; [done|]. by rewrite filter_cons_False. }
  rewrite !filter_app, E1, filter_cons_True, filter_cons_False by (done || tauto).
  rewrite !length_app. simpl. split_and!; [done..|lia].
Qed.

(** ** One turn *)

Definition candidates_dirtied (a : ApplyResult) : bool :=
  match a with Applied _ _ dirty => bool_decide (Candidates ∈ dirty) | _ => false end.

Lemma apply_input_total r i : ∃ r' res,
  apply_input r i = Returns (r', res) ∧ ar_app_mode r' = ar_app_mode r ∧
  match res with Err _ => r' = r | Ok _ => True end.
Proof.
  unfold apply_input.
  destruct (apply (ar_store r) (it_journal_seq i) (into_state_fact_input i)) as [[s res]|] eqn:E.
  - apply apply_view in E as Ev. cbn [mbind outcome_bind]. eexists _, _. split; [reflexivity|].
    destruct res as [[]|e]; (split; [done|]); [done..|]. subst s. by destruct r.
  - destruct (apply_cases (ar_store r) (it_journal_seq i) (into_state_fact_input i))
      as [(e & E' & _)|(s1 & _ & E')]; congruence.
Qed.

(** What a turn does to the queue, the log and the store. *)
Record turn_effect s (i : InputTaskEvent) s' : Prop := {
  te_tasks : sv_input_tasks s' = (ingress_remove (sv_input_tasks s) i).1;
  te_log : sv_committed_log s' = sv_committed_log (record_committed_input s i);
  te_mode : ar_app_mode (sv_runtime s') = ar_app_mode (sv_runtime s);
  te_seed : sv_seed s' = sv_seed s;
}.

Lemma record_log s s1 i : sv_committed_log s1 = sv_committed_log s →
  sv_committed_log (record_committed_input s1 i) = sv_committed_log (record_committed_input s i).
Proof.
  intros E. unfold record_committed_input. rewrite E. case_bool_decide; [done|].
  unfold set. simpl. by rewrite E.
Qed.

Lemma record_frame s i :
  sv_input_tasks (record_committed_input s i) = sv_input_tasks s ∧
  sv_runtime (record_committed_input s i) = sv_runtime s ∧
  sv_seed (record_committed_input s i) = sv_seed s.
Proof. unfold record_committed_input. by case_bool_decide. Qed.

Lemma drain_one_total s i : ∃ r' res,
  apply_input (sv_runtime s) i = Returns (r', res) ∧
  match res with
  | Err e => drain_one s i = Returns (s <| sv_runtime := r' |>, Err (SvApply e)) ∧
      r' = sv_runtime s
  | Ok a => ∃ s', drain_one s i = Returns (s', Ok (candidates_dirtied a)) ∧ turn_effect s i s' ∧
      ar_store (sv_runtime s') = ar_store r'
  end.
Proof.
  destruct (apply_input_total (sv_runtime s) i) as (r' & res & E & Em & Er).
  exists r', res. split; [done|]. unfold drain_one. rewrite E. cbn [mbind outcome_bind].
  destruct res as [a|e]; [|done].
  assert (∀ s1, sv_input_tasks s1 = sv_input_tasks s → sv_committed_log s1 = sv_committed_log s →
    sv_runtime s1 = r' → sv_seed s1 = sv_seed s →
    let s2 := record_committed_input s1 i <| sv_input_tasks ::= λ q, (ingress_remove q i).1 |> in
    turn_effect s i s2 ∧ ar_store (sv_runtime s2) = ar_store r') as Hs.
  { intros s1 E1 E2 E3 E4 s2. destruct (record_frame s1 i) as (F1 & F2 & F3). subst s2.
    split; [|by change (ar_store (sv_runtime (record_committed_input s1 i)) = ar_store r'); rewrite F2, E3].
    split.
    - change ((ingress_remove (sv_input_tasks (record_committed_input s1 i)) i).1 = (ingress_remove (sv_input_tasks s) i).1). by rewrite F1, E1.
    - by apply record_log.
    - change (ar_app_mode (sv_runtime (record_committed_input s1 i)) = ar_app_mode (sv_runtime s)).
      by rewrite F2, E3.
    - change (sv_seed (record_committed_input s1 i) = sv_seed s). by rewrite F3. }
  destruct a as [q v d| | |];
    [|by (eexists; split; [reflexivity|]; apply Hs)..].
  set (s1 := s <| sv_runtime := r' |> <| sv_dispatcher ::= _ |>).
  destruct (Hs s1 eq_refl eq_refl eq_refl eq_refl) as [[T1 T2 T3 T4] T5].
  set (s2 := record_committed_input s1 i <| sv_input_tasks ::= _ |>) in *.
  destruct (publish_current_total s2 false) as (s3 & -> & [P1 P2 P3 P4 P5 _]).
  cbn [mbind outcome_bind]. exists s3. split; [done|]. split; [split|]; congruence.
Qed.

(** A turn with the candidates it dirtied. *)
Lemma drain_turn_total env per_input s i : ∃ r' res,
  apply_input (sv_runtime s) i = Returns (r', res) ∧
  match res with
  | Err e => drain_turn env per_input s i = Returns (s <| sv_runtime := r' |>, Err (SvApply e)) ∧
      r' = sv_runtime s
  | Ok a => ∃ s', drain_turn env per_input s i = Returns (s', Ok (candidates_dirtied a)) ∧
      turn_effect s i s' ∧ ar_store (sv_runtime s') = ar_store r'
  end.
Proof.
  destruct (drain_one_total s i) as (r' & res & E & Hres). exists r', res. split; [done|].
  unfold drain_turn. destruct res as [a|e].
  - destruct Hres as (s1 & -> & [T1 T2 T3 T4] & T5). destruct (per_input && _).
    + destruct (materialize_total env s1 false) as (s2 & -> & [P1 P2 P3 P4 P5 _] & _).
      exists s2. split; [done|]. split; [split|]; congruence.
    + exists s1. by split_and!.
  - by destruct Hres as [-> ->].
Qed.

(** The loop, with any fuel that covers the entries after the anchor, is the fold
    over them. *)
Lemma drain_loop_each env per_input anchor fuel n seen s :
  (length (filter (after_anchor anchor) (sv_input_tasks s)) <= fuel)%nat →
  drain_loop env per_input fuel anchor n seen s =
    Some (drain_each env per_input (filter (after_anchor anchor) (sv_input_tasks s)) n seen s).
Proof.
  remember (filter (after_anchor anchor) (sv_input_tasks s)) as pending eqn:Ep.
  revert fuel n seen s Ep. induction pending as [|i pending IH]; intros fuel n seen s Ep Hle.
  - assert (next_after (sv_input_tasks s) anchor = None) as E.
    { destruct (next_after _ _) as [x|] eqn:E; [|done].
      apply next_after_pending in E as (q' & _ & E & _). congruence. }
    destruct fuel; cbn [drain_loop]; by rewrite E.
  - assert (∃ q', next_after (sv_input_tasks s) anchor = Some i ∧
      (ingress_remove (sv_input_tasks s) i).1 = q' ∧ pending = filter (after_anchor anchor) q')
      as (q' & E & Eq & Ep').
    { pose proof (next_after_find (sv_input_tasks s) anchor) as Hf.
      destruct (next_after _ _) as [x|] eqn:E; [|congruence].
      apply next_after_pending in E as (q' & Eq & E & _). exists q'. rewrite <- Ep in E.
      by simplify_eq. }
    destruct fuel as [|fuel]; [simpl in Hle; lia|]. cbn [drain_loop drain_each]. rewrite E.
    unfold drain_turn. destruct (drain_turn_total env per_input s i) as (r' & res & _ & Ht).
    unfold drain_turn in Ht. destruct (drain_one s i) as [[s1 [b|e]]|]; [|done..].
    destruct (if per_input && b then _ else _) as [s2|]; [|done].
    cbn [mbind outcome_bind] in *. destruct res as [a|e]; [|by destruct Ht].
    destruct Ht as (s3 & [= -> _] & [T1 _ _ _] & _). apply IH; [|simpl in Hle; lia].
    by rewrite T1, Eq.
Qed.

Lemma run_drain_each env per_input s :
  run_drain env per_input s =
    Some (drain_each env per_input
            (filter (after_anchor (last_journal_seq (sv_runtime s))) (sv_input_tasks s)) 0 false s).
Proof. apply drain_loop_each, length_filter. Qed.

(** C6. Draining the ingress queue terminates, and never panics: the loop, which
    searches the queue again after every removal, runs the entries past the durable
    anchor once each in queue order and stops, whatever the runtime answers; a queue's
    length is fuel enough and more changes nothing. *)
Theorem drain_terminates env per_input s :
  let pending := filter (after_anchor (last_journal_seq (sv_runtime s))) (sv_input_tasks s) in
  (∃ s' res, run_drain env per_input s = Some (Returns (s', res))) ∧
  run_drain env per_input s = Some (drain_each env per_input pending 0 false s) ∧
  ∀ more, drain_loop env per_input (length (sv_input_tasks s) + more)
            (last_journal_seq (sv_runtime s)) 0 false s = run_drain env per_input s.
Proof.
  intros pending. rewrite run_drain_each. split_and!; [|done|].
  - fold pending. clearbody pending. generalize 0%nat, false.
    revert s. induction pending as [|i pending IH]; intros s n b; cbn [drain_each]; [by eexists _, _|].
    destruct (drain_turn_total env per_input s i) as (r' & [a|e] & _ & Ht).
    + destruct Ht as (s' & -> & _). apply IH.
    + destruct Ht as [-> _]. by eexists _, _.
  - intros more. apply drain_loop_each.
    pose proof (length_filter (after_anchor (last_journal_seq (sv_runtime s))) (sv_input_tasks s)). lia.
Qed.

(** ** What a drain commits *)

Definition by_seq := cmp_on it_journal_seq Z.compare.

Definition commit (log : list InputTaskEvent) (i : InputTaskEvent) : list InputTaskEvent :=
  if bool_decide (i ∈ log) then log else sort_by by_seq (log ++ [i]).

Definition log_wf (log : list InputTaskEvent) : Prop :=
  StronglySorted (cmp_le by_seq) log ∧ NoDup log.

Lemma record_commit s i : sv_committed_log (record_committed_input s i) = commit (sv_committed_log s) i.
Proof. unfold record_committed_input, commit. by case_bool_decide. Qed.

Lemma commit_elem log i j : j ∈ commit log i ↔ j ∈ log ∨ j = i.
Proof.
  unfold commit. case_bool_decide as E; [naive_solver|].
  rewrite (elem_of_sort_by by_seq), elem_of_app. set_solver.
Qed.

Lemma commit_wf log i : log_wf log → log_wf (commit log i).
Proof.
  intros [Hs Hn]. unfold commit. case_bool_decide as E; [done|]. split; [apply sort_by_sorted, _|].
  rewrite (sort_by_Permutation by_seq). apply NoDup_app. split_and!; [done| |apply NoDup_singleton].
  intros x Hx ->%list_elem_of_singleton. done.
Qed.

Lemma commits_wf log inputs : log_wf log → log_wf (foldl commit log inputs).
Proof. revert log. induction inputs; intros log Hl; [done|]. by apply IHinputs, commit_wf. Qed.

Lemma commits_elem log inputs j : j ∈ foldl commit log inputs ↔ j ∈ log ∨ j ∈ inputs.
Proof.
  revert log. induction inputs as [|i inputs IH]; intros log; simpl; [set_solver|].
  rewrite IH, commit_elem. set_solver.
Qed.

Lemma ingress_remove_perm (q : list InputTaskEvent) x : x ∈ q → q ≡ₚ x :: (ingress_remove q x).1.
Proof.
  induction q as [|i q IH]; [by intros ?%elem_of_nil|]. simpl. intros Hx.
  destruct (decide (i = x)) as [->|Hne]; [done|].
  apply elem_of_cons in Hx as [->|Hx]; [done|]. specialize (IH Hx).
  destruct (ingress_remove q x) as [q' o]. simpl in *. rewrite IH at 1. apply Permutation_swap.
Qed.

Lemma apply_inputs_store r1 r2 inputs :
  ar_store r1 = ar_store r2 →
  match apply_inputs r1 inputs, apply_inputs r2 inputs with
  | Returns (r1', x1), Returns (r2', x2) => ar_store r1' = ar_store r2' ∧ x1 = x2
  | Panics, Panics => True
  | _, _ => False
  end.
Proof.
  revert r1 r2. induction inputs as [|i inputs IH]; intros r1 r2 E; simpl; [done|].
  unfold apply_input. rewrite E. destruct (apply (ar_store r2) _ _) as [[s res]|]; simpl; [|done].
  destruct res as [a|e]; simpl; [|done].
  assert (∀ u v, ar_store u = ar_store v →
    match (y ← apply_inputs u inputs; (λ '(r, rs), Returns (r, as_ ← rs; Ok (a :: as_))) y),
          (y ← apply_inputs v inputs; (λ '(r, rs), Returns (r, as_ ← rs; Ok (a :: as_))) y) with
    | Returns (r1', x1), Returns (r2', x2) => ar_store r1' = ar_store r2' ∧ x1 = x2
    | Panics, Panics => True
    | _, _ => False
    end) as Hgen.
  { intros u v Euv. specialize (IH u v Euv).
    destruct (apply_inputs u inputs) as [[] |], (apply_inputs v inputs) as [[] |]; simpl; try done.
    by destruct IH as [-> ->]. }
  apply Hgen. by destruct a.
Qed.

(** The shape of a drain: it applies a prefix of its inputs, as [apply_inputs] would,
    commits exactly these and removes them from the queue. *)
Lemma drain_each_effect env per_input inputs others n seen s s' res :
  sv_input_tasks s ≡ₚ inputs ++ others →
  drain_each env per_input inputs n seen s = Returns (s', res) →
  ∃ applied rest r rs, inputs = applied ++ rest ∧
    apply_inputs (sv_runtime s) applied = Returns (r, Ok rs) ∧
    ar_store (sv_runtime s') = ar_store r ∧
    ar_app_mode (sv_runtime s') = ar_app_mode (sv_runtime s) ∧
    sv_committed_log s' = foldl commit (sv_committed_log s) applied ∧
    sv_input_tasks s' ≡ₚ rest ++ others ∧ sv_seed s' = sv_seed s ∧
    match res with
    | Ok (m, _) => rest = [] ∧ m = (n + length applied)%nat
    | Err e => ∃ i rest' e', rest = i :: rest' ∧ e = SvApply e' ∧
        apply_input (sv_runtime s') i = Returns (sv_runtime s', Err e')
    end.
Proof.
  revert n seen s. induction inputs as [|i inputs IH]; intros n seen s Hq; cbn [drain_each].
  { intros [= <- <-]. exists [], [], (sv_runtime s), []. split_and!; done. }
  destruct (drain_turn_total env per_input s i) as (r1 & [a|e] & Ha & Ht).
  - destruct Ht as (s1 & -> & [T1 T2 T3 T4] & T5). intros Hr.
    assert (sv_input_tasks s1 ≡ₚ inputs ++ others) as Hq1.
    { apply (Permutation_cons_inv (a := i)). rewrite T1, <- ingress_remove_perm; [done|].
      rewrite Hq. set_solver. }
    destruct (IH _ _ _ Hq1 Hr) as (applied & rest & r & rs & -> & F1 & F2 & F3 & F4 & F5 & F6 & F7).
    pose proof (apply_inputs_store (sv_runtime s1) r1 applied T5) as Hst. rewrite F1 in Hst.
    destruct (apply_inputs r1 applied) as [[r2 rs2]|] eqn:E2; [|done]. destruct Hst as [Es <-].
    exists (i :: applied), rest, r2, (a :: rs). split_and!.
    + done.
    + cbn [apply_inputs]. rewrite Ha. cbn [mbind outcome_bind]. by rewrite E2.
    + congruence.
    + congruence.
    + rewrite F4, T2, record_commit. done.
    + done.
    + congruence.
    + destruct res as [[m b]|e]; [|done]. destruct F7 as [-> ->]. split; [done|simpl; lia].
  - destruct Ht as [-> ->]. intros [= <- <-].
    exists [], (i :: inputs), (sv_runtime s), []. split_and!; try done.
    exists i, inputs, e. split_and!; try done.
Qed.

(** C29. An input leaves the ingress queue exactly when it is committed. A drain that
    returns has taken a prefix of the entries past the anchor: the committed log is
    the old one with these inserted by sequence number, without duplicates and still
    sorted; the queue holds the entries at or before the anchor and the rest. Without
    an error the rest is empty and the count is the number of entries; an error is the
    state's own refusal of the first entry of the rest, which stays queued and
    uncommitted. *)
Theorem drain_commits_what_it_takes env per_input s s' res
    (Hlog : log_wf (sv_committed_log s))
    (Hrun : run_drain env per_input s = Some (Returns (s', res))) :
  let anchor := last_journal_seq (sv_runtime s) in
  ∃ taken rest, filter (after_anchor anchor) (sv_input_tasks s) = taken ++ rest ∧
    log_wf (sv_committed_log s') ∧
    (∀ i, i ∈ sv_committed_log s' ↔ i ∈ sv_committed_log s ∨ i ∈ taken) ∧
    sv_input_tasks s' ≡ₚ rest ++ filter (λ i, ¬ after_anchor anchor i) (sv_input_tasks s) ∧
    match res with
    | Ok (n, _) => rest = [] ∧ n = length taken
    | Err e => ∃ i rest' e', rest = i :: rest' ∧ e = SvApply e' ∧
        apply_input (sv_runtime s') i = Returns (sv_runtime s', Err e')
    end.
Proof.
  intros anchor. rewrite run_drain_each in Hrun. injection Hrun as Hrun. fold anchor in Hrun.
  eapply drain_each_effect in Hrun as (taken & rest & r & rs & E & _ & _ & _ & El & Eq & _ & Hres);
    [|symmetry; apply filter_app_complement].
  exists taken, rest. rewrite El. split_and!; [done|by apply commits_wf| |done|done].
  intros i. apply commits_elem.
Qed.

(** ** What was committed can be resumed *)

Lemma filter_sorted (P : InputTaskEvent → Prop) `{!∀ x, Decision (P x)} (l : list InputTaskEvent) :
  log_wf l → log_wf (filter P l).
Proof.
  intros [Hs Hn]. split; [|by apply NoDup_filter]. clear Hn.
  induction Hs as [|x l Hs IH Hx]; [constructor|]. destruct (decide (P x)).
  - rewrite filter_cons_True by done. constructor; [done|]. rewrite Forall_forall in *.
    intros y [_ Hy]%list_elem_of_filter. by apply Hx.
  - by rewrite filter_cons_False.
Qed.

(** Commits in sequence order append. *)
Lemma commits_append log inputs : log_wf (log ++ inputs) → foldl commit log inputs = log ++ inputs.
Proof.
  revert log. induction inputs as [|i inputs IH]; intros log Hl; simpl; [by rewrite app_nil_r|].
  rewrite cons_middle, app_assoc in Hl |- *.
  assert (commit log i = log ++ [i]) as ->; [|by apply IH].
  destruct Hl as [Hs Hn]. apply StronglySorted_app in Hs as (_ & Hs & _).
  apply NoDup_app in Hn as (Hn & _ & _). apply NoDup_app in Hn as (_ & Hi & _).
  unfold commit. rewrite bool_decide_eq_false_2 by (intros Hin; apply (Hi i Hin); set_solver).
  by apply sort_by_id.
Qed.

Lemma apply_inputs_cursor r inputs r' res :
  is_Some (last_journal_seq r) → apply_inputs r inputs = Returns (r', res) →
  is_Some (last_journal_seq r').
Proof.
  revert r res. induction inputs as [|i inputs IH]; intros r res Hs; simpl; [by intros [= <- _]|].
  destruct (apply_input r i) as [[r1 [a|e]]|] eqn:E; cbn [mbind outcome_bind]; [| |done].
  - destruct (apply_inputs r1 inputs) as [[r2 res2]|] eqn:E2; cbn; [|done].
    intros [= <- _]. apply IH in E2; [done|]. apply apply_input_store in E as (s' & Ea & _ & Ec).
    unfold last_journal_seq in *. rewrite Ec.
    destruct (apply_cases (ar_store r) (it_journal_seq i) (into_state_fact_input i))
      as [(e & E' & _)|(s1 & Hs1 & E')]; rewrite E' in Ea; [done|]. injection Ea as <- _.
    rewrite apply_consumed_cursor. by destruct Hs1 as [[_ ->]|[_ ->]].
  - intros [= <- _]. destruct (apply_input_total r i) as (r2 & res2 & E2 & _ & Hr).
    rewrite E in E2. by injection E2 as <- <-; subst.
Qed.

(** Clearing no anchors keeps the history. *)
Lemma clear_pending_history (t : StateStore) :
  pending_reconcile_anchors t = ∅ →
  history_of (clear_pending_reconcile_after_restore t) = history_of t ∧
  last_consumed_journal_seq (clear_pending_reconcile_after_restore t) = last_consumed_journal_seq t.
Proof.
  intros E. unfold clear_pending_reconcile_after_restore.
  assert (history_of (t <| pending_reconcile_anchors := ∅ |>) = history_of t) as Hh
    by (apply history_of_eq; unfold set; simpl; by rewrite E).
  destruct (first_reconcile_succeeded _).
  - rewrite history_of_restore_posture. split; [done|].
    unfold apply_restore_posture, enter_reconciling.
    by destruct (first_reconcile_succeeded _), (has_pending_reconcile_anchors _).
  - done.
Qed.

Lemma adopt_same_inputs s : same_inputs s (adopt_durable_records s).
Proof. unfold adopt_durable_records. etrans; [|apply retain_same_inputs]. by split. Qed.

(** The tail of [resume_state]: with the durable anchor accepted, it publishes, adopts
    the durable records, and only the records and the evidence can still be refused. *)
Lemma resume_tail s (publish : bool) : ∃ s',
  (s1 ← (if publish then publish_current_snapshot s false else Returns s);
   method_then (check (adopt_durable_records s1) (validate_shadow_anchor (adopt_durable_records s1)))
     (λ s2 _, check s2 (validate_rollout_evidence_anchor s2))) =
  Returns (s', _ ← validate_shadow_anchor s'; validate_rollout_evidence_anchor s') ∧
  same_inputs s s'.
Proof.
  assert (∃ s1, (if publish then publish_current_snapshot s false else Returns s) = Returns s1 ∧
    same_inputs s s1) as (s1 & -> & H1).
  { destruct publish; [apply publish_current_total|]. by exists s. }
  cbn [mbind outcome_bind]. exists (adopt_durable_records s1).
  split; [|etrans; [exact H1|apply adopt_same_inputs]].
  unfold check. cbn [method_then].
  destruct (validate_shadow_anchor (adopt_durable_records s1)) as [[]|e];
    cbn [method_then mbind result_bind]; reflexivity.
Qed.

Lemma pending_count_zero (t : StateStore) :
  pending_reconcile_count t = 0%nat → pending_reconcile_anchors t = ∅.
Proof. apply map_size_empty_inv. Qed.

(** Two histories that agree count the same anchors at the same version. *)
Lemma history_counts (t1 t2 : StateStore) :
  history_of t1 = history_of t2 →
  state_version t1 = state_version t2 ∧ pending_reconcile_count t1 = pending_reconcile_count t2.
Proof.
  intros (_ & _ & E & _ & _ & E' & _)%history_of_eq. unfold pending_reconcile_count. by rewrite E, E'.
Qed.

Lemma resume_checks_accept s q :
  sd_pending_reconcile_count (sv_seed s) = Some (runtime_pending_reconcile_count (sv_runtime s)) →
  seeded_state_version (sv_seed s) = runtime_state_version (sv_runtime s) →
  last_journal_seq (sv_runtime s) = Some q →
  ∃ s', check_pending_reconcile s = Returns (s', Ok ()) ∧ check_durable_anchor s' q = Ok () ∧
    history_of (ar_store (sv_runtime s')) = history_of (ar_store (sv_runtime s)) ∧
    last_journal_seq (sv_runtime s') = Some q ∧ sv_committed_log s' = sv_committed_log s.
Proof.
  intros Hp Hv Hq. unfold check_pending_reconcile. rewrite Hp.
  destruct (runtime_pending_reconcile_count (sv_runtime s)) as [|k] eqn:Ek.
  - destruct (clear_pending_history (ar_store (sv_runtime s)) (pending_count_zero _ Ek)) as [Eh Ec].
    eexists. split; [reflexivity|]. set (s' := s <| sv_runtime ::= _ |>).
    assert (last_journal_seq (sv_runtime s') = Some q) as Eq by (rewrite <- Hq; apply Ec).
    split; [|done]. unfold check_durable_anchor. rewrite Eq.
    assert (runtime_state_version (sv_runtime s') = runtime_state_version (sv_runtime s)) as ->
      by (apply (history_counts _ _ Eh)).
    change (sv_seed s') with (sv_seed s). by rewrite Hv, !bool_decide_eq_true_2.
  - rewrite bool_decide_eq_true_2 by done. exists s. split; [done|]. split; [|done].
    unfold check_durable_anchor. by rewrite Hv, Hq, !bool_decide_eq_true_2.
Qed.

(** The log a drain leaves, from the baseline, replays to its history and cursor. *)
Lemma drain_replays env per_input s s1 n seen r0 :
  history_of (ar_store (sv_runtime s)) = history_of store_new →
  last_journal_seq (sv_runtime s) = Some 0 → sv_committed_log s = [] →
  log_wf (sv_input_tasks s) →
  run_drain env per_input s = Some (Returns (s1, Ok (n, seen))) →
  ∃ r q, replay_committed_history r0 (sv_committed_log s1) = Returns (r, Ok ()) ∧
    history_of (ar_store r) = history_of (ar_store (sv_runtime s1)) ∧
    last_journal_seq r = Some q ∧ last_journal_seq (sv_runtime s1) = Some q.
Proof.
  intros Hhist Hcur Hlog Hq Hrun.
  rewrite run_drain_each in Hrun. injection Hrun as Hrun. rewrite Hcur in Hrun.
  set (pending := filter (after_anchor (Some 0)) (sv_input_tasks s)) in *.
  eapply drain_each_effect in Hrun as
    (taken & rest & r & rs & E & Happ & Est & _ & El & _ & _ & -> & _);
    [|symmetry; apply filter_app_complement].
  rewrite app_nil_r in E. subst taken. fold pending in Happ, El.
  assert (log_wf pending) as Hwf by (by apply filter_sorted).
  rewrite Hlog, (commits_append [] pending) in El by done. cbn [app] in El.
  assert (∀ i, i ∈ pending → 0 < it_journal_seq i) as Hpos
    by (intros i [Hi _]%list_elem_of_filter; done).
  destruct (replay_rebuilds pending (sv_runtime s) r rs r0 Hhist Hcur Hpos Happ)
    as (r2 & Hrep & Rh & Rc & _).
  apply apply_inputs_cursor in Happ as [q Hsq]; [|by rewrite Hcur].
  exists r2, q. rewrite El. split_and!; [done|congruence|congruence|].
  rewrite <- Hsq. unfold last_journal_seq. by rewrite Est.
Qed.

(** C12. What a drain committed can be resumed. Take a supervisor at the bootstrap
    baseline with an empty log and a queue that is sorted and has no entry twice, drain
    it, and let another supervisor, with any posture of its own, have that committed log
    and a seed with the sequence number, version and number of pending reconciles the
    drain ended with. Then the replay in [resume_once] rebuilds the drained fact
    history and cursor, none of the divergence checks refuses it, and only the durable
    records and rollout evidence are left to be judged. *)
Theorem resume_rebuilds_drained env per_input s s1 n seen s2
    (Hhist : history_of (ar_store (sv_runtime s)) = history_of store_new)
    (Hcur : last_journal_seq (sv_runtime s) = Some 0)
    (Hlog : sv_committed_log s = []) (Hq : log_wf (sv_input_tasks s))
    (Hrun : run_drain env per_input s = Some (Returns (s1, Ok (n, seen))))
    (Hlog2 : sv_committed_log s2 = sv_committed_log s1)
    (Hseq : sd_last_journal_seq (sv_seed s2) = last_journal_seq (sv_runtime s1))
    (Hver : seeded_state_version (sv_seed s2) = runtime_state_version (sv_runtime s1))
    (Hpend : sd_pending_reconcile_count (sv_seed s2) =
             Some (runtime_pending_reconcile_count (sv_runtime s1))) :
  ∃ s3, resume_state s2 =
      Returns (s3, _ ← validate_shadow_anchor s3; validate_rollout_evidence_anchor s3) ∧
    history_of (ar_store (sv_runtime s3)) = history_of (ar_store (sv_runtime s1)) ∧
    last_journal_seq (sv_runtime s3) = last_journal_seq (sv_runtime s1) ∧
    sv_committed_log s3 = sv_committed_log s1.
Proof.
  destruct (drain_replays env per_input s s1 n seen (runtime_new (ar_app_mode (sv_runtime s2)))
              Hhist Hcur Hlog Hq Hrun) as (r2 & q & Hrep & Rh & Rq & Hq1).
  destruct (history_counts _ _ Rh) as [Rv Rp].
  unfold resume_state, resume_last_journal_seq.
  change (sv_seed (fresh_runtime s2 _)) with (sv_seed s2). rewrite Hseq, Hq1. cbn [mbind].
  change (sv_runtime (fresh_runtime s2 _)) with
    (runtime_new (X := X) (ar_app_mode (sv_runtime s2))).
  change (sv_committed_log (fresh_runtime s2 _)) with (sv_committed_log s2).
  rewrite Hlog2, Hrep. cbn [mbind outcome_bind].
  set (s4 := fresh_runtime s2 candidate_restore_status_default <| sv_runtime := r2 |>
               <| sv_candidate_restore_status := _ |>).
  destruct (resume_checks_accept s4 q) as (s5 & -> & Ha & Eh & Eq & El).
  { change (sd_pending_reconcile_count (sv_seed s2) = Some (pending_reconcile_count (ar_store r2))).
    rewrite Hpend. unfold runtime_pending_reconcile_count. by rewrite Rp. }
  { change (seeded_state_version (sv_seed s2) = state_version (ar_store r2)). by rewrite Hver, Rv. }
  { done. }
  cbn [method_then]. unfold check at 1. rewrite Ha. cbn [method_then].
  match goal with |- context [if ?b then publish_current_snapshot s5 false else _] =>
    destruct (resume_tail s5 b) as (s3 & -> & [_ T2 T3 _ _ _]) end.
  exists s3. split; [done|]. rewrite T2, T3, El, <- Rh, Eh. unfold last_journal_seq in *.
  rewrite T3, Eq. by split_and!.
Qed.

(** ** Who may use the live backend *)

Definition with_backend (b : option (NegRiskLiveExecutionBackend (World := World))) s :
    AppSupervisor (X := X) (World := World) := s <| sv_live_backend := b |>.

(** The same run, from and to states with the given backend. *)
Definition on_state {A} (f : AppSupervisor (X := X) (World := World) → AppSupervisor (X := X) (World := World))
    (m : Method A) : Method A :=
  match m with Returns (s, r) => Returns (f s, r) | Panics => Panics end.

(** Equality of states by computing their fields: plain conversion would compare nested
    updates field by field at every level. *)
Ltac sv_refl :=
  cbv beta iota zeta delta [set with_backend on_state sv_dispatcher sv_posture sv_runtime
    sv_bootstrap_snapshot sv_committed_log sv_input_tasks sv_seed
    sv_real_user_shadow_smoke_enabled sv_durable_live_persistence_enabled
    sv_durable_shadow_persistence_enabled sv_run_session_id sv_live_targets
    sv_live_target_revision sv_live_approved_families sv_live_ready_families sv_live_backend
    sv_rollout_evidence sv_rollout_evidence_source sv_candidate_restore_status sv_live_records
    sv_live_state_source sv_shadow_attempts sv_shadow_artifacts sv_world];
  reflexivity.

Section backend.
Context (b : option (NegRiskLiveExecutionBackend (World := World))).
#[local] Notation wb := (with_backend b).

Lemma method_then_on_state {A B} (m : Method A)
    (g : AppSupervisor (X := X) (World := World) → A → Method B) :
  (∀ s a, g (wb s) a = on_state wb (g s a)) →
  method_then (on_state wb m) g = on_state wb (method_then m g).
Proof. intros Hg. destruct m as [[s [a|e]]|]; cbn; by rewrite ?Hg. Qed.

Lemma retain_with_backend s :
  retain_current_shadow_records (retain_current_live_records (wb s)) =
  wb (retain_current_shadow_records (retain_current_live_records s)).
Proof.
  unfold retain_current_live_records.
  change (sv_runtime (wb s)) with (sv_runtime s).
  assert (∀ s, retain_current_shadow_records (wb s) = wb (retain_current_shadow_records s)) as Hs.
  { intros u. unfold retain_current_shadow_records. change (sv_runtime (wb u)) with (sv_runtime u).
    by destruct (published_snapshot_id (sv_runtime u)). }
  destruct (published_snapshot_id (sv_runtime s)) as [id|]; [|by rewrite <- Hs].
  match goal with |- retain_current_shadow_records (if ?c then ?x else ?y) =
                     wb (retain_current_shadow_records (if ?c' then ?x' else ?y')) =>
    change (retain_current_shadow_records (if c' then wb x' else wb y') =
            wb (retain_current_shadow_records (if c' then x' else y'))); destruct c' end; apply Hs.
Qed.

Lemma with_backend_dispatcher u f : wb u <| sv_dispatcher ::= f |> = wb (u <| sv_dispatcher ::= f |>).
Proof. reflexivity. Qed.

Lemma publish_with_backend s x :
  publish_current_snapshot (wb s) x = (s' ← publish_current_snapshot s x; Returns (wb s')).
Proof.
  unfold publish_current_snapshot. change (sv_runtime (wb s)) with (sv_runtime s).
  destruct (publish_snapshot _ _) as [[r p]|]; cbn [mbind outcome_bind]; [|done]. f_equal.
  destruct p as [p|]; [|by rewrite <- retain_with_backend].
  change (rollout_evidence_for_snapshot (wb s <| sv_runtime := r |>) p x) with
    (rollout_evidence_for_snapshot (s <| sv_runtime := r |>) p x).
  destruct (rollout_evidence_for_snapshot _ p x) as [e src].
  match goal with |- retain_current_shadow_records (retain_current_live_records ?u)
      <| sv_dispatcher ::= _ |> = wb (retain_current_shadow_records (retain_current_live_records ?v)
      <| sv_dispatcher ::= _ |>) => change u with (wb v) end.
  rewrite retain_with_backend. apply with_backend_dispatcher.
Qed.

Lemma materialize_with_backend env s a :
  materialize_candidate_artifacts_with_authority env (wb s) a =
  (s' ← materialize_candidate_artifacts_with_authority env s a; Returns (wb s')).
Proof.
  unfold materialize_candidate_artifacts_with_authority.
  change (sv_runtime (wb s)) with (sv_runtime s).
  destruct (runtime_candidate_publication (sv_runtime s)) as [[p|]|]; cbn [mbind outcome_bind];
    [|done..]. f_equal. destruct (cp_view p) as [v|]; [|done]. case_bool_decide; [done|].
  change (sv_live_target_revision (wb s)) with (sv_live_target_revision s).
  change (sv_live_targets (wb s)) with (sv_live_targets s).
  change (sv_world (wb s)) with (sv_world s).
  destruct (persist_notice_for_runtime _ _ _) as [w [r|e]]; reflexivity.
Qed.

Lemma record_with_backend s i : record_committed_input (wb s) i = wb (record_committed_input s i).
Proof.
  unfold record_committed_input. change (sv_committed_log (wb s)) with (sv_committed_log s).
  by case_bool_decide.
Qed.

Lemma drain_one_with_backend s i : drain_one (wb s) i = on_state wb (drain_one s i).
Proof.
  unfold drain_one. change (sv_runtime (wb s)) with (sv_runtime s).
  destruct (apply_input (sv_runtime s) i) as [[r [a|e]]|]; cbn [mbind outcome_bind]; [|done..].
  destruct a as [q v d| | |].
  - match goal with |- context [record_committed_input ?u i] =>
      lazymatch u with context [wb] =>
        change u with (wb (s <| sv_runtime := r |> <| sv_dispatcher ::= λ x, record_apply x v d |>))
      end end.
    rewrite record_with_backend.
    match goal with |- (_ ← publish_current_snapshot ?u false; _) =
        on_state wb (_ ← publish_current_snapshot ?v false; _) => change u with (wb v) end.
    rewrite publish_with_backend. by destruct (publish_current_snapshot _ false).
  - change (wb s <| sv_runtime := r |>) with (wb (s <| sv_runtime := r |>)).
    by rewrite record_with_backend.
  - change (wb s <| sv_runtime := r |>) with (wb (s <| sv_runtime := r |>)).
    by rewrite record_with_backend.
  - change (wb s <| sv_runtime := r |>) with (wb (s <| sv_runtime := r |>)).
    by rewrite record_with_backend.
Qed.

Lemma drain_with_backend env per_input inputs n seen s :
  drain_each env per_input inputs n seen (wb s) = on_state wb (drain_each env per_input inputs n seen s).
Proof.
  revert n seen s. induction inputs as [|i inputs IH]; intros n seen s; [done|].
  cbn [drain_each]. unfold drain_turn. rewrite drain_one_with_backend.
  destruct (drain_one s i) as [[s1 [d|e]]|]; cbn [on_state]; [|done..].
  destruct (per_input && d).
  - rewrite materialize_with_backend.
    destruct (materialize_candidate_artifacts_with_authority env s1 false) as [s2|];
      cbn [mbind outcome_bind]; [apply IH|done].
  - cbn [mbind outcome_bind]. apply IH.
Qed.

Lemma drain_tasks_with_backend env s :
  drain_input_tasks env (wb s) = on_state wb (drain_input_tasks env s).
Proof.
  unfold drain_input_tasks. rewrite !run_drain_each. cbn [default].
  change (sv_runtime (wb s)) with (sv_runtime s).
  change (sv_input_tasks (wb s)) with (sv_input_tasks s).
  rewrite drain_with_backend. by apply method_then_on_state.
Qed.

Lemma finish_with_backend s : finish_run (wb s) = on_state wb (finish_run s).
Proof.
  unfold finish_run, check. change (validate_live_anchor (wb s)) with (validate_live_anchor s).
  destruct (validate_live_anchor s) as [[]|e]; cbn [method_then on_state]; [|done].
  unfold flush_dispatch. change (sv_dispatcher (wb s)) with (sv_dispatcher s).
  destruct (flush (sv_dispatcher s)) as [d m]. reflexivity.
Qed.

Lemma adopt_with_backend s : adopt_durable_records (wb s) = wb (adopt_durable_records s).
Proof.
  unfold adopt_durable_records. change (sv_seed (wb s)) with (sv_seed s).
  match goal with |- retain_current_shadow_records (retain_current_live_records ?u) =
                     wb (retain_current_shadow_records (retain_current_live_records ?v)) =>
    change u with (wb v) end. apply retain_with_backend.
Qed.

Lemma publish_check_with_backend {A} s (k : AppSupervisor (X := X) (World := World) → Method A) x :
  (∀ s, k (wb s) = on_state wb (k s)) →
  (s ← publish_current_snapshot (wb s) x; k s) = on_state wb (s ← publish_current_snapshot s x; k s).
Proof.
  intros Hk. rewrite publish_with_backend.
  by destruct (publish_current_snapshot s x); cbn [mbind outcome_bind].
Qed.

Lemma check_shadow_with_backend s :
  check (wb s) (validate_shadow_anchor (wb s)) = on_state wb (check s (validate_shadow_anchor s)).
Proof. reflexivity. Qed.

Lemma publish_restored_with_backend s :
  publish_restored (wb s) = on_state wb (publish_restored s).
Proof.
  apply publish_check_with_backend. intros u. cbv zeta. rewrite adopt_with_backend.
  apply check_shadow_with_backend.
Qed.

Lemma restore_with_backend s :
  restore_seeded_startup_state (wb s) = on_state wb (restore_seeded_startup_state s).
Proof.
  unfold restore_seeded_startup_state. change (sv_seed (wb s)) with (sv_seed s).
  change (fresh_runtime (wb s) ?c) with (wb (fresh_runtime s c)).
  set (s0 := fresh_runtime s _). clearbody s0.
  destruct (sd_last_journal_seq (sv_seed s)) as [q|]; [|done].
  change (wb s0 <| sv_runtime ::= ?f |>) with (wb (s0 <| sv_runtime ::= f |>)).
  set (s1 := s0 <| sv_runtime ::= _ |>). clearbody s1.
  change (sv_runtime (wb s1)) with (sv_runtime s1).
  destruct (sd_pending_reconcile_count (sv_seed s)); [case_bool_decide; [|reflexivity]|];
    apply publish_restored_with_backend.
Qed.

(** When the live records may not be refreshed from the backend. *)
Definition live_closed (allow : bool) s : Prop :=
  ar_app_mode (sv_runtime s) = Paper ∨ sv_real_user_shadow_smoke_enabled s = true ∨ allow = false.

Lemma refresh_shadow_with_backend env id s :
  refresh_shadow_records env id (wb s) = on_state wb (refresh_shadow_records env id s).
Proof.
  unfold refresh_shadow_records.
  change (eligible_shadow_records_with_run_session_id id (sv_live_targets (wb s)) _ _ _) with
    (eligible_shadow_records_with_run_session_id id (sv_live_targets s)
       (sv_live_approved_families s) (sv_live_ready_families s) (sv_run_session_id s)).
  destruct (eligible_shadow_records_with_run_session_id _ _ _ _ _) as [[records|e]|];
    cbn [mbind outcome_bind]; [|done..].
  change (sv_durable_shadow_persistence_enabled (wb s)) with (sv_durable_shadow_persistence_enabled s).
  change (sv_run_session_id (wb s)) with (sv_run_session_id s).
  change (sv_world (wb s)) with (sv_world s).
  destruct (if sv_durable_shadow_persistence_enabled s then _ else _) as [w [[]|e]]; sv_refl.
Qed.

Lemma refresh_with_backend env allow s :
  live_closed allow s →
  refresh_neg_risk_live_execution_records env allow (wb s) =
  on_state wb (refresh_neg_risk_live_execution_records env allow s).
Proof.
  intros Hc. unfold refresh_neg_risk_live_execution_records.
  change (sv_runtime (wb s)) with (sv_runtime s).
  destruct (negb (is_live_mode (sv_runtime s)) || negb allow) eqn:E; [done|].
  change (sv_real_user_shadow_smoke_enabled (wb s)) with (sv_real_user_shadow_smoke_enabled s).
  assert (sv_real_user_shadow_smoke_enabled s = true) as ->.
  { unfold is_live_mode in E. destruct Hc as [Hp|[Hs|Ha]]; [by rewrite Hp in E|done|].
    by rewrite Ha, orb_true_r in E. }
  change (sv_shadow_attempts (wb s)) with (sv_shadow_attempts s).
  change (sv_rollout_evidence (wb s)) with (sv_rollout_evidence s).
  destruct (length (sv_shadow_attempts s)); [|done]. cbn [negb].
  rewrite bool_decide_eq_true_2 by done. cbn [negb].
  destruct (published_snapshot_id (sv_runtime s)); [|done].
  destruct (sv_rollout_evidence s); [|done]. case_bool_decide; [done|].
  apply refresh_shadow_with_backend.
Qed.

Lemma pending_check_with_backend s :
  check_pending_reconcile (wb s) = on_state wb (check_pending_reconcile s).
Proof.
  unfold check_pending_reconcile. change (sv_seed (wb s)) with (sv_seed s).
  change (sv_runtime (wb s)) with (sv_runtime s).
  destruct (sd_pending_reconcile_count (sv_seed s)) as [[|k]|]; [reflexivity|..];
    case_bool_decide; reflexivity.
Qed.

(** The tail of [resume_state], from the published state. *)
Lemma adopt_check_with_backend s :
  method_then (check (adopt_durable_records (wb s)) (validate_shadow_anchor (adopt_durable_records (wb s))))
    (λ s _, check s (validate_rollout_evidence_anchor s)) =
  on_state wb
    (method_then (check (adopt_durable_records s) (validate_shadow_anchor (adopt_durable_records s)))
       (λ s _, check s (validate_rollout_evidence_anchor s))).
Proof.
  rewrite adopt_with_backend, check_shadow_with_backend. apply method_then_on_state. reflexivity.
Qed.

Lemma publish_if_with_backend {A} s (c : bool) x (k : AppSupervisor (X := X) (World := World) → Method A) :
  (∀ s, k (wb s) = on_state wb (k s)) →
  (s ← (if c then publish_current_snapshot (wb s) x else Returns (wb s)); k s) =
  on_state wb (s ← (if c then publish_current_snapshot s x else Returns s); k s).
Proof. intros Hk. destruct c; [by apply publish_check_with_backend|apply Hk]. Qed.

Lemma resume_state_with_backend s : resume_state (wb s) = on_state wb (resume_state s).
Proof.
  unfold resume_state. change (fresh_runtime (wb s) ?c) with (wb (fresh_runtime s c)).
  set (s0 := fresh_runtime s _). clearbody s0.
  change (resume_last_journal_seq (wb s0)) with (resume_last_journal_seq s0).
  change (sv_runtime (wb s0)) with (sv_runtime s0).
  change (sv_committed_log (wb s0)) with (sv_committed_log s0).
  destruct (resume_last_journal_seq s0) as [q|e]; [|reflexivity].
  destruct (replay_committed_history _ _) as [[r [[]|e]]|]; cbn [mbind outcome_bind];
    [|reflexivity..].
  match goal with |- method_then (check_pending_reconcile ?u) _ =
    on_state _ (method_then (check_pending_reconcile ?v) _) => change u with (wb v) end.
  rewrite pending_check_with_backend. apply method_then_on_state. intros s1 _.
  change (check (wb s1) ?x) with (on_state wb (check s1 x)).
  change (check_durable_anchor (wb s1) q) with (check_durable_anchor s1 q).
  apply method_then_on_state. intros s2 _.
  change (sv_runtime (wb s2)) with (sv_runtime s2). change (sv_seed (wb s2)) with (sv_seed s2).
  apply publish_if_with_backend, adopt_check_with_backend.
Qed.

Lemma resume_with_backend env s : resume_once env (wb s) = on_state wb (resume_once env s).
Proof.
  unfold resume_once. rewrite resume_state_with_backend. apply method_then_on_state. intros s1 _.
  rewrite drain_tasks_with_backend. apply method_then_on_state. intros s2 _.
  change (sv_runtime (wb s2)) with (sv_runtime s2).
  apply publish_if_with_backend, finish_with_backend.
Qed.

Lemma then_on_state {A B} (m : Method A)
    (g : AppSupervisor (X := X) (World := World) → A → Method B) :
  (∀ s a, m = Returns (s, Ok a) → g (wb s) a = on_state wb (g s a)) →
  method_then (on_state wb m) g = on_state wb (method_then m g).
Proof. intros Hg. destruct m as [[s [a|e]]|]; cbn; by rewrite ?Hg. Qed.
End backend.

(** A supervisor whose configuration or seed keeps it from the live backend. *)
Definition live_reserved s : Prop :=
  ar_app_mode (sv_runtime s) = Paper ∨ sv_real_user_shadow_smoke_enabled s = true ∨
  sd_pending_reconcile_anchors (sv_seed s) ≠ [] ∨ is_Some (sd_rollout_evidence (sv_seed s)).

Lemma live_reserved_closed s :
  live_reserved s → live_closed (allow_operator_rollout_evidence_synthesis s) s.
Proof.
  intros [Hp|[Hs|Hr]]; [by left|by right; left|right; right].
  unfold allow_operator_rollout_evidence_synthesis. destruct Hr as [Ha|[e He]].
  - rewrite (bool_decide_eq_false_2 (length (sd_pending_reconcile_anchors (sv_seed s)) = 0%nat))
      by (by destruct (sd_pending_reconcile_anchors (sv_seed s))).
    by rewrite !andb_false_r.
  - rewrite (bool_decide_eq_false_2 (sd_rollout_evidence (sv_seed s) = None)) by congruence.
    by rewrite !andb_false_r.
Qed.

Lemma live_reserved_same s s' :
  ar_app_mode (sv_runtime s') = ar_app_mode (sv_runtime s) →
  sv_real_user_shadow_smoke_enabled s' = sv_real_user_shadow_smoke_enabled s →
  sv_seed s' = sv_seed s → live_reserved s → live_reserved s'.
Proof. intros E1 E2 E3. unfold live_reserved. by rewrite E1, E2, E3. Qed.

Lemma restored_anchors_mode (r : AppRuntime) anchors :
  ar_app_mode (foldl runtime_restore_pending_reconcile_anchor r anchors) = ar_app_mode r.
Proof. revert r. induction anchors as [|a anchors IH]; intros r; simpl; [done|]. by rewrite IH. Qed.

Lemma publish_restored_same s s' res : publish_restored s = Returns (s', res) → same_inputs s s'.
Proof.
  unfold publish_restored. destruct (publish_current_total s false) as (s1 & -> & Hs).
  cbn [mbind outcome_bind]. unfold check. intros [= <- _].
  etrans; [exact Hs|apply adopt_same_inputs].
Qed.

Lemma fresh_reserved s c : live_reserved s → live_reserved (fresh_runtime s c).
Proof. apply live_reserved_same; reflexivity. Qed.

Lemma anchored_reserved s f :
  (∀ r, ar_app_mode (f r) = ar_app_mode r) → live_reserved s →
  live_reserved (s <| sv_runtime ::= f |>).
Proof. intros Hf. apply live_reserved_same; [apply Hf|reflexivity..]. Qed.

Lemma restore_reserved s s' res :
  restore_seeded_startup_state s = Returns (s', res) → live_reserved s → live_reserved s'.
Proof.
  unfold restore_seeded_startup_state. intros Hr Hl.
  apply (fresh_reserved s (sd_candidate_restore_status (sv_seed s))) in Hl. revert Hr Hl.
  generalize (fresh_runtime s (sd_candidate_restore_status (sv_seed s))). intros s0 Hr Hl.
  destruct (sd_last_journal_seq (sv_seed s)) as [q|]; [|by injection Hr as <- _].
  match type of Hr with context [s0 <| sv_runtime ::= ?f |>] =>
    assert (live_reserved (s0 <| sv_runtime ::= f |>)) as H1
      by (apply anchored_reserved; [intros r; apply (restored_anchors_mode (runtime_restore_committed_anchor r _ _))|done]);
    revert Hr H1; generalize (s0 <| sv_runtime ::= f |>) end.
  intros s1 Hr H1.
  assert (same_inputs s1 s' → live_reserved s') as Hs
    by (intros [_ _ _ E1 E2 E3]; by apply (live_reserved_same s1)).
  destruct (sd_pending_reconcile_count (sv_seed s)) as [k|];
    [destruct (bool_decide _); [|by injection Hr as <- _]|];
    exact (Hs (publish_restored_same _ _ _ Hr)).
Qed.

Lemma run_once_with_backend env b s :
  live_reserved s → run_once env (with_backend b s) = on_state (with_backend b) (run_once env s).
Proof.
  intros Hl. unfold run_once.
  change (restoring_seeded_startup (with_backend b s)) with (restoring_seeded_startup s).
  match goal with |- method_then ?u _ = on_state _ (method_then ?v _) =>
    assert (u = on_state (with_backend b) v) as -> end.
  { destruct (restoring_seeded_startup s); [apply restore_with_backend|].
    change (sv_runtime (with_backend b s)) with (sv_runtime s).
    by destruct (is_ready (sv_runtime s)). }
  apply then_on_state. intros s1 [] E1.
  assert (live_reserved s1) as Hl1.
  { destruct (restoring_seeded_startup s); [by eapply restore_reserved|].
    injection E1 as <-. destruct (is_ready (sv_runtime s)); [done|].
    apply anchored_reserved; [|done]. intros r. unfold bootstrap_once.
    destruct (reconcile_store _ _) as [t report]. cbn [fst]. unfold anchor_baseline_if_ready.
    by destruct (_ && _). }
  clear E1. change (allow_operator_rollout_evidence_synthesis (with_backend b s1)) with
    (allow_operator_rollout_evidence_synthesis s1).
  pose proof (live_reserved_closed s1 Hl1) as Hc.
  set (allow := allow_operator_rollout_evidence_synthesis s1) in *.
  rewrite publish_with_backend.
  destruct (publish_current_total s1 allow) as (s2 & -> & [_ _ _ E4 _ E6]).
  cbn [mbind outcome_bind].
  rewrite refresh_with_backend by (destruct Hc as [?|[?|?]]; unfold live_closed; rewrite ?E4, ?E6; auto).
  apply method_then_on_state. intros s3 _.
  change (validate_seeded_startup_restore (with_backend b s3)) with
    (validate_seeded_startup_restore s3).
  change (check (with_backend b s3) ?x) with (on_state (with_backend b) (check s3 x)).
  apply method_then_on_state. intros s4 _. rewrite drain_tasks_with_backend.
  apply method_then_on_state. intros s5 _. apply finish_with_backend.
Qed.

(** C13. No live submission without licence. A resume never uses the live backend. A run
    does not use it in paper mode, with the real-user shadow smoke enabled, or when the
    seed carries a pending reconcile anchor or rollout evidence of an earlier session:
    with any other backend in its place the run ends in the same way, in the same state
    (that backend aside) and with the same effects on the database, even where it fails. *)
Theorem live_backend_unused env b s :
  resume_once env (with_backend b s) = on_state (with_backend b) (resume_once env s) ∧
  (live_reserved s →
   run_once env (with_backend b s) = on_state (with_backend b) (run_once env s)).
Proof. split; [apply resume_with_backend|apply run_once_with_backend]. Qed.
End proofs.

(** ** Concrete runs *)

(** A bootstrapped live supervisor with three inputs queued: a discovery, a submission
    and its reconcile. *)
Definition queued_supervisor : AppSupervisor (X := Micros) (World := nat) :=
  bootstrap_runtime (H := ElementsOrder)
    (supervisor_new (X := Micros) LiveMode remote_snapshot_empty 0%nat <| sv_input_tasks := demo_inputs |>).

Definition queued_drain :=
  run_drain (J := plain_json) counting_env true queued_supervisor.

Definition drained (n : nat) : bool :=
  match queued_drain with Some (Returns (_, Ok (m, _))) => bool_decide (m = n) | _ => false end.

Lemma queued_drains : ∃ s seen, queued_drain = Some (Returns (s, Ok (3%nat, seen))).
Proof.
  assert (drained 3 = true) as Hd by (vm_compute; reflexivity). unfold drained in Hd.
  destruct queued_drain as [[[s [[m seen]|e]]|]|]; try discriminate.
  apply bool_decide_eq_true in Hd as ->. by exists s, seen.
Qed.

Lemma demo_inputs_wf : log_wf demo_inputs.
Proof.
  split.
  - unfold demo_inputs. repeat (constructor; try discriminate).
  - apply (bool_decide_unpack _). vm_compute. exact I.
Qed.

Lemma drain_commits_what_it_takes_witness :
  log_wf (sv_committed_log queued_supervisor) ∧
  ∃ s seen, queued_drain = Some (Returns (s, Ok (3%nat, seen))) ∧
    log_wf (sv_committed_log s).
Proof.
  assert (log_wf (sv_committed_log queued_supervisor)) as Hl by (split; constructor).
  split; [exact Hl|]. destruct queued_drains as (s & seen & E). exists s, seen. split; [exact E|].
  destruct (drain_commits_what_it_takes (J := plain_json) counting_env true
    queued_supervisor s (Ok (3%nat, seen)) Hl E) as (taken & rest & _ & Hwf & _). exact Hwf.
Defined.

(** The seed a session leaves: the position it ended at. *)
Definition seed_at {X : Externals} {World : Type} (s : @AppSupervisor X World) :
    RuntimeSeed :=
  seed_default <| sd_last_journal_seq := last_journal_seq (sv_runtime s) |>
    <| sd_committed_state_version := Some (runtime_state_version (sv_runtime s)) |>
    <| sd_pending_reconcile_count := Some (runtime_pending_reconcile_count (sv_runtime s)) |>.

Lemma seeded_at {X : Externals} {World : Type} (s : @AppSupervisor X World) :
  let s' := s <| sv_seed := seed_at s |> in
  sv_committed_log s' = sv_committed_log s ∧
  sd_last_journal_seq (sv_seed s') = last_journal_seq (sv_runtime s) ∧
  seeded_state_version (sv_seed s') = runtime_state_version (sv_runtime s) ∧
  sd_pending_reconcile_count (sv_seed s') = Some (runtime_pending_reconcile_count (sv_runtime s)).
Proof. unfold set. cbn. done. Qed.

Lemma resume_rebuilds_drained_witness :
  ∃ s seen s3 res, queued_drain = Some (Returns (s, Ok (3%nat, seen))) ∧
    resume_state (s <| sv_seed := seed_at s |>) = Returns (s3, res) ∧
    last_journal_seq (sv_runtime s3) = last_journal_seq (sv_runtime s).
Proof.
  destruct queued_drains as (s & seen & E).
  destruct (bootstrap_baseline (X := Micros) (H := ElementsOrder) LiveMode remote_snapshot_empty
    ltac:(vm_compute; reflexivity)) as [Hh Hc].
  destruct (seeded_at s) as (E1 & E2 & E3 & E4).
  destruct (resume_rebuilds_drained (J := plain_json) counting_env true
    queued_supervisor s 3 seen (s <| sv_seed := seed_at s |>) Hh Hc eq_refl demo_inputs_wf E
    E1 E2 E3 E4) as (s3 & Hr & _ & Hq & _).
  exists s, seen, s3. eexists. split; [exact E|]. split; [exact Hr|exact Hq].
Defined.

(** The smoke run of [Supervisor.operator_smoke_run], with a backend that would panic. *)
Lemma live_backend_unused_witness :
  let s := operator_supervisor ["family-a"] [EnableRealUserShadowSmoke] in
  live_reserved s ∧
  run_of (with_backend (Some {| execute_live_family _ _ _ _ := Panics |}) s) =
    on_state (with_backend (Some {| execute_live_family _ _ _ _ := Panics |})) (run_of s).
Proof.
  intros s. assert (live_reserved s) as Hl by (right; left; reflexivity).
  split; [exact Hl|].
  apply (live_backend_unused (J := plain_json) (H := ElementsOrder) counting_env _ s), Hl.
Defined.
