(* ===== verification/SupervisorInvariants.v ===== *)
(** * What a supervisor shows

    The invariant of every state a supervisor can be in, whatever it was seeded with and
    however its runs ended: its evidence and its records are about the snapshot it
    publishes, its log and queue are ordered. Then what a run that succeeds in live mode
    implies, and what a seeded startup restores. *)

From S2P Require Import Prelude Text RecordSet Externals Json Domain RuntimeMode Facts Store Apply.
From S2P Require Import Reconcile StoreInvariants Snapshot Risk Plans Execution Dispatch Runtime.
From S2P Require Import LiveRecords Discovery Supervisor SupervisorProofs.
Import RuntimeMode.

#[local] Arguments set : simpl never.

Section invariants.
Context {X : Externals} {J : JsonOps} {H : HashOrder} {World : Type}.
Implicit Types (s : AppSupervisor (X := X) (World := World)) (env : SupervisorEnv (X := X) (World := World)).
#[local] Notation Method A :=
  (outcome (AppSupervisor (X := X) (World := World) * result SupervisorError A)%type).

(** A backend answers for the snapshot it is given, as the recording one does. *)
Definition backend_lawful (b : NegRiskLiveExecutionBackend (X := X) (World := World)) : Prop :=
  ∀ id target rule w w' r,
    execute_live_family b id target rule w = Returns (w', Ok r) → lr_snapshot_id r = id.

(** The invariant of the parts a publication does not rebuild. *)
Record sv_base s : Prop := {
  sb_published : is_Some (ar_published_snapshot (sv_runtime s)) →
    is_Some (last_applied_journal_seq (ar_store (sv_runtime s)));
  sb_source : sv_live_records s = [] ↔ sv_live_state_source s = LiveSourceNone;
  sb_log : log_wf (sv_committed_log s);
  sb_queue : StronglySorted (cmp_le by_seq) (sv_input_tasks s);
  sb_backend : ∀ b, sv_live_backend s = Some b → backend_lawful b;
}.

(** What is shown of the published snapshot. *)
Record sv_shown s : Prop := {
  ss_evidence : re_snapshot_id <$> sv_rollout_evidence s = published_snapshot_id (sv_runtime s);
  ss_live : ∀ r, r ∈ sv_live_records s → Some (lr_snapshot_id r) = published_snapshot_id (sv_runtime s);
  ss_shadow : ∀ a, a ∈ sv_shadow_attempts s →
    Some (xr_snapshot_id a) = published_snapshot_id (sv_runtime s);
  ss_artifacts : ∀ a, a ∈ sv_shadow_artifacts s →
    xa_attempt_id a ∈ xr_attempt_id <$> sv_shadow_attempts s;
}.

Definition sv_ok s : Prop := sv_base s ∧ sv_shown s.

(** ** States that differ in other parts *)

Record base_same s s' : Prop := {
  bs_runtime : sv_runtime s' = sv_runtime s;
  bs_records : sv_live_records s' = sv_live_records s;
  bs_source : sv_live_state_source s' = sv_live_state_source s;
  bs_log : sv_committed_log s' = sv_committed_log s;
  bs_queue : sv_input_tasks s' = sv_input_tasks s;
  bs_backend : sv_live_backend s' = sv_live_backend s;
}.

Lemma base_of_same s s' : base_same s s' → sv_base s → sv_base s'.
Proof.
  intros [E1 E2 E3 E4 E5 E6] [B1 B2 B3 B4 B5].
  split; rewrite ?E1, ?E2, ?E3, ?E4, ?E5, ?E6; done.
Qed.

Record shown_same s s' : Prop := {
  hs_published : published_snapshot_id (sv_runtime s') = published_snapshot_id (sv_runtime s);
  hs_evidence : sv_rollout_evidence s' = sv_rollout_evidence s;
  hs_live : sv_live_records s' = sv_live_records s;
  hs_attempts : sv_shadow_attempts s' = sv_shadow_attempts s;
  hs_artifacts : sv_shadow_artifacts s' = sv_shadow_artifacts s;
}.

Lemma shown_of_same s s' : shown_same s s' → sv_shown s → sv_shown s'.
Proof.
  intros [E1 E2 E3 E4 E5] [S1 S2 S3 S4]. split; rewrite ?E1, ?E2, ?E3, ?E4, ?E5; done.
Qed.

(** ** Publication *)

(** The fields [retain_current_neg_risk_live_execution_records] leaves. *)
Lemma retain_live_fields s :
  let s' := retain_current_live_records s in
  sv_live_records s' =
    match published_snapshot_id (sv_runtime s) with
    | None => []
    | Some id => filter (λ r, lr_snapshot_id r = id ∧
        lr_snapshot_id r = default id (re_snapshot_id <$> sv_rollout_evidence s)) (sv_live_records s)
    end ∧
  sv_live_state_source s' =
    (if bool_decide (length (sv_live_records s') = 0%nat) then LiveSourceNone
     else sv_live_state_source s) ∧
  sv_runtime s' = sv_runtime s ∧ sv_rollout_evidence s' = sv_rollout_evidence s ∧
  sv_committed_log s' = sv_committed_log s ∧ sv_input_tasks s' = sv_input_tasks s ∧
  sv_live_backend s' = sv_live_backend s ∧ sv_shadow_attempts s' = sv_shadow_attempts s.
Proof.
  unfold retain_current_live_records.
  destruct (published_snapshot_id (sv_runtime s)); [|done].
  set (s1 := s <| sv_live_records ::= _ |>).
  destruct (bool_decide (length (sv_live_records s1) = 0%nat)) eqn:E; [|by rewrite E].
  change (sv_live_records (s1 <| sv_live_state_source := LiveSourceNone |>)) with (sv_live_records s1).
  by rewrite E.
Qed.

Lemma retain_shadow_fields s :
  let s' := retain_current_shadow_records s in
  sv_shadow_attempts s' =
    match published_snapshot_id (sv_runtime s) with
    | None => []
    | Some id => filter (λ a, xr_snapshot_id a = id) (sv_shadow_attempts s)
    end ∧
  sv_shadow_artifacts s' =
    match published_snapshot_id (sv_runtime s) with
    | None => []
    | Some id => filter (λ a, xa_attempt_id a ∈ xr_attempt_id <$> sv_shadow_attempts s')
                   (sv_shadow_artifacts s)
    end ∧
  sv_rollout_evidence s' = sv_rollout_evidence s ∧ base_same s s'.
Proof.
  unfold retain_current_shadow_records. by destruct (published_snapshot_id (sv_runtime s)).
Qed.

(** Retaining establishes what is shown, once the evidence is that of the publication. *)
Lemma retain_ok s :
  sv_base s → re_snapshot_id <$> sv_rollout_evidence s = published_snapshot_id (sv_runtime s) →
  sv_ok (retain_current_shadow_records (retain_current_live_records s)).
Proof.
  intros [B1 B2 B3 B4 B5] He.
  destruct (retain_live_fields s) as (E1 & E2 & E3 & E4 & E5 & E6 & E7 & _).
  set (s1 := retain_current_live_records s) in *.
  assert (sv_base s1) as Hb.
  { split; rewrite ?E3, ?E5, ?E6, ?E7; try done. rewrite E2. case_bool_decide as Hl.
    - split; [done|]. intros _. by apply length_zero_iff_nil.
    - split; [by intros Hn; rewrite Hn in Hl|]. intros Hs%B2. exfalso. apply Hl.
      rewrite E1, Hs. by destruct (published_snapshot_id (sv_runtime s)). }
  destruct (retain_shadow_fields s1) as (F1 & F2 & F3 & F4).
  set (s2 := retain_current_shadow_records s1) in *.
  split; [by apply (base_of_same s1)|]. destruct F4 as [F4 F5 _ _ _ _].
  rewrite E3 in F1, F2. split.
  - by rewrite F3, F4, E4, E3.
  - rewrite F4, F5, E3, E1. intros r. destruct (published_snapshot_id (sv_runtime s));
      [by intros [[-> _] _]%list_elem_of_filter|by intros ?%not_elem_of_nil].
  - rewrite F4, E3, F1. intros a. destruct (published_snapshot_id (sv_runtime s));
      [by intros [-> _]%list_elem_of_filter|by intros ?%not_elem_of_nil].
  - rewrite F2. intros a. destruct (published_snapshot_id (sv_runtime s));
      [by intros [? _]%list_elem_of_filter|by intros ?%not_elem_of_nil].
Qed.

Lemma evidence_for_snapshot s p x :
  re_snapshot_id (rollout_evidence_for_snapshot s p x).1 = ps_snapshot_id p.
Proof.
  unfold rollout_evidence_for_snapshot, rollout_evidence_from_snapshot.
  destruct (ps_negrisk p); [done|]. destruct x; [done|]. cbn [mbind option_bind].
  destruct (sd_rollout_evidence (sv_seed s)) as [e|]; cbn; [|done]. by case_bool_decide.
Qed.

Lemma publish_snapshot_cases r id r' p :
  publish_snapshot r id = Returns (r', p) →
  ar_store r' = ar_store r ∧
  match p with
  | Some p => ar_published_snapshot r' = Some p ∧ is_Some (last_applied_journal_seq (ar_store r))
  | None => r' = r ∧ last_applied_journal_seq (ar_store r) = None
  end.
Proof.
  unfold publish_snapshot. destruct (last_applied_journal_seq (ar_store r)) eqn:E;
    [|by intros [= <- <-]].
  destruct (snapshot_from_store _ _) as [p'|]; cbn; [|done]. intros [= <- <-]. by split_and!.
Qed.

(** A publication makes everything about what it published. *)
Lemma publish_ok s x s' : sv_base s → publish_current_snapshot s x = Returns s' → sv_ok s'.
Proof.
  intros Hb. unfold publish_current_snapshot.
  destruct (publish_snapshot _ _) as [[r p]|] eqn:E; cbn [mbind outcome_bind]; [|done].
  apply publish_snapshot_cases in E as [Es Ep]. destruct Hb as [B1 B2 B3 B4 B5].
  assert (sv_base (s <| sv_runtime := r |>)) as Hb1.
  { split; [|done..]. change (sv_runtime (s <| sv_runtime := r |>)) with r. rewrite Es.
    destruct p; [by intros _; apply Ep|]. by destruct Ep as [-> _]. }
  intros [= <-]. destruct p as [p|].
  - pose proof (evidence_for_snapshot (s <| sv_runtime := r |>) p x) as He.
    destruct (rollout_evidence_for_snapshot _ p x) as [e src]. cbn [fst] in He.
    match goal with |- sv_ok (retain_current_shadow_records (retain_current_live_records ?u)
                              <| sv_dispatcher ::= _ |>) =>
      assert (sv_ok (retain_current_shadow_records (retain_current_live_records u))) as Hu end.
    { apply retain_ok; [eapply base_of_same; [|exact Hb1]; by split|].
      change (Some (re_snapshot_id e) = ps_snapshot_id <$> ar_published_snapshot r).
      destruct Ep as [-> _]. by rewrite He. }
    revert Hu. generalize (retain_current_shadow_records (retain_current_live_records
      (s <| sv_runtime := r |> <| sv_rollout_evidence := Some e |>
         <| sv_rollout_evidence_source := src |>))). intros u [Hu1 Hu2].
    split; [eapply base_of_same; [|exact Hu1]|eapply shown_of_same; [|exact Hu2]]; by split.
  - apply retain_ok; [eapply base_of_same; [|exact Hb1]; by split|].
    change (None = ps_snapshot_id <$> ar_published_snapshot r). destruct Ep as [-> Ea].
    destruct (ar_published_snapshot (sv_runtime s)); [|done].
    destruct B1 as [q Hq]; [by eexists|]. congruence.
Qed.

(** ** Steps *)

(** What an applied input does to the publication. *)
Lemma apply_input_published r i r' res :
  apply_input r i = Returns (r', res) →
  (is_Some (last_applied_journal_seq (ar_store r)) →
   is_Some (last_applied_journal_seq (ar_store r'))) ∧
  match res with
  | Ok (Applied _ _ _) => ar_published_snapshot r' = None
  | _ => ar_published_snapshot r' = ar_published_snapshot r
  end.
Proof.
  unfold apply_input. destruct (apply _ _ _) as [[t res']|] eqn:E; cbn [mbind outcome_bind]; [|done].
  intros [= <- <-]. destruct res' as [a|e].
  - apply apply_progress in E as (P1 & _). by destruct a.
  - apply apply_view in E. subst t. done.
Qed.

Lemma base_of_runtime s r :
  (is_Some (ar_published_snapshot r) → is_Some (last_applied_journal_seq (ar_store r))) →
  sv_base s → sv_base (s <| sv_runtime := r |>).
Proof. intros Hr [B1 B2 B3 B4 B5]. by split. Qed.

Lemma base_apply s i r res :
  apply_input (sv_runtime s) i = Returns (r, res) → sv_base s → sv_base (s <| sv_runtime := r |>).
Proof.
  intros [P1 P2]%apply_input_published Hb. apply base_of_runtime; [|done].
  destruct Hb as [B1 _ _ _ _]. intros Hp. apply P1, B1.
  destruct res as [[]|e]; rewrite P2 in Hp; done.
Qed.

(** Unless the input was applied, what was shown still is. *)
Lemma shown_apply s i r res :
  apply_input (sv_runtime s) i = Returns (r, res) → sv_shown s →
  match res with Ok (Applied _ _ _) => True | _ => sv_shown (s <| sv_runtime := r |>) end.
Proof.
  intros [_ P2]%apply_input_published Hs.
  assert (ar_published_snapshot r = ar_published_snapshot (sv_runtime s) →
    sv_shown (s <| sv_runtime := r |>)) as Hsame.
  { intros E. apply (shown_of_same s); [|done]. split; try done.
    change (ps_snapshot_id <$> ar_published_snapshot r = published_snapshot_id (sv_runtime s)).
    by rewrite E. }
  destruct res as [[]|e]; auto.
Qed.

Lemma base_record s i : sv_base s → sv_base (record_committed_input s i).
Proof.
  intros [B1 B2 B3 B4 B5].
  assert (log_wf (sv_committed_log (record_committed_input s i))) as Hl
    by (rewrite record_commit; by apply commit_wf).
  unfold record_committed_input in *. by case_bool_decide.
Qed.

Lemma shown_record s i : sv_shown s → sv_shown (record_committed_input s i).
Proof. apply shown_of_same. unfold record_committed_input. by case_bool_decide. Qed.

Lemma ingress_remove_sorted (q : list InputTaskEvent) x :
  StronglySorted (cmp_le by_seq) q → StronglySorted (cmp_le by_seq) (ingress_remove q x).1.
Proof.
  intros Hs. enough (StronglySorted (cmp_le by_seq) (ingress_remove q x).1 ∧
    ∀ y, y ∈ (ingress_remove q x).1 → y ∈ q) as [? _] by done.
  induction Hs as [|y q Hs [IH1 IH2] Hy]; simpl; [by split; [constructor|]|].
  case_decide; [split; [done|]; intros z ?; apply elem_of_cons; by right|].
  destruct (ingress_remove q x) as [q' o]. simpl in *. split.
  - constructor; [done|]. rewrite Forall_forall in *. eauto.
  - intros z [->|Hz]%elem_of_cons; apply elem_of_cons; [by left|right; eauto].
Qed.

Lemma base_remove s i :
  sv_base s → sv_base (s <| sv_input_tasks ::= λ q, (ingress_remove q i).1 |>).
Proof. intros [B1 B2 B3 B4 B5]. split; try done. by apply ingress_remove_sorted. Qed.

(** What holds at the end of a method, however it returns. *)
Definition ends (Q : AppSupervisor → Prop) {A} (m : Method A) : Prop :=
  match m with Returns (s, _) => Q s | Panics => True end.

Lemma ends_then {A B} Q (m : Method A) (f : AppSupervisor → A → Method B) :
  ends Q m → (∀ s a, Q s → ends Q (f s a)) → ends Q (method_then m f).
Proof. intros Hm Hf. destruct m as [[s [a|e]]|]; [by apply Hf|done..]. Qed.

Lemma ends_publish {A} s x (f : AppSupervisor → Method A) :
  sv_base s → (∀ s, sv_ok s → ends sv_ok (f s)) →
  ends sv_ok (s ← publish_current_snapshot s x; f s).
Proof.
  intros Hb Hf. destruct (publish_current_snapshot s x) as [s'|] eqn:E; [|done].
  apply Hf. by eapply publish_ok.
Qed.

Lemma drain_one_ok s i : sv_ok s → ends sv_ok (drain_one s i).
Proof.
  intros [Hb Hs]. unfold drain_one.
  destruct (apply_input (sv_runtime s) i) as [[r res]|] eqn:E; [|done]. cbn [mbind outcome_bind].
  pose proof (base_apply _ _ _ _ E Hb) as Hb1. pose proof (shown_apply _ _ _ _ E Hs) as Hs1.
  destruct res as [a|e]; [|by split].
  assert (∀ s1, sv_base s1 → sv_shown s1 →
    sv_ok (record_committed_input s1 i <| sv_input_tasks ::= λ q, (ingress_remove q i).1 |>)) as Hrec.
  { intros s1 H1 H2. split; [by apply base_remove, base_record|].
    eapply shown_of_same; [|by apply shown_record]. by split. }
  destruct a as [q v d| | |]; [|by apply Hrec..].
  apply ends_publish; [|done]. apply base_remove, base_record.
  eapply base_of_same; [|exact Hb1]. by split.
Qed.

Lemma ok_frame s s' : base_same s s' → shown_same s s' → sv_ok s → sv_ok s'.
Proof. intros F1 F2 [Hb Hs]. split; [by eapply base_of_same|by eapply shown_of_same]. Qed.

Lemma materialize_ok env s a s' :
  materialize_candidate_artifacts_with_authority env s a = Returns s' → sv_ok s → sv_ok s'.
Proof.
  destruct (materialize_total env s a) as (s1 & -> & _ & w & c & ->). intros [= <-].
  apply ok_frame; by split.
Qed.

Lemma drain_each_ok env per_input inputs n seen s :
  sv_ok s → ends sv_ok (drain_each env per_input inputs n seen s).
Proof.
  revert n seen s. induction inputs as [|i inputs IH]; intros n seen s Hs; [done|].
  cbn [drain_each]. unfold drain_turn. pose proof (drain_one_ok s i Hs) as Hd.
  destruct (drain_one s i) as [[s1 [d|e]]|]; [|done..]. destruct (per_input && d).
  - destruct (materialize_candidate_artifacts_with_authority env s1 false) as [s2|] eqn:E; [|done].
    cbn [mbind outcome_bind]. apply IH. by eapply materialize_ok.
  - by apply IH.
Qed.

Lemma drain_ok env per_input s :
  sv_ok s → ends sv_ok (default Panics (run_drain env per_input s)).
Proof. intros Hs. rewrite run_drain_each. by apply drain_each_ok. Qed.

(** ** Refreshing the records *)

(** A live submission opens a pending reconcile, unless it is a duplicate or refused: it
    is never applied, so it withdraws no snapshot. *)
Lemma live_submit_not_applied r q session event_id attempt scope submission_ref now r' a :
  apply_input r (input_new q
    (negrisk_live_submit_observed session event_id attempt scope submission_ref now)) =
    Returns (r', Ok a) →
  is_applied a = false.
Proof.
  intros (t & Ea & _)%apply_input_store. revert Ea.
  set (f := into_state_fact_input _).
  assert (∃ anchor, fi_hint f = PendingReconcile anchor) as [anchor Hf] by (by eexists).
  destruct (apply_cases (ar_store r) (it_journal_seq (input_new q
    (negrisk_live_submit_observed session event_id attempt scope submission_ref now))) f)
    as [(e & -> & _)|(s1 & _ & ->)]; [done|]. intros [= _ <-].
  unfold apply_consumed. rewrite Hf. by destruct (duplicate_journal_seq s1 (fact_key f)).
Qed.

Lemma live_submit_facts_ok env records next n s :
  sv_ok s →
  match apply_live_submit_facts env records next n s with
  | Returns (s', _) => sv_ok s' ∧
      published_snapshot_id (sv_runtime s') = published_snapshot_id (sv_runtime s)
  | Panics => True
  end.
Proof.
  revert next n s. induction records as [|r records IH]; intros next n s Hok; [done|].
  cbn [apply_live_submit_facts].
  destruct (match lr_submission_ref r with Some _ => _ | None => _ end) as [ref|]; [|by apply IH].
  destruct (apply_input (sv_runtime s) _) as [[rt res]|] eqn:E; [|done]. cbn [mbind outcome_bind].
  destruct Hok as [Hb Hs].
  pose proof (base_apply _ _ _ _ E Hb) as Hb1. pose proof (shown_apply _ _ _ _ E Hs) as Hs1.
  destruct (apply_input_published _ _ _ _ E) as [_ Hp].
  destruct res as [a|e].
  2:{ split; [by split|]. change (ps_snapshot_id <$> ar_published_snapshot rt =
        published_snapshot_id (sv_runtime s)). by rewrite Hp. }
  pose proof (live_submit_not_applied _ _ _ _ _ _ _ _ _ _ E) as Ha.
  assert (sv_ok (record_committed_input (s <| sv_runtime := rt |>)
            (input_new (i64_add next 1) (negrisk_live_submit_observed "app-live-bootstrap"
               ("live-submit-" +:+ lr_attempt_id r) (lr_attempt_id r) (lr_scope r) ref (env_now env n))))
          ∧ published_snapshot_id rt = published_snapshot_id (sv_runtime s)) as [Hok1 Hpub].
  { destruct a; [done|..]; (split; [split; [by apply base_record|by apply shown_record]|]);
      unfold published_snapshot_id; by rewrite Hp. }
  assert (∀ (u : AppSupervisor (World := World)) i,
    sv_runtime (record_committed_input u i) = sv_runtime u) as Hrt by (intros u i; apply record_frame).
  destruct a; [done|..]; cbn [mbind outcome_bind];
    (case_bool_decide; [split; [exact Hok1|by rewrite Hrt]|]);
    pose proof (IH (i64_add next 1) (S n) _ Hok1) as Hrec;
    (destruct (apply_live_submit_facts _ _ _ _ _) as [[s' ?]|]; [|done]);
    rewrite Hrt in Hrec; (destruct Hrec as [? ->]; split; [done|exact Hpub]).
Qed.

Lemma refresh_shadow_ok env id s :
  sv_ok s → published_snapshot_id (sv_runtime s) = Some id →
  ends sv_ok (refresh_shadow_records env id s).
Proof.
  intros [[B1 B2 B3 B4 B5] [S1 S2 S3 S4]] Hid. unfold refresh_shadow_records.
  destruct (eligible_shadow_records_with_run_session_id _ _ _ _ _) as [[records|e]|] eqn:E;
    cbn [mbind outcome_bind]; [|by split|done].
  pose proof (shadow_records_of _ _ _ _ _ _ E) as Hr.
  destruct (if sv_durable_shadow_persistence_enabled s then _ else _) as [w [[]|e]]; [|by split].
  split; split; try done.
  - by intros r ?%not_elem_of_nil.
  - intros a (r & -> & Hin)%list_elem_of_fmap. destruct (Hr r Hin) as [-> _]. by rewrite <- Hid.
  - intros a (r & Ha & Hin)%list_elem_of_bind. destruct (Hr r Hin) as [_ Hart].
    rewrite (Hart a Ha). apply list_elem_of_fmap. exists (sr_attempt r). split; [done|].
    apply list_elem_of_fmap. by exists r.
Qed.

Lemma refresh_live_ok env id s :
  sv_ok s → published_snapshot_id (sv_runtime s) = Some id →
  ends sv_ok (refresh_live_records env id s).
Proof.
  intros Hok Hid. unfold refresh_live_records.
  assert (∀ m : outcome (World * result NegRiskLiveError (list NegRiskLiveExecutionRecord)),
    (m = match sv_live_backend s with
         | Some backend => eligible_live_records_with_backend id (sv_live_targets s)
             (sv_live_approved_families s) (sv_live_ready_families s) backend (sv_world s)
         | None => eligible_live_records id (sv_live_targets s) (sv_live_approved_families s)
             (sv_live_ready_families s) (sv_world s)
         end) →
    match m with Returns (_, Ok rs) => ∀ r, r ∈ rs → lr_snapshot_id r = id | _ => True end) as Hm.
  { intros m ->. destruct (sv_live_backend s) as [b|] eqn:Eb.
    - destruct (eligible_live_records_with_backend _ _ _ _ _ _) as [[w [rs|]]|] eqn:E; try done.
      eapply live_records_snapshot; [|exact E]. intros *. apply (sb_backend _ (proj1 Hok) b Eb).
    - unfold eligible_live_records.
      destruct (eligible_live_records_with_backend _ _ _ _ _ _) as [[w [rs|]]|] eqn:E; try done.
      eapply live_records_snapshot; [|exact E]. intros *. apply hook_backed_snapshot. }
  specialize (Hm _ eq_refl). revert Hm.
  destruct (match sv_live_backend s with Some _ => _ | None => _ end) as [[w [rs|e]]|];
    cbn [mbind outcome_bind]; [|by intros _; eapply ok_frame; [..|exact Hok]; split|done].
  intros Hrs. set (s1 := s <| sv_world := w |>).
  assert (sv_ok s1) as Hok1 by (eapply ok_frame; [..|exact Hok]; by split).
  pose proof (live_submit_facts_ok env rs (default 0 (last_journal_seq (sv_runtime s1))) 0 s1 Hok1) as Hf.
  destruct (apply_live_submit_facts _ _ _ _ _) as [[s2 [n|e]]|]; cbn [method_then];
    [|apply Hf|done]. destruct Hf as [[B S] Hp].
  destruct (if sv_durable_live_persistence_enabled s2 then _ else _) as [w2 [[]|e]];
    [|by eapply ok_frame; [..|exact (conj B S)]; split].
  destruct B as [B1 B2 B3 B4 B5], S as [S1 S2 S3 S4]. split; split; try done.
  - change (take n rs = [] ↔ (if bool_decide (length (take n rs) = 0%nat) then LiveSourceNone
                              else SyntheticBootstrap) = LiveSourceNone).
    destruct (take n rs); [done|]. rewrite bool_decide_eq_false_2 by (simpl; lia). done.
  - intros r Hr. change (Some (lr_snapshot_id r) = published_snapshot_id (sv_runtime s2)).
    rewrite Hp. change (sv_runtime s1) with (sv_runtime s). rewrite Hid, (Hrs r); [done|].
    change (r ∈ take n rs) in Hr. rewrite <- (take_drop n rs).
    apply elem_of_app. by left.
Qed.

Lemma refresh_ok env allow s :
  sv_ok s → ends sv_ok (refresh_neg_risk_live_execution_records env allow s).
Proof.
  intros Hok. unfold refresh_neg_risk_live_execution_records.
  destruct (_ || _); [done|]. destruct (if sv_real_user_shadow_smoke_enabled s then _ else _); [done|].
  destruct (published_snapshot_id (sv_runtime s)) as [id|] eqn:Hid; [|done].
  destruct (sv_rollout_evidence s); [|done]. case_bool_decide; [done|].
  destruct (sv_real_user_shadow_smoke_enabled s); [by apply refresh_shadow_ok|by apply refresh_live_ok].
Qed.

(** ** Starting, restoring, resuming *)

Lemma bootstrap_applied r snap :
  ar_published_snapshot (bootstrap_once r snap).1 = ar_published_snapshot r ∧
  (is_Some (last_applied_journal_seq (ar_store r)) →
   is_Some (last_applied_journal_seq (ar_store (bootstrap_once r snap).1))).
Proof.
  unfold bootstrap_once. pose proof (reconcile_store_history (ar_store r) snap) as (_ & _ & Ha).
  destruct (reconcile_store (ar_store r) snap) as [t report]. cbn [fst] in *.
  unfold anchor_baseline_if_ready. destruct (rr_succeeded report); simpl; [|by rewrite Ha].
  case_bool_decide as E; simpl; [|by rewrite Ha]. split; [done|]. by rewrite <- Ha, E.
Qed.

Lemma bootstrap_ok s : sv_ok s → sv_ok (bootstrap_runtime s).
Proof.
  intros [Hb Hs]. unfold bootstrap_runtime.
  destruct (bootstrap_applied (sv_runtime s) (sv_bootstrap_snapshot s)) as [Ep Ea].
  split; [apply (base_of_runtime s); [|done]|apply (shown_of_same s); [|done]].
  - rewrite Ep. intros Hp. apply Ea. by apply (sb_published _ Hb).
  - split; try done. unfold published_snapshot_id. cbn [sv_runtime].
    change (ps_snapshot_id <$> ar_published_snapshot
      (bootstrap_once (sv_runtime s) (sv_bootstrap_snapshot s)).1 =
      ps_snapshot_id <$> ar_published_snapshot (sv_runtime s)). by rewrite Ep.
Qed.

Lemma fresh_ok s c : sv_base s → sv_ok (fresh_runtime s c).
Proof.
  intros [B1 B2 B3 B4 B5]. split; split; try done.
  - by intros [p Hp].
  - by intros ? ?%not_elem_of_nil.
  - by intros ? ?%not_elem_of_nil.
  - by intros ? ?%not_elem_of_nil.
Qed.

(** The durable records of the seed are adopted as far as they are about what is
    published. *)
Lemma adopt_ok s : sv_ok s → sv_ok (adopt_durable_records s).
Proof.
  intros [[B1 B2 B3 B4 B5] Hs]. unfold adopt_durable_records.
  apply retain_ok; [|apply (ss_evidence _ Hs)]. split; try done.
  change (sd_live_records (sv_seed s) = [] ↔
    (if bool_decide (length (sd_live_records (sv_seed s)) = 0%nat) then LiveSourceNone
     else DurableRestore) = LiveSourceNone).
  destruct (sd_live_records (sv_seed s)); [done|]. rewrite bool_decide_eq_false_2 by (simpl; lia).
  done.
Qed.

Lemma ends_check s (r : result SupervisorError ()) : sv_ok s → ends sv_ok (check s r).
Proof. done. Qed.

Lemma publish_restored_ok s : sv_base s → ends sv_ok (publish_restored s).
Proof. intros Hb. apply ends_publish; [done|]. intros s1 H1. by apply adopt_ok. Qed.

Lemma unpublished_ok s f :
  sv_ok s → ar_published_snapshot (sv_runtime s) = None →
  (∀ r, ar_published_snapshot r = None → ar_published_snapshot (f r) = None) →
  sv_ok (s <| sv_runtime ::= f |>).
Proof.
  intros [Hb Hs] Hn Hf.
  assert (ar_published_snapshot (f (sv_runtime s)) = None) as Hn' by auto. split.
  - apply (base_of_runtime s (f (sv_runtime s))); [|done]. rewrite Hn'. by intros [? ?].
  - apply (shown_of_same s); [|done]. split; try done. unfold published_snapshot_id.
    change (ps_snapshot_id <$> ar_published_snapshot (f (sv_runtime s)) =
            ps_snapshot_id <$> ar_published_snapshot (sv_runtime s)). by rewrite Hn', Hn.
Qed.

Lemma restored_unpublished r v q anchors :
  ar_published_snapshot r = None →
  ar_published_snapshot (foldl runtime_restore_pending_reconcile_anchor
    (runtime_restore_committed_anchor r v q) anchors) = None.
Proof.
  intros Hr. assert (ar_published_snapshot (runtime_restore_committed_anchor r v q) = None) as Hr'
    by done. revert Hr'. generalize (runtime_restore_committed_anchor r v q).
  induction anchors as [|a anchors IH]; intros r1 H1; [done|]. by apply IH.
Qed.

Lemma restore_ok s : sv_base s → ends sv_ok (restore_seeded_startup_state s).
Proof.
  intros Hb. unfold restore_seeded_startup_state.
  pose proof (fresh_ok s (sd_candidate_restore_status (sv_seed s)) Hb) as Hf.
  destruct (sd_last_journal_seq (sv_seed s)) as [q|]; [|done].
  set (f := λ r, foldl runtime_restore_pending_reconcile_anchor
    (runtime_restore_committed_anchor r (seeded_state_version (sv_seed s)) q)
    (sd_pending_reconcile_anchors (sv_seed s))).
  assert (sv_ok (fresh_runtime s (sd_candidate_restore_status (sv_seed s)) <| sv_runtime ::= f |>))
    as H1 by (apply unpublished_ok; [done|done|intros r; apply restored_unpublished]).
  revert H1. generalize (fresh_runtime s (sd_candidate_restore_status (sv_seed s)) <| sv_runtime ::= f |>).
  intros s1 H1. destruct (sd_pending_reconcile_count (sv_seed s));
    [destruct (bool_decide _); [|done]|]; by apply publish_restored_ok, H1.
Qed.

Lemma replay_unpublished r history r' res :
  replay_committed_history r history = Returns (r', res) → ar_published_snapshot r' = None.
Proof.
  unfold replay_committed_history. cbn [ar_store set AppRuntime_eta].
  destruct (replay_inputs _ false history) as [[t [b|e]]|]; cbn; [| |done]; by intros [= <- _].
Qed.

Lemma pending_check_ok s :
  sv_ok s → ar_published_snapshot (sv_runtime s) = None → ends sv_ok (check_pending_reconcile s).
Proof.
  intros Hok Hn. unfold check_pending_reconcile.
  destruct (sd_pending_reconcile_count (sv_seed s)) as [[|k]|]; [|by case_bool_decide..].
  by apply (unpublished_ok s runtime_clear_pending_reconcile_after_restore).
Qed.

Lemma resume_state_ok s : sv_base s → ends sv_ok (resume_state s).
Proof.
  intros Hb. unfold resume_state.
  pose proof (fresh_ok s candidate_restore_status_default Hb) as Hf.
  assert (ar_published_snapshot (sv_runtime (fresh_runtime s candidate_restore_status_default)) = None)
    as Hn by done. revert Hf Hn.
  generalize (fresh_runtime s candidate_restore_status_default). intros s0 Hf Hn.
  destruct (resume_last_journal_seq s0) as [q|e]; [|done].
  destruct (replay_committed_history _ _) as [[r res]|] eqn:E; cbn [mbind outcome_bind]; [|done].
  apply replay_unpublished in E.
  assert (sv_ok (s0 <| sv_runtime := r |>)) as H1 by (by apply (unpublished_ok s0 (λ _, r))).
  destruct res as [[]|e]; [|done].
  apply ends_then; [apply pending_check_ok; [|done]; eapply ok_frame; [..|exact H1]; by split|].
  intros s1 _ Hok1. apply ends_then; [done|]. intros s2 _ Hok2.
  destruct (_ || _).
  - apply ends_publish; [apply Hok2|]. intros s3 Hok3. apply ends_then; [by apply adopt_ok|done].
  - cbn [mbind outcome_bind]. apply ends_then; [by apply adopt_ok|done].
Qed.

Lemma drain_tasks_ok env s : sv_ok s → ends sv_ok (drain_input_tasks env s).
Proof. intros Hok. apply ends_then; [by apply drain_ok|done]. Qed.

Lemma drain_discovery_ok env s :
  sv_ok s → ends sv_ok (drain_input_tasks_authoritative_discovery env s).
Proof.
  intros Hok. apply ends_then; [by apply drain_ok|]. intros s1 x Hok1. destruct x.2; [|done].
  destruct (materialize_candidate_artifacts_with_authority env s1 true) as [s2|] eqn:E; [|done].
  cbn [mbind outcome_bind]. by eapply materialize_ok.
Qed.

Lemma flush_ok s : sv_ok s → sv_ok (flush_dispatch s).1.
Proof.
  unfold flush_dispatch. destruct (flush (sv_dispatcher s)) as [d m]. apply ok_frame; by split.
Qed.

Lemma finish_ok s : sv_ok s → ends sv_ok (finish_run s).
Proof. intros Hok. apply ends_then; [done|]. intros s1 _ H1. by apply flush_ok. Qed.

(** From the publication on, all runs are alike. *)
Lemma started_ok {A} env s allow (f : AppSupervisor → Method A) :
  sv_ok s → (∀ s, sv_ok s → ends sv_ok (f s)) →
  ends sv_ok (s ← publish_current_snapshot s allow;
              method_then (refresh_neg_risk_live_execution_records env allow s) (λ s _, f s)).
Proof.
  intros Hok Hf. apply ends_publish; [apply Hok|]. intros s1 H1.
  apply ends_then; [by apply refresh_ok|]. intros s2 _ H2. by apply Hf.
Qed.

Lemma run_once_ok env s : sv_ok s → ends sv_ok (run_once env s).
Proof.
  intros Hok. unfold run_once. apply ends_then.
  { destruct (restoring_seeded_startup s); [apply restore_ok, Hok|].
    destruct (is_ready (sv_runtime s)); [done|by apply bootstrap_ok]. }
  intros s1 _ H1. apply started_ok; [done|]. intros s2 H2.
  apply ends_then; [done|]. intros s3 _ H3.
  apply ends_then; [by apply drain_tasks_ok|]. intros s4 _ H4. by apply finish_ok.
Qed.

Lemma resume_once_ok env s : sv_ok s → ends sv_ok (resume_once env s).
Proof.
  intros Hok. unfold resume_once. apply ends_then; [apply resume_state_ok, Hok|].
  intros s1 _ H1. apply ends_then; [by apply drain_tasks_ok|]. intros s2 _ H2.
  destruct (_ && _); [|by apply finish_ok].
  apply ends_publish; [apply H2|]. intros s3 H3. by apply finish_ok.
Qed.

(** ** Reachable supervisors *)

Lemma push_ok s q i : sv_ok s → sv_ok (seed_unapplied_journal_entry s q i).
Proof.
  intros [[B1 B2 B3 B4 B5] Hs]. split; [split; try done|].
  - apply sort_by_sorted, _.
  - eapply shown_of_same; [|exact Hs]. by split.
Qed.

Definition seed_lawful (op : SeedOp (World := World)) : Prop :=
  match op with SetLiveBackend b => backend_lawful b | _ => True end.

Lemma seed_ok s op : seed_lawful op → sv_ok s → sv_ok (seed_op s op).
Proof.
  intros Hop Hok. destruct op; cbn [seed_op];
    try (eapply ok_frame; [..|exact Hok]; by split); [|by apply push_ok|].
  - destruct Hok as [Hb Hs]. split; [by apply base_record|by apply shown_record].
  - destruct Hok as [[B1 B2 B3 B4 B5] Hs]. split; [split; try done; by intros ? [= <-]|].
    eapply shown_of_same; [|exact Hs]. by split.
Qed.

Lemma discovery_once_ok env targets inputs s :
  sv_ok s → ends sv_ok (run_authoritative_discovery_once env targets inputs s).
Proof.
  intros Hok. unfold run_authoritative_discovery_once.
  assert (sv_ok (seed_neg_risk_live_targets s targets)) as H1
    by (eapply ok_frame; [..|exact Hok]; by split).
  revert H1. generalize (seed_neg_risk_live_targets s targets). clear s Hok. intros s H1.
  assert (sv_ok (foldl (λ s input, seed_unapplied_journal_entry s (it_journal_seq input) input) s inputs))
    as H2 by (revert s H1; induction inputs; intros s H1; [done|]; by apply IHinputs, push_ok).
  revert H2. generalize (foldl (λ s input, seed_unapplied_journal_entry s (it_journal_seq input) input) s inputs).
  clear s H1. intros s H2.
  assert (sv_ok (if is_ready (sv_runtime s) then s else bootstrap_runtime s)) as H3
    by (destruct (is_ready (sv_runtime s)); [done|by apply bootstrap_ok]).
  apply started_ok; [done|]. intros s3 H4.
  apply ends_then; [by apply drain_discovery_ok|]. intros s4 _ H5. by apply finish_ok.
Qed.

Inductive SupervisorOp :=
| SvSeed (op : SeedOp (World := World))
| SvRunOnce
| SvResumeOnce
| SvDiscoveryOnce (targets : LiveTargets) (inputs : list InputTaskEvent)
| SvFlushDispatch
| SvPushDirtySnapshot (version : Z) (fullset_ready negrisk_ready : bool).

(** The state a method leaves, with its value or its error. *)
Definition state_after {A} s (m : Method A) : AppSupervisor :=
  match m with Returns (s', _) => s' | Panics => s end.

Definition supervisor_op env s (op : SupervisorOp) : AppSupervisor :=
  match op with
  | SvSeed op => seed_op s op
  | SvRunOnce => state_after s (run_once env s)
  | SvResumeOnce => state_after s (resume_once env s)
  | SvDiscoveryOnce targets inputs =>
      state_after s (run_authoritative_discovery_once env targets inputs s)
  | SvFlushDispatch => (flush_dispatch s).1
  | SvPushDirtySnapshot v fullset negrisk => push_dirty_snapshot s v fullset negrisk
  end.

Inductive supervisor_reachable env : AppSupervisor → Prop :=
| supervisor_init mode snap w : supervisor_reachable env (supervisor_new mode snap w)
| supervisor_next s op :
    supervisor_reachable env s → (∀ seed, op = SvSeed seed → seed_lawful seed) →
    supervisor_reachable env (supervisor_op env s op).

Lemma new_ok mode snap w : sv_ok (supervisor_new mode snap w).
Proof.
  split; split; try done; try (by intros ? ?%not_elem_of_nil).
  - by intros [? ?].
  - split; constructor.
  - constructor.
Qed.

Lemma ends_state_after {A} s (m : Method A) : sv_ok s → ends sv_ok m → sv_ok (state_after s m).
Proof. by destruct m as [[? ?]|]. Qed.

Lemma supervisor_reachable_ok env s : supervisor_reachable env s → sv_ok s.
Proof.
  induction 1 as [mode snap w|s op _ IH Hop]; [apply new_ok|]. destruct op; cbn [supervisor_op].
  - by apply seed_ok; [apply Hop|].
  - by apply ends_state_after, run_once_ok.
  - by apply ends_state_after, resume_once_ok.
  - by apply ends_state_after, discovery_once_ok.
  - by apply flush_ok.
  - eapply ok_frame; [..|exact IH]; by split.
Qed.


(** ** What a seeded startup restores *)

(** The anchors a list of seeds leaves: the last of each pending reference. *)
Definition anchors_of (l : list PendingReconcileAnchor) : gmap string PendingReconcileAnchor :=
  foldl (λ m a, <[pa_pending_ref a := a]> m) ∅ l.

Record restored_as (t : StateStore) (version q : Z) (m : gmap string PendingReconcileAnchor) :
    Prop := {
  ra_version : state_version t = version;
  ra_consumed : last_consumed_journal_seq t = Some q;
  ra_applied : last_applied_journal_seq t = Some q;
  ra_pending : pending_reconcile_anchors t = m;
  ra_ready : first_reconcile_succeeded t = true;
  ra_mode : runtime_mode t = if bool_decide (m = ∅) then RuntimeMode.Healthy else Reconciling;
}.

(** Restoring an anchor or a committed position ends in the posture of its anchors. *)
Lemma restored_posture t : first_reconcile_succeeded t = true →
  ∀ version q, state_version t = version → last_consumed_journal_seq t = Some q →
  last_applied_journal_seq t = Some q →
  restored_as (apply_restore_posture t) version q (pending_reconcile_anchors t).
Proof.
  intros Hf version q E1 E2 E3. unfold apply_restore_posture, has_pending_reconcile_anchors.
  rewrite Hf. cbn [negb]. case_bool_decide as E; cbn [negb]; split; try done.
  - by rewrite bool_decide_eq_true_2.
  - by rewrite bool_decide_eq_false_2.
Qed.

Lemma restore_anchors_store r version q anchors :
  restored_as (ar_store (foldl runtime_restore_pending_reconcile_anchor
    (runtime_restore_committed_anchor (runtime_new r) version q) anchors)) version q
    (anchors_of anchors).
Proof.
  induction anchors as [|a anchors IH] using rev_ind.
  - change (restored_as (restore_committed_anchor store_new version q) version q ∅).
    unfold restore_committed_anchor.
    match goal with |- restored_as (apply_restore_posture ?t) _ _ _ =>
      exact (restored_posture t eq_refl version q eq_refl eq_refl eq_refl) end.
  - rewrite foldl_snoc. unfold anchors_of in *. rewrite foldl_snoc.
    set (r1 := foldl runtime_restore_pending_reconcile_anchor _ anchors) in *.
    destruct IH as [I1 I2 I3 I4 I5 I6].
    pose proof (restored_posture
      (record_pending_reconcile (ar_store r1) a <| first_reconcile_succeeded := true |>)
      eq_refl version q I1 I2 I3) as Hp.
    change (pending_reconcile_anchors (record_pending_reconcile (ar_store r1) a
      <| first_reconcile_succeeded := true |>)) with
      (<[pa_pending_ref a := a]> (pending_reconcile_anchors (ar_store r1))) in Hp.
    by rewrite I4 in Hp.
Qed.

(** The rollout evidence a restore shows for its snapshot. *)
Definition restored_evidence (seed : RuntimeSeed) (id : string) : NegRiskRolloutEvidence :=
  match sd_rollout_evidence seed with
  | Some e => if bool_decide (re_snapshot_id e = id) then e else neutral_evidence id
  | None => neutral_evidence id
  end.

(** A snapshot published from a store that has applied something. *)
Lemma publish_restored_fields s q :
  last_applied_journal_seq (ar_store (sv_runtime s)) = Some q →
  ∃ s1, publish_current_snapshot s false = Returns s1 ∧ same_inputs s s1 ∧
    published_snapshot_id (sv_runtime s1) =
      Some (snapshot_id_for (runtime_state_version (sv_runtime s))) ∧
    sv_rollout_evidence s1 =
      Some (restored_evidence (sv_seed s) (snapshot_id_for (runtime_state_version (sv_runtime s)))).
Proof.
  intros Hq. destruct (publish_current_total s false) as (s1 & E & Hs). exists s1.
  split; [done|]. split; [done|]. revert E. clear Hs. unfold publish_current_snapshot, publish_snapshot.
  rewrite Hq. unfold snapshot_from_store. rewrite Hq. cbn [mbind outcome_bind expect].
  set (p := {| ps_snapshot_id := _ |}). set (s0 := s <| sv_runtime := _ |>).
  assert ((rollout_evidence_for_snapshot s0 p false).1 =
    restored_evidence (sv_seed s) (snapshot_id_for (runtime_state_version (sv_runtime s)))) as He.
  { unfold rollout_evidence_for_snapshot, restored_evidence. cbn [ps_negrisk p].
    change (sv_seed s0) with (sv_seed s).
    destruct (sd_rollout_evidence (sv_seed s)) as [e|]; [|done]. cbn [mbind option_bind].
    change (ps_snapshot_id p) with (snapshot_id_for (runtime_state_version (sv_runtime s))).
    by case_bool_decide. }
  destruct (rollout_evidence_for_snapshot s0 p false) as [e src]. cbn [fst] in He. subst e.
  set (s2 := s0 <| sv_rollout_evidence := _ |> <| sv_rollout_evidence_source := _ |>).
  intros [= <-].
  destruct (retain_live_fields s2) as (_ & _ & E3 & E4 & _).
  destruct (retain_shadow_fields (retain_current_live_records s2)) as (_ & _ & F3 & [F4 _ _ _ _ _]).
  split.
  - change (published_snapshot_id (sv_runtime (retain_current_shadow_records
      (retain_current_live_records s2))) = Some (ps_snapshot_id p)). by rewrite F4, E3.
  - change (sv_rollout_evidence (retain_current_shadow_records (retain_current_live_records s2)) =
      Some (restored_evidence (sv_seed s) (ps_snapshot_id p))). by rewrite F3, E4.
Qed.

(** The durable records adopted under a publication whose evidence is its own. *)
Lemma adopt_fields s id :
  published_snapshot_id (sv_runtime s) = Some id →
  (re_snapshot_id <$> sv_rollout_evidence s) = Some id →
  let s' := adopt_durable_records s in
  sv_live_records s' = filter (λ r, lr_snapshot_id r = id) (sd_live_records (sv_seed s)) ∧
  sv_shadow_attempts s' = filter (λ a, xr_snapshot_id a = id) (sd_shadow_attempts (sv_seed s)) ∧
  sv_runtime s' = sv_runtime s ∧ sv_rollout_evidence s' = sv_rollout_evidence s.
Proof.
  intros Hp He. unfold adopt_durable_records.
  set (s0 := s <| sv_live_records := _ |> <| sv_live_state_source := _ |>
               <| sv_shadow_attempts := _ |> <| sv_shadow_artifacts := _ |>).
  destruct (retain_live_fields s0) as (E1 & _ & E3 & E4 & _ & _ & _ & E8).
  change (sv_runtime s0) with (sv_runtime s) in *.
  change (sv_rollout_evidence s0) with (sv_rollout_evidence s) in *. rewrite Hp, He in E1.
  destruct (retain_shadow_fields (retain_current_live_records s0)) as (F1 & _ & F3 & [F4 F5 _ _ _ _]).
  rewrite E3, Hp in F1. cbv zeta. rewrite F5, E1, F1, F3, F4, E3, E4.
  split_and!; [|..|done|done].
  - apply list_filter_iff. intros r. simpl. tauto.
  - by rewrite E8.
Qed.

(** The outcome of a restore past the count check. *)
Definition restored_state s s' (version q : Z) : Prop :=
  let id := snapshot_id_for version in
  restored_as (ar_store (sv_runtime s')) version q
    (anchors_of (sd_pending_reconcile_anchors (sv_seed s))) ∧
  published_snapshot_id (sv_runtime s') = Some id ∧
  sv_rollout_evidence s' = Some (restored_evidence (sv_seed s) id) ∧
  sv_live_records s' = filter (λ r, lr_snapshot_id r = id) (sd_live_records (sv_seed s)) ∧
  sv_shadow_attempts s' = filter (λ a, xr_snapshot_id a = id) (sd_shadow_attempts (sv_seed s)).

Lemma restored_evidence_id seed id : re_snapshot_id (restored_evidence seed id) = id.
Proof.
  unfold restored_evidence. destruct (sd_rollout_evidence seed); [|done]. by case_bool_decide.
Qed.

Lemma publish_restored_spec s version q :
  restored_as (ar_store (sv_runtime s)) version q
    (anchors_of (sd_pending_reconcile_anchors (sv_seed s))) →
  ∃ s', restored_state s s' version q ∧
    (publish_restored s = Returns (s', Ok ()) ∨
     publish_restored s = Returns (s', Err SvShadowNeedsRecords) ∧
     sv_real_user_shadow_smoke_enabled s = true).
Proof.
  intros Hr. destruct (publish_restored_fields s q (ra_applied _ _ _ _ Hr))
    as (s1 & E & [_ _ P3 _ P5 P6] & Hp & He).
  unfold runtime_state_version in Hp, He. rewrite (ra_version _ _ _ _ Hr) in Hp, He.
  set (id := snapshot_id_for version) in *.
  destruct (adopt_fields s1 id Hp) as (A1 & A2 & A3 & A4).
  { rewrite He. cbn. by rewrite restored_evidence_id. }
  rewrite P5 in A1, A2. exists (adopt_durable_records s1). split.
  { split_and!; [by rewrite A3, P3|by rewrite A3|by rewrite A4|done|done]. }
  unfold publish_restored. rewrite E. cbn [mbind outcome_bind]. unfold check.
  destruct (adopt_same_inputs s1) as [_ _ _ _ _ Q6].
  unfold validate_shadow_anchor. rewrite Q6, P6.
  destruct (sv_real_user_shadow_smoke_enabled s); [cbn [negb orb]|by left].
  destruct (_ && _); [by left|]. rewrite A3, Hp.
  destruct (_ || _); [by right|left].
  replace (existsb _ _) with false; [done|]. symmetry. apply not_true_iff_false.
  rewrite existsb_exists. intros (a & Ha & Hid). apply list_elem_of_In in Ha. rewrite A2 in Ha.
  apply list_elem_of_filter in Ha as [Ha _]. by rewrite (bool_decide_eq_true_2 _ Ha) in Hid.
Qed.

End invariants.

(** ** A concrete supervisor *)

(** The live run of [Supervisor.operator_live_run], reached by its operations. *)
Definition reached_supervisor : AppSupervisor (X := Micros) (World := nat) :=
  foldl (supervisor_op (J := plain_json) (H := ElementsOrder) counting_env)
    (supervisor_new LiveMode remote_snapshot_empty 0%nat)
    [SvSeed (SeedLiveTargets sample_targets); SvSeed (SeedLiveReadyFamily "family-a");
     SvSeed (SeedLiveApproval "family-a"); SvRunOnce].

