(* ===== verification/WsMessages.v ===== *)
(** * Websocket messages

    [venue-polymarket/src/ws_market.rs] and [ws_user.rs]: what the venue sends on its
    two channels, as the events the engine reads. [serde_json]'s reader and the
    conversions of [chrono] are parameters; which members a struct takes from a value
    is written out, as the derived code does it: by name or alias, twice is an error,
    [null] is an absent option, and an array gives the members by position. *)

From Stdlib Require Import Ascii.
From S2P Require Import Prelude Text Externals.

(** ** Strings *)

Definition ascii_upper (c : ascii) : ascii :=
  let n := nat_of_ascii c in
  if bool_decide (97 <= n <= 122)%nat then ascii_of_nat (n - 32) else c.
Definition ascii_lower (c : ascii) : ascii :=
  let n := nat_of_ascii c in
  if bool_decide (65 <= n <= 90)%nat then ascii_of_nat (n + 32) else c.

Fixpoint str_map (f : ascii → ascii) (s : string) : string :=
  match s with EmptyString => EmptyString | String c s' => String (f c) (str_map f s') end.

Definition to_ascii_uppercase : string → string := str_map ascii_upper.
Definition to_ascii_lowercase : string → string := str_map ascii_lower.
Definition eq_ignore_ascii_case (a b : string) : bool :=
  bool_decide (to_ascii_lowercase a = to_ascii_lowercase b).

(** The accumulating loop of [i64::from_str], which stops on overflow. *)
Fixpoint parse_i64_digits (sign acc : Z) (s : string) : option Z :=
  match s with
  | EmptyString => Some acc
  | String c s' =>
      d ← digit_value c;
      let acc' := acc * 10 + sign * d in
      if bool_decide (- 2 ^ 63 <= acc' < 2 ^ 63) then parse_i64_digits sign acc' s' else None
  end.

(** [s.parse::<i64>()]: an optional sign, then at least one digit. *)
Definition parse_i64 (s : string) : option Z :=
  match s with
  | EmptyString => None
  | String "+" EmptyString => None
  | String "-" EmptyString => None
  | String "+" s' => parse_i64_digits 1 0 s'
  | String "-" s' => parse_i64_digits (-1) 0 s'
  | _ => parse_i64_digits 1 0 s
  end.

(** ** Values

    What [serde_json] reads. A number is kept as the text [Number] displays; the
    members of an object are kept as they came, duplicates included. *)
Inductive Value :=
| VNull
| VBool (b : bool)
| VNumber (text : string)
| VString (s : string)
| VArray (l : list Value)
| VObject (fields : list (string * Value)).

(** [value_from_str] is [serde_json::from_str], [None] on a syntax error;
    [value_text] is [Value::to_string]; the other operations are [chrono]'s. *)
Class WireOps {X : Externals} := {
  value_from_str : string → option Value;
  value_text : Value → string;
  parse_from_rfc3339 : string → option DateTime;
  timestamp_opt : Z → option DateTime;
  timestamp_millis_opt : Z → option DateTime;
}.

(** ** Derived readers

    A struct is the list of the names of its members, the first name being the
    member's own. [None] is an error of the reader. *)

Definition struct_of_value (members : list (list string)) (v : Value) :
    option (list (string * Value)) :=
  match v with
  | VObject fields => Some fields
  | VArray l =>
      if bool_decide (length l <= length members)%nat
      then Some (zip_with (λ names v, (hd "" names, v)) members l) else None
  | _ => None
  end.

(** The value of a member, [None] inside when it is absent. *)
Definition find_member (names : list string) (fields : list (string * Value)) :
    option (option Value) :=
  match List.filter (λ f, bool_decide (f.1 ∈ names)) fields with
  | [] => Some None
  | [f] => Some (Some f.2)
  | _ => None
  end.

(** A member of type [Option<_>] with a default. *)
Definition opt_member {A} (de : Value → option A) (names : list string)
    (fields : list (string * Value)) : option (option A) :=
  v ← find_member names fields;
  match v with
  | None | Some VNull => Some None
  | Some v => Some <$> de v
  end.

(** A member that must be there. *)
Definition req_member {A} (de : Value → option A) (names : list string)
    (fields : list (string * Value)) : option A :=
  v ← find_member names fields; v ← v; de v.

Definition value_string (v : Value) : option string :=
  match v with VString s => Some s | _ => None end.

Definition value_list {A} (de : Value → option A) (v : Value) : option (list A) :=
  match v with VArray l => mapM de l | _ => None end.

(** ** Events *)

Section messages.
Context {X : Externals} {W : WireOps}.

Record MarketBookUpdate := {
  bu_asset_id : string;
  bu_best_bid : option string;
  bu_best_ask : option string;
  bu_event_ts : option DateTime;
}.

Record MarketPriceChangeUpdate := {
  pc_asset_id : string;
  pc_price : string;
  pc_side : option string;
  pc_event_ts : option DateTime;
}.

Record MarketTradePriceUpdate := {
  tp_asset_id : string;
  tp_price : string;
  tp_size : option string;
  tp_event_ts : option DateTime;
}.

Record MarketTickSizeChangeUpdate := {
  ts_asset_id : string;
  ts_previous_tick_size : option string;
  ts_tick_size : string;
  ts_event_ts : option DateTime;
}.

Record MarketLifecycleUpdate := {
  ml_market_id : option string;
  ml_asset_id : option string;
  ml_status : string;
  ml_event_ts : option DateTime;
}.

Inductive MarketWsEvent :=
| Book (u : MarketBookUpdate)
| PriceChange (u : MarketPriceChangeUpdate)
| LastTradePrice (u : MarketTradePriceUpdate)
| TickSizeChange (u : MarketTickSizeChangeUpdate)
| Lifecycle (u : MarketLifecycleUpdate)
| MarketPing
| MarketPong.

Record UserOrderUpdate := {
  uo_order_id : string;
  uo_status : string;
  uo_condition_id : string;
  uo_price : option string;
  uo_size : option string;
  uo_fee_rate_bps : option string;
  uo_transaction_hash : option string;
  uo_event_ts : option DateTime;
}.

Record UserTradeUpdate := {
  ut_trade_id : string;
  ut_order_id : string;
  ut_status : string;
  ut_condition_id : string;
  ut_price : option string;
  ut_size : option string;
  ut_fee_rate_bps : option string;
  ut_transaction_hash : option string;
  ut_event_ts : option DateTime;
}.

Inductive UserWsEvent :=
| UserOrder (u : UserOrderUpdate)
| UserTrade (u : UserTradeUpdate)
| UserPing
| UserPong.

(** The text of a [serde_json] error is left out. *)
Inductive WsParseError :=
| WsJson
| WsMissingField (field : string)
| WsUnknownEvent (event : string)
| WsInvalidField (field value : string)
| WsInvalidTimestamp (value : string).

Definition ws_parse_error_text (json_error : string) (e : WsParseError) : string :=
  match e with
  | WsJson => "websocket json parse error: " +:+ json_error
  | WsMissingField field => "websocket payload missing field: " +:+ field
  | WsUnknownEvent event => "unsupported websocket event: " +:+ event
  | WsInvalidField field value => "invalid websocket field " +:+ field +:+ ": " +:+ value
  | WsInvalidTimestamp value => "invalid websocket timestamp: " +:+ value
  end.

(** ** ws_market.rs: reading *)

Record BookLevel := { bl_price : Value }.

Record PriceChangeEntry := {
  pe_asset_id : string;
  pe_price : Value;
  pe_side : option Value;
}.

Record MarketEnvelope := {
  me_event : option string;
  me_event_type : option string;
  me_asset_id : option string;
  me_market_id : option string;
  me_market : option string;
  me_bids : option (list BookLevel);
  me_asks : option (list BookLevel);
  me_price_changes : option (list PriceChangeEntry);
  me_best_bid : option Value;
  me_best_ask : option Value;
  me_price : option Value;
  me_side : option Value;
  me_last_trade_price : option Value;
  me_size : option Value;
  me_tick_size : option Value;
  me_previous_tick_size : option Value;
  me_status : option Value;
  me_ts : option Value;
}.

Definition de_book_level (v : Value) : option BookLevel :=
  fields ← struct_of_value [["price"]] v;
  price ← req_member Some ["price"] fields;
  Some {| bl_price := price |}.

Definition de_price_change (v : Value) : option PriceChangeEntry :=
  fields ← struct_of_value [["asset_id"]; ["price"]; ["side"]] v;
  asset_id ← req_member value_string ["asset_id"] fields;
  price ← req_member Some ["price"] fields;
  side ← opt_member Some ["side"] fields;
  Some {| pe_asset_id := asset_id; pe_price := price; pe_side := side |}.

Definition market_members : list (list string) :=
  [["event"]; ["event_type"]; ["asset_id"]; ["market_id"]; ["market"]; ["bids"]; ["asks"];
   ["price_changes"]; ["best_bid"]; ["best_ask"]; ["price"]; ["side"]; ["last_trade_price"];
   ["size"]; ["tick_size"; "new_tick_size"]; ["previous_tick_size"; "old_tick_size"];
   ["status"]; ["ts"; "timestamp"]].

Definition de_market_envelope (v : Value) : option MarketEnvelope :=
  fields ← struct_of_value market_members v;
  event ← opt_member value_string ["event"] fields;
  event_type ← opt_member value_string ["event_type"] fields;
  asset_id ← opt_member value_string ["asset_id"] fields;
  market_id ← opt_member value_string ["market_id"] fields;
  market ← opt_member value_string ["market"] fields;
  bids ← opt_member (value_list de_book_level) ["bids"] fields;
  asks ← opt_member (value_list de_book_level) ["asks"] fields;
  price_changes ← opt_member (value_list de_price_change) ["price_changes"] fields;
  best_bid ← opt_member Some ["best_bid"] fields;
  best_ask ← opt_member Some ["best_ask"] fields;
  price ← opt_member Some ["price"] fields;
  side ← opt_member Some ["side"] fields;
  last_trade_price ← opt_member Some ["last_trade_price"] fields;
  size ← opt_member Some ["size"] fields;
  tick_size ← opt_member Some ["tick_size"; "new_tick_size"] fields;
  previous_tick_size ← opt_member Some ["previous_tick_size"; "old_tick_size"] fields;
  status ← opt_member Some ["status"] fields;
  ts ← opt_member Some ["ts"; "timestamp"] fields;
  Some {| me_event := event; me_event_type := event_type; me_asset_id := asset_id;
          me_market_id := market_id; me_market := market; me_bids := bids; me_asks := asks;
          me_price_changes := price_changes; me_best_bid := best_bid;
          me_best_ask := best_ask; me_price := price; me_side := side;
          me_last_trade_price := last_trade_price; me_size := size;
          me_tick_size := tick_size; me_previous_tick_size := previous_tick_size;
          me_status := status; me_ts := ts |}.

Definition normalize_event (value : string) : string := to_ascii_uppercase (trim value).

(** [first.or(second)] *)
Definition or_else {A} (first second : option A) : option A :=
  match first with Some a => Some a | None => second end.

Definition normalized_market_event (e : MarketEnvelope) : result WsParseError string :=
  match or_else (me_event e) (me_event_type e) with
  | Some value => Ok (normalize_event value)
  | None => Err (WsMissingField "event_type")
  end.

Definition optional_string (value : option Value) (field : string) :
    result WsParseError (option string) :=
  match value with
  | None => Ok None
  | Some (VString value) => Ok (Some value)
  | Some (VNumber value) => Ok (Some value)
  | Some (VBool value) => Ok (Some (if value then "true" else "false"))
  | Some other => Err (WsInvalidField field (value_text other))
  end.

Definition required_value (value : option Value) (field : string) : result WsParseError string :=
  v ← optional_string value field; ok_or v (WsMissingField field).

Definition best_book_price (direct : option Value) (levels : option (list BookLevel))
    (field : string) : result WsParseError (option string) :=
  match direct with
  | Some _ => optional_string direct field
  | None =>
      match levels with
      | None | Some [] => Ok None
      | Some (level :: _) => optional_string (Some (bl_price level)) field
      end
  end.

Definition parse_timestamp (value : option Value) : result WsParseError (option DateTime) :=
  match value with
  | None => Ok None
  | Some value =>
      raw ← match value with
            | VString value | VNumber value => Ok value
            | other => Err (WsInvalidField "timestamp" (value_text other))
            end;
      match parse_from_rfc3339 raw with
      | Some parsed => Ok (Some parsed)
      | None =>
          numeric ← ok_or (parse_i64 raw) (WsInvalidTimestamp raw);
          parsed ← ok_or (if bool_decide (13 <= str_len raw) then timestamp_millis_opt numeric
                          else timestamp_opt numeric) (WsInvalidTimestamp raw);
          Ok (Some parsed)
      end
  end.

Definition price_change_event (event_ts : option DateTime) (change : PriceChangeEntry) :
    result WsParseError MarketWsEvent :=
  price ← required_value (Some (pe_price change)) "price";
  side ← optional_string (pe_side change) "side";
  Ok (PriceChange {| pc_asset_id := pe_asset_id change; pc_price := price; pc_side := side;
                     pc_event_ts := event_ts |}).

Definition market_asset (e : MarketEnvelope) : result WsParseError string :=
  ok_or (me_asset_id e) (WsMissingField "asset_id").

(** The [match] on the kind of the event. *)
Definition market_events_of (e : MarketEnvelope) (event_type : string)
    (event_ts : option DateTime) : result WsParseError (list MarketWsEvent) :=
  if bool_decide (event_type = "PING") then Ok [MarketPing]
  else if bool_decide (event_type = "PONG") then Ok [MarketPong]
  else if bool_decide (event_type ∈ ["BOOK"; "BEST_BID_ASK"]) then
    asset_id ← market_asset e;
    best_bid ← best_book_price (me_best_bid e) (me_bids e) "bids";
    best_ask ← best_book_price (me_best_ask e) (me_asks e) "asks";
    Ok [Book {| bu_asset_id := asset_id; bu_best_bid := best_bid; bu_best_ask := best_ask;
                bu_event_ts := event_ts |}]
  else if bool_decide (event_type = "PRICE_CHANGE") then
    match me_price_changes e with
    | Some price_changes => collect_results (price_change_event event_ts) price_changes
    | None =>
        asset_id ← market_asset e;
        price ← required_value (me_price e) "price";
        side ← optional_string (me_side e) "side";
        Ok [PriceChange {| pc_asset_id := asset_id; pc_price := price; pc_side := side;
                           pc_event_ts := event_ts |}]
    end
  else if bool_decide (event_type = "LAST_TRADE_PRICE") then
    asset_id ← market_asset e;
    price ← required_value (or_else (me_last_trade_price e) (me_price e)) "last_trade_price";
    size ← optional_string (me_size e) "size";
    Ok [LastTradePrice {| tp_asset_id := asset_id; tp_price := price; tp_size := size;
                          tp_event_ts := event_ts |}]
  else if bool_decide (event_type = "TICK_SIZE_CHANGE") then
    asset_id ← market_asset e;
    previous_tick_size ← optional_string (me_previous_tick_size e) "previous_tick_size";
    tick_size ← required_value (me_tick_size e) "tick_size";
    Ok [TickSizeChange {| ts_asset_id := asset_id;
                          ts_previous_tick_size := previous_tick_size;
                          ts_tick_size := tick_size; ts_event_ts := event_ts |}]
  else if bool_decide (event_type ∈ ["LIFECYCLE"; "STATUS"; "MARKET_STATUS"]) then
    status ← required_value (me_status e) "status";
    Ok [Lifecycle {| ml_market_id := me_market_id e; ml_asset_id := me_asset_id e;
                     ml_status := status; ml_event_ts := event_ts |}]
  else if bool_decide (event_type ∈ ["NEW_MARKET"; "MARKET_RESOLVED"]) then
    Ok [Lifecycle {| ml_market_id := or_else (me_market_id e) (me_market e);
                     ml_asset_id := me_asset_id e; ml_status := event_type;
                     ml_event_ts := event_ts |}]
  else Err (WsUnknownEvent event_type).

Definition parse_market_messages (message : string) : result WsParseError (list MarketWsEvent) :=
  let trimmed := trim message in
  if eq_ignore_ascii_case trimmed "PING" then Ok [MarketPing]
  else if eq_ignore_ascii_case trimmed "PONG" then Ok [MarketPong]
  else
    envelope ← ok_or (v ← value_from_str message; de_market_envelope v) WsJson;
    event_type ← normalized_market_event envelope;
    event_ts ← parse_timestamp (me_ts envelope);
    market_events_of envelope event_type event_ts.

Definition parse_market_message (message : string) : result WsParseError MarketWsEvent :=
  events ← parse_market_messages message; ok_or (hd_error events) (WsUnknownEvent "").

(** ** ws_user.rs: reading *)

Record MakerOrderEnvelope := { mo_order_id : option string; mo_owner : option string }.

Record UserEnvelope := {
  ue_event : option string;
  ue_event_type : option string;
  ue_type_field : option string;
  ue_order_id : option string;
  ue_trade_id : option string;
  ue_id : option string;
  ue_taker_order_id : option string;
  ue_status : option string;
  ue_condition_id : option string;
  ue_market : option string;
  ue_price : option Value;
  ue_size : option Value;
  ue_original_size : option Value;
  ue_fee_rate_bps : option Value;
  ue_transaction_hash : option Value;
  ue_trade_owner : option string;
  ue_owner : option string;
  ue_maker_orders : option (list MakerOrderEnvelope);
  ue_ts : option Value;
}.

Definition de_maker_order (v : Value) : option MakerOrderEnvelope :=
  fields ← struct_of_value [["order_id"]; ["owner"]] v;
  order_id ← opt_member value_string ["order_id"] fields;
  owner ← opt_member value_string ["owner"] fields;
  Some {| mo_order_id := order_id; mo_owner := owner |}.

Definition user_members : list (list string) :=
  [["event"]; ["event_type"]; ["type"]; ["order_id"]; ["trade_id"]; ["id"];
   ["taker_order_id"]; ["status"]; ["condition_id"]; ["market"]; ["price"]; ["size"];
   ["original_size"]; ["fee_rate_bps"]; ["transaction_hash"]; ["trade_owner"]; ["owner"];
   ["maker_orders"]; ["ts"; "timestamp"]].

Definition de_user_envelope (v : Value) : option UserEnvelope :=
  fields ← struct_of_value user_members v;
  event ← opt_member value_string ["event"] fields;
  event_type ← opt_member value_string ["event_type"] fields;
  type_field ← opt_member value_string ["type"] fields;
  order_id ← opt_member value_string ["order_id"] fields;
  trade_id ← opt_member value_string ["trade_id"] fields;
  id ← opt_member value_string ["id"] fields;
  taker_order_id ← opt_member value_string ["taker_order_id"] fields;
  status ← opt_member value_string ["status"] fields;
  condition_id ← opt_member value_string ["condition_id"] fields;
  market ← opt_member value_string ["market"] fields;
  price ← opt_member Some ["price"] fields;
  size ← opt_member Some ["size"] fields;
  original_size ← opt_member Some ["original_size"] fields;
  fee_rate_bps ← opt_member Some ["fee_rate_bps"] fields;
  transaction_hash ← opt_member Some ["transaction_hash"] fields;
  trade_owner ← opt_member value_string ["trade_owner"] fields;
  owner ← opt_member value_string ["owner"] fields;
  maker_orders ← opt_member (value_list de_maker_order) ["maker_orders"] fields;
  ts ← opt_member Some ["ts"; "timestamp"] fields;
  Some {| ue_event := event; ue_event_type := event_type; ue_type_field := type_field;
          ue_order_id := order_id; ue_trade_id := trade_id; ue_id := id;
          ue_taker_order_id := taker_order_id; ue_status := status;
          ue_condition_id := condition_id; ue_market := market; ue_price := price;
          ue_size := size; ue_original_size := original_size;
          ue_fee_rate_bps := fee_rate_bps; ue_transaction_hash := transaction_hash;
          ue_trade_owner := trade_owner; ue_owner := owner;
          ue_maker_orders := maker_orders; ue_ts := ts |}.

Definition user_required (value : option string) (field : string) : result WsParseError string :=
  ok_or value (WsMissingField field).

Definition normalized_user_event (e : UserEnvelope) : result WsParseError string :=
  match or_else (ue_event e) (ue_event_type e) with
  | Some value => Ok (to_ascii_uppercase (trim value))
  | None => Err (WsMissingField "event_type")
  end.

(** The order of the engine's own account in a trade: named, or the maker order of
    the trade's owner, or the taker's. *)
Definition resolve_trade_order_id (e : UserEnvelope) : option string :=
  match ue_order_id e with
  | Some order_id => Some order_id
  | None =>
      let trade_owner := or_else (ue_trade_owner e) (ue_owner e) in
      let own :=
        match trade_owner, ue_maker_orders e with
        | Some trade_owner, Some maker_orders =>
            '(_, maker_order) ← list_find (λ m, mo_owner m = Some trade_owner) maker_orders;
            mo_order_id maker_order
        | _, _ => None
        end in
      match own with
      | Some order_id => Some order_id
      | None => ue_taker_order_id e
      end
  end.

Definition user_order_of (e : UserEnvelope) : result WsParseError UserOrderUpdate :=
  order_id ← user_required (or_else (ue_order_id e) (ue_id e)) "order_id";
  status ← user_required (or_else (ue_status e) (ue_type_field e)) "status";
  condition_id ← user_required (or_else (ue_condition_id e) (ue_market e)) "condition_id";
  price ← optional_string (ue_price e) "price";
  size ← optional_string (or_else (ue_size e) (ue_original_size e)) "size";
  fee_rate_bps ← optional_string (ue_fee_rate_bps e) "fee_rate_bps";
  transaction_hash ← optional_string (ue_transaction_hash e) "transaction_hash";
  event_ts ← parse_timestamp (ue_ts e);
  Ok {| uo_order_id := order_id; uo_status := status; uo_condition_id := condition_id;
        uo_price := price; uo_size := size; uo_fee_rate_bps := fee_rate_bps;
        uo_transaction_hash := transaction_hash; uo_event_ts := event_ts |}.

Definition user_trade_of (e : UserEnvelope) : result WsParseError UserTradeUpdate :=
  trade_id ← user_required (or_else (ue_trade_id e) (ue_id e)) "trade_id";
  order_id ← user_required (resolve_trade_order_id e) "order_id";
  status ← user_required (ue_status e) "status";
  condition_id ← user_required (or_else (ue_condition_id e) (ue_market e)) "condition_id";
  price ← optional_string (ue_price e) "price";
  size ← optional_string (ue_size e) "size";
  fee_rate_bps ← optional_string (ue_fee_rate_bps e) "fee_rate_bps";
  transaction_hash ← optional_string (ue_transaction_hash e) "transaction_hash";
  event_ts ← parse_timestamp (ue_ts e);
  Ok {| ut_trade_id := trade_id; ut_order_id := order_id; ut_status := status;
        ut_condition_id := condition_id; ut_price := price; ut_size := size;
        ut_fee_rate_bps := fee_rate_bps; ut_transaction_hash := transaction_hash;
        ut_event_ts := event_ts |}.

Definition parse_user_message (message : string) : result WsParseError UserWsEvent :=
  let trimmed := trim message in
  if eq_ignore_ascii_case trimmed "PING" then Ok UserPing
  else if eq_ignore_ascii_case trimmed "PONG" then Ok UserPong
  else
    envelope ← ok_or (v ← value_from_str message; de_user_envelope v) WsJson;
    event ← normalized_user_event envelope;
    if bool_decide (event = "PING") then Ok UserPing
    else if bool_decide (event = "PONG") then Ok UserPong
    else if bool_decide (event = "ORDER") then u ← user_order_of envelope; Ok (UserOrder u)
    else if bool_decide (event = "TRADE") then u ← user_trade_of envelope; Ok (UserTrade u)
    else Err (WsUnknownEvent event).
End messages.
