(* ===== verification/VenueSessions.v ===== *)
(** * Venue sessions

    [venue-polymarket/src/heartbeat.rs], [ws_session.rs] and the liveness monitor of
    [ws_market.rs]: what the engine remembers of its connections, and when it asks for
    attention. A monitor's channel is compared with the state's by [debug_assert_eq],
    which a release build leaves out. *)

From S2P Require Import Prelude RecordSet Externals WsMessages.

(** [dt_add] is the addition of a [Duration] to an instant, which panics when the sum
    cannot be represented; a freshness is the number of whole seconds, converted to
    [f64]. *)
Class ClockOps {X : Externals} := {
  dt_add : DateTime → Duration → option DateTime;
  dur_seconds : Z → Duration;
  dur_num_seconds : Duration → Z;
  F64 : Type;
  i64_as_f64 : Z → F64;
}.

(** The order on instants is the order on their differences, and a sum compares as the
    difference does. *)
Class ClockLaws (X : Externals) {C : ClockOps} : Prop := {
  dt_add_cmp a b d e : dt_add a d = Some e → dt_cmp b e = dur_cmp (dt_sub b a) d;
}.

Section sessions.
Context {X : Externals} {C : ClockOps}.

(** ** heartbeat.rs *)

Record HeartbeatFetchResult := { hf_heartbeat_id : string; hf_valid : bool }.

Inductive HeartbeatReconcileReason := MissedHeartbeat | InvalidHeartbeat.

Definition heartbeat_reason_status (r : HeartbeatReconcileReason) : string :=
  match r with MissedHeartbeat => "missed" | InvalidHeartbeat => "invalid" end.

Record OrderHeartbeatState := {
  hb_heartbeat_id : option string;
  hb_last_success_at : DateTime;
  hb_reconcile_attention_since : option DateTime;
  hb_reconcile_reason : option HeartbeatReconcileReason;
  hb_requires_reconcile_attention : bool;
}.

Record OrderHeartbeatMonitor := { hm_max_gap : Duration }.

Definition freshness_seconds (s : OrderHeartbeatState) (at_ : DateTime) : F64 :=
  i64_as_f64 (dur_num_seconds (dt_sub at_ (hb_last_success_at s))).

Definition record_success (s : OrderHeartbeatState) (heartbeat_id : string) (at_ : DateTime) :
    OrderHeartbeatState * F64 :=
  ({| hb_heartbeat_id := Some heartbeat_id; hb_last_success_at := at_;
      hb_reconcile_attention_since := None; hb_reconcile_reason := None;
      hb_requires_reconcile_attention := false |}, freshness_seconds s at_).

Definition raise_attention (s : OrderHeartbeatState) (at_ : DateTime)
    (reason : HeartbeatReconcileReason) :
    OrderHeartbeatState * option HeartbeatReconcileReason :=
  if hb_requires_reconcile_attention s then (s, None)
  else
    ({| hb_heartbeat_id := hb_heartbeat_id s; hb_last_success_at := hb_last_success_at s;
        hb_reconcile_attention_since := Some at_; hb_reconcile_reason := Some reason;
        hb_requires_reconcile_attention := true |}, Some reason).

Definition set_heartbeat_id (id : option string) (s : OrderHeartbeatState) :
    OrderHeartbeatState :=
  {| hb_heartbeat_id := id; hb_last_success_at := hb_last_success_at s;
     hb_reconcile_attention_since := hb_reconcile_attention_since s;
     hb_reconcile_reason := hb_reconcile_reason s;
     hb_requires_reconcile_attention := hb_requires_reconcile_attention s |}.

Definition record_invalid (s : OrderHeartbeatState) (at_ : DateTime) :
    OrderHeartbeatState * option HeartbeatReconcileReason :=
  raise_attention (set_heartbeat_id None s) at_ InvalidHeartbeat.

Definition record_fetch_result (s : OrderHeartbeatState) (r : HeartbeatFetchResult)
    (at_ : DateTime) : OrderHeartbeatState * option HeartbeatReconcileReason :=
  if hf_valid r then ((record_success s (hf_heartbeat_id r) at_).1, None)
  else
    raise_attention
      (set_heartbeat_id (if bool_decide (hf_heartbeat_id r = "") then None
                         else Some (hf_heartbeat_id r)) s)
      at_ InvalidHeartbeat.

Definition heartbeat_reconcile_trigger (m : OrderHeartbeatMonitor) (s : OrderHeartbeatState)
    (now : DateTime) : outcome (OrderHeartbeatState * option HeartbeatReconcileReason) :=
  stale_onset ← expect (dt_add (hb_last_success_at s) (hm_max_gap m));
  Returns match dt_cmp now stale_onset with
          | Gt => raise_attention s stale_onset MissedHeartbeat
          | _ => (s, None)
          end.

(** ** ws_session.rs *)

Inductive WsChannelKind := MarketChannel | UserChannel.

Inductive WsSessionStatus := SessionConnected | SessionReconnected | SessionDisconnected.

Record WsSessionEvent := {
  we_channel : WsChannelKind;
  we_connection_id : string;
  we_status : WsSessionStatus;
  we_reconnect_total : Z;
  we_observed_at : DateTime;
  we_disconnect_reason : option string;
}.

Record WsSessionState := {
  wss_channel : WsChannelKind;
  wss_connection_id : option string;
  wss_connected : bool;
  wss_reconnect_total : Z;
  wss_last_connected_at : option DateTime;
  wss_last_disconnected_at : option DateTime;
  wss_last_disconnect_reason : option string;
}.

(** [WsSessionMonitor] is its channel. *)
Definition WsSessionMonitor : Type := WsChannelKind.

Definition ws_session_new (channel : WsChannelKind) : WsSessionState :=
  {| wss_channel := channel; wss_connection_id := None; wss_connected := false;
     wss_reconnect_total := 0; wss_last_connected_at := None;
     wss_last_disconnected_at := None; wss_last_disconnect_reason := None |}.

(** [u64::saturating_add] *)
Definition u64_saturating_add (a b : Z) : Z := Z.min (a + b) (2 ^ 64 - 1).

Definition record_connected (monitor : WsSessionMonitor) (s : WsSessionState)
    (connection_id : string) (observed_at : DateTime) : WsSessionState * WsSessionEvent :=
  let '(reconnect_total, status) :=
    if wss_connected s then (wss_reconnect_total s, SessionConnected)
    else match wss_last_disconnected_at s with
         | Some _ => (u64_saturating_add (wss_reconnect_total s) 1, SessionReconnected)
         | None => (wss_reconnect_total s, SessionConnected)
         end in
  ({| wss_channel := wss_channel s; wss_connection_id := Some connection_id;
      wss_connected := true; wss_reconnect_total := reconnect_total;
      wss_last_connected_at := Some observed_at; wss_last_disconnected_at := None;
      wss_last_disconnect_reason := None |},
   {| we_channel := monitor; we_connection_id := connection_id; we_status := status;
      we_reconnect_total := reconnect_total; we_observed_at := observed_at;
      we_disconnect_reason := None |}).

Definition record_disconnected (monitor : WsSessionMonitor) (s : WsSessionState)
    (reason : string) (observed_at : DateTime) : WsSessionState * option WsSessionEvent :=
  if wss_connected s then
    ({| wss_channel := wss_channel s; wss_connection_id := wss_connection_id s;
        wss_connected := false; wss_reconnect_total := wss_reconnect_total s;
        wss_last_connected_at := wss_last_connected_at s;
        wss_last_disconnected_at := Some observed_at;
        wss_last_disconnect_reason := Some reason |},
     Some {| we_channel := monitor; we_connection_id := default "" (wss_connection_id s);
             we_status := SessionDisconnected;
             we_reconnect_total := wss_reconnect_total s; we_observed_at := observed_at;
             we_disconnect_reason := Some reason |})
  else (s, None).

(** ** ws_market.rs: liveness *)

Record WsChannelState := {
  wc_channel : WsChannelKind;
  wc_last_message_at : DateTime;
  wc_last_ping_at : option DateTime;
  wc_last_pong_at : option DateTime;
  wc_stale_since : option DateTime;
  wc_requires_reconcile_attention : bool;
}.

Inductive WsChannelReconcileReason := StaleChannel (channel : WsChannelKind).

Record WsChannelLivenessMonitor := {
  wl_channel : WsChannelKind;
  wl_max_gap : Duration;
}.

Definition ws_channel_new (channel : WsChannelKind) (observed_at : DateTime) : WsChannelState :=
  {| wc_channel := channel; wc_last_message_at := observed_at; wc_last_ping_at := None;
     wc_last_pong_at := None; wc_stale_since := None;
     wc_requires_reconcile_attention := false |}.

Definition record_observation (s : WsChannelState) (observed_at : DateTime) : WsChannelState :=
  {| wc_channel := wc_channel s; wc_last_message_at := observed_at;
     wc_last_ping_at := wc_last_ping_at s; wc_last_pong_at := wc_last_pong_at s;
     wc_stale_since := wc_stale_since s;
     wc_requires_reconcile_attention := wc_requires_reconcile_attention s |}.

Definition record_ping (s : WsChannelState) (observed_at : DateTime) : WsChannelState :=
  {| wc_channel := wc_channel s; wc_last_message_at := wc_last_message_at s;
     wc_last_ping_at := Some observed_at; wc_last_pong_at := wc_last_pong_at s;
     wc_stale_since := wc_stale_since s;
     wc_requires_reconcile_attention := wc_requires_reconcile_attention s |}.

Definition record_pong (s : WsChannelState) (observed_at : DateTime) : WsChannelState :=
  {| wc_channel := wc_channel s; wc_last_message_at := wc_last_message_at s;
     wc_last_ping_at := wc_last_ping_at s; wc_last_pong_at := Some observed_at;
     wc_stale_since := wc_stale_since s;
     wc_requires_reconcile_attention := wc_requires_reconcile_attention s |}.

Definition record_market_event (s : WsChannelState) (event : MarketWsEvent)
    (observed_at : DateTime) : WsChannelState :=
  let s := record_observation s observed_at in
  match event with
  | MarketPing => record_ping s observed_at
  | MarketPong => record_pong s observed_at
  | Book _ | PriceChange _ | LastTradePrice _ | TickSizeChange _ | Lifecycle _ => s
  end.

Definition record_user_event (s : WsChannelState) (event : UserWsEvent)
    (observed_at : DateTime) : WsChannelState :=
  let s := record_observation s observed_at in
  match event with
  | UserPing => record_ping s observed_at
  | UserPong => record_pong s observed_at
  | UserOrder _ | UserTrade _ => s
  end.

Definition channel_reconcile_trigger (m : WsChannelLivenessMonitor) (s : WsChannelState)
    (now : DateTime) : outcome (WsChannelState * option WsChannelReconcileReason) :=
  match dur_cmp (dt_sub now (wc_last_message_at s)) (wl_max_gap m) with
  | Gt =>
      if wc_requires_reconcile_attention s then Returns (s, None)
      else
        stale_since ← expect (dt_add (wc_last_message_at s) (wl_max_gap m));
        Returns
          ({| wc_channel := wc_channel s; wc_last_message_at := wc_last_message_at s;
              wc_last_ping_at := wc_last_ping_at s; wc_last_pong_at := wc_last_pong_at s;
              wc_stale_since := Some stale_since; wc_requires_reconcile_attention := true |},
           Some (StaleChannel (wl_channel m)))
  | _ => Returns (s, None)
  end.

Definition reset_reconcile_attention (s : WsChannelState) (recovered_at : DateTime) :
    WsChannelState :=
  {| wc_channel := wc_channel s; wc_last_message_at := recovered_at;
     wc_last_ping_at := wc_last_ping_at s; wc_last_pong_at := wc_last_pong_at s;
     wc_stale_since := None; wc_requires_reconcile_attention := false |}.
End sessions.

(** A concrete clock, in seconds. *)
#[export] Instance Micros_clock : @ClockOps Micros := {|
  dt_add := (λ a d : Z, Some (a + d)) : @DateTime Micros → @Duration Micros → option (@DateTime Micros);
  dur_seconds := λ n : Z, n;
  dur_num_seconds := λ d : Z, d;
  F64 := Z;
  i64_as_f64 := λ n, n;
|}.

Lemma compare_add_sub (a b d : Z) : (b ?= a + d) = (b - a ?= d).
Proof. destruct (Z.compare_spec b (a + d)), (Z.compare_spec (b - a) d); lia || done. Qed.

#[export] Instance Micros_clock_laws : ClockLaws Micros.
Proof. split. intros a b d e [= <-]. apply compare_add_sub. Qed.
