(* ===== verification/Gateway.v ===== *)
(** * The venue gateway

    [venue-polymarket/src/errors.rs], [retry.rs], [relayer.rs], [gateway.rs], the errors
    of [rest.rs] and [metadata.rs], and the interfaces of [sdk_backend]: what the engine
    asks of the venue and how failures are named. The SDK, HTTP and websockets are behind
    records of operations acting on a [World], as the sinks are. *)

From S2P Require Import Prelude Text Externals Json Domain RuntimeMode WsMessages AppConfig.

(** ** errors.rs *)

Inductive PolymarketGatewayErrorKind :=
| KindAuth | KindConnectivity | KindUpstreamResponse | KindProtocol | KindPolicy | KindRelayer.

Record PolymarketGatewayError := {
  ge_kind : PolymarketGatewayErrorKind;
  ge_message : string;
}.

Definition gateway_error (kind : PolymarketGatewayErrorKind) (message : string) :
    PolymarketGatewayError :=
  {| ge_kind := kind; ge_message := message |}.

Definition debug_gateway_error_kind (k : PolymarketGatewayErrorKind) : string :=
  match k with
  | KindAuth => "Auth" | KindConnectivity => "Connectivity"
  | KindUpstreamResponse => "UpstreamResponse" | KindProtocol => "Protocol"
  | KindPolicy => "Policy" | KindRelayer => "Relayer"
  end.

Definition gateway_error_text (e : PolymarketGatewayError) : string :=
  debug_gateway_error_kind (ge_kind e) +:+ ": " +:+ ge_message e.

(** ** metadata.rs and rest.rs: errors *)

Inductive NegRiskMetadataError :=
| EmptyDiscovery
| MissingEventId
| MissingConditionId (event_id : string)
| MissingTokenId (event_id condition_id : string)
| ConflictingDuplicateRow (event_family_id condition_id token_id : string)
    (existing_outcome_label incoming_outcome_label : string)
| NoValidRowsAfterFiltering (skipped_rows : Z).

Definition metadata_error_text (e : NegRiskMetadataError) : string :=
  match e with
  | EmptyDiscovery => "neg-risk discovery returned no rows"
  | MissingEventId => "neg-risk event is missing an id"
  | MissingConditionId event_id =>
      "neg-risk market is missing a condition id for event " +:+ event_id
  | MissingTokenId event_id condition_id =>
      "neg-risk market is missing a token id for event " +:+ event_id +:+ " condition " +:+
      condition_id
  | ConflictingDuplicateRow family condition token existing incoming =>
      "conflicting neg-risk metadata for family " +:+ family +:+ " condition " +:+ condition +:+
      " token " +:+ token +:+ ": " +:+ debug_str existing +:+ " vs " +:+ debug_str incoming
  | NoValidRowsAfterFiltering skipped =>
      "neg-risk discovery produced no valid rows after filtering " +:+ pretty skipped +:+
      " malformed rows"
  end.

Definition metadata_error_as_gateway (e : NegRiskMetadataError) : PolymarketGatewayError :=
  gateway_error KindPolicy (metadata_error_text e).

(** The errors of [reqwest] and [url] are their texts; [status] is a status code and
    [status_text] its display, the code and its reason. *)
Inductive RestError :=
| RestAuth (e : AuthError)
| RestHttp (text : string)
| RestHttpResponse (status : Z) (body : string)
| RestGateway (e : PolymarketGatewayError)
| RestMetadata (e : NegRiskMetadataError)
| RestUrl (text : string)
| RestMissingField (field : string).

Class RestOps := { status_text : Z → string }.

Definition map_metadata_rest_error {R : RestOps} (e : RestError) : PolymarketGatewayError :=
  match e with
  | RestAuth e => gateway_error KindAuth (auth_error_text e)
  | RestHttp text => gateway_error KindConnectivity text
  | RestHttpResponse status body =>
      gateway_error KindUpstreamResponse (status_text status +:+ ": " +:+ body)
  | RestGateway e => e
  | RestMetadata e => metadata_error_as_gateway e
  | RestUrl text => gateway_error KindProtocol text
  | RestMissingField field =>
      gateway_error KindProtocol ("missing response field: " +:+ field)
  end.

(** [sdk_backend/relayer.rs] *)
Definition map_relayer_rest_error {R : RestOps} (e : RestError) : PolymarketGatewayError :=
  match e with
  | RestAuth e => gateway_error KindAuth (auth_error_text e)
  | RestHttp text => gateway_error KindConnectivity text
  | RestHttpResponse status body =>
      gateway_error KindUpstreamResponse (status_text status +:+ ": " +:+ body)
  | RestGateway e => e
  | RestMetadata e => gateway_error KindProtocol (metadata_error_text e)
  | RestUrl text => gateway_error KindProtocol text
  | RestMissingField field => gateway_error KindRelayer ("missing response field: " +:+ field)
  end.

Definition is_retryable_metadata_error (e : RestError) : bool :=
  match e with
  | RestHttp _ => true
  | RestHttpResponse status _ => bool_decide (status ∈ [425; 429; 500; 502; 503; 504])
  | RestMetadata _ | RestAuth _ | RestGateway _ | RestUrl _ | RestMissingField _ => false
  end.

(** ** relayer.rs *)

Inductive RelayerTransactionType := RelayerProxy | RelayerSafe.

Definition as_query_value (t : RelayerTransactionType) : string :=
  match t with RelayerProxy => "PROXY" | RelayerSafe => "SAFE" end.

Record RelayerTransaction := {
  rt_transaction_id : string;
  rt_transaction_hash : option string;
  rt_from_address : option string;
  rt_to_address : option string;
  rt_proxy_address : option string;
  rt_nonce : option string;
  rt_state : option string;
  rt_wallet_type : option RelayerTransactionType;
  rt_owner : option string;
  rt_created_at : option string;
  rt_updated_at : option string;
  rt_data : option string;
  rt_value : option string;
  rt_signature : option string;
  rt_metadata : option string;
}.

Inductive RelayerTransactionState := TxPending | TxConfirmed | TxTerminal | TxUnknown.
#[export] Instance RelayerTransactionState_eq_dec : EqDecision RelayerTransactionState.
Proof. solve_decision. Defined.

Definition classify_transaction_state (state : option string) : RelayerTransactionState :=
  match state with
  | Some state =>
      let value := to_ascii_uppercase (trim state) in
      if bool_decide (value ∈ ["STATE_NEW"; "STATE_EXECUTED"; "STATE_MINED"]) then TxPending
      else if bool_decide (value = "STATE_CONFIRMED") then TxConfirmed
      else if bool_decide (value ∈ ["STATE_INVALID"; "STATE_FAILED"]) then TxTerminal
      else TxUnknown
  | None => TxUnknown
  end.

Definition matches_pending_ref (t : RelayerTransaction) (pending_ref : string) : bool :=
  let pending_ref := trim pending_ref in
  if bool_decide (pending_ref = "") then false
  else bool_decide (rt_transaction_id t = pending_ref) ||
       bool_decide (rt_transaction_hash t = Some pending_ref).

Definition state_is_pending_or_unknown (t : RelayerTransaction) : bool :=
  match classify_transaction_state (rt_state t) with
  | TxPending | TxUnknown => true | _ => false end.
Definition state_is_confirmed (t : RelayerTransaction) : bool :=
  match classify_transaction_state (rt_state t) with TxConfirmed => true | _ => false end.
Definition state_is_terminal (t : RelayerTransaction) : bool :=
  match classify_transaction_state (rt_state t) with TxTerminal => true | _ => false end.

Definition is_pending_relayer_state (state : option string) : bool :=
  bool_decide (state = Some "STATE_PENDING").

Inductive RecentTransactionsResponse :=
| TransactionList (items : list RelayerTransaction)
| TransactionEnvelope (transactions : list RelayerTransaction).

Definition recent_transactions_from_response (r : RecentTransactionsResponse) :
    list RelayerTransaction :=
  match r with TransactionList items => items | TransactionEnvelope items => items end.

Record CurrentNonceResponse := { cn_nonce : option string; cn_current_nonce : option string }.

Definition current_nonce_from_response (r : CurrentNonceResponse) : result RestError string :=
  ok_or (or_else (cn_current_nonce r) (cn_nonce r)) (RestMissingField "nonce").

(** ** gateway.rs *)

Record PolymarketSignedOrder := {
  gs_order : Json;
  gs_owner : string;
  gs_order_type : string;
  gs_defer_exec : bool;
}.

Inductive PolymarketOrderQuery := OpenOrders.

Record PolymarketOpenOrderSummary := { oo_order_id : string }.

Record PolymarketHeartbeatStatus := { hs_heartbeat_id : string; hs_valid : bool }.

Record PolymarketSubmitResponse := {
  psr_order_id : string;
  psr_status : string;
  psr_success : bool;
  psr_error_message : option string;
  psr_transaction_hashes : list string;
}.

Record PolymarketUserStreamAuth := {
  us_address : string;
  us_api_key : string;
  us_secret : string;
  us_passphrase : string;
}.

(** ** metadata.rs: what a page holds *)

Inductive FlexibleStringList := Values (values : list string) | TextList (text : string).

Record GammaMarket := {
  gm_condition_id : option string;
  gm_clob_token_ids : FlexibleStringList;
  gm_group_item_title : option string;
  gm_title : option string;
  gm_short_outcomes : FlexibleStringList;
  gm_outcomes : FlexibleStringList;
  gm_question : option string;
  gm_neg_risk : option bool;
  gm_neg_risk_other : option bool;
}.

Record GammaEvent := {
  gv_id : option string;
  gv_title : option string;
  gv_parent_event_id : option string;
  gv_neg_risk : option bool;
  gv_enable_neg_risk : option bool;
  gv_neg_risk_augmented : option bool;
  gv_markets : list GammaMarket;
}.

(** ** sdk_backend: the interfaces *)

Section gateway.
Context {X : Externals} {World : Type}.

Record PolymarketClobApi := {
  clob_open_orders : PolymarketOrderQuery → World →
    World * result PolymarketGatewayError (list PolymarketOpenOrderSummary);
  clob_submit_order : PolymarketSignedOrder → World →
    World * result PolymarketGatewayError PolymarketSubmitResponse;
  clob_post_heartbeat : option string → World →
    World * result PolymarketGatewayError PolymarketHeartbeatStatus;
}.

Record PolymarketStreamApi := {
  stream_market_events : list string → World →
    World * result PolymarketGatewayError (list MarketWsEvent);
  stream_user_events : PolymarketUserStreamAuth → list string → World →
    World * result PolymarketGatewayError (list UserWsEvent);
}.

Record PolymarketMetadataApi := {
  metadata_page : Z → Z → World → World * result PolymarketGatewayError (list GammaEvent);
}.

Record PolymarketRelayerApi := {
  relayer_recent_transactions : RelayerAuth → World →
    World * result PolymarketGatewayError (list RelayerTransaction);
  relayer_current_nonce : RelayerAuth → string → RelayerTransactionType → World →
    World * result PolymarketGatewayError string;
}.

Record PolymarketGateway := {
  gw_clob_api : option PolymarketClobApi;
  gw_stream_api : option PolymarketStreamApi;
  gw_metadata_api : option PolymarketMetadataApi;
  gw_relayer_api : option PolymarketRelayerApi;
}.

Definition gateway_empty : PolymarketGateway :=
  {| gw_clob_api := None; gw_stream_api := None; gw_metadata_api := None;
     gw_relayer_api := None |}.

Definition from_clob_api (api : PolymarketClobApi) : PolymarketGateway :=
  {| gw_clob_api := Some api; gw_stream_api := None; gw_metadata_api := None;
     gw_relayer_api := None |}.
Definition from_stream_api (api : PolymarketStreamApi) : PolymarketGateway :=
  {| gw_clob_api := None; gw_stream_api := Some api; gw_metadata_api := None;
     gw_relayer_api := None |}.
Definition from_metadata_api (api : PolymarketMetadataApi) : PolymarketGateway :=
  {| gw_clob_api := None; gw_stream_api := None; gw_metadata_api := Some api;
     gw_relayer_api := None |}.
Definition from_relayer_api (api : PolymarketRelayerApi) : PolymarketGateway :=
  {| gw_clob_api := None; gw_stream_api := None; gw_metadata_api := None;
     gw_relayer_api := Some api |}.

(** The four accessors: an interface the gateway was not given is a protocol error. *)
Definition configured {A} (api : option A) (name : string) : result PolymarketGatewayError A :=
  ok_or api (gateway_error KindProtocol (name +:+ " api is not configured on this gateway")).

Definition clob_api (g : PolymarketGateway) : result PolymarketGatewayError PolymarketClobApi :=
  configured (gw_clob_api g) "clob".
Definition stream_api (g : PolymarketGateway) :
    result PolymarketGatewayError PolymarketStreamApi :=
  configured (gw_stream_api g) "stream".
Definition metadata_api (g : PolymarketGateway) :
    result PolymarketGatewayError PolymarketMetadataApi :=
  configured (gw_metadata_api g) "metadata".
Definition relayer_api (g : PolymarketGateway) :
    result PolymarketGatewayError PolymarketRelayerApi :=
  configured (gw_relayer_api g) "relayer".

(** A call through an interface that may be missing. *)
Definition through {A B} (api : result PolymarketGatewayError A)
    (call : A → World → World * result PolymarketGatewayError B) (w : World) :
    World * result PolymarketGatewayError B :=
  match api with Ok api => call api w | Err e => (w, Err e) end.

Definition open_orders (g : PolymarketGateway) (query : PolymarketOrderQuery) :=
  through (clob_api g) (λ api, clob_open_orders api query).

Definition submit_order (g : PolymarketGateway) (order : PolymarketSignedOrder) :=
  through (clob_api g) (λ api, clob_submit_order api order).

Definition post_heartbeat (g : PolymarketGateway) (previous_heartbeat_id : option string) :=
  through (clob_api g) (λ api, clob_post_heartbeat api previous_heartbeat_id).

Definition collect_market_events (g : PolymarketGateway) (token_ids : list string) :=
  through (stream_api g) (λ api, stream_market_events api token_ids).

Definition collect_user_events (g : PolymarketGateway) (auth : PolymarketUserStreamAuth)
    (condition_ids : list string) :=
  through (stream_api g) (λ api, stream_user_events api auth condition_ids).

Definition recent_transactions (g : PolymarketGateway) (auth : RelayerAuth) :=
  through (relayer_api g) (λ api, relayer_recent_transactions api auth).

Definition current_nonce (g : PolymarketGateway) (auth : RelayerAuth) (address : string)
    (wallet_type : RelayerTransactionType) :=
  through (relayer_api g) (λ api, relayer_current_nonce api auth address wallet_type).
End gateway.
Arguments PolymarketClobApi : clear implicits.
Arguments PolymarketStreamApi _ _ : clear implicits.
Arguments PolymarketMetadataApi : clear implicits.
Arguments PolymarketRelayerApi : clear implicits.
Arguments PolymarketGateway _ _ : clear implicits.

(** ** retry.rs *)

Inductive RetryClass := RetryTransport | RetryBusiness | RetryNone.

Inductive BusinessErrorKind :=
| DuplicateSignedOrder | MalformedPayload | MinSize | TickSize
| InsufficientBalance | InsufficientAllowance.

Record HttpRetryContext := { hc_persistent_rate_limit : bool }.

Record RetryDecision := {
  rd_class : RetryClass;
  rd_reuse_payload : bool;
  rd_backoff : bool;
  rd_next_mode : option RuntimeMode.RuntimeMode;
  rd_overlay : option RuntimeMode.RuntimeOverlay;
  rd_reconcile_first : bool;
  rd_retry_of_order_id : option string;
  rd_preserved_identity : option SignedOrderIdentity;
}.

Definition is_cancel_only (restriction : option string) : bool :=
  match restriction with
  | Some value => bool_decide (to_ascii_lowercase (trim value) ∈ ["cancel-only"; "cancel_only"])
  | None => false
  end.

Definition map_venue_status (status_code : Z) (restriction : option string) :
    RuntimeMode.RuntimePolicy :=
  if bool_decide (status_code = 503) then
    if is_cancel_only restriction then
      {| RuntimeMode.rp_mode := RuntimeMode.NoNewRisk;
         RuntimeMode.rp_overlay := Some RuntimeMode.CancelOnly |}
    else {| RuntimeMode.rp_mode := RuntimeMode.GlobalHalt; RuntimeMode.rp_overlay := None |}
  else {| RuntimeMode.rp_mode := RuntimeMode.Healthy; RuntimeMode.rp_overlay := None |}.

Definition for_transport_timeout (identity : SignedOrderIdentity) : RetryDecision :=
  {| rd_class := RetryTransport; rd_reuse_payload := true; rd_backoff := true;
     rd_next_mode := Some RuntimeMode.Reconciling; rd_overlay := None;
     rd_reconcile_first := true; rd_retry_of_order_id := None;
     rd_preserved_identity := Some identity |}.

Definition for_http_status_with_context (status_code : Z) (restriction : option string)
    (identity : option SignedOrderIdentity) (context : HttpRetryContext) : RetryDecision :=
  if bool_decide (status_code = 425) then
    {| rd_class := RetryTransport; rd_reuse_payload := true; rd_backoff := true;
       rd_next_mode := Some RuntimeMode.Reconciling; rd_overlay := None;
       rd_reconcile_first := true; rd_retry_of_order_id := None;
       rd_preserved_identity := identity |}
  else if bool_decide (status_code = 429) then
    {| rd_class := RetryTransport; rd_reuse_payload := true; rd_backoff := true;
       rd_next_mode :=
         (if hc_persistent_rate_limit context then Some RuntimeMode.Degraded else None);
       rd_overlay := None; rd_reconcile_first := false; rd_retry_of_order_id := None;
       rd_preserved_identity := identity |}
  else if bool_decide (status_code = 500) then
    {| rd_class := RetryTransport; rd_reuse_payload := true; rd_backoff := true;
       rd_next_mode := Some RuntimeMode.Degraded; rd_overlay := None;
       rd_reconcile_first := false; rd_retry_of_order_id := None;
       rd_preserved_identity := identity |}
  else if bool_decide (status_code = 503) then
    let policy := map_venue_status status_code restriction in
    {| rd_class := RetryNone; rd_reuse_payload := false; rd_backoff := false;
       rd_next_mode := Some (RuntimeMode.rp_mode policy);
       rd_overlay := RuntimeMode.rp_overlay policy;
       rd_reconcile_first := false; rd_retry_of_order_id := None;
       rd_preserved_identity := identity |}
  else
    {| rd_class := RetryNone; rd_reuse_payload := false; rd_backoff := false;
       rd_next_mode := None; rd_overlay := None; rd_reconcile_first := false;
       rd_retry_of_order_id := None; rd_preserved_identity := identity |}.

Definition for_http_status (status_code : Z) (restriction : option string)
    (identity : option SignedOrderIdentity) : RetryDecision :=
  for_http_status_with_context status_code restriction identity
    {| hc_persistent_rate_limit := false |}.

Definition for_business_error (error_kind : BusinessErrorKind) (order_id : option string)
    (identity : option SignedOrderIdentity) : RetryDecision :=
  match error_kind with
  | DuplicateSignedOrder =>
      {| rd_class := RetryBusiness; rd_reuse_payload := false; rd_backoff := false;
         rd_next_mode := Some RuntimeMode.Reconciling; rd_overlay := None;
         rd_reconcile_first := true; rd_retry_of_order_id := order_id;
         rd_preserved_identity := identity |}
  | MalformedPayload | MinSize | TickSize =>
      {| rd_class := RetryNone; rd_reuse_payload := false; rd_backoff := false;
         rd_next_mode := None; rd_overlay := None; rd_reconcile_first := false;
         rd_retry_of_order_id := None; rd_preserved_identity := identity |}
  | InsufficientBalance | InsufficientAllowance =>
      {| rd_class := RetryNone; rd_reuse_payload := false; rd_backoff := false;
         rd_next_mode := Some RuntimeMode.NoNewRisk; rd_overlay := None;
         rd_reconcile_first := true; rd_retry_of_order_id := None;
         rd_preserved_identity := identity |}
  end.

Definition for_duplicate_signed_order (order_id : string) (identity : SignedOrderIdentity) :
    RetryDecision :=
  for_business_error DuplicateSignedOrder (Some order_id) (Some identity).

Definition for_business_retry (order_id : string) : RetryDecision :=
  {| rd_class := RetryBusiness; rd_reuse_payload := false; rd_backoff := false;
     rd_next_mode := Some RuntimeMode.NoNewRisk; rd_overlay := None;
     rd_reconcile_first := false; rd_retry_of_order_id := Some order_id;
     rd_preserved_identity := None |}.

(** ** Lemmas *)

(** What the metrics call pending is not what the classification calls pending. *)
Lemma pending_states_disagree state :
  (is_pending_relayer_state state = true → classify_transaction_state state = TxUnknown) ∧
  (classify_transaction_state state = TxPending → is_pending_relayer_state state = false).
Proof.
  unfold is_pending_relayer_state.
  split; [intros ->%bool_decide_eq_true; reflexivity|]. intros Hc.
  apply bool_decide_eq_false. intros ->. discriminate Hc.
Qed.

(** A retry never signs anew what it may already have sent, and never sends what the
    venue refused as it is: the payload is reused exactly by the transport retries, and
    those keep the identity they were given. *)
Lemma http_retry_reuses_payload status restriction identity context :
  let d := for_http_status_with_context status restriction identity context in
  rd_preserved_identity d = identity ∧
  (rd_reuse_payload d = true ↔ status ∈ [425; 429; 500]) ∧
  rd_backoff d = rd_reuse_payload d ∧
  (rd_reconcile_first d = true → rd_next_mode d = Some RuntimeMode.Reconciling).
Proof.
  unfold for_http_status_with_context.
  repeat case_bool_decide; subst; simpl; (split_and!; [done| |done|done]); set_solver.
Qed.
