(* ===== verification/Submit.v ===== *)
(** * Submitting to the venue

    [venue-polymarket/src/negrisk_live.rs]: the provider the live sink submits families
    through, and the provider that asks the venue what became of a submission. A provider
    built with the handle of a shared runtime runs its calls there; without one it runs
    them on a runtime of its own. The two ways are written out twice in the source and
    here. *)

From Stdlib Require Import Ascii.
From S2P Require Import Prelude Text Externals Json Domain Plans Execution LiveRecords.
From S2P Require Import WsMessages AppConfig Gateway.

(** ** domain/src/execution.rs and execution/src/providers.rs *)

Record PendingReconcileWork := {
  pw_pending_ref : string;
  pw_route : string;
  pw_scope : string;
}.

Inductive ReconcileOutcome :=
| ConfirmedAuthoritative (submission_ref : string)
| StillPending
| NeedsRecovery (pending_ref reason : string)
| ReconcileFailedAmbiguous (pending_ref reason : string)
| ReconcileFailedDefinitive (reason : string).

Record ReconcileProviderError := { rpe_reason : string }.

Definition submit_error {A} (reason : string) : result SubmitProviderError A :=
  Err {| spe_reason := reason |}.
Definition reconcile_error {A} (reason : string) : result ReconcileProviderError A :=
  Err {| rpe_reason := reason |}.

Section submit.
Context {X : Externals} {J : JsonOps} {World : Type}.

Record ReconcileProvider := {
  reconcile_live : PendingReconcileWork → World →
    World * result ReconcileProviderError ReconcileOutcome;
}.

(** ** The shared runtime

    Whether the handle is the one of the current thread, and what becomes of a task
    spawned on it: it may be dropped, with or without its effect on the world, before it
    sends its result. *)
Record RuntimeHandle := {
  rh_is_current : bool;
  rh_run {T : Type} : (World → World * T) → World → World * option T;
}.

(** A runtime that stays up runs what it is given. *)
Definition handle_runs (h : RuntimeHandle) : Prop :=
  rh_is_current h = false ∧
  ∀ T (task : World → World * T) w, rh_run h task w = ((task w).1, Some (task w).2).

Definition ensure_runtime_handle_is_off_thread (h : RuntimeHandle) : result string () :=
  if rh_is_current h then
    Err "shared runtime handle must not be the current runtime; use a dedicated off-thread runtime"
  else Ok ().

Definition run_on_shared_runtime {T} (h : RuntimeHandle) (task : World → World * T) (w : World) :
    World * result string T :=
  match ensure_runtime_handle_is_off_thread h with
  | Err e => (w, Err e)
  | Ok _ =>
      match rh_run h task w with
      | (w, Some t) => (w, Ok t)
      | (w, None) =>
          (w, Err "shared runtime is unavailable or shut down before the gateway task completed")
      end
  end.

(** ** One member *)

Record SubmitOrderResponse := {
  sr_success : bool;
  sr_order_id : string;
  sr_status : string;
  sr_transaction_hashes : list string;
  sr_error_msg : string;
}.

Definition provider_name : string := "polymarket".

Definition tx_pending_ref (tx_ref : string) : string := "tx:" +:+ tx_ref.
Definition order_pending_ref (order_id : string) : string := "order:" +:+ order_id.

Definition submission_record_of (submission_ref : string) (attempt : ExecutionAttemptContext) :
    LiveSubmissionRecord :=
  {| ls_submission_ref := submission_ref; ls_attempt_id := ac_attempt_id attempt;
     ls_route := ac_route attempt; ls_scope := ac_scope attempt;
     ls_provider := provider_name |}.

Definition submit_rejection_reason (r : SubmitOrderResponse) : string :=
  let status := trim (sr_status r) in
  let error_msg := trim (sr_error_msg r) in
  if negb (bool_decide (error_msg = "")) then
    "polymarket rejected order " +:+ sr_order_id r +:+ ": " +:+ error_msg
  else if negb (bool_decide (status = "")) then
    "polymarket rejected order " +:+ sr_order_id r +:+ " with status " +:+ status
  else "polymarket rejected order " +:+ sr_order_id r.

(** The text of a [serde_json] error is left out; the build of the request has already
    read the one member that can fail. *)
Definition polymarket_signed_order_from_submission (submission : PostOrderRequest) :
    result string PolymarketSignedOrder :=
  order ← ok_or (post_order_json (pr_order submission)) "submit order serialization error: ";
  Ok {| gs_order := order; gs_owner := pr_owner submission;
        gs_order_type := match pr_order_type submission with Gtc => "GTC" end;
        gs_defer_exec := pr_defer_exec submission |}.

Definition submit_order_response_from_gateway (r : PolymarketSubmitResponse) :
    SubmitOrderResponse :=
  {| sr_success := psr_success r; sr_order_id := psr_order_id r; sr_status := psr_status r;
     sr_transaction_hashes := psr_transaction_hashes r;
     sr_error_msg := default "" (psr_error_message r) |}.

Definition submit_order_response_to_outcome (r : SubmitOrderResponse)
    (attempt : ExecutionAttemptContext) : result SubmitProviderError LiveSubmitOutcome :=
  if negb (sr_success r) then Ok (RejectedDefinitive (submit_rejection_reason r))
  else
    let status := to_ascii_lowercase (trim (sr_status r)) in
    if bool_decide (status ∈ ["live"; "unmatched"; "delayed"]) then
      Ok (Accepted (submission_record_of (sr_order_id r) attempt))
    else if bool_decide (status = "matched") then
      match List.find (λ hash, negb (bool_decide (hash = "")))
              (trim <$> sr_transaction_hashes r) with
      | None => submit_error "matched polymarket response missing transactionsHashes"
      | Some pending_tx =>
          Ok (AcceptedButUnconfirmed (Some (submission_record_of pending_tx attempt))
                (tx_pending_ref pending_tx))
      end
    else
      Ok (AcceptedButUnconfirmed (Some (submission_record_of (sr_order_id r) attempt))
            (order_pending_ref (sr_order_id r))).

(** ** A family *)

Inductive FamilySubmitFailure := FailureOutcome (reason : string) | FailureError (reason : string).

Record FamilySubmitAggregation := {
  fs_total_members : nat;
  fs_success_count : nat;
  fs_first_success : option LiveSubmitOutcome;
  fs_first_failure : option FamilySubmitFailure;
}.

Definition outcome_reason (o : LiveSubmitOutcome) : string :=
  match o with
  | Accepted record => "member accepted with submission ref " +:+ ls_submission_ref record
  | AcceptedButUnconfirmed (Some record) pending_ref =>
      "member accepted but unconfirmed with submission ref " +:+ ls_submission_ref record +:+
      " and pending ref " +:+ pending_ref
  | AcceptedButUnconfirmed None pending_ref =>
      "member accepted but unconfirmed with pending ref " +:+ pending_ref
  | RejectedDefinitive reason => reason
  | Ambiguous pending_ref reason => reason +:+ " (pending ref " +:+ pending_ref +:+ ")"
  end.

Definition outcome_anchor_ref (o : LiveSubmitOutcome) : option string :=
  match o with
  | Accepted record => Some (ls_submission_ref record)
  | AcceptedButUnconfirmed (Some record) _ => Some (ls_submission_ref record)
  | AcceptedButUnconfirmed None pending_ref => Some pending_ref
  | RejectedDefinitive _ | Ambiguous _ _ => None
  end.

Definition aggregation_new (total_members : nat) : FamilySubmitAggregation :=
  {| fs_total_members := total_members; fs_success_count := 0; fs_first_success := None;
     fs_first_failure := None |}.

Definition aggregation_record (a : FamilySubmitAggregation)
    (r : result SubmitProviderError LiveSubmitOutcome) : FamilySubmitAggregation :=
  let failed f :=
    {| fs_total_members := fs_total_members a; fs_success_count := fs_success_count a;
       fs_first_success := fs_first_success a;
       fs_first_failure := or_else (fs_first_failure a) (Some f) |} in
  match r with
  | Ok o =>
      if is_accepted o then
        {| fs_total_members := fs_total_members a;
           fs_success_count := S (fs_success_count a);
           fs_first_success := or_else (fs_first_success a) (Some o);
           fs_first_failure := fs_first_failure a |}
      else failed (FailureOutcome (outcome_reason o))
  | Err e => failed (FailureError (spe_reason e))
  end.

Definition failure_reason (f : FamilySubmitFailure) : string :=
  match f with FailureOutcome reason | FailureError reason => reason end.

Definition aggregation_finish (a : FamilySubmitAggregation) :
    outcome (result SubmitProviderError LiveSubmitOutcome) :=
  if bool_decide (fs_total_members a = 0)%nat then
    Returns (submit_error "polymarket live submit requires at least one signed family member")
  else if bool_decide (fs_success_count a = fs_total_members a) then
    first ← expect (fs_first_success a); Returns (Ok first)
  else if bool_decide (0 < fs_success_count a)%nat then
    first ← expect (fs_first_success a);
    pending_ref ← expect (outcome_anchor_ref first);
    let reason := match fs_first_failure a with
                  | Some f => failure_reason f
                  | None => "family submit failed after partial success"
                  end in
    Returns (Ok (Ambiguous pending_ref
      ("submitted " +:+ pretty (fs_success_count a) +:+ "/" +:+ pretty (fs_total_members a) +:+
       " polymarket family members before failure: " +:+ reason)))
  else
    Returns match fs_first_failure a with
            | Some (FailureOutcome reason) => Ok (RejectedDefinitive reason)
            | Some (FailureError reason) => submit_error reason
            | None => submit_error "polymarket live submit failed without capturing a member result"
            end.

(** ** The provider *)

Record PolymarketNegRiskSubmitProvider := {
  sp_gateway : PolymarketGateway X World;
  sp_runtime_handle : option RuntimeHandle;
  sp_transport : PostOrderTransport;
}.

Definition submit_with_gateway (transport : PostOrderTransport)
    (gateway : PolymarketGateway X World) : PolymarketNegRiskSubmitProvider :=
  {| sp_gateway := gateway; sp_runtime_handle := None; sp_transport := transport |}.

Definition submit_with_gateway_runtime (transport : PostOrderTransport)
    (gateway : PolymarketGateway X World) (handle : RuntimeHandle) :
    PolymarketNegRiskSubmitProvider :=
  {| sp_gateway := gateway; sp_runtime_handle := Some handle; sp_transport := transport |}.

(** What is sent for a member, before the gateway is called. *)
Definition member_order (transport : PostOrderTransport) (m : SignedFamilyMember) :
    result SubmitProviderError PolymarketSignedOrder :=
  submission ← map_err (λ e, {| spe_reason := "order build error: " +:+
                                  debug_post_order_build_error e |})
                 (build_post_order_request_from_signed_member m transport);
  map_err (λ e, {| spe_reason := e |}) (polymarket_signed_order_from_submission submission).

Definition submit_member_async (p : PolymarketNegRiskSubmitProvider)
    (attempt : ExecutionAttemptContext) (m : SignedFamilyMember) (w : World) :
    World * result SubmitProviderError LiveSubmitOutcome :=
  match member_order (sp_transport p) m with
  | Err e => (w, Err e)
  | Ok order =>
      match submit_order (sp_gateway p) order w with
      | (w, Err e) => (w, submit_error ("submit gateway error: " +:+ gateway_error_text e))
      | (w, Ok response) =>
          (w, submit_order_response_to_outcome (submit_order_response_from_gateway response)
                attempt)
      end
  end.

Definition submit_member_via_gateway_runtime (p : PolymarketNegRiskSubmitProvider)
    (handle : RuntimeHandle) (attempt : ExecutionAttemptContext) (m : SignedFamilyMember)
    (w : World) : World * result SubmitProviderError LiveSubmitOutcome :=
  match member_order (sp_transport p) m with
  | Err e => (w, Err e)
  | Ok order =>
      match run_on_shared_runtime handle (submit_order (sp_gateway p) order) w with
      | (w, Err e) => (w, submit_error ("submit shared runtime error: " +:+ e))
      | (w, Ok (Err e)) => (w, submit_error ("submit gateway error: " +:+ gateway_error_text e))
      | (w, Ok (Ok response)) =>
          (w, submit_order_response_to_outcome (submit_order_response_from_gateway response)
                attempt)
      end
  end.

(** The loop over the members. *)
Fixpoint submit_members
    (submit : SignedFamilyMember → World → World * result SubmitProviderError LiveSubmitOutcome)
    (members : list SignedFamilyMember) (a : FamilySubmitAggregation) (w : World) :
    World * FamilySubmitAggregation :=
  match members with
  | [] => (w, a)
  | m :: members' =>
      let '(w, r) := submit m w in submit_members submit members' (aggregation_record a r) w
  end.

Definition submit_members_of
    (submit : SignedFamilyMember → World → World * result SubmitProviderError LiveSubmitOutcome)
    (signed : SignedFamilySubmission) (w : World) :
    World * outcome (result SubmitProviderError LiveSubmitOutcome) :=
  let '(w, a) := submit_members submit (sf_members signed)
                   (aggregation_new (length (sf_members signed))) w in
  (w, aggregation_finish a).

Definition submit_family_async (p : PolymarketNegRiskSubmitProvider)
    (signed : SignedFamilySubmission) (attempt : ExecutionAttemptContext) :=
  submit_members_of (submit_member_async p attempt) signed.

Definition submit_family_via_gateway_runtime (p : PolymarketNegRiskSubmitProvider)
    (handle : RuntimeHandle) (signed : SignedFamilySubmission)
    (attempt : ExecutionAttemptContext) :=
  submit_members_of (submit_member_via_gateway_runtime p handle attempt) signed.

Definition polymarket_submit_family (p : PolymarketNegRiskSubmitProvider)
    (signed : SignedFamilySubmission) (attempt : ExecutionAttemptContext) (w : World) :
    World * outcome (result SubmitProviderError LiveSubmitOutcome) :=
  if bool_decide (1 < length (sf_members signed))%nat then
    (w, Returns (submit_error "polymarket live submit requires a single signed family member"))
  else
    match sp_runtime_handle p with
    | Some handle => submit_family_via_gateway_runtime p handle signed attempt w
    | None => submit_family_async p signed attempt w
    end.

(** ** Reconciling *)

Record PolymarketNegRiskReconcileProvider := {
  rp_gateway : PolymarketGateway X World;
  rp_runtime_handle : option RuntimeHandle;
  rp_relayer_auth : RelayerAuth;
}.

Definition reconcile_with_gateway (auth : RelayerAuth) (gateway : PolymarketGateway X World) :
    PolymarketNegRiskReconcileProvider :=
  {| rp_gateway := gateway; rp_runtime_handle := None; rp_relayer_auth := auth |}.

Definition reconcile_with_gateway_runtime (auth : RelayerAuth)
    (gateway : PolymarketGateway X World) (handle : RuntimeHandle) :
    PolymarketNegRiskReconcileProvider :=
  {| rp_gateway := gateway; rp_runtime_handle := Some handle; rp_relayer_auth := auth |}.

Inductive PendingRefTarget := TxTarget (tx_ref : string) | OrderTarget (order_id : string).

Definition parse_pending_ref (pending_ref : string) :
    result ReconcileProviderError PendingRefTarget :=
  match split_once ":" pending_ref with
  | None => reconcile_error ("unsupported pending_ref without namespace: " +:+ pending_ref)
  | Some (namespace, value) =>
      let value := trim value in
      if bool_decide (value = "") then
        reconcile_error ("pending_ref missing value: " +:+ pending_ref)
      else if bool_decide (namespace = "tx") then Ok (TxTarget value)
      else if bool_decide (namespace = "order") then Ok (OrderTarget value)
      else reconcile_error ("unsupported pending_ref namespace " +:+ namespace)
  end.

(** What the relayer's transactions say of a submission. *)
Definition judge_transactions (work : PendingReconcileWork) (tx_ref : string)
    (transactions : list RelayerTransaction) : ReconcileOutcome :=
  let matching := List.filter (λ t, matches_pending_ref t tx_ref) transactions in
  if bool_decide (matching = []) || existsb state_is_pending_or_unknown matching then StillPending
  else if existsb state_is_confirmed matching then ConfirmedAuthoritative tx_ref
  else if existsb state_is_terminal matching then
    NeedsRecovery (pw_pending_ref work) "relayer transaction reached a terminal state"
  else StillPending.

Definition judge_open_orders (order_id : string) (orders : list PolymarketOpenOrderSummary) :
    ReconcileOutcome :=
  if existsb (λ o, bool_decide (oo_order_id o = order_id)) orders
  then ConfirmedAuthoritative order_id else StillPending.

Definition reconcile_tx_ref (p : PolymarketNegRiskReconcileProvider)
    (work : PendingReconcileWork) (tx_ref : string) (w : World) :
    World * result ReconcileProviderError ReconcileOutcome :=
  match recent_transactions (rp_gateway p) (rp_relayer_auth p) w with
  | (w, Err e) => (w, reconcile_error ("relayer status error: " +:+ gateway_error_text e))
  | (w, Ok transactions) => (w, Ok (judge_transactions work tx_ref transactions))
  end.

Definition reconcile_order_ref (p : PolymarketNegRiskReconcileProvider) (order_id : string)
    (w : World) : World * result ReconcileProviderError ReconcileOutcome :=
  match open_orders (rp_gateway p) OpenOrders w with
  | (w, Err e) => (w, reconcile_error ("open orders status error: " +:+ gateway_error_text e))
  | (w, Ok orders) => (w, Ok (judge_open_orders order_id orders))
  end.

Definition reconcile_live_async (p : PolymarketNegRiskReconcileProvider)
    (work : PendingReconcileWork) (w : World) :
    World * result ReconcileProviderError ReconcileOutcome :=
  match parse_pending_ref (pw_pending_ref work) with
  | Err e => (w, Err e)
  | Ok (TxTarget tx_ref) => reconcile_tx_ref p work tx_ref w
  | Ok (OrderTarget order_id) => reconcile_order_ref p order_id w
  end.

Definition reconcile_tx_ref_via_gateway_runtime (p : PolymarketNegRiskReconcileProvider)
    (handle : RuntimeHandle) (work : PendingReconcileWork) (tx_ref : string) (w : World) :
    World * result ReconcileProviderError ReconcileOutcome :=
  match run_on_shared_runtime handle
          (recent_transactions (rp_gateway p) (rp_relayer_auth p)) w with
  | (w, Err e) => (w, reconcile_error ("relayer status error: " +:+ e))
  | (w, Ok (Err e)) => (w, reconcile_error ("relayer status error: " +:+ gateway_error_text e))
  | (w, Ok (Ok transactions)) => (w, Ok (judge_transactions work tx_ref transactions))
  end.

Definition reconcile_order_ref_via_gateway_runtime (p : PolymarketNegRiskReconcileProvider)
    (handle : RuntimeHandle) (order_id : string) (w : World) :
    World * result ReconcileProviderError ReconcileOutcome :=
  match run_on_shared_runtime handle (open_orders (rp_gateway p) OpenOrders) w with
  | (w, Err e) => (w, reconcile_error ("open orders status error: " +:+ e))
  | (w, Ok (Err e)) => (w, reconcile_error ("open orders status error: " +:+ gateway_error_text e))
  | (w, Ok (Ok orders)) => (w, Ok (judge_open_orders order_id orders))
  end.

Definition reconcile_live_via_gateway_runtime (p : PolymarketNegRiskReconcileProvider)
    (handle : RuntimeHandle) (work : PendingReconcileWork) (w : World) :
    World * result ReconcileProviderError ReconcileOutcome :=
  match parse_pending_ref (pw_pending_ref work) with
  | Err e => (w, Err e)
  | Ok (TxTarget tx_ref) => reconcile_tx_ref_via_gateway_runtime p handle work tx_ref w
  | Ok (OrderTarget order_id) => reconcile_order_ref_via_gateway_runtime p handle order_id w
  end.

Definition polymarket_reconcile_provider (p : PolymarketNegRiskReconcileProvider) :
    ReconcileProvider :=
  {| reconcile_live work w :=
       match rp_runtime_handle p with
       | Some handle => reconcile_live_via_gateway_runtime p handle work w
       | None => reconcile_live_async p work w
       end |}.
End submit.
Arguments RuntimeHandle : clear implicits.
