(* ===== verification/Metadata.v ===== *)
(** * Neg-risk metadata discovery

    [venue-polymarket/src/metadata.rs]: the pages of the venue's event listing as
    canonical rows, their hash, and the cache of the last snapshot. The loop that reads
    pages until an empty one comes back is given fuel: [None] is a listing that has not
    ended after that many pages. *)

From Stdlib Require Import Ascii.
From S2P Require Import Prelude Text RecordSet Externals Domain Plans NegRisk.
From S2P Require Import WsMessages AppConfig Gateway.

Definition neg_risk_page_limit : Z := 100.
Definition neg_risk_page_max_attempts : nat := 2.

(** ** Rows *)

Record CanonicalNegRiskRow := {
  cr_event_family_id : string;
  cr_event_id : string;
  cr_condition_id : string;
  cr_token_id : string;
  cr_outcome_label : string;
  cr_route : MarketRoute;
  cr_enable_neg_risk : option bool;
  cr_neg_risk_augmented : option bool;
  cr_neg_risk_variant : NegRiskVariant;
  cr_is_placeholder : bool;
  cr_is_other : bool;
}.
#[export] Instance CanonicalNegRiskRow_eq_dec : EqDecision CanonicalNegRiskRow.
Proof. solve_decision. Defined.

Definition into_public (r : CanonicalNegRiskRow) (discovery_revision : Z)
    (metadata_snapshot_hash : string) : NegRiskMarketMetadata :=
  {| mm_event_family_id := cr_event_family_id r; mm_event_id := cr_event_id r;
     mm_condition_id := cr_condition_id r; mm_token_id := cr_token_id r;
     mm_outcome_label := cr_outcome_label r; mm_route := cr_route r;
     mm_enable_neg_risk := cr_enable_neg_risk r;
     mm_neg_risk_augmented := cr_neg_risk_augmented r;
     mm_neg_risk_variant := cr_neg_risk_variant r; mm_is_placeholder := cr_is_placeholder r;
     mm_is_other := cr_is_other r; mm_discovery_revision := discovery_revision;
     mm_metadata_snapshot_hash := metadata_snapshot_hash |}.

Definition row_order (left right : CanonicalNegRiskRow) : comparison :=
  cmp_on (λ r, (cr_event_id r, (cr_condition_id r, (cr_token_id r, cr_outcome_label r))))
    (cmp_lex str_cmp (cmp_lex str_cmp (cmp_lex str_cmp str_cmp))) left right.

Definition canonicalize_rows (rows : list CanonicalNegRiskRow) : list CanonicalNegRiskRow :=
  sort_by row_order rows.

(** [NegRiskMemberKey] *)
Definition row_member_key (r : CanonicalNegRiskRow) : string * string * string :=
  (cr_event_family_id r, cr_condition_id r, cr_token_id r).

(** ** The hash of a snapshot *)

Definition market_route_label (r : MarketRoute) : string :=
  match r with Standard => "standard" | NegRisk => "negrisk" end.
Definition neg_risk_variant_label (v : NegRiskVariant) : string :=
  match v with
  | StandardVariant => "standard" | Augmented => "augmented" | UnknownVariant => "unknown" end.
Definition optional_bool_label (b : option bool) : string :=
  match b with Some true => "true" | Some false => "false" | None => "null" end.
Definition bool_label (b : bool) : string := if b then "true" else "false".

Definition nibble_to_hex (value : Z) : ascii :=
  ascii_of_nat (Z.to_nat (if bool_decide (value <= 9) then 48 + value else 97 + (value - 10))).

Definition hex_digest (bytes : list Z) : string :=
  foldr (λ byte s, String (nibble_to_hex (Z.shiftr byte 4))
                     (String (nibble_to_hex (Z.land byte 15)) s)) "" bytes.

Definition hash_field (value : string) : string := value +:+ String (ascii_of_nat 31) "".

Definition row_bytes (r : CanonicalNegRiskRow) : string :=
  hash_field (cr_event_family_id r) +:+ hash_field (cr_event_id r) +:+
  hash_field (cr_condition_id r) +:+ hash_field (cr_token_id r) +:+
  hash_field (cr_outcome_label r) +:+ hash_field (market_route_label (cr_route r)) +:+
  hash_field (optional_bool_label (cr_enable_neg_risk r)) +:+
  hash_field (optional_bool_label (cr_neg_risk_augmented r)) +:+
  hash_field (neg_risk_variant_label (cr_neg_risk_variant r)) +:+
  hash_field (bool_label (cr_is_placeholder r)) +:+
  hash_field (bool_label (cr_is_other r)) +:+ String (ascii_of_nat 10) "".

Definition snapshot_hash {X : Externals} (rows : list CanonicalNegRiskRow) : string :=
  "sha256:" +:+ hex_digest (sha256 (foldr (λ r s, row_bytes r +:+ s) "" rows)).

(** ** Text *)

(** [s.split(c)] *)
Fixpoint split_on (c : ascii) (s : string) : list string :=
  match s with
  | EmptyString => [EmptyString]
  | String d s' =>
      if decide (d = c) then EmptyString :: split_on c s'
      else match split_on c s' with
           | p :: ps => String d p :: ps
           | [] => [String d ""]
           end
  end.

(** [s.trim_matches(c)] *)
Fixpoint drop_leading (c : ascii) (s : string) : string :=
  match s with
  | EmptyString => EmptyString
  | String d s' => if decide (d = c) then drop_leading c s' else s
  end.
Fixpoint drop_trailing (c : ascii) (s : string) : string :=
  match s with
  | EmptyString => EmptyString
  | String d s' =>
      match drop_trailing c s' with
      | EmptyString => if decide (d = c) then EmptyString else String d EmptyString
      | s'' => String d s''
      end
  end.
Definition trim_matches (c : ascii) (s : string) : string := drop_trailing c (drop_leading c s).

Definition nonempty (s : string) : bool := negb (bool_decide (s = "")).

Definition normalized_optional_string (value : option string) : option string :=
  entry ← value; let entry := trim entry in if nonempty entry then Some entry else None.

Definition is_binary_outcome_label (value : string) : bool :=
  bool_decide (to_ascii_lowercase (trim value) ∈ ["yes"; "no"]).

Definition classify_variant (is_neg_risk : bool) (enable_neg_risk neg_risk_augmented : option bool) :
    NegRiskVariant :=
  if negb is_neg_risk then UnknownVariant
  else if bool_decide (enable_neg_risk = Some true) && bool_decide (neg_risk_augmented = Some true)
  then Augmented else StandardVariant.

Section metadata.
Context {X : Externals} {W : WireOps}.

Definition parse_string_list (value : string) : list string :=
  let trimmed := trim value in
  if bool_decide (trimmed = "") then []
  else
    let by_commas :=
      List.filter nonempty
        ((λ entry, trim_matches (ascii_of_nat 34) (trim entry)) <$> split_on "," trimmed) in
    if starts_with_char "[" trimmed then
      match v ← value_from_str trimmed; value_list value_string v with
      | Some values => List.filter nonempty (trim <$> values)
      | None => by_commas
      end
    else by_commas.

Definition into_vec (l : FlexibleStringList) : list string :=
  match l with Values values => values | TextList text => parse_string_list text end.

Definition yes_token_id (m : GammaMarket) : option string :=
  normalized_optional_string (hd_error (into_vec (gm_clob_token_ids m))).

Definition outcome_label (m : GammaMarket) (event_title : option string) : string :=
  let candidates :=
    option_list (gm_group_item_title m) ++ option_list (gm_title m) ++
    option_list (gm_question m) ++
    List.filter (λ v, negb (is_binary_outcome_label v)) (into_vec (gm_short_outcomes m)) ++
    List.filter (λ v, negb (is_binary_outcome_label v)) (into_vec (gm_outcomes m)) in
  default ""
    (List.find (λ entry,
       nonempty entry && negb (is_binary_outcome_label entry) &&
       match event_title with
       | None => true
       | Some title => negb (eq_ignore_ascii_case entry (trim title))
       end) (trim <$> candidates)).

(** ** Discovery *)

Record DiscoveryState := {
  ds_rows : list CanonicalNegRiskRow;
  ds_seen : gmap (string * string * string) nat;
  ds_skipped_malformed_rows : Z;
}.

Definition discovery_start : DiscoveryState :=
  {| ds_rows := []; ds_seen := ∅; ds_skipped_malformed_rows := 0 |}.

Definition skip_rows (n : Z) (st : DiscoveryState) : DiscoveryState :=
  {| ds_rows := ds_rows st; ds_seen := ds_seen st;
     ds_skipped_malformed_rows := u64_add (ds_skipped_malformed_rows st) n |}.

Definition market_is_neg_risk (event : GammaEvent) (market : GammaMarket) : bool :=
  default false (gv_neg_risk event) || default false (gm_neg_risk market).

Definition event_row (event : GammaEvent) (family_id event_id condition_id token_id : string)
    (market : GammaMarket) : CanonicalNegRiskRow :=
  let label := outcome_label market (gv_title event) in
  {| cr_event_family_id := family_id; cr_event_id := event_id;
     cr_condition_id := condition_id; cr_token_id := token_id; cr_outcome_label := label;
     cr_route := NegRisk; cr_enable_neg_risk := gv_enable_neg_risk event;
     cr_neg_risk_augmented := gv_neg_risk_augmented event;
     cr_neg_risk_variant :=
       classify_variant (market_is_neg_risk event market) (gv_enable_neg_risk event)
         (gv_neg_risk_augmented event);
     cr_is_placeholder := bool_decide (label = "") || eq_ignore_ascii_case label "placeholder";
     cr_is_other := default false (gm_neg_risk_other market) ||
                    eq_ignore_ascii_case label "other" |}.

(** A row is added once; the same member again must be the same row. *)
Definition add_row (row : CanonicalNegRiskRow) (st : DiscoveryState) :
    outcome (result NegRiskMetadataError DiscoveryState) :=
  match ds_seen st !! row_member_key row with
  | Some existing_index =>
      existing ← expect (ds_rows st !! existing_index);
      Returns
        (if bool_decide (existing = row) then Ok st
         else Err (ConflictingDuplicateRow (cr_event_family_id row) (cr_condition_id row)
                     (cr_token_id row) (cr_outcome_label existing) (cr_outcome_label row)))
  | None =>
      Returns (Ok {| ds_rows := ds_rows st ++ [row];
                     ds_seen := <[row_member_key row := length (ds_rows st)]> (ds_seen st);
                     ds_skipped_malformed_rows := ds_skipped_malformed_rows st |})
  end.

Definition discover_market (event : GammaEvent) (family_id event_id : string)
    (st : DiscoveryState) (market : GammaMarket) :
    outcome (result NegRiskMetadataError DiscoveryState) :=
  if negb (market_is_neg_risk event market) then Returns (Ok st)
  else
    match normalized_optional_string (gm_condition_id market) with
    | None => Returns (Ok (skip_rows 1 st))
    | Some condition_id =>
        match yes_token_id market with
        | None => Returns (Ok (skip_rows 1 st))
        | Some token_id => add_row (event_row event family_id event_id condition_id token_id market) st
        end
    end.

Definition event_family_of (event : GammaEvent) (event_id : string) : string :=
  default event_id (normalized_optional_string (gv_parent_event_id event)).

Definition discover_event (st : DiscoveryState) (event : GammaEvent) :
    outcome (result NegRiskMetadataError DiscoveryState) :=
  match normalized_optional_string (gv_id event) with
  | None =>
      Returns (Ok (skip_rows
        (Z.max (Z.of_nat (length (List.filter (market_is_neg_risk event) (gv_markets event)))) 1)
        st))
  | Some event_id =>
      try_outcome_fold (discover_market event (event_family_of event event_id) event_id) st
        (gv_markets event)
  end.

Record NegRiskDiscovery := {
  nd_rows : list CanonicalNegRiskRow;
  nd_metadata_snapshot_hash : string;
}.

(** What follows the loop. *)
Definition discovery_finish (st : DiscoveryState) : result NegRiskMetadataError NegRiskDiscovery :=
  if bool_decide (ds_rows st = []) && bool_decide (0 < ds_skipped_malformed_rows st) then
    Err (NoValidRowsAfterFiltering (ds_skipped_malformed_rows st))
  else
    let rows := canonicalize_rows (ds_rows st) in
    Ok {| nd_rows := rows; nd_metadata_snapshot_hash := snapshot_hash rows |}.

Section pages.
Context {World E : Type}.
Variable fetch : Z → World → World * outcome (result E (list GammaEvent)).
Variable inject : NegRiskMetadataError → E.

Fixpoint discover_pages (fuel : nat) (offset : Z) (st : DiscoveryState) (w : World) :
    World * option (outcome (result E NegRiskDiscovery)) :=
  match fuel with
  | O => (w, None)
  | S fuel =>
      match fetch offset w with
      | (w, Panics) => (w, Some Panics)
      | (w, Returns (Err e)) => (w, Some (Returns (Err e)))
      | (w, Returns (Ok page)) =>
          match try_outcome_fold discover_event st page with
          | Panics => (w, Some Panics)
          | Returns (Err e) => (w, Some (Returns (Err (inject e))))
          | Returns (Ok st) =>
              if bool_decide (page = []) then
                (w, Some (Returns (map_err inject (discovery_finish st))))
              else discover_pages fuel (u64_add offset neg_risk_page_limit) st w
          end
      end
  end.

Definition discover_rows (fuel : nat) (w : World) :
    World * option (outcome (result E NegRiskDiscovery)) :=
  discover_pages fuel 0 discovery_start w.
End pages.

(** ** The cache *)

Record NegRiskDiscoverySnapshot := {
  ns_discovery_revision : Z;
  ns_metadata_snapshot_hash : string;
  ns_rows : list NegRiskMarketMetadata;
}.

Record NegRiskMetadataCache := {
  nc_current : option NegRiskDiscoverySnapshot;
  nc_history : list NegRiskDiscoverySnapshot;
}.

Definition metadata_cache_default : NegRiskMetadataCache :=
  {| nc_current := None; nc_history := [] |}.

Definition next_discovery_revision (cache : NegRiskMetadataCache) : Z :=
  match nc_current cache with
  | Some snapshot => i64_add (ns_discovery_revision snapshot) 1
  | None => 1
  end.

Definition publish_discovery (d : NegRiskDiscovery) (cache : NegRiskMetadataCache) :
    NegRiskMetadataCache * NegRiskDiscoverySnapshot :=
  let revision := next_discovery_revision cache in
  let snapshot :=
    {| ns_discovery_revision := revision;
       ns_metadata_snapshot_hash := nd_metadata_snapshot_hash d;
       ns_rows := (λ row, into_public row revision (nd_metadata_snapshot_hash d)) <$> nd_rows d |} in
  ({| nc_current := Some snapshot;
      nc_history := nc_history cache ++ option_list (nc_current cache) |}, snapshot).

Section refresh.
Context {World : Type}.

(** A refresh holds the lock from its first page to the update of the cache: no other
    refresh of the same client comes in between. *)
Definition refresh_with {E} (d : World * option (outcome (result E NegRiskDiscovery)))
    (cache : NegRiskMetadataCache) :
    NegRiskMetadataCache * World * option (outcome (result E NegRiskDiscoverySnapshot)) :=
  match d with
  | (w, Some (Returns (Ok d))) =>
      let '(cache, snapshot) := publish_discovery d cache in
      (cache, w, Some (Returns (Ok snapshot)))
  | (w, Some (Returns (Err e))) => (cache, w, Some (Returns (Err e)))
  | (w, Some Panics) => (cache, w, Some Panics)
  | (w, None) => (cache, w, None)
  end.

Inductive MetadataApiRefreshError :=
| RefreshGateway (e : PolymarketGatewayError)
| RefreshMetadata (e : NegRiskMetadataError).

(** [discover_neg_risk_metadata_rows_from_api]: the pages through the metadata interface. *)
Definition discover_from_api (api : PolymarketMetadataApi World) (fuel : nat) (w : World) :
    World * option (outcome (result MetadataApiRefreshError NegRiskDiscovery)) :=
  discover_rows
    (λ offset w, let '(w, r) := metadata_page api offset neg_risk_page_limit w in
                 (w, Returns (map_err RefreshGateway r)))
    RefreshMetadata fuel w.

Definition refresh_from_api_inner (api : PolymarketMetadataApi World) (fuel : nat)
    (cache : NegRiskMetadataCache) (w : World) :
    NegRiskMetadataCache * World *
    option (outcome (result MetadataApiRefreshError NegRiskDiscoverySnapshot)) :=
  refresh_with (discover_from_api api fuel w) cache.

Definition map_gateway_metadata_refresh_error (e : MetadataApiRefreshError) :
    PolymarketGatewayError :=
  match e with RefreshGateway e => e | RefreshMetadata e => metadata_error_as_gateway e end.

Definition map_legacy_metadata_refresh_error (e : MetadataApiRefreshError) : RestError :=
  match e with RefreshGateway e => RestGateway e | RefreshMetadata e => RestMetadata e end.

(** The rows of a refresh, with its errors renamed. *)
Definition refreshed_rows {E F} (f : E → F)
    (r : NegRiskMetadataCache * World * option (outcome (result E NegRiskDiscoverySnapshot))) :
    NegRiskMetadataCache * World * option (outcome (result F (list NegRiskMarketMetadata))) :=
  (r.1, (λ o, r ← o; Returns (snapshot ← map_err f r; Ok (ns_rows snapshot))) <$> r.2).

Definition refresh_neg_risk_metadata_from_api (api : PolymarketMetadataApi World) (fuel : nat)
    (cache : NegRiskMetadataCache) (w : World) :=
  refreshed_rows map_gateway_metadata_refresh_error (refresh_from_api_inner api fuel cache w).

Definition refresh_for_legacy_shell (api : PolymarketMetadataApi World) (fuel : nat)
    (cache : NegRiskMetadataCache) (w : World) :=
  refreshed_rows map_legacy_metadata_refresh_error (refresh_from_api_inner api fuel cache w).

(** [PolymarketGateway::refresh_neg_risk_metadata] *)
Definition gateway_refresh_neg_risk_metadata (g : PolymarketGateway X World) (fuel : nat)
    (cache : NegRiskMetadataCache) (w : World) :
    NegRiskMetadataCache * World *
    option (outcome (result PolymarketGatewayError (list NegRiskMarketMetadata))) :=
  match metadata_api g with
  | Err e => (cache, w, Some (Returns (Err e)))
  | Ok api => refresh_neg_risk_metadata_from_api api fuel cache w
  end.

(** ** The REST client

    [rest_get_events] builds the request for the path [events] of the data host with a
    query and reads the answer. *)
Record PolymarketRestClient := {
  rest_metadata_api : option (PolymarketMetadataApi World);
  rest_get_events : list (string * string) → World → World * result RestError (list GammaEvent);
}.

Definition page_query (offset : Z) : list (string * string) :=
  [("active", "true"); ("closed", "false"); ("limit", pretty neg_risk_page_limit);
   ("offset", pretty offset)].

Fixpoint page_attempts (client : PolymarketRestClient) (offset : Z) (attempts : list nat)
    (last_error : option RestError) (w : World) :
    World * outcome (result RestError (list GammaEvent)) :=
  match attempts with
  | [] => (w, e ← expect last_error; Returns (Err e))
  | attempt :: attempts' =>
      match rest_get_events client (page_query offset) w with
      | (w, Ok page) => (w, Returns (Ok page))
      | (w, Err e) =>
          if bool_decide (attempt + 1 < neg_risk_page_max_attempts)%nat &&
             is_retryable_metadata_error e
          then page_attempts client offset attempts' (Some e) w
          else (w, Returns (Err e))
      end
  end.

Definition fetch_neg_risk_metadata_page (client : PolymarketRestClient) (offset : Z) (w : World) :
    World * outcome (result RestError (list GammaEvent)) :=
  page_attempts client offset (seq 0 neg_risk_page_max_attempts) None w.

(** [discover_neg_risk_metadata_rows]: the same loop over the client's own pages. *)
Definition discover_rest (client : PolymarketRestClient) (fuel : nat) (w : World) :
    World * option (outcome (result RestError NegRiskDiscovery)) :=
  discover_rows (fetch_neg_risk_metadata_page client) RestMetadata fuel w.

Definition try_fetch_neg_risk_metadata_rows (client : PolymarketRestClient) (fuel : nat)
    (cache : NegRiskMetadataCache) (w : World) :
    NegRiskMetadataCache * World * option (outcome (result RestError (list NegRiskMarketMetadata))) :=
  match rest_metadata_api client with
  | Some api => refresh_for_legacy_shell api fuel cache w
  | None => refreshed_rows id (refresh_with (discover_rest client fuel w) cache)
  end.

(** A failed refresh falls back on the last snapshot. *)
Definition fetch_neg_risk_metadata_rows (client : PolymarketRestClient) (fuel : nat)
    (cache : NegRiskMetadataCache) (w : World) :
    NegRiskMetadataCache * World * option (outcome (result RestError (list NegRiskMarketMetadata))) :=
  match try_fetch_neg_risk_metadata_rows client fuel cache w with
  | (cache, w, Some (Returns (Err e))) =>
      (cache, w, Some (Returns match nc_current cache with
                               | Some snapshot => Ok (ns_rows snapshot)
                               | None => Err e
                               end))
  | r => r
  end.

(** ** Lemmas *)

(** The two attempts never exhaust the loop: its panic is not reached. *)
Lemma fetch_page_cases client offset w :
  fetch_neg_risk_metadata_page client offset w =
  match rest_get_events client (page_query offset) w with
  | (w, Ok page) => (w, Returns (Ok page))
  | (w, Err e) =>
      if is_retryable_metadata_error e then
        let '(w, r) := rest_get_events client (page_query offset) w in (w, Returns r)
      else (w, Returns (Err e))
  end.
Proof.
  unfold fetch_neg_risk_metadata_page, neg_risk_page_max_attempts. simpl.
  destruct (rest_get_events client (page_query offset) w) as [w1 [page|e]]; [done|].
  destruct (is_retryable_metadata_error e); [|done].
  destruct (rest_get_events client (page_query offset) w1) as [w2 [page|e2]]; done.
Qed.
End refresh.
End metadata.
