(* ===== verification/Tasks.v ===== *)
(** * Task groups

    [app-live/src/task_groups.rs], the heartbeat source of [source_tasks.rs] and the
    follow-up queue of [queues.rs]: what turns heartbeats and venue metadata into the
    inputs of the runtime, and how much follow-up work holds decisions back. *)

From S2P Require Import Prelude RecordSet Externals Domain Facts Store Snapshot.
From S2P Require Import Dispatch Runtime NegRisk Risk Plans Execution LiveRecords WsMessages VenueSessions.

(** ** queues.rs: follow-up work *)

Inductive FollowUpWork :=
| FollowUpPendingReconcile (scope_id pending_ref reason : string)
| FollowUpRecovery (scope_id reason : string).

Definition FollowUpQueue : Type := list FollowUpWork.

Definition follow_up_push (q : FollowUpQueue) (work : FollowUpWork) : FollowUpQueue := q ++ [work].
Definition follow_up_pop_front (q : FollowUpQueue) : FollowUpQueue * option FollowUpWork :=
  match q with [] => ([], None) | work :: q => (q, Some work) end.
Definition follow_up_len (q : FollowUpQueue) : nat := length q.
Definition follow_up_is_empty (q : FollowUpQueue) : bool := bool_decide (q = []).

(** ** Decisions *)

Record DecisionTickResult := {
  dr_suppressed : bool;
  dr_follow_up_backlog : nat;
  dr_snapshot_id : option string;
}.

Definition DecisionTaskGroup : Type := FollowUpQueue.

Definition seed_pending_reconcile (g : DecisionTaskGroup) (scope_id : string) :
    DecisionTaskGroup :=
  follow_up_push g (FollowUpPendingReconcile scope_id ("pending-" +:+ scope_id)
                      "seeded follow-up backlog").

Definition decision_tick (g : DecisionTaskGroup) (notice : SnapshotNotice) : DecisionTickResult :=
  {| dr_suppressed := negb (follow_up_is_empty g); dr_follow_up_backlog := follow_up_len g;
     dr_snapshot_id := Some (sn_snapshot_id notice) |}.

Section tasks.
Context {X : Externals} {C : ClockOps}.

(** ** Heartbeats *)

(** [HeartbeatSource]: asked for a heartbeat, given the last identifier it returned. *)
Class HeartbeatSource (S : Type) := {
  poll : option string → S → S * result string HeartbeatFetchResult;
}.

Record HeartbeatTaskGroup {S : Type} := {
  hg_source : S;
  hg_monitor : OrderHeartbeatMonitor;
  hg_state : OrderHeartbeatState;
  hg_next_journal_seq : Z;
  hg_session_id : string;
  hg_scope_id : string;
  hg_now : DateTime;
}.
Arguments HeartbeatTaskGroup : clear implicits.

Definition heartbeat_attention_kind (r : HeartbeatReconcileReason) : string :=
  match r with
  | MissedHeartbeat => "missed_heartbeat" | InvalidHeartbeat => "invalid_heartbeat" end.

Definition heartbeat_attention_reason (r : HeartbeatReconcileReason) : string :=
  match r with
  | MissedHeartbeat => "heartbeat freshness exceeded threshold"
  | InvalidHeartbeat => "heartbeat response was invalid"
  end.

(** [now] is [Utc::now()] when the group is built. *)
Definition heartbeat_for_runtime {S} (source : S) (run_session_id : string) (now : DateTime) :
    HeartbeatTaskGroup S :=
  {| hg_source := source; hg_monitor := {| hm_max_gap := dur_seconds 30 |};
     hg_state := {| hb_heartbeat_id := None; hb_last_success_at := now;
                    hb_reconcile_attention_since := None; hb_reconcile_reason := None;
                    hb_requires_reconcile_attention := false |};
     hg_next_journal_seq := 1; hg_session_id := run_session_id; hg_scope_id := "runtime";
     hg_now := now |}.

Definition runtime_attention_input {S} (g : HeartbeatTaskGroup S)
    (reason : HeartbeatReconcileReason) (detail : option string) :
    HeartbeatTaskGroup S * InputTaskEvent :=
  let attention_kind := heartbeat_attention_kind reason in
  let message := default (heartbeat_attention_reason reason) detail in
  ({| hg_source := hg_source g; hg_monitor := hg_monitor g; hg_state := hg_state g;
      hg_next_journal_seq := i64_add (hg_next_journal_seq g) 1;
      hg_session_id := hg_session_id g; hg_scope_id := hg_scope_id g; hg_now := hg_now g |},
   input_new (hg_next_journal_seq g)
     (runtime_attention_observed "heartbeat" (hg_session_id g)
        ("heartbeat-attention-" +:+ pretty (hg_next_journal_seq g)) (hg_scope_id g)
        attention_kind message (hg_now g))).

Definition with_source_state {S} (g : HeartbeatTaskGroup S) (source : S)
    (state : OrderHeartbeatState) : HeartbeatTaskGroup S :=
  {| hg_source := source; hg_monitor := hg_monitor g; hg_state := state;
     hg_next_journal_seq := hg_next_journal_seq g; hg_session_id := hg_session_id g;
     hg_scope_id := hg_scope_id g; hg_now := hg_now g |}.

Definition attention_of {S} (g : HeartbeatTaskGroup S)
    (attention : option HeartbeatReconcileReason) (detail : option string) :
    HeartbeatTaskGroup S * option InputTaskEvent :=
  match attention with
  | None => (g, None)
  | Some reason =>
      let '(g, input) := runtime_attention_input g reason detail in (g, Some input)
  end.

(** [tick] never fails: its [Result] is always [Ok]. *)
Definition heartbeat_tick {S} `{!HeartbeatSource S} (g : HeartbeatTaskGroup S) :
    outcome (HeartbeatTaskGroup S * option InputTaskEvent) :=
  match poll (hb_heartbeat_id (hg_state g)) (hg_source g) with
  | (source, Ok result) =>
      let '(state, attention) := record_fetch_result (hg_state g) result (hg_now g) in
      Returns (attention_of (with_source_state g source state) attention None)
  | (source, Err error) =>
      '(state, attention) ← heartbeat_reconcile_trigger (hg_monitor g) (hg_state g) (hg_now g);
      Returns (attention_of (with_source_state g source state) attention (Some error))
  end.

(** source_tasks.rs: the source of the smoke run answers every poll. *)
Record SmokeHeartbeatSource : Type := {}.

#[export] Instance smoke_heartbeat_source : HeartbeatSource SmokeHeartbeatSource := {|
  poll previous_heartbeat_id s :=
    (s, Ok {| hf_heartbeat_id := default "smoke-heartbeat" previous_heartbeat_id;
              hf_valid := true |});
|}.

(** ** Metadata *)

Record MetadataDiscoveryBatch := {
  mb_inputs : list InputTaskEvent;
  mb_rendered_live_targets : LiveTargets;
}.

Definition discovery_input (journal_seq : Z) (source_session_id source_event_id family_id : string)
    (observed_at : DateTime) : InputTaskEvent :=
  input_new journal_seq
    (family_discovery_observed source_session_id source_event_id family_id observed_at).

Definition backfill_input (journal_seq : Z) (source_session_id source_event_id family_id : string)
    (cursor : string) (complete : bool) (observed_at : DateTime) : InputTaskEvent :=
  input_new journal_seq
    (family_backfill_observed source_session_id source_event_id family_id cursor complete
       observed_at).

Definition member_row_order (left right : NegRiskMarketMetadata) : comparison :=
  cmp_on (λ r, (mm_condition_id r, mm_token_id r)) (cmp_lex str_cmp str_cmp) left right.

(** [entry(family).or_default().push(row)] over the rows. *)
Definition group_rows (rows : list NegRiskMarketMetadata) :
    gmap string (list NegRiskMarketMetadata) :=
  foldl (λ grouped row,
           <[mm_event_family_id row :=
               default [] (grouped !! mm_event_family_id row) ++ [row]]> grouped) ∅ rows.

Definition default_member_target (row : NegRiskMarketMetadata) : NegRiskMemberLiveTarget :=
  {| lm_condition_id := mm_condition_id row; lm_token_id := mm_token_id row;
     lm_price := dec_new 43 2; lm_quantity := dec_new 5 0 |}.

(** The body of the loop over the families; the state is the batch and the next number. *)
Definition batch_family (source_session_id : string) (observed_at : DateTime)
    (st : MetadataDiscoveryBatch * Z) (family : string * list NegRiskMarketMetadata) :
    outcome (MetadataDiscoveryBatch * Z) :=
  let '(batch, journal_seq) := st in
  let '(family_id, family_rows) := family in
  let family_rows := sort_by member_row_order family_rows in
  anchor ← expect (hd_error family_rows);
  let discovery_event_id :=
    "metadata-" +:+ mm_metadata_snapshot_hash anchor +:+ "-" +:+ family_id +:+ "-discovery" in
  Returns
    ({| mb_inputs := mb_inputs batch ++
          [discovery_input journal_seq source_session_id discovery_event_id family_id observed_at];
        mb_rendered_live_targets :=
          <[family_id := {| lf_family_id := family_id;
                            lf_members := default_member_target <$> family_rows |}]>
            (mb_rendered_live_targets batch) |},
     i64_add journal_seq 1).

Definition authoritative_discovery_batch (rows : list NegRiskMarketMetadata)
    (source_session_id : string) (observed_at : DateTime) : outcome MetadataDiscoveryBatch :=
  '(batch, _) ← outcome_fold (batch_family source_session_id observed_at)
                  ({| mb_inputs := []; mb_rendered_live_targets := ∅ |}, 1)
                  (btree_entries str_cmp (group_rows rows));
  Returns batch.
End tasks.
Arguments HeartbeatTaskGroup _ _ : clear implicits.
