(* ===== verification/SubmitProofs.v ===== *)
(** * Theorems about submissions

    A family is submitted as its one member is; what a submission leaves pending, the
    reconcile provider can ask for again and confirms only on the venue's word. *)

From Stdlib Require Import Ascii.
From S2P Require Import Prelude Text Externals Json Domain Plans Execution LiveRecords.
From S2P Require Import WsMessages AppConfig Gateway Submit.

(** ** Trimming twice *)

(** What follows a leading white space character. *)
Definition after_white (s : string) : option string :=
  match s with
  | EmptyString => None
  | String a s1 =>
      let n := nat_of_ascii a in
      if bool_decide (9 <= n <= 13)%nat || bool_decide (n = 32)%nat then Some s1
      else
        match s1 with
        | EmptyString => None
        | String b s2 =>
            let m := nat_of_ascii b in
            if bool_decide (n = 194)%nat && (bool_decide (m = 133)%nat || bool_decide (m = 160)%nat)
            then Some s2
            else
              match s2 with
              | EmptyString => None
              | String c s3 =>
                  let k := nat_of_ascii c in
                  if (bool_decide (n = 225 ∧ m = 154 ∧ k = 128)%nat ||
                      bool_decide (n = 226 ∧ m = 128 ∧
                        (128 <= k <= 138 ∨ k = 168 ∨ k = 169 ∨ k = 175))%nat ||
                      bool_decide (n = 226 ∧ m = 129 ∧ k = 159)%nat ||
                      bool_decide (n = 227 ∧ m = 128 ∧ k = 128)%nat)
                  then Some s3 else None
              end
        end
  end.

Lemma trim_start_eq s :
  trim_start s = match after_white s with Some r => trim_start r | None => s end.
Proof. destruct s as [|a s]; [done|]. cbn [trim_start after_white]. repeat case_match; done. Qed.


Lemma after_white_app s t r : after_white s = Some r → after_white (s +:+ t) = Some (r +:+ t).
Proof.
  destruct s as [|a [|b [|c s]]]; rewrite ?append_cons; cbn [after_white]; [done|..];
    repeat case_match; intros [= <-]; done.
Qed.

Lemma after_white_length s r : after_white s = Some r → (String.length r < String.length s)%nat.
Proof.
  destruct s as [|a [|b [|c s]]]; cbn [after_white]; [done|..];
    repeat case_match; intros [= <-]; simpl; lia.
Qed.


Lemma trim_start_fixed s : after_white (trim_start s) = None.
Proof.
  induction s as [s IH] using (induction_ltof1 _ String.length). unfold ltof in IH.
  rewrite trim_start_eq. destruct (after_white s) as [r|] eqn:E; [|done].
  apply IH. by apply after_white_length in E.
Qed.

Lemma blank_app a b : is_blank a = true → is_blank b = true → is_blank (a +:+ b) = true.
Proof.
  unfold is_blank. rewrite !bool_decide_eq_true. intros Ha Hb.
  induction a as [a IH] using (induction_ltof1 _ String.length). unfold ltof in IH.
  rewrite trim_start_eq in Ha. destruct (after_white a) as [r|] eqn:E.
  - rewrite trim_start_eq, (after_white_app _ b _ E).
    apply IH; [by apply after_white_length in E|done].
  - subst a. done.
Qed.

Lemma trim_end_prefix s : ∃ b, s = trim_end s +:+ b ∧ is_blank b = true.
Proof.
  induction s as [|c s IH]; [by exists ""|]. cbn [trim_end].
  destruct (is_blank (String c s)) eqn:E; [by exists (String c s)|].
  destruct IH as (b & Hb & ?). exists b. split; [|done].
  rewrite append_cons. by f_equal.
Qed.

Lemma trim_end_idem s : trim_end (trim_end s) = trim_end s.
Proof.
  induction s as [|c s IH]; [done|]. cbn [trim_end].
  destruct (is_blank (String c s)) eqn:E; [done|]. cbn [trim_end].
  destruct (is_blank (String c (trim_end s))) eqn:E2; [|by rewrite IH].
  destruct (trim_end_prefix s) as (b & Hb & Hblank).
  assert (is_blank (String c s) = true); [|congruence].
  rewrite Hb. change (String c (trim_end s +:+ b)) with (String c (trim_end s) +:+ b).
  by apply blank_app.
Qed.

Lemma trim_idem s : trim (trim s) = trim s.
Proof.
  unfold trim. set (t := trim_start s). destruct (trim_end_prefix t) as (b & Hb & _).
  assert (after_white (trim_end t) = None) as Hn.
  { destruct (after_white (trim_end t)) as [r|] eqn:E; [|done].
    apply (after_white_app _ b) in E. rewrite <- Hb in E. unfold t in E.
    by rewrite trim_start_fixed in E. }
  rewrite trim_start_eq, Hn. apply trim_end_idem.
Qed.

(** ** The aggregation *)

Section submit.
Context {X : Externals} {J : JsonOps} {World : Type}.

Notation SubmitResult := (result SubmitProviderError LiveSubmitOutcome).
Notation SubmitProvider := (PolymarketNegRiskSubmitProvider (World := World)).
Notation ReconcileSide := (PolymarketNegRiskReconcileProvider (World := World)).

(** What a list of results amounts to: the accepted ones and the failures, in order. *)
Definition accepted_of (r : SubmitResult) : option LiveSubmitOutcome :=
  match r with Ok o => if is_accepted o then Some o else None | Err _ => None end.

Definition failure_of (r : SubmitResult) : option FamilySubmitFailure :=
  match r with
  | Ok o => if is_accepted o then None else Some (FailureOutcome (outcome_reason o))
  | Err e => Some (FailureError (spe_reason e))
  end.

Definition family_verdict (rs : list SubmitResult) : SubmitResult :=
  match omap accepted_of rs, omap failure_of rs with
  | [], [] =>
      submit_error "polymarket live submit requires at least one signed family member"
  | o :: _, [] => Ok o
  | o :: os, f :: _ =>
      Ok (Ambiguous (default "" (outcome_anchor_ref o))
        ("submitted " +:+ pretty (length (o :: os)) +:+ "/" +:+ pretty (length rs) +:+
         " polymarket family members before failure: " +:+ failure_reason f))
  | [], FailureOutcome reason :: _ => Ok (RejectedDefinitive reason)
  | [], FailureError reason :: _ => submit_error reason
  end.

Lemma or_else_assoc {A} (a b c : option A) : or_else (or_else a b) c = or_else a (or_else b c).
Proof. by destruct a. Qed.

Lemma hd_error_app {A} (l k : list A) : hd_error (l ++ k) = or_else (hd_error l) (hd_error k).
Proof. by destruct l. Qed.

Lemma records_fold rs a :
  foldl aggregation_record a rs =
  {| fs_total_members := fs_total_members a;
     fs_success_count := fs_success_count a + length (omap accepted_of rs);
     fs_first_success := or_else (fs_first_success a) (hd_error (omap accepted_of rs));
     fs_first_failure := or_else (fs_first_failure a) (hd_error (omap failure_of rs)) |}.
Proof.
  revert a. induction rs as [|r rs IH]; intros a; simpl.
  - destruct a as [t n [] []]; simpl; f_equal; lia.
  - rewrite IH. unfold aggregation_record. destruct r as [o|e]; simpl.
    + destruct (is_accepted o); simpl; rewrite ?or_else_assoc; f_equal; simpl; try done; lia.
    + by rewrite ?or_else_assoc.
Qed.

Lemma accepted_failure_length rs :
  length rs = (length (omap accepted_of rs) + length (omap failure_of rs))%nat.
Proof.
  induction rs as [|[o|e] rs IH]; csimpl; [done| |lia].
  destruct (is_accepted o); csimpl; lia.
Qed.

Lemma accepted_of_anchor rs o :
  hd_error (omap accepted_of rs) = Some o → ∃ ref, outcome_anchor_ref o = Some ref.
Proof.
  intros Ho. assert (o ∈ omap accepted_of rs) as Hin.
  { destruct (omap accepted_of rs); [done|]. injection Ho as ->. left. }
  apply list_elem_of_omap in Hin as ([o'|e] & _ & Hr); [|done]. simpl in Hr.
  destruct (is_accepted o') eqn:E; [|done]. injection Hr as ->.
  destruct o as [r| |[r|] p|]; try done; eauto.
Qed.

Lemma aggregation_verdict rs :
  aggregation_finish (foldl aggregation_record (aggregation_new (length rs)) rs) =
  Returns (family_verdict rs).
Proof.
  rewrite records_fold. unfold aggregation_finish, family_verdict. simpl.
  pose proof (accepted_failure_length rs) as Hlen.
  pose proof (accepted_of_anchor rs) as Hanchor.
  destruct (omap accepted_of rs) as [|o os] eqn:Ha, (omap failure_of rs) as [|f fs] eqn:Hf;
    simpl in *.
  - rewrite bool_decide_true by lia. done.
  - rewrite bool_decide_false by lia. rewrite bool_decide_false by lia. by destruct f.
  - rewrite bool_decide_false by lia. rewrite bool_decide_true by lia. done.
  - rewrite bool_decide_false by lia. rewrite bool_decide_false by lia.
    destruct (Hanchor o eq_refl) as [ref ->]. by rewrite Hlen.
Qed.

(** The results of the members, in order. *)
Fixpoint member_results (submit : SignedFamilyMember → World → World * SubmitResult)
    (members : list SignedFamilyMember) (w : World) : World * list SubmitResult :=
  match members with
  | [] => (w, [])
  | m :: members' =>
      let '(w, r) := submit m w in
      let '(w, rs) := member_results submit members' w in (w, r :: rs)
  end.

Lemma submit_members_results submit members a w :
  submit_members submit members a w =
  ((member_results submit members w).1,
   foldl aggregation_record a (member_results submit members w).2).
Proof.
  revert a w. induction members as [|m members IH]; intros a w; simpl; [done|].
  destruct (submit m w) as [w1 r]. rewrite IH.
  by destruct (member_results submit members w1) as [w2 rs].
Qed.

Lemma member_results_length submit members w :
  length (member_results submit members w).2 = length members.
Proof.
  revert w. induction members as [|m members IH]; intros w; simpl; [done|].
  destruct (submit m w) as [w1 r]. specialize (IH w1).
  destruct (member_results submit members w1) as [w2 rs]. simpl in *. congruence.
Qed.

Lemma submit_members_of_verdict submit signed w :
  submit_members_of submit signed w =
  ((member_results submit (sf_members signed) w).1,
   Returns (family_verdict (member_results submit (sf_members signed) w).2)).
Proof.
  unfold submit_members_of. rewrite submit_members_results.
  rewrite <- (member_results_length submit (sf_members signed) w).
  by rewrite aggregation_verdict.
Qed.

Lemma family_verdict_single r :
  match r with Ok o => is_ambiguous o = false | Err _ => True end → family_verdict [r] = r.
Proof. destruct r as [[]|[]]; simpl; done. Qed.

Lemma single_member_verdict (submit : SignedFamilyMember → World → World * SubmitResult) m w :
  match (submit m w).2 with Ok o => is_ambiguous o = false | Err _ => True end →
  ((member_results submit [m] w).1, Returns (family_verdict (member_results submit [m] w).2)) =
  ((submit m w).1, Returns (submit m w).2).
Proof.
  simpl. destruct (submit m w) as [w' r]. simpl. intros Hd. by rewrite family_verdict_single.
Qed.

(** ** One member *)

Definition submit_member (p : SubmitProvider) (attempt : ExecutionAttemptContext)
    (m : SignedFamilyMember) (w : World) : World * SubmitResult :=
  match sp_runtime_handle p with
  | Some handle => submit_member_via_gateway_runtime p handle attempt m w
  | None => submit_member_async p attempt m w
  end.

Lemma run_on_runtime_up {T} h (task : World → World * T) w :
  handle_runs h → run_on_shared_runtime h task w = ((task w).1, Ok (task w).2).
Proof.
  intros [Hc Hr]. unfold run_on_shared_runtime, ensure_runtime_handle_is_off_thread.
  by rewrite Hc, Hr.
Qed.

Lemma submit_member_up p h attempt m (w : World) :
  handle_runs h →
  submit_member_via_gateway_runtime p h attempt m w = submit_member_async p attempt m w.
Proof.
  intros Hh. unfold submit_member_via_gateway_runtime, submit_member_async.
  destruct (member_order _ m); [|done]. rewrite run_on_runtime_up by done.
  by destruct (submit_order _ _ w) as [w' []].
Qed.

(** An answer of the venue as an outcome: what is recorded of an accepted order. *)
Lemma response_outcome_cases r attempt o :
  submit_order_response_to_outcome r attempt = Ok o →
  match o with
  | Accepted record => record = submission_record_of (sr_order_id r) attempt
  | AcceptedButUnconfirmed record pending_ref =>
      (∃ hash, hash ≠ "" ∧ hash ∈ trim <$> sr_transaction_hashes r ∧
         record = Some (submission_record_of hash attempt) ∧ pending_ref = tx_pending_ref hash) ∨
      (record = Some (submission_record_of (sr_order_id r) attempt) ∧
       pending_ref = order_pending_ref (sr_order_id r))
  | RejectedDefinitive _ => sr_success r = false
  | Ambiguous _ _ => False
  end.
Proof.
  unfold submit_order_response_to_outcome. destruct (sr_success r); simpl.
  - case_bool_decide; [by intros [= <-]|]. case_bool_decide.
    + destruct (List.find _ _) as [hash|] eqn:E; [|done]. intros [= <-]. left.
      apply List.find_some in E as [Hin Hne]. exists hash.
      apply list_elem_of_In in Hin. apply negb_true_iff, bool_decide_eq_false in Hne. done.
    + intros [= <-]. auto.
  - by intros [= <-].
Qed.

Lemma submit_member_cases p attempt m (w w' : World) o :
  submit_member p attempt m w = (w', Ok o) →
  ∃ r, submit_order_response_to_outcome r attempt = Ok o.
Proof.
  unfold submit_member, submit_member_async, submit_member_via_gateway_runtime.
  intros Hs. repeat case_match; simplify_eq; eauto.
Qed.

Lemma submit_member_definite p attempt m (w : World) :
  match (submit_member p attempt m w).2 with Ok o => is_ambiguous o = false | Err _ => True end.
Proof.
  destruct (submit_member p attempt m w) as [w' [o|e]] eqn:E; [|done]. simpl.
  apply submit_member_cases in E as [r E]. apply response_outcome_cases in E. by destruct o.
Qed.

(** ** Pending references *)

Lemma str_no_colon_tx s : split_once ":" (tx_pending_ref s) = Some ("tx", s).
Proof. apply (split_once_append ":" "tx" s). reflexivity. Qed.
Lemma str_no_colon_order s : split_once ":" (order_pending_ref s) = Some ("order", s).
Proof. apply (split_once_append ":" "order" s). reflexivity. Qed.

Definition target_ref (t : PendingRefTarget) : string :=
  match t with TxTarget s | OrderTarget s => s end.

Lemma parse_tx_ref s :
  parse_pending_ref (tx_pending_ref s) =
  if bool_decide (trim s = "") then reconcile_error ("pending_ref missing value: " +:+ tx_pending_ref s)
  else Ok (TxTarget (trim s)).
Proof. unfold parse_pending_ref. rewrite str_no_colon_tx. by case_bool_decide. Qed.

Lemma parse_order_ref s :
  parse_pending_ref (order_pending_ref s) =
  if bool_decide (trim s = "")
  then reconcile_error ("pending_ref missing value: " +:+ order_pending_ref s)
  else Ok (OrderTarget (trim s)).
Proof. unfold parse_pending_ref. rewrite str_no_colon_order. by case_bool_decide. Qed.

(** What the venue must say for a target to be confirmed. *)
Definition venue_confirms (q : ReconcileSide) (target : PendingRefTarget)
    (w w' : World) : Prop :=
  match target with
  | TxTarget tx_ref =>
      ∃ txs, recent_transactions (rp_gateway q) (rp_relayer_auth q) w = (w', Ok txs) ∧
        (∃ t, t ∈ txs ∧ matches_pending_ref t tx_ref = true ∧ state_is_confirmed t = true) ∧
        (∀ t, t ∈ txs → matches_pending_ref t tx_ref = true →
           state_is_pending_or_unknown t = false)
  | OrderTarget order_id =>
      ∃ orders, open_orders (rp_gateway q) OpenOrders w = (w', Ok orders) ∧
        ∃ o, o ∈ orders ∧ oo_order_id o = order_id
  end.

(** The calls of a provider come back. *)
Definition provider_up (q : ReconcileSide) : Prop :=
  match rp_runtime_handle q with Some h => handle_runs h | None => True end.

Lemma judge_confirmed work tx_ref txs ref :
  judge_transactions work tx_ref txs = ConfirmedAuthoritative ref ↔
  ref = tx_ref ∧
  (∃ t, t ∈ txs ∧ matches_pending_ref t tx_ref = true ∧ state_is_confirmed t = true) ∧
  (∀ t, t ∈ txs → matches_pending_ref t tx_ref = true → state_is_pending_or_unknown t = false).
Proof.
  unfold judge_transactions. set (l := List.filter _ txs).
  assert (∀ t, In t l ↔ t ∈ txs ∧ matches_pending_ref t tx_ref = true) as Hl.
  { intros t. unfold l. rewrite List.filter_In, list_elem_of_In. done. }
  destruct (existsb state_is_pending_or_unknown l) eqn:Ep.
  - rewrite orb_true_r. split; [done|]. intros (_ & _ & Hn).
    apply existsb_exists in Ep as (t & Ht & Hp). apply Hl in Ht as [??].
    rewrite Hn in Hp by done. done.
  - rewrite orb_false_r. assert (∀ t, In t l → state_is_pending_or_unknown t = false) as Hn.
    { intros t Ht. destruct (state_is_pending_or_unknown t) eqn:E; [|done].
      rewrite <- Ep. symmetry. apply existsb_exists. eauto. }
    destruct (existsb state_is_confirmed l) eqn:Ec.
    + apply existsb_exists in Ec as (t & Ht & Hc).
      rewrite bool_decide_false by (intros E; rewrite E in Ht; done).
      split.
      * intros [= <-]. split_and!; [done| |intros t' ??; apply Hn, Hl; done].
        exists t. apply Hl in Ht as [??]. done.
      * by intros (-> & _).
    + assert (∀ v, v = ConfirmedAuthoritative ref ↔ v = ConfirmedAuthoritative ref) by done.
      split.
      * repeat case_match; done.
      * intros (_ & (t & ? & ? & Hc) & _). exfalso.
        assert (existsb state_is_confirmed l = true); [|congruence].
        apply existsb_exists. exists t. split; [by apply Hl|done].
Qed.

Lemma judge_orders_confirmed order_id orders ref :
  judge_open_orders order_id orders = ConfirmedAuthoritative ref ↔
  ref = order_id ∧ ∃ o, o ∈ orders ∧ oo_order_id o = order_id.
Proof.
  unfold judge_open_orders. destruct (existsb _ orders) eqn:E.
  - apply existsb_exists in E as (o & Ho & Hid). apply bool_decide_eq_true in Hid.
    apply list_elem_of_In in Ho. split; [intros [= <-]; eauto|by intros [-> _]].
  - split; [done|]. intros (_ & o & Ho & Hid). exfalso.
    assert (existsb (λ o, bool_decide (oo_order_id o = order_id)) orders = true); [|congruence].
    apply existsb_exists. exists o. rewrite <- list_elem_of_In, bool_decide_eq_true. done.
Qed.

(** A provider whose calls come back answers as the calls do. *)
Lemma reconcile_up q work (w : World) :
  provider_up q →
  reconcile_live (polymarket_reconcile_provider q) work w = reconcile_live_async q work w.
Proof.
  unfold provider_up. simpl. destruct (rp_runtime_handle q) as [h|]; [|done]. intros Hh.
  unfold reconcile_live_via_gateway_runtime, reconcile_live_async.
  destruct (parse_pending_ref _) as [[tx|id]|e]; [| |done].
  - unfold reconcile_tx_ref_via_gateway_runtime, reconcile_tx_ref.
    rewrite run_on_runtime_up by done. by destruct (recent_transactions _ _ w) as [w' []].
  - unfold reconcile_order_ref_via_gateway_runtime, reconcile_order_ref.
    rewrite run_on_runtime_up by done. by destruct (open_orders _ _ w) as [w' []].
Qed.

Lemma reconcile_confirmed q work target (w w' : World) ref :
  provider_up q → parse_pending_ref (pw_pending_ref work) = Ok target →
  reconcile_live (polymarket_reconcile_provider q) work w = (w', Ok (ConfirmedAuthoritative ref)) ↔
  ref = target_ref target ∧ venue_confirms q target w w'.
Proof.
  intros Hup Hp. rewrite reconcile_up by done. unfold reconcile_live_async. rewrite Hp.
  destruct target as [tx|id]; simpl.
  - unfold reconcile_tx_ref. destruct (recent_transactions _ _ w) as [w1 [txs|e]].
    + split.
      * intros [= -> Hj]. apply judge_confirmed in Hj as (-> & ? & ?). eauto 6.
      * intros (-> & txs' & [= <- <-] & Hc & Hn). f_equal. f_equal. by apply judge_confirmed.
    + split; [done|]. by intros (_ & txs & ? & _).
  - unfold reconcile_order_ref. destruct (open_orders _ _ w) as [w1 [orders|e]].
    + split.
      * intros [= -> Hj]. apply judge_orders_confirmed in Hj as (-> & ?). eauto.
      * intros (-> & orders' & [= <- <-] & Ho). f_equal. f_equal. by apply judge_orders_confirmed.
    + split; [done|]. by intros (_ & orders & ? & _).
Qed.

(** ** Properties *)

Lemma submit_family_members (p : SubmitProvider) signed attempt w :
  polymarket_submit_family p signed attempt w =
    match sf_members signed with
    | [] =>
        (w, Returns (submit_error "polymarket live submit requires at least one signed family member"))
    | [m] => ((submit_member p attempt m w).1, Returns (submit_member p attempt m w).2)
    | _ =>
        (w, Returns (submit_error "polymarket live submit requires a single signed family member"))
    end.
Proof.
  unfold polymarket_submit_family, submit_family_async, submit_family_via_gateway_runtime.
  pose proof (submit_member_definite p attempt) as Hd. unfold submit_member in *.
  destruct (sf_members signed) as [|m [|m' ms]] eqn:E; simpl;
    [| |done].
  all: destruct (sp_runtime_handle p) as [h|]; rewrite submit_members_of_verdict, E; simpl; try done.
  all: apply single_member_verdict, Hd.
Qed.

(** A partly accepted family would be pending under the first order's identifier alone,
    which the reconcile provider cannot read: it has no name space. *)
Lemma partial_submission_unreadable r attempt (rs : list SubmitResult) pending_ref reason o :
  submit_order_response_to_outcome r attempt = Ok (Accepted o) →
  split_once ":" (sr_order_id r) = None →
  family_verdict (Ok (Accepted o) :: rs) = Ok (Ambiguous pending_ref reason) →
  parse_pending_ref pending_ref =
    reconcile_error ("unsupported pending_ref without namespace: " +:+ sr_order_id r).
Proof.
  intros Hr Hs. apply response_outcome_cases in Hr as ->.
  unfold family_verdict. csimpl. destruct (omap failure_of rs) as [|f fs]; [done|].
  intros [= <- _]. unfold parse_pending_ref. by rewrite Hs.
Qed.

(** An order that is no longer open, because it was filled, is never confirmed. *)
Lemma filled_order_stays_pending (q : ReconcileSide) work order_id orders w w' :
  provider_up q → parse_pending_ref (pw_pending_ref work) = Ok (OrderTarget order_id) →
  open_orders (rp_gateway q) OpenOrders w = (w', Ok orders) →
  (∀ o, o ∈ orders → oo_order_id o ≠ order_id) →
  reconcile_live (polymarket_reconcile_provider q) work w = (w', Ok StillPending).
Proof.
  intros Hup Hp Ho Hn. rewrite reconcile_up by done. unfold reconcile_live_async.
  rewrite Hp. unfold reconcile_order_ref. rewrite Ho. unfold judge_open_orders.
  destruct (existsb _ orders) eqn:E; [|done]. exfalso.
  apply existsb_exists in E as (o & Hin & Hid). apply bool_decide_eq_true in Hid.
  by apply (Hn o); [apply list_elem_of_In|].
Qed.


End submit.

(** ** Witnesses *)

Module witnesses.
(** A venue that matches every order under one transaction, and remembers the orders. *)
Definition matching_clob : PolymarketClobApi (list PolymarketSignedOrder) :=
  {| clob_open_orders _ w := (w, Ok []);
     clob_submit_order order w :=
       (w ++ [order],
        Ok {| psr_order_id := "order-1"; psr_status := "MATCHED"; psr_success := true;
              psr_error_message := None; psr_transaction_hashes := [" "; " 0xabc "] |});
     clob_post_heartbeat _ w := (w, Ok {| hs_heartbeat_id := "hb"; hs_valid := true |}) |}.

Definition matching_provider :
    PolymarketNegRiskSubmitProvider (X := Micros) (World := list PolymarketSignedOrder) :=
  submit_with_gateway {| pt_owner := "owner"; pt_order_type := Gtc; pt_defer_exec := false |}
    (from_clob_api matching_clob).

Definition salted_json : JsonOps (X := Micros) :=
  {| json_text _ := ""; json_literal _ := Some (JNumber 123);
     json_decimal := λ d : @Decimal Micros, JNumber d |}.

Definition one_member : SignedFamilySubmission (X := Micros) :=
  {| sf_plan_id := "plan-1";
     sf_members :=
       [{| sm_condition_id := "condition-1"; sm_token_id := "token-1";
           sm_price := dec_new (Externals := Micros) 43 2; sm_quantity := dec_new (Externals := Micros) 5 0;
           sm_maker := "0xmaker"; sm_signer := "0xsigner"; sm_taker := "0x0";
           sm_maker_amount := "5"; sm_taker_amount := "2"; sm_side := "BUY";
           sm_expiration := "0"; sm_fee_rate_bps := "30"; sm_signature_type := 0;
           sm_identity := {| so_signed_order_hash := "hash"; so_salt := "123"; so_nonce := "0";
                             so_signature := "sig" |} |}] |}.

Definition sample_live_attempt : ExecutionAttemptContext :=
  {| ac_attempt_id := "attempt-1"; ac_snapshot_id := "snapshot-1"; ac_execution_mode := Live;
     ac_route := "neg-risk"; ac_scope := "family-1"; ac_matched_rule_id := Some "rule-1" |}.

End witnesses.
