(* ===== verification/MetadataProofs.v ===== *)
(** * Theorems about metadata discovery

    Reading the venue's listing page by page is reading the listing; what is published of
    it does not depend on the order the venue lists its events in; and the revisions of
    the cache are numbered without gaps. *)

From S2P Require Import Prelude Text Externals Domain Plans NegRisk.
From S2P Require Import WsMessages AppConfig Gateway Metadata.

(** ** Folds *)

Lemma try_outcome_fold_app {S A E} (f : S → A → outcome (result E S)) s l1 l2 :
  try_outcome_fold f s (l1 ++ l2) = try_then (try_outcome_fold f s l1) (λ s', try_outcome_fold f s' l2).
Proof.
  revert s. induction l1 as [|x l1 IH]; intros s; simpl; [done|].
  unfold try_then at 1 3. destruct (f s x) as [[s'|e]|]; simpl; [apply IH|done|done].
Qed.

(** A loop whose body is itself a loop over entries is one loop over all entries. *)
Lemma try_outcome_fold_bind {S A B E} (f : S → A → outcome (result E S))
    (g : S → B → outcome (result E S)) (entries : A → list B) s l :
  (∀ s x, f s x = try_outcome_fold g s (entries x)) →
  try_outcome_fold f s l = try_outcome_fold g s (l ≫= entries).
Proof.
  intros Hf. revert s. induction l as [|x l IH]; intros s; [done|]. csimpl.
  rewrite try_outcome_fold_app, <- Hf. unfold try_then.
  destruct (f s x) as [[s'|e]|]; simpl; [apply IH|done|done].
Qed.

Section discovery.
Context {X : Externals} {W : WireOps}.

(** ** What a listing holds *)

Inductive Entry := Listed (row : CanonicalNegRiskRow) | SkippedRows (n : Z).

Definition market_entries (event : GammaEvent) (event_id : string) (market : GammaMarket) :
    list Entry :=
  if negb (market_is_neg_risk event market) then []
  else
    match normalized_optional_string (gm_condition_id market), yes_token_id market with
    | Some condition_id, Some token_id =>
        [Listed (event_row event (event_family_of event event_id) event_id condition_id token_id
                   market)]
    | _, _ => [SkippedRows 1]
    end.

Definition event_entries (event : GammaEvent) : list Entry :=
  match normalized_optional_string (gv_id event) with
  | None =>
      [SkippedRows
         (Z.max (Z.of_nat (length (List.filter (market_is_neg_risk event) (gv_markets event)))) 1)]
  | Some event_id => gv_markets event ≫= market_entries event event_id
  end.

Definition entry_row (x : Entry) : option CanonicalNegRiskRow :=
  match x with Listed row => Some row | SkippedRows _ => None end.

(** The rows of a listing, in its order, duplicates included. *)
Definition listing_rows (listing : list GammaEvent) : list CanonicalNegRiskRow :=
  omap entry_row (listing ≫= event_entries).

Definition entry_step (st : DiscoveryState) (x : Entry) :
    outcome (result NegRiskMetadataError DiscoveryState) :=
  match x with Listed row => add_row row st | SkippedRows n => Returns (Ok (skip_rows n st)) end.

Lemma discover_event_entries st event :
  discover_event st event = try_outcome_fold entry_step st (event_entries event).
Proof.
  unfold discover_event, event_entries.
  destruct (normalized_optional_string (gv_id event)) as [event_id|]; [|done].
  apply try_outcome_fold_bind. intros s market. unfold discover_market, market_entries.
  destruct (market_is_neg_risk event market); simpl; [|done].
  destruct (normalized_optional_string (gm_condition_id market)) as [c|]; [|done].
  destruct (yes_token_id market) as [t|]; [|done]. simpl. unfold try_then.
  by destruct (add_row _ s) as [[]|].
Qed.

(** The loop over a whole listing. *)
Definition read_listing (st : DiscoveryState) (listing : list GammaEvent) :
    outcome (result NegRiskMetadataError DiscoveryState) :=
  try_outcome_fold discover_event st listing.

Record entries_read (pre : list Entry) (st : DiscoveryState) : Prop := {
  er_rows row : row ∈ ds_rows st ↔ row ∈ omap entry_row pre;
  er_keys : NoDup (row_member_key <$> ds_rows st);
  er_seen k i : ds_seen st !! k = Some i ↔ ∃ row, ds_rows st !! i = Some row ∧ row_member_key row = k;
}.

Definition conflicting (pre : list Entry) (x : Entry) (e : NegRiskMetadataError) : Prop :=
  ∃ row existing, x = Listed row ∧ existing ∈ omap entry_row pre ∧ existing ≠ row ∧
    row_member_key existing = row_member_key row ∧
    e = ConflictingDuplicateRow (cr_event_family_id row) (cr_condition_id row) (cr_token_id row)
          (cr_outcome_label existing) (cr_outcome_label row).

Lemma entry_step_cases pre x st :
  entries_read pre st →
  match entry_step st x with
  | Returns (Ok st') => entries_read (pre ++ [x]) st'
  | Returns (Err e) => conflicting pre x e
  | Panics => False
  end.
Proof.
  intros [Hrows Hkeys Hseen]. destruct x as [row|n]; simpl.
  - unfold add_row. destruct (ds_seen st !! row_member_key row) as [i|] eqn:E.
    + apply Hseen in E as (existing & Hi & Hk). rewrite Hi. simpl.
      assert (existing ∈ omap entry_row pre) as Hin
        by (apply Hrows; by eapply list_elem_of_lookup_2).
      case_bool_decide as He.
      * subst existing. split; [|done|done]. intros r. rewrite omap_app, elem_of_app, Hrows.
        csimpl. rewrite list_elem_of_singleton. naive_solver.
      * by exists row, existing.
    + assert (row_member_key row ∉ row_member_key <$> ds_rows st) as Hnew.
      { intros (r & Hr & Hin)%list_elem_of_fmap. apply list_elem_of_lookup in Hin as [i Hi].
        assert (ds_seen st !! row_member_key row = Some i); [|congruence].
        apply Hseen. eauto. }
      split; simpl.
      * intros r. rewrite omap_app, !elem_of_app, Hrows. csimpl. done.
      * rewrite fmap_app. apply NoDup_app. split_and!; [done| |apply NoDup_singleton].
        intros k Hk Hk'. apply list_elem_of_singleton in Hk'. by subst.
      * intros k i. rewrite lookup_insert_Some, Hseen. split.
        -- intros [[<- <-]|[Hne (r & Hi & Hk)]].
           ++ exists row. rewrite lookup_app_r, Nat.sub_diag by done. done.
           ++ exists r. split; [by apply lookup_app_l_Some|done].
        -- intros (r & Hi & Hk). apply lookup_app_Some in Hi as [Hi|[Hle Hi]].
           ++ right. split; [|eauto]. intros <-. apply Hnew. rewrite <- Hk.
              apply list_elem_of_fmap_2. by eapply list_elem_of_lookup_2.
           ++ left. apply list_lookup_singleton_Some in Hi as [Hz <-]. split; [done|lia].
  - split; simpl; [|done|done]. intros r. rewrite omap_app, elem_of_app, Hrows. csimpl.
    split; [auto|intros [|[]%not_elem_of_nil]; done].
Qed.

(** Reading a listing never panics, and keeps each of its rows once. *)
Lemma read_listing_cases listing :
  match read_listing discovery_start listing with
  | Returns (Ok st) =>
      (∀ row, row ∈ ds_rows st ↔ row ∈ listing_rows listing) ∧
      NoDup (row_member_key <$> ds_rows st)
  | Returns (Err e) =>
      ∃ pre x, conflicting pre x e ∧ ∀ row, row ∈ omap entry_row (pre ++ [x]) →
        row ∈ listing_rows listing
  | Panics => False
  end.
Proof.
  unfold read_listing. rewrite (try_outcome_fold_bind _ entry_step event_entries)
    by apply discover_event_entries.
  pose proof (try_outcome_fold_cases entry_step entries_read conflicting False discovery_start
    (listing ≫= event_entries)) as Hc.
  assert (entries_read [] discovery_start) as H0.
  { split; simpl; [done|constructor|]. intros k i. rewrite lookup_empty.
    split; [done|]. intros (row & Hi & _). by rewrite lookup_nil in Hi. }
  specialize (Hc H0 (λ pre x st, entry_step_cases pre x st)).
  destruct (try_outcome_fold _ _ _) as [[st|e]|]; [|destruct Hc as (pre & x & post & E & Hq)|done].
  - destruct Hc as [Hrows Hkeys _]. done.
  - exists pre, x. split; [done|]. intros row. unfold listing_rows. rewrite E.
    replace (pre ++ x :: post) with ((pre ++ [x]) ++ post) by (by rewrite <- app_assoc).
    rewrite (omap_app _ (pre ++ [x])), elem_of_app. auto.
Qed.

(** What a discovery of a listing may answer. *)
Definition discovery_verdict (listing : list GammaEvent)
    (r : result NegRiskMetadataError NegRiskDiscovery) : Prop :=
  match r with
  | Ok d =>
      (∀ row, row ∈ nd_rows d ↔ row ∈ listing_rows listing) ∧
      NoDup (row_member_key <$> nd_rows d) ∧ StronglySorted (cmp_le row_order) (nd_rows d) ∧
      nd_metadata_snapshot_hash d = snapshot_hash (nd_rows d)
  | Err (ConflictingDuplicateRow family condition token existing incoming) =>
      ∃ row row', row ∈ listing_rows listing ∧ row' ∈ listing_rows listing ∧ row ≠ row' ∧
        row_member_key row = (family, condition, token) ∧
        row_member_key row' = (family, condition, token) ∧
        cr_outcome_label row = existing ∧ cr_outcome_label row' = incoming
  | Err (NoValidRowsAfterFiltering skipped) => listing_rows listing = [] ∧ 0 < skipped
  | Err _ => False
  end.

Lemma row_order_total : TotalPreorder row_order.
Proof. apply cmp_on_total. exact _. Qed.

Lemma read_listing_verdict listing :
  ∃ r, (st ←? read_listing discovery_start listing; Returns (discovery_finish st)) = Returns r ∧
    discovery_verdict listing r.
Proof.
  pose proof (read_listing_cases listing) as Hc. pose proof row_order_total.
  destruct (read_listing discovery_start listing) as [[st|e]|]; [| |done].
  - eexists. split; [reflexivity|]. destruct Hc as [Hrows Hkeys]. unfold discovery_finish.
    destruct (bool_decide (ds_rows st = []) && _) eqn:E.
    + apply andb_true_iff in E as [E1%bool_decide_eq_true E2%bool_decide_eq_true].
      simpl. split; [|done]. destruct (listing_rows listing) as [|row rows]; [done|].
      assert (row ∈ ds_rows st) as Hin by (apply Hrows; left).
      rewrite E1 in Hin. by apply not_elem_of_nil in Hin.
    + simpl. unfold canonicalize_rows. split_and!; [| |apply sort_by_sorted, _|done].
      * intros row. rewrite elem_of_sort_by by done. apply Hrows.
      * rewrite sort_by_Permutation by done. done.
  - destruct Hc as (pre & x & (row & existing & -> & Hin & Hne & Hk & ->) & Hsub).
    eexists. split; [reflexivity|]. simpl.
    exists existing, row. split_and!; try done.
    + apply Hsub. rewrite omap_app, elem_of_app. auto.
    + apply Hsub. rewrite omap_app, elem_of_app. right. csimpl. by apply list_elem_of_singleton.
Qed.

(** ** Pages *)

Section pages.
Context {World E : Type}.
Variable fetch : Z → World → World * outcome (result E (list GammaEvent)).
Variable inject : NegRiskMetadataError → E.

(** The venue serves a listing: at each offset the next hundred events of it. *)
Definition serves (listing : list GammaEvent) : Prop :=
  ∀ offset w, ∃ w', fetch offset w =
    (w', Returns (Ok (take (Z.to_nat neg_risk_page_limit) (drop (Z.to_nat offset) listing)))).

Definition listing_answer (st : DiscoveryState) (listing : list GammaEvent) :
    outcome (result E NegRiskDiscovery) :=
  match read_listing st listing with
  | Panics => Panics
  | Returns (Err e) => Returns (Err (inject e))
  | Returns (Ok st) => Returns (map_err inject (discovery_finish st))
  end.

Lemma pages_read_listing listing fuel offset st w :
  serves listing → Z.of_nat (length listing) + neg_risk_page_limit < 2 ^ 64 → 0 <= offset →
  ((length (drop (Z.to_nat offset) listing) + 99) / 100 + 1 <= fuel)%nat →
  ∃ w', discover_pages fetch inject fuel offset st w =
    (w', Some (listing_answer st (drop (Z.to_nat offset) listing))).
Proof.
  intros Hs Hlen. revert offset st w. induction fuel as [|fuel IH]; intros offset st w Ho Hf; [lia|].
  cbn [discover_pages]. destruct (Hs offset w) as [w1 ->].
  set (rest := drop (Z.to_nat offset) listing) in *.
  change (Z.to_nat neg_risk_page_limit) with 100%nat.
  assert (read_listing st rest = try_then (read_listing st (take 100 rest))
            (λ st, read_listing st (drop 100 rest))) as Hsplit.
  { unfold read_listing. by rewrite <- try_outcome_fold_app, take_drop. }
  unfold listing_answer. rewrite Hsplit. unfold read_listing at 1.
  destruct (try_outcome_fold discover_event st (take 100 rest)) as [[st'|e]|]; cbn [try_then mbind outcome_bind];
    [|by eexists..].
  case_bool_decide as Hp.
  - assert (rest = []) as ->; [|by eexists].
    destruct rest as [|x rest']; [done|]. by rewrite firstn_cons in Hp.
  - assert (length rest ≠ 0%nat) as Hne by (intros ->%nil_length_inv; done).
    assert (Hrest : length rest = (length listing - Z.to_nat offset)%nat) by apply length_drop.
    assert (u64_add offset neg_risk_page_limit = offset + 100) as ->.
    { unfold u64_add. rewrite Z.mod_small; [done|]. unfold neg_risk_page_limit in *. lia. }
    assert (drop (Z.to_nat (offset + 100)) listing = drop 100 rest) as Hd.
    { unfold rest. rewrite drop_drop. f_equal. lia. }
    rewrite <- Hd. apply IH; [lia|]. rewrite Hd, length_drop.
    enough ((length rest - 100 + 99) / 100 + 1 <= (length rest + 99) / 100)%nat by lia.
    destruct (decide (length rest < 100)%nat).
    + replace (length rest - 100 + 99)%nat with 99%nat by lia.
      transitivity ((1 + 99) / 100)%nat; [done|]. apply Nat.Div0.div_le_mono. lia.
    + replace (length rest + 99)%nat with (length rest - 100 + 99 + 1 * 100)%nat by lia.
      rewrite Nat.div_add by done. lia.
Qed.

Lemma discover_rows_serves listing fuel w :
  serves listing → Z.of_nat (length listing) + neg_risk_page_limit < 2 ^ 64 →
  ((length listing + 99) / 100 + 1 <= fuel)%nat →
  ∃ w' r, discover_rows fetch inject fuel w = (w', Some (Returns (map_err inject r))) ∧
    discovery_verdict listing r ∧
    (st ←? read_listing discovery_start listing; Returns (discovery_finish st)) = Returns r.
Proof.
  intros Hs Hlen Hf.
  destruct (pages_read_listing listing fuel 0 discovery_start w Hs Hlen) as [w' Hp];
    [done|by rewrite drop_0|].
  destruct (read_listing_verdict listing) as (r & Hr & Hv). exists w', r. split_and!; [|done..].
  unfold discover_rows. rewrite Hp. change (Z.to_nat 0) with 0%nat. rewrite drop_0.
  unfold listing_answer. destruct (read_listing discovery_start listing) as [[st|e]|];
    simpl in Hr; by simplify_eq.
Qed.
End pages.

(** ** The order of the listing *)

(** The listing gives an event one family. *)
Definition one_family (listing : list GammaEvent) : Prop :=
  ∀ row row', row ∈ listing_rows listing → row' ∈ listing_rows listing →
    cr_event_id row = cr_event_id row' → cr_event_family_id row = cr_event_family_id row'.

Lemma listing_rows_permutation l1 l2 :
  l1 ≡ₚ l2 → ∀ row, row ∈ listing_rows l1 ↔ row ∈ listing_rows l2.
Proof.
  intros Hp row. unfold listing_rows. rewrite !list_elem_of_omap.
  assert (∀ x, x ∈ l1 ≫= event_entries ↔ x ∈ l2 ≫= event_entries) as Hx.
  { intros x. rewrite !list_elem_of_bind. by setoid_rewrite Hp. }
  by setoid_rewrite Hx.
Qed.

Lemma sorted_rows_unique rows1 rows2 :
  NoDup (row_member_key <$> rows1) → NoDup (row_member_key <$> rows2) →
  StronglySorted (cmp_le row_order) rows1 → StronglySorted (cmp_le row_order) rows2 →
  (∀ row, row ∈ rows1 ↔ row ∈ rows2) →
  (∀ row row', row ∈ rows1 → row' ∈ rows1 →
     cr_event_id row = cr_event_id row' → cr_event_family_id row = cr_event_family_id row') →
  rows1 = rows2.
Proof.
  intros Hn1 Hn2 Hs1 Hs2 Hiff Hfam. pose proof row_order_total.
  apply (StronglySorted_unique_strong (cmp_le row_order)); [|done|done|].
  - intros x y Hx Hy Hle1 Hle2. apply Hiff in Hy.
    assert (row_order x y = Eq) as E by (by apply cmp_le_both).
    unfold row_order, cmp_on in E. apply (cmp_eq (cmp := cmp_lex _ _)) in E.
    injection E as E1 E2 E3 E4.
    assert (row_member_key x = row_member_key y) as Hk.
    { unfold row_member_key. by rewrite (Hfam x y), E2, E3. }
    apply list_elem_of_lookup in Hx as [i Hi], Hy as [j Hj].
    assert (i = j) as ->; [|congruence].
    eapply (NoDup_lookup _ _ _ (row_member_key x) Hn1); rewrite list_lookup_fmap;
      [by rewrite Hi|]. by rewrite Hj, Hk.
  - apply NoDup_Permutation; [by apply (NoDup_fmap_1 row_member_key)..|done].
Qed.

(** ** The cache *)

Definition cached (c : NegRiskMetadataCache) : list NegRiskDiscoverySnapshot :=
  nc_history c ++ option_list (nc_current c).

Definition publish_all (ds : list NegRiskDiscovery) : NegRiskMetadataCache :=
  foldl (λ c d, (publish_discovery d c).1) metadata_cache_default ds.

(** Successful refreshes are numbered from 1 without gaps, the last is current and the
    others are the history, in order. *)
Lemma cache_revisions ds :
  Z.of_nat (length ds) < 2 ^ 63 →
  ns_discovery_revision <$> cached (publish_all ds) = seqZ 1 (Z.of_nat (length ds)) ∧
  ns_metadata_snapshot_hash <$> cached (publish_all ds) = nd_metadata_snapshot_hash <$> ds ∧
  (ds ≠ [] → ∃ snapshot, nc_current (publish_all ds) = Some snapshot ∧
     ns_discovery_revision snapshot = Z.of_nat (length ds)).
Proof.
  induction ds as [|d ds IH] using rev_ind; intros Hlen; [done|].
  rewrite length_app in *. simpl in Hlen. destruct IH as (Hr & Hh & Hc); [lia|].
  unfold publish_all in *. rewrite foldl_app. simpl.
  set (c := foldl _ metadata_cache_default ds) in *.
  assert (next_discovery_revision c = Z.of_nat (length ds) + 1) as Hnext.
  { unfold next_discovery_revision. destruct ds as [|d' ds']; [done|].
    destruct Hc as (snapshot & -> & ->); [done|]. unfold i64_add.
    rewrite Z.mod_small; [lia|]. simpl length in *. lia. }
  unfold cached in *. simpl. rewrite !fmap_app in *. simpl. rewrite Hr, Hh, Hnext.
  replace (Z.of_nat (length ds + 1)) with (Z.of_nat (length ds) + 1) by lia.
  split_and!; [|done|intros _; eexists; split; [done|done]].
  rewrite seqZ_app by lia. f_equal. change [Z.of_nat (length ds) + 1] with [0 + (Z.of_nat (length ds) + 1)].
  rewrite (seqZ_cons (1 + _)) by lia. rewrite seqZ_nil by lia. f_equal. lia.
Qed.

(** ** Properties *)


(** What a discovery publishes does not depend on the order of the listing: two
    listings of the same events, in any order and in any pages, that give every event one
    family, publish the same rows under the same hash whenever both can be discovered. *)
Theorem discovery_order_independent {World E : Type}
    (fetch1 fetch2 : Z → World → World * outcome (result E (list GammaEvent)))
    (inject : NegRiskMetadataError → E) (l1 l2 : list GammaEvent) (fuel : nat) (w1 w2 : World)
    (d1 d2 : NegRiskDiscovery)
    (Hs1 : serves fetch1 l1) (Hs2 : serves fetch2 l2) (Hperm : l1 ≡ₚ l2)
    (Hfam : one_family l1)
    (Hlen : Z.of_nat (length l1) + neg_risk_page_limit < 2 ^ 64)
    (Hfuel : ((length l1 + 99) / 100 + 1 <= fuel)%nat)
    (Hd1 : (discover_rows fetch1 inject fuel w1).2 = Some (Returns (Ok d1)))
    (Hd2 : (discover_rows fetch2 inject fuel w2).2 = Some (Returns (Ok d2))) :
  d1 = d2.
Proof.
  destruct (discover_rows_serves fetch1 inject l1 fuel w1 Hs1 Hlen Hfuel)
    as (w1' & r1 & E1 & V1 & _).
  rewrite Hperm in Hlen, Hfuel.
  destruct (discover_rows_serves fetch2 inject l2 fuel w2 Hs2 Hlen Hfuel)
    as (w2' & r2 & E2 & V2 & _).
  rewrite E1 in Hd1. rewrite E2 in Hd2. destruct r1 as [r1|], r2 as [r2|]; simpl in *; try done.
  injection Hd1 as ->. injection Hd2 as ->.
  destruct V1 as (R1 & N1 & S1 & H1), V2 as (R2 & N2 & S2 & H2).
  assert (nd_rows d1 = nd_rows d2) as Hrows.
  { apply sorted_rows_unique; try done.
    - intros row. rewrite R1, R2. by apply listing_rows_permutation.
    - intros row row' Hr Hr'. apply Hfam; by apply R1. }
  destruct d1, d2; simpl in *. congruence.
Qed.
End discovery.

(** ** Witnesses *)

Module witnesses.
Definition plain_wire : WireOps (X := Micros) :=
  {| value_from_str _ := None; value_text _ := ""; parse_from_rfc3339 _ := None;
     timestamp_opt _ := None; timestamp_millis_opt _ := None |}.

Definition listed_market (condition token label : string) : GammaMarket :=
  {| gm_condition_id := Some condition; gm_clob_token_ids := Values [token; "no-" +:+ token];
     gm_group_item_title := Some label; gm_title := None; gm_short_outcomes := Values [];
     gm_outcomes := Values ["Yes"; "No"]; gm_question := None; gm_neg_risk := Some true;
     gm_neg_risk_other := None |}.

Definition listed_event (id : string) (markets : list GammaMarket) : GammaEvent :=
  {| gv_id := Some id; gv_title := Some "Who wins"; gv_parent_event_id := None;
     gv_neg_risk := Some true; gv_enable_neg_risk := Some true;
     gv_neg_risk_augmented := None; gv_markets := markets |}.

Definition event_a := listed_event "event-a" [listed_market "c1" "t1" "Ann"; listed_market "c2" "t2" "Bob"].
Definition event_b := listed_event "event-b" [listed_market "c3" "t3" "Other"].

Definition serve (listing : list GammaEvent) (offset : Z) (w : nat) :
    nat * outcome (result NegRiskMetadataError (list GammaEvent)) :=
  (S w, Returns (Ok (take (Z.to_nat neg_risk_page_limit) (drop (Z.to_nat offset) listing)))).

Lemma serve_serves listing : serves (serve listing) listing.
Proof. intros offset w. by eexists. Qed.


Lemma discovery_order_independent_witness : ∃ d1 d2,
  (discover_rows (W := plain_wire) (serve [event_a; event_b]) id 2 0%nat).2 =
    Some (Returns (Ok d1)) ∧
  (discover_rows (W := plain_wire) (serve [event_b; event_a]) id 2 0%nat).2 =
    Some (Returns (Ok d2)) ∧
  cr_token_id <$> nd_rows d1 = ["t1"; "t2"; "t3"] ∧ d1 = d2.
Proof.
  eexists _, _. split; [reflexivity|]. split; [reflexivity|]. split; [reflexivity|].
  eapply (discovery_order_independent (W := plain_wire) (serve [event_a; event_b])
            (serve [event_b; event_a]) id [event_a; event_b] [event_b; event_a] 2 0%nat 0%nat);
    [apply serve_serves|apply serve_serves|apply Permutation_swap| |reflexivity| |reflexivity..].
  - intros row row' Hr Hr' E.
    assert (∀ r, r ∈ listing_rows (W := plain_wire) [event_a; event_b] →
              cr_event_family_id r = cr_event_id r) as Hf.
    { apply Forall_forall. repeat constructor. }
    by rewrite (Hf row), (Hf row').
  - apply Nat.leb_le. reflexivity.
Defined.
End witnesses.
