(* ===== verification/TaskProofs.v ===== *)
(** * Theorems about the task groups

    How often the heartbeat group asks for attention, and that the group built for the
    runtime never finds a heartbeat missed; what a discovery batch makes of the metadata. *)

From S2P Require Import Prelude Text RecordSet Externals Domain Facts Store Snapshot.
From S2P Require Import Dispatch Runtime NegRisk Risk Plans Execution LiveRecords WsMessages.
From S2P Require Import VenueSessions Tasks.

Section tasks.
Context {X : Externals} {C : ClockOps}.

(** ** Heartbeats *)

Section heartbeat.
Context {S : Type} {HS : HeartbeatSource S}.

(** [n] ticks, and the inputs they emit. *)
Fixpoint heartbeat_ticks (n : nat) (g : HeartbeatTaskGroup X S) :
    outcome (HeartbeatTaskGroup X S * list InputTaskEvent) :=
  match n with
  | O => Returns (g, [])
  | Datatypes.S n =>
      '(g, input) ← heartbeat_tick g;
      '(g, inputs) ← heartbeat_ticks n g;
      Returns (g, option_list input ++ inputs)
  end.

(** How many of the next [n] polls answer with a valid heartbeat. *)
Fixpoint valid_polls (n : nat) (g : HeartbeatTaskGroup X S) : nat :=
  match n with
  | O => 0
  | Datatypes.S n =>
      (match (poll (hb_heartbeat_id (hg_state g)) (hg_source g)).2 with
       | Ok r => if hf_valid r then 1 else 0
       | Err _ => 0
       end +
       match heartbeat_tick g with Returns (g, _) => valid_polls n g | Panics => 0 end)%nat
  end.

(** What every input of a group is. *)
Definition heartbeat_input (g : HeartbeatTaskGroup X S) (i : InputTaskEvent) : Prop :=
  it_hint i = HintNone ∧ ∃ reason message,
    it_event i = runtime_attention_observed "heartbeat" (hg_session_id g)
      ("heartbeat-attention-" +:+ pretty (it_journal_seq i)) (hg_scope_id g)
      (heartbeat_attention_kind reason) message (hg_now g).

(** What a tick does to a group. *)
Record tick_effect (g g' : HeartbeatTaskGroup X S) (input : option InputTaskEvent) : Prop := {
  te_session : hg_session_id g' = hg_session_id g;
  te_scope : hg_scope_id g' = hg_scope_id g;
  te_now : hg_now g' = hg_now g;
  te_monitor : hg_monitor g' = hg_monitor g;
  te_input : ∀ i, input = Some i →
    heartbeat_input g i ∧ it_journal_seq i = hg_next_journal_seq g ∧
    hg_next_journal_seq g' = i64_add (hg_next_journal_seq g) 1 ∧
    hb_requires_reconcile_attention (hg_state g) = false ∧
    hb_requires_reconcile_attention (hg_state g') = true;
  te_silent : input = None → hg_next_journal_seq g' = hg_next_journal_seq g;
  te_raised : hb_requires_reconcile_attention (hg_state g) = true →
    hb_requires_reconcile_attention (hg_state g') = false →
    ∃ r, (poll (hb_heartbeat_id (hg_state g)) (hg_source g)).2 = Ok r ∧ hf_valid r = true;
}.

Lemma attention_of_effect g source state attention detail :
  (∀ r, attention = Some r → hb_requires_reconcile_attention (hg_state g) = false ∧
     hb_requires_reconcile_attention state = true) →
  (hb_requires_reconcile_attention (hg_state g) = true →
   hb_requires_reconcile_attention state = false →
   ∃ r, (poll (hb_heartbeat_id (hg_state g)) (hg_source g)).2 = Ok r ∧ hf_valid r = true) →
  let r := attention_of (with_source_state g source state) attention detail in
  tick_effect g r.1 r.2.
Proof.
  intros Hr Hs. destruct attention as [reason|]; simpl; split; try done; simpl.
  intros i [= <-]. destruct (Hr reason eq_refl). split_and!; try done.
  split; [done|]. by eexists _, _.
Qed.

Lemma raise_attention_cases s at_ reason :
  raise_attention s at_ reason = (s, None) ∧ hb_requires_reconcile_attention s = true ∨
  ∃ s', raise_attention s at_ reason = (s', Some reason) ∧
    hb_requires_reconcile_attention s = false ∧ hb_requires_reconcile_attention s' = true ∧
    hb_last_success_at s' = hb_last_success_at s.
Proof.
  unfold raise_attention. destruct (hb_requires_reconcile_attention s); [auto|].
  right. eexists. split_and!; done.
Qed.

Lemma heartbeat_tick_effect g g' input :
  heartbeat_tick g = Returns (g', input) → tick_effect g g' input.
Proof.
  unfold heartbeat_tick. destruct (poll _ (hg_source g)) as [source [r|e]] eqn:E.
  - unfold record_fetch_result. destruct (hf_valid r) eqn:Ev.
    + intros [= <- <-]. apply (attention_of_effect g source _ None None); [done|].
      intros _ _. exists r. by rewrite E.
    + match goal with |- context [raise_attention ?s ?a ?q] =>
        destruct (raise_attention_cases s a q) as [[-> Hs]|(s' & -> & Hs & Hs' & _)] end;
      simpl in Hs; intros Ht; injection Ht as Hg Hi; subst.
      * apply (attention_of_effect g source _ None None); [done|]. simpl. congruence.
      * apply (attention_of_effect g source s' (Some InvalidHeartbeat) None); [done|]. congruence.
  - unfold heartbeat_reconcile_trigger.
    destruct (expect _) as [onset|]; simpl; [|done].
    assert (∀ g', with_source_state g source (hg_state g) = g' → tick_effect g g' None) as Hsame.
    { intros ? <-. apply (attention_of_effect g source (hg_state g) None None); [done|congruence]. }
    destruct (dt_cmp (hg_now g) onset).
    1,2: intros Ht; injection Ht as Hg Hi; subst input; by apply Hsame.
    destruct (raise_attention_cases (hg_state g) onset MissedHeartbeat)
      as [[-> Hs]|(s' & -> & Hs & Hs' & _)]; intros Ht; injection Ht as Hg Hi; subst.
    + by apply Hsame.
    + apply (attention_of_effect g source s' (Some MissedHeartbeat) (Some e)); [done|]. congruence.
Qed.

(** ** The group of the runtime *)

(** The instants of a group stand still: its clock is read once, when it is built. *)
Definition group_still (now : DateTime) (g : HeartbeatTaskGroup X S) : Prop :=
  hg_now g = now ∧ hb_last_success_at (hg_state g) = now ∧
  hm_max_gap (hg_monitor g) = dur_seconds 30.

Lemma heartbeat_tick_still now later g :
  dt_add now (dur_seconds 30) = Some later → dt_cmp now later ≠ Gt → group_still now g →
  ∃ g' input, heartbeat_tick g = Returns (g', input) ∧ group_still now g' ∧
    match (poll (hb_heartbeat_id (hg_state g)) (hg_source g)).2 with
    | Ok _ => ∀ i, input = Some i → ∃ message, it_event i =
        runtime_attention_observed "heartbeat" (hg_session_id g)
          ("heartbeat-attention-" +:+ pretty (it_journal_seq i)) (hg_scope_id g)
          "invalid_heartbeat" message now
    | Err _ => input = None
    end.
Proof.
  intros Hadd Hcmp (Hnow & Hlast & Hgap). unfold heartbeat_tick.
  destruct (poll _ (hg_source g)) as [source [r|e]]; simpl.
  - unfold record_fetch_result. destruct (hf_valid r).
    + by eexists _, _.
    + match goal with |- context [raise_attention ?s ?a ?q] =>
        destruct (raise_attention_cases s a q) as [[-> _]|(s' & -> & _ & _ & Hl)] end; simpl.
      * by eexists _, _.
      * eexists _, _. split; [done|]. split; [split_and!; [done| |done]; simpl in *; congruence|].
        intros i [= <-]. simpl. rewrite Hnow. by eexists.
  - unfold heartbeat_reconcile_trigger. rewrite Hlast, Hgap, Hadd, Hnow. simpl.
    destruct (dt_cmp now later); [| |done]; by eexists _, _.
Qed.
End heartbeat.

(** ** Discovery batches *)

Lemma group_rows_lookup rows family :
  default [] (group_rows rows !! family) =
    List.filter (λ r, bool_decide (mm_event_family_id r = family)) rows ∧
  (is_Some (group_rows rows !! family) ↔ family ∈ mm_event_family_id <$> rows).
Proof.
  unfold group_rows. induction rows as [|row rows IH] using rev_ind.
  { simpl. rewrite lookup_empty. split; [done|]. split; [by intros []|by intros ?%not_elem_of_nil]. }
  rewrite foldl_app, List.filter_app, fmap_app, elem_of_app. simpl.
  set (m := foldl _ ∅ rows) in *. destruct (decide (mm_event_family_id row = family)) as [<-|Hne].
  - destruct IH as [Hf Hs]. rewrite lookup_insert_eq, bool_decide_true by done. simpl.
    rewrite Hf. split; [done|]. split; [intros _; right; by left|by eexists].
  - rewrite lookup_insert_ne, bool_decide_false, app_nil_r by done. destruct IH as [Hf Hs].
    split; [done|]. rewrite Hs. split; [auto|]. intros [|Hin]; [done|].
    by apply list_elem_of_singleton in Hin.
Qed.

Lemma outcome_fold_snoc {S A} (f : S → A → outcome S) s l x :
  outcome_fold f s (l ++ [x]) = (s' ← outcome_fold f s l; f s' x).
Proof.
  revert s. induction l as [|y l IH]; intros s; simpl.
  - by destruct (f s x).
  - by destruct (f s y); simpl.
Qed.

(** What the batch says of one family, given its place in the order of the families. *)
Definition family_discovery (session : string) (observed_at : DateTime) (i : nat)
    (family : string * list NegRiskMarketMetadata) : InputTaskEvent :=
  let rows := sort_by member_row_order family.2 in
  discovery_input (Z.of_nat i + 1) session
    ("metadata-" +:+ default "" (mm_metadata_snapshot_hash <$> hd_error rows) +:+ "-" +:+
     family.1 +:+ "-discovery") family.1 observed_at.

Definition family_target (family : string * list NegRiskMarketMetadata) : NegRiskFamilyLiveTarget :=
  {| lf_family_id := family.1;
     lf_members := default_member_target <$> sort_by member_row_order family.2 |}.

Lemma batch_families session observed_at (families : list (string * list NegRiskMarketMetadata)) :
  Forall (λ f, f.2 ≠ []) families → NoDup families.*1 → Z.of_nat (length families) < 2 ^ 63 - 1 →
  outcome_fold (batch_family session observed_at)
    ({| mb_inputs := []; mb_rendered_live_targets := ∅ |}, 1) families =
  Returns ({| mb_inputs := imap (family_discovery session observed_at) families;
              mb_rendered_live_targets := list_to_map ((λ f, (f.1, family_target f)) <$> families) |},
           Z.of_nat (length families) + 1).
Proof.
  induction families as [|[family rows] families IH] using rev_ind; [done|].
  intros [Hne [Hrows _]%Forall_cons_1]%Forall_app Hnd Hlen. simpl in Hrows.
  rewrite fmap_app, NoDup_app in Hnd. destruct Hnd as (Hnd & Hd & _).
  rewrite length_app in Hlen. simpl in Hlen.
  rewrite outcome_fold_snoc, IH by (done || lia). simpl. unfold batch_family.
  destruct (hd_error (sort_by member_row_order rows)) as [anchor|] eqn:Ea.
  - simpl. rewrite imap_app, fmap_app, length_app. simpl. rewrite Nat.add_0_r.
    f_equal. f_equal; [f_equal|].
    + unfold family_discovery. simpl. by rewrite Ea.
    + symmetry. apply (list_to_map_snoc (M := gmap string)). rewrite <- list_fmap_compose.
      intros (f & Hf & Hin)%list_elem_of_fmap. simpl in Hf. subst family.
      apply (Hd f.1); [by apply list_elem_of_fmap_2|]. simpl. left.
    + unfold i64_add. rewrite Z.mod_small; lia.
  - exfalso. apply Hrows. apply (sort_by_nil member_row_order).
    by destruct (sort_by member_row_order rows).
Qed.

(** The rows of a family, in the order of the rows. *)
Definition family_rows (rows : list NegRiskMarketMetadata) (family : string) :
    list NegRiskMarketMetadata :=
  List.filter (λ r, bool_decide (mm_event_family_id r = family)) rows.

Lemma group_entries rows family frows :
  (family, frows) ∈ btree_entries str_cmp (group_rows rows) ↔
  family ∈ mm_event_family_id <$> rows ∧ frows = family_rows rows family.
Proof.
  rewrite elem_of_btree_entries by exact _. destruct (group_rows_lookup rows family) as [Hf Hs].
  rewrite <- Hs. unfold family_rows. rewrite <- Hf.
  destruct (group_rows rows !! family) as [l|]; simpl; [|naive_solver].
  split; [intros [= ->]; eauto|by intros [_ ->]].
Qed.

Lemma group_entries_wf rows :
  Forall (λ f, f.2 ≠ []) (btree_entries str_cmp (group_rows rows)) ∧
  NoDup (btree_entries str_cmp (group_rows rows)).*1.
Proof.
  split; [|apply (NoDup_btree_keys str_cmp)].
  apply Forall_forall. intros [family frows] [Hin ->]%group_entries. simpl.
  apply list_elem_of_fmap in Hin as (r & -> & Hr). intros Hnil.
  assert (In r (family_rows rows (mm_event_family_id r))) as Hi.
  { apply List.filter_In. split; [by apply list_elem_of_In|by apply bool_decide_eq_true]. }
  by rewrite Hnil in Hi.
Qed.

(** A batch has one input per family of the rows, numbered from 1 in the order of the
    families, and a target for each family with the members of its rows. *)
Lemma discovery_batch_spec rows session observed_at :
  Z.of_nat (size (group_rows rows)) < 2 ^ 63 - 1 →
  ∃ b, authoritative_discovery_batch rows session observed_at = Returns b ∧
    (it_journal_seq <$> mb_inputs b) = seqZ 1 (Z.of_nat (size (group_rows rows))) ∧
    (ev_payload ∘ it_event <$> mb_inputs b) =
      Some ∘ FamilyDiscoveryObserved <$> btree_keys str_cmp (group_rows rows) ∧
    (∀ family t, mb_rendered_live_targets b !! family = Some t ↔
       family ∈ mm_event_family_id <$> rows ∧
       t = {| lf_family_id := family;
              lf_members := default_member_target <$>
                              sort_by member_row_order (family_rows rows family) |}).
Proof.
  intros Hlen. destruct (group_entries_wf rows) as [Hne Hnd].
  assert (length (btree_entries str_cmp (group_rows rows)) = size (group_rows rows)) as Hsize.
  { rewrite <- (length_btree_keys str_cmp). unfold btree_keys. by rewrite length_fmap. }
  unfold authoritative_discovery_batch.
  rewrite batch_families; [|done|done|by rewrite Hsize]. simpl. eexists. split; [done|]. simpl.
  split_and!.
  - rewrite <- Hsize. generalize (btree_entries str_cmp (group_rows rows)) as l. intros l.
    rewrite fmap_imap. apply list_eq. intros i. rewrite list_lookup_imap.
    destruct (l !! i) as [f|] eqn:E; simpl.
    + symmetry. apply lookup_seqZ. apply lookup_lt_Some in E. lia.
    + symmetry. apply lookup_seqZ_ge. apply lookup_ge_None in E. lia.
  - unfold btree_keys. rewrite <- list_fmap_compose.
    generalize (btree_entries str_cmp (group_rows rows)) as l. intros l.
    rewrite fmap_imap. apply list_eq. intros i. rewrite list_lookup_imap, list_lookup_fmap.
    by destruct (l !! i).
  - intros family t. etransitivity.
    { symmetry. apply (elem_of_list_to_map (M := gmap string)).
      rewrite <- list_fmap_compose. exact Hnd. }
    rewrite list_elem_of_fmap. split.
    + intros ([family' frows] & [= -> ->] & Hin). apply group_entries in Hin as [? ->]. done.
    + intros [Hin ->]. exists (family, family_rows rows family). split; [done|].
      by apply group_entries.
Qed.

(** ** Properties *)

Lemma heartbeat_ticks_effect {S} `{!HeartbeatSource S} n (g g' : HeartbeatTaskGroup X S) inputs :
  heartbeat_ticks n g = Returns (g', inputs) →
  0 <= hg_next_journal_seq g → hg_next_journal_seq g + Z.of_nat n < 2 ^ 63 →
  Forall (heartbeat_input g) inputs ∧
  it_journal_seq <$> inputs = seqZ (hg_next_journal_seq g) (Z.of_nat (length inputs)) ∧
  (length inputs <=
     valid_polls n g + (if hb_requires_reconcile_attention (hg_state g) then 0 else 1))%nat.
Proof.
  revert g inputs. induction n as [|n IH]; intros g inputs; simpl.
  { intros [= <- <-] _ _. split_and!; [constructor|done|simpl; lia]. }
  destruct (heartbeat_tick g) as [[g1 input]|] eqn:Et; simpl; [|done].
  destruct (heartbeat_ticks n g1) as [[g2 rest]|] eqn:Er; simpl; [|done].
  intros [= -> <-] H0 Hb. apply heartbeat_tick_effect in Et as [Hse Hsc Hno Hmo Hin Hsi Hra].
  assert (hg_next_journal_seq g1 = hg_next_journal_seq g ∧ input = None ∨
          hg_next_journal_seq g1 = hg_next_journal_seq g + 1 ∧ is_Some input) as Hnext.
  { destruct input as [i|]; [right|left; auto]. destruct (Hin i eq_refl) as (_ & _ & -> & _).
    split; [|done]. unfold i64_add. rewrite Z.mod_small; lia. }
  destruct (IH g1 rest Er) as (Hf & Hq & Hl); [lia..|].
  assert (Forall (heartbeat_input g) rest) as Hf'.
  { eapply Forall_impl; [done|]. intros i (? & reason & message & E). split; [done|].
    exists reason, message. by rewrite E, Hse, Hsc, Hno. }
  assert (∀ b b' : bool, (b' = true → b = false → (1 <= match (poll (hb_heartbeat_id (hg_state g))
            (hg_source g)).2 with Ok r => if hf_valid r then 1 else 0 | Err _ => 0 end)%nat) →
          ((if b then 0 else 1) <= match (poll (hb_heartbeat_id (hg_state g))
            (hg_source g)).2 with Ok r => if hf_valid r then 1 else 0 | Err _ => 0 end +
            (if b' then 0 else 1))%nat) as Hbool by (intros [] []; naive_solver lia).
  destruct input as [i|]; csimpl.
  - destruct (Hin i eq_refl) as (Hi & Hseq & _ & Hg & Hg1). split_and!.
    + by constructor.
    + rewrite Hseq, Hq. destruct Hnext as [[_ ?]|[-> _]]; [done|].
      rewrite (seqZ_cons (hg_next_journal_seq g)) by lia. f_equal. f_equal; lia.
    + rewrite Hg. rewrite Hg1 in Hl. lia.
  - destruct Hnext as [[E _]|[_ []]]; [|done]. split_and!; [done|by rewrite <- E|].
    specialize (Hbool (hb_requires_reconcile_attention (hg_state g1))
                  (hb_requires_reconcile_attention (hg_state g))).
    enough (hb_requires_reconcile_attention (hg_state g) = true →
            hb_requires_reconcile_attention (hg_state g1) = false →
            (1 <= match (poll (hb_heartbeat_id (hg_state g)) (hg_source g)).2 with
                  | Ok r => if hf_valid r then 1 else 0 | Err _ => 0 end)%nat) as Hx
      by (specialize (Hbool Hx); lia).
    intros H1 H2. destruct (Hra H1 H2) as (r & -> & ->). done.
Qed.

(** C34. The heartbeat group built for the runtime never finds a heartbeat missed: its clock
    is read once, when it is built, so the last success is never older than now. Whatever
    its source does, its ticks return, and what they emit are invalid-heartbeat attentions
    of its session, numbered from 1 without gaps, at most one more than the valid
    heartbeats before them; and a source that fails every poll is never reported at all. *)
Theorem runtime_heartbeat_never_missed {S} `{!HeartbeatSource S} (source : S)
    (session : string) (now later : DateTime) (n : nat)
    (Hadd : dt_add now (dur_seconds 30) = Some later) (Hlater : dt_cmp now later ≠ Gt)
    (Hn : Z.of_nat n < 2 ^ 63 - 1) :
  let g := heartbeat_for_runtime source session now in
  ∃ g' inputs, heartbeat_ticks n g = Returns (g', inputs) ∧
    it_journal_seq <$> inputs = seqZ 1 (Z.of_nat (length inputs)) ∧
    (length inputs <= valid_polls n g + 1)%nat ∧
    Forall (λ i, ∃ message, it_event i =
      runtime_attention_observed "heartbeat" session
        ("heartbeat-attention-" +:+ pretty (it_journal_seq i)) "runtime" "invalid_heartbeat"
        message now) inputs ∧
    ((∀ id s, ∃ e, (poll id s).2 = Err e) → inputs = []).
Proof.
  intros g. assert (group_still now g) as Hg by done.
  assert (∀ n (g : HeartbeatTaskGroup X S), group_still now g →
    hg_session_id g = session → hg_scope_id g = "runtime" →
    ∃ g' inputs, heartbeat_ticks n g = Returns (g', inputs) ∧
    Forall (λ i, ∃ message, it_event i =
      runtime_attention_observed "heartbeat" session
        ("heartbeat-attention-" +:+ pretty (it_journal_seq i)) "runtime" "invalid_heartbeat"
        message now) inputs ∧
    ((∀ id s, ∃ e, (poll id s).2 = Err e) → inputs = [])) as Hall.
  { clear g Hg n Hn. induction n as [|n IH]; intros g Hg Hs Hsc; simpl.
    { eexists _, []. split; [done|]. split; [constructor|done]. }
    destruct (heartbeat_tick_still now later g Hadd Hlater Hg) as (g1 & input & Et & Hg1 & Hp).
    pose proof (heartbeat_tick_effect _ _ _ Et) as [Hse Hsc' _ _ _ _ _].
    destruct (IH g1 Hg1) as (g2 & rest & Er & Hf & Hnone); [congruence..|].
    rewrite Et. simpl. rewrite Er. simpl. eexists _, _. split; [done|].
    destruct (poll _ (hg_source g)) as [source' [r|e]] eqn:Ep; simpl in Hp.
    - split.
      + destruct input as [i|]; [|done]. constructor; [|done].
        destruct (Hp i eq_refl) as (message & ->). rewrite Hs, Hsc. by exists message.
      + intros Hfail. destruct (Hfail (hb_heartbeat_id (hg_state g)) (hg_source g)) as [e He].
        by rewrite Ep in He.
    - subst input. done. }
  destruct (Hall n g Hg eq_refl eq_refl) as (g' & inputs & Et & Hf & Hnone).
  exists g', inputs. split; [done|].
  destruct (heartbeat_ticks_effect n g g' inputs Et) as (_ & Hq & Hl); [done|simpl; lia|].
  split_and!; done.
Qed.
End tasks.

(** ** Witnesses *)

Module witnesses.
(** A source that answers once and then fails. *)
#[local] Instance flaky : HeartbeatSource nat := {|
  poll _ n :=
    match n with
    | O => (1%nat, Ok {| hf_heartbeat_id := ""; hf_valid := false |})
    | _ => (n, Err "timeout")
    end;
|}.

Lemma runtime_heartbeat_never_missed_witness : ∃ g' i,
  heartbeat_ticks (X := Micros) 5 (heartbeat_for_runtime 0%nat "session-1" (1000 : @DateTime Micros)) =
    Returns (g', [i]) ∧ it_journal_seq i = 1.
Proof.
  destruct (runtime_heartbeat_never_missed (X := Micros) 0%nat "session-1"
              (1000 : @DateTime Micros) (1030 : @DateTime Micros) 5)
    as (g' & inputs & E & Hq & _); [reflexivity|discriminate|reflexivity|].
  vm_compute in E. injection E as <- <-. eexists _, _. split; reflexivity.
Defined.
End witnesses.
