(* ===== verification/SdkBackend.v ===== *)
(** * The backends over the venue's SDK

    [venue-polymarket/src/sdk_backend/clob.rs], [metadata.rs] and [ws.rs]: the gateway's
    interfaces implemented with the clients of [polymarket_client_sdk]. The SDK is a
    parameter: its clients, what they answer and how its values are read from text and
    JSON. A 256-bit number is a [Z]; a field that the program only renders is its
    rendering. *)

From S2P Require Import Prelude Text Externals Json Domain WsMessages AppConfig Gateway.

(** ** polymarket_client_sdk *)

Inductive SdkErrorKind :=
| SdkKindStatus | SdkKindValidation | SdkKindSynchronization | SdkKindInternal
| SdkKindWebSocket | SdkKindGeoblock | SdkKindOther.

Record SdkStatus := {
  st_status_code : Z;
  st_method : string;
  st_path : string;
  st_message : string;
}.

(** [error.kind()], [error.downcast_ref::<Status>()] and its display. *)
Record SdkError := {
  se_kind : SdkErrorKind;
  se_status : option SdkStatus;
  se_text : string;
}.

Inductive SdkOrderType := SdkGtc | SdkFok | SdkGtd | SdkFak | SdkUnknownType (name : string).

Inductive SdkSignatureType := SdkSigEoa | SdkSigProxy | SdkSigGnosisSafe.

Record SdkPostOrderResponse := {
  spr_order_id : string;
  spr_status : string;
  spr_success : bool;
  spr_error_msg : option string;
  spr_transaction_hashes : list string;
}.

Record SdkHeartbeatResponse := { shr_heartbeat_id : string; shr_error : option string }.

Record EventsRequest := {
  evr_active : bool;
  evr_closed : bool;
  evr_limit : Z;
  evr_offset : Z;
}.

Record SdkMarket := {
  sdm_condition_id : option string;
  sdm_clob_token_ids : option (list string);
  sdm_group_item_title : option string;
  sdm_short_outcomes : option string;
  sdm_outcomes : option (list string);
  sdm_question : option string;
  sdm_neg_risk : option bool;
  sdm_neg_risk_other : option bool;
}.

Record SdkEvent := {
  sde_id : string;
  sde_title : option string;
  sde_parent_event_id : option string;
  sde_parent_event : option string;
  sde_neg_risk : option bool;
  sde_enable_neg_risk : option bool;
  sde_neg_risk_augmented : option bool;
  sde_markets : option (list SdkMarket);
}.

Record SdkLastTradePrice := {
  slt_asset_id : string;
  slt_price : string;
  slt_size : option string;
}.

(** [stm_status] is rendered by [Debug], the transaction hash in hexadecimal. *)
Record SdkTradeMessage := {
  stm_id : string;
  stm_taker_order_id : option string;
  stm_maker_order_ids : list string;
  stm_status : string;
  stm_market : string;
  stm_price : string;
  stm_size : string;
  stm_fee_rate_bps : option string;
  stm_transaction_hash : option string;
}.

Record SdkOrderMessage := {
  som_id : string;
  som_status : option string;
  som_market : string;
  som_price : string;
  som_original_size : option string;
}.

Inductive SdkWsMessage :=
| SdkWsTrade (trade : SdkTradeMessage)
| SdkWsOrder (order : SdkOrderMessage)
| SdkWsOther (debug : string).

(** Values and their readings; texts of errors are what the library renders. *)
Class SdkValues := {
  SdkAddress : Type;
  SdkSignature : Type;
  SdkUuid : Type;
  address_from_str : string → result string SdkAddress;
  address_to_string : SdkAddress → string;
  signature_from_str : string → result string SdkSignature;
  signature_to_string : SdkSignature → string;
  uuid_parse_str : string → result string SdkUuid;
  u256_from_str : string → result string Z;
  b256_from_str : string → result string string;
  u256_from_json : Json → result string Z;
  address_from_json : Json → result string SdkAddress;
  from_value_error : Json → string;
}.

Section values.
Context {V : SdkValues}.

(** The order of the exchange contract; [side] and [signatureType] are bytes. *)
Record SdkOrder := {
  ord_salt : Z;
  ord_maker : SdkAddress;
  ord_signer : SdkAddress;
  ord_taker : SdkAddress;
  ord_token_id : Z;
  ord_maker_amount : Z;
  ord_taker_amount : Z;
  ord_expiration : Z;
  ord_nonce : Z;
  ord_fee_rate_bps : Z;
  ord_side : Z;
  ord_signature_type : Z;
}.

Record SdkSignedOrder := {
  sso_order : SdkOrder;
  sso_signature : SdkSignature;
  sso_order_type : SdkOrderType;
  sso_owner : SdkUuid;
  sso_post_only : bool;
}.
End values.

(** The clients. What a client does to the venue is its effect on [World]. *)
Class SdkClients {V : SdkValues} {World : Type} := {
  SdkClobClient : Type;
  SdkGammaClient : Type;
  SdkWsConfig : Type;
  SdkWsClient : Type;
  SdkWsUserClient : Type;
  SdkTradeStream : Type;
  SdkUserStream : Type;
  clob_orders : SdkClobClient → World → World * result SdkError (list string);
  clob_post_order : SdkClobClient → SdkSignedOrder → World →
    World * result SdkError SdkPostOrderResponse;
  clob_heartbeat : SdkClobClient → option SdkUuid → World →
    World * result SdkError SdkHeartbeatResponse;
  gamma_events : SdkGammaClient → EventsRequest → World → World * result SdkError (list SdkEvent);
  ws_client_new : string → SdkWsConfig → result SdkError SdkWsClient;
  ws_authenticate : SdkWsClient → SdkUuid → string → string → SdkAddress →
    result SdkError SdkWsUserClient;
  ws_subscribe_last_trade_price : SdkWsClient → list Z → World →
    World * result SdkError SdkTradeStream;
  ws_next_trade : SdkTradeStream → World → World * option (result SdkError SdkLastTradePrice);
  ws_subscribe_user_events : SdkWsUserClient → list string → World →
    World * result SdkError SdkUserStream;
  ws_next_user : SdkUserStream → World → World * option (result SdkError SdkWsMessage);
}.

Section backend.
Context {X : Externals} {R : RestOps} {V : SdkValues} {World : Type}.
Context {K : SdkClients (World := World)}.

(** A call that may fail and acts on the world, as the [async] methods are written. *)
Definition Call (A : Type) : Type := World → World * result PolymarketGatewayError A.

#[local] Instance call_ret : MRet Call := λ A a w, (w, Ok a).
#[local] Instance call_bind : MBind Call := λ A B f m w,
  match m w with (w, Ok a) => f a w | (w, Err e) => (w, Err e) end.

Definition call_of {A} (r : result PolymarketGatewayError A) : Call A := λ w, (w, r).
Definition sdk_call {A} (map_error : SdkError → PolymarketGatewayError)
    (m : World → World * result SdkError A) : Call A := λ w,
  let '(w, r) := m w in (w, map_err map_error r).

Definition protocol {A} (message : string) : result PolymarketGatewayError A :=
  Err (gateway_error KindProtocol message).

(** ** clob.rs *)

Definition status_error (error : SdkError) : PolymarketGatewayError :=
  gateway_error KindUpstreamResponse
    match se_status error with
    | Some status =>
        st_method status +:+ " " +:+ st_path status +:+ " returned " +:+
        status_text (st_status_code status) +:+ ": " +:+ st_message status
    | None => se_text error
    end.

Definition clob_map_sdk_error (error : SdkError) : PolymarketGatewayError :=
  match se_kind error with
  | SdkKindStatus => status_error error
  | SdkKindValidation => gateway_error KindProtocol (se_text error)
  | SdkKindSynchronization | SdkKindInternal => gateway_error KindConnectivity (se_text error)
  | SdkKindWebSocket => gateway_error KindProtocol (se_text error)
  | SdkKindGeoblock => gateway_error KindPolicy (se_text error)
  | SdkKindOther => gateway_error KindProtocol (se_text error)
  end.

Definition sdk_order_type (name : string) : SdkOrderType :=
  if bool_decide (name ∈ ["GTC"; "gtc"]) then SdkGtc
  else if bool_decide (name ∈ ["FOK"; "fok"]) then SdkFok
  else if bool_decide (name ∈ ["GTD"; "gtd"]) then SdkGtd
  else if bool_decide (name ∈ ["FAK"; "fak"]) then SdkFak
  else SdkUnknownType name.

(** [serde_json::from_value] of a field of the payload. *)
Definition payload_field {A} (payload : list (string * Json)) (name : string)
    (from_value : Json → result string A) : result PolymarketGatewayError A :=
  v ← ok_or (field_get name payload)
        (gateway_error KindProtocol ("signed order payload is missing " +:+ name));
  map_err (λ err, gateway_error KindProtocol ("invalid signed order " +:+ name +:+ ": " +:+ err))
    (from_value v).

Definition string_from_json (v : Json) : result string string :=
  ok_or (json_as_str v) (from_value_error v).

Definition u8_from_json (v : Json) : result string Z :=
  match v with
  | JNumber n => if bool_decide (0 <= n < 256) then Ok n else Err (from_value_error v)
  | _ => Err (from_value_error v)
  end.

Definition side_byte (side : string) : result PolymarketGatewayError Z :=
  if bool_decide (side ∈ ["BUY"; "buy"]) then Ok 0
  else if bool_decide (side ∈ ["SELL"; "sell"]) then Ok 1
  else protocol ("invalid signed order side: " +:+ side).

Definition sdk_order_of_payload (payload : list (string * Json)) :
    result PolymarketGatewayError SdkOrder :=
  salt ← payload_field payload "salt" u256_from_json;
  maker ← payload_field payload "maker" address_from_json;
  signer ← payload_field payload "signer" address_from_json;
  taker ← payload_field payload "taker" address_from_json;
  token_id ← payload_field payload "tokenId" u256_from_json;
  maker_amount ← payload_field payload "makerAmount" u256_from_json;
  taker_amount ← payload_field payload "takerAmount" u256_from_json;
  expiration ← payload_field payload "expiration" u256_from_json;
  nonce ← payload_field payload "nonce" u256_from_json;
  fee_rate_bps ← payload_field payload "feeRateBps" u256_from_json;
  side ← payload_field payload "side" string_from_json;
  side ← side_byte side;
  signature_type ← payload_field payload "signatureType" u8_from_json;
  Ok {| ord_salt := salt; ord_maker := maker; ord_signer := signer; ord_taker := taker;
        ord_token_id := token_id; ord_maker_amount := maker_amount;
        ord_taker_amount := taker_amount; ord_expiration := expiration; ord_nonce := nonce;
        ord_fee_rate_bps := fee_rate_bps; ord_side := side;
        ord_signature_type := signature_type |}.

Definition sdk_signed_order_from_dto (order : PolymarketSignedOrder) :
    result PolymarketGatewayError SdkSignedOrder :=
  payload ← ok_or (match gs_order order with JObject fields => Some fields | _ => None end)
              (gateway_error KindProtocol "signed order payload must be a JSON object");
  text ← ok_or (v ← field_get "signature" payload; json_as_str v)
           (gateway_error KindProtocol
              "signed order payload is missing its embedded signature");
  signature ← map_err (λ err, gateway_error KindProtocol
                                ("invalid signed order signature: " +:+ err))
                (signature_from_str text);
  owner ← map_err (λ err, gateway_error KindProtocol ("invalid signed order owner: " +:+ err))
            (uuid_parse_str (gs_owner order));
  sdk_order ← sdk_order_of_payload payload;
  Ok {| sso_order := sdk_order; sso_signature := signature;
        sso_order_type := sdk_order_type (gs_order_type order); sso_owner := owner;
        sso_post_only := gs_defer_exec order |}.

(** The three methods of [LiveClobSdkApi]; only the first page of open orders is read. *)
Definition sdk_open_orders (client : SdkClobClient) (query : PolymarketOrderQuery) :
    Call (list PolymarketOpenOrderSummary) :=
  match query with
  | OpenOrders =>
      page ← sdk_call clob_map_sdk_error (clob_orders client);
      mret ((λ id, {| oo_order_id := id |}) <$> page)
  end.

Definition sdk_submit_order (client : SdkClobClient) (order : PolymarketSignedOrder) :
    Call PolymarketSubmitResponse :=
  signed_order ← call_of (sdk_signed_order_from_dto order);
  response ← sdk_call clob_map_sdk_error (clob_post_order client signed_order);
  mret {| psr_order_id := spr_order_id response; psr_status := spr_status response;
          psr_success := spr_success response; psr_error_message := spr_error_msg response;
          psr_transaction_hashes := spr_transaction_hashes response |}.

Definition sdk_post_heartbeat (client : SdkClobClient) (previous_heartbeat_id : option string) :
    Call PolymarketHeartbeatStatus :=
  heartbeat_id ← call_of
    match previous_heartbeat_id with
    | Some id =>
        id ← map_err (λ err, gateway_error KindProtocol ("invalid heartbeat id: " +:+ err))
               (uuid_parse_str id);
        Ok (Some id)
    | None => Ok None
    end;
  response ← sdk_call clob_map_sdk_error (clob_heartbeat client heartbeat_id);
  mret {| hs_heartbeat_id := shr_heartbeat_id response;
          hs_valid := bool_decide (shr_error response = None) |}.

Definition live_clob_sdk_api (client : SdkClobClient) : PolymarketClobApi World :=
  {| clob_open_orders := sdk_open_orders client; clob_submit_order := sdk_submit_order client;
     clob_post_heartbeat := sdk_post_heartbeat client |}.

(** ** metadata.rs *)

Definition metadata_map_sdk_error (error : SdkError) : PolymarketGatewayError :=
  match se_kind error with
  | SdkKindStatus => status_error error
  | SdkKindSynchronization | SdkKindInternal => gateway_error KindConnectivity (se_text error)
  | SdkKindGeoblock => gateway_error KindPolicy (se_text error)
  | SdkKindValidation | SdkKindWebSocket | SdkKindOther =>
      gateway_error KindProtocol (se_text error)
  end.

Definition is_retryable_sdk_error (error : SdkError) : bool :=
  match se_kind error with
  | SdkKindStatus =>
      match se_status error with
      | Some status =>
          bool_decide (500 <= st_status_code status < 600) ||
          bool_decide (st_status_code status = 429)
      | None => false
      end
  | _ => false
  end.

Definition map_sdk_market (market : SdkMarket) : GammaMarket :=
  {| gm_condition_id := sdm_condition_id market;
     gm_clob_token_ids := Values (default [] (sdm_clob_token_ids market));
     gm_group_item_title := sdm_group_item_title market; gm_title := None;
     gm_short_outcomes := from_option TextList (Values []) (sdm_short_outcomes market);
     gm_outcomes := from_option Values (Values []) (sdm_outcomes market);
     gm_question := sdm_question market; gm_neg_risk := sdm_neg_risk market;
     gm_neg_risk_other := sdm_neg_risk_other market |}.

Definition map_sdk_event (event : SdkEvent) : GammaEvent :=
  {| gv_id := Some (sde_id event); gv_title := sde_title event;
     gv_parent_event_id := or_else (sde_parent_event_id event) (sde_parent_event event);
     gv_neg_risk := sde_neg_risk event; gv_enable_neg_risk := sde_enable_neg_risk event;
     gv_neg_risk_augmented := sde_neg_risk_augmented event;
     gv_markets := map_sdk_market <$> default [] (sde_markets event) |}.

(** [n as i32] for a [usize] *)
Definition usize_as_i32 (n : Z) : Z := (n + 2 ^ 31) `mod` 2 ^ 32 - 2 ^ 31.

Definition NEG_RISK_PAGE_MAX_ATTEMPTS : nat := 2.

(** The loop over the attempts that are left. *)
Fixpoint sdk_page_attempts (client : SdkGammaClient) (request : EventsRequest) (left : nat) :
    Call (list GammaEvent) := λ w,
  match left with
  | O =>
      (w, Err (gateway_error KindConnectivity
                 "metadata retry loop exhausted without returning an error"))
  | S left' =>
      match gamma_events client request w with
      | (w, Ok events) => (w, Ok (map_sdk_event <$> events))
      | (w, Err error) =>
          if bool_decide (0 < left')%nat && is_retryable_sdk_error error
          then sdk_page_attempts client request left' w
          else (w, Err (metadata_map_sdk_error error))
      end
  end.

Definition sdk_metadata_page (client : SdkGammaClient) (offset limit : Z) :
    Call (list GammaEvent) :=
  sdk_page_attempts client
    {| evr_active := true; evr_closed := false; evr_limit := usize_as_i32 limit;
       evr_offset := usize_as_i32 offset |} NEG_RISK_PAGE_MAX_ATTEMPTS.

Definition live_metadata_sdk_api (client : SdkGammaClient) : PolymarketMetadataApi World :=
  {| metadata_page := sdk_metadata_page client |}.

(** ** ws.rs *)

Definition map_ws_error (error : SdkError) : PolymarketGatewayError :=
  gateway_error KindConnectivity (se_text error).

Definition map_market_trade_price (event : SdkLastTradePrice) : MarketTradePriceUpdate :=
  {| tp_asset_id := slt_asset_id event; tp_price := slt_price event;
     tp_size := slt_size event; tp_event_ts := None |}.

Definition map_user_trade (event : SdkTradeMessage) : UserTradeUpdate :=
  {| ut_trade_id := stm_id event;
     ut_order_id := default "" (or_else (stm_taker_order_id event)
                                  (head (stm_maker_order_ids event)));
     ut_status := stm_status event; ut_condition_id := stm_market event;
     ut_price := Some (stm_price event); ut_size := Some (stm_size event);
     ut_fee_rate_bps := stm_fee_rate_bps event;
     ut_transaction_hash := stm_transaction_hash event; ut_event_ts := None |}.

Definition map_user_order (event : SdkOrderMessage) : UserOrderUpdate :=
  {| uo_order_id := som_id event; uo_status := default "UNKNOWN" (som_status event);
     uo_condition_id := som_market event; uo_price := Some (som_price event);
     uo_size := som_original_size event; uo_fee_rate_bps := None;
     uo_transaction_hash := None; uo_event_ts := None |}.

(** The first event of a stream. *)
Definition first_event {A} (next : World → World * option (result SdkError A)) (name : string) :
    Call A := λ w,
  match next w with
  | (w, None) =>
      (w, protocol (name +:+ " websocket ended before yielding an event"))
  | (w, Some r) => (w, map_err map_ws_error r)
  end.

Definition parse_ids {A} (parse : string → result string A) (message : string)
    (ids : list string) : result PolymarketGatewayError (list A) :=
  collect_results (λ id, map_err (λ err, gateway_error KindProtocol (message +:+ err)) (parse id))
    ids.

Definition sdk_market_events (base_endpoint : string) (config : SdkWsConfig)
    (token_ids : list string) : Call (list MarketWsEvent) :=
  asset_ids ← call_of (parse_ids u256_from_str "invalid market token id: " token_ids);
  client ← call_of (map_err map_ws_error (ws_client_new base_endpoint config));
  stream ← sdk_call map_ws_error (ws_subscribe_last_trade_price client asset_ids);
  first ← first_event (ws_next_trade stream) "market";
  mret [LastTradePrice (map_market_trade_price first)].

Definition sdk_user_events (base_endpoint : string) (config : SdkWsConfig)
    (auth : PolymarketUserStreamAuth) (condition_ids : list string) :
    Call (list UserWsEvent) :=
  markets ← call_of (parse_ids b256_from_str "invalid user market condition id: " condition_ids);
  api_key ← call_of (map_err (λ err, gateway_error KindProtocol
                                       ("invalid websocket api key uuid: " +:+ err))
                       (uuid_parse_str (us_api_key auth)));
  address ← call_of (map_err (λ err, gateway_error KindProtocol
                                       ("invalid websocket address: " +:+ err))
                       (address_from_str (us_address auth)));
  client ← call_of (map_err map_ws_error (ws_client_new base_endpoint config));
  client ← call_of (map_err map_ws_error
                      (ws_authenticate client api_key (us_secret auth) (us_passphrase auth)
                         address));
  stream ← sdk_call map_ws_error (ws_subscribe_user_events client markets);
  first ← first_event (ws_next_user stream) "user";
  call_of match first with
          | SdkWsTrade trade => Ok [UserTrade (map_user_trade trade)]
          | SdkWsOrder order => Ok [UserOrder (map_user_order order)]
          | SdkWsOther debug => protocol ("unexpected user websocket message: " +:+ debug)
          end.

Definition live_ws_sdk_api (base_endpoint : string) (config : SdkWsConfig) :
    PolymarketStreamApi X World :=
  {| stream_market_events := sdk_market_events base_endpoint config;
     stream_user_events := sdk_user_events base_endpoint config |}.
End backend.
