(* ===== verification/LiveBackend.v ===== *)
(** * The live execution backend

    [app-live/src/polymarket_runtime_adapter.rs]: the signer over the venue's SDK, and the
    backend that executes a family of the live batch with it: plan, sign, submit through
    the gateway, record. *)

From S2P Require Import Prelude Text Externals Json Domain Plans Execution LiveRecords.
From S2P Require Import WsMessages AppConfig Gateway Submit SdkBackend.

(** ** The SDK and alloy: signing *)

Inductive SdkSide := SdkBuy | SdkSell | SdkUnknownSide.

Record Eip712Domain {V : SdkValues} := {
  ed_name : string;
  ed_version : string;
  ed_chain_id : Z;
  ed_verifying_contract : SdkAddress;
}.
Arguments Eip712Domain _ : clear implicits.

Record LimitOrder {X : Externals} := {
  lo_token_id : Z;
  lo_price : Decimal;
  lo_size : Decimal;
  lo_side : SdkSide;
  lo_order_type : SdkOrderType;
  lo_post_only : bool;
}.
Arguments LimitOrder _ : clear implicits.

(** [sdk_polygon], [private_key_var] are constants of the SDK; [order_signing_hash] is the
    EIP-712 hash in hexadecimal, with its prefix; [shared_runtime] is what
    [tokio::runtime::Builder] builds. *)
Class SdkSigning {X : Externals} {U : UrlOps} {V : SdkValues} {World : Type}
    {K : SdkClients (World := World)} := {
  SdkSigner : Type;
  SdkBaseClient : Type;
  SdkSignable : Type;
  private_key_var : string;
  sdk_polygon : Z;
  signer_from_str : string → result string SdkSigner;
  signer_with_chain_id : option Z → SdkSigner → SdkSigner;
  signer_chain_id : SdkSigner → option Z;
  shared_runtime : result string (RuntimeHandle World);
  clob_client_new : Url → result string SdkBaseClient;
  clob_authenticate : SdkBaseClient → SdkSigner → SdkUuid * (string * string) →
    SdkSignatureType → option SdkAddress → World → World * result string SdkClobClient;
  limit_order_build : SdkClobClient → LimitOrder X → World → World * result string SdkSignable;
  client_sign : SdkClobClient → SdkSigner → SdkSignable → World →
    World * result string SdkSignedOrder;
  client_neg_risk : SdkClobClient → Z → World → World * result string bool;
  contract_exchange : Z → bool → option SdkAddress;
  side_try_from : Z → option SdkSide;
  order_signing_hash : SdkOrder → Eip712Domain V → string;
}.

Section live.
Context {X : Externals} {J : JsonOps} {U : UrlOps} {R : RestOps} {V : SdkValues}.
Context {World : Type} {K : SdkClients (World := World)} {S : SdkSigning}.

(** ** Errors *)

Inductive PolymarketRuntimeAdapterError :=
| MissingPrivateKeyEnv (env_var : string)
| InvalidPrivateKey (message : string)
| InvalidApiKey (value : string)
| InvalidAddress (field value : string)
| InvalidSignatureType (value : string)
| SdkFailure (message : string).

Definition adapter_error_text (e : PolymarketRuntimeAdapterError) : string :=
  match e with
  | MissingPrivateKeyEnv env_var => "missing required environment variable " +:+ env_var
  | InvalidPrivateKey message => "invalid polymarket private key: " +:+ message
  | InvalidApiKey value => "invalid polymarket api key UUID: " +:+ value
  | InvalidAddress field value => "invalid " +:+ field +:+ ": " +:+ value
  | InvalidSignatureType value => "unsupported polymarket signature_type: " +:+ value
  | SdkFailure message => message
  end.

Definition parse_signature_type (value : string) :
    result PolymarketRuntimeAdapterError SdkSignatureType :=
  let other := to_ascii_lowercase (trim value) in
  if bool_decide (other = "eoa") then Ok SdkSigEoa
  else if bool_decide (other = "proxy") then Ok SdkSigProxy
  else if bool_decide (other = "gnosis_safe") then Ok SdkSigGnosisSafe
  else Err (InvalidSignatureType other).

Definition parse_address (field value : string) :
    result PolymarketRuntimeAdapterError SdkAddress :=
  map_err (λ _, InvalidAddress field value) (address_from_str value).

(** ** The signer *)

Record PolymarketOrderSigner := {
  os_runtime : RuntimeHandle World;
  os_client : SdkClobClient;
  os_signer : SdkSigner;
}.

(** [PolymarketOrderSigner::from_runtime_inputs]; [private_key] is the environment's. *)
Definition order_signer_from_runtime_inputs (private_key : option string)
    (source : PolymarketSourceConfig) (credentials : PolymarketGatewayCredentials) (w : World) :
    World * result PolymarketRuntimeAdapterError PolymarketOrderSigner :=
  let inputs :=
    private_key ← ok_or private_key (MissingPrivateKeyEnv private_key_var);
    signer ← map_err InvalidPrivateKey (signer_from_str private_key);
    let signer := signer_with_chain_id (Some sdk_polygon) signer in
    api_key ← map_err (λ _, InvalidApiKey (gc_api_key credentials))
                (uuid_parse_str (gc_api_key credentials));
    runtime ← map_err SdkFailure shared_runtime;
    base ← map_err SdkFailure (clob_client_new (psc_clob_host source));
    signature_type ← parse_signature_type (gc_signature_type credentials);
    funder ← match signature_type with
             | SdkSigEoa => Ok None
             | SdkSigProxy | SdkSigGnosisSafe =>
                 address ← parse_address "polymarket.account.funder_address"
                             (gc_funder_address credentials);
                 Ok (Some address)
             end;
    Ok (runtime, (signer, (base, ((api_key, (gc_secret credentials, gc_passphrase credentials)),
                                  (signature_type, funder))))) in
  match inputs with
  | Err e => (w, Err e)
  | Ok (runtime, (signer, (base, (sdk_credentials, (signature_type, funder))))) =>
      match clob_authenticate base signer sdk_credentials signature_type funder w with
      | (w, Err error) => (w, Err (SdkFailure error))
      | (w, Ok client) =>
          (w, Ok {| os_runtime := runtime; os_client := client; os_signer := signer |})
      end
  end.

Definition signed_order_hash (signed_order : SdkSignedOrder) (chain_id : Z) (is_neg_risk : bool) :
    result string string :=
  exchange ← ok_or (contract_exchange chain_id is_neg_risk)
               ("missing polymarket contract config for chain " +:+ pretty chain_id);
  Ok (order_signing_hash (sso_order signed_order)
        {| ed_name := "Polymarket CTF Exchange"; ed_version := "1"; ed_chain_id := chain_id;
           ed_verifying_contract := exchange |}).

Definition signer_failure {A} (plan reason : string) : result SigningError A :=
  Err (SignerFailure plan reason).

(** The calls a member takes: its order is built, signed, and its exchange looked up. *)
Definition sdk_sign_order (s : PolymarketOrderSigner) (token_id : Z)
    (member : NegRiskMemberOrderPlan) (w : World) :
    World * result string (SdkSignedOrder * bool) :=
  match limit_order_build (os_client s)
          {| lo_token_id := token_id; lo_price := mo_price member;
             lo_size := mo_quantity member; lo_side := SdkBuy; lo_order_type := SdkGtc;
             lo_post_only := false |} w with
  | (w, Err e) => (w, Err e)
  | (w, Ok signable) =>
      match client_sign (os_client s) (os_signer s) signable w with
      | (w, Err e) => (w, Err e)
      | (w, Ok signed_order) =>
          match client_neg_risk (os_client s) token_id w with
          | (w, Err e) => (w, Err e)
          | (w, Ok is_neg_risk) => (w, Ok (signed_order, is_neg_risk))
          end
      end
  end.

Definition side_label (plan : string) (side : Z) : result SigningError string :=
  match side_try_from side with
  | Some SdkBuy => Ok "BUY"
  | Some SdkSell => Ok "SELL"
  | _ => signer_failure plan ("unsupported sdk side value: " +:+ pretty side)
  end.

Definition signed_member (plan : string) (chain_id : Z) (member : NegRiskMemberOrderPlan)
    (signed_order : SdkSignedOrder) (is_neg_risk : bool) : result SigningError SignedFamilyMember :=
  let order := sso_order signed_order in
  hash ← map_err (SignerFailure plan) (signed_order_hash signed_order chain_id is_neg_risk);
  side ← side_label plan (ord_side order);
  Ok {| sm_condition_id := mo_condition_id member; sm_token_id := mo_token_id member;
        sm_price := mo_price member; sm_quantity := mo_quantity member;
        sm_maker := address_to_string (ord_maker order);
        sm_signer := address_to_string (ord_signer order);
        sm_taker := address_to_string (ord_taker order);
        sm_maker_amount := pretty (ord_maker_amount order);
        sm_taker_amount := pretty (ord_taker_amount order); sm_side := side;
        sm_expiration := pretty (ord_expiration order);
        sm_fee_rate_bps := pretty (ord_fee_rate_bps order);
        sm_signature_type := ord_signature_type order;
        sm_identity := {| so_signed_order_hash := hash; so_salt := pretty (ord_salt order);
                          so_nonce := pretty (ord_nonce order);
                          so_signature := signature_to_string (sso_signature signed_order) |} |}.

Definition sdk_sign_member (s : PolymarketOrderSigner) (plan : string)
    (member : NegRiskMemberOrderPlan) (w : World) :
    World * result SigningError SignedFamilyMember :=
  match u256_from_str (mo_token_id member) with
  | Err error =>
      (w, signer_failure plan ("invalid token_id " +:+ mo_token_id member +:+ ": " +:+ error))
  | Ok token_id =>
      match sdk_sign_order s token_id member w with
      | (w, Err reason) => (w, signer_failure plan reason)
      | (w, Ok (signed_order, is_neg_risk)) =>
          (w, signed_member plan (default sdk_polygon (signer_chain_id (os_signer s))) member
                signed_order is_neg_risk)
      end
  end.

(** The members in turn; the first failure ends the signing. *)
Fixpoint sdk_sign_members (s : PolymarketOrderSigner) (plan : string)
    (members : list NegRiskMemberOrderPlan) (w : World) :
    World * result SigningError (list SignedFamilyMember) :=
  match members with
  | [] => (w, Ok [])
  | member :: members' =>
      match sdk_sign_member s plan member w with
      | (w, Err e) => (w, Err e)
      | (w, Ok signed) =>
          match sdk_sign_members s plan members' w with
          | (w, Err e) => (w, Err e)
          | (w, Ok rest) => (w, Ok (signed :: rest))
          end
      end
  end.

(** [impl OrderSigner for PolymarketOrderSigner] *)
Definition sdk_sign_family (s : PolymarketOrderSigner) (plan : ExecutionPlan) (w : World) :
    World * result SigningError SignedFamilySubmission :=
  match plan with
  | NegRiskSubmitFamily _ members =>
      match sdk_sign_members s (plan_id plan) (canonical_members members) w with
      | (w, Err e) => (w, Err e)
      | (w, Ok signed_members) =>
          (w, Ok {| sf_plan_id := plan_id plan; sf_members := signed_members |})
      end
  | other => (w, Err (UnsupportedPlan (plan_id other)))
  end.

(** ** The backend *)

Record PolymarketLiveExecutionBackend := {
  lb_signer : PolymarketOrderSigner;
  lb_gateway : PolymarketGateway X World;
  lb_runtime : RuntimeHandle World;
  lb_transport : PostOrderTransport;
}.

(** [PolymarketLiveExecutionBackend::from_runtime_inputs] *)
Definition live_backend_from_runtime_inputs (private_key : option string)
    (source : PolymarketSourceConfig) (credentials : PolymarketGatewayCredentials) (w : World) :
    World * result PolymarketRuntimeAdapterError PolymarketLiveExecutionBackend :=
  match order_signer_from_runtime_inputs private_key source credentials w with
  | (w, Err e) => (w, Err e)
  | (w, Ok signer) =>
      (w, Ok {| lb_signer := signer;
                lb_gateway := from_clob_api (live_clob_sdk_api (os_client signer));
                lb_runtime := os_runtime signer;
                lb_transport := {| pt_owner := gc_api_key credentials; pt_order_type := Gtc;
                                   pt_defer_exec := false |} |})
  end.

(** What the sink acts on: the venue, and the capture of the last signed family. A panic
    in the submit provider ends the run, so nothing after it is observed. *)
Definition SinkWorld : Type := outcome (World * option SignedFamilySubmission).

Definition recording_signer_provider (inner : PolymarketOrderSigner) :
    SignerProvider (World := SinkWorld) :=
  {| sign_family plan w :=
       match w with
       | Panics => (Panics, Err (SignerFailure "" ""))
       | Returns (w, last_signed) =>
           match sdk_sign_family inner plan w with
           | (w, Err e) => (Returns (w, last_signed), Err e)
           | (w, Ok signed) => (Returns (w, Some signed), Ok signed)
           end
       end |}.

Definition gateway_backed_submit_provider (gateway : PolymarketGateway X World)
    (runtime : RuntimeHandle World) (transport : PostOrderTransport) :
    VenueExecutionProvider (World := SinkWorld) :=
  {| submit_family signed attempt w :=
       match w with
       | Panics => (Panics, submit_error "")
       | Returns (w, last_signed) =>
           let provider := submit_with_gateway_runtime transport gateway runtime in
           match polymarket_submit_family provider signed attempt w with
           | (w, Returns r) => (Returns (w, last_signed), r)
           | (_, Panics) => (Panics, submit_error "")
           end
       end |}.

Definition ensure_live_execution_succeeded (receipt : ExecutionReceipt) :
    result NegRiskLiveError () :=
  if bool_decide (rc_outcome receipt = Succeeded) then Ok ()
  else Err (LiveUnexpectedOutcome (rc_outcome receipt)).

(** What is made of the execution: the requests are built again from the captured family. *)
Definition live_record_from (transport : PostOrderTransport) (record : ExecutionAttemptRecord)
    (signed_capture : option SignedFamilySubmission) :
    outcome (result NegRiskLiveError NegRiskLiveExecutionRecord) :=
  match
    (_ ← ensure_live_execution_succeeded (ar_receipt record);
     signed ← ok_or signed_capture
       (LiveBackend "neg-risk live signer did not produce a signed family submission");
     requests ← collect_results (λ member,
       map_err (λ error, LiveBackend ("neg-risk live post-order build failed: " +:+
                                      debug_post_order_build_error error))
         (build_post_order_request_from_signed_member member transport)) (sf_members signed);
     Ok (signed, requests))
  with
  | Err e => Returns (Err e)
  | Ok (signed, requests) =>
      order_requests ← expect (mapM post_order_request_json requests);
      let attempt_context := ar_attempt_context record in
      Returns (Ok
        {| lr_idempotency_key := "idem-" +:+ ea_attempt_id (ar_attempt record);
           lr_attempt_id := rc_attempt_id (ar_receipt record);
           lr_plan_id := ea_plan_id (ar_attempt record);
           lr_snapshot_id := ea_snapshot_id (ar_attempt record);
           lr_execution_mode := ac_execution_mode attempt_context;
           lr_attempt_no := ea_attempt_no (ar_attempt record);
           lr_route := ac_route attempt_context; lr_scope := ac_scope attempt_context;
           lr_matched_rule_id := ac_matched_rule_id attempt_context;
           lr_submission_ref := rc_submission_ref (ar_receipt record);
           lr_pending_ref := rc_pending_ref (ar_receipt record);
           lr_artifacts :=
             [{| la_stream := "neg-risk-live-orders";
                 la_payload := json_object
                   [("attempt_id", JString (ac_attempt_id attempt_context));
                    ("route", JString (ac_route attempt_context));
                    ("scope", JString (ac_scope attempt_context));
                    ("matched_rule_id", json_option (ac_matched_rule_id attempt_context));
                    ("plan_id", JString (sf_plan_id signed));
                    ("requests", JArray order_requests)] |}];
           lr_order_requests := order_requests |})
  end.

(** [PolymarketLiveExecutionBackend::execute_live_family] *)
Definition polymarket_execute_live_family (b : PolymarketLiveExecutionBackend)
    (snapshot_id : string) (target : NegRiskFamilyLiveTarget) (matched_rule_id : string)
    (w : World) : outcome (World * result NegRiskLiveError NegRiskLiveExecutionRecord) :=
  let request := family_request "live" Live snapshot_id target matched_rule_id in
  match plan_family_submission request (to_execution_target target) with
  | Err e => Returns (w, Err (LivePlanning e))
  | Ok plan =>
      let sink := live_venue_sink (live_with_submit_provider
        (recording_signer_provider (lb_signer b))
        (gateway_backed_submit_provider (lb_gateway b) (lb_runtime b) (lb_transport b))) in
      let '(o, r) := @execute_with_attempt X SinkWorld sink
        {| orch_sink := Returns (w, None); orch_attempt_factory := factory_new |}
        {| pi_request := request; pi_execution_mode := er_activation_mode request;
           pi_plan := plan |} in
      '(w, signed_capture) ← orch_sink o;
      match r with
      | Err e => Returns (w, Err (LiveSinkFailed e))
      | Ok record =>
          r ← live_record_from (lb_transport b) record signed_capture;
          Returns (w, r)
      end
  end.

Definition polymarket_live_backend (b : PolymarketLiveExecutionBackend) :
    NegRiskLiveExecutionBackend (World := World) :=
  {| execute_live_family := polymarket_execute_live_family b |}.
End live.
