(* ===== verification/LiveProofs.v ===== *)
(** * Theorems about the live backend

    The order that reaches the venue is the order that was signed, and the record of a
    live family is the record of what was sent. *)

From Stdlib Require Import Ascii.
From S2P Require Import Prelude Text Externals Json Domain Plans Execution LiveRecords.
From S2P Require Import WsMessages AppConfig Gateway Submit SubmitProofs SdkBackend LiveBackend.

(** ** Laws of the SDK

    What is printed is read back, numbers of 64 bits as JSON numbers too; a side is a buy
    or a sell as the exchange contract counts them; a client signs the order it was asked
    for, with a salt of 64 bits at most, and owns it. *)
Definition order_in_range {V : SdkValues} (o : SdkOrder) : Prop :=
  0 <= ord_salt o < 2 ^ 64 ∧
  Forall (λ n, 0 <= n < 2 ^ 256)
    [ord_maker_amount o; ord_taker_amount o; ord_expiration o; ord_nonce o; ord_fee_rate_bps o] ∧
  0 <= ord_signature_type o < 256.

Class SdkValueLaws {X : Externals} {J : JsonOps} {V : SdkValues} : Prop := {
  address_json_text a : address_from_json (JString (address_to_string a)) = Ok a;
  signature_text s : signature_from_str (signature_to_string s) = Ok s;
  u256_json_text n : 0 <= n < 2 ^ 256 → u256_from_json (JString (pretty n)) = Ok n;
  u256_json_number n : 0 <= n < 2 ^ 64 → u256_from_json (JNumber n) = Ok n;
  u256_json_str s n : u256_from_str s = Ok n → u256_from_json (JString s) = Ok n;
  json_literal_number n : 0 <= n < 2 ^ 64 → json_literal (pretty n) = Some (JNumber n);
}.

Class SdkSigningLaws {X : Externals} {U : UrlOps} {V : SdkValues} {World : Type}
    {K : SdkClients (World := World)} {S : SdkSigning} : Prop := {
  sdk_buy_side b : side_try_from b = Some SdkBuy ↔ b = 0;
  sdk_sell_side b : side_try_from b = Some SdkSell ↔ b = 1;
  signed_as_asked c k lo sg so w0 w1 w2 w3 :
    limit_order_build c lo w0 = (w1, Ok sg) → client_sign c k sg w2 = (w3, Ok so) →
    order_in_range (sso_order so) ∧ ord_token_id (sso_order so) = lo_token_id lo ∧
    sso_order_type so = lo_order_type lo ∧ sso_post_only so = lo_post_only lo;
}.

(** ** Text *)

Lemma pretty_N_go_nonempty x s : s ≠ "" → pretty_N_go x s ≠ "".
Proof.
  revert s. induction (N.lt_wf_0 x) as [x _ IH]; intros s Hs.
  destruct (decide (x = 0)%N) as [->|]; [by rewrite pretty_N_go_0|].
  rewrite pretty_N_go_step by lia. apply IH; [apply N.div_lt; lia|done].
Qed.

Lemma pretty_digits n : 0 <= n → pretty n ≠ "" ∧ str_forall is_digit (pretty n) = true.
Proof.
  intros Hn. destruct n as [|p|p]; [by vm_compute| |lia].
  change (pretty (Z.pos p)) with (pretty (N.pos p)).
  unfold pretty, pretty_N. rewrite decide_False by done. split.
  - rewrite pretty_N_go_step by lia. by apply pretty_N_go_nonempty.
  - by apply pretty_N_go_digits.
Qed.

(** ** What is posted is what was signed *)

Section live.
Context {X : Externals} {J : JsonOps} {U : UrlOps} {R : RestOps} {V : SdkValues}.
Context {World : Type} {K : SdkClients (World := World)} {S : SdkSigning}.

Section roundtrip.
Context `{!SdkValueLaws} `{!SdkSigningLaws}.

Lemma payload_field_found {A} fields name v (from_value : Json → result string A) a :
  NoDup fields.*1 → field_get name fields = Some v → from_value v = Ok a →
  payload_field (sort_by (cmp_on fst str_cmp) fields) name from_value = Ok a.
Proof.
  intros Hn Hf Hv. unfold payload_field.
  pose proof (json_get_object name fields Hn) as E. simpl in E.
  rewrite E, Hf. simpl. by rewrite Hv.
Qed.

Lemma side_label_cases plan b label :
  side_label plan b = Ok label → label = "BUY" ∧ b = 0 ∨ label = "SELL" ∧ b = 1.
Proof.
  unfold side_label. destruct (side_try_from b) as [[]|] eqn:E; try done; intros [= <-].
  - left. by apply sdk_buy_side in E.
  - right. by apply sdk_sell_side in E.
Qed.

Lemma sdk_sign_order_signed s token_id member w w1 so neg :
  sdk_sign_order s token_id member w = (w1, Ok (so, neg)) →
  order_in_range (sso_order so) ∧ ord_token_id (sso_order so) = token_id ∧
  sso_order_type so = SdkGtc ∧ sso_post_only so = false.
Proof.
  unfold sdk_sign_order. set (lo := {| lo_token_id := token_id |}).
  destruct (limit_order_build (os_client s) lo w) as [w2 [sg|]] eqn:El; [|done].
  destruct (client_sign _ _ sg w2) as [w3 [so'|]] eqn:Ec; [|done].
  destruct (client_neg_risk _ _ w3) as [w4 [neg'|]]; [|done]. intros [= _ <- _].
  exact (signed_as_asked _ _ lo _ _ _ _ _ _ El Ec).
Qed.

(** The fields of the order that is posted for [so]. *)
Definition posted_fields (so : SdkSignedOrder) (side token_id : string) : list (string * Json) :=
  let o := sso_order so in
  [("maker", JString (address_to_string (ord_maker o)));
   ("signer", JString (address_to_string (ord_signer o)));
   ("taker", JString (address_to_string (ord_taker o))); ("tokenId", JString token_id);
   ("makerAmount", JString (pretty (ord_maker_amount o)));
   ("takerAmount", JString (pretty (ord_taker_amount o))); ("side", JString side);
   ("expiration", JString (pretty (ord_expiration o)));
   ("nonce", JString (pretty (ord_nonce o)));
   ("feeRateBps", JString (pretty (ord_fee_rate_bps o)));
   ("signature", JString (signature_to_string (sso_signature so)));
   ("salt", JNumber (ord_salt o)); ("signatureType", JNumber (ord_signature_type o))].

Lemma posted_field_get so side token_id name :
  field_get name (sort_by (cmp_on fst str_cmp) (posted_fields so side token_id)) =
  field_get name (posted_fields so side token_id).
Proof.
  apply (json_get_object name). apply (bool_decide_unpack _). reflexivity.
Qed.

Lemma posted_order_read so side token_id :
  order_in_range (sso_order so) → u256_from_str token_id = Ok (ord_token_id (sso_order so)) →
  side = "BUY" ∧ ord_side (sso_order so) = 0 ∨ side = "SELL" ∧ ord_side (sso_order so) = 1 →
  sdk_order_of_payload (sort_by (cmp_on fst str_cmp) (posted_fields so side token_id)) =
  Ok (sso_order so).
Proof.
  intros (Hsalt & Hr & Hst) Htok Hside. unfold sdk_order_of_payload, payload_field.
  rewrite !posted_field_get. 
  do 5 (apply Forall_cons in Hr as [? Hr]).
  simpl. rewrite !u256_json_number, !address_json_text, !u256_json_text by done. simpl.
  rewrite (u256_json_str _ _ Htok). simpl.
  assert (side_byte side = Ok (ord_side (sso_order so))) as ->
    by (destruct Hside as [[-> ->]|[-> ->]]; reflexivity).
  simpl. rewrite bool_decide_true by lia. simpl. by destruct (sso_order so).
Qed.

Lemma signed_member_posted plan chain member so neg sm transport :
  order_in_range (sso_order so) → u256_from_str (mo_token_id member) = Ok (ord_token_id (sso_order so)) →
  signed_member plan chain member so neg = Ok sm →
  sso_order_type so = SdkGtc → sso_post_only so = false →
  ∃ order, member_order transport sm = Ok order ∧
    (uuid_parse_str (pt_owner transport) = Ok (sso_owner so) → pt_defer_exec transport = false →
     sdk_signed_order_from_dto order = Ok so).
Proof.
  intros (Hsalt & Hr & Hst) Htok Hm Hty Hpost. unfold signed_member in Hm.
  destruct (signed_order_hash so chain neg) as [hash|]; simpl in Hm; [|done].
  destruct (side_label plan (ord_side (sso_order so))) as [side|] eqn:Es; simpl in Hm; [|done].
  injection Hm as <-.
  apply side_label_cases in Es.
  destruct (pretty_digits (ord_salt (sso_order so))) as [Hne Hdig]; [lia|].
  unfold member_order, build_post_order_request_from_signed_member.
  cbn [sm_identity so_salt sm_side]. rewrite bool_decide_false, Hdig by done. cbn [negb andb].
  rewrite json_literal_number by done.
  assert (∃ s, (if bool_decide (side = "BUY") then Ok Buy
                else if bool_decide (side = "SELL") then Ok Sell
                else Err (InvalidSide side)) = Ok s ∧
               order_side_json s = JString side) as (side' & -> & Hside).
  { destruct Es as [[-> _]|[-> _]]; eexists; split; reflexivity. }
  simpl. unfold polymarket_signed_order_from_submission, post_order_json. simpl pr_order.
  cbn [po_salt po_maker po_signer po_taker po_token_id po_maker_amount po_taker_amount po_side
       po_expiration po_nonce po_fee_rate_bps po_signature po_signature_type so_nonce
       so_signature sm_maker sm_signer sm_taker sm_token_id sm_maker_amount sm_taker_amount
       sm_expiration sm_fee_rate_bps sm_signature_type].
  rewrite json_literal_number by done. simpl. rewrite Hside. eexists. split; [reflexivity|].
  intros Hown Hdefer. unfold sdk_signed_order_from_dto. cbn [gs_order gs_owner gs_order_type gs_defer_exec].
  unfold json_object at 1. cbn [ok_or mbind result_bind].
  fold (posted_fields so side (mo_token_id member)).
  pose proof (posted_order_read so side (mo_token_id member) (conj Hsalt (conj Hr Hst)) Htok Es)
    as Hread.
  pose proof (posted_field_get so side (mo_token_id member) "signature") as Hsig.
  set (payload := sort_by _ _) in *. clearbody payload. simpl. rewrite Hsig. simpl.
  rewrite signature_text. simpl. rewrite Hown. simpl. rewrite Hread. simpl.
  rewrite Hdefer. destruct (pt_order_type transport).
  destruct so as [o sig ty own post]; simpl in *; subst. done.
Qed.

(** C17. The order that reaches the venue is the order that was signed: whatever the signer
    made of a member is turned into text, into a post-order request and its JSON, and read
    back by the SDK backend as that very signed order, for the token that was asked for, so
    that submitting it through the gateway's client posts exactly what was signed. The
    request can always be built; that it is read back needs only that the transport names
    the owner of the signing client and does not defer. *)
Theorem live_order_roundtrip (s : PolymarketOrderSigner) (plan : string)
    (member : NegRiskMemberOrderPlan) (w w1 : World) (sm : SignedFamilyMember)
    (transport : PostOrderTransport)
    (Hsign : sdk_sign_member s plan member w = (w1, Ok sm)) :
  ∃ so is_neg_risk order,
    u256_from_str (mo_token_id member) = Ok (ord_token_id (sso_order so)) ∧
    sdk_sign_order s (ord_token_id (sso_order so)) member w = (w1, Ok (so, is_neg_risk)) ∧
    so_signature (sm_identity sm) = signature_to_string (sso_signature so) ∧
    member_order transport sm = Ok order ∧
    (uuid_parse_str (pt_owner transport) = Ok (sso_owner so) → pt_defer_exec transport = false →
     sdk_signed_order_from_dto order = Ok so ∧
     ∀ client w2, (clob_submit_order (live_clob_sdk_api client) order w2).1 =
       (clob_post_order client so w2).1).
Proof.
  unfold sdk_sign_member in Hsign.
  destruct (u256_from_str (mo_token_id member)) as [token_id|] eqn:Ht; [|done].
  destruct (sdk_sign_order s token_id member w) as [w' [[so neg]|]] eqn:Eo; [|done].
  injection Hsign as -> Hm.
  apply sdk_sign_order_signed in Eo as Hso. destruct Hso as (Hr & <- & Hty & Hpost).
  destruct (signed_member_posted plan _ member so neg sm transport Hr Ht Hm Hty Hpost)
    as (order & Ho & Hback).
  exists so, neg, order. split_and!; try done.
  - unfold signed_member in Hm. destruct (signed_order_hash _ _ _); [|done]. simpl in Hm.
    destruct (side_label _ _); [|done]. by injection Hm as <-.
  - intros Hown Hdefer. specialize (Hback Hown Hdefer). split; [done|]. intros client w2.
    simpl. unfold sdk_submit_order, call_of, mbind, call_bind. rewrite Hback.
    unfold sdk_call. by destruct (clob_post_order client so w2) as [w3 []].
Qed.
End roundtrip.
(** ** What a live family comes to *)

Definition family_attempt (snapshot_id : string) (target : NegRiskFamilyLiveTarget) (rule : string) :
    ExecutionAttemptContext :=
  {| ac_attempt_id := attempt_id_for_plan_id
       (request_bound_plan_id (target_plan target) (hook_request snapshot_id target rule)) 1;
     ac_snapshot_id := snapshot_id; ac_execution_mode := Live; ac_route := "neg-risk";
     ac_scope := lf_family_id target; ac_matched_rule_id := Some rule |}.

(** A request as it was sent. *)
Definition sent_request (order : PolymarketSignedOrder) : Json :=
  json_object [("order", gs_order order); ("owner", JString (gs_owner order));
               ("orderType", JString (gs_order_type order));
               ("deferExec", JBool (gs_defer_exec order))].

(** The record of a submission that was accepted with outcome [o]. *)
Definition submitted_record (snapshot_id : string) (target : NegRiskFamilyLiveTarget)
    (rule : string) (order : PolymarketSignedOrder) (o : LiveSubmitOutcome) :
    NegRiskLiveExecutionRecord :=
  let attempt := family_attempt snapshot_id target rule in
  let receipt := receipt_from_live_submit_outcome attempt o in
  {| lr_attempt_id := ac_attempt_id attempt;
     lr_plan_id :=
       request_bound_plan_id (target_plan target) (hook_request snapshot_id target rule);
     lr_snapshot_id := snapshot_id; lr_execution_mode := Live; lr_attempt_no := 1;
     lr_idempotency_key := "idem-" +:+ ac_attempt_id attempt; lr_route := "neg-risk";
     lr_scope := lf_family_id target; lr_matched_rule_id := Some rule;
     lr_submission_ref := rc_submission_ref receipt; lr_pending_ref := rc_pending_ref receipt;
     lr_artifacts :=
       [{| la_stream := "neg-risk-live-orders";
           la_payload := json_object
             [("attempt_id", JString (ac_attempt_id attempt)); ("route", JString "neg-risk");
              ("scope", JString (lf_family_id target)); ("matched_rule_id", JString rule);
              ("plan_id", JString (plan_id (target_plan target)));
              ("requests", JArray [sent_request order])] |}];
     lr_order_requests := [sent_request order] |}.

Lemma live_sink_eq {W} (signer : SignerProvider (World := W)) provider target attempt w :
  ac_execution_mode attempt = Live →
  live_execute (live_with_submit_provider signer provider) (target_plan target) attempt w =
  match sign_family signer (target_plan target) w with
  | (w, Err err) =>
      (w, Err (SinkRejected ("route execution adapter error: " +:+
                             ("signing error: " +:+ debug_signing_error err))))
  | (w, Ok signed) =>
      match submit_family provider signed attempt w with
      | (w, Err err) => (w, Err (SinkRejected ("route execution adapter error: " +:+ spe_reason err)))
      | (w, Ok o) => (w, Ok (receipt_from_live_submit_outcome attempt o))
      end
  end.
Proof.
  intros Hm. unfold live_execute, ensure_live_sink_mode. rewrite Hm.
  change (is_risk_expanding (target_plan target)) with true. cbv iota.
  change (default (ac_route attempt) (plan_route (target_plan target))) with "neg-risk".
  lazymatch goal with |- context [?m !! "neg-risk"] =>
    change (m !! "neg-risk") with (Some (negrisk_adapter (Some signer) (Some provider))) end.
  simpl. unfold negrisk_submit_live.
  destruct (sign_family signer (target_plan target) w) as [w1 [signed|err]]; [|done].
  by destruct (submit_family provider signed attempt w1) as [w2 []].
Qed.

Lemma execute_family_eq {W} (sink : VenueSink W) snapshot_id target rule (w : W) :
  let request := family_request "live" Live snapshot_id target rule in
  @execute_with_attempt X W sink
    {| orch_sink := w; orch_attempt_factory := factory_new |}
    {| pi_request := request; pi_execution_mode := er_activation_mode request;
       pi_plan := target_plan target |} =
  let attempt := family_attempt snapshot_id target rule in
  let plan := request_bound_plan_id (target_plan target) (hook_request snapshot_id target rule) in
  let '(w, r) := sink_execute (VenueSink := sink) (target_plan target) attempt w in
  ({| orch_sink := w;
      orch_attempt_factory := {| next_attempt_no_by_plan := <[plan := 1]> ∅ |} |},
   match r with
   | Err error => Err (SinkFailure error)
   | Ok receipt =>
       Ok {| ar_attempt := {| ea_attempt_id := ac_attempt_id attempt; ea_plan_id := plan;
                              ea_snapshot_id := snapshot_id; ea_attempt_no := 1 |};
             ar_attempt_context := attempt; ar_receipt := receipt |}
   end).
Proof.
  intros request. unfold execute_with_attempt, orchestrator_plan.
  simpl pi_execution_mode. simpl pi_request. rewrite bool_decide_eq_true_2 by done.
  simpl negb. cbv iota. rewrite bool_decide_eq_false_2 by done. simpl andb. cbv iota.
  unfold next_for_plan. simpl pi_plan. simpl next_attempt_no_by_plan.
  rewrite lookup_empty. simpl default. change (u32_add 0 1) with 1. cbv zeta iota beta.
  fold (hook_request snapshot_id target rule).
  change (er_snapshot_id request) with snapshot_id.
  reflexivity.
Qed.

Lemma sdk_sign_members_length s plan members w w1 signed :
  sdk_sign_members s plan members w = (w1, Ok signed) → length signed = length members.
Proof.
  revert w w1 signed. induction members as [|m members IH]; intros w w1 signed; simpl;
    [by intros [= _ <-]|].
  destruct (sdk_sign_member s plan m w) as [w2 [sm|]]; [|done].
  destruct (sdk_sign_members s plan members w2) as [w3 [rest|]] eqn:E; [|done].
  intros [= _ <-]. simpl. by rewrite (IH _ _ _ E).
Qed.

Lemma sdk_sign_target s target w w1 signed :
  sdk_sign_family s (target_plan target) w = (w1, Ok signed) →
  sf_plan_id signed = plan_id (target_plan target) ∧
  length (sf_members signed) = length (lf_members target).
Proof.
  unfold sdk_sign_family, target_plan.
  destruct (sdk_sign_members _ _ _ w) as [w2 [members|]] eqn:E; [|done].
  intros [= _ <-]. split; [done|]. simpl. rewrite (sdk_sign_members_length _ _ _ _ _ _ E).
  unfold canonical_members. by rewrite !length_sort_by, !length_fmap.
Qed.

(** The request that is recorded is built again as it was sent. *)
Lemma member_order_request transport m order :
  member_order transport m = Ok order →
  ∃ request, build_post_order_request_from_signed_member m transport = Ok request ∧
    post_order_request_json request = Some (sent_request order).
Proof.
  unfold member_order.
  destruct (build_post_order_request_from_signed_member m transport) as [request|]; [|done].
  simpl. unfold polymarket_signed_order_from_submission, post_order_request_json.
  destruct (post_order_json (pr_order request)) as [j|] eqn:Ej; [|done]. simpl. intros [= <-].
  exists request. by rewrite Ej.
Qed.

Lemma submit_member_sent p attempt m (w w' : World) o :
  submit_member_async p attempt m w = (w', Ok o) →
  ∃ order, member_order (sp_transport p) m = Ok order.
Proof.
  unfold submit_member_async. destruct (member_order (sp_transport p) m) as [order|]; [|done].
  intros _. by exists order.
Qed.

Lemma receipt_succeeds attempt o :
  ensure_live_execution_succeeded (receipt_from_live_submit_outcome attempt o) =
  if is_accepted o then Ok ()
  else Err (LiveUnexpectedOutcome (rc_outcome (receipt_from_live_submit_outcome attempt o))).
Proof. by destruct o as [| |[]|]. Qed.

Lemma receipt_attempt attempt o :
  rc_attempt_id (receipt_from_live_submit_outcome attempt o) = ac_attempt_id attempt.
Proof. by destruct o as [| |[]|]. Qed.

Lemma live_record_built transport snapshot_id target rule plan attempt signed m order o :
  sf_plan_id signed = plan_id (target_plan target) → sf_members signed = [m] →
  attempt = family_attempt snapshot_id target rule →
  plan = request_bound_plan_id (target_plan target) (hook_request snapshot_id target rule) →
  member_order transport m = Ok order →
  live_record_from transport
    {| ar_attempt := {| ea_attempt_id := ac_attempt_id attempt; ea_plan_id := plan;
                        ea_snapshot_id := snapshot_id; ea_attempt_no := 1 |};
       ar_attempt_context := attempt; ar_receipt := receipt_from_live_submit_outcome attempt o |}
    (Some signed) =
  Returns (if is_accepted o then Ok (submitted_record snapshot_id target rule order o)
           else Err (LiveUnexpectedOutcome (rc_outcome (receipt_from_live_submit_outcome attempt o)))).
Proof.
  intros Hp Hm -> -> Ho. destruct (member_order_request _ _ _ Ho) as (request & Hb & Hj).
  unfold live_record_from. cbn [ar_receipt]. rewrite receipt_succeeds.
  destruct (is_accepted o); [|done]. simpl. rewrite Hm. simpl. rewrite Hb. simpl.
  rewrite Hj. simpl. rewrite Hp, receipt_attempt. done.
Qed.

(** C18. A live family comes to what the venue answers for its one member, and its record is
    the record of what was sent. The family is signed; a failure, or any number of members
    but one, ends the execution with an error before anything is submitted; else the
    member's order is submitted once, and only an accepted outcome gives a record: that of
    the attempt, with the references of the outcome, whose request is the order that was
    sent, field for field, in the record and in its artifact. Nothing panics. *)
Theorem live_family_execution (b : PolymarketLiveExecutionBackend) (snapshot_id : string)
    (target : NegRiskFamilyLiveTarget) (rule : string) (w : World)
    (Hup : handle_runs (lb_runtime b)) :
  let attempt := family_attempt snapshot_id target rule in
  let p := submit_with_gateway_runtime (lb_transport b) (lb_gateway b) (lb_runtime b) in
  let executed := polymarket_execute_live_family b snapshot_id target rule w in
  match sdk_sign_family (lb_signer b) (target_plan target) w with
  | (w1, Ok {| sf_members := [m] |}) =>
      length (lf_members target) = 1%nat ∧
      match submit_member_async p attempt m w1 with
      | (w2, Ok o) =>
          if is_accepted o then
            ∃ order, member_order (lb_transport b) m = Ok order ∧
              executed = Returns (w2, Ok (submitted_record snapshot_id target rule order o))
          else ∃ e, executed = Returns (w2, Err e)
      | (w2, Err _) => ∃ e, executed = Returns (w2, Err e)
      end
  | (w1, _) => ∃ e, executed = Returns (w1, Err e)
  end.
Proof.
  intros attempt p executed. unfold executed, polymarket_execute_live_family.
  rewrite target_plan_planned, execute_family_eq. fold attempt.
  cbn [sink_execute live_venue_sink]. rewrite live_sink_eq by done.
  cbn [sign_family recording_signer_provider].
  destruct (sdk_sign_family (lb_signer b) (target_plan target) w) as [w1 [signed|err]] eqn:Es;
    [|simpl; by eexists].
  apply sdk_sign_target in Es as [Hid Hlen].
  cbn [submit_family gateway_backed_submit_provider]. fold p.
  rewrite submit_family_members. destruct signed as [id members]. simpl in Hid, Hlen.
  cbn [sf_members]. destruct members as [|m [|m' ms]]; [simpl; by eexists| |simpl; by eexists].
  split; [done|].
  assert (submit_member p attempt m w1 = submit_member_async p attempt m w1) as ->
    by (by apply submit_member_up).
  destruct (submit_member_async p attempt m w1) as [w2 [o|e]] eqn:Esub; [|simpl; by eexists].
  destruct (submit_member_sent _ _ _ _ _ _ Esub) as [order Ho].
  cbn [orch_sink mbind outcome_bind fst snd].
  rewrite (live_record_built _ snapshot_id target rule _ attempt _ m order) by done.
  simpl. destruct (is_accepted o); eauto.
Qed.
End live.

(** ** Witnesses *)

Module witnesses.
(** Decimal text of any size. *)
Fixpoint read_decimal (acc : Z) (s : string) : option Z :=
  match s with
  | EmptyString => Some acc
  | String c s' => d ← digit_value c; read_decimal (acc * 10 + d) s'
  end.

Lemma read_pretty_N_go x s : read_decimal 0 (pretty_N_go x s) = read_decimal (Z.of_N x) s.
Proof.
  revert s. induction (N.lt_wf_0 x) as [x _ IH]; intros s.
  destruct (decide (x = 0)%N) as [->|]; [by rewrite pretty_N_go_0|].
  rewrite pretty_N_go_step, IH by (try apply N.div_lt; lia). simpl.
  rewrite digit_value_pretty by (apply N.mod_lt; lia). simpl. f_equal.
  pose proof (N.div_mod x 10). lia.
Qed.

Lemma read_pretty n : 0 <= n → read_decimal 0 (pretty n) = Some n.
Proof.
  intros Hn. destruct n as [|p|p]; [by vm_compute| |lia].
  change (pretty (Z.pos p)) with (pretty (N.pos p)). unfold pretty, pretty_N.
  rewrite decide_False by done. by rewrite read_pretty_N_go.
Qed.

Definition read_u256 (s : string) : result string Z :=
  ok_or (read_decimal 0 s) "not a number".

#[local] Instance plain_sdk_values : SdkValues := {|
  SdkAddress := string; SdkSignature := string; SdkUuid := string;
  address_from_str s := Ok s; address_to_string s := s;
  signature_from_str s := Ok s; signature_to_string s := s;
  uuid_parse_str s := Ok s; u256_from_str := read_u256; b256_from_str s := Ok s;
  u256_from_json v := match v with
                      | JString s => read_u256 s
                      | JNumber n => Ok n
                      | _ => Err "not a number"
                      end;
  address_from_json v := ok_or (json_as_str v) "not an address";
  from_value_error _ := "invalid type";
|}.

#[local] Instance reading_json : JsonOps (X := Micros) :=
  {| json_text _ := ""; json_literal s := JNumber <$> read_decimal 0 s;
     json_decimal := λ d : @Decimal Micros, JNumber d |}.

#[local] Instance plain_sdk_laws : SdkValueLaws (X := Micros).
Proof.
  split; simpl; try done.
  - intros n Hn. unfold read_u256. by rewrite read_pretty by lia.
  - intros n Hn. by rewrite read_pretty by lia.
Qed.

(** A venue that remembers the orders that were posted and leaves each one live; its
    client is the uuid of its owner. *)
#[local] Instance plain_clients : SdkClients (World := list SdkSignedOrder) := {|
  SdkClobClient := string; SdkGammaClient := (); SdkWsConfig := (); SdkWsClient := ();
  SdkWsUserClient := (); SdkTradeStream := (); SdkUserStream := ();
  clob_orders _ w := (w, Ok []);
  clob_post_order _ so w :=
    (w ++ [so], Ok {| spr_order_id := "order-1"; spr_status := "LIVE"; spr_success := true;
                      spr_error_msg := None; spr_transaction_hashes := [] |});
  clob_heartbeat _ _ w := (w, Ok {| shr_heartbeat_id := "hb"; shr_error := None |});
  gamma_events _ _ w := (w, Ok []);
  ws_client_new _ _ := Ok (); ws_authenticate _ _ _ _ _ := Ok ();
  ws_subscribe_last_trade_price _ _ w := (w, Ok ()); ws_next_trade _ w := (w, None);
  ws_subscribe_user_events _ _ w := (w, Ok ()); ws_next_user _ w := (w, None);
|}.

Definition inline_runtime {W} : RuntimeHandle W :=
  {| rh_is_current := false; rh_run T task w := ((task w).1, Some (task w).2) |}.

Lemma inline_runtime_runs {W} : handle_runs (@inline_runtime W).
Proof. by split. Qed.

#[local] Instance code_text : RestOps := {| status_text code := pretty code |}.

#[local] Instance plain_url_ops : UrlOps := {|
  Url := string; url_parse s := Ok s; url_scheme _ := "https"; url_host_str s := Some s;
  url_path _ := "/"; url_query _ := None; url_fragment _ := None; header_value_ok _ := true;
|}.

#[local] Instance plain_signing : SdkSigning (X := Micros) (World := list SdkSignedOrder) := {|
  SdkSigner := string; SdkBaseClient := string; SdkSignable := LimitOrder Micros;
  private_key_var := "POLYMARKET_PRIVATE_KEY"; sdk_polygon := 137;
  signer_from_str s := Ok s; signer_with_chain_id _ s := s; signer_chain_id _ := Some 137;
  shared_runtime := Ok inline_runtime; clob_client_new s := Ok s;
  clob_authenticate _ _ credentials _ _ w := (w, Ok credentials.1);
  limit_order_build _ lo w := (w, Ok lo);
  client_sign client signer lo w :=
    (w, Ok {| sso_order :=
                {| ord_salt := 7; ord_maker := signer; ord_signer := signer;
                   ord_taker := "0x0"; ord_token_id := lo_token_id lo;
                   ord_maker_amount := 2; ord_taker_amount := 5;
                   ord_expiration := 0; ord_nonce := 0; ord_fee_rate_bps := 3;
                   ord_side := 0; ord_signature_type := 1 |};
              sso_signature := "0xsigned"; sso_order_type := lo_order_type lo;
              sso_owner := client; sso_post_only := lo_post_only lo |});
  client_neg_risk _ _ w := (w, Ok true); contract_exchange _ _ := Some "0xexchange";
  side_try_from b := if bool_decide (b = 0) then Some SdkBuy
                     else if bool_decide (b = 1) then Some SdkSell else None;
  order_signing_hash _ _ := "0xhash";
|}.

#[local] Instance plain_signing_laws : SdkSigningLaws (X := Micros).
Proof.
  split; simpl.
  - intros b. case_bool_decide; [done|]. case_bool_decide; [|done]. by subst.
  - intros b. case_bool_decide; [by subst|]. by case_bool_decide.
  - intros c k lo sg so w0 w1 w2 w3 [= _ <-] [= _ <-]. simpl. split; [|done].
    split_and!; simpl; try lia. repeat constructor; lia.
Qed.

Definition plain_signer : PolymarketOrderSigner (S := plain_signing) :=
  @Build_PolymarketOrderSigner _ _ _ _ _ plain_signing inline_runtime "owner-1" "0xkey".

Definition token_member : NegRiskMemberOrderPlan (X := Micros) :=
  @Build_NegRiskMemberOrderPlan Micros "condition-1" "29" 430000 5000000.

Definition plain_transport : PostOrderTransport :=
  {| pt_owner := "owner-1"; pt_order_type := Gtc; pt_defer_exec := false |}.

Lemma live_order_roundtrip_witness : ∃ sm so order,
  sdk_sign_member plain_signer "plan-1" token_member [] = ([], Ok sm) ∧
  member_order plain_transport sm = Ok order ∧ sdk_signed_order_from_dto order = Ok so ∧
  sso_owner so = "owner-1" ∧ ord_token_id (sso_order so) = 29.
Proof.
  eexists.
  destruct (live_order_roundtrip plain_signer "plan-1" token_member [] [] _ plain_transport eq_refl)
    as (so & neg & order & Ht & Hs & _ & Ho & Hback).
  exists so, order. split; [reflexivity|]. split; [exact Ho|].
  assert (sso_owner so = "owner-1") as Hown by (injection Hs as Hs _; by rewrite <- Hs).
  split; [|split; [exact Hown|by injection Ht]].
  apply Hback; [by rewrite Hown|reflexivity].
Defined.

Definition plain_backend : PolymarketLiveExecutionBackend (S := plain_signing) :=
  {| lb_signer := plain_signer;
     lb_gateway := from_clob_api (live_clob_sdk_api (K := plain_clients) "owner-1");
     lb_runtime := inline_runtime; lb_transport := plain_transport |}.

Definition token_target : NegRiskFamilyLiveTarget (X := Micros) :=
  {| lf_family_id := "family-a";
     lf_members := [@Build_NegRiskMemberLiveTarget Micros "condition-1" "29" 430000 5000000] |}.

(** What the venue is sent and answers. *)
Definition posted_once : bool :=
  match sdk_sign_family (lb_signer plain_backend) (target_plan token_target) [] with
  | (w1, Ok {| sf_members := [m] |}) =>
      match submit_member_async (submit_with_gateway_runtime (lb_transport plain_backend)
              (lb_gateway plain_backend) (lb_runtime plain_backend))
              (family_attempt "snapshot-7" token_target "rule-1") m w1 with
      | (w2, Ok o) =>
          is_accepted o && bool_decide (length w2 = 1%nat) &&
          bool_decide (rc_submission_ref (receipt_from_live_submit_outcome
            (family_attempt "snapshot-7" token_target "rule-1") o) = Some "order-1")
      | _ => false
      end
  | _ => false
  end.

Lemma posts_once : posted_once = true.
Proof. vm_compute. reflexivity. Qed.

(** One order is posted, and recorded as it was posted. *)
Lemma live_family_execution_witness : ∃ order w r,
  polymarket_execute_live_family plain_backend "snapshot-7" token_target "rule-1" [] =
    Returns (w, Ok r) ∧
  length w = 1%nat ∧ lr_order_requests r = [sent_request order] ∧
  lr_submission_ref r = Some "order-1".
Proof.
  pose proof (live_family_execution plain_backend "snapshot-7" token_target "rule-1" []
                inline_runtime_runs) as H.
  cbv zeta in H. pose proof posts_once as Hp. unfold posted_once in Hp.
  destruct (sdk_sign_family _ _ _) as [w1 [[id [|m [|]]]|]]; [discriminate Hp| |discriminate Hp..].
  destruct H as [_ H].
  destruct (submit_member_async _ _ _ _) as [w2 [o|]]; [|discriminate Hp].
  apply andb_prop in Hp as [[Ho Hw%bool_decide_eq_true]%andb_prop Hr%bool_decide_eq_true].
  rewrite Ho in H. destruct H as (order & _ & H).
  exists order, w2, (submitted_record "snapshot-7" token_target "rule-1" order o).
  split; [exact H|]. split; [exact Hw|]. split; [reflexivity|exact Hr].
Defined.
End witnesses.
