(* ===== verification/Daemon.v ===== *)
(** * The daemon and the run command

    [app-live/src/daemon.rs], [smoke.rs], the smoke sources of [source_tasks.rs] and
    [commands/run.rs]: a supervisor is seeded from the durable state and run, and the run
    command wraps it in a session of its own. *)

From S2P Require Import Prelude Text RecordSet Externals Json Domain RuntimeMode Facts Store Apply.
From S2P Require Import Reconcile Snapshot Risk Plans Execution Dispatch Runtime.
From S2P Require Import LiveRecords Discovery Supervisor Rows Config Validation ConfigFile.
From S2P Require Import AppConfig Schema RepoJournal RepoExecution RepoSessions RepoControl.
From S2P Require Import Command Startup Targets Migration Adoption Status Durable.
From S2P Require Import WsMessages VenueSessions Gateway Submit SdkBackend LiveBackend Tasks.
Import RuntimeMode.

#[export] Instance CandidateRestoreStatus_eq_dec : EqDecision CandidateRestoreStatus.
Proof. solve_decision. Defined.
#[export] Instance BootstrapStatus_eq_dec : EqDecision BootstrapStatus.
Proof. solve_decision. Defined.
#[export] Instance NegRiskLiveStateSource_eq_dec : EqDecision NegRiskLiveStateSource.
Proof. solve_decision. Defined.
#[export] Instance NegRiskRolloutEvidenceSource_eq_dec : EqDecision NegRiskRolloutEvidenceSource.
Proof. solve_decision. Defined.
#[export] Instance SupervisorPosture_eq_dec : EqDecision SupervisorPosture.
Proof. solve_decision. Defined.
#[export] Instance SupervisorSummary_eq_dec : EqDecision SupervisorSummary.
Proof. solve_decision. Defined.

(** ** The daemon's loop *)

Section daemon.
Context {X : Externals} {J : JsonOps} {H : HashOrder} {World : Type}.

Record DaemonReport := {
  dn_startup_order : list string;
  dn_ticks_run : Z;
  dn_idle_reached : bool;
  dn_real_user_shadow_smoke : bool;
  dn_summary : SupervisorSummary;
}.

#[local] Notation Method A :=
  (outcome (AppSupervisor (World := World) * result SupervisorError A)%type).

Definition push_ingest (startup_order : list string) (idle_reached : bool) : list string :=
  if idle_reached && negb (bool_decide ("ingest" ∈ startup_order))
  then startup_order ++ ["ingest"] else startup_order.

(** [run_until_idle_for_tests]: the loop with [left] ticks left, and the report of the last
    tick. Without a tick there is no report: [max_ticks == 0] is refused. *)
Fixpoint daemon_loop (env : SupervisorEnv (World := World)) (left : nat)
    (startup_order : list string) (ticks_run : Z) (last : option DaemonReport)
    (s : AppSupervisor) : Method DaemonReport :=
  match left with
  | O => Returns (s, ok_or last SvDaemonNeedsTick)
  | S left' =>
      method_then (run_once env s) (λ s summary,
        let ticks_run := u64_add ticks_run 1 in
        let no_more_progress_possible := bool_decide (dn_summary <$> last = Some summary) in
        let idle_reached := can_resume_ingest_loops s in
        let startup_order := push_ingest startup_order idle_reached in
        let report := {| dn_startup_order := startup_order; dn_ticks_run := ticks_run;
                         dn_idle_reached := idle_reached;
                         dn_real_user_shadow_smoke := sm_real_user_shadow_smoke summary;
                         dn_summary := summary |} in
        if idle_reached || no_more_progress_possible then Returns (s, Ok report)
        else daemon_loop env left' startup_order ticks_run (Some report) s)
  end.

Definition run_until_idle (env : SupervisorEnv (World := World)) (max_ticks : nat)
    (s : AppSupervisor) : Method DaemonReport :=
  daemon_loop env max_ticks [startup_phase_label s; "state"; "decision"] 0 None s.

(** [usize::MAX] ticks *)
Definition run_until_shutdown (env : SupervisorEnv (World := World)) (s : AppSupervisor) :
    Method DaemonReport :=
  run_until_idle env (Z.to_nat (2 ^ 64 - 1)) s.

(** [run_paper_daemon_instrumented] *)
Definition run_paper_daemon (env : SupervisorEnv (World := World)) (snapshot : RemoteSnapshot)
    (w : World) : Method AppRunResult :=
  run_startup env (supervisor_new Paper snapshot w).
End daemon.

(** ** smoke.rs and source_tasks.rs *)

Section smoke.
Context {X : Externals} {U : UrlOps} {C : ClockOps}.

(** [enabled] is always set. *)
Record RealUserShadowSmokeConfig := {
  rus_enabled : bool;
  rus_source_config : PolymarketSourceConfig;
}.

Definition load_real_user_shadow_smoke_config (config : RawAxiomConfig) :
    result ConfigError (option RealUserShadowSmokeConfig) :=
  if negb (real_user_shadow_smoke config) then Ok None
  else
    source_config ← source_config_try_from config;
    Ok (Some {| rus_enabled := true; rus_source_config := source_config |}).

Definition app_runtime_mode_from_config (config : RawAxiomConfig) : AppRuntimeMode :=
  if is_live config then LiveMode else Paper.

(** The task groups without state are left out. *)
Record RealUserShadowSmokeSources := {
  rss_source_config : PolymarketSourceConfig;
  rss_account_runtime_config : LocalAccountRuntimeConfig;
  rss_heartbeat : HeartbeatTaskGroup X SmokeHeartbeatSource;
  rss_bootstrap_snapshot : RemoteSnapshot;
}.

Inductive SmokeSafeStartupSource :=
| StaticSource (snapshot : RemoteSnapshot)
| SmokeSource (sources : RealUserShadowSmokeSources).

Definition startup_snapshot (source : SmokeSafeStartupSource) : RemoteSnapshot :=
  match source with
  | StaticSource snapshot => snapshot
  | SmokeSource sources => rss_bootstrap_snapshot sources
  end.

Definition build_real_user_shadow_smoke_sources (source : PolymarketSourceConfig)
    (account_runtime_config : LocalAccountRuntimeConfig) (run_session_id : string)
    (now : DateTime) : RealUserShadowSmokeSources :=
  {| rss_source_config := source; rss_account_runtime_config := account_runtime_config;
     rss_heartbeat := heartbeat_for_runtime Build_SmokeHeartbeatSource run_session_id now;
     rss_bootstrap_snapshot := remote_snapshot_empty |}.
End smoke.

(** ** run.rs: the pieces *)

Inductive RunInvocationSource := InvokedByRun | InvokedByBootstrap | InvokedByApply.

Definition invocation_from_label (label : string) : result string RunInvocationSource :=
  if bool_decide (label = "run") then Ok InvokedByRun
  else if bool_decide (label = "bootstrap") then Ok InvokedByBootstrap
  else if bool_decide (label = "apply") then Ok InvokedByApply
  else Err ("unsupported run invocation source: " +:+ label).

Definition invocation_as_str (source : RunInvocationSource) : string :=
  match source with
  | InvokedByRun => "run" | InvokedByBootstrap => "bootstrap" | InvokedByApply => "apply"
  end.

Definition rollout_approved_families (config : RawAxiomConfig) : gset string :=
  match negrisk_rollout config with
  | Some rollout => list_to_set (rv_approved_families rollout)
  | None => ∅
  end.

Definition rollout_ready_families (config : RawAxiomConfig) : gset string :=
  match negrisk_rollout config with
  | Some rollout => list_to_set (rv_ready_families rollout)
  | None => ∅
  end.

Section run.
Context {X : Externals} {J : JsonOps} {P : PgOps} {U : UrlOps} {D : SerdeOps} {T : TomlOps}.
Context {E : ErrorText} {C : ClockOps} {R : RestOps} {V : SdkValues} {H : HashOrder}.
Context {Venue : Type} {K : SdkClients (World := Venue)} {S : SdkSigning}.

(** [daemon.rs] and [run.rs] have the same function. *)
Definition live_neg_risk_work_requested (targets : NegRiskLiveTargetSet)
    (approved_families ready_families : gset string) : bool :=
  existsb (λ family_id, bool_decide (family_id ∈ approved_families) &&
                        bool_decide (family_id ∈ ready_families))
    (map_to_list (ts_targets targets : gmap string _)).*1.

Inductive RunError :=
| RunSchema (e : ConfigSchemaError)
| RunConfig (e : ConfigError)
| RunPersistence (e : PersistenceError)
| RunStartup (e : StartupError)
| RunBoxed (e : BoxedError)
| RunAdapter (e : PolymarketRuntimeAdapterError)
| RunSession (e : RunSessionError)
| RunInvalidInput (message : string).

(** The database and the venue. *)
Definition RunWorld : Type := (nat * Db) * Venue.

Definition Running (A : Type) : Type :=
  Schedule → RunWorld → RunWorld * result (Halt RunError) A.

#[local] Instance running_ret : MRet Running := λ A a env w, (w, Ok a).
#[local] Instance running_bind : MBind Running := λ A B f m env w,
  match m env w with (w, Ok a) => f a env w | (w, Err e) => (w, Err e) end.

Definition running_of {A} (r : result RunError A) : Running A := λ _ w, (w, map_err Halted r).

Definition on_db {F A} (f : F → RunError) (m : Pooled F A) : Running A := λ env '(st, v),
  let '(st, r) := map_pooled_err f m env st in ((st, v), r).

Definition on_app {A} (m : App A) : Running A := λ env '(st, v),
  let '(st, r) := m env st in
  ((st, v), map_err (λ e, match e with
                          | AppFails e => Halted (RunBoxed e)
                          | AppPanicked => HaltPanicked
                          end) r).

Definition on_venue {A} (m : Venue → Venue * result RunError A) : Running A := λ _ '(st, v),
  let '(v, r) := m v in ((st, v), map_err Halted r).

(** The database of a supervisor whose world has a venue. *)
Definition beside_venue {A} (m : nat * Db → (nat * Db) * A) (w : RunWorld) : RunWorld * A :=
  let '(st, v) := w in let '(st, a) := m st in ((st, v), a).

Definition env_beside_venue (env : SupervisorEnv (World := nat * Db)) :
    SupervisorEnv (World := RunWorld) :=
  {| env_persist_live records id := beside_venue (env_persist_live env records id);
     env_persist_shadow attempts artifacts id :=
       beside_venue (env_persist_shadow env attempts artifacts id);
     env_candidates :=
       {| upsert_strategy_candidate_set row :=
            beside_venue (upsert_strategy_candidate_set (env_candidates env) row);
          upsert_adoptable_strategy_revision row :=
            beside_venue (upsert_adoptable_strategy_revision (env_candidates env) row);
          connect_pool := beside_venue (connect_pool (env_candidates env)) |};
     env_now := env_now env |}.

Definition backend_beside_db (b : NegRiskLiveExecutionBackend (World := Venue)) :
    NegRiskLiveExecutionBackend (World := RunWorld) :=
  {| execute_live_family snapshot_id target rule '(st, v) :=
       '(v, r) ← execute_live_family b snapshot_id target rule v; Returns ((st, v), r) |}.

(** ** daemon.rs: a live run *)

(** What a run is given by its surroundings: the environment variables, the process and
    the readings of the clock. [re_active] and [re_details] are the parameters of the
    shadow batch, [re_show] the texts of boxed errors. *)
Record RunEnv := {
  re_connect : result PersistenceError ();
  re_database_url : bool;
  re_private_key : option string;
  re_process_id : Z;
  re_nanos : Z;
  re_active : gset string;
  re_details : Z → string;
  re_show : BoxedError → string;
  re_started_at : DateTime;
  re_account_now : DateTime;
  re_heartbeat_now : DateTime;
  re_now : nat → DateTime;
  re_running_at : DateTime;
  re_seen_at : DateTime;
  re_ended_at : DateTime;
}.

(** [seed_live_supervisor_from_durable_state], with durable shadow persistence enabled. *)
Definition seed_live_supervisor_from_durable_state {W} (s : AppSupervisor (World := W))
    (durable_state : DurableLiveStartupState) (targets : NegRiskLiveTargetSet)
    (approved_families ready_families : gset string) (smoke : bool) : AppSupervisor :=
  foldl seed_op s
    (durable_seeds durable_state smoke (ts_targets targets)
       (sort_by str_cmp (elements approved_families))
       (sort_by str_cmp (elements ready_families))).

Definition load_daemon_state (re : RunEnv) (operator_strategy_revision : option string)
    (operator_target_revision : option string) (allow_legacy_target_source_resume : bool)
    (load_shadow_state : bool) : App DurableLiveStartupState :=
  if bool_decide (is_Some operator_strategy_revision) then
    load_durable_live_startup_state_for_strategy (re_connect re) operator_strategy_revision
      operator_target_revision allow_legacy_target_source_resume load_shadow_state
  else load_durable_live_startup_state (re_connect re) operator_target_revision load_shadow_state.

(** The supervisor is built, seeded and given the backend, if there is one. *)
Definition live_supervisor (snapshot : RemoteSnapshot) (durable_state : DurableLiveStartupState)
    (targets : NegRiskLiveTargetSet) (approved_families ready_families : gset string)
    (backend : option (NegRiskLiveExecutionBackend (World := RunWorld))) (smoke : bool)
    (run_session_id : option string) (w : RunWorld) : AppSupervisor :=
  let s := supervisor_new LiveMode snapshot w in
  let s := match run_session_id with
           | Some id => seed_op s (SetRunSessionId id)
           | None => s
           end in
  let s := seed_live_supervisor_from_durable_state s durable_state targets approved_families
             ready_families smoke in
  match backend with Some b => seed_op s (SetLiveBackend b) | None => s end.

Definition run_supervisor (re : RunEnv) (supervisor : RunWorld → AppSupervisor) :
    Running AppRunResult := λ env w,
  match run_startup (env_beside_venue (store_env (re_connect re) (re_active re) (re_details re)
                                         (re_show re) env (re_now re))) (supervisor w) with
  | Panics => (w, Err HaltPanicked)
  | Returns (s, Ok run) => (sv_world s, Ok run)
  | Returns (s, Err e) => (sv_world s, Err (Halted (RunBoxed (FromSupervisor e))))
  end.

(** [run_live_daemon_from_durable_store_with_strategy_revision_and_session_instrumented] *)
Definition run_live_daemon (re : RunEnv) (snapshot : RemoteSnapshot)
    (operator_strategy_revision : option string) (allow_legacy_target_source_resume : bool)
    (targets : NegRiskLiveTargetSet) (approved_families ready_families : gset string)
    (backend : option (NegRiskLiveExecutionBackend (World := RunWorld)))
    (real_user_shadow_smoke : option RealUserShadowSmokeConfig)
    (run_session_id : option string) : Running AppRunResult :=
  let smoke := bool_decide (is_Some real_user_shadow_smoke) in
  let operator_target_revision := operator_target_revision_for targets in
  durable_state ← on_app (load_daemon_state re operator_strategy_revision
                            operator_target_revision allow_legacy_target_source_resume smoke);
  _ ← on_app (app_of (validate_real_user_shadow_smoke_restore durable_state smoke));
  run ← run_supervisor re (live_supervisor snapshot durable_state targets approved_families
                             ready_families backend smoke run_session_id);
  _ ← on_app (persist_operator_target_revision_anchor_with_run_session_id (re_connect re)
                (rn_summary run) operator_target_revision operator_strategy_revision
                run_session_id);
  mret run.

(** [run_live_daemon_from_durable_store_with_neg_risk_live_targets_instrumented]: without a
    backend, live work is refused. *)
Definition run_live_daemon_without_backend (re : RunEnv) (snapshot : RemoteSnapshot)
    (targets : NegRiskLiveTargetSet) (approved_families ready_families : gset string)
    (real_user_shadow_smoke : option RealUserShadowSmokeConfig) : Running AppRunResult :=
  if negb (bool_decide (is_Some real_user_shadow_smoke)) &&
     live_neg_risk_work_requested targets approved_families ready_families then
    running_of (Err (RunInvalidInput
      "live neg-risk startup requires an explicit execution backend; use the signer-gated run path"))
  else
    run_live_daemon re snapshot None false targets approved_families ready_families None
      real_user_shadow_smoke None.

(** ** run.rs *)

Definition build_live_neg_risk_execution_backend (re : RunEnv) (config : RawAxiomConfig)
    (real_user_shadow_smoke : bool) (targets : NegRiskLiveTargetSet)
    (approved_families ready_families : gset string) :
    Running (option PolymarketLiveExecutionBackend) :=
  if real_user_shadow_smoke ||
     negb (live_neg_risk_work_requested targets approved_families ready_families) then
    mret None
  else if negb (runtime_wallet_kind_requires_relayer config) then
    running_of (Err (RunInvalidInput
      "EOA non-shadow live runtime is not supported; relayer-backed runtime work requires a non-EOA wallet kind"))
  else
    source_config ← running_of (map_err RunConfig (source_config_try_from config));
    credentials ← running_of (map_err RunConfig (gateway_credentials_try_from config));
    backend ← on_venue (λ v,
      let '(v, r) := live_backend_from_runtime_inputs (re_private_key re) source_config
                       credentials v in
      (v, map_err RunAdapter r));
    mret (Some backend).

(** The live branch of the closure. *)
Definition run_live_config (re : RunEnv) (config : RawAxiomConfig)
    (smoke : option RealUserShadowSmokeConfig) (run_session_id : string) :
    Running AppRunResult :=
  _ ← running_of (map_err (RunStartup ∘ StartupPersistence) (re_connect re));
  resolved ← on_db RunStartup (resolve_startup_strategy_revision config);
  let allow_legacy_target_source_resume :=
    from_option target_source_is_adopted false (raw_target_source config) in
  targets ← running_of (map_err RunConfig
              (neg_risk_live_targets_from_route_artifacts (rsr_route_artifacts resolved)
                 (rsr_operator_strategy_revision resolved)));
  let approved := rollout_approved_families config in
  let ready := rollout_ready_families config in
  account ← running_of (if bool_decide (is_Some smoke)
                        then account ← map_err RunConfig
                                         (account_runtime_try_from (re_account_now re) config);
                             Ok (Some account)
                        else Ok None);
  backend ← build_live_neg_risk_execution_backend re config (bool_decide (is_Some smoke)) targets
              approved ready;
  source ← match smoke with
           | Some smoke =>
               match account with
               | Some account =>
                   mret (SmokeSource (build_real_user_shadow_smoke_sources
                           (rus_source_config smoke) account run_session_id
                           (re_heartbeat_now re)))
               | None => λ _ w, (w, Err HaltPanicked)
               end
           | None => mret (StaticSource remote_snapshot_empty)
           end;
  run_live_daemon re (startup_snapshot source) (rsr_operator_strategy_revision resolved)
    allow_legacy_target_source_resume targets approved ready
    (backend_beside_db ∘ polymarket_live_backend <$> backend) smoke (Some run_session_id).

(** [run_paper_instrumented]; its supervisor only runs the bootstrap. *)
Definition run_paper_config (re : RunEnv) : Running AppRunResult := λ env w,
  match run_bootstrap (env_beside_venue (store_env (re_connect re) (re_active re) (re_details re)
                                           (re_show re) env (re_now re)))
          (supervisor_new Paper remote_snapshot_empty w) with
  | Panics => (w, Err HaltPanicked)
  | Returns run => (w, Ok run)
  end.

Definition run_body (re : RunEnv) (config : RawAxiomConfig)
    (smoke : option RealUserShadowSmokeConfig) (run_session_id : string) :
    Running AppRunResult :=
  match rt_mode (rc_runtime config) with
  | ModePaper => run_paper_config re
  | ModeLive => run_live_config re config smoke run_session_id
  end.

(** [error.to_string()]; [session_text] shows the errors of the session, which end a run
    before or after its body. *)
Definition run_error_text (re : RunEnv) (session_text : RunSessionError → string)
    (e : RunError) : string :=
  match e with
  | RunSchema e => schema_text e
  | RunConfig e => config_error_text e
  | RunPersistence e => persistence_text e
  | RunStartup e => startup_error_text persistence_text e
  | RunBoxed e => re_show re e
  | RunAdapter e => adapter_error_text e
  | RunSession e => session_text e
  | RunInvalidInput message => message
  end.

(** The end of a run: the session is marked, and the error of the body returned. A panic
    ends the process before that. *)
Definition close_session (re : RunEnv) (session_text : RunSessionError → string)
    (run_session_id : string) (body : Running AppRunResult) : Running () := λ env w,
  match body env w with
  | (w, Ok _) =>
      (_ ← on_db RunSession (handle_mark_running (re_connect re) run_session_id
                               (re_running_at re));
       _ ← on_db RunSession (handle_refresh_last_seen (re_connect re) run_session_id
                               (re_seen_at re));
       on_db RunSession (handle_mark_exited (re_connect re) run_session_id (re_ended_at re)))
        env w
  | (w, Err (Halted error)) =>
      (_ ← on_db RunSession (handle_mark_failed (re_connect re) run_session_id
                               (run_error_text re session_text error) (re_ended_at re));
       running_of (Err error)) env w
  | (w, Err HaltPanicked) => (w, Err HaltPanicked)
  end.

(** [run_from_config_path_for_source]; [file] is the contents of the file at the path. *)
Definition run_from_config_path_for_source (re : RunEnv)
    (session_text : RunSessionError → string) (config_path : string) (file : option string)
    (invoked_by : RunInvocationSource) : Running () :=
  config ← running_of (map_err RunSchema
             (raw ← load_raw_config_from_path file;
              validated ← validated_config_new raw;
              for_app_live validated));
  smoke ← running_of (map_err RunConfig (load_real_user_shadow_smoke_config config));
  _ ← running_of (if re_database_url re then Ok () else Err (RunPersistence MissingDatabaseUrl));
  run_session_id ← on_db RunSession
    (handle_create_starting (re_connect re) config_path (invocation_as_str invoked_by) file
       (re_process_id re) (re_nanos re) config (re_started_at re));
  close_session re session_text run_session_id (run_body re config smoke run_session_id).
End run.
