(* ===== verification/RunProofs.v ===== *)
(** * Theorems about runs

    What a run does to its world is what its parts do: the database it leaves is one some
    history of the repositories leads to, the venue is touched only by a live backend, and
    the session of a run says how it ended. *)

From S2P Require Import Prelude Text RecordSet Externals Json Domain RuntimeMode Facts Store Apply.
From S2P Require Import Reconcile Snapshot Risk Plans Execution Dispatch Runtime.
From S2P Require Import LiveRecords Discovery Supervisor Rows Config Validation ConfigFile.
From S2P Require Import AppConfig Schema RepoJournal RepoExecution RepoSessions RepoControl.
From S2P Require Import RepoCatalog RepoInvariants RepoHistory.
From S2P Require Import Command Startup Targets Migration Adoption Status Durable.
From S2P Require Import ConfigProofs ConfigRewrite ControlProofs.
From S2P Require Import WsMessages VenueSessions Gateway Submit SdkBackend LiveBackend Tasks Daemon.
From S2P Require Import LiveProofs.
Import RuntimeMode.

#[local] Existing Instance running_ret.
#[local] Existing Instance running_bind.

#[local] Arguments set : simpl never.

(** ** The world of a supervisor *)

Section world.
Context {X : Externals} {J : JsonOps} {H : HashOrder} {World : Type}.
Context (R : relation World) `{!PreOrder R}.

(** Every call of the environment moves the world along [R]. *)
Record env_moves (env : SupervisorEnv (World := World)) : Prop := {
  em_live records id w : R w (env_persist_live env records id w).1;
  em_shadow attempts artifacts id w : R w (env_persist_shadow env attempts artifacts id w).1;
  em_candidate row w : R w (upsert_strategy_candidate_set (env_candidates env) row w).1;
  em_adoptable row w : R w (upsert_adoptable_strategy_revision (env_candidates env) row w).1;
  em_connect w : R w (connect_pool (env_candidates env) w).1;
}.

Definition backend_moves (b : option (NegRiskLiveExecutionBackend (World := World))) : Prop :=
  match b with
  | Some b => ∀ id target rule w w' r,
      execute_live_family b id target rule w = Returns (w', r) → R w w'
  | None => True
  end.

(** The world moved along [R], and the backend is the same. *)
Definition moved (s s' : AppSupervisor (World := World)) : Prop :=
  R (sv_world s) (sv_world s') ∧ sv_live_backend s' = sv_live_backend s.

#[local] Instance moved_preorder : PreOrder moved.
Proof.
  split; [intros s; split; reflexivity|]. intros a b c [H1 E1] [H2 E2].
  split; [by etrans|congruence].
Qed.

Definition moves {A} (s : AppSupervisor (World := World))
    (m : outcome (AppSupervisor (World := World) * result SupervisorError A)) : Prop :=
  ∀ s' r, m = Returns (s', r) → moved s s'.

Lemma moves_returns {A} s s' (r : result SupervisorError A) : moved s s' → moves s (Returns (s', r)).
Proof. by intros Hm ?? [= <- <-]. Qed.

Lemma moves_then {A B} s (m : outcome (AppSupervisor * result SupervisorError A)) f :
  moves s m → (∀ s1 a, moved s s1 → moves s1 (f s1 a)) →
  moves (A := B) s (method_then m f).
Proof.
  intros Hm Hf s' r. destruct m as [[s1 [a|e]]|]; simpl; [| |done].
  - intros Hr. specialize (Hm _ _ eq_refl). etrans; [exact Hm|]. by eapply Hf.
  - intros [= <- <-]. by eapply Hm.
Qed.

Lemma moves_bind {A} s (m : outcome AppSupervisor) f :
  (∀ s1, m = Returns s1 → moved s s1) → (∀ s1, moved s s1 → moves s1 (f s1)) →
  moves (A := A) s (m ≫= f).
Proof.
  intros Hm Hf s' r. destruct m as [s1|]; simpl; [|done]. intros Hr.
  specialize (Hm _ eq_refl). etrans; [exact Hm|]. by eapply Hf.
Qed.

Lemma retain_moved s : moved s (retain_current_shadow_records (retain_current_live_records s)).
Proof.
  unfold retain_current_shadow_records, retain_current_live_records.
  repeat case_match; split; simpl; reflexivity.
Qed.

Lemma publish_moved s allow s' : publish_current_snapshot s allow = Returns s' → moved s s'.
Proof.
  unfold publish_current_snapshot.
  destruct (publish_snapshot _ _) as [[r [p|]]|]; simpl; [| |done]; intros [= <-].
  - destruct (rollout_evidence_for_snapshot _ _ _) as [evidence source].
    match goal with |- moved s ((retain_current_shadow_records (retain_current_live_records ?t))
                                  <| sv_dispatcher ::= _ |>) => transitivity t end;
      [split; reflexivity|].
    etrans; [apply retain_moved|]. split; reflexivity.
  - etrans; [|apply retain_moved]. split; reflexivity.
Qed.

(** A call and where it leaves the world. *)
Ltac world_step Hcall :=
  let Hw := fresh "Hw" in
  pose proof Hcall as Hw;
  match type of Hw with R _ (?call).1 => destruct call as [? [[]|?]]; simpl in * end.

Lemma persist_notice_moves env n w :
  env_moves env → R w (persist_notice_for_runtime (env_candidates env) n w).1.
Proof.
  intros [_ _ Hc Ha Hn]. unfold persist_notice_for_runtime.
  destruct (process_notice n) as [o|]; [|reflexivity].
  destruct (do_candidate o) as [c|], (do_adoptable o) as [a|]; simpl; try reflexivity;
    repeat match goal with
    | |- context [connect_pool _ ?w] => world_step (Hn w)
    | |- context [upsert_strategy_candidate_set _ ?row ?w] => world_step (Hc row w)
    | |- context [upsert_adoptable_strategy_revision _ ?row ?w] => world_step (Ha row w)
    end; repeat (first [assumption|etrans; [eassumption|]]).
Qed.

Lemma materialize_moved env s authoritative s' :
  env_moves env →
  materialize_candidate_artifacts_with_authority env s authoritative = Returns s' → moved s s'.
Proof.
  intros He. unfold materialize_candidate_artifacts_with_authority.
  destruct (runtime_candidate_publication _) as [[publication|]|]; simpl; [| |done];
    intros [= <-]; [|reflexivity].
  destruct (cp_view publication); [|reflexivity]. case_bool_decide; [reflexivity|].
  pose proof (persist_notice_moves env (from_publication_with_authority publication [Candidates]
    (sv_live_target_revision s) (sv_live_targets s) Eligible authoritative) (sv_world s) He) as Hw.
  destruct (persist_notice_for_runtime _ _ _) as [w [report|e]]; split; simpl in *; done.
Qed.

Lemma runtime_moved s f : moved s (s <| sv_runtime ::= f |>).
Proof. split; reflexivity. Qed.

Lemma committed_moved s input : moved s (record_committed_input s input).
Proof. unfold record_committed_input. case_bool_decide; split; simpl; reflexivity. Qed.

Lemma drain_one_moves s input : moves s (drain_one s input).
Proof.
  unfold drain_one, moves. destruct (apply_input (sv_runtime s) input) as [[r res]|]; simpl; [|done].
  intros s' x. destruct res as [[k version dirty| | |]|e].
  1: { set (s1 := (record_committed_input _ input) <| sv_input_tasks ::= _ |>).
       assert (moved s s1) as H1.
       { unfold s1. etrans; [|split; simpl; reflexivity]. etrans; [|apply committed_moved].
         split; simpl; reflexivity. }
       destruct (publish_current_snapshot s1 false) as [s2|] eqn:E; simpl; [|done].
       intros [= <- _]. etrans; [exact H1|]. by eapply publish_moved. }
  4: intros [= <- _]; split; simpl; reflexivity.
  all: intros [= <- _]; etrans; [|split; simpl; reflexivity]; etrans; [|apply committed_moved];
    split; simpl; reflexivity.
Qed.

Lemma drain_loop_moves env per_input fuel anchor processed seen s m :
  env_moves env → drain_loop env per_input fuel anchor processed seen s = Some m → moves s m.
Proof.
  intros He. revert processed seen s m. induction fuel as [|fuel IH]; intros processed seen s m;
    simpl; destruct (next_after (sv_input_tasks s) anchor) as [input|];
    try (intros [= <-]; apply moves_returns; reflexivity).
  destruct (drain_one s input) as [[s1 [dirty|e]]|] eqn:E; [| |intros [= <-] ?? [=]].
  - apply drain_one_moves in E as H1.
    destruct (if per_input && dirty then _ else _) as [s2|] eqn:E2; [|intros [= <-] ?? [=]].
    assert (moved s1 s2) as H2.
    { destruct (per_input && dirty); [by eapply materialize_moved|by injection E2 as ->]. }
    intros Hm s' r Hr. etrans; [exact H1|]. etrans; [exact H2|]. by eapply IH.
  - apply drain_one_moves in E as H1. intros [= <-]. by apply moves_returns.
Qed.

Lemma drain_moves env s : env_moves env → moves s (drain_input_tasks env s).
Proof.
  intros He. unfold drain_input_tasks, run_drain. apply moves_then.
  - destruct (drain_loop _ _ _ _ _ _ _) as [m|] eqn:E; [by eapply drain_loop_moves|done].
  - intros s1 a _. apply moves_returns. reflexivity.
Qed.

Lemma live_facts_moves env records seq n s : moves s (apply_live_submit_facts env records seq n s).
Proof.
  revert seq n s. induction records as [|record records IH]; intros seq n s; simpl;
    [apply moves_returns; reflexivity|].
  destruct (match lr_submission_ref record with Some _ => _ | None => _ end) as [reference|];
    [|apply IH].
  match goal with |- context [input_new ?q ?e] => set (input := input_new q e) end.
  intros s' r. destruct (apply_input (sv_runtime s) input) as [[rt res]|]; simpl; [|done].
  destruct res as [applied|e]; [|intros [= <- _]; split; simpl; reflexivity].
  set (s1 := s <| sv_runtime := rt |>).
  match goal with |- context [?pub ≫= _] => assert (∀ s2, pub = Returns s2 → moved s s2) as Hpub end.
  { intros s2. destruct applied; [|by intros [= <-]..].
    intros Hp. etrans; [|by eapply publish_moved]. split; simpl; reflexivity. }
  match goal with |- context [?pub ≫= _] => destruct pub as [s2|] end; simpl; [|done].
  specialize (Hpub s2 eq_refl).
  assert (moved s (record_committed_input s2 input)) as H2 by (etrans; [exact Hpub|apply committed_moved]).
  case_bool_decide; [by intros [= <- _]|]. intros Hr. etrans; [exact H2|]. by eapply IH.
Qed.

Lemma shadow_moves env id s : env_moves env → moves s (refresh_shadow_records env id s).
Proof.
  intros [_ Hsh _ _ _] s' r. unfold refresh_shadow_records.
  destruct (eligible_shadow_records_with_run_session_id _ _ _ _ _) as [[records|e]|]; simpl;
    [| by intros [= <- _]|done].
  destruct (sv_durable_shadow_persistence_enabled s).
  - match goal with |- context [env_persist_shadow env ?a ?b ?c ?d] =>
      pose proof (Hsh a b c d) as Hw; destruct (env_persist_shadow env a b c d) as [w [[]|e]] end;
      simpl in *; intros [= <- _]; split; simpl; done.
  - intros [= <- _]; split; simpl; reflexivity.
Qed.

Lemma live_batch_moves b id targets approved ready w w' r :
  backend_moves (Some b) →
  eligible_live_records_with_backend id targets approved ready b w = Returns (w', r) → R w w'.
Proof.
  intros Hb. rewrite live_batch_selected.
  generalize (selected_targets approved ready targets) as families.
  intros families. revert w w' r. induction families as [|[t [f rule]] families IH];
    intros w w' r; simpl; [by intros [= <- _]|].
  destruct (execute_live_family b id t rule w) as [[w1 [record|e]]|] eqn:E; simpl; [| |done].
  - destruct (execute_families b id families w1) as [[w2 rs]|] eqn:Ef; simpl; [|done].
    intros [= <- _]. etrans; [by eapply Hb|by eapply IH].
  - intros [= <- _]. by eapply Hb.
Qed.

Lemma live_moves env id s :
  env_moves env → backend_moves (sv_live_backend s) → moves s (refresh_live_records env id s).
Proof.
  intros [Hlive _ _ _ _] Hb s' r. unfold refresh_live_records.
  match goal with |- context [?batch ≫= _] =>
    assert (∀ w x, batch = Returns (w, x) → R (sv_world s) w) as Hbatch end.
  { intros w x. destruct (sv_live_backend s) as [b|]; [by apply live_batch_moves|].
    apply (live_batch_moves hook_backed_backend). intros ? ? ? ? ? ?. simpl.
    destruct (hook_backed_execute_live_family _ _ _); simpl; [by intros [= <- _]|done]. }
  match goal with |- context [?batch ≫= _] => destruct batch as [[w x]|] end; simpl; [|done].
  specialize (Hbatch _ _ eq_refl). destruct x as [records|e];
    [|intros [= <- _]; split; simpl; done].
  intros Hr. eapply (moves_then s _ _); [| |exact Hr].
  - intros s1 a Ha. eapply (live_facts_moves env) in Ha. etrans; [|exact Ha]. split; simpl; done.
  - clear Hr s' r. intros s1 applied _ s' r.
    destruct (sv_durable_live_persistence_enabled s1).
    + match goal with |- context [env_persist_live env ?a ?b ?c] =>
        pose proof (Hlive a b c) as Hw; destruct (env_persist_live env a b c) as [w1 [[]|e]] end;
        simpl in *; intros [= <- _]; split; simpl; done.
    + intros [= <- _]; split; simpl; reflexivity.
Qed.

Lemma refresh_moves env allow s :
  env_moves env → backend_moves (sv_live_backend s) →
  moves s (refresh_neg_risk_live_execution_records env allow s).
Proof.
  intros He Hb. unfold refresh_neg_risk_live_execution_records.
  repeat (case_match; try (apply moves_returns; reflexivity));
    first [by apply shadow_moves|by apply live_moves].
Qed.

Lemma adopt_moved s : moved s (adopt_durable_records s).
Proof. unfold adopt_durable_records. etrans; [|apply retain_moved]. split; reflexivity. Qed.

Lemma restore_moves s : moves s (restore_seeded_startup_state s).
Proof.
  assert (∀ s0, moved s s0 → moves s (publish_restored s0)) as Hpub.
  { intros s0 H0. unfold publish_restored.
    assert (∀ s' r, moves s0 (publish_restored s0) → publish_restored s0 = Returns (s', r) →
              moved s s') as Ht by (intros s' r Hm E; etrans; [exact H0|by eapply Hm]).
    intros s' r. apply Ht, moves_bind; [intros; by eapply publish_moved|].
    intros s1 _. pose proof (adopt_moved s1) as H1. revert H1.
    generalize (adopt_durable_records s1). intros s2 H2. by apply moves_returns. }
  unfold restore_seeded_startup_state.
  assert (moved s (fresh_runtime s (sd_candidate_restore_status (sv_seed s)))) as H0
    by (split; reflexivity).
  revert H0. generalize (fresh_runtime s (sd_candidate_restore_status (sv_seed s))).
  intros s0 H0. destruct (sd_last_journal_seq (sv_seed s)) as [q|]; [|by apply moves_returns].
  match goal with |- context [s0 <| sv_runtime ::= ?f |>] => pose proof (runtime_moved s0 f) as H1;
    revert H1; generalize (s0 <| sv_runtime ::= f |>) end.
  intros s1 H1. assert (moved s s1) as H2 by (by etrans).
  destruct (sd_pending_reconcile_count (sv_seed s)) as [k|]; [|by apply Hpub].
  case_bool_decide; [by apply Hpub|by apply moves_returns].
Qed.

(** A run moves its world as its environment and its backend do. *)
Lemma run_once_moves env s :
  env_moves env → backend_moves (sv_live_backend s) → moves s (run_once env s).
Proof.
  intros He Hb. unfold run_once. apply moves_then.
  { destruct (restoring_seeded_startup s); [apply restore_moves|].
    apply moves_returns. destruct (is_ready _); split; simpl; reflexivity. }
  intros s1 [] [_ E1]. apply moves_bind; [intros; by eapply publish_moved|].
  intros s2 [_ E2]. apply moves_then; [apply refresh_moves; [done|congruence]|].
  intros s3 [] _. apply moves_then; [apply moves_returns; reflexivity|].
  intros s4 [] _. apply moves_then; [by apply drain_moves|]. intros s5 a _. unfold finish_run.
  apply moves_then; [apply moves_returns; reflexivity|].
  intros s6 [] _. apply moves_returns. unfold flush_dispatch.
  destruct (flush _). split; simpl; reflexivity.
Qed.

Lemma run_startup_moves env s :
  env_moves env → backend_moves (sv_live_backend s) → moves s (run_startup env s).
Proof.
  intros He Hb. unfold run_startup. apply moves_then; [by apply run_once_moves|].
  intros s1 sm _. apply moves_returns. reflexivity.
Qed.
End world.

(** ** Histories *)

Section history.
Context {X : Externals} {O : OrderLaws X} {J : JsonOps} {P : PgOps} {PL : PgLaws P}.

(** The other sessions only do what the repositories do. *)
Definition honest (env : Schedule) : Prop := ∀ n db, evolves db (fr_commits env n db).

(** Whatever runs on the pool leaves the database some history leads to. *)
Definition historic {E A} (m : Schedule → nat * Db → (nat * Db) * result E A) : Prop :=
  ∀ env st, honest env → evolves st.2 (m env st).1.2.

Lemma historic_of {E A} (r : result E A) : historic (λ _ st, (st, r)).
Proof. intros env st _. apply evolves_refl. Qed.

Lemma historic_then {E A B} (m : Schedule → nat * Db → (nat * Db) * result E A)
    (f : A → Schedule → nat * Db → (nat * Db) * result E B) :
  historic m → (∀ a, historic (f a)) →
  historic (λ env st, match m env st with
                      | (st, Ok a) => f a env st
                      | (st, Err e) => (st, Err e)
                      end).
Proof.
  intros Hm Hf env st He. specialize (Hm env st He).
  destruct (m env st) as [st1 [a|e]]; simpl in *; [|done].
  eapply evolves_trans; [exact Hm|]. by apply Hf.
Qed.

Lemma historic_map {E F A B} (m : Schedule → nat * Db → (nat * Db) * result E A)
    (f : result E A → result F B) :
  historic m → historic (λ env st, let '(st, r) := m env st in (st, f r)).
Proof. intros Hm env st He. specialize (Hm env st He). by destruct (m env st). Qed.

Lemma historic_query {A} (f : Db → A) : historic (stmt (query f)).
Proof.
  intros env [n db] He. unfold stmt. simpl. destruct (fr_up env n); simpl; apply He.
Qed.

Lemma historic_op op : historic (repo_op op).
Proof. intros env [n db] He. by apply evolves_op. Qed.

Lemma historic_pool_bind {A B} (m : Pool A) (f : A → Pool B) :
  historic m → (∀ a, historic (f a)) → historic (m ≫= f).
Proof. apply historic_then. Qed.
Lemma historic_app_bind {A B} (m : App A) (f : A → App B) :
  historic m → (∀ a, historic (f a)) → historic (m ≫= f).
Proof. apply historic_then. Qed.
Lemma historic_pooled_bind {E A B} (m : Pooled E A) (f : A → Pooled E B) :
  historic m → (∀ a, historic (f a)) → historic (m ≫= f).
Proof. apply historic_then. Qed.

Lemma historic_from_pool {A} (m : Pool A) : historic m → historic (from_pool m).
Proof. apply historic_map. Qed.
Lemma historic_from_repo {E A} (f : PersistenceError → E) (m : Pool A) :
  historic m → historic (from_repo f m).
Proof. apply historic_map. Qed.
Lemma historic_map_err {E F A} (f : E → F) (m : Pooled E A) :
  historic m → historic (map_pooled_err f m).
Proof. apply historic_map. Qed.

(** The operations a run uses. *)
Lemma attempt_append_historic row : historic (attempt_append row).
Proof. apply (historic_op (OpAppendAttempt row)). Qed.
Lemma submission_append_historic row : historic (submission_append row).
Proof. apply (historic_op (OpAppendSubmission row)). Qed.
Lemma shadow_batch_historic active details attempts artifacts :
  historic (append_shadow_execution_batch active details attempts artifacts).
Proof. apply (historic_op (OpAppendShadowBatch active details attempts artifacts)). Qed.
Lemma record_progress_historic seq version snapshot target strategy session :
  historic (record_progress_with_strategy_revision seq version snapshot target strategy session).
Proof. apply (historic_op (OpRecordProgress seq version snapshot target strategy session)). Qed.
Lemma candidate_set_historic row : historic (repo_upsert_strategy_candidate_set row).
Proof. apply (historic_op (OpUpsertStrategyCandidateSet row)). Qed.
Lemma adoptable_historic row : historic (repo_upsert_adoptable_strategy_revision row).
Proof. apply (historic_op (OpUpsertAdoptableStrategyRevision row)). Qed.
Lemma create_starting_historic row : historic (create_starting row).
Proof. apply (historic_op (OpCreateStarting row)). Qed.
Lemma mark_running_historic id at_ : historic (mark_running id at_).
Proof. apply (historic_op (OpMarkRunning id at_)). Qed.
Lemma mark_exited_historic id at_ status reason : historic (mark_exited id at_ status reason).
Proof. apply (historic_op (OpMarkExited id at_ status reason)). Qed.
Lemma mark_failed_historic id at_ reason : historic (mark_failed id at_ reason).
Proof. apply (historic_op (OpMarkFailed id at_ reason)). Qed.
Lemma refresh_last_seen_historic id at_ : historic (refresh_last_seen id at_).
Proof. apply (historic_op (OpRefreshLastSeen id at_)). Qed.
End history.

Create HintDb history.
#[export] Hint Resolve historic_query historic_from_pool historic_from_repo historic_map_err
  attempt_append_historic submission_append_historic shadow_batch_historic
  record_progress_historic candidate_set_historic adoptable_historic create_starting_historic
  mark_running_historic mark_exited_historic mark_failed_historic refresh_last_seen_historic
  : history.

(** Walks through what runs on the pool. *)
Ltac history :=
  repeat first
    [ assumption
    | progress intros
    | solve [auto 2 with history nocore]
    | apply historic_query
    | apply historic_pool_bind
    | apply historic_app_bind
    | apply historic_pooled_bind
    | apply historic_from_pool
    | apply historic_from_repo
    | apply historic_map_err
    | solve [apply (historic_of (Ok _))]
    | solve [apply (historic_of (Err _))]
    | solve [apply historic_of]
    | case_match ].

Section histories.
Context {X : Externals} {O : OrderLaws X} {J : JsonOps} {P : PgOps} {PL : PgLaws P}.
Context {U : UrlOps} {D : SerdeOps}.

Lemma progress_current_historic : historic progress_current.
Proof. unfold progress_current. history. Qed.

Lemma attempts_by_mode_historic mode : historic (list_attempts_by_mode mode).
Proof. unfold list_attempts_by_mode. history. Qed.

Lemma startup_state_historic connect strategy target allow shadow :
  historic (load_durable_live_startup_state_for_strategy connect strategy target allow shadow).
Proof.
  unfold load_durable_live_startup_state_for_strategy, load_live_follow_up,
    load_shadow_execution_state, load_candidate_restore_status, connect_pool_from_env,
    submission_list_for_attempts, submissions_where, shadow_list_for_attempts.
  history.
Qed.

Lemma persist_live_historic connect records id :
  historic (persist_live_execution_records_with_run_session_id connect records id).
Proof.
  unfold persist_live_execution_records_with_run_session_id, connect_pool_from_env. history.
  induction records as [|record records IH]; simpl; [apply (historic_of (Ok _))|].
  unfold persist_live_record. history.
Qed.

Lemma persist_shadow_historic connect active details attempts artifacts id :
  historic (persist_shadow_execution_records_with_run_session_id connect active details attempts
              artifacts id).
Proof.
  unfold persist_shadow_execution_records_with_run_session_id, connect_pool_from_env.
  cbv zeta. case_match; history.
Qed.

Lemma anchor_historic connect sm target strategy id :
  historic (persist_operator_target_revision_anchor_with_run_session_id connect sm target strategy
              id).
Proof.
  unfold persist_operator_target_revision_anchor_with_run_session_id, connect_pool_from_env.
  history.
Qed.

Lemma resolve_startup_historic config : historic (resolve_startup_strategy_revision config).
Proof.
  unfold resolve_startup_strategy_revision, resolve_adopted_targets_from_operator_target_revision,
    resolve_adopted_strategy_revision.
  history.
Qed.

Lemma with_pool_historic {A} connect (m : Pool A) : historic m → historic (with_pool connect m).
Proof. intros Hm. unfold with_pool. history. Qed.

(** The database of a supervisor moves along histories. *)
Definition db_moves (a b : nat * Db) : Prop := evolves a.2 b.2.

#[export] Instance db_moves_preorder : PreOrder db_moves.
Proof.
  split; [intros a; apply evolves_refl|]. intros a b c. apply evolves_trans.
Qed.

Lemma run_app_moves {A} show (m : App A) env st :
  honest env → historic m → db_moves st (run_app show m env st).1.
Proof.
  intros He Hm. specialize (Hm env st He). unfold run_app.
  by destruct (m env st) as [st1 r].
Qed.

Lemma store_env_moves connect active details show env now :
  honest env → env_moves db_moves (store_env connect active details show env now).
Proof.
  intros He. split; intros; [..|apply evolves_refl]; simpl; apply run_app_moves; try done.
  - apply persist_live_historic.
  - apply persist_shadow_historic.
  - history.
  - history.
Qed.
End histories.

(** ** Runs *)

Section run.
Context {X : Externals} {O : OrderLaws X} {J : JsonOps} {P : PgOps} {PL : PgLaws P}.
Context {U : UrlOps} {D : SerdeOps} {T : TomlOps} {E : ErrorText} {C : ClockOps} {R : RestOps}.
Context {V : SdkValues} {H : HashOrder}.
Context {Venue : Type} {K : SdkClients (World := Venue)} {S : SdkSigning}.
Context (RV : relation Venue) `{!PreOrder RV}.

(** The database along histories, the venue along [RV]. *)
Definition world_moves (a b : RunWorld (Venue := Venue)) : Prop :=
  db_moves a.1 b.1 ∧ RV a.2 b.2.

#[local] Instance world_moves_preorder : PreOrder world_moves.
Proof.
  split; [intros a; split; reflexivity|].
  intros a b c [H1 H2] [H3 H4]. split; by etrans.
Qed.

Definition run_moves {A} (m : Running A) : Prop :=
  ∀ env w, honest env → world_moves w (m env w).1.

Lemma run_moves_of {A} (r : result RunError A) : run_moves (running_of r).
Proof. intros env w _. reflexivity. Qed.

Lemma run_moves_ret {A} (a : A) : run_moves (λ _ w, (w, Ok a)).
Proof. intros env w _. reflexivity. Qed.

Lemma run_moves_then {A B} (m : Running A) (f : A → Running B) :
  run_moves m → (∀ a env w w1, m env w = (w1, Ok a) → run_moves (f a)) →
  run_moves (λ env w, match m env w with (w, Ok a) => f a env w | (w, Err e) => (w, Err e) end).
Proof.
  intros Hm Hf env w He. specialize (Hm env w He). specialize (Hf) with (env := env) (w := w).
  destruct (m env w) as [w1 [a|e]]; [|done]. simpl in *.
  etrans; [exact Hm|]. by eapply Hf.
Qed.

Lemma run_moves_db {F A} (f : F → RunError) (m : Pooled F A) :
  historic m → run_moves (on_db f m).
Proof.
  intros Hm env [st v] He. unfold on_db, map_pooled_err. specialize (Hm env st He).
  destruct (m env st) as [st1 r]. by split; simpl.
Qed.

Lemma run_moves_app {A} (m : App A) : historic m → run_moves (on_app m).
Proof.
  intros Hm env [st v] He. unfold on_app. specialize (Hm env st He).
  destruct (m env st) as [st1 r]. by split; simpl.
Qed.

Lemma beside_venue_moves {A} (m : nat * Db → (nat * Db) * A) w :
  (∀ st, db_moves st (m st).1) → world_moves w (beside_venue m w).1.
Proof.
  intros Hm. unfold beside_venue. destruct w as [st v]. specialize (Hm st).
  destruct (m st) as [st1 a]. by split; simpl.
Qed.

Lemma beside_env_moves env : env_moves db_moves env → env_moves world_moves (env_beside_venue env).
Proof. intros [? ? ? ? ?]. split; intros; by apply beside_venue_moves. Qed.

Lemma backend_moves_beside (b : NegRiskLiveExecutionBackend (World := Venue)) :
  backend_moves RV (Some b) → backend_moves world_moves (Some (backend_beside_db b)).
Proof.
  intros Hb id target rule [st v] w' r. simpl.
  destruct (execute_live_family b id target rule v) as [[v1 r1]|] eqn:Ee; simpl; [|done].
  intros [= <- _]. split; simpl; [reflexivity|by eapply Hb].
Qed.

Lemma seeds_backend {W} (s : AppSupervisor (World := W)) durable smoke targets approved ready :
  sv_live_backend (foldl seed_op s (durable_seeds durable smoke targets approved ready)) =
  sv_live_backend s.
Proof.
  assert (∀ ops s0, Forall (λ op : SeedOp (World := W), match op with SetLiveBackend _ => False | _ => True end) ops →
    sv_live_backend (foldl seed_op s0 ops) = sv_live_backend s0) as Hops.
  { intros ops. induction ops as [|op ops IH]; intros s0; [done|]. inversion 1; subst. simpl.
    rewrite IH by done. destruct op; try done; unfold seed_op, record_committed_input;
      try case_bool_decide; done. }
  apply Hops. unfold durable_seeds.
  repeat (apply Forall_app; split); destruct smoke; repeat constructor;
    repeat (apply Forall_app; split); repeat constructor; by apply Forall_fmap, Forall_true.
Qed.

Lemma seeds_world {W} (ops : list (SeedOp (World := W))) s : sv_world (foldl seed_op s ops) = sv_world s.
Proof.
  revert s. induction ops as [|op ops IH]; intros s; [done|]. simpl. rewrite IH.
  destruct op; try done. unfold seed_op, record_committed_input. by case_bool_decide.
Qed.

Lemma live_supervisor_start snapshot durable targets approved ready backend smoke id w :
  let s := live_supervisor (Venue := Venue) snapshot durable targets approved ready backend smoke id w in
  sv_world s = w ∧ sv_live_backend s = backend.
Proof.
  unfold live_supervisor, seed_live_supervisor_from_durable_state.
  assert (∀ s b, sv_world (seed_op (World := RunWorld (Venue := Venue)) s (SetLiveBackend b)) = sv_world s)
    as Hw by done.
  destruct backend as [b|], id as [id|]; split; rewrite ?Hw; try done;
    first [by rewrite seeds_world|by rewrite seeds_backend].
Qed.

Lemma run_supervisor_moves re supervisor :
  (∀ w, sv_world (supervisor w) = w ∧ backend_moves world_moves (sv_live_backend (supervisor w))) →
  run_moves (run_supervisor re supervisor).
Proof.
  intros Hs env w He. destruct (Hs w) as [Hw Hb]. unfold run_supervisor.
  set (senv := env_beside_venue _).
  assert (env_moves world_moves senv) as Henv by (by apply beside_env_moves, store_env_moves).
  pose proof (run_startup_moves world_moves senv (supervisor w) Henv Hb) as Hm.
  destruct (run_startup senv (supervisor w)) as [[s [run|e]]|]; [| |reflexivity];
    destruct (Hm _ _ eq_refl) as [Hr _]; rewrite Hw in Hr; exact Hr.
Qed.

Lemma run_live_daemon_moves re snapshot strategy allow targets approved ready backend smoke id :
  backend_moves world_moves backend →
  run_moves (run_live_daemon re snapshot strategy allow targets approved ready backend smoke id).
Proof.
  intros Hb. unfold run_live_daemon. cbv zeta. apply run_moves_then.
  { apply run_moves_app. unfold load_daemon_state, load_durable_live_startup_state.
    case_bool_decide; apply startup_state_historic. }
  intros durable _ _ _ _. apply run_moves_then; [apply run_moves_app, historic_of|].
  intros _ _ _ _ _. apply run_moves_then.
  { apply run_supervisor_moves. intros w.
    destruct (live_supervisor_start snapshot durable targets approved ready backend
                (bool_decide (is_Some smoke)) id w) as [-> ->]. done. }
  intros run _ _ _ _. apply run_moves_then; [apply run_moves_app, anchor_historic|].
  intros _ _ _ _ _. apply run_moves_ret.
Qed.

Lemma run_live_config_moves re config smoke id :
  let build targets := build_live_neg_risk_execution_backend re config (bool_decide (is_Some smoke))
                         targets (rollout_approved_families config) (rollout_ready_families config) in
  (∀ targets, run_moves (build targets)) →
  (∀ targets env w w1 b, build targets env w = (w1, Ok (Some b)) →
     backend_moves RV (Some (polymarket_live_backend b))) →
  run_moves (run_live_config re config smoke id).
Proof.
  intros build Hbuild Hb. unfold run_live_config. cbv zeta.
  apply run_moves_then; [apply run_moves_of|]. intros _ _ _ _ _.
  apply run_moves_then; [apply run_moves_db, resolve_startup_historic|]. intros resolved _ _ _ _.
  apply run_moves_then; [apply run_moves_of|]. intros targets _ _ _ _.
  apply run_moves_then; [apply run_moves_of|]. intros account _ _ _ _.
  apply run_moves_then; [apply Hbuild|]. intros backend env w w1 Eb.
  apply run_moves_then.
  { destruct smoke; [destruct account|]; intros ? ? _; reflexivity. }
  intros source _ _ _ _. apply run_live_daemon_moves.
  destruct backend as [b|]; [|done]. apply backend_moves_beside. by eapply Hb.
Qed.

(** Building the backend touches the venue only where there is something to trade. *)
Lemma build_moves re config smoke targets approved ready :
  (smoke = false → live_neg_risk_work_requested targets approved ready = true →
   runtime_wallet_kind_requires_relayer config = true →
   ∀ key source credentials v, gateway_credentials_try_from config = Ok credentials →
     RV v (live_backend_from_runtime_inputs key source credentials v).1) →
  run_moves (build_live_neg_risk_execution_backend re config smoke targets approved ready).
Proof.
  intros Hb. unfold build_live_neg_risk_execution_backend.
  destruct smoke; [apply run_moves_ret|].
  destruct (live_neg_risk_work_requested targets approved ready); [|apply run_moves_ret].
  destruct (runtime_wallet_kind_requires_relayer config); [|apply run_moves_of]. simpl.
  apply run_moves_then; [apply run_moves_of|]. intros source _ _ _ _.
  apply run_moves_then; [apply run_moves_of|]. intros credentials env0 w0 w1 Hc.
  apply run_moves_then; [|intros; apply run_moves_ret]. intros env [st v] _. unfold on_venue.
  assert (gateway_credentials_try_from config = Ok credentials) as Hcred.
  { revert Hc. unfold running_of. intros [= _ Hc].
    by destruct (gateway_credentials_try_from config); simplify_eq/=. }
  specialize (Hb eq_refl eq_refl eq_refl (re_private_key re) source credentials v Hcred).
  destruct (live_backend_from_runtime_inputs _ _ _ v) as [v1 x]. by split; simpl.
Qed.

Lemma build_some re config smoke targets approved ready env w w1 b :
  build_live_neg_risk_execution_backend re config smoke targets approved ready env w =
    (w1, Ok (Some b)) →
  smoke = false ∧ live_neg_risk_work_requested targets approved ready = true ∧
  runtime_wallet_kind_requires_relayer config = true ∧
  ∃ source credentials v v1, gateway_credentials_try_from config = Ok credentials ∧
    live_backend_from_runtime_inputs (re_private_key re) source credentials v = (v1, Ok b).
Proof.
  unfold build_live_neg_risk_execution_backend. destruct smoke; [done|].
  destruct (live_neg_risk_work_requested targets approved ready); [|done].
  destruct (runtime_wallet_kind_requires_relayer config); [|done].
  unfold mbind, running_bind, running_of, on_venue. simpl. destruct w as [st v].
  destruct (source_config_try_from config) as [source|]; simpl; [|done].
  destruct (gateway_credentials_try_from config) as [credentials|]; simpl; [|done].
  destruct (live_backend_from_runtime_inputs _ _ _ v) as [v1 [b'|]] eqn:Eb; simpl; [|done].
  intros [= _ <-]. split_and!; try done. by exists source, credentials, v, v1.
Qed.

Lemma run_paper_moves re : run_moves (run_paper_config re).
Proof.
  intros env w He. unfold run_paper_config.
  destruct (run_bootstrap _ _); reflexivity.
Qed.

Lemma create_handle_historic connect path by_ file pid nanos config at_ :
  historic (handle_create_starting connect path by_ file pid nanos config at_).
Proof.
  unfold handle_create_starting, load_active_runtime_progress_at_start.
  apply historic_pooled_bind; [apply historic_of|]. intros text.
  apply historic_pooled_bind; [apply with_pool_historic, progress_current_historic|]. intros progress.
  apply historic_pooled_bind; [apply historic_of|]. intros row.
  apply historic_pooled_bind; [apply with_pool_historic, create_starting_historic|]. intros [].
  apply historic_of.
Qed.

Lemma close_session_moves re text id (body : Running AppRunResult) :
  run_moves body → run_moves (close_session re text id body).
Proof.
  intros Hb env w He. unfold close_session. specialize (Hb env w He).
  destruct (body env w) as [w1 [run|[error|]]]; simpl in *; [| |done].
  - etrans; [exact Hb|]. revert He. generalize w1. intros w2. revert env w2.
    change (run_moves (_ ← on_db RunSession (handle_mark_running (re_connect re) id (re_running_at re));
       _ ← on_db RunSession (handle_refresh_last_seen (re_connect re) id (re_seen_at re));
       on_db RunSession (handle_mark_exited (re_connect re) id (re_ended_at re)))).
    apply run_moves_then; [apply run_moves_db, with_pool_historic; history|]. intros _ _ _ _ _.
    apply run_moves_then; [apply run_moves_db, with_pool_historic; history|]. intros _ _ _ _ _.
    apply run_moves_db, with_pool_historic; history.
  - etrans; [exact Hb|]. revert He. generalize w1. intros w2. revert env w2.
    apply run_moves_then; [apply run_moves_db, with_pool_historic; history|]. intros _ _ _ _ _.
    apply run_moves_of.
Qed.

(** A run moves the world along as soon as its live branch does. *)
Lemma run_command_moves re text path file by_ :
  (∀ config smoke id,
     (raw ← load_raw_config_from_path file; validated ← validated_config_new raw;
      for_app_live validated) = Ok config →
     load_real_user_shadow_smoke_config config = Ok smoke →
     rt_mode (rc_runtime config) = ModeLive → run_moves (run_live_config re config smoke id)) →
  run_moves (run_from_config_path_for_source re text path file by_).
Proof.
  intros Hlive. unfold run_from_config_path_for_source.
  apply run_moves_then; [apply run_moves_of|]. intros config env0 w0 w1 Hc.
  apply run_moves_then; [apply run_moves_of|]. intros smoke env2 w2 w3 Hs.
  apply run_moves_then; [apply run_moves_of|]. intros _ _ _ _ _.
  apply run_moves_then; [apply run_moves_db, create_handle_historic|]. intros id _ _ _ _.
  apply close_session_moves. unfold run_body.
  destruct (rt_mode (rc_runtime config)) eqn:Em; [apply run_paper_moves|].
  apply Hlive; [| |done].
  - revert Hc. unfold running_of. intros [= _ Hc]. clear Hlive.
    by destruct (raw ← load_raw_config_from_path file; _); simplify_eq/=.
  - revert Hs. unfold running_of. intros [= _ Hs].
    by destruct (load_real_user_shadow_smoke_config config); simplify_eq/=.
Qed.
End run.

(** ** What a run leaves behind *)

Section sessions.
Context {X : Externals} {O : OrderLaws X} {J : JsonOps} {P : PgOps} {PL : PgLaws P}.
Context {U : UrlOps} {D : SerdeOps} {T : TomlOps} {E : ErrorText} {C : ClockOps} {R : RestOps}.
Context {V : SdkValues} {H : HashOrder}.
Context {Venue : Type} {K : SdkClients (World := Venue)} {S : SdkSigning}.

(** A transition that succeeds writes its row. *)
Lemma transition_writes t env st st1 :
  transition_active_state t env st = (st1, Ok ()) →
  ∃ r, db_run_sessions st1.2 !! tr_run_session_id t = Some (transition_columns t r).
Proof.
  destruct st as [n db]. unfold transition_active_state, mbind, pool_bind, stmt.
  destruct (fr_up env n); [|done]. unfold update_run_session at 1.
  destruct (db_run_sessions _ !! tr_run_session_id t) as [row|].
  1: case_bool_decide.
  1: { intros [= <-]. exists row. simpl. by rewrite lookup_insert_eq. }
  all: unfold classify_run_session_update_failure, mbind, pool_bind;
    match goal with |- context [current_state ?i ?e ?s] =>
      destruct (current_state i e s) as [? [[]|]] end; done.
Qed.

(** The row of a session that is over. *)
Definition ended_with (re : RunEnv) (id state status : string) (reason : option string) (db : Db) :
    Prop :=
  ∃ row, db_run_sessions db !! id = Some row ∧ run_state row = state ∧
    run_exit_status row = Some status ∧ run_exit_reason row = reason ∧
    run_ended_at row = Some (pg_time (re_ended_at re)).

Lemma on_db_transition connect t env w w1 :
  on_db (Venue := Venue) RunSession (with_pool connect (transition_active_state t)) env w =
    (w1, Ok ()) →
  ∃ r, db_run_sessions w1.1.2 !! tr_run_session_id t = Some (transition_columns t r).
Proof.
  destruct w as [st v]. unfold on_db, map_pooled_err, with_pool, from_repo, pooled_of, mbind,
    pooled_bind. destruct connect as [[]|]; simpl; [|done].
  destruct (transition_active_state t env st) as [st1 [[]|[]]] eqn:Et; simpl; try done.
  intros [= <-]. by apply transition_writes in Et.
Qed.

Lemma created_id connect path by_ file pid nanos config at_ env st st1 id :
  handle_create_starting connect path by_ file pid nanos config at_ env st = (st1, Ok id) →
  id = new_run_session_id path by_ pid nanos.
Proof.
  unfold handle_create_starting, load_active_runtime_progress_at_start, mbind, pooled_bind,
    pooled_of.
  destruct file as [text|]; simpl; [|done].
  destruct (with_pool _ progress_current env st) as [st2 [progress|]]; [|done].
  destruct (build_starting_row _ _ _ _ _ _ _ _) as [row|] eqn:Er; simpl; [|done].
  destruct (with_pool _ _ env st2) as [st3 [[]|]]; [|done]. intros [= _ <-].
  unfold build_starting_row in Er. by destruct (startup_revision_snapshot _ _); simplify_eq/=.
Qed.

(** The outcome of a run and the row of its session. *)
Definition recorded (re : RunEnv) (text : RunSessionError → string) (id : string)
    (w' : RunWorld (Venue := Venue)) (r : result (Halt RunError) ()) : Prop :=
  match r with
  | Ok _ => ended_with re id "exited" "success" None w'.1.2
  | Err (Halted (RunSession _)) => True
  | Err (Halted e) => ended_with re id "failed" "failed" (Some (run_error_text re text e)) w'.1.2
  | Err HaltPanicked => True
  end.

(** What ends a run at its session is an error of the session. *)
Lemma session_error {A} re text id (m : Pooled RunSessionError A) env w w' e :
  on_db RunSession m env w = (w', Err e) → recorded re text id w' (Err e).
Proof.
  destruct w as [st v]. unfold on_db, map_pooled_err.
  destruct (m env st) as [st1 [a|[]]]; by intros [= <- <-].
Qed.

Lemma close_session_records re text id (body : Running AppRunResult) env w w' r :
  close_session re text id body env w = (w', r) → recorded re text id w' r.
Proof.
  unfold close_session, mbind, running_bind.
  destruct (body env w) as [w1 [run|[error|]]]; [| |by intros [= _ <-]].
  - destruct (on_db _ _ env w1) as [w2 [[]|]] eqn:E1;
      [|by intros [= <- <-]; eapply session_error].
    destruct (on_db _ (handle_refresh_last_seen _ _ _) env w2) as [w3 [[]|]] eqn:E2;
      [|by intros [= <- <-]; eapply session_error].
    intros E3. destruct r as [[]|]; [|by eapply session_error].
    apply on_db_transition in E3 as [row Hrow]. eexists. split; [exact Hrow|by split_and!].
  - destruct (on_db _ _ env w1) as [w2 [[]|]] eqn:E1;
      [|by intros [= <- <-]; eapply session_error].
    intros [= <- <-]. apply on_db_transition in E1 as [row Hrow].
    destruct error; try done; eexists; (split; [exact Hrow|by split_and!]).
Qed.

#[local] Instance any_preorder : PreOrder (λ _ _ : Venue, True).
Proof. by split. Qed.

Lemma run_command_history re text path file by_ env w :
  honest env → evolves w.1.2 (run_from_config_path_for_source re text path file by_ env w).1.1.2.
Proof.
  intros He. apply (run_command_moves (λ _ _, True) re text path file by_); [|done].
  intros config smoke id _ _ _. apply run_live_config_moves; [apply any_preorder|..].
  - intros targets. by apply build_moves; [apply any_preorder|].
  - by intros.
Qed.

(** C28. A run records its own end. Whatever the configuration, the venue and the other
    sessions do, the database a run leaves is one a history of the repositories leads to;
    a run that succeeds leaves its session exited with success, and one that fails
    either ended before it had a session, and then nothing has changed at all, or leaves
    its session failed with the error as the reason. Only the errors of the session
    itself and panics are not written down. *)
Theorem run_records_its_end re text path file by_ env (w w' : RunWorld (Venue := Venue)) r :
  honest env →
  run_from_config_path_for_source re text path file by_ env w = (w', r) →
  evolves w.1.2 w'.1.2 ∧
  (recorded re text (new_run_session_id path (invocation_as_str by_) (re_process_id re)
                       (re_nanos re)) w' r ∨
   (w' = w ∧ ∃ e, r = Err (Halted e))).
Proof.
  intros He Hr. split.
  { pose proof (run_command_history re text path file by_ env w He) as Hm. by rewrite Hr in Hm. }
  revert Hr. unfold run_from_config_path_for_source, mbind, running_bind, running_of.
  destruct (map_err RunSchema _) as [config|e]; simpl; [|intros [= <- <-]; eauto].
  destruct (map_err RunConfig _) as [smoke|e]; simpl; [|intros [= <- <-]; eauto].
  destruct (re_database_url re); simpl; [|intros [= <- <-]; eauto].
  destruct (on_db _ _ env w) as [w1 [id|e]] eqn:E1;
    [|intros [= <- <-]; left; by eapply session_error].
  intros Hc. left. apply close_session_records in Hc.
  destruct w as [st v]. unfold on_db, map_pooled_err in E1.
  destruct (handle_create_starting _ _ _ _ _ _ _ _ env st) as [st1 [id'|[]]] eqn:Ec; try done.
  injection E1 as <- ->. apply created_id in Ec as ->. exact Hc.
Qed.

(** What a configuration must say for a run to trade: live, no shadow smoke run, a wallet
    with a relayer, and a family that is both approved and ready. *)
Definition may_trade (config : RawAxiomConfig) : bool :=
  bool_decide (rt_mode (rc_runtime config) = ModeLive) &&
  negb (real_user_shadow_smoke config) &&
  runtime_wallet_kind_requires_relayer config &&
  bool_decide (rollout_approved_families config ∩ rollout_ready_families config ≠ ∅).

Lemma work_needs_family targets (approved ready : gset string) :
  live_neg_risk_work_requested targets approved ready = true → approved ∩ ready ≠ ∅.
Proof.
  unfold live_neg_risk_work_requested. rewrite existsb_exists.
  intros (f & _ & [Ha%bool_decide_eq_true Hr%bool_decide_eq_true]%andb_prop). set_solver.
Qed.

Lemma unlicensed config smoke targets :
  may_trade config = false → rt_mode (rc_runtime config) = ModeLive →
  load_real_user_shadow_smoke_config config = Ok smoke →
  bool_decide (is_Some smoke) = false →
  live_neg_risk_work_requested targets (rollout_approved_families config)
    (rollout_ready_families config) = true →
  runtime_wallet_kind_requires_relayer config = true → False.
Proof.
  unfold may_trade, load_real_user_shadow_smoke_config. intros Hm Hlive Hs Hnone Hwork Hrelayer.
  rewrite Hlive, Hrelayer in Hm. destruct (real_user_shadow_smoke config); simpl in *.
  - by destruct (source_config_try_from config); simplify_eq/=.
  - apply work_needs_family in Hwork. by rewrite bool_decide_eq_true_2 in Hm.
Qed.

(** C14. A run whose configuration does not license trading leaves the venue as it was: it
    neither signs nor posts an order, whatever targets the database holds for it. That
    is every paper run, every shadow smoke run, every run of an account without a
    relayer and every run none of whose approved families is ready. *)
Theorem runs_without_licence_never_trade re text path file by_ env (w : RunWorld (Venue := Venue))
    config :
  honest env →
  (raw ← load_raw_config_from_path file; validated ← validated_config_new raw;
   for_app_live validated) = Ok config →
  may_trade config = false →
  (run_from_config_path_for_source re text path file by_ env w).1.2 = w.2.
Proof.
  intros He Hc Hm. symmetry.
  apply (run_command_moves eq re text path file by_); [|done].
  intros config' smoke id Hc' Hs Hlive. rewrite Hc in Hc'. injection Hc' as <-.
  apply run_live_config_moves; [apply _|..].
  - intros targets. apply build_moves; [apply _|]. intros. exfalso. by eapply unlicensed.
  - intros targets env' w1 w2 b (? & ? & ? & _)%build_some. exfalso. by eapply unlicensed.
Qed.

(** The label a validated Safe account has is not one the backend reads. *)
Lemma safe_account_has_no_backend key source credentials (v : Venue) config account :
  raw_account config = Some account → pat_signature_type account = TomlSigSafe →
  gateway_credentials_try_from config = Ok credentials →
  ∃ e, live_backend_from_runtime_inputs key source credentials v = (v, Err e).
Proof.
  intros Ha Hs. unfold gateway_credentials_try_from. rewrite Ha.
  destruct (has_polymarket_signer config); [done|]. simpl.
  destruct (app_validate_account_view account); [|done]. intros [= <-].
  unfold live_backend_from_runtime_inputs, order_signer_from_runtime_inputs.
  unfold gateway_credentials_from_account. cbn [gc_signature_type gc_api_key]. rewrite Hs.
  destruct (ok_or key _) as [k|]; simpl; [|by eexists].
  destruct (signer_from_str k) as [sg|]; simpl; [|by eexists].
  destruct (uuid_parse_str _) as [u|]; simpl; [|by eexists].
  destruct shared_runtime as [rt|]; simpl; [|by eexists].
  destruct (clob_client_new _) as [c|]; simpl; [|by eexists].
  by eexists.
Qed.

(** So the runs of a Safe account never trade, licensed or not. *)
Lemma safe_accounts_never_trade re text path file by_ env (w : RunWorld (Venue := Venue)) config
    account :
  honest env →
  (raw ← load_raw_config_from_path file; validated ← validated_config_new raw;
   for_app_live validated) = Ok config →
  raw_account config = Some account → pat_signature_type account = TomlSigSafe →
  (run_from_config_path_for_source re text path file by_ env w).1.2 = w.2.
Proof.
  intros He Hc Ha Hsafe. symmetry.
  apply (run_command_moves eq re text path file by_); [|done].
  intros config' smoke id Hc' Hs Hlive. rewrite Hc in Hc'. injection Hc' as <-.
  apply run_live_config_moves; [apply _|..].
  - intros targets. apply build_moves; [apply _|]. intros _ _ _ key source credentials v Hcred.
    by destruct (safe_account_has_no_backend key source credentials v config account) as [e ->].
  - intros targets env' w1 w2 b (_ & _ & _ & source & credentials & v & v1 & Hcred & Hb)%build_some.
    by destruct (safe_account_has_no_backend (re_private_key re) source credentials v config account)
      as [e E']; [..|congruence].
Qed.
End sessions.

(** ** The loop of the daemon *)

Section loop.
Context {X : Externals} {J : JsonOps} {H : HashOrder} {World : Type}.

Lemma daemon_loop_ticks env left order ticks last (s s' : AppSupervisor (World := World)) r :
  0 <= ticks → ticks + Z.of_nat left < 2 ^ 64 →
  (left = 0%nat → ∀ r0, last = Some r0 → dn_idle_reached r0 = can_resume_ingest_loops s) →
  (∀ r0, last = Some r0 → dn_ticks_run r0 = ticks) →
  daemon_loop env left order ticks last s = Returns (s', Ok r) →
  ticks <= dn_ticks_run r <= ticks + Z.of_nat left ∧
  dn_idle_reached r = can_resume_ingest_loops s'.
Proof.
  revert order ticks last s. induction left as [|left IH]; intros order ticks last s H0 Hb Hi Ht;
    simpl.
  - destruct last as [r0|]; [|done]. intros [= <- <-]. rewrite (Ht r0), (Hi eq_refl r0) by done.
    split; [lia|done].
  - destruct (run_once env s) as [[s1 [sm|e]]|]; simpl; [|done..].
    assert (u64_add ticks 1 = ticks + 1) as Hadd by (unfold u64_add; rewrite Z.mod_small; lia).
    rewrite Hadd. destruct (_ || _).
    + intros [= <- <-]. simpl. split; [lia|done].
    + intros Hl. apply IH in Hl; [|lia|lia|by intros _ r0 [= <-]|by intros r0 [= <-]].
      split; [lia|tauto].
Qed.

(** A daemon with [n] ticks runs at least one and at most [n], and reports itself idle
    exactly when its supervisor is. *)
Lemma daemon_ticks env n (s s' : AppSupervisor (World := World)) r :
  Z.of_nat n < 2 ^ 64 → run_until_idle env n s = Returns (s', Ok r) →
  1 <= dn_ticks_run r <= Z.of_nat n ∧ dn_idle_reached r = can_resume_ingest_loops s'.
Proof.
  intros Hn. destruct n as [|n]; [done|]. unfold run_until_idle. simpl.
  destruct (run_once env s) as [[s1 [sm|e]]|]; simpl; [|done..].
  assert (u64_add 0 1 = 1) as -> by done. destruct (_ || _).
  - intros [= <- <-]. simpl. split; [lia|done].
  - intros Hl. apply daemon_loop_ticks in Hl; [|lia|lia|by intros _ r0 [= <-]|by intros r0 [= <-]].
    split; [lia|tauto].
Qed.

(** A loop that stops before its last tick is idle or made no progress. *)
Lemma daemon_loop_stops env left order ticks last (s : AppSupervisor (World := World)) :
  run_until_idle env 0 s = Returns (s, Err SvDaemonNeedsTick) ∧
  (∀ s1 sm, run_once env s = Returns (s1, Ok sm) → can_resume_ingest_loops s1 = false →
     dn_summary <$> last ≠ Some sm →
     ∃ r, dn_summary r = sm ∧
       daemon_loop env (S left) order ticks last s =
       daemon_loop env left order (u64_add ticks 1) (Some r) s1).
Proof.
  split; [done|]. intros s1 sm E Hi Hp. simpl. rewrite E. simpl. rewrite Hi.
  rewrite bool_decide_eq_false_2 by done. simpl. by eexists; split; [|reflexivity].
Qed.
End loop.

(** ** Witnesses *)

Module witnesses.
#[local] Existing Instance Micros.
#[local] Existing Instance plain_json.
#[local] Existing Instance plain_pg.
#[local] Existing Instance plain_url.
#[local] Existing Instance plain_serde.
#[local] Existing Instance plain_errors.
#[local] Existing Instance Micros_clock.
#[local] Existing Instance LiveProofs.witnesses.code_text.
#[local] Existing Instance LiveProofs.witnesses.plain_sdk_values.
#[local] Existing Instance LiveProofs.witnesses.plain_clients.
#[local] Existing Instance ElementsOrder.
#[local] Instance plain_signing : SdkSigning (X := Micros) (World := list SdkSignedOrder) := {|
  SdkSigner := string; SdkBaseClient := string; SdkSignable := LimitOrder Micros;
  private_key_var := "POLYMARKET_PRIVATE_KEY"; sdk_polygon := 137;
  signer_from_str s := Ok s; signer_with_chain_id _ s := s; signer_chain_id _ := Some 137;
  shared_runtime := Ok LiveProofs.witnesses.inline_runtime; clob_client_new s := Err "offline";
  clob_authenticate _ _ credentials _ _ w := (w, Err "offline");
  limit_order_build _ lo w := (w, Ok lo); client_sign _ _ _ w := (w, Err "offline");
  client_neg_risk _ _ w := (w, Ok true); contract_exchange _ _ := Some "0xexchange";
  side_try_from b := None; order_signing_hash _ _ := "0xhash";
|}.

Definition paper_text : string := toml_print [("runtime", TTab [("mode", TStr "paper")])].

Definition paper_config : RawAxiomConfig :=
  {| rc_runtime := {| rt_mode := ModePaper; rt_real_user_shadow_smoke := false |};
     rc_strategy_control := None; rc_strategies := None; rc_polymarket := None;
     rc_negrisk := None |}.

Definition plain_run : RunEnv :=
  {| re_connect := Ok (); re_database_url := true; re_private_key := None; re_process_id := 41;
     re_nanos := 7; re_active := ∅; re_details _ := ""; re_show _ := "boxed error";
     re_started_at := instant 10; re_account_now := instant 10; re_heartbeat_now := instant 10;
     re_now _ := instant 11; re_running_at := instant 12; re_seen_at := instant 13;
     re_ended_at := instant 14 |}.

Definition paper_run : RunWorld (Venue := list SdkSignedOrder) * result (Halt RunError) () :=
  run_from_config_path_for_source plain_run (λ _, "session error") "config.toml" (Some paper_text)
    InvokedByRun (quiet (instant 0)) ((0%nat, db_empty), []).

Lemma paper_loads :
  (raw ← load_raw_config_from_path (Some paper_text); validated ← validated_config_new raw;
   for_app_live validated) = Ok paper_config.
Proof. unfold paper_text. by rewrite load_printed. Qed.

Lemma paper_run_ok : paper_run.2 = Ok ().
Proof.
  unfold paper_run, run_from_config_path_for_source. rewrite paper_loads. vm_compute. reflexivity.
Qed.

Lemma quiet_honest : honest (quiet (instant 0)).
Proof. intros n db. apply evolves_refl. Qed.

Lemma run_records_its_end_witness :
  evolves db_empty paper_run.1.1.2 ∧
  ended_with plain_run (new_run_session_id "config.toml" "run" 41 7) "exited" "success" None
    paper_run.1.1.2.
Proof.
  destruct (run_records_its_end plain_run (λ _, "session error") "config.toml" (Some paper_text)
    InvokedByRun (quiet (instant 0)) ((0%nat, db_empty), []) paper_run.1 paper_run.2 quiet_honest)
    as [He [Hr|[_ [e Hr]]]].
  - unfold paper_run. apply surjective_pairing.
  - split; [exact He|]. rewrite paper_run_ok in Hr. exact Hr.
  - rewrite paper_run_ok in Hr. discriminate Hr.
Defined.

Lemma runs_without_licence_never_trade_witness : paper_run.1.2 = [].
Proof.
  apply (runs_without_licence_never_trade plain_run (λ _, "session error") "config.toml"
    (Some paper_text) InvokedByRun (quiet (instant 0)) ((0%nat, db_empty), []) paper_config
    quiet_honest paper_loads).
  reflexivity.
Defined.
End witnesses.
