(* ===== verification/L2Probe.v ===== *)
(** * The L2 probe client

    [venue-polymarket/src/l2_probe.rs]: the signed requests the doctor sends, with the
    HMAC and the base64 codec they are written with. A byte is a [Z] between 0 and 255. *)

From Stdlib Require Import Ascii.
From S2P Require Import Prelude Text Externals Json Domain WsMessages AppConfig Gateway.

(** ** Bytes *)

Definition byte_of (c : ascii) : Z := Z.of_N (N_of_ascii c).
Definition char_of (b : Z) : ascii := ascii_of_N (Z.to_N b).

(** [s.as_bytes()] *)
Definition bytes_of (s : string) : list Z := byte_of <$> String.list_ascii_of_string s.
Definition string_of_bytes (bytes : list Z) : string :=
  String.string_of_list_ascii (char_of <$> bytes).

(** [byte as char], in UTF-8 *)
Definition byte_as_char (b : Z) : string :=
  string_of_bytes (if bool_decide (b < 128) then [b]
                   else [Z.lor 0xc0 (Z.shiftr b 6); Z.lor 0x80 (Z.land b 0x3f)]).

(** [as u8] and shifts of a [u32] *)
Definition as_u8 (n : Z) : Z := Z.land n 255.
Definition u32_shl (n k : Z) : Z := Z.shiftl n k `mod` 2 ^ 32.

(** ** base64 *)

Definition base64_table : string :=
  "ABCDEFGHIJKLMNOPQRSTUVWXYZabcdefghijklmnopqrstuvwxyz0123456789+/".

(** [TABLE[i] as char]; the index is below 64. *)
Definition table_char (i : Z) : ascii := default "?"%char (String.get (Z.to_nat i) base64_table).

(** One chunk of at most three bytes. *)
Definition base64_chunk (chunk : list Z) : string :=
  let b0 := default 0 (chunk !! 0%nat) in
  let b1 := default 0 (chunk !! 1%nat) in
  let b2 := default 0 (chunk !! 2%nat) in
  let n := Z.lor (Z.lor (u32_shl b0 16) (u32_shl b1 8)) b2 in
  String (table_char (Z.land (Z.shiftr n 18) 63))
   (String (table_char (Z.land (Z.shiftr n 12) 63))
    (String (if bool_decide (1 < length chunk)%nat then table_char (Z.land (Z.shiftr n 6) 63)
             else "="%char)
     (String (if bool_decide (2 < length chunk)%nat then table_char (Z.land n 63)
              else "="%char) ""))).

(** The loop over [bytes.chunks(3)]. *)
Fixpoint base64_standard (bytes : list Z) : string :=
  match bytes with
  | [] => ""
  | b0 :: b1 :: b2 :: rest => base64_chunk [b0; b1; b2] +:+ base64_standard rest
  | chunk => base64_chunk chunk
  end.

Definition urlsafe_char (c : ascii) : ascii :=
  if bool_decide (c = "+"%char) then "-"%char
  else if bool_decide (c = "/"%char) then "_"%char else c.

Definition base64_urlsafe (bytes : list Z) : string := str_map urlsafe_char (base64_standard bytes).

Definition decode_base64_char (byte : Z) : option Z :=
  if bool_decide (byte_of "A" ≤ byte ≤ byte_of "Z") then Some (byte - byte_of "A")
  else if bool_decide (byte_of "a" ≤ byte ≤ byte_of "z") then Some (byte - byte_of "a" + 26)
  else if bool_decide (byte_of "0" ≤ byte ≤ byte_of "9") then Some (byte - byte_of "0" + 52)
  else if bool_decide (byte = byte_of "+") then Some 62
  else if bool_decide (byte = byte_of "/") then Some 63
  else None.

(** [byte.is_ascii_whitespace()] *)
Definition is_ascii_whitespace (byte : Z) : bool := bool_decide (byte ∈ [32; 9; 10; 12; 13]).

Definition standard_byte (byte : Z) : Z :=
  if bool_decide (byte = byte_of "-") then byte_of "+"
  else if bool_decide (byte = byte_of "_") then byte_of "/" else byte.

(** The inner loop over a chunk: whether padding was seen, and the values, 0 where there is
    padding. *)
Fixpoint decode_values (index : nat) (seen_padding : bool) (chunk : list Z) :
    result string (bool * list Z) :=
  match chunk with
  | [] => Ok (seen_padding, [])
  | byte :: chunk' =>
      if bool_decide (byte = byte_of "=") then
        if bool_decide (index < 2)%nat then Err "invalid base64 padding"
        else
          '(seen, values) ← decode_values (S index) true chunk';
          Ok (seen, 0 :: values)
      else if seen_padding then Err "invalid base64 padding"
      else
        value ← ok_or (decode_base64_char byte)
                  ("invalid base64 character: " +:+ byte_as_char byte);
        '(seen, values) ← decode_values (S index) seen_padding chunk';
        Ok (seen, value :: values)
  end.

(** One chunk; every chunk has four bytes. *)
Definition decode_chunk (is_last : bool) (chunk : list Z) : result string (list Z) :=
  '(seen_padding, values) ← decode_values 0 false chunk;
  if seen_padding && negb is_last then Err "invalid base64 padding"
  else
    let value i := default 0 (values !! i) in
    let word := Z.lor (Z.lor (Z.lor (u32_shl (value 0%nat) 18) (u32_shl (value 1%nat) 12))
                         (u32_shl (value 2%nat) 6)) (value 3%nat) in
    let unless_padding i byte :=
      if bool_decide (chunk !! i = Some (byte_of "=")) then [] else [byte] in
    Ok (as_u8 (Z.shiftr word 16) :: unless_padding 2%nat (as_u8 (Z.shiftr word 8)) ++
        unless_padding 3%nat (as_u8 word)).

(** The loop over [filtered.chunks(4)]. *)
Fixpoint decode_chunks (bytes : list Z) : result string (list Z) :=
  match bytes with
  | [] => Ok []
  | c0 :: c1 :: c2 :: c3 :: rest =>
      first ← decode_chunk (bool_decide (rest = [])) [c0; c1; c2; c3];
      more ← decode_chunks rest;
      Ok (first ++ more)
  | chunk => decode_chunk true chunk
  end.

Definition normalized_base64 (input : list Z) : list Z :=
  standard_byte <$> List.filter (λ byte, negb (is_ascii_whitespace byte)) input.

Definition decode_base64 (input : list Z) : result string (list Z) :=
  let filtered := normalized_base64 input in
  if bool_decide (filtered = []) then Err "invalid base64 length"
  else
    let padding := byte_of "=" in
    match (length filtered `mod` 4)%nat with
    | 0%nat => decode_chunks filtered
    | 2%nat => decode_chunks (filtered ++ [padding; padding])
    | 3%nat => decode_chunks (filtered ++ [padding])
    | _ => Err "invalid base64 length"
    end.

(** ** The signature *)

Record PolymarketL2ProbeCredentials := {
  lp_address : string;
  lp_api_key : string;
  lp_secret : string;
  lp_passphrase : string;
}.

Definition probe_field (field value : string) : result PolymarketGatewayError () :=
  if is_blank value then Err (gateway_error KindAuth ("missing l2 probe field: " +:+ field))
  else Ok ().

Section signature.
Context {X : Externals}.

(** [key_block]: the key, hashed when it is longer than a block, padded with zeros. *)
Definition hmac_key_block (key : list Z) : list Z :=
  let key := if bool_decide (64 < length key)%nat then sha256 (string_of_bytes key) else key in
  key ++ replicate (64 - length key) 0.

Definition hmac_sha256 (key message : list Z) : list Z :=
  let key_block := hmac_key_block key in
  let inner_pad := Z.lxor 0x36 <$> key_block in
  let outer_pad := Z.lxor 0x5c <$> key_block in
  let inner_digest := sha256 (string_of_bytes (inner_pad ++ message)) in
  sha256 (string_of_bytes (outer_pad ++ inner_digest)).

Definition build_l2_probe_signature (credentials : PolymarketL2ProbeCredentials)
    (timestamp method request_path body : string) : result PolymarketGatewayError string :=
  _ ← probe_field "api_key" (lp_api_key credentials);
  _ ← probe_field "address" (lp_address credentials);
  _ ← probe_field "secret" (lp_secret credentials);
  _ ← probe_field "passphrase" (lp_passphrase credentials);
  _ ← probe_field "timestamp" timestamp;
  _ ← probe_field "method" method;
  _ ← probe_field "request_path" request_path;
  secret ← map_err (λ err, gateway_error KindProtocol ("invalid l2 probe secret encoding: " +:+ err))
             (decode_base64 (bytes_of (lp_secret credentials)));
  let payload := timestamp +:+ to_ascii_uppercase method +:+ request_path +:+ body in
  Ok (base64_urlsafe (hmac_sha256 secret (bytes_of payload))).
End signature.

(** ** The client *)

Record HttpRequest {U : UrlOps} := {
  hr_method : string;
  hr_url : Url;
  hr_headers : list (string * string);
  hr_body : option string;
}.
Arguments HttpRequest _ : clear implicits.

(** [hp_text]: the body, unless reading it failed. *)
Record HttpResponse := { hp_status : Z; hp_text : option string }.

(** [reqwest] and what [url] and [http] add to [UrlOps]: [http_client] is the client that
    [Client::builder] builds with a timeout, [http_send] the sending of a request, an error
    being its text. *)
Class HttpOps {U : UrlOps} {World : Type} := {
  HttpClient : Type;
  http_client : result string HttpClient;
  http_send : HttpClient → HttpRequest U → World → World * result string HttpResponse;
  url_join : Url → string → result string Url;
  header_value_error : string → string;
}.

Section client.
Context {X : Externals} {J : JsonOps} {U : UrlOps} {R : RestOps}.
Context {World : Type} {HT : HttpOps (World := World)}.

Record PolymarketL2ProbeClient := {
  pl_host : Url;
  pl_http : HttpClient;
  pl_credentials : PolymarketL2ProbeCredentials;
}.

Definition l2_probe_client_new (host : Url) (credentials : PolymarketL2ProbeCredentials) :
    result PolymarketGatewayError PolymarketL2ProbeClient :=
  http ← map_err (λ err, gateway_error KindConnectivity
           ("failed to build l2 probe client: " +:+ err)) http_client;
  Ok {| pl_host := host; pl_http := http; pl_credentials := credentials |}.

(** [path.trim_start_matches('/')] *)
Fixpoint trim_slashes (path : string) : string :=
  match path with
  | String c path' => if bool_decide (c = "/"%char) then trim_slashes path' else path
  | EmptyString => ""
  end.

Definition probe_join_url (base : Url) (path : string) : result string Url :=
  url_join base (trim_slashes path).

Definition request_path_with_query (url : Url) : string :=
  match url_query url with
  | Some query => url_path url +:+ "?" +:+ query
  | None => url_path url
  end.

Definition probe_header (value : string) : result PolymarketGatewayError string :=
  if header_value_ok value then Ok value
  else Err (gateway_error KindProtocol
              ("invalid l2 probe header value: " +:+ header_value_error value)).

(** The request that is sent; [now] is the time stamp of the clock in seconds. *)
Definition signed_request (client : PolymarketL2ProbeClient) (now : Z) (method path : string)
    (body : option string) : result PolymarketGatewayError (HttpRequest U) :=
  url ← map_err (λ err, gateway_error KindProtocol ("invalid l2 probe url: " +:+ err))
          (probe_join_url (pl_host client) path);
  let timestamp := pretty now in
  signature ← build_l2_probe_signature (pl_credentials client) timestamp method
                (request_path_with_query url) (default "" body);
  address ← probe_header (lp_address (pl_credentials client));
  api_key ← probe_header (lp_api_key (pl_credentials client));
  passphrase ← probe_header (lp_passphrase (pl_credentials client));
  timestamp ← probe_header timestamp;
  signature ← probe_header signature;
  Ok {| hr_method := method; hr_url := url;
        hr_headers := [("poly_address", address); ("poly_api_key", api_key);
                       ("poly_passphrase", passphrase); ("poly_timestamp", timestamp);
                       ("poly_signature", signature)] ++
          match body with Some _ => [("content-type", "application/json")] | None => [] end;
        hr_body := body |}.

(** [status.is_success()] *)
Definition is_success (status : Z) : bool := bool_decide (200 <= status < 300).

Definition l2_upstream_error (response : HttpResponse) : PolymarketGatewayError :=
  gateway_error KindUpstreamResponse
    ("l2 probe returned " +:+ status_text (hp_status response) +:+ ": " +:+
     default "" (hp_text response)).

Definition send_signed_request (client : PolymarketL2ProbeClient) (now : Z) (method path : string)
    (body : option string) (w : World) : World * result PolymarketGatewayError () :=
  match signed_request client now method path body with
  | Err e => (w, Err e)
  | Ok request =>
      let '(w, r) := http_send (pl_http client) request w in
      (w, match r with
          | Err err => Err (gateway_error KindConnectivity ("l2 probe request failed: " +:+ err))
          | Ok response =>
              if is_success (hp_status response) then Ok () else Err (l2_upstream_error response)
          end)
  end.

Definition l2_fetch_open_orders (client : PolymarketL2ProbeClient) (now : Z) (w : World) :
    World * result PolymarketGatewayError () :=
  send_signed_request client now "GET" "data/orders" None w.

(** Serialising the request does not fail. *)
Definition l2_post_heartbeat (client : PolymarketL2ProbeClient) (now : Z)
    (previous_heartbeat_id : option string) (w : World) :
    World * result PolymarketGatewayError () :=
  send_signed_request client now "POST" "v1/heartbeats"
    (Some (json_text (JObject [("heartbeat_id", json_option previous_heartbeat_id)]))) w.
End client.
