(* ===== verification/L2ProbeProofs.v ===== *)
(** * Theorems about the L2 probe client

    What the base64 encoder writes is read back by the decoder, and a signed request
    carries a signature that the holder of the secret can check. *)

From Stdlib Require Import Ascii.
From S2P Require Import Prelude Text Externals Json Domain WsMessages AppConfig Gateway L2Probe.

(** ** Bits *)

Lemma lor_low a b k : 0 <= k → 0 <= b < 2 ^ k → Z.lor (Z.shiftl a k) b = a * 2 ^ k + b.
Proof.
  intros Hk Hb. rewrite <- Z.shiftl_mul_pow2 by done.
  assert (Z.land (Z.shiftl a k) b = 0) as H0.
  { apply Z.bits_inj'. intros n Hn. rewrite Z.land_spec, Z.bits_0.
    destruct (decide (n < k)) as [Hlt|Hge].
    - by rewrite Z.shiftl_spec_low.
    - rewrite <- (Z.mod_small b (2 ^ k)) by done. rewrite Z.mod_pow2_bits_high by lia.
      apply andb_false_r. }
  rewrite Z.add_nocarry_lxor by done. symmetry. by apply Z.lxor_lor.
Qed.

Definition is_byte (b : Z) : Prop := 0 <= b < 256.

Lemma u32_shl_mul n k : 0 <= k → 0 <= n → n * 2 ^ k < 2 ^ 32 → u32_shl n k = Z.shiftl n k.
Proof.
  intros Hk Hn Hb. unfold u32_shl. rewrite Z.mod_small; [done|].
  rewrite Z.shiftl_mul_pow2 by done. nia.
Qed.

Lemma as_u8_mod n : as_u8 n = n `mod` 256.
Proof. unfold as_u8. change 255 with (Z.ones 8). by rewrite Z.land_ones. Qed.

(** ** Characters *)

(** What the decoder makes of a character of the table. *)
Definition table_ok (i : Z) : bool :=
  let b := byte_of (table_char i) in
  bool_decide (decode_base64_char b = Some i) && bool_decide (b ≠ byte_of "=") &&
  negb (is_ascii_whitespace b) && bool_decide (standard_byte b = b) &&
  bool_decide (standard_byte (byte_of (urlsafe_char (table_char i))) = b) &&
  negb (is_ascii_whitespace (byte_of (urlsafe_char (table_char i)))).

Lemma table_char_ok i : 0 <= i < 64 → table_ok i = true.
Proof.
  intros Hi. assert (forallb table_ok (seqZ 0 64) = true) as H by (vm_compute; reflexivity).
  rewrite forallb_forall in H. apply H, list_elem_of_In, elem_of_seqZ. lia.
Qed.

Lemma table_char_spec i :
  0 <= i < 64 →
  decode_base64_char (byte_of (table_char i)) = Some i ∧
  byte_of (table_char i) ≠ byte_of "=" ∧
  is_ascii_whitespace (byte_of (table_char i)) = false ∧
  standard_byte (byte_of (table_char i)) = byte_of (table_char i) ∧
  standard_byte (byte_of (urlsafe_char (table_char i))) = byte_of (table_char i) ∧
  is_ascii_whitespace (byte_of (urlsafe_char (table_char i))) = false.
Proof.
  intros Hi%table_char_ok. unfold table_ok in Hi. cbv zeta in Hi.
  apply andb_prop in Hi as [Hi H6]. apply andb_prop in Hi as [Hi H5%bool_decide_eq_true].
  apply andb_prop in Hi as [Hi H4%bool_decide_eq_true]. apply andb_prop in Hi as [Hi H3].
  apply andb_prop in Hi as [H1%bool_decide_eq_true H2%bool_decide_eq_true].
  apply negb_true_iff in H3, H6. done.
Qed.

(** ** Chunks *)

(** The sextets of a word of 24 bits. *)
Definition sextet (n : Z) (k : Z) : Z := (n / 2 ^ k) `mod` 64.

Lemma sextet_range n k : 0 <= sextet n k < 64.
Proof. unfold sextet. apply Z.mod_pos_bound. lia. Qed.

Definition word24 (b0 b1 b2 : Z) : Z := b0 * 65536 + b1 * 256 + b2.

Lemma land_63 n k : 0 <= k → Z.land (Z.shiftr n k) 63 = sextet n k.
Proof. intros Hk. unfold sextet. change 63 with (Z.ones 6). by rewrite Z.land_ones, Z.shiftr_div_pow2. Qed.

Lemma chunk_word b0 b1 b2 :
  is_byte b0 → is_byte b1 → is_byte b2 →
  Z.lor (Z.lor (u32_shl b0 16) (u32_shl b1 8)) b2 = word24 b0 b1 b2.
Proof.
  unfold is_byte, word24. intros H0 H1 H2. rewrite !u32_shl_mul by lia.
  rewrite lor_low by (rewrite ?Z.shiftl_mul_pow2; lia).
  rewrite Z.shiftl_mul_pow2 by lia.
  replace (b0 * 2 ^ 16 + b1 * 2 ^ 8) with (Z.shiftl (b0 * 256 + b1) 8)
    by (rewrite Z.shiftl_mul_pow2 by lia; lia).
  rewrite lor_low by lia. lia.
Qed.

(** Four sextets make the word again. *)
Lemma sextets_word n :
  0 <= n < 2 ^ 24 →
  Z.lor (Z.lor (Z.lor (u32_shl (sextet n 18) 18) (u32_shl (sextet n 12) 12))
           (u32_shl (sextet n 6) 6)) (sextet n 0) = n.
Proof.
  intros Hn. pose proof (sextet_range n 18). pose proof (sextet_range n 12).
  pose proof (sextet_range n 6). pose proof (sextet_range n 0).
  rewrite !u32_shl_mul by lia.
  rewrite lor_low by (rewrite ?Z.shiftl_mul_pow2; lia). rewrite Z.shiftl_mul_pow2 by lia.
  replace (sextet n 18 * 2 ^ 18 + sextet n 12 * 2 ^ 12)
    with (Z.shiftl (sextet n 18 * 64 + sextet n 12) 12) by (rewrite Z.shiftl_mul_pow2 by lia; lia).
  rewrite lor_low by (rewrite ?Z.shiftl_mul_pow2; lia). rewrite Z.shiftl_mul_pow2 by lia.
  replace ((sextet n 18 * 64 + sextet n 12) * 2 ^ 12 + sextet n 6 * 2 ^ 6)
    with (Z.shiftl (sextet n 18 * 4096 + sextet n 12 * 64 + sextet n 6) 6)
    by (rewrite Z.shiftl_mul_pow2 by lia; lia).
  rewrite lor_low by lia. unfold sextet in *. change (2 ^ 0) with 1. rewrite Z.div_1_r.
  change (2 ^ 18) with 262144 in *. change (2 ^ 12) with 4096 in *. change (2 ^ 6) with 64 in *.
  change (2 ^ 24) with 16777216 in *.
  Z.div_mod_to_equations. lia.
Qed.

Lemma word24_range b0 b1 b2 :
  is_byte b0 → is_byte b1 → is_byte b2 → 0 <= word24 b0 b1 b2 < 2 ^ 24.
Proof. unfold is_byte, word24. lia. Qed.

Lemma word24_bytes b0 b1 b2 :
  is_byte b0 → is_byte b1 → is_byte b2 →
  as_u8 (Z.shiftr (word24 b0 b1 b2) 16) = b0 ∧ as_u8 (Z.shiftr (word24 b0 b1 b2) 8) = b1 ∧
  as_u8 (word24 b0 b1 b2) = b2.
Proof.
  unfold is_byte, word24. intros. rewrite !as_u8_mod, !Z.shiftr_div_pow2 by lia.
  change (2 ^ 16) with 65536. change (2 ^ 8) with 256.
  split_and!; Z.div_mod_to_equations; lia.
Qed.

Lemma bytes_of_cons c s : bytes_of (String c s) = byte_of c :: bytes_of s.
Proof. done. Qed.

Lemma bytes_of_append s t : bytes_of (s +:+ t) = bytes_of s ++ bytes_of t.
Proof. induction s as [|c s IH]; [done|]. rewrite append_cons, !bytes_of_cons. by rewrite IH. Qed.

Definition table_byte (w k : Z) : Z := byte_of (table_char (sextet w k)).

Lemma table_byte_not_pad w k : bool_decide (table_byte w k = byte_of "=") = false.
Proof.
  apply bool_decide_eq_false_2. by destruct (table_char_spec (sextet w k) (sextet_range w k))
    as (_ & ? & _).
Qed.

Lemma table_byte_value w k : decode_base64_char (table_byte w k) = Some (sextet w k).
Proof. by destruct (table_char_spec (sextet w k) (sextet_range w k)) as (? & _). Qed.

Lemma chunk_bytes b0 b1 b2 :
  is_byte b0 → is_byte b1 → is_byte b2 →
  let w := word24 b0 b1 b2 in
  bytes_of (base64_chunk [b0; b1; b2]) =
  [table_byte w 18; table_byte w 12; table_byte w 6; table_byte w 0].
Proof.
  intros H0 H1 H2 w. unfold base64_chunk. simpl lookup. simpl default. simpl length. cbv zeta.
  rewrite chunk_word by done. fold w. rewrite !land_63 by lia.
  replace (Z.land w 63) with (sextet w 0) by (by rewrite <- land_63, Z.shiftr_0_r by done).
  done.
Qed.

Lemma chunk_bytes_2 b0 b1 :
  is_byte b0 → is_byte b1 →
  let w := word24 b0 b1 0 in
  bytes_of (base64_chunk [b0; b1]) =
  [table_byte w 18; table_byte w 12; table_byte w 6; byte_of "="].
Proof.
  intros H0 H1 w. unfold base64_chunk. simpl lookup. simpl default. simpl length. cbv zeta.
  rewrite chunk_word by (done || by unfold is_byte; lia). fold w. by rewrite !land_63 by lia.
Qed.

Lemma chunk_bytes_1 b0 :
  is_byte b0 →
  let w := word24 b0 0 0 in
  bytes_of (base64_chunk [b0]) = [table_byte w 18; table_byte w 12; byte_of "="; byte_of "="].
Proof.
  intros H0 w. unfold base64_chunk. simpl lookup. simpl default. simpl length. cbv zeta.
  rewrite chunk_word by (done || by unfold is_byte; lia). fold w. by rewrite !land_63 by lia.
Qed.

(** The inner loop takes a character of the table. *)
Lemma decode_values_table index w k chunk :
  decode_values index false (table_byte w k :: chunk) =
  ('(seen, values) ← decode_values (S index) false chunk; Ok (seen, sextet w k :: values)).
Proof. simpl. by rewrite table_byte_not_pad, table_byte_value. Qed.

Lemma decode_chunk_3 is_last b0 b1 b2 :
  is_byte b0 → is_byte b1 → is_byte b2 →
  let w := word24 b0 b1 b2 in
  decode_chunk is_last [table_byte w 18; table_byte w 12; table_byte w 6; table_byte w 0] =
  Ok [b0; b1; b2].
Proof.
  intros H0 H1 H2 w. unfold decode_chunk. rewrite !decode_values_table. simpl.
  rewrite sextets_word by (by apply word24_range).
  destruct (word24_bytes b0 b1 b2) as (E0 & E1 & E2); [done..|]. fold w in E0, E1, E2.
  rewrite E0, E1, E2, !bool_decide_eq_false_2; [done|..];
    intros [= E]; pose proof (table_byte_not_pad w 0); pose proof (table_byte_not_pad w 6);
    by rewrite E in *.
Qed.

Lemma sextet_0 b0 b1 : is_byte b0 → is_byte b1 → sextet (word24 b0 b1 0) 0 = 0.
Proof.
  unfold is_byte, sextet, word24. intros. change (2 ^ 0) with 1. Z.div_mod_to_equations. lia.
Qed.
Lemma sextet_6 b0 : is_byte b0 → sextet (word24 b0 0 0) 6 = 0.
Proof.
  unfold is_byte, sextet, word24. intros. change (2 ^ 6) with 64. Z.div_mod_to_equations. lia.
Qed.

Lemma decode_chunk_2 b0 b1 :
  is_byte b0 → is_byte b1 →
  let w := word24 b0 b1 0 in
  decode_chunk true [table_byte w 18; table_byte w 12; table_byte w 6; byte_of "="] =
  Ok [b0; b1].
Proof.
  intros H0 H1 w. unfold decode_chunk. rewrite !decode_values_table. simpl.
  pose proof (sextets_word w) as Hw. assert (sextet w 0 = 0) as Hz by (by apply sextet_0). rewrite Hz in Hw.
  rewrite Hw by (apply word24_range; done || by unfold is_byte; lia).
  destruct (word24_bytes b0 b1 0) as (E0 & E1 & _); [done..|by unfold is_byte; lia|].
  fold w in E0, E1. rewrite E0, E1, bool_decide_eq_false_2; [done|].
  intros [= E]. pose proof (table_byte_not_pad w 6). by rewrite E in *.
Qed.

Lemma decode_chunk_1 b0 :
  is_byte b0 →
  let w := word24 b0 0 0 in
  decode_chunk true [table_byte w 18; table_byte w 12; byte_of "="; byte_of "="] = Ok [b0].
Proof.
  intros H0 w. unfold decode_chunk. rewrite !decode_values_table. simpl.
  pose proof (sextets_word w) as Hw. assert (sextet w 0 = 0) as Hz by (apply sextet_0; done || by unfold is_byte; lia).
  assert (sextet w 6 = 0) as Hs by (by apply sextet_6). rewrite Hz, Hs in Hw.
  rewrite Hw by (apply word24_range; done || by unfold is_byte; lia).
  destruct (word24_bytes b0 0 0) as (E0 & _); [done|by unfold is_byte; lia..|].
  fold w in E0. by rewrite E0.
Qed.

(** ** Whole texts *)

Lemma bytes_ind3 (P : list Z → Prop) :
  P [] → (∀ b0, P [b0]) → (∀ b0 b1, P [b0; b1]) →
  (∀ b0 b1 b2 bytes, P bytes → P (b0 :: b1 :: b2 :: bytes)) → ∀ bytes, P bytes.
Proof.
  intros H0 H1 H2 H3. refine (fix go bytes := _).
  destruct bytes as [|b0 [|b1 [|b2 bytes]]]; [done|done|done|]. apply H3, go.
Qed.

Definition encoded (bytes : list Z) : list Z := bytes_of (base64_standard bytes).

Lemma encoded_cons b0 b1 b2 bytes :
  encoded (b0 :: b1 :: b2 :: bytes) = bytes_of (base64_chunk [b0; b1; b2]) ++ encoded bytes.
Proof. unfold encoded. simpl base64_standard. by rewrite bytes_of_append. Qed.

Lemma decode_encoded bytes : Forall is_byte bytes → decode_chunks (encoded bytes) = Ok bytes.
Proof.
  induction bytes as [|b0|b0 b1|b0 b1 b2 bytes IH] using bytes_ind3; intros Hb; [done|..].
  - inversion_clear Hb. unfold encoded. simpl base64_standard. rewrite chunk_bytes_1 by done.
    simpl decode_chunks. by rewrite (decode_chunk_1 b0) by done.
  - inversion_clear Hb as [|? ? ? Hb']. inversion_clear Hb'. unfold encoded.
    simpl base64_standard. rewrite chunk_bytes_2 by done. simpl decode_chunks.
    by rewrite (decode_chunk_2 b0 b1) by done.
  - inversion_clear Hb as [|? ? ? Hb1]. inversion_clear Hb1 as [|? ? ? Hb2].
    inversion_clear Hb2 as [|? ? ? Hb3]. rewrite encoded_cons, chunk_bytes by done.
    simpl app. cbn [decode_chunks]. rewrite decode_chunk_3 by done. simpl. by rewrite IH.
Qed.

Lemma encoded_length bytes : ∃ k, length (encoded bytes) = (4 * k)%nat.
Proof.
  induction bytes as [|b0|b0 b1|b0 b1 b2 bytes [k IH]] using bytes_ind3;
    [by exists 0%nat|by exists 1%nat..|].
  exists (S k). rewrite encoded_cons, length_app, IH. simpl. lia.
Qed.

(** A character the encoder writes. *)
Definition code_char (c : ascii) : Prop := (∃ i, 0 <= i < 64 ∧ c = table_char i) ∨ c = "="%char.

Lemma chunk_code chunk :
  Forall code_char (String.list_ascii_of_string (base64_chunk chunk)).
Proof.
  assert (∀ n, 0 <= Z.land n 63 < 64) as Hr.
  { intros n. change 63 with (Z.ones 6). rewrite Z.land_ones by lia. apply Z.mod_pos_bound. lia. }
  unfold base64_chunk. cbv zeta. simpl.
  do 4 (apply List.Forall_cons; [try case_bool_decide; first [by right|left; by eexists]|]).
  constructor.
Qed.

Lemma standard_code bytes :
  Forall code_char (String.list_ascii_of_string (base64_standard bytes)).
Proof.
  induction bytes as [|b0|b0 b1|b0 b1 b2 bytes IH] using bytes_ind3;
    [constructor|apply chunk_code..|].
  simpl base64_standard. generalize (chunk_code [b0; b1; b2]).
  induction (base64_chunk [b0; b1; b2]) as [|c s IHs]; [done|].
  inversion_clear 1. rewrite append_cons. simpl. constructor; auto.
Qed.

Lemma normalized_code s :
  Forall code_char (String.list_ascii_of_string s) →
  normalized_base64 (bytes_of (str_map urlsafe_char s)) = bytes_of s ∧
  normalized_base64 (bytes_of s) = bytes_of s.
Proof.
  induction s as [|c s IH]; [done|]. inversion_clear 1 as [|? ? Hc Hs].
  destruct (IH Hs) as [IH1 IH2]. simpl str_map. rewrite !bytes_of_cons. unfold normalized_base64.
  simpl. destruct Hc as [(i & Hi & ->)| ->].
  - destruct (table_char_spec i Hi) as (_ & _ & W & S1 & S2 & W2). rewrite W, W2. simpl.
    rewrite S1, S2. split; f_equal; assumption.
  - split; simpl; f_equal; assumption.
Qed.

Lemma normalized_urlsafe bytes :
  normalized_base64 (bytes_of (base64_urlsafe bytes)) = encoded bytes.
Proof. apply normalized_code, standard_code. Qed.

(** A text without its padding. *)
Definition unpadded (text : list Z) : list Z :=
  List.filter (λ b, negb (bool_decide (b = byte_of "="))) text.

Lemma encoded_padding bytes :
  Forall is_byte bytes →
  let u := unpadded (encoded bytes) in
  match (length u `mod` 4)%nat with
  | 0%nat => u = encoded bytes
  | 2%nat => u ++ [byte_of "="; byte_of "="] = encoded bytes
  | 3%nat => u ++ [byte_of "="] = encoded bytes
  | _ => False
  end.
Proof.
  induction bytes as [|b0|b0 b1|b0 b1 b2 bytes IH] using bytes_ind3; intros Hb; [done|..].
  - inversion_clear Hb. unfold encoded, unpadded. simpl base64_standard.
    rewrite chunk_bytes_1 by done. simpl. by rewrite !table_byte_not_pad.
  - inversion_clear Hb as [|? ? ? Hb']. inversion_clear Hb'. unfold encoded, unpadded.
    simpl base64_standard. rewrite chunk_bytes_2 by done. simpl. by rewrite !table_byte_not_pad.
  - inversion_clear Hb as [|? ? ? Hb1]. inversion_clear Hb1 as [|? ? ? Hb2].
    inversion_clear Hb2 as [|? ? ? Hb3]. specialize (IH Hb3). revert IH. cbv zeta.
    rewrite encoded_cons, chunk_bytes by done. unfold unpadded. simpl List.filter.
    rewrite !table_byte_not_pad. simpl negb. cbv iota. cbn [length].
    set (u := List.filter _ (encoded bytes)).
    replace (S (S (S (S (length u)))) `mod` 4)%nat with (length u `mod` 4)%nat.
    2: { change (S (S (S (S (length u))))) with (4 + length u)%nat.
         by rewrite (Nat.add_comm 4), <- (Nat.Div0.mod_add (length u) 1 4). }
    destruct (length u `mod` 4)%nat as [|[|[|[|]]]]; try done; intros E; simpl; by rewrite <- E.
Qed.

Lemma decode_code bytes text :
  bytes ≠ [] → Forall is_byte bytes →
  normalized_base64 text = encoded bytes ∨ normalized_base64 text = unpadded (encoded bytes) →
  decode_base64 text = Ok bytes.
Proof.
  intros Hne Hb Ht.
  unfold decode_base64. pose proof (encoded_padding bytes Hb) as Hp. cbv zeta in Hp.
  pose proof (decode_encoded bytes Hb) as Hd.
  assert (encoded bytes ≠ []) as Hn.
  { intros E. rewrite E in Hd. simpl in Hd. congruence. }
  assert (unpadded (encoded bytes) ≠ []) as Hu.
  { intros E. rewrite E in Hp. simpl in Hp. by rewrite <- Hp in Hn. }
  destruct Ht as [-> | ->].
  - rewrite bool_decide_eq_false_2 by done.
    destruct (encoded_length bytes) as [k ->].
    by rewrite Nat.mul_comm, Nat.Div0.mod_mul.
  - rewrite bool_decide_eq_false_2 by done.
    destruct (length (unpadded (encoded bytes)) `mod` 4)%nat as [|[|[|[|]]]]; try done;
      by rewrite Hp.
Qed.

Lemma decode_urlsafe bytes :
  bytes ≠ [] → Forall is_byte bytes → decode_base64 (bytes_of (base64_urlsafe bytes)) = Ok bytes.
Proof. intros Hne Hb. apply decode_code; [done..|]. left. apply normalized_urlsafe. Qed.


(** ** Requests *)

(** A digest is made of bytes, and that of a text that is not empty is not empty. *)
Class DigestLaws (X : Externals) : Prop := {
  digest_bytes s : Forall is_byte (sha256 s);
  digest_nonempty s : s ≠ "" → sha256 s ≠ [];
}.

Section requests.
Context {X : Externals} {DL : DigestLaws X} {J : JsonOps} {U : UrlOps} {R : RestOps}.
Context {World : Type} {HT : HttpOps (World := World)}.

Lemma hmac_bytes key message :
  Forall is_byte (hmac_sha256 key message) ∧ hmac_sha256 key message ≠ [].
Proof.
  split; [apply digest_bytes|]. apply digest_nonempty. unfold hmac_sha256, hmac_key_block.
  set (k := if bool_decide _ then _ else key). unfold string_of_bytes.
  destruct k as [|b k]; simpl; done.
Qed.

(** The text of the signature for a secret that decodes. *)
Lemma signature_text credentials timestamp method path body signature :
  build_l2_probe_signature credentials timestamp method path body = Ok signature →
  ∃ secret, decode_base64 (bytes_of (lp_secret credentials)) = Ok secret ∧
    signature = base64_urlsafe (hmac_sha256 secret
      (bytes_of (timestamp +:+ to_ascii_uppercase method +:+ path +:+ body))).
Proof.
  unfold build_l2_probe_signature.
  repeat match goal with
  | |- context [probe_field ?f ?v] => destruct (probe_field f v); simpl; [|done]
  end.
  destruct (decode_base64 (bytes_of (lp_secret credentials))) as [secret|]; simpl; [|done].
  intros [= <-]. by exists secret.
Qed.

Lemma probe_header_ok value v : probe_header value = Ok v → v = value.
Proof. unfold probe_header. by destruct (header_value_ok value); intros [= ->]. Qed.

End requests.

(** ** Witnesses *)

#[export] Instance Micros_digest : DigestLaws Micros.
Proof.
  split; intros s; simpl.
  - rewrite <- list_fmap_compose. apply Forall_fmap, Forall_true. intros c. unfold is_byte. simpl.
    pose proof (nat_ascii_bounded c). lia.
  - destruct s; [done|]. by intros _.
Qed.

Module witnesses.
#[local] Existing Instance Micros.


#[local] Instance plain_urls : UrlOps := {|
  Url := string; url_parse s := Ok s; url_scheme _ := "https"; url_host_str s := Some s;
  url_path s := s; url_query _ := None; url_fragment _ := None; header_value_ok _ := true;
|}.
#[local] Instance plain_http : HttpOps (World := list (HttpRequest plain_urls)) := {|
  HttpClient := (); http_client := Ok ();
  http_send _ request w := (w ++ [request], Ok {| hp_status := 200; hp_text := None |});
  url_join base path := Ok (base +:+ path); header_value_error _ := "";
|}.

Definition plain_client : PolymarketL2ProbeClient (U := plain_urls) (HT := plain_http) :=
  @Build_PolymarketL2ProbeClient plain_urls (list (HttpRequest plain_urls)) plain_http "/" ()
    {| lp_address := "0xaddress"; lp_api_key := "key"; lp_secret := "SGVsbG8=";
       lp_passphrase := "phrase" |}.

End witnesses.
