(* ===== verification/WsClient.v ===== *)
(** * The websocket client

    [venue-polymarket/src/ws_client.rs]: the events of the venue's two channels, read from
    a transport or collected through the gateway, and the subscriptions. A transport acts
    on a [World]; [tungstenite] is a class of operations, and the way through an HTTP proxy
    is left out. *)

From Stdlib Require Import Ascii.
From S2P Require Import Prelude Text RecordSet Externals Json Domain WsMessages AppConfig Gateway.
From S2P Require Import L2Probe.

(** ** Text *)

(** Whether bytes are UTF-8, as [String::from_utf8] checks it. *)
Definition utf8_tail (b : Z) : bool := bool_decide (0x80 <= b <= 0xBF).

Fixpoint utf8_valid (bytes : list Z) : bool :=
  match bytes with
  | [] => true
  | b0 :: rest =>
      if bool_decide (b0 < 0x80) then utf8_valid rest
      else if bool_decide (0xC2 <= b0 <= 0xDF) then
        match rest with
        | b1 :: rest => utf8_tail b1 && utf8_valid rest
        | _ => false
        end
      else if bool_decide (0xE0 <= b0 <= 0xEF) then
        match rest with
        | b1 :: b2 :: rest =>
            (if bool_decide (b0 = 0xE0) then bool_decide (0xA0 <= b1 <= 0xBF)
             else if bool_decide (b0 = 0xED) then bool_decide (0x80 <= b1 <= 0x9F)
             else utf8_tail b1) && utf8_tail b2 && utf8_valid rest
        | _ => false
        end
      else if bool_decide (0xF0 <= b0 <= 0xF4) then
        match rest with
        | b1 :: b2 :: b3 :: rest =>
            (if bool_decide (b0 = 0xF0) then bool_decide (0x90 <= b1 <= 0xBF)
             else if bool_decide (b0 = 0xF4) then bool_decide (0x80 <= b1 <= 0x8F)
             else utf8_tail b1) && utf8_tail b2 && utf8_tail b3 && utf8_valid rest
        | _ => false
        end
      else false
  end.

(** ** Messages *)

Record WsCloseFrame := { wf_code : Z; wf_label : string; wf_reason : string }.

Inductive WsTransportMessage :=
| WsText (text : string)
| WsBinary (bytes : list Z)
| WsPing
| WsPong
| WsClose (frame : WsCloseFrame).

Inductive WsSubscriptionOp := Subscribe | Unsubscribe.

Definition subscription_op_as_str (op : WsSubscriptionOp) : string :=
  match op with Subscribe => "subscribe" | Unsubscribe => "unsubscribe" end.

Record WsUserChannelAuth := { wu_api_key : string; wu_secret : string; wu_passphrase : string }.

Inductive WsClientError := WsTransport (message : string) | WsParse (e : WsParseError).

Definition ws_client_error_text (json_error : string) (e : WsClientError) : string :=
  match e with
  | WsTransport message => "websocket transport error: " +:+ message
  | WsParse err => "websocket parse error: " +:+ ws_parse_error_text json_error err
  end.

(** *** tungstenite

    A message of the library; [tg_code_debug] is the [Debug] text of a close code,
    [tg_utf8_error] that of a failed conversion of the standard library. Errors are their
    texts. *)
Inductive TungMessage :=
| TungText (text : string)
| TungBinary (bytes : list Z)
| TungPing (payload : list Z)
| TungPong (payload : list Z)
| TungClose (frame : option (Z * string))
| TungFrame.

Class TungOps {World : Type} := {
  TungStream : Type;
  tg_next : TungStream → World → World * option (result string TungMessage);
  tg_send : TungStream → TungMessage → World → World * result string ();
  tg_code_debug : Z → string;
  tg_utf8_error : list Z → string;
}.

Section transport.
Context {World : Type} {G : TungOps (World := World)}.

(** [WsMessageSource] *)
Record WsMessageSource := {
  ws_next_message : World → World * result WsClientError WsTransportMessage;
  ws_send_message : WsTransportMessage → World → World * result WsClientError ();
}.

(** A source that keeps the trait's default for sending. *)
Definition receive_only (next : World → World * result WsClientError WsTransportMessage) :
    WsMessageSource :=
  {| ws_next_message := next;
     ws_send_message _ w :=
       (w, Err (WsTransport "websocket transport does not support sending messages")) |}.

Definition close_frame_from_tungstenite (frame : Z * string) : WsCloseFrame :=
  {| wf_code := frame.1; wf_label := to_ascii_lowercase (tg_code_debug frame.1);
     wf_reason := frame.2 |}.

(** [map_tungstenite_message]: [None] for a raw frame. *)
Definition map_tungstenite_message (message : TungMessage) : option WsTransportMessage :=
  match message with
  | TungText text => Some (WsText text)
  | TungBinary bytes => Some (WsBinary bytes)
  | TungPing _ => Some WsPing
  | TungPong _ => Some WsPong
  | TungClose frame =>
      Some (WsClose (match frame with
                     | Some frame => close_frame_from_tungstenite frame
                     | None => {| wf_code := 1005; wf_label := "no_status"; wf_reason := "" |}
                     end))
  | TungFrame => None
  end.

Definition map_transport_message_to_tungstenite (message : WsTransportMessage) : TungMessage :=
  match message with
  | WsText text => TungText text
  | WsBinary bytes => TungBinary bytes
  | WsPing => TungText "PING"
  | WsPong => TungText "PONG"
  | WsClose frame => TungClose (Some (wf_code frame, wf_reason frame))
  end.

(** [RealWsMessageSource::next_message], with [fuel] raw frames at most before a message;
    [None] when there are more. The library never yields a raw frame to a reader. *)
Fixpoint real_next_message (stream : TungStream) (fuel : nat) (w : World) :
    option (World * result WsClientError WsTransportMessage) :=
  match fuel with
  | O => None
  | S fuel =>
      let '(w, message) := tg_next stream w in
      match message with
      | None => Some (w, Err (WsTransport
          "websocket stream ended before a text message arrived"))
      | Some (Err e) => Some (w, Err (WsTransport e))
      | Some (Ok message) =>
          match map_tungstenite_message message with
          | Some message => Some (w, Ok message)
          | None => real_next_message stream fuel w
          end
      end
  end.

Definition real_send_message (stream : TungStream) (message : WsTransportMessage) (w : World) :
    World * result WsClientError () :=
  let '(w, r) := tg_send stream (map_transport_message_to_tungstenite message) w in
  (w, map_err WsTransport r).

Definition ping_payload : string := "{" +:+ quote +:+ "event" +:+ quote +:+ ":" +:+ quote +:+ "PING" +:+ quote +:+ "}".
Definition pong_payload : string := "{" +:+ quote +:+ "event" +:+ quote +:+ ":" +:+ quote +:+ "PONG" +:+ quote +:+ "}".

Definition transport_message_to_payload (message : WsTransportMessage) :
    result WsClientError string :=
  match message with
  | WsText text =>
      let trimmed := trim text in
      if eq_ignore_ascii_case trimmed "PING" then Ok ping_payload
      else if eq_ignore_ascii_case trimmed "PONG" then Ok pong_payload
      else Ok text
  | WsBinary bytes =>
      if utf8_valid bytes then Ok (string_of_bytes bytes)
      else Err (WsTransport (tg_utf8_error bytes))
  | WsPing => Ok ping_payload
  | WsPong => Ok pong_payload
  | WsClose frame =>
      let closed := "websocket closed with code " +:+ pretty (wf_code frame) +:+ " (" +:+
                    wf_label frame +:+ ")" in
      Err (WsTransport (if bool_decide (wf_reason frame = "") then closed
                        else closed +:+ ": " +:+ wf_reason frame))
  end.
End transport.

(** ** The client *)

Section client.
Context {X : Externals} {J : JsonOps} {W : WireOps}.
Context {World : Type} {G : TungOps (World := World)}.

Record PolymarketWsClient := {
  wc_market_transport : WsMessageSource (World := World);
  wc_user_transport : WsMessageSource (World := World);
  wc_gateway : option (PolymarketGateway X World);
  wc_gateway_user_address : option string;
  wc_market_asset_ids : list string;
  wc_market_custom_feature_enabled : bool;
  wc_user_markets : list string;
  wc_user_auth : option PolymarketUserStreamAuth;
  wc_pending_market_events : list MarketWsEvent;
  wc_pending_user_events : list UserWsEvent;
}.

#[export] Instance PolymarketWsClient_eta : Eta PolymarketWsClient := λ c,
  {| wc_market_transport := wc_market_transport c; wc_user_transport := wc_user_transport c;
     wc_gateway := wc_gateway c; wc_gateway_user_address := wc_gateway_user_address c;
     wc_market_asset_ids := wc_market_asset_ids c;
     wc_market_custom_feature_enabled := wc_market_custom_feature_enabled c;
     wc_user_markets := wc_user_markets c; wc_user_auth := wc_user_auth c;
     wc_pending_market_events := wc_pending_market_events c;
     wc_pending_user_events := wc_pending_user_events c |}.

(** [with_gateway]; without a gateway it is [with_transports]. The two addresses are kept
    by the client but not used again. *)
Definition ws_client_with (market user : WsMessageSource (World := World))
    (gateway : option (PolymarketGateway X World)) (gateway_user_address : option string) :
    PolymarketWsClient :=
  {| wc_market_transport := market; wc_user_transport := user; wc_gateway := gateway;
     wc_gateway_user_address := gateway_user_address; wc_market_asset_ids := [];
     wc_market_custom_feature_enabled := false; wc_user_markets := []; wc_user_auth := None;
     wc_pending_market_events := []; wc_pending_user_events := [] |}.

Definition ws_client_with_transports (market user : WsMessageSource (World := World)) :
    PolymarketWsClient := ws_client_with market user None None.

Definition ws_gateway_error (e : PolymarketGatewayError) : WsClientError :=
  WsTransport ("gateway websocket error: " +:+ gateway_error_text e).

(** A method of the client. *)
Definition ClientCall (A : Type) : Type :=
  PolymarketWsClient → World → (PolymarketWsClient * World) * result WsClientError A.

(** The events of a message of the market channel. *)
Definition market_events_of_message (message : WsTransportMessage) :
    result WsClientError (list MarketWsEvent) :=
  payload ← transport_message_to_payload message;
  map_err WsParse (parse_market_messages payload).

(** The loop of [next_market_event], for at most [fuel] messages that hold no event;
    [None] when there are more. *)
Fixpoint next_market_message (fuel : nat) (c : PolymarketWsClient) (w : World) :
    option ((PolymarketWsClient * World) * result WsClientError MarketWsEvent) :=
  match fuel with
  | O => None
  | S fuel =>
      let '(w, message) := ws_next_message (wc_market_transport c) w in
      match (message ← message; market_events_of_message message) with
      | Err e => Some ((c, w), Err e)
      | Ok (event :: events) =>
          Some ((c <| wc_pending_market_events ::= λ pending, pending ++ events |>, w), Ok event)
      | Ok [] => next_market_message fuel c w
      end
  end.

Definition gateway_market_event (gateway : PolymarketGateway X World) :
    ClientCall MarketWsEvent := λ c w,
  if bool_decide (wc_market_asset_ids c = []) then
    ((c, w), Err (WsTransport "no market assets subscribed for gateway-backed websocket client"))
  else
    let '(w, events) := collect_market_events gateway (wc_market_asset_ids c) w in
    match events with
    | Err e => ((c, w), Err (ws_gateway_error e))
    | Ok [] => ((c <| wc_pending_market_events := [] |>, w),
                Err (WsTransport "gateway-backed market websocket yielded no events"))
    | Ok (event :: events) => ((c <| wc_pending_market_events := events |>, w), Ok event)
    end.

Definition next_market_event (fuel : nat) (c : PolymarketWsClient) (w : World) :
    option ((PolymarketWsClient * World) * result WsClientError MarketWsEvent) :=
  match wc_pending_market_events c with
  | event :: pending => Some ((c <| wc_pending_market_events := pending |>, w), Ok event)
  | [] =>
      match wc_gateway c with
      | Some gateway => Some (gateway_market_event gateway c w)
      | None => next_market_message fuel c w
      end
  end.

Definition gateway_user_event (gateway : PolymarketGateway X World) : ClientCall UserWsEvent := λ c w,
  match wc_user_auth c with
  | None =>
      ((c, w), Err (WsTransport "no user markets subscribed for gateway-backed websocket client"))
  | Some auth =>
      let '(w, events) := collect_user_events gateway auth (wc_user_markets c) w in
      match events with
      | Err e => ((c, w), Err (ws_gateway_error e))
      | Ok [] => ((c <| wc_pending_user_events := [] |>, w),
                  Err (WsTransport "gateway-backed user websocket yielded no events"))
      | Ok (event :: events) => ((c <| wc_pending_user_events := events |>, w), Ok event)
      end
  end.

Definition next_user_event : ClientCall UserWsEvent := λ c w,
  match wc_pending_user_events c with
  | event :: pending => ((c <| wc_pending_user_events := pending |>, w), Ok event)
  | [] =>
      match wc_gateway c with
      | Some gateway => gateway_user_event gateway c w
      | None =>
          let '(w, message) := ws_next_message (wc_user_transport c) w in
          ((c, w), message ← message; payload ← transport_message_to_payload message;
                   map_err WsParse (parse_user_message payload))
      end
  end.

(** ** Subscriptions *)

(** [apply_subscription_update] *)
Definition apply_subscription_update (current : list string) (operation : WsSubscriptionOp)
    (values : list string) : list string :=
  match operation with
  | Subscribe =>
      foldl (λ current value,
        if bool_decide (value ∈ current) then current else current ++ [value]) current values
  | Unsubscribe => List.filter (λ existing, negb (bool_decide (existing ∈ values))) current
  end.

Definition send_json (transport : WsMessageSource (World := World)) (message : Json) :
    ClientCall () := λ c w,
  let '(w, r) := ws_send_message transport (WsText (json_text message)) w in ((c, w), r).

Definition json_strings (values : list string) : Json := JArray (JString <$> values).

Definition subscribe_market_assets (asset_ids : list string) (custom_feature_enabled : bool) :
    ClientCall () := λ c w,
  if bool_decide (is_Some (wc_gateway c)) then
    ((c <| wc_market_asset_ids := asset_ids |>
        <| wc_market_custom_feature_enabled := custom_feature_enabled |>, w), Ok ())
  else
    send_json (wc_market_transport c)
      (json_object [("assets_ids", json_strings asset_ids); ("type", JString "market");
                    ("custom_feature_enabled", JBool custom_feature_enabled)]) c w.

Definition update_market_assets (operation : WsSubscriptionOp) (asset_ids : list string)
    (custom_feature_enabled : bool) : ClientCall () := λ c w,
  if bool_decide (is_Some (wc_gateway c)) then
    ((c <| wc_market_asset_ids ::= λ ids, apply_subscription_update ids operation asset_ids |>
        <| wc_market_custom_feature_enabled := custom_feature_enabled |>, w), Ok ())
  else
    send_json (wc_market_transport c)
      (json_object [("assets_ids", json_strings asset_ids);
                    ("operation", JString (subscription_op_as_str operation));
                    ("custom_feature_enabled", JBool custom_feature_enabled)]) c w.

Definition subscribe_user_markets (auth : WsUserChannelAuth) (markets : list string) :
    ClientCall () := λ c w,
  if bool_decide (is_Some (wc_gateway c)) then
    match wc_gateway_user_address c with
    | None => ((c, w), Err (WsTransport
        "gateway-backed user websocket client requires a configured user address"))
    | Some address =>
        ((c <| wc_user_auth := Some {| us_address := address; us_api_key := wu_api_key auth;
                                       us_secret := wu_secret auth;
                                       us_passphrase := wu_passphrase auth |} |>
            <| wc_user_markets := markets |>, w), Ok ())
    end
  else
    send_json (wc_user_transport c)
      (json_object
         [("auth", json_object [("apiKey", JString (wu_api_key auth));
                                ("secret", JString (wu_secret auth));
                                ("passphrase", JString (wu_passphrase auth))]);
          ("markets", json_strings markets); ("type", JString "user")]) c w.

Definition update_user_markets (operation : WsSubscriptionOp) (markets : list string) :
    ClientCall () := λ c w,
  if bool_decide (is_Some (wc_gateway c)) then
    ((c <| wc_user_markets ::= λ ids, apply_subscription_update ids operation markets |>, w), Ok ())
  else
    send_json (wc_user_transport c)
      (json_object [("markets", json_strings markets);
                    ("operation", JString (subscription_op_as_str operation))]) c w.

Definition send_ping (transport : PolymarketWsClient → WsMessageSource (World := World)) :
    ClientCall () := λ c w,
  if bool_decide (is_Some (wc_gateway c)) then ((c, w), Ok ())
  else let '(w, r) := ws_send_message (transport c) WsPing w in ((c, w), r).

Definition send_market_ping : ClientCall () := send_ping wc_market_transport.
Definition send_user_ping : ClientCall () := send_ping wc_user_transport.
End client.
