(* ===== verification/WsClientProofs.v ===== *)
(** * Theorems about the websocket client

    Every event of a channel is delivered once and in order, whatever the shape of the
    messages that carry it; subscriptions are sets kept in order. *)

From S2P Require Import Prelude Text RecordSet Externals Json Domain WsMessages AppConfig Gateway.
From S2P Require Import L2Probe WsClient.

#[local] Arguments set : simpl never.

Section channel.
Context {X : Externals} {J : JsonOps} {W : WireOps}.
Context {World : Type} {G : TungOps (World := World)}.

(** A transport whose messages are a queue, then an error. *)
Class QueueSource (source : WsMessageSource (World := World))
    (queue : World → list (result WsClientError WsTransportMessage)) (ended : WsClientError) :
    Prop := {
  queue_next w :
    ∃ w', ws_next_message source w = (w', default (Err ended) (head (queue w))) ∧
      queue w' = tail (queue w);
}.

(** What a channel holds: the events of its messages, and an error for each message that
    cannot be read. *)
Definition channel_events (messages : list (result WsClientError WsTransportMessage)) :
    list (result WsClientError MarketWsEvent) :=
  messages ≫= λ message,
    match (message ← message; market_events_of_message message) with
    | Ok events => Ok <$> events
    | Err e => [Err e]
    end.

Context (queue : World → list (result WsClientError WsTransportMessage)) (ended : WsClientError).

(** What a client has still to deliver. *)
Definition undelivered (c : PolymarketWsClient (World := World)) (w : World) :
    list (result WsClientError MarketWsEvent) :=
  (Ok <$> wc_pending_market_events c) ++ channel_events (queue w).

(** [n] calls of [next_market_event]. *)
Fixpoint read_market_events (fuel n : nat) (c : PolymarketWsClient (World := World)) (w : World) :
    option ((PolymarketWsClient * World) * list (result WsClientError MarketWsEvent)) :=
  match n with
  | O => Some ((c, w), [])
  | S n =>
      '((c, w), r) ← next_market_event fuel c w;
      '(s, rs) ← read_market_events fuel n c w;
      Some (s, r :: rs)
  end.

Lemma next_message_spec fuel (c : PolymarketWsClient (World := World)) w
    {QS : QueueSource (wc_market_transport c) queue ended} :
  wc_pending_market_events c = [] → (length (queue w) < fuel)%nat →
  ∃ c' w', next_market_message fuel c w =
      Some ((c', w'), default (Err ended) (head (channel_events (queue w)))) ∧
    undelivered c' w' = tail (channel_events (queue w)) ∧
    wc_market_transport c' = wc_market_transport c ∧ wc_gateway c' = wc_gateway c ∧
    (length (queue w') <= length (queue w))%nat.
Proof.
  intros Hp. revert w. induction fuel as [|fuel IH]; intros w Hf; [lia|]. simpl.
  destruct (queue_next w) as (w1 & En & Eq). rewrite En.
  destruct (queue w) as [|message messages] eqn:Ew; simpl in *.
  - exists c, w1. unfold undelivered. rewrite Hp, Eq. done.
  - destruct (message ← message; market_events_of_message message) as [[|event events]|e] eqn:Em.
    + simpl. destruct (IH w1) as (c' & w' & E1 & E2 & E3 & E4 & E5); [rewrite Eq; lia|].
      rewrite Eq in E1, E2, E5. exists c', w'. split_and!; try done. lia.
    + exists (c <| wc_pending_market_events ::= λ pending, pending ++ events |>), w1.
      simpl. unfold undelivered. simpl. rewrite Hp, Eq. simpl. split_and!; try done. lia.
    + exists c, w1. unfold undelivered. rewrite Hp, Eq. simpl. split_and!; try done. lia.
Qed.

Lemma next_event_spec fuel (c : PolymarketWsClient (World := World)) w
    {QS : QueueSource (wc_market_transport c) queue ended} :
  wc_gateway c = None → (length (queue w) < fuel)%nat →
  ∃ c' w', next_market_event fuel c w =
      Some ((c', w'), default (Err ended) (head (undelivered c w))) ∧
    undelivered c' w' = tail (undelivered c w) ∧
    wc_market_transport c' = wc_market_transport c ∧ wc_gateway c' = None ∧
    (length (queue w') <= length (queue w))%nat.
Proof.
  intros Hg Hf. unfold next_market_event.
  destruct (wc_pending_market_events c) as [|event pending] eqn:Hp.
  - rewrite Hg. destruct (next_message_spec fuel c w Hp Hf) as (c' & w' & E1 & E2 & E3 & E4 & E5).
    assert (undelivered c w = channel_events (queue w)) as -> by (unfold undelivered; by rewrite Hp).
    exists c', w'. split_and!; try done. congruence.
  - eexists _, w. split; [unfold undelivered; by rewrite Hp|]. unfold undelivered. simpl.
    rewrite Hp. done.
Qed.

End channel.

(** ** Subscriptions *)

Lemma subscribe_fold (current values : list string) :
  NoDup current →
  let next := apply_subscription_update current Subscribe values in
  NoDup next ∧ ∀ x, x ∈ next ↔ x ∈ current ∨ x ∈ values.
Proof.
  simpl. revert current. induction values as [|v values IH]; intros current Hc; simpl.
  - split; [done|]. intros x. set_solver.
  - case_bool_decide as Hv.
    + destruct (IH current Hc) as [Hn Hx]. split; [done|]. intros x. rewrite Hx. set_solver.
    + destruct (IH (current ++ [v])) as [Hn Hx].
      { apply NoDup_app. split_and!; [done|set_solver|apply NoDup_singleton]. }
      split; [done|]. intros x. rewrite Hx. set_solver.
Qed.

(** A subscription list stays without duplicates, and names what was subscribed and not
    unsubscribed since. *)
Lemma subscription_update_spec (current values : list string) op :
  NoDup current →
  let next := apply_subscription_update current op values in
  NoDup next ∧
  ∀ x, x ∈ next ↔ match op with
                  | Subscribe => x ∈ current ∨ x ∈ values
                  | Unsubscribe => x ∈ current ∧ x ∉ values
                  end.
Proof.
  intros Hc. destruct op; [by apply subscribe_fold|]. simpl. split.
  - induction Hc as [|x l Hx Hl IH]; simpl; [constructor|].
    case_bool_decide; simpl; [done|]. constructor; [|done].
    rewrite list_elem_of_In, filter_In, <- list_elem_of_In. tauto.
  - intros x. rewrite !list_elem_of_In, filter_In, <- !list_elem_of_In.
    by rewrite negb_true_iff, bool_decide_eq_false.
Qed.

(** ** Witnesses *)

Module witnesses.
#[local] Existing Instance Micros.

(** A reader that knows one message: a price change of two assets. *)
Definition price_change (asset price : string) : Value :=
  VObject [("asset_id", VString asset); ("price", VString price)].
#[local] Instance plain_wire : WireOps (X := Micros) := {|
  value_from_str s :=
    if bool_decide (s = "changes") then
      Some (VObject [("event_type", VString "price_change");
                     ("price_changes", VArray [price_change "a" "0.1"; price_change "b" "0.2"])])
    else if bool_decide (s = "none") then
      Some (VObject [("event_type", VString "price_change"); ("price_changes", VArray [])])
    else if bool_decide (s = ping_payload) then Some (VObject [("event", VString "PING")])
    else None;
  value_text _ := ""; parse_from_rfc3339 _ := None;
  timestamp_opt _ := None; timestamp_millis_opt _ := None;
|}.

Definition Script : Type := list (result WsClientError WsTransportMessage).
#[local] Instance plain_tungstenite : TungOps (World := Script) := {|
  TungStream := (); tg_next _ w := (w, None); tg_send _ _ w := (w, Ok ());
  tg_code_debug _ := ""; tg_utf8_error _ := "";
|}.

Definition ended : WsClientError := WsTransport "ended".
Definition scripted : WsMessageSource (World := Script) :=
  {| ws_next_message w := (tail w, default (Err ended) (head w));
     ws_send_message _ w := (w, Ok ()) |}.
#[local] Instance scripted_queue : QueueSource scripted (λ w, w) ended.
Proof. split. intros w. by exists (tail w). Qed.

Definition script : Script := [Ok (WsText "none"); Ok (WsText "changes"); Ok WsPing].

End witnesses.
