(* ===== verification/Reads.v ===== *)
(** * Reading the database

    Programs that only read: undisturbed, they leave the tables alone and end in a way that
    does not depend on how many statements ran before. Such runs can be taken apart. *)

From S2P Require Import Prelude Text RecordSet Externals Json Domain LiveRecords Discovery.
From S2P Require Import Rows Schema Config Validation ConfigFile Command.

Section reads.
Context {X : Externals}.

Definition reads {E A} (m : Schedule → nat * Db → (nat * Db) * result E A) : Prop :=
  ∀ now db, ∃ r, runs m now db db r.

(** ** What reads *)

Lemma reads_const {E A} (r : result E A) : reads (λ _ st, (st, r)).
Proof. intros now db. exists r. intros n. by exists n. Qed.

Lemma reads_pool_ret {A} (a : A) : reads (mret a : Pool A).
Proof. apply (reads_const (Ok a)). Qed.
Lemma reads_pooled_ret {E A} (a : A) : reads (mret a : Pooled E A).
Proof. apply (reads_const (Ok a)). Qed.
Lemma reads_pool_of {A} (r : result PersistenceError A) : reads (pool_of r).
Proof. apply (reads_const (map_err Fails r)). Qed.
Lemma reads_pool_fail {A} e : reads (pool_fail e : Pool A).
Proof. apply (reads_const (Err (Fails e))). Qed.
Lemma reads_pooled_of {E A} (r : result E A) : reads (pooled_of r).
Proof. apply (reads_const (map_err Halted r)). Qed.
Lemma reads_pooled_fail {E A} (e : E) : reads (pooled_fail e : Pooled E A).
Proof. apply (reads_const (Err (Halted e))). Qed.

Lemma reads_stmt {A} (f : Tx A) : (∀ now db, (f now db).1 = db) → reads (stmt f).
Proof.
  intros Hf now db. exists (f now db).2. apply runs_stmt. rewrite <- (Hf now db) at 2. apply surjective_pairing.
Qed.

Lemma reads_query {A} (f : Db → A) : reads (stmt (query f)).
Proof. by apply reads_stmt. Qed.

Lemma reads_pool_bind {A B} (m : Pool A) (f : A → Pool B) :
  reads m → (∀ a, reads (f a)) → reads (m ≫= f).
Proof.
  intros Hm Hf now db. destruct (Hm now db) as [[a|e] Hr].
  - destruct (Hf a now db) as [r Hr']. exists r. by eapply runs_bind.
  - exists (Err e). by apply runs_bind_err.
Qed.

Lemma reads_pooled_bind {E A B} (m : Pooled E A) (f : A → Pooled E B) :
  reads m → (∀ a, reads (f a)) → reads (m ≫= f).
Proof.
  intros Hm Hf now db. destruct (Hm now db) as [[a|e] Hr].
  - destruct (Hf a now db) as [r Hr']. exists r. by eapply runs_pooled_bind.
  - exists (Err e). by apply runs_pooled_bind_err.
Qed.

Lemma reads_from_repo {E A} (f : PersistenceError → E) (m : Pool A) :
  reads m → reads (from_repo f m).
Proof. intros Hm now db. destruct (Hm now db) as [r Hr]. eexists. by apply runs_from_repo. Qed.

Lemma reads_map_err {E F A} (f : E → F) (m : Pooled E A) : reads m → reads (map_pooled_err f m).
Proof.
  intros Hm now db. destruct (Hm now db) as [r Hr]. eexists. intros n.
  destruct (Hr n) as [n' E1]. exists n'. unfold map_pooled_err. by rewrite E1.
Qed.

(** ** Taking runs apart *)

Lemma reads_same_db {E A} (m : Schedule → nat * Db → (nat * Db) * result E A) now db db' r :
  reads m → runs m now db db' r → db' = db.
Proof.
  intros Hm Hr. destruct (Hm now db) as [r' Hr']. by destruct (runs_det _ _ _ _ _ _ _ Hr Hr').
Qed.

Lemma runs_pool_bind_inv {A B} (m : Pool A) (f : A → Pool B) now db b :
  reads m → (∀ a, reads (f a)) → runs (m ≫= f) now db db (Ok b) →
  ∃ a, runs m now db db (Ok a) ∧ runs (f a) now db db (Ok b).
Proof.
  intros Hm Hf Hr. destruct (Hm now db) as [[a|e] H1].
  - destruct (Hf a now db) as [r' H2]. exists a. split; [done|].
    assert (runs (m ≫= f) now db db r') as H3 by (by eapply runs_bind).
    by destruct (runs_det _ _ _ _ _ _ _ Hr H3) as [_ <-].
  - assert (runs (m ≫= f) now db db (Err e)) as H3 by (by apply runs_bind_err).
    by destruct (runs_det _ _ _ _ _ _ _ Hr H3).
Qed.

Lemma runs_pooled_bind_inv {E A B} (m : Pooled E A) (f : A → Pooled E B) now db b :
  reads m → (∀ a, reads (f a)) → runs (m ≫= f) now db db (Ok b) →
  ∃ a, runs m now db db (Ok a) ∧ runs (f a) now db db (Ok b).
Proof.
  intros Hm Hf Hr. destruct (Hm now db) as [[a|e] H1].
  - destruct (Hf a now db) as [r' H2]. exists a. split; [done|].
    assert (runs (m ≫= f) now db db r') as H3 by (by eapply runs_pooled_bind).
    by destruct (runs_det _ _ _ _ _ _ _ Hr H3) as [_ <-].
  - assert (runs (m ≫= f) now db db (Err e)) as H3 by (by apply runs_pooled_bind_err).
    by destruct (runs_det _ _ _ _ _ _ _ Hr H3).
Qed.

Lemma runs_from_repo_inv {E A} (f : PersistenceError → E) (m : Pool A) now db a :
  reads m → runs (from_repo f m) now db db (Ok a) → runs m now db db (Ok a).
Proof.
  intros Hm Hr. destruct (Hm now db) as [[a'|e] H1]; pose proof (runs_from_repo f _ _ _ _ _ H1) as H2;
    destruct (runs_det _ _ _ _ _ _ _ Hr H2) as [_ E1]; by simplify_eq/=.
Qed.

Lemma runs_pooled_of_inv {E A} (r : result E A) now db a :
  runs (pooled_of r) now db db (Ok a) → r = Ok a.
Proof.
  intros Hr. destruct (runs_det _ _ _ _ _ _ _ Hr (runs_pooled_of r now db)) as [_ E1].
  destruct r; simpl in E1; congruence.
Qed.

Lemma runs_pooled_ret_inv {E A} (a a' : A) now db :
  runs (mret a : Pooled E A) now db db (Ok a') → a' = a.
Proof.
  intros Hr. destruct (runs_det _ _ _ _ _ _ _ Hr (runs_pooled_ret (E := E) a now db)) as [_ E1].
  congruence.
Qed.
End reads.

Create HintDb reads.
#[export] Hint Resolve reads_pool_ret reads_pooled_ret reads_pool_of reads_pool_fail reads_pooled_of
  reads_pooled_fail reads_query reads_from_repo reads_map_err : reads.

(** Follows a program down to its statements. *)
Ltac reading :=
  repeat first
    [ assumption
    | lazymatch goal with |- ∀ _, _ => intro end
    | solve [auto 2 with reads nocore]
    | apply reads_pool_bind
    | apply reads_pooled_bind
    | apply reads_from_repo
    | apply reads_map_err
    | case_match ].
