(* ===== verification/Replay.v ===== *)
(** * The replay tool

    [crates/app-replay]: the replay of the journal into a summary, and the reports over the
    database: attempts with their artifacts, the state of the discovered families with the
    place of their members in the journal, and the chain of candidates. *)

From S2P Require Import Prelude Text RecordSet Externals Json Domain Journal LiveRecords Discovery.
From S2P Require Import Rows Schema RepoJournal RepoExecution RepoSessions RepoControl WsMessages.
From S2P Require Import AppConfig Config Validation ConfigFile Command.

(** ** Arguments *)

Record ReplayRange := { rg_after_seq : Z; rg_limit : option Z }.

Definition default_replay_limit : Z := 1000.

Definition effective_limit (range : ReplayRange) : Z :=
  match rg_limit range with Some limit => limit | None => default_replay_limit end.

Inductive ReplayArgsError :=
| MissingRequired (flag : string)
| MissingFlagValue (flag : string)
| InvalidNumber (flag value : string)
| UnknownArg (arg : string).

Definition replay_args_error_text (e : ReplayArgsError) : string :=
  match e with
  | MissingRequired flag => "missing required argument " +:+ flag
  | MissingFlagValue flag => "missing value for " +:+ flag
  | InvalidNumber flag value => "invalid integer for " +:+ flag +:+ ": " +:+ value
  | UnknownArg arg => "unknown argument " +:+ arg
  end.

Definition replay_parse_i64 (flag value : string) : result ReplayArgsError Z :=
  ok_or (parse_i64 value) (InvalidNumber flag value).

(** The loop over the arguments after the program's name. *)
Fixpoint parse_flags (args : list string) (after_seq limit : option Z) :
    result ReplayArgsError (option Z * option Z) :=
  match args with
  | [] => Ok (after_seq, limit)
  | arg :: args =>
      if bool_decide (arg = "--from-seq") then
        match args with
        | [] => Err (MissingFlagValue "--from-seq")
        | value :: args =>
            n ← replay_parse_i64 "--from-seq" value; parse_flags args (Some n) limit
        end
      else if bool_decide (arg = "--limit") then
        match args with
        | [] => Err (MissingFlagValue "--limit")
        | value :: args =>
            n ← replay_parse_i64 "--limit" value; parse_flags args after_seq (Some n)
        end
      else Err (UnknownArg arg)
  end.

Definition parse_args (args : list string) : result ReplayArgsError ReplayRange :=
  flags ← parse_flags (tail args) None None;
  after_seq ← ok_or flags.1 (MissingRequired "--from-seq");
  Ok {| rg_after_seq := after_seq; rg_limit := flags.2 |}.

(** ** Consumers *)

Definition source_kind_label (value : SourceKind) : string :=
  match value with
  | WsMarket => "ws_market" | WsUser => "ws_user" | RestHeartbeat => "rest_heartbeat"
  | Internal => "internal"
  end.

Definition replay_source_kind (value : string) : result string SourceKind :=
  let normalized := to_ascii_lowercase (trim value) in
  if bool_decide (normalized ∈ ["ws_market"; "wsmarket"]) then Ok WsMarket
  else if bool_decide (normalized ∈ ["ws_user"; "wsuser"]) then Ok WsUser
  else if bool_decide (normalized ∈ ["rest_heartbeat"; "restheartbeat"]) then Ok RestHeartbeat
  else if bool_decide (normalized ∈ ["internal"; "test"]) then Ok Internal
  else Err value.

Record ReplayStateSummary := {
  rs_processed_count : Z;
  rs_last_journal_seq : option Z;
  rs_per_stream : gmap string Z;
  rs_per_source_kind : gmap string Z;
  rs_per_event_type : gmap string Z;
}.

#[export] Instance ReplayStateSummary_eta : Eta ReplayStateSummary := λ s,
  {| rs_processed_count := rs_processed_count s; rs_last_journal_seq := rs_last_journal_seq s;
     rs_per_stream := rs_per_stream s; rs_per_source_kind := rs_per_source_kind s;
     rs_per_event_type := rs_per_event_type s |}.

Definition empty_summary : ReplayStateSummary :=
  {| rs_processed_count := 0; rs_last_journal_seq := None; rs_per_stream := ∅;
     rs_per_source_kind := ∅; rs_per_event_type := ∅ |}.

Definition increment (counts : gmap string Z) (key : string) : gmap string Z :=
  <[key := u64_add (default 0 (counts !! key)) 1]> counts.

Inductive ReplayExecutionError (SE CE : Type) := SourceError (e : SE) | ExecutionConsumer (e : CE).
Arguments SourceError {_ _} _.
Arguments ExecutionConsumer {_ _} _.

Inductive ReplayRunError (E : Type) :=
| ReplayPersistence (e : PersistenceError)
| InvalidSourceKind (value : string)
| ReplayConsumerError (e : E).
Arguments ReplayPersistence {_} _.
Arguments InvalidSourceKind {_} _.
Arguments ReplayConsumerError {_} _.

Section replay.
Context {X : Externals} {J : JsonOps} {P : PgOps}.

(** A JSON column as the entry of the journal holds it: the same value, which the journal
    crate does not look into. *)
Context (payload_value : Json → JsonValue).

(** [trait ReplayConsumer]: an error leaves what the consumer did so far. *)
Class ReplayConsumer (C E : Type) := consume : C → JournalEntry → C * result E ().

Definition record_entry (s : ReplayStateSummary) (entry : JournalEntry) : ReplayStateSummary :=
  s <| rs_processed_count ::= λ n, u64_add n 1 |>
    <| rs_last_journal_seq := Some (jn_journal_seq entry) |>
    <| rs_per_stream ::= λ m, increment m (jn_stream entry) |>
    <| rs_per_source_kind ::= λ m, increment m (source_kind_label (jn_source_kind entry)) |>
    <| rs_per_event_type ::= λ m, increment m (jn_event_type entry) |>.

(** [SummaryReplayConsumer], which never fails. *)
#[export] Instance summary_consumer : ReplayConsumer ReplayStateSummary Empty_set := λ s entry,
  (record_entry s entry, Ok ()).

(** [NoopReplayConsumer] *)
#[export] Instance noop_consumer : ReplayConsumer () Empty_set := λ _ _, ((), Ok ()).

(** The loop of [replay_journal], which stops at the first error. *)
Fixpoint consume_all {C E} `{!ReplayConsumer C E} (entries : list JournalEntry) (c : C) :
    C * result E () :=
  match entries with
  | [] => (c, Ok ())
  | entry :: entries =>
      match consume c entry with
      | (c, Ok _) => consume_all entries c
      | (c, Err e) => (c, Err e)
      end
  end.

Definition replay_journal {C E} `{!ReplayConsumer C E} (entries : list JournalEntry) (c : C) :
    C * result E () := consume_all (replay_entries entries) c.

(** [list] is the method of a [ReplaySource]. *)
Definition replay_from_source {C E SE} `{!ReplayConsumer C E}
    (list_entries : ReplayRange → result SE (list JournalEntry)) (range : ReplayRange) (c : C) :
    C * result (ReplayExecutionError SE E) () :=
  match list_entries range with
  | Err e => (c, Err (SourceError e))
  | Ok entries => let '(c, r) := replay_journal entries c in (c, map_err ExecutionConsumer r)
  end.

Definition map_row (row : JournalEntryRow) : result string JournalEntry :=
  source_kind ← replay_source_kind (jr_source_kind row);
  Ok {| jn_journal_seq := jr_journal_seq row; jn_stream := jr_stream row;
        jn_source_kind := source_kind; jn_source_session_id := jr_source_session_id row;
        jn_source_event_id := jr_source_event_id row; jn_dedupe_key := jr_dedupe_key row;
        jn_causal_parent_id := jr_causal_parent_id row; jn_event_type := jr_event_type row;
        jn_event_ts := jr_event_ts row; jn_payload := payload_value (jr_payload row);
        jn_ingested_at := jr_ingested_at row |}.

(** The rows of a replay: a source kind that is not known stops it before any of them. *)
Definition replay_rows {C E} `{!ReplayConsumer C E} (rows : list JournalEntryRow) (c : C) :
    C * result (ReplayRunError E) () :=
  match collect_results map_row rows with
  | Err value => (c, Err (InvalidSourceKind value))
  | Ok entries => let '(c, r) := replay_journal entries c in (c, map_err ReplayConsumerError r)
  end.

(** The consumer as it is left, and the result. *)
Definition replay_event_journal_from_pool {C E} `{!ReplayConsumer C E} (range : ReplayRange)
    (c : C) : Pooled (ReplayRunError E) (C * result (ReplayRunError E) ()) :=
  rows ← from_repo ReplayPersistence
           (journal_list_after (rg_after_seq range) (effective_limit range));
  mret (replay_rows rows c).

(** ** Attempts with their artifacts *)

Record AttemptWith (A : Type) := { aw_attempt : ExecutionAttemptRow; aw_rows : list A }.
Arguments aw_attempt {_} _.
Arguments aw_rows {_} _.

Definition NegRiskLiveAttemptArtifacts : Type := AttemptWith LiveExecutionArtifactRow.
Definition NegRiskLiveSubmissionRecord : Type := AttemptWith LiveSubmissionRecordRow.
Definition NegRiskShadowAttemptArtifacts : Type := AttemptWith ShadowExecutionArtifactRow.

Definition neg_risk_attempts (attempts : list ExecutionAttemptRow) : list ExecutionAttemptRow :=
  List.filter (λ a, bool_decide (xr_route a = "neg-risk")) attempts.

Definition with_rows {A} (rows : gmap string (list A)) (attempt : ExecutionAttemptRow) :
    AttemptWith A :=
  {| aw_attempt := attempt; aw_rows := default [] (rows !! xr_attempt_id attempt) |}.

Definition load_negrisk_live_attempt_artifacts : Pool (list NegRiskLiveAttemptArtifacts) :=
  attempts ← list_live_attempts;
  let attempts := neg_risk_attempts attempts in
  artifacts ← live_artifact_list_for_attempts (xr_attempt_id <$> attempts);
  mret (with_rows artifacts <$> attempts).

Definition load_negrisk_live_submission_records : Pool (list NegRiskLiveSubmissionRecord) :=
  attempts ← list_live_attempts;
  let attempts := neg_risk_attempts attempts in
  submissions ← submission_list_for_attempts (xr_attempt_id <$> attempts);
  mret (with_rows submissions <$> attempts).

Definition load_negrisk_shadow_attempt_artifacts : Pool (list NegRiskShadowAttemptArtifacts) :=
  attempts ← list_shadow_attempts;
  let attempts := neg_risk_attempts attempts in
  artifacts ← shadow_list_for_attempts (xr_attempt_id <$> attempts);
  mret (with_rows (group_by xa_attempt_id artifacts) <$> attempts).

(** ** The state of the families *)

Record NegRiskMemberVectorPath := {
  vp_journal_seq : Z;
  vp_event_type : string;
  vp_event_family_id : string;
}.

Record NegRiskFoundationFamilySummary := {
  ff_event_family_id : string;
  ff_validation_status : option string;
  ff_exclusion_reason : option string;
  ff_validation_metadata_snapshot_hash : option string;
  ff_halted : bool;
  ff_halt_reason : option string;
  ff_halt_metadata_snapshot_hash : option string;
  ff_validation_member_vector_path : option NegRiskMemberVectorPath;
  ff_halt_member_vector_path : option NegRiskMemberVectorPath;
}.

#[export] Instance NegRiskFoundationFamilySummary_eta : Eta NegRiskFoundationFamilySummary := λ s,
  {| ff_event_family_id := ff_event_family_id s; ff_validation_status := ff_validation_status s;
     ff_exclusion_reason := ff_exclusion_reason s;
     ff_validation_metadata_snapshot_hash := ff_validation_metadata_snapshot_hash s;
     ff_halted := ff_halted s; ff_halt_reason := ff_halt_reason s;
     ff_halt_metadata_snapshot_hash := ff_halt_metadata_snapshot_hash s;
     ff_validation_member_vector_path := ff_validation_member_vector_path s;
     ff_halt_member_vector_path := ff_halt_member_vector_path s |}.

Record NegRiskFoundationSummary := {
  nf_discovered_family_count : Z;
  nf_validated_family_count : Z;
  nf_excluded_family_count : Z;
  nf_halted_family_count : Z;
  nf_recent_validation_event_count : Z;
  nf_recent_halt_event_count : Z;
  nf_latest_discovery_revision : Z;
  nf_latest_metadata_snapshot_hash : option string;
  nf_families : list NegRiskFoundationFamilySummary;
}.

Inductive NegRiskSummaryError :=
| SummaryPersistence (e : PersistenceError)
| SummaryMissingDiscoverySnapshot
| MissingJournalEntry (journal_seq : Z) (event_type : string)
| InvalidPayload (field value : string).

(** An error of [sqlx] is kept as a [PersistenceError]. *)
Definition Summarising : Type → Type := Pooled NegRiskSummaryError.
Definition summary_db {A} (m : Pool A) : Summarising A := from_repo SummaryPersistence m.
Definition summarised {A} (r : result NegRiskSummaryError A) : Summarising A := pooled_of r.

Definition json_as_bool (v : Json) : option bool :=
  match v with JBool b => Some b | _ => None end.

(** [payload.get(field).and_then(read)], or an error. *)
Definition required {A} (read : Json → option A) (payload : Json) (field : string) :
    result NegRiskSummaryError A :=
  ok_or (v ← json_get field payload; read v) (InvalidPayload field (json_text payload)).

Definition required_i64 := required json_as_i64.
Definition required_str := required json_as_str.
Definition required_bool := required json_as_bool.
Definition optional_str (payload : Json) (field : string) : option string :=
  v ← json_get field payload; json_as_str v.

Record LatestDiscoverySnapshot := {
  ld_discovered_family_count : Z;
  ld_latest_discovery_revision : Z;
  ld_latest_metadata_snapshot_hash : option string;
  ld_family_ids : list string;
}.

Definition read_discovery_snapshot (payload : Json) :
    result NegRiskSummaryError LatestDiscoverySnapshot :=
  revision ← required_i64 payload "discovery_revision";
  items ← required json_as_array payload "family_ids";
  family_ids ← collect_results (λ item,
    ok_or (json_as_str item) (InvalidPayload "family_ids" (json_text item))) items;
  Ok {| ld_discovered_family_count := Z.of_nat (length family_ids);
        ld_latest_discovery_revision := revision;
        ld_latest_metadata_snapshot_hash := optional_str payload "metadata_snapshot_hash";
        ld_family_ids := family_ids |}.

Definition replay_discovery_snapshot : Summarising (option LatestDiscoverySnapshot) :=
  payload ← summary_db (stmt (query latest_discovery_payload));
  match payload with
  | None => mret None
  | Some payload => s ← summarised (read_discovery_snapshot payload); mret (Some s)
  end.

(** [payload ->> key]; the text of an array or an object, which is no number, is left out. *)
Definition json_text_of (key : string) (payload : Json) : option string :=
  match json_get key payload with
  | Some (JString s) => Some s
  | Some (JNumber n) => Some (pretty n)
  | Some (JBool b) => Some (if b then "true" else "false")
  | _ => None
  end.

Definition count_recent_family_events (event_type : string) (latest_discovery_revision : Z) :
    Summarising Z :=
  rows ← summary_db (stmt (query (journal_rows (λ r,
    bool_decide (jr_event_type r = event_type) &&
    bool_decide (json_text_of "discovery_revision" (jr_payload r)
                 = Some (pretty latest_discovery_revision))))));
  mret (Z.of_nat (length rows)).

(** The key is a family and the hash of the metadata it was seen in. *)
Record MemberVectorPaths := {
  mp_validation : gmap (string * option string) NegRiskMemberVectorPath;
  mp_halt : gmap (string * option string) NegRiskMemberVectorPath;
}.

#[export] Instance MemberVectorPaths_eta : Eta MemberVectorPaths := λ m,
  {| mp_validation := mp_validation m; mp_halt := mp_halt m |}.

(** [map.entry(key).or_insert(value)] *)
Definition or_insert {K V} `{Countable K} (key : K) (value : V) (m : gmap K V) : gmap K V :=
  match m !! key with Some _ => m | None => <[key := value]> m end.

Definition add_member_path (paths : MemberVectorPaths) (row : JournalEntryRow) :
    result NegRiskSummaryError MemberVectorPaths :=
  family_id ← required_str (jr_payload row) "event_family_id";
  let key := (family_id, optional_str (jr_payload row) "metadata_snapshot_hash") in
  let path := {| vp_journal_seq := jr_journal_seq row; vp_event_type := jr_event_type row;
                 vp_event_family_id := family_id |} in
  Ok (if bool_decide (jr_event_type row = "family_validation") then
        paths <| mp_validation ::= or_insert key path |>
      else if bool_decide (jr_event_type row = "family_halt") then
        paths <| mp_halt ::= or_insert key path |>
      else paths).

Fixpoint add_member_paths (rows : list JournalEntryRow) (paths : MemberVectorPaths) :
    result NegRiskSummaryError MemberVectorPaths :=
  match rows with
  | [] => Ok paths
  | row :: rows => paths ← add_member_path paths row; add_member_paths rows paths
  end.

Definition is_family_event (r : JournalEntryRow) : bool :=
  bool_decide (jr_event_type r ∈ ["family_validation"; "family_halt"]).

(** [ORDER BY journal_seq DESC] *)
Definition family_event_rows (db : Db) : list JournalEntryRow :=
  (select (db_event_journal db) (λ _, is_family_event) (desc (cmp_on fst Z.compare))).*2.

Definition latest_member_vector_paths : Summarising MemberVectorPaths :=
  rows ← summary_db (stmt (query family_event_rows));
  summarised (add_member_paths rows {| mp_validation := ∅; mp_halt := ∅ |}).

Definition unknown_family (family_id : string) : NegRiskFoundationFamilySummary :=
  {| ff_event_family_id := family_id; ff_validation_status := None; ff_exclusion_reason := None;
     ff_validation_metadata_snapshot_hash := None; ff_halted := false; ff_halt_reason := None;
     ff_halt_metadata_snapshot_hash := None; ff_validation_member_vector_path := None;
     ff_halt_member_vector_path := None |}.

Definition family_entry (families : gmap string NegRiskFoundationFamilySummary)
    (family_id : string) :
    NegRiskFoundationFamilySummary :=
  default (unknown_family family_id) (families !! family_id).

Definition show_validation (paths : MemberVectorPaths)
    (families : gmap string NegRiskFoundationFamilySummary)
    (row : NegRiskFamilyValidationRow) : gmap string NegRiskFoundationFamilySummary :=
  let id := fv_event_family_id row in
  <[id := family_entry families id
       <| ff_validation_status := Some (fv_validation_status row) |>
       <| ff_exclusion_reason := fv_exclusion_reason row |>
       <| ff_validation_metadata_snapshot_hash := Some (fv_metadata_snapshot_hash row) |>
       <| ff_validation_member_vector_path :=
            mp_validation paths !! (id, Some (fv_metadata_snapshot_hash row)) |>]> families.

Definition show_halt (paths : MemberVectorPaths)
    (families : gmap string NegRiskFoundationFamilySummary) (row : FamilyHaltRow) :
    gmap string NegRiskFoundationFamilySummary :=
  let id := fh_event_family_id row in
  <[id := family_entry families id
       <| ff_halted := fh_halted row |>
       <| ff_halt_reason := fh_reason row |>
       <| ff_halt_metadata_snapshot_hash := fh_metadata_snapshot_hash row |>
       <| ff_halt_member_vector_path :=
            mp_halt paths !! (id, fh_metadata_snapshot_hash row) |>]> families.

Definition current_view {A} (discovery : LatestDiscoverySnapshot) (id : A → string)
    (revision : A → Z) (rows : list A) : list A :=
  List.filter (λ row, bool_decide (id row ∈ ld_family_ids discovery) &&
                      bool_decide (revision row = ld_latest_discovery_revision discovery)) rows.

Definition family_summaries (discovery : LatestDiscoverySnapshot) (paths : MemberVectorPaths)
    (validations : list NegRiskFamilyValidationRow) (halts : list FamilyHaltRow) :
    gmap string NegRiskFoundationFamilySummary :=
  foldl (show_halt paths)
    (foldl (show_validation paths)
      (collect_map ((λ id, (id, unknown_family id)) <$> ld_family_ids discovery)) validations)
    halts.

Definition load_neg_risk_foundation_summary : Summarising NegRiskFoundationSummary :=
  snapshot ← replay_discovery_snapshot;
  discovery ← summarised (ok_or snapshot SummaryMissingDiscoverySnapshot);
  validations ← summary_db list_validations;
  halts ← summary_db list_halts;
  let validations := current_view discovery fv_event_family_id fv_last_seen_discovery_revision
                       validations in
  let halts := current_view discovery fh_event_family_id fh_last_seen_discovery_revision halts in
  paths ← latest_member_vector_paths;
  validation_events ← count_recent_family_events "family_validation"
                        (ld_latest_discovery_revision discovery);
  halt_events ← count_recent_family_events "family_halt" (ld_latest_discovery_revision discovery);
  mret {| nf_discovered_family_count := ld_discovered_family_count discovery;
          nf_validated_family_count := Z.of_nat (length validations);
          nf_excluded_family_count := Z.of_nat (length (List.filter (λ row,
            eq_ignore_ascii_case (fv_validation_status row) "excluded") validations));
          nf_halted_family_count := Z.of_nat (length (List.filter fh_halted halts));
          nf_recent_validation_event_count := validation_events;
          nf_recent_halt_event_count := halt_events;
          nf_latest_discovery_revision := ld_latest_discovery_revision discovery;
          nf_latest_metadata_snapshot_hash := ld_latest_metadata_snapshot_hash discovery;
          nf_families := sort_by (cmp_on ff_event_family_id str_cmp)
            (map_to_list (family_summaries discovery paths validations halts)).*2 |}.

Definition read_member (member : Json) : result NegRiskSummaryError NegRiskFamilyMemberRow :=
  condition_id ← required_str member "condition_id";
  token_id ← required_str member "token_id";
  outcome_label ← required_str member "outcome_label";
  is_placeholder ← required_bool member "is_placeholder";
  is_other ← required_bool member "is_other";
  neg_risk_variant ← required_str member "neg_risk_variant";
  Ok {| fmr_condition_id := condition_id; fmr_token_id := token_id;
        fmr_outcome_label := outcome_label; fmr_is_placeholder := is_placeholder;
        fmr_is_other := is_other; fmr_neg_risk_variant := neg_risk_variant |}.

(** The entry of the journal a path names. *)
Definition journal_payload_at (path : NegRiskMemberVectorPath) (db : Db) : option Json :=
  row ← db_event_journal db !! vp_journal_seq path;
  if bool_decide (jr_event_type row = vp_event_type path) then Some (jr_payload row) else None.

Definition read_member_vector (path : NegRiskMemberVectorPath) (payload : Json) :
    result NegRiskSummaryError (list NegRiskFamilyMemberRow) :=
  family_id ← required_str payload "event_family_id";
  if bool_decide (family_id ≠ vp_event_family_id path) then
    Err (InvalidPayload "event_family_id" (json_text payload))
  else
    vector ← required json_as_array payload "member_vector";
    collect_results read_member vector.

Definition load_member_vector_from_journal (path : NegRiskMemberVectorPath) :
    Summarising (list NegRiskFamilyMemberRow) :=
  payload ← summary_db (stmt (query (journal_payload_at path)));
  payload ← summarised (ok_or payload
              (MissingJournalEntry (vp_journal_seq path) (vp_event_type path)));
  summarised (read_member_vector path payload).

(** ** The chain of candidates *)

Record NegRiskCandidateSummary := {
  nc_candidate_target_set_count : Z;
  nc_adoptable_target_revision_count : Z;
  nc_adoption_provenance_count : Z;
  nc_latest_candidate_revision : option string;
  nc_latest_adoptable_revision : option string;
  nc_operator_target_revision : option string;
}.

Section candidates.
Context (sets : list CandidateTargetSetRow) (revisions : list AdoptableTargetRevisionRow).
Context (provenance : list CandidateAdoptionProvenanceRow).

Definition candidate_summary (candidate adoptable operator : option string) :
    NegRiskCandidateSummary :=
  {| nc_candidate_target_set_count := Z.of_nat (length sets);
     nc_adoptable_target_revision_count := Z.of_nat (length revisions);
     nc_adoption_provenance_count := Z.of_nat (length provenance);
     nc_latest_candidate_revision := candidate; nc_latest_adoptable_revision := adoptable;
     nc_operator_target_revision := operator |}.

Definition fail_closed_candidate_summary : NegRiskCandidateSummary :=
  candidate_summary None None None.

Definition summarize_negrisk_candidate_chain : NegRiskCandidateSummary :=
  match sets with
  | [candidate] =>
      let adoptable := match revisions with
        | [adoptable] =>
            if bool_decide (atr_candidate_revision adoptable = cts_candidate_revision candidate)
            then Some adoptable else None
        | _ => None
        end in
      let operator := match adoptable, provenance with
        | Some adoptable, [p] =>
            if bool_decide (cap_candidate_revision p = cts_candidate_revision candidate) &&
               bool_decide (cap_adoptable_revision p = atr_adoptable_revision adoptable) &&
               bool_decide (atr_rendered_operator_target_revision adoptable
                            = cap_operator_target_revision p)
            then Some (cap_operator_target_revision p) else None
        | _, _ => None
        end in
      candidate_summary (Some (cts_candidate_revision candidate))
        (atr_adoptable_revision <$> adoptable) operator
  | _ => fail_closed_candidate_summary
  end.
End candidates.

Definition load_negrisk_candidate_target_sets : Pool (list CandidateTargetSetRow) :=
  stmt (query (λ db, (select (db_candidate_target_sets db) (λ _ _, true)
                        (cmp_on fst text_cmp)).*2)).
Definition load_negrisk_adoptable_target_revisions : Pool (list AdoptableTargetRevisionRow) :=
  stmt (query (λ db, (select (db_adoptable_target_revisions db) (λ _ _, true)
                        (cmp_on fst text_cmp)).*2)).
Definition load_negrisk_candidate_adoption_provenance :
    Pool (list CandidateAdoptionProvenanceRow) :=
  stmt (query (λ db, (select (db_candidate_provenance db) (λ _ _, true)
                        (cmp_on fst text_cmp)).*2)).

(** A broken link of the provenance is not an error here. *)
Definition provenance_or_broken (operator_target_revision : string) :
    Pool (option CandidateAdoptionProvenanceRow) := λ env st,
  match get_by_operator_target_revision operator_target_revision env st with
  | (st, Err (Fails (MissingCandidateAdoptionLink _))) => (st, Ok None)
  | r => r
  end.

Definition load_negrisk_candidate_summary : Pool NegRiskCandidateSummary :=
  sets ← load_negrisk_candidate_target_sets;
  revisions ← load_negrisk_adoptable_target_revisions;
  provenance ← load_negrisk_candidate_adoption_provenance;
  progress ← progress_current;
  match (progress ← progress; rp_operator_target_revision progress) with
  | Some operator_target_revision =>
      link ← provenance_or_broken operator_target_revision;
      match link with
      | Some link =>
          candidate ← get_candidate_target_set (cap_candidate_revision link);
          adoptable ← get_adoptable_target_revision (cap_adoptable_revision link);
          match candidate, adoptable with
          | Some candidate, Some adoptable =>
              mret (candidate_summary sets revisions provenance
                      (Some (cts_candidate_revision candidate))
                      (Some (atr_adoptable_revision adoptable)) (Some operator_target_revision))
          | _, _ => mret (fail_closed_candidate_summary sets revisions provenance)
          end
      | None => mret (fail_closed_candidate_summary sets revisions provenance)
      end
  | None => mret (summarize_negrisk_candidate_chain sets revisions provenance)
  end.

(** ** The program *)

Inductive ReplayFailure :=
| ReplayConfig (e : ConfigSchemaError)
| ReplayMissingDatabaseUrl
| ReplayRun (e : ReplayRunError Empty_set).

(** What is logged: the summary, and the reports that could be made. *)
Record ReplayReport := {
  rr_summary : ReplayStateSummary;
  rr_foundation : option NegRiskFoundationSummary;
  rr_candidates : option NegRiskCandidateSummary;
  rr_shadow : option (nat * nat);
}.

(** [connect_pool_from_env()], then the report; an error is only logged. *)
Definition report {E A} (connect : result PersistenceError ()) (m : Pooled E A) :
    Pooled ReplayFailure (option A) := λ env st,
  match connect with
  | Err _ => (st, Ok None)
  | Ok _ =>
      match m env st with
      | (st, Ok a) => (st, Ok (Some a))
      | (st, Err HaltPanicked) => (st, Err HaltPanicked)
      | (st, Err (Halted _)) => (st, Ok None)
      end
  end.

Definition replay_to_summary (connect : result PersistenceError ()) (range : ReplayRange) :
    Pooled ReplayFailure ReplayStateSummary :=
  _ ← pooled_of (map_err (ReplayRun ∘ ReplayPersistence) connect);
  outcome ← map_pooled_err ReplayRun
              (replay_event_journal_from_pool (C := ReplayStateSummary) range empty_summary);
  _ ← pooled_of (map_err ReplayRun outcome.2);
  mret outcome.1.

Definition shadow_counts (rows : list NegRiskShadowAttemptArtifacts) : nat * nat :=
  (length rows, sum_list (length ∘ aw_rows <$> rows)).

Definition candidate_status (s : NegRiskCandidateSummary) : string :=
  if bool_decide (is_Some (nc_operator_target_revision s)) then "provenance_resolved"
  else if bool_decide (is_Some (nc_latest_adoptable_revision s)) then "adoptable"
  else "advisory".

Context {U : UrlOps} {D : SerdeOps} {T : TomlOps}.

(** [run]: the configuration is only checked. *)
Definition replay_run (connect : result PersistenceError ()) (database_url : bool)
    (file : option string) (range : ReplayRange) : Pooled ReplayFailure ReplayReport :=
  _ ← pooled_of (map_err ReplayConfig
        (raw ← load_raw_config_from_path file;
         validated ← validated_config_new raw; for_app_replay validated));
  _ ← pooled_of (if database_url then Ok () else Err ReplayMissingDatabaseUrl);
  summary ← replay_to_summary connect range;
  foundation ← report connect load_neg_risk_foundation_summary;
  candidates ← report connect (from_repo id load_negrisk_candidate_summary);
  shadow ← report connect (from_repo id load_negrisk_shadow_attempt_artifacts);
  mret {| rr_summary := summary; rr_foundation := foundation;
          rr_candidates := s ← candidates;
            if bool_decide (0 < nc_candidate_target_set_count s) then Some s else None;
          rr_shadow := rows ← shadow;
            if bool_decide (rows = []) then None else Some (shadow_counts rows) |}.
End replay.

#[global] Arguments aw_attempt {_} _.
#[global] Arguments aw_rows {_} _.
