(* ===== verification/ReplayProofs.v ===== *)
(** * Theorems about the replay tool

    A replay can be interrupted and continued from the last number it reports, and what it
    reports of a family leads to the members that were recorded. *)

From S2P Require Import Prelude Text RecordSet Externals Json Domain Journal LiveRecords Discovery.
From S2P Require Import Rows Schema RepoJournal RepoExecution RepoSessions RepoControl.
From S2P Require Import RepoInvariants RepoHistory StoreProofs WsMessages.
From S2P Require Import AppConfig Config Validation ConfigFile Command Reads Replay.

#[local] Arguments set : simpl never.

(** ** Sorted lists of rows *)

Section lists.
Context {A : Type} (key : A → Z).

Definition ascending : list A → Prop := StronglySorted (λ a b, key a < key b).

Lemma ascending_app l1 l2 :
  ascending (l1 ++ l2) →
  ascending l1 ∧ ascending l2 ∧ ∀ a b, a ∈ l1 → b ∈ l2 → key a < key b.
Proof.
  unfold ascending. intros Hs. split_and!.
  - by eapply StronglySorted_app_1_l.
  - by eapply StronglySorted_app_1_r.
  - intros a b Ha Hb. by eapply (StronglySorted_app_1_elem_of (λ a b, key a < key b)).
Qed.

Lemma filter_none (p : A → bool) l : (∀ a, a ∈ l → p a = false) → List.filter p l = [].
Proof.
  induction l as [|x l IH]; simpl; intros Hp; [done|].
  rewrite (Hp x) by left. apply IH. intros a Ha. apply Hp. by right.
Qed.

Lemma filter_all (p : A → bool) l : (∀ a, a ∈ l → p a = true) → List.filter p l = l.
Proof.
  induction l as [|x l IH]; simpl; intros Hp; [done|].
  rewrite (Hp x) by left. f_equal. apply IH. intros a Ha. apply Hp. by right.
Qed.

Lemma filter_after_app (p : A → bool) l1 l2 :
  List.filter p (l1 ++ l2) = List.filter p l1 ++ List.filter p l2.
Proof. apply List.filter_app. Qed.

Lemma last_in (l : list A) x : last l = Some x → x ∈ l.
Proof. intros Hl. apply list_elem_of_In. rewrite last_Some in Hl. destruct Hl as [l' ->].
  apply List.in_or_app. right. by left. Qed.

(** What comes after the last of the first [n] is the rest. *)
Lemma filter_after_last l n q :
  ascending l → key <$> last (take n l) = Some q →
  List.filter (λ a, bool_decide (q < key a)) l = drop n l.
Proof.
  intros Hs Hl. destruct (last (take n l)) as [x|] eqn:E; [|done]. injection Hl as <-.
  rewrite <- (take_drop n l) in Hs at 1. apply ascending_app in Hs as (Ht & _ & Htd).
  rewrite <- (take_drop n l) at 1. rewrite filter_after_app, filter_none, filter_all; [done| |].
  - intros a Ha. apply bool_decide_eq_true. apply Htd; [by apply last_in|done].
  - intros a Ha. apply bool_decide_eq_false. apply last_Some in E as [l' E]. rewrite E in *.
    apply ascending_app in Ht as (_ & _ & Hx). apply elem_of_app in Ha as [Ha|Ha%list_elem_of_singleton].
    + specialize (Hx a x Ha). lapply Hx; [lia|by apply list_elem_of_singleton].
    + subst. lia.
Qed.

Lemma sort_ascending l : ascending l → sort_by (cmp_on key Z.compare) l = l.
Proof.
  intros Hs. apply sort_by_id. induction Hs as [|a l Hl IH Ha]; constructor; [done|].
  eapply Forall_impl; [exact Ha|]. intros b Hab. unfold cmp_le, cmp_on. simpl in Hab.
  by rewrite (proj2 (Z.compare_lt_iff _ _) Hab).
Qed.

Lemma ascending_take n l : ascending l → ascending (take n l).
Proof. intros Hs. rewrite <- (take_drop n l) in Hs. by apply ascending_app in Hs as [? _]. Qed.

Lemma ascending_filter (p : A → bool) l : ascending l → ascending (List.filter p l).
Proof.
  intros Hs. induction Hs as [|a l Hl IH Ha]; simpl; [constructor|].
  destruct (p a); [|done]. constructor; [done|]. rewrite Forall_forall in Ha |- *.
  intros b Hb%list_elem_of_In. apply filter_In in Hb as [Hb _]. by apply Ha, list_elem_of_In.
Qed.

(** A sorted list with distinct keys is ascending. *)
Lemma ascending_of_sorted l :
  NoDup (key <$> l) → StronglySorted (cmp_le (cmp_on key Z.compare)) l → ascending l.
Proof.
  intros Hnd Hs. induction Hs as [|a l Hl IH Ha]; [constructor|].
  rewrite fmap_cons in Hnd. apply NoDup_cons in Hnd as [Hna Hnd]. constructor; [by apply IH|].
  rewrite Forall_forall in Ha |- *. intros b Hb. specialize (Ha b Hb).
  assert (key a ≠ key b) by (intros E; apply Hna; rewrite E; by apply list_elem_of_fmap_2).
  unfold cmp_le, cmp_on in Ha. destruct (Z.compare_spec (key a) (key b)); [done|done|congruence].
Qed.
End lists.

(** The keys decide whether a list ascends. *)
Lemma ascending_keys {A B} (ka : A → Z) (kb : B → Z) (l1 : list A) (l2 : list B) :
  ascending ka l1 → kb <$> l2 = ka <$> l1 → ascending kb l2.
Proof.
  intros Hs. revert l2. induction Hs as [|a l Hl IH Ha]; intros [|b l2] E; simplify_eq/=; constructor.
  - by apply IH.
  - rewrite Forall_forall in Ha. apply Forall_forall. intros c Hc.
    apply (list_elem_of_fmap_2 kb) in Hc. rewrite H0 in Hc. apply list_elem_of_fmap in Hc as (a' & E' & Ha'). specialize (Ha _ Ha'). lia.
Qed.

(** ** Pages of the journal *)

Lemma select_sorted {K V} `{Countable K} (table : gmap K V) p cmp (TP : TotalPreorder cmp) :
  StronglySorted (cmp_le cmp) (select table p cmp).
Proof. apply (sort_by_sorted cmp). Qed.

Section replay.
Context {X : Externals} {J : JsonOps} {P : PgOps} (payload_value : Json → JsonValue).

Lemma journal_rows_spec (p : JournalEntryRow → bool) db :
  db_wf db →
  ascending jr_journal_seq (journal_rows p db) ∧
  ∀ r, r ∈ journal_rows p db ↔ db_event_journal db !! jr_journal_seq r = Some r ∧ p r = true.
Proof.
  intros [[Hw _] _]. unfold journal_rows.
  set (l := select (db_event_journal db) (λ _, p) (cmp_on fst Z.compare)).
  assert (∀ k r, (k, r) ∈ l ↔ db_event_journal db !! k = Some r ∧ p r = true) as Hl.
  { intros k r. apply elem_of_select. }
  assert (∀ k r, (k, r) ∈ l → jr_journal_seq r = k) as Hk.
  { intros k r Hin. apply Hl in Hin as [Hin _]. by apply Hw in Hin as [? _]. }
  assert (jr_journal_seq <$> l.*2 = l.*1) as Ekeys.
  { clear Hl. clearbody l. induction l as [|[k r] l IH]; simpl; [done|]. f_equal.
    - apply Hk. by left.
    - apply IH. intros k' r' Hin. apply Hk. by right. }
  split.
  - apply ascending_of_sorted.
    + rewrite Ekeys. apply NoDup_select_keys.
    + assert (StronglySorted (cmp_le (cmp_on fst Z.compare)) l) as Hs.
      { apply (select_sorted _ _ _ (cmp_on_total fst Z.compare)). }
      clearbody l.
      clear Hl Ekeys. induction Hs as [|[k r] l' Hl' IH Ha]; simpl; [constructor|]. constructor.
      * apply IH. intros k' r' Hin. apply Hk. by right.
      * rewrite Forall_fmap. rewrite Forall_forall in Ha |- *. intros [k' r'] Hin.
        specialize (Ha _ Hin). unfold cmp_le, cmp_on in *. simpl in *.
        rewrite (Hk k r), (Hk k' r'); [done|by right|by left].
  - clearbody l. intros r. split.
    + intros Hin. apply list_elem_of_fmap in Hin as ([k r'] & -> & Hin). simpl.
      rewrite (Hk _ _ Hin). by apply Hl.
    + intros Hr. apply list_elem_of_fmap. exists (jr_journal_seq r, r). split; [done|]. by apply Hl.
Qed.

Lemma ascending_unique {A} (key : A → Z) (l1 l2 : list A) :
  ascending key l1 → ascending key l2 → (∀ a, a ∈ l1 ↔ a ∈ l2) → l1 = l2.
Proof.
  assert (∀ l, ascending key l → NoDup l) as Hnd.
  { intros l Hs. induction Hs as [|a l Hl IH Ha]; constructor; [|done]. intros Hin.
    rewrite Forall_forall in Ha. specialize (Ha _ Hin). simpl in Ha. lia. }
  intros H1 H2 He. apply (StronglySorted_unique_strong (λ a b, key a < key b)); [lia|done|done|].
  by apply NoDup_Permutation; [apply Hnd|apply Hnd|].
Qed.

(** The rows after [q], among those after [a]. *)
Lemma rows_after (a q : Z) db :
  db_wf db → a <= q →
  journal_rows (λ r, bool_decide (q < jr_journal_seq r)) db =
  List.filter (λ r, bool_decide (q < jr_journal_seq r))
    (journal_rows (λ r, bool_decide (a < jr_journal_seq r)) db).
Proof.
  intros Hw Haq. destruct (journal_rows_spec (λ r, bool_decide (a < jr_journal_seq r)) db Hw) as [Ha Hina].
  destruct (journal_rows_spec (λ r, bool_decide (q < jr_journal_seq r)) db Hw) as [Hq Hinq].
  apply (ascending_unique jr_journal_seq); [done|by apply ascending_filter|].
  intros r. rewrite Hinq, list_elem_of_In, filter_In, <- list_elem_of_In, Hina.
  rewrite !bool_decide_eq_true. split; [intros [? ?]|intros [[? ?] ?]]; split_and?; done || lia.
Qed.

Lemma map_row_seq row entry :
  map_row payload_value row = Ok entry → jn_journal_seq entry = jr_journal_seq row.
Proof. unfold map_row. destruct (replay_source_kind _); simpl; [by intros [= <-]|done]. Qed.

Lemma map_rows_seqs rows entries :
  collect_results (map_row payload_value) rows = Ok entries →
  jn_journal_seq <$> entries = jr_journal_seq <$> rows.
Proof.
  revert entries. induction rows as [|row rows IH]; intros entries; simpl; [by intros [= <-]|].
  destruct (map_row payload_value row) as [e|] eqn:Ee; simpl; [|done].
  destruct (collect_results _ rows) as [es|]; simpl; [|done]. intros [= <-]. simpl. f_equal; [by apply map_row_seq|by apply IH].
Qed.

Lemma map_rows_app rows1 rows2 entries :
  collect_results (map_row payload_value) (rows1 ++ rows2) = Ok entries →
  ∃ e1 e2, entries = e1 ++ e2 ∧ collect_results (map_row payload_value) rows1 = Ok e1 ∧
    collect_results (map_row payload_value) rows2 = Ok e2.
Proof.
  revert entries. induction rows1 as [|row rows1 IH]; intros entries; simpl.
  - intros Hr. by exists [], entries.
  - destruct (map_row _ row) as [e|]; simpl; [|done].
    destruct (collect_results _ (rows1 ++ rows2)) as [es|] eqn:E; simpl; [|done].
    intros [= <-]. destruct (IH es eq_refl) as (e1 & e2 & -> & E1 & E2). rewrite E1. simpl.
    by exists (e :: e1), e2.
Qed.

Lemma consume_summary entries s :
  consume_all (C := ReplayStateSummary) entries s = (foldl record_entry s entries, Ok ()).
Proof. revert s. induction entries as [|e entries IH]; intros s; simpl; [done|]. apply IH. Qed.

Lemma replay_rows_summary rows entries s :
  ascending jr_journal_seq rows → collect_results (map_row payload_value) rows = Ok entries →
  replay_rows payload_value (C := ReplayStateSummary) rows s = (foldl record_entry s entries, Ok ()).
Proof.
  intros Ha He. unfold replay_rows. rewrite He. unfold replay_journal, replay_entries.
  rewrite sort_ascending, consume_summary; [done|].
  apply map_rows_seqs in He. apply (ascending_keys jr_journal_seq jn_journal_seq rows); done.
Qed.

Lemma last_seq_summary entries s :
  rs_last_journal_seq (foldl record_entry s entries) =
  match last entries with Some e => Some (jn_journal_seq e) | None => rs_last_journal_seq s end.
Proof.
  revert s. induction entries as [|e entries IH]; intros s; [done|]. simpl foldl. rewrite IH.
  destruct entries as [|e' entries]; [done|].
  change (last (e :: e' :: entries)) with (last (e' :: entries)).
  destruct (last (e' :: entries)) eqn:E; [done|]. by apply last_None in E.
Qed.

Definition page (a : Z) (n : nat) db : list JournalEntryRow :=
  take n (journal_rows (λ r, bool_decide (a < jr_journal_seq r)) db).

Definition page_rest (a : Z) (n m : nat) db : list JournalEntryRow :=
  take m (drop n (journal_rows (λ r, bool_decide (a < jr_journal_seq r)) db)).

Lemma page_split a n m db : page a (n + m) db = page a n db ++ page_rest a n m db.
Proof. unfold page, page_rest. by rewrite take_take_drop. Qed.

Lemma next_page a n m db entries :
  db_wf db → collect_results (map_row payload_value) (page a n db) = Ok entries →
  page (default a (match last entries with Some e => Some (jn_journal_seq e) | None => None end))
    m db = page_rest a n m db.
Proof.
  intros Hw He. apply map_rows_seqs in He. unfold page, page_rest in *.
  destruct (journal_rows_spec (λ r, bool_decide (a < jr_journal_seq r)) db Hw) as [Hasc Hin].
  set (rows := journal_rows _ db) in He, Hasc, Hin |- * at 2.
  assert (jr_journal_seq <$> last (take n rows) =
          match last entries with Some e => Some (jn_journal_seq e) | None => None end) as El.
  { rewrite <- fmap_last, <- He, fmap_last. by destruct (last entries). }
  rewrite <- El. destruct (last (take n rows)) as [r|] eqn:Er; simpl.
  - rewrite (rows_after a); [|done|].
    + f_equal. apply filter_after_last; [done|]. by rewrite Er.
    + apply last_in, (elem_of_sublist _ rows) in Er; [|apply sublist_take].
      apply Hin in Er as [_ Er]. apply bool_decide_eq_true in Er. lia.
  - apply last_None in Er. f_equal. transitivity rows; [done|]. symmetry. clearbody rows.
    destruct n; [done|]. by destruct rows.
Qed.

Lemma replay_runs {C E} `{!ReplayConsumer C E} a (n : nat) (c : C) now db :
  runs (replay_event_journal_from_pool payload_value {| rg_after_seq := a; rg_limit := Some (Z.of_nat n) |} c)
    now db db (Ok (replay_rows payload_value (page a n db) c)).
Proof.
  eapply runs_pooled_bind; [|apply runs_pooled_ret]. apply runs_from_repo_ok, runs_stmt.
  unfold mbind, tx_bind, query, limited. simpl.
  rewrite (bool_decide_eq_false_2 (Z.of_nat n < 0)) by lia. simpl.
  unfold page, effective_limit. simpl. by rewrite Nat2Z.id.
Qed.

(** C25. A replay can be cut into pages: replaying [n] entries, and then [m] entries after the
    last number the summary reports, gives the summary of replaying [n + m] entries at once.
    No entry is missed at the cut and none is counted twice, whatever gaps the numbers have. *)
Theorem replay_in_pages now db a (n m : nat) s :
  db_wf db →
  runs (replay_event_journal_from_pool payload_value
          {| rg_after_seq := a; rg_limit := Some (Z.of_nat (n + m)) |} empty_summary) now db db (Ok (s, Ok ())) →
  ∃ s1,
    runs (replay_event_journal_from_pool payload_value
            {| rg_after_seq := a; rg_limit := Some (Z.of_nat n) |} empty_summary) now db db (Ok (s1, Ok ())) ∧
    runs (replay_event_journal_from_pool payload_value
            {| rg_after_seq := default a (rs_last_journal_seq s1); rg_limit := Some (Z.of_nat m) |} s1)
      now db db (Ok (s, Ok ())).
Proof.
  intros Hw Hrun.
  destruct (runs_det _ _ _ _ _ _ _ Hrun (replay_runs a (n + m) empty_summary now db)) as [_ [= E]].
  destruct (journal_rows_spec (λ r, bool_decide (a < jr_journal_seq r)) db Hw) as [Hasc Hin].
  assert (page a (n + m) db = page a n db ++ page_rest a n m db) as Epage by apply page_split.
  assert (∃ entries, collect_results (map_row payload_value) (page a (n + m) db) = Ok entries) as [entries He].
  { unfold replay_rows in E. destruct (collect_results _ _) as [es|]; [by exists es|done]. }
  rewrite (replay_rows_summary _ entries) in E; [|by apply ascending_take|done].
  injection E as ->. rewrite Epage in He. apply map_rows_app in He as (e1 & e2 & -> & E1 & E2).
  exists (foldl record_entry empty_summary e1). split.
  - pose proof (replay_runs a n empty_summary now db) as Hr.
    by rewrite (replay_rows_summary _ e1) in Hr; [|by apply ascending_take|].
  - pose proof (replay_runs (default a (rs_last_journal_seq (foldl record_entry empty_summary e1))) m
      (foldl record_entry empty_summary e1) now db) as Hr.
    rewrite (replay_rows_summary _ e2) in Hr; [by rewrite <- foldl_app in Hr| |].
    + apply ascending_take. by apply journal_rows_spec.
    + rewrite <- E2. f_equal. rewrite last_seq_summary. by apply (next_page a n m db e1).
Qed.
End replay.

(** ** The members of a family *)

Section members.
Context {X : Externals} {J : JsonOps} {P : PgOps}.

Lemma pooled_bind_Ok {E A B} (m : Pooled E A) (f : A → Pooled E B) env st st' b :
  (m ≫= f) env st = (st', Ok b) →
  ∃ st1 a, m env st = (st1, Ok a) ∧ f a env st1 = (st', Ok b).
Proof.
  unfold mbind, pooled_bind. destruct (m env st) as [st1 [a|e]]; [|done]. intros Hf. by exists st1, a.
Qed.

Lemma pooled_of_Ok {E A} (r : result E A) env st st' a :
  pooled_of r env st = (st', Ok a) → st' = st ∧ r = Ok a.
Proof. unfold pooled_of. destruct r; simpl; [by intros [= <- <-]|done]. Qed.

Lemma summary_query {A} (f : Db → A) now n db st' a :
  summary_db (stmt (query f)) (quiet now) (n, db) = (st', Ok a) → st' = (S n, db) ∧ a = f db.
Proof. by intros [= <- <-]. Qed.

Definition validation_rows (db : Db) : list NegRiskFamilyValidationRow :=
  (select (db_family_validations db) (λ _ _, true) (cmp_on fst text_cmp)).*2.
Definition halt_rows (db : Db) : list FamilyHaltRow :=
  (select (db_family_halts db) (λ _ _, true) (cmp_on fst text_cmp)).*2.
Definition no_paths : MemberVectorPaths := {| mp_validation := ∅; mp_halt := ∅ |}.

(** What the parts of the report are read from. *)
Lemma foundation_summary_parts now db summary :
  runs load_neg_risk_foundation_summary now db db (Ok summary) →
  ∃ discovery paths,
    nf_latest_discovery_revision summary = ld_latest_discovery_revision discovery ∧
    add_member_paths (family_event_rows db) no_paths = Ok paths ∧
    nf_families summary = sort_by (cmp_on ff_event_family_id str_cmp)
      (map_to_list (family_summaries discovery paths
         (current_view discovery fv_event_family_id fv_last_seen_discovery_revision
            (validation_rows db))
         (current_view discovery fh_event_family_id fh_last_seen_discovery_revision
            (halt_rows db)))).*2.
Proof.
  intros Hr. destruct (Hr 0%nat) as [n' E]. unfold load_neg_risk_foundation_summary in E.
  apply pooled_bind_Ok in E as (st & snapshot & E0 & E).
  assert (∃ n, st = (n, db)) as [n ->].
  { unfold replay_discovery_snapshot in E0. apply pooled_bind_Ok in E0 as (st1 & payload & E1 & E2).
    apply summary_query in E1 as [-> ->]. destruct (latest_discovery_payload db).
    - apply pooled_bind_Ok in E2 as (st2 & ? & [-> _]%(pooled_of_Ok _ (quiet now)) & [= <- _]). by eexists.
    - injection E2 as <- _. by eexists. }
  apply pooled_bind_Ok in E as (st & discovery & [-> _]%(pooled_of_Ok _ (quiet now)) & E).
  apply pooled_bind_Ok in E as (st & validations & [-> ->]%summary_query & E).
  apply pooled_bind_Ok in E as (st & halts & [-> ->]%summary_query & E).
  apply pooled_bind_Ok in E as (st & paths & Ep & E). unfold latest_member_vector_paths in Ep.
  apply pooled_bind_Ok in Ep as (st1 & rows & [-> ->]%summary_query & [-> Ep]%(pooled_of_Ok _ (quiet now))).
  apply pooled_bind_Ok in E as (st & c1 & _ & E).
  apply pooled_bind_Ok in E as (st2 & c2 & _ & [= _ <-]).
  by exists discovery, paths.
Qed.

Lemma or_insert_keep {K V} `{Countable K} (m : gmap K V) k v k' v' :
  m !! k = Some v → or_insert k' v' m !! k = Some v.
Proof.
  intros Hk. unfold or_insert. destruct (m !! k') eqn:E; [done|].
  rewrite lookup_insert_ne; [done|congruence].
Qed.

(** The first row of a key stays. *)
Lemma add_member_paths_keep rows paths paths' k v :
  add_member_paths rows paths = Ok paths' → mp_validation paths !! k = Some v →
  mp_validation paths' !! k = Some v.
Proof.
  revert paths. induction rows as [|row rows IH]; intros paths; simpl; [by intros [= <-]|].
  unfold add_member_path. destruct (required_str _ _) as [id|]; simpl; [|done].
  intros Hr Hk. eapply IH; [exact Hr|]. repeat case_bool_decide; simpl; [|done|done].
  by apply or_insert_keep.
Qed.

Lemma append_journal_entry_Ok entry now db db' r :
  append_journal_entry entry now db = (db', Ok r) →
  let row := journal_entry_row (db_journal_seq db) entry now in
  db' = db <| db_journal_seq := db_journal_seq db + 1 |>
           <| db_event_journal := <[db_journal_seq db := row]> (db_event_journal db) |>.
Proof.
  unfold append_journal_entry. destruct (nextval _) as [seq|] eqn:E; [|done].
  apply nextval_Some in E as ->. simpl. destruct (has_row _ _); [done|]. case_bool_decide; [done|].
  destruct (match ji_causal_parent_id entry with Some _ => _ | None => _ end); [done|].
  by intros [= <- _].
Qed.

(** A validation that changes something. *)
Definition recorded_anew (db : Db) (row : NegRiskFamilyValidationRow) : bool :=
  match db_family_validations db !! fv_event_family_id row with
  | Some e => negb (same_validation_state e row)
  | None => true
  end.

Lemma upsert_validation_Ok row now db db' :
  recorded_anew db row = true → runs (upsert_validation row) now db db' (Ok ()) →
  db_family_validations db' =
    <[fv_event_family_id row := validation_columns row]> (db_family_validations db) ∧
  db_event_journal db' =
    <[db_journal_seq db := journal_entry_row (db_journal_seq db) (validation_journal_entry row) now]>
      (db_event_journal db).
Proof.
  intros Hnew Hr. destruct (upsert_validation_tx row now db) as [db1 [b|e]] eqn:E.
  - assert (runs (upsert_validation row) now db db1 (Ok ())) as Hr1.
    { eapply runs_bind; [by apply runs_transaction_ok|]. destruct b; apply runs_ret. }
    destruct (runs_det _ _ _ _ _ _ _ Hr Hr1) as [-> _].
    unfold upsert_validation_tx in E. apply tx_bind_Ok in E as (db2 & existing & [= <- <-] & E).
    assert (match db_family_validations db !! fv_event_family_id row with
            | Some e => same_validation_state e row | None => false end = false) as Es.
    { unfold recorded_anew in Hnew. destruct (db_family_validations db !! _); [|done].
      by apply negb_true_iff. }
    rewrite Es in E.
    apply tx_bind_Ok in E as (db2 & [] & [= <-] & E).
    apply tx_bind_Ok in E as (db3 & r & Ea%append_journal_entry_Ok & [= <- _]).
    by rewrite Ea.
  - assert (runs (upsert_validation row) now db (rollback db db1) (Err e)) as Hr1.
    { apply runs_bind_err. by apply runs_transaction_err. }
    by destruct (runs_det _ _ _ _ _ _ _ Hr Hr1).
Qed.
Section new_row.
Context (now : DateTime) (db db' : Db) (row : NegRiskFamilyValidationRow) (Hw : db_wf db).
Let id := fv_event_family_id row.
Let jrow := journal_entry_row (db_journal_seq db) (validation_journal_entry row) now.
Let path := {| vp_journal_seq := db_journal_seq db; vp_event_type := "family_validation";
               vp_event_family_id := id |}.
Context (Ej : db_event_journal db' = <[db_journal_seq db := jrow]> (db_event_journal db)).

(** The new entry is the latest of all events of families. *)
Lemma new_event_first : head (family_event_rows db') = Some jrow.
Proof.
  unfold family_event_rows. destruct Hw as [[Hk _] _].
  assert (head (select (db_event_journal db') (λ _, is_family_event) (desc (cmp_on fst Z.compare)))
          = Some (db_journal_seq db, jrow)) as Hh.
  { apply (head_select _ _ _ (TotalPreorder0 := desc_total _ (TotalPreorder0 := cmp_on_total fst Z.compare))).
    - rewrite Ej. apply lookup_insert_eq.
    - done.
    - intros k r Hr _ Hne. rewrite Ej, lookup_insert_ne in Hr by done.
      apply Hk in Hr as (_ & Hlt & _). unfold desc, cmp_on. simpl. by apply Z.compare_lt_iff. }
  by destruct (select _ _ _); simplify_eq/=.
Qed.

Lemma new_path paths :
  add_member_paths (family_event_rows db') no_paths = Ok paths →
  mp_validation paths !! (id, Some (fv_metadata_snapshot_hash row)) = Some path.
Proof.
  pose proof new_event_first as Hh. destruct (family_event_rows db') as [|r rows]; [done|].
  injection Hh as ->. simpl. intros Hr. eapply add_member_paths_keep; [exact Hr|].
  apply lookup_insert_eq.
Qed.

Lemma read_members members :
  collect_results read_member
    (default [] (json_as_array (member_vector_json members))) = Ok members.
Proof.
  unfold member_vector_json. cbn [json_as_array default from_option Datatypes.id].
  induction members as [|m members IH]; [done|]. rewrite fmap_cons. cbn [collect_results].
  rewrite IH. by destruct m.
Qed.

Lemma new_members : runs (load_member_vector_from_journal path) now db' db' (Ok (fv_member_vector row)).
Proof.
  eapply runs_pooled_bind; [by apply runs_from_repo_ok, runs_query|].
  unfold journal_payload_at. simpl. rewrite Ej, lookup_insert_eq. simpl.
  eapply runs_pooled_bind; [apply (runs_pooled_of (Ok _))|].
  assert (read_member_vector path (ji_payload (validation_journal_entry row)) =
          Ok (fv_member_vector row)) as Em.
  { unfold read_member_vector. change (required_str _ _) with (@Ok NegRiskSummaryError _ id). simpl.
    rewrite bool_decide_eq_false_2 by (by intros []). apply read_members. }
  change (json_object _) with (ji_payload (validation_journal_entry row)). rewrite Em.
  apply (runs_pooled_of (Ok _)).
Qed.
End new_row.

(** *** The families of the report *)

Definition families_of (ids : list string)
    (families : gmap string NegRiskFoundationFamilySummary) : Prop :=
  ∀ id f, families !! id = Some f → ff_event_family_id f = id ∧ id ∈ ids.

Lemma family_entry_id ids families id :
  families_of ids families → ff_event_family_id (family_entry families id) = id.
Proof.
  intros Hf. unfold family_entry. destruct (families !! id) eqn:E; [|done]. by apply Hf in E as [? _].
Qed.

Lemma families_of_fold {R} (id : R → string) show ids (rows : list R) families :
  (∀ fs r, families_of ids fs → id r ∈ ids → families_of ids (show fs r)) →
  Forall (λ r, id r ∈ ids) rows → families_of ids families →
  families_of ids (foldl show families rows).
Proof. intros Hs Hr. revert families. induction Hr; simpl; auto. Qed.

Lemma families_of_insert ids fs id f :
  ff_event_family_id f = id → families_of ids fs → id ∈ ids → families_of ids (<[id := f]> fs).
Proof.
  intros Hid Hf Hin k f'. destruct (decide (k = id)) as [->|].
  - rewrite lookup_insert_eq. by intros [= <-].
  - rewrite lookup_insert_ne by done. apply Hf.
Qed.

Lemma current_view_spec {A} d (id : A → string) revision rows r :
  r ∈ current_view d id revision rows ↔
  r ∈ rows ∧ id r ∈ ld_family_ids d ∧ revision r = ld_latest_discovery_revision d.
Proof.
  unfold current_view. rewrite list_elem_of_In, filter_In, <- list_elem_of_In, andb_true_iff,
    !bool_decide_eq_true. done.
Qed.

Lemma family_summaries_of d paths validations halts :
  families_of (ld_family_ids d)
    (family_summaries d paths
       (current_view d fv_event_family_id fv_last_seen_discovery_revision validations)
       (current_view d fh_event_family_id fh_last_seen_discovery_revision halts)).
Proof.
  unfold family_summaries.
  apply (families_of_fold fh_event_family_id).
  { intros fs r Hf Hr. apply families_of_insert; [|done|done].
    by apply (family_entry_id (ld_family_ids d)). }
  { apply Forall_forall. by intros r [_ [Hr _]]%current_view_spec. }
  apply (families_of_fold fv_event_family_id).
  { intros fs r Hf Hr. apply families_of_insert; [|done|done].
    by apply (family_entry_id (ld_family_ids d)). }
  { apply Forall_forall. by intros r [_ [Hr _]]%current_view_spec. }
  intros id f Hf%collect_map_elem. apply list_elem_of_fmap in Hf as (id' & [= -> ->] & Hin). done.
Qed.

(** What is shown of a validation. *)
Definition shows_validation (paths : MemberVectorPaths) (row : NegRiskFamilyValidationRow)
    (f : NegRiskFoundationFamilySummary) : Prop :=
  ff_validation_status f = Some (fv_validation_status row) ∧
  ff_exclusion_reason f = fv_exclusion_reason row ∧
  ff_validation_metadata_snapshot_hash f = Some (fv_metadata_snapshot_hash row) ∧
  ff_validation_member_vector_path f =
    mp_validation paths !! (fv_event_family_id row, Some (fv_metadata_snapshot_hash row)).

Lemma validation_shown paths families rows row :
  row ∈ rows → (∀ r, r ∈ rows → fv_event_family_id r = fv_event_family_id row → r = row) →
  ∃ f, foldl (show_validation paths) families rows !! fv_event_family_id row = Some f ∧
    shows_validation paths row f.
Proof.
  induction rows as [|r rows IH] using rev_ind; intros Hin Hu; [by apply elem_of_nil in Hin|].
  rewrite foldl_snoc. unfold show_validation at 1. simpl.
  destruct (decide (fv_event_family_id r = fv_event_family_id row)) as [E|E].
  - rewrite (Hu r); [|apply elem_of_app; right; by left|done]. rewrite lookup_insert_eq.
    eexists. split; [done|]. by split_and!.
  - rewrite lookup_insert_ne by done. apply IH.
    + apply elem_of_app in Hin as [|Hin%list_elem_of_singleton]; [done|congruence].
    + intros r' Hr'. apply Hu. apply elem_of_app. by left.
Qed.

Lemma halts_keep_validation paths families rows id row f :
  families !! id = Some f → shows_validation paths row f →
  ∃ f', foldl (show_halt paths) families rows !! id = Some f' ∧ shows_validation paths row f'.
Proof.
  revert families f. induction rows as [|r rows IH]; intros families f Hf Hs; simpl; [by exists f|].
  destruct (decide (fh_event_family_id r = id)) as [E|E].
  - eapply IH; [unfold show_halt; rewrite E; apply lookup_insert_eq|].
    unfold family_entry. rewrite Hf. simpl. destruct Hs as (?&?&?&?). by split_and!.
  - eapply IH; [unfold show_halt; by rewrite lookup_insert_ne|done].
Qed.

(** Every validation is stored under its family. *)
Definition validations_keyed (db : Db) : Prop :=
  map_Forall (λ k r, fv_event_family_id r = k) (db_family_validations db).

Lemma validation_rows_spec db r :
  r ∈ validation_rows db ↔ ∃ k, db_family_validations db !! k = Some r.
Proof.
  unfold validation_rows. rewrite list_elem_of_fmap. split.
  - intros ([k r'] & -> & Hin). exists k. by apply elem_of_select in Hin as [? _].
  - intros [k Hk]. exists (k, r). split; [done|]. by apply elem_of_select.
Qed.

End members.

(** ** Witnesses *)

Module witnesses.
#[local] Existing Instance Micros.
#[local] Existing Instance plain_json.
#[local] Existing Instance plain_pg.

(** The type of values of these externals has one element. *)
Definition no_value (_ : Json) : JsonValue (Externals := Micros) := tt.

Definition test_entry (dedupe_key event_type : string) (payload : Json) : JournalEntryInput :=
  {| ji_stream := "stream"; ji_source_kind := "test"; ji_source_session_id := "session";
     ji_source_event_id := "event"; ji_dedupe_key := dedupe_key; ji_causal_parent_id := None;
     ji_event_type := event_type; ji_event_ts := instant 5; ji_payload := payload |}.

Definition appended (entry : JournalEntryInput) (db : Db) : Db :=
  (append_journal_entry entry (instant 10) db).1.

Lemma appended_wf entry db : db_wf db → db_wf (appended entry db).
Proof. apply (tx_in_append_journal_entry entry (instant 10) db). Qed.

Definition three_entries : Db :=
  appended (test_entry "c" "x" JNull)
    (appended (test_entry "b" "x" JNull) (appended (test_entry "a" "x" JNull) db_empty)).

Lemma replay_in_pages_witness : ∃ s1 s,
  runs (replay_event_journal_from_pool no_value {| rg_after_seq := 0; rg_limit := Some 2 |}
          empty_summary) (instant 20) three_entries three_entries (Ok (s1, Ok ())) ∧
  runs (replay_event_journal_from_pool no_value
          {| rg_after_seq := default 0 (rs_last_journal_seq s1); rg_limit := Some 1 |} s1)
    (instant 20) three_entries three_entries (Ok (s, Ok ())) ∧
  rs_processed_count s = 3.
Proof.
  pose proof (replay_runs no_value 0 3 empty_summary (instant 20) three_entries) as Hr.
  assert (match replay_rows (C := ReplayStateSummary) no_value (page 0 3 three_entries) empty_summary with
          | (s, Ok _) => rs_processed_count s =? 3 | _ => false end = true) as Hc
    by (vm_compute; reflexivity).
  destruct (replay_rows no_value _ empty_summary) as [s [[]|]]; [|done].
  destruct (replay_in_pages no_value (instant 20) three_entries 0 2 1 s) as (s1 & H1 & H2).
  - by do 3 apply appended_wf; apply db_empty_wf.
  - exact Hr.
  - exists s1, s. split_and!; [exact H1|exact H2|]. by apply Z.eqb_eq.
Defined.

Definition listing : Db :=
  appended (test_entry "discovery" "neg_risk_discovery_snapshot"
    (JObject [("discovery_revision", JNumber 7); ("family_ids", JArray [JString "family-a"])]))
    db_empty.

Definition member : NegRiskFamilyMemberRow :=
  {| fmr_condition_id := "condition-1"; fmr_token_id := "token-1"; fmr_outcome_label := "Yes";
     fmr_is_placeholder := false; fmr_is_other := true; fmr_neg_risk_variant := "standard" |}.

Definition validation : NegRiskFamilyValidationRow :=
  {| fv_event_family_id := "family-a"; fv_validation_status := "included";
     fv_exclusion_reason := None; fv_metadata_snapshot_hash := "hash";
     fv_last_seen_discovery_revision := 7; fv_member_count := 1; fv_first_seen_at := instant 1;
     fv_last_seen_at := instant 2; fv_validated_at := instant 3; fv_updated_at := instant 3;
     fv_member_vector := [member]; fv_source_kind := "test"; fv_source_session_id := "session";
     fv_source_event_id := "event"; fv_event_ts := instant 3 |}.

Lemma foundation_reads : reads load_neg_risk_foundation_summary.
Proof.
  unfold load_neg_risk_foundation_summary, replay_discovery_snapshot, latest_member_vector_paths,
    count_recent_family_events, summary_db, summarised, list_validations, list_halts.
  reading.
Qed.

End witnesses.
