(* ===== verification/Verify.v ===== *)
(** * The verify command

    [app-live/src/commands/verify]: what the operator is told about a run after the fact,
    from the configuration, the sessions and what the database holds of attempts, artifacts
    and submissions. The evaluation of the status never defers, so there is no context of a
    deferred one. *)

From Stdlib Require Import Ascii.
From S2P Require Import Prelude Text RecordSet Externals Json Domain LiveRecords Discovery.
From S2P Require Import Rows AppConfig Schema RepoJournal RepoExecution RepoSessions Config.
From S2P Require Import Validation ConfigFile Command Startup Targets Migration Status.
From S2P Require Import WsMessages L2Probe Replay.

(** ** model.rs *)

Inductive VerifyScenario := VerifyPaper | VerifyLive | VerifyRealUserShadowSmoke.
Inductive VerifyVerdict := VerdictPass | VerdictPassWithWarnings | VerdictFail.
Inductive VerifyExpectation := ExpectAuto | PaperNoLive | SmokeShadowOnly | LiveConfigConsistent.
Inductive VerifyControlPlaneMode := PlanePaper | PlaneLive | PlaneRealUserShadowSmoke.
Inductive VerifyControlPlaneTargetSource := PlaneLegacyExplicitTargets | PlaneAdoptedTargets.
Inductive VerifyControlPlaneRolloutState := PlaneRolloutRequired | PlaneRolloutReady.

#[export] Instance VerifyScenario_eq_dec : EqDecision VerifyScenario.
Proof. solve_decision. Defined.
#[export] Instance VerifyVerdict_eq_dec : EqDecision VerifyVerdict.
Proof. solve_decision. Defined.
#[export] Instance VerifyExpectation_eq_dec : EqDecision VerifyExpectation.
Proof. solve_decision. Defined.
#[export] Instance VerifyControlPlaneMode_eq_dec : EqDecision VerifyControlPlaneMode.
Proof. solve_decision. Defined.
#[export] Instance VerifyControlPlaneTargetSource_eq_dec : EqDecision VerifyControlPlaneTargetSource.
Proof. solve_decision. Defined.
#[export] Instance VerifyControlPlaneRolloutState_eq_dec : EqDecision VerifyControlPlaneRolloutState.
Proof. solve_decision. Defined.

Definition scenario_label (s : VerifyScenario) : string :=
  match s with
  | VerifyPaper => "paper" | VerifyLive => "live"
  | VerifyRealUserShadowSmoke => "real-user shadow smoke"
  end.
Definition verdict_label (v : VerifyVerdict) : string :=
  match v with
  | VerdictPass => "pass" | VerdictPassWithWarnings => "pass-with-warnings"
  | VerdictFail => "fail"
  end.
Definition expectation_label (e : VerifyExpectation) : string :=
  match e with
  | ExpectAuto => "auto" | PaperNoLive => "paper-no-live"
  | SmokeShadowOnly => "smoke-shadow-only" | LiveConfigConsistent => "live-config-consistent"
  end.
Definition plane_mode_label (m : VerifyControlPlaneMode) : string :=
  match m with
  | PlanePaper => "paper" | PlaneLive => "live"
  | PlaneRealUserShadowSmoke => "real-user shadow smoke"
  end.
Definition plane_target_source_label (s : VerifyControlPlaneTargetSource) : string :=
  match s with
  | PlaneLegacyExplicitTargets => "legacy explicit targets"
  | PlaneAdoptedTargets => "adopted targets"
  end.
Definition plane_rollout_state_label (s : VerifyControlPlaneRolloutState) : string :=
  match s with PlaneRolloutRequired => "required" | PlaneRolloutReady => "ready" end.

Record VerifyResultEvidence := {
  ve_attempts : list string;
  ve_artifacts : list string;
  ve_replay : list string;
  ve_side_effects : list string;
}.

Record VerifyControlPlaneContext := {
  vc_mode : option VerifyControlPlaneMode;
  vc_target_source : option VerifyControlPlaneTargetSource;
  vc_configured_target : option string;
  vc_active_target : option string;
  vc_restart_needed : option bool;
  vc_rollout_state : option VerifyControlPlaneRolloutState;
  vc_run_session_id : option string;
  vc_run_session_state : option string;
}.

#[export] Instance VerifyControlPlaneContext_eta : Eta VerifyControlPlaneContext := λ c,
  {| vc_mode := vc_mode c; vc_target_source := vc_target_source c;
     vc_configured_target := vc_configured_target c; vc_active_target := vc_active_target c;
     vc_restart_needed := vc_restart_needed c; vc_rollout_state := vc_rollout_state c;
     vc_run_session_id := vc_run_session_id c; vc_run_session_state := vc_run_session_state c |}.

Record VerifyReport := {
  vr_scenario : VerifyScenario;
  vr_verdict : VerifyVerdict;
  vr_evidence : VerifyResultEvidence;
  vr_control_plane_context : VerifyControlPlaneContext;
  vr_next_actions : list string;
}.

(** ** Text *)

(** [s.replace(pattern, by)], for a pattern that is not empty; [skip] bytes of a match are
    still to be passed over. *)
Fixpoint replace_from (pattern by_ : string) (skip : nat) (s : string) : string :=
  match s with
  | EmptyString => ""
  | String c rest =>
      match skip with
      | S skip => replace_from pattern by_ skip rest
      | O =>
          if String.prefix pattern s
          then by_ +:+ replace_from pattern by_ (String.length pattern - 1) rest
          else String c (replace_from pattern by_ O rest)
      end
  end.

Definition replace (pattern by_ s : string) : string := replace_from pattern by_ O s.

(** [ch.is_ascii_alphanumeric()] *)
Definition is_ascii_alphanumeric (c : ascii) : bool :=
  let b := byte_of c in
  bool_decide (byte_of "0" ≤ b ≤ byte_of "9") || bool_decide (byte_of "A" ≤ b ≤ byte_of "Z") ||
  bool_decide (byte_of "a" ≤ b ≤ byte_of "z").

Definition shell_quote (value : string) : string :=
  if str_forall (λ c, is_ascii_alphanumeric c ||
                      bool_decide (c ∈ ["/"; "."; "-"; "_"]%char)) value
  then value
  else "'" +:+ replace "'" "'\''" value +:+ "'".

(** The last character of a text and what comes before it: the last byte, and the bytes
    before it while they continue a character. *)
Fixpoint split_last_char (front : list Z) (char : list Z) : option (list Z * list Z) :=
  match front with
  | [] => None
  | b :: front =>
      if bool_decide (0x80 <= b < 0xC0) then split_last_char front (b :: char)
      else Some (rev front, b :: char)
  end.

Definition last_char (s : string) : option (string * string) :=
  '(front, char) ← split_last_char (rev (bytes_of s)) [];
  Some (string_of_bytes front, string_of_bytes char).

Section verify.
Context {X : Externals} {J : JsonOps} {P : PgOps} {U : UrlOps} {D : SerdeOps} {T : TomlOps}.
Context {E : ErrorText}.

(** ** window.rs *)

(** [chrono]: durations of a number of units, [None] when they do not fit, and instants
    before others. *)
Class ChronoOps := {
  try_seconds : Z → option Duration;
  try_minutes : Z → option Duration;
  try_hours : Z → option Duration;
  try_days : Z → option Duration;
  checked_sub_signed : DateTime → Duration → option DateTime;
}.

Inductive VerifyWindowSelection :=
| LatestForScenario (scenario : VerifyScenario)
| ExplicitAttemptId (attempt_id : string)
| ExplicitSeqRange (from_seq : Z) (to_seq : option Z)
| ExplicitSince (since : DateTime).

Inductive VerifyWindowSelectionError :=
| AttemptIdCannotBeCombinedWithWindow
| SeqRangeCannotBeCombinedWithSince
| ToSeqRequiresFromSeq
| DescendingSeqRange (from_seq to_seq : Z)
| InvalidSinceValue (message : string)
| UnsupportedSinceSuffix (unit_ : string)
| SinceValueOverflow (value unit_ : string)
| SinceWindowOverflowsNow (value : string).

Definition window_error_text (e : VerifyWindowSelectionError) : string :=
  match e with
  | AttemptIdCannotBeCombinedWithWindow => "attempt-id cannot be combined with seq range or since"
  | SeqRangeCannotBeCombinedWithSince => "seq range cannot be combined with since"
  | ToSeqRequiresFromSeq => "to-seq requires from-seq"
  | DescendingSeqRange from_seq to_seq =>
      "descending seq range is invalid: from-seq " +:+ pretty from_seq +:+
      " must be <= to-seq " +:+ pretty to_seq
  | InvalidSinceValue value => value
  | UnsupportedSinceSuffix unit_ => "unsupported since suffix: " +:+ unit_
  | SinceValueOverflow value unit_ =>
      "since value overflows chrono duration: " +:+ value +:+ unit_
  | SinceWindowOverflowsNow value => "since window overflows current time: " +:+ value
  end.

Definition is_historical_explicit (selection : VerifyWindowSelection) : bool :=
  match selection with LatestForScenario _ => false | _ => true end.

Context {C : ChronoOps}.

Definition parse_since (value : string) : result VerifyWindowSelectionError Duration :=
  let value := trim value in
  parts ← ok_or (last_char value) (InvalidSinceValue "since value is empty");
  let '(amount, unit_) := parts in
  amount ← ok_or (parse_i64 amount) (InvalidSinceValue ("invalid since value: " +:+ value));
  if bool_decide (amount < 0) then Err (InvalidSinceValue "since value must not be negative")
  else
    duration ←
      (if bool_decide (unit_ = "s") then Ok (try_seconds amount)
       else if bool_decide (unit_ = "m") then Ok (try_minutes amount)
       else if bool_decide (unit_ = "h") then Ok (try_hours amount)
       else if bool_decide (unit_ = "d") then Ok (try_days amount)
       else Err (UnsupportedSinceSuffix unit_));
    ok_or duration (SinceValueOverflow value unit_).

(** [now] is the clock. *)
Definition window_from_args (from_seq to_seq : option Z) (attempt_id since : option string)
    (scenario : VerifyScenario) (now : DateTime) :
    result VerifyWindowSelectionError VerifyWindowSelection :=
  let has_seq_range := bool_decide (is_Some from_seq) || bool_decide (is_Some to_seq) in
  let has_since := bool_decide (is_Some since) in
  if bool_decide (is_Some attempt_id) && (has_seq_range || has_since) then
    Err AttemptIdCannotBeCombinedWithWindow
  else if has_seq_range && has_since then Err SeqRangeCannotBeCombinedWithSince
  else
    match attempt_id, from_seq, since with
    | Some attempt_id, _, _ => Ok (ExplicitAttemptId attempt_id)
    | None, Some from_seq, _ =>
        match to_seq with
        | Some to_ =>
            if bool_decide (to_ < from_seq) then Err (DescendingSeqRange from_seq to_)
            else Ok (ExplicitSeqRange from_seq to_seq)
        | None => Ok (ExplicitSeqRange from_seq to_seq)
        end
    | None, None, Some since =>
        duration ← parse_since since;
        selected_at ← ok_or (checked_sub_signed now duration) (SinceWindowOverflowsNow since);
        Ok (ExplicitSince selected_at)
    | None, None, None =>
        if bool_decide (is_Some to_seq) then Err ToSeqRequiresFromSeq
        else Ok (LatestForScenario scenario)
    end.

(** ** session.rs *)

Record ResolvedVerifySession := {
  rvs_relevant_session : option RunSessionRow;
  rvs_historical_window_session : option RunSessionRow;
  rvs_historical_window_unique : bool;
}.

Definition selected_session_id (session : ResolvedVerifySession)
    (selection : VerifyWindowSelection) : option string :=
  let relevant := run_run_session_id <$> rvs_relevant_session session in
  if is_historical_explicit selection then
    if rvs_historical_window_unique session then
      match rvs_historical_window_session session with
      | Some row => Some (run_run_session_id row)
      | None => relevant
      end
    else None
  else relevant.

(** ** context.rs *)

Record VerifyContext := {
  vx_scenario : VerifyScenario;
  vx_expectation : VerifyExpectation;
  vx_config_path : string;
  vx_active_routes : list string;
  vx_control_plane : VerifyControlPlaneContext;
  vx_readiness : option StatusReadiness;
  vx_actions : list StatusAction;
  vx_reason : option string;
}.

#[export] Instance VerifyContext_eta : Eta VerifyContext := λ c,
  {| vx_scenario := vx_scenario c; vx_expectation := vx_expectation c;
     vx_config_path := vx_config_path c; vx_active_routes := vx_active_routes c;
     vx_control_plane := vx_control_plane c; vx_readiness := vx_readiness c;
     vx_actions := vx_actions c; vx_reason := vx_reason c |}.

Definition derive_auto_expectation (mode : option StatusMode) (readiness : StatusReadiness) :
    VerifyExpectation :=
  match mode with
  | Some StatusPaper | None => PaperNoLive
  | Some StatusRealUserShadowSmoke => SmokeShadowOnly
  | Some StatusLive => LiveConfigConsistent
  end.

Definition map_scenario (mode : option StatusMode) : VerifyScenario :=
  match mode with
  | Some StatusPaper | None => VerifyPaper
  | Some StatusRealUserShadowSmoke => VerifyRealUserShadowSmoke
  | Some StatusLive => VerifyLive
  end.

Definition map_mode (mode : StatusMode) : VerifyControlPlaneMode :=
  match mode with
  | StatusPaper => PlanePaper
  | StatusRealUserShadowSmoke => PlaneRealUserShadowSmoke
  | StatusLive => PlaneLive
  end.

Definition map_target_source (source : StatusTargetSource) : VerifyControlPlaneTargetSource :=
  match source with
  | StatusLegacyExplicitTargets => PlaneLegacyExplicitTargets
  | StatusAdoptedTargets => PlaneAdoptedTargets
  end.

Definition map_rollout_state (state : StatusRolloutState) : VerifyControlPlaneRolloutState :=
  match state with
  | RolloutRequired => PlaneRolloutRequired
  | RolloutReady => PlaneRolloutReady
  end.

Definition from_summary (config_path : string) (summary : StatusSummary) : VerifyContext :=
  let details := ssm_details summary in
  {| vx_scenario := map_scenario (ssm_mode summary);
     vx_expectation := derive_auto_expectation (ssm_mode summary) (ssm_readiness summary);
     vx_config_path := config_path; vx_active_routes := [];
     vx_control_plane :=
       {| vc_mode := map_mode <$> ssm_mode summary;
          vc_target_source := map_target_source <$> sdt_target_source details;
          vc_configured_target := sdt_configured_target details;
          vc_active_target := sdt_active_target details;
          vc_restart_needed := sdt_restart_needed details;
          vc_rollout_state := map_rollout_state <$> sdt_rollout_state details;
          vc_run_session_id := sdt_relevant_run_session_id details;
          vc_run_session_state := sdt_relevant_run_state details |};
     vx_readiness := Some (ssm_readiness summary); vx_actions := ssm_actions summary;
     vx_reason := sdt_reason details |}.

(** [Ok(None)] is "auto", which overrides nothing. *)
Definition parse_expectation_override (value : string) : result string (option VerifyExpectation) :=
  if bool_decide (value = "auto") then Ok None
  else if bool_decide (value = "paper-no-live") then Ok (Some PaperNoLive)
  else if bool_decide (value = "smoke-shadow-only") then Ok (Some SmokeShadowOnly)
  else if bool_decide (value = "live-config-consistent") then Ok (Some LiveConfigConsistent)
  else Err ("unsupported verify expectation: " +:+ value +:+
            "; expected auto, paper-no-live, smoke-shadow-only, or live-config-consistent").

Definition resolve_session_window (context : VerifyContext) (selection : VerifyWindowSelection) :
    Pool ResolvedVerifySession :=
  relevant ← match vc_run_session_id (vx_control_plane context) with
             | Some id => session_get id
             | None => mret None
             end;
  historical ← match selection with
               | LatestForScenario _ => mret None
               | ExplicitAttemptId attempt_id => resolve_unique_for_attempt_id attempt_id
               | ExplicitSince since => resolve_unique_for_since since
               | ExplicitSeqRange from_seq to_seq => resolve_unique_for_seq_range from_seq to_seq
               end;
  mret {| rvs_relevant_session := relevant; rvs_historical_window_session := historical;
          rvs_historical_window_unique :=
            match selection with
            | LatestForScenario _ => true
            | _ => bool_decide (is_Some historical)
            end |}.

Record ActiveRouteResolution := {
  ar_active_routes : list string;
  ar_historical_noncomparable_reason : option string;
}.

Definition route_keys (artifacts : RouteArtifacts) : list string := btree_keys str_cmp artifacts.

(** [match m.await { Ok(..) => .., Err(..) => .. }]; a panic goes through. *)
Definition attempt {F G A} (m : Pooled F A) : Pooled G (result F A) := λ env st,
  match m env st with
  | (st, Ok a) => (st, Ok (Ok a))
  | (st, Err (Halted e)) => (st, Ok (Err e))
  | (st, Err HaltPanicked) => (st, Err HaltPanicked)
  end.

(** The routes of a revision of the past; [what] is the name of the revision's kind. *)
Definition historical_routes (what revision : string) (artifacts : Starting RouteArtifacts) :
    Pooled string ActiveRouteResolution :=
  resolved ← attempt artifacts;
  mret match resolved with
       | Ok route_artifacts =>
           {| ar_active_routes := route_keys route_artifacts;
              ar_historical_noncomparable_reason := None |}
       | Err _ =>
           {| ar_active_routes := [];
              ar_historical_noncomparable_reason := Some
                ("historical window uses " +:+ what +:+ " " +:+ revision +:+
                 ", but local adoption lineage is no longer available; " +:+
                 "config/lifecycle consistency was not evaluated") |}
       end.

Definition current_routes (file : option string) : Pooled string ActiveRouteResolution :=
  config ← pooled_of (map_err schema_text
             (raw ← load_raw_config_from_path file;
              validated ← validated_config_new raw; for_app_live validated));
  resolved ← map_pooled_err (startup_error_text persistence_text)
               (resolve_startup_strategy_revision config);
  mret {| ar_active_routes := route_keys (rsr_route_artifacts resolved);
          ar_historical_noncomparable_reason := None |}.

Definition load_active_routes (file : option string) (selection : VerifyWindowSelection)
    (session : ResolvedVerifySession) : Pooled string ActiveRouteResolution :=
  match
    (if is_historical_explicit selection && rvs_historical_window_unique session
     then rvs_historical_window_session session else None)
  with
  | Some row =>
      match run_configured_operator_strategy_revision row with
      | Some revision =>
          historical_routes "operator_strategy_revision" revision
            (resolve_route_artifacts_for_operator_strategy_revision revision)
      | None =>
          match run_configured_operator_target_revision row with
          | Some revision =>
              historical_routes "operator_target_revision" revision
                (resolve_route_artifacts_for_operator_target_revision revision)
          | None =>
              mret {| ar_active_routes := [];
                      ar_historical_noncomparable_reason := Some
                        ("historical window is uniquely mapped to a run session, but that " +:+
                         "session has no persisted startup revision anchor; " +:+
                         "config/lifecycle consistency was not evaluated") |}
          end
      end
  | None => current_routes file
  end.

Record ConfigAnchorComparison := { ca_comparable : bool; ca_reason : option string }.

Definition comparable_anchor : ConfigAnchorComparison :=
  {| ca_comparable := true; ca_reason := None |}.

Definition compare_window_to_current_config_anchor (selection : VerifyWindowSelection)
    (session : ResolvedVerifySession) (routes : ActiveRouteResolution) : ConfigAnchorComparison :=
  if negb (is_historical_explicit selection) then comparable_anchor
  else
    match ar_historical_noncomparable_reason routes with
    | Some reason => {| ca_comparable := false; ca_reason := Some reason |}
    | None =>
        if rvs_historical_window_unique session &&
           bool_decide (is_Some (rvs_historical_window_session session))
        then comparable_anchor
        else
          {| ca_comparable := false;
             ca_reason := Some
               ("historical window is not uniquely mapped to a run session; " +:+
                "config/lifecycle consistency was not evaluated") |}
    end.

(** ** evidence.rs *)

Definition AttemptRow : Type := ExecutionAttemptWithCreatedAtRow.
Definition row_id (row : AttemptRow) : string := xr_attempt_id (xc_attempt row).
Definition row_route (row : AttemptRow) : string := xr_route (xc_attempt row).
Definition row_mode_is (mode : ExecutionMode) (row : AttemptRow) : bool :=
  bool_decide (xr_execution_mode (xc_attempt row) = mode).

Record VerifyEvidenceWindow := {
  ew_attempts : list AttemptRow;
  ew_observed_live_attempts : list AttemptRow;
  ew_observed_shadow_attempts : list AttemptRow;
  ew_replay_shadow_attempt_artifacts : list NegRiskShadowAttemptArtifacts;
  ew_journal : list JournalEntryRow;
  ew_shadow_artifacts : list ShadowExecutionArtifactRow;
  ew_live_artifacts : gmap string (list LiveExecutionArtifactRow);
  ew_live_submissions : gmap string (list LiveSubmissionRecordRow);
}.

Definition no_evidence : VerifyEvidenceWindow :=
  {| ew_attempts := []; ew_observed_live_attempts := []; ew_observed_shadow_attempts := [];
     ew_replay_shadow_attempt_artifacts := []; ew_journal := []; ew_shadow_artifacts := [];
     ew_live_artifacts := ∅; ew_live_submissions := ∅ |}.

Definition DEFAULT_RECENT_ATTEMPTS_LIMIT : Z := 20.

Definition route_is_active (route : string) (active_routes : list string) : bool :=
  bool_decide (active_routes = []) || bool_decide (route ∈ active_routes).

Definition filter_attempts_by_active_routes (active_routes : list string) (rows : list AttemptRow) :
    list AttemptRow :=
  List.filter (λ row, route_is_active (row_route row) active_routes) rows.

(** [seen.insert(id)]: the first row of each attempt stays. *)
Fixpoint first_of_each (seen : gset string) (rows : list AttemptRow) : list AttemptRow :=
  match rows with
  | [] => []
  | row :: rows =>
      if bool_decide (row_id row ∈ seen) then first_of_each seen rows
      else row :: first_of_each ({[row_id row]} ∪ seen) rows
  end.

Definition sort_and_dedup_attempts (rows : list AttemptRow) : list AttemptRow :=
  first_of_each ∅ (sort_by (λ left right,
    then_with (dt_cmp (xc_created_at right) (xc_created_at left))
              (str_cmp (row_id right) (row_id left))) rows).

(** [for route in active_routes { rows.extend(f(route).await?) }] *)
Fixpoint rows_of_routes (f : string → Pool (list AttemptRow)) (routes : list string) :
    Pool (list AttemptRow) :=
  match routes with
  | [] => mret []
  | route :: routes =>
      rows ← f route; rest ← rows_of_routes f routes; mret (rows ++ rest)
  end.

Definition list_by_mode_with_created_at_for_active_routes (mode : ExecutionMode)
    (active_routes : list string) : Pool (list AttemptRow) :=
  if bool_decide (active_routes = []) then list_by_mode_with_created_at mode
  else
    rows ← rows_of_routes (list_by_mode_with_created_at_and_route mode) active_routes;
    mret (sort_and_dedup_attempts rows).

Definition list_recent_by_mode_for_active_routes (mode : ExecutionMode)
    (active_routes : list string) (limit_per_route : Z) : Pool (list AttemptRow) :=
  if bool_decide (active_routes = []) then list_recent_by_mode (Some mode) limit_per_route
  else
    rows ← rows_of_routes (λ route, list_recent_by_mode_and_route mode route limit_per_route)
             active_routes;
    mret (sort_and_dedup_attempts rows).

Definition select_latest_smoke_run_attempts (active_routes : list string) :
    Pool (list AttemptRow) :=
  latest ← list_recent_by_mode_for_active_routes Shadow active_routes 1;
  match latest with
  | [] => mret []
  | row :: _ =>
      rows ← list_by_snapshot_id (xr_snapshot_id (xc_attempt row));
      mret (filter_attempts_by_active_routes active_routes rows)
  end.

(** Whether a row replaces the latest of its scope so far. *)
Definition is_later (row existing : AttemptRow) : bool :=
  match dt_cmp (xc_created_at row) (xc_created_at existing) with
  | Gt => true
  | Eq => bool_decide (str_cmp (row_id row) (row_id existing) = Gt)
  | Lt => false
  end.

Definition add_latest (latest_by_scope : gmap string AttemptRow) (row : AttemptRow) :
    gmap string AttemptRow :=
  let scope := xr_scope (xc_attempt row) in
  match latest_by_scope !! scope with
  | None => <[scope := row]> latest_by_scope
  | Some existing => if is_later row existing then <[scope := row]> latest_by_scope
                     else latest_by_scope
  end.

Definition latest_of_each_scope (rows : list AttemptRow) : list AttemptRow :=
  btree_values str_cmp (foldl add_latest ∅ (List.filter (row_mode_is Shadow) rows)).

Definition select_latest_attempts_for_scenario (scenario : VerifyScenario)
    (active_routes : list string) : Pool (list AttemptRow) :=
  match scenario with
  | VerifyPaper => mret []
  | VerifyLive =>
      rows ← list_recent_by_mode_for_active_routes Live active_routes
               DEFAULT_RECENT_ATTEMPTS_LIMIT;
      mret (filter_attempts_by_active_routes active_routes rows)
  | VerifyRealUserShadowSmoke =>
      rows ← select_latest_smoke_run_attempts active_routes;
      mret (latest_of_each_scope rows)
  end.

Section evidence.
Context (selection : VerifyWindowSelection) (session_id : option string).
Context (active_routes : list string).

Definition active : list AttemptRow → list AttemptRow :=
  filter_attempts_by_active_routes active_routes.

Definition select_attempts : Pool (list AttemptRow) :=
  match session_id with
  | Some id => rows ← list_by_run_session_id id; mret (active rows)
  | None =>
      match selection with
      | LatestForScenario scenario => select_latest_attempts_for_scenario scenario active_routes
      | ExplicitAttemptId attempt_id =>
          row ← get_by_attempt_id attempt_id; mret (active (option_list row))
      | ExplicitSince since => rows ← list_created_since since; mret (active rows)
      | ExplicitSeqRange _ _ => mret []
      end
  end.

Definition select_observed_live_attempts (attempts : list AttemptRow) : Pool (list AttemptRow) :=
  match session_id, selection with
  | Some _, _ => mret (active (List.filter (row_mode_is Live) attempts))
  | None, LatestForScenario VerifyPaper =>
      list_recent_by_mode_for_active_routes Live active_routes DEFAULT_RECENT_ATTEMPTS_LIMIT
  | None, LatestForScenario VerifyRealUserShadowSmoke =>
      rows ← list_by_mode_with_created_at_for_active_routes Live active_routes;
      mret (active rows)
  | None, _ => mret []
  end.

Definition select_observed_shadow_attempts (attempts : list AttemptRow) :
    Pool (list AttemptRow) :=
  match session_id, selection with
  | Some _, _ => mret (active (List.filter (row_mode_is Shadow) attempts))
  | None, LatestForScenario VerifyLive =>
      rows ← list_recent_by_mode_for_active_routes Shadow active_routes
               DEFAULT_RECENT_ATTEMPTS_LIMIT;
      mret (active rows)
  | None, _ => mret []
  end.

(** An error of the query is no artifact. *)
Definition load_replay_shadow_attempt_artifacts (attempts : list AttemptRow) :
    Pool (list NegRiskShadowAttemptArtifacts) := λ env st,
  match load_negrisk_shadow_attempt_artifacts env st with
  | (st, Err Panicked) => (st, Err Panicked)
  | (st, Err (Fails _)) => (st, Ok [])
  | (st, Ok rows) =>
      (st, Ok (if bool_decide (attempts = []) then
                 match selection with
                 | LatestForScenario VerifyRealUserShadowSmoke => rows
                 | _ => []
                 end
               else
                 List.filter (λ row, bool_decide (xr_attempt_id (aw_attempt row) ∈
                                                  row_id <$> attempts)) rows))
  end.

Definition select_journal : Pool (list JournalEntryRow) :=
  match selection with
  | ExplicitSeqRange from_seq to_seq => journal_list_range from_seq to_seq
  | ExplicitSince since => journal_list_since since
  | _ => mret []
  end.

Definition load_evidence : Pool VerifyEvidenceWindow :=
  attempts ← select_attempts;
  observed_live ← select_observed_live_attempts attempts;
  observed_shadow ← select_observed_shadow_attempts attempts;
  replay ← load_replay_shadow_attempt_artifacts attempts;
  journal ← select_journal;
  let attempt_ids := row_id <$> attempts ++ observed_live ++ observed_shadow in
  shadow_artifacts ← shadow_list_for_attempts attempt_ids;
  live_artifacts ← live_artifact_list_for_attempts attempt_ids;
  live_submissions ← submission_list_for_attempts attempt_ids;
  mret {| ew_attempts := attempts; ew_observed_live_attempts := observed_live;
          ew_observed_shadow_attempts := observed_shadow;
          ew_replay_shadow_attempt_artifacts := replay; ew_journal := journal;
          ew_shadow_artifacts := shadow_artifacts; ew_live_artifacts := live_artifacts;
          ew_live_submissions := live_submissions |}.
End evidence.

Definition route_has_local_evidence (e : VerifyEvidenceWindow) : bool :=
  negb (bool_decide (ew_attempts e = [])) || negb (bool_decide (ew_observed_live_attempts e = [])) ||
  negb (bool_decide (ew_observed_shadow_attempts e = [])) ||
  negb (bool_decide (ew_replay_shadow_attempt_artifacts e = [])) ||
  negb (bool_decide (ew_shadow_artifacts e = [])) ||
  negb (bool_decide (ew_live_artifacts e = ∅)) || negb (bool_decide (ew_live_submissions e = ∅)).

(** A [BTreeSet] of routes, in order. *)
Definition route_set (routes : list string) : list string :=
  sort_by str_cmp (elements (list_to_set routes : gset string)).

Definition routes_with_evidence (e : VerifyEvidenceWindow) (active_routes : list string) :
    list string :=
  List.filter (λ route, route_is_active route active_routes)
    (route_set ((row_route <$> ew_attempts e) ++ (row_route <$> ew_observed_live_attempts e) ++
                (row_route <$> ew_observed_shadow_attempts e) ++
                (xr_route ∘ aw_attempt <$> ew_replay_shadow_attempt_artifacts e))).

Definition routes_to_evaluate (e : VerifyEvidenceWindow) (active_routes : list string) :
    list string :=
  if bool_decide (active_routes = []) then routes_with_evidence e active_routes
  else route_set active_routes.

Definition window_for_route (e : VerifyEvidenceWindow) (route : string) : VerifyEvidenceWindow :=
  let on_route := List.filter (λ row, bool_decide (row_route row = route)) in
  let attempt_ids := row_id <$> on_route (ew_attempts e ++ ew_observed_live_attempts e ++
                                          ew_observed_shadow_attempts e) in
  {| ew_attempts := on_route (ew_attempts e);
     ew_observed_live_attempts := on_route (ew_observed_live_attempts e);
     ew_observed_shadow_attempts := on_route (ew_observed_shadow_attempts e);
     ew_replay_shadow_attempt_artifacts :=
       List.filter (λ row, bool_decide (xr_route (aw_attempt row) = route))
         (ew_replay_shadow_attempt_artifacts e);
     ew_journal := ew_journal e;
     ew_shadow_artifacts :=
       List.filter (λ row, bool_decide (xa_attempt_id row ∈ attempt_ids)) (ew_shadow_artifacts e);
     ew_live_artifacts := filter (λ kv, kv.1 ∈ attempt_ids) (ew_live_artifacts e);
     ew_live_submissions :=
       (List.filter (λ row, bool_decide (lsr_route row = route))) <$>
         filter (λ kv, Exists (λ row, lsr_route row = route) kv.2) (ew_live_submissions e) |}.

(** ** mod.rs *)

(** *** Counts *)

(** The rows of all attempts. *)
Definition row_count {A} (rows : gmap string (list A)) : nat :=
  sum_list (length <$> (map_to_list rows).*2).

Definition live_artifact_count (e : VerifyEvidenceWindow) : nat := row_count (ew_live_artifacts e).
Definition live_submission_count (e : VerifyEvidenceWindow) : nat :=
  row_count (ew_live_submissions e).

(** The attempts of a mode among the selected ones, and all the observed ones. *)
Definition attempt_count (mode : ExecutionMode) (observed selected : list AttemptRow) : nat :=
  size (list_to_set ((row_id <$> observed) ++ (row_id <$> List.filter (row_mode_is mode) selected))
        : gset string).

Definition paper_live_attempt_count (e : VerifyEvidenceWindow) : nat :=
  attempt_count Live (ew_observed_live_attempts e) (ew_attempts e).
Definition smoke_live_attempt_count (e : VerifyEvidenceWindow) : nat :=
  attempt_count Live (ew_observed_live_attempts e) (ew_attempts e).
Definition live_attempt_count (e : VerifyEvidenceWindow) : nat :=
  attempt_count Live [] (ew_attempts e).
Definition live_shadow_attempt_count (e : VerifyEvidenceWindow) : nat :=
  attempt_count Shadow (ew_observed_shadow_attempts e) (ew_attempts e).

Definition replay_ids_with_artifacts (e : VerifyEvidenceWindow) : gset string :=
  list_to_set (xr_attempt_id ∘ aw_attempt <$>
    List.filter (λ row, negb (bool_decide (aw_rows row = [])))
      (ew_replay_shadow_attempt_artifacts e)).

Definition replay_shadow_attempt_count (e : VerifyEvidenceWindow) : nat :=
  size (replay_ids_with_artifacts e).

Definition shadow_attempt_ids (e : VerifyEvidenceWindow) : gset string :=
  list_to_set (row_id <$> List.filter (row_mode_is Shadow) (ew_attempts e)).

Definition shadow_attempts_have_consistent_artifacts (e : VerifyEvidenceWindow) : bool :=
  if bool_decide (shadow_attempt_ids e = ∅) then negb (bool_decide (replay_ids_with_artifacts e = ∅))
  else
    bool_decide (set_Forall (λ id, id ∈ xa_attempt_id <$> ew_shadow_artifacts e ∨
                                   id ∈ replay_ids_with_artifacts e) (shadow_attempt_ids e)).

Definition selected_shadow_attempt_count (e : VerifyEvidenceWindow) : nat :=
  length (List.filter (row_mode_is Shadow) (ew_attempts e)).

Definition live_side_effect_count (e : VerifyEvidenceWindow) : nat :=
  (smoke_live_attempt_count e + live_artifact_count e + live_submission_count e)%nat.

(** *** Next actions *)

Definition map_verify_mode_to_status (mode : option VerifyControlPlaneMode) : option StatusMode :=
  match mode with
  | Some PlanePaper => Some StatusPaper
  | Some PlaneRealUserShadowSmoke => Some StatusRealUserShadowSmoke
  | Some PlaneLive => Some StatusLive
  | None => None
  end.

Definition next_actions_from_context (c : VerifyContext) (fallback : list string) : list string :=
  let actions := (λ action, render_action_template_with_mode action
                    (map_verify_mode_to_status (vc_mode (vx_control_plane c)))) <$> vx_actions c in
  if bool_decide (actions = []) then fallback else actions.

Definition next_actions_with_prefix (c : VerifyContext) (first : string) (fallback : list string) :
    list string :=
  foldl (λ actions action, if bool_decide (action ∈ actions) then actions else actions ++ [action])
    [first] (next_actions_from_context c fallback).

Definition run_status : list string := ["run app-live status --config {config}"].
Definition inspect_attempts : list string :=
  ["inspect the latest local execution attempts before rerunning verify"].
Definition stop_live : list string :=
  ["stop live activity and inspect recent local execution state"].
Definition rerun_verify : string := "rerun verify without an explicit historical window".

(** *** Outcomes *)

Definition Judgement : Type := VerifyVerdict * option string * list string.

Definition shadow_in_live (count : nat) : Judgement :=
  (VerdictFail,
   Some ("contradictory local outcomes: observed " +:+ pretty count +:+
         " shadow attempt(s) in live verification"), inspect_attempts).

Definition live_side_effects (count : nat) : Judgement :=
  (VerdictFail,
   Some ("credible live strategy attempts: observed " +:+ pretty count +:+
         " live side effect(s)"), stop_live).

Definition no_run_evidence (c : VerifyContext) : Judgement :=
  (VerdictFail, Some "no credible run evidence exists", next_actions_from_context c run_status).

Definition evaluate_live_outcome (c : VerifyContext) (e : VerifyEvidenceWindow) : Judgement :=
  let live_evidence_count :=
    (live_attempt_count e + live_artifact_count e + live_submission_count e)%nat in
  if bool_decide (0 < live_shadow_attempt_count e)%nat then
    shadow_in_live (live_shadow_attempt_count e)
  else if bool_decide (live_evidence_count = 0%nat) then
    (VerdictFail,
     Some "contradictory local outcomes: no live results were observed for a live config",
     next_actions_from_context c run_status)
  else
    let plane := vx_control_plane c in
    if bool_decide (vc_rollout_state plane = Some PlaneRolloutReady) &&
       bool_decide (vc_configured_target plane = vc_active_target plane) then
      (VerdictPass,
       Some ("live-config-consistent: " +:+ pretty (live_attempt_count e) +:+
             " live attempt(s) with aligned control-plane state"),
       ["continue normal live operations"])
    else
      (VerdictPassWithWarnings,
       Some ("live results are locally consistent but readiness remains incomplete; " +:+
             "live attempts: " +:+ pretty (live_attempt_count e)),
       next_actions_from_context c run_status).

Definition evaluate_smoke_outcome (c : VerifyContext) (e : VerifyEvidenceWindow) : Judgement :=
  let selected := selected_shadow_attempt_count e in
  let replayed := replay_shadow_attempt_count e in
  if bool_decide (0 < live_side_effect_count e)%nat then live_side_effects (live_side_effect_count e)
  else if negb (bool_decide (0 < selected)%nat || bool_decide (0 < replayed)%nat) then
    no_run_evidence c
  else if shadow_attempts_have_consistent_artifacts e then
    (VerdictPass,
     Some ("shadow smoke evidence is complete; shadow attempts: " +:+
           pretty (if bool_decide (0 < selected)%nat then selected else replayed)),
     next_actions_from_context c run_status)
  else if bool_decide (vc_rollout_state (vx_control_plane c) = Some PlaneRolloutRequired) then
    (VerdictPassWithWarnings, Some "rollout not ready; smoke run produced no shadow work",
     next_actions_from_context c run_status)
  else no_run_evidence c.

Definition evaluate_paper_outcome (c : VerifyContext) (e : VerifyEvidenceWindow) : Judgement :=
  if bool_decide (0 < paper_live_attempt_count e)%nat then
    (VerdictFail,
     Some ("forbidden live side effects: observed " +:+ pretty (paper_live_attempt_count e) +:+
           " live attempt(s)"), stop_live)
  else
    (VerdictPassWithWarnings,
     Some ("paper verification is conservative: no forbidden live side effects were " +:+
           "observed, but basic run evidence is incomplete"),
     next_actions_from_context c run_status).

Definition not_comparable (c : VerifyContext) (anchor : ConfigAnchorComparison) : Judgement :=
  (VerdictPassWithWarnings, ca_reason anchor, next_actions_with_prefix c rerun_verify run_status).

Definition evaluate_noncomparable_historical_outcome (c : VerifyContext)
    (anchor : ConfigAnchorComparison) (e : VerifyEvidenceWindow) : Judgement :=
  match vc_mode (vx_control_plane c) with
  | Some PlanePaper => evaluate_paper_outcome c e
  | Some PlaneRealUserShadowSmoke =>
      if bool_decide (0 < live_side_effect_count e)%nat then
        live_side_effects (live_side_effect_count e)
      else if negb (bool_decide (0 < selected_shadow_attempt_count e)%nat ||
                    negb (bool_decide (ew_replay_shadow_attempt_artifacts e = []))) then
        no_run_evidence c
      else not_comparable c anchor
  | Some PlaneLive =>
      let live_evidence_count :=
        (live_attempt_count e + live_artifact_count e + live_submission_count e)%nat in
      if bool_decide (0 < live_shadow_attempt_count e)%nat then
        shadow_in_live (live_shadow_attempt_count e)
      else if negb (bool_decide (0 < live_evidence_count)%nat ||
                    bool_decide (0 < live_shadow_attempt_count e)%nat ||
                    negb (bool_decide (ew_journal e = []))) then no_run_evidence c
      else not_comparable c anchor
  | None => (VerdictPassWithWarnings, ca_reason anchor, [rerun_verify])
  end.

(** The expectation a mode allows. *)
Definition expected_of (mode : VerifyControlPlaneMode) : VerifyExpectation :=
  match mode with
  | PlanePaper => PaperNoLive
  | PlaneRealUserShadowSmoke => SmokeShadowOnly
  | PlaneLive => LiveConfigConsistent
  end.

Definition incompatible_expectation_outcome (c : VerifyContext) : option (string * list string) :=
  mode ← vc_mode (vx_control_plane c);
  let expected := expected_of mode in
  if bool_decide (vx_expectation c = expected) then None
  else Some ("expectation " +:+ expectation_label (vx_expectation c) +:+
             " is not compatible with " +:+ scenario_label (vx_scenario c) +:+ " verification",
             ["rerun verify with --expect " +:+ expectation_label expected]).

Definition is_legacy_plane (c : VerifyContext) : bool :=
  bool_decide (vc_target_source (vx_control_plane c) = Some PlaneLegacyExplicitTargets).

Definition evaluate_mode_outcome (mode : VerifyControlPlaneMode) (c : VerifyContext)
    (e : VerifyEvidenceWindow) : Judgement :=
  match mode with
  | PlanePaper => evaluate_paper_outcome c e
  | PlaneRealUserShadowSmoke => evaluate_smoke_outcome c e
  | PlaneLive => evaluate_live_outcome c e
  end.

Definition evaluate_foundation_outcome (c : VerifyContext) (anchor : ConfigAnchorComparison)
    (e : VerifyEvidenceWindow) : Judgement :=
  if is_legacy_plane c then
    (VerdictFail,
     Some (default "legacy explicit targets are not supported in verify" (vx_reason c)),
     ["migrate to adopted target source or use lower-level commands"])
  else
    match incompatible_expectation_outcome c with
    | Some (reason, next_actions) => (VerdictFail, Some reason, next_actions)
    | None =>
        if negb (ca_comparable anchor) then evaluate_noncomparable_historical_outcome c anchor e
        else
          match vc_mode (vx_control_plane c) with
          | Some mode => evaluate_mode_outcome mode c e
          | None =>
              (VerdictFail,
               Some (default ("verify verdict rules beyond control-plane foundation are not " +:+
                              "implemented yet") (vx_reason c)),
               run_status)
          end
    end.

(** *** Routes *)

Record RouteVerdictReport := {
  rv_route : string;
  rv_verdict : VerifyVerdict;
  rv_reason : option string;
}.

Definition route_verdict_report (c : VerifyContext) (mode : VerifyControlPlaneMode)
    (e : VerifyEvidenceWindow) (route : string) : option RouteVerdictReport :=
  let route_evidence := window_for_route e route in
  let has_local_evidence := route_has_local_evidence route_evidence in
  if negb has_local_evidence && bool_decide (mode = PlaneRealUserShadowSmoke) then None
  else
    let '(verdict, reason) :=
      if has_local_evidence then (evaluate_mode_outcome mode c route_evidence).1
      else (VerdictPassWithWarnings,
            Some ("no local evidence observed for active route " +:+ route)) in
    Some {| rv_route := route; rv_verdict := verdict; rv_reason := reason |}.

Definition route_verdict_reports (c : VerifyContext) (anchor : ConfigAnchorComparison)
    (e : VerifyEvidenceWindow) : list RouteVerdictReport :=
  if is_legacy_plane c then []
  else if bool_decide (is_Some (incompatible_expectation_outcome c)) then []
  else if negb (ca_comparable anchor) then []
  else
    match vc_mode (vx_control_plane c) with
    | None | Some PlanePaper => []
    | Some mode => omap (route_verdict_report c mode e) (routes_to_evaluate e (vx_active_routes c))
    end.

Definition aggregate_verdicts (verdicts : list VerifyVerdict) : VerifyVerdict :=
  if existsb (λ v, bool_decide (v = VerdictFail)) verdicts then VerdictFail
  else if existsb (λ v, bool_decide (v = VerdictPassWithWarnings)) verdicts
  then VerdictPassWithWarnings
  else VerdictPass.

Definition aggregate_route_verdict (reports : list RouteVerdictReport) : VerifyVerdict :=
  aggregate_verdicts (rv_verdict <$> reports).

Definition verdict_rank (v : VerifyVerdict) : Z :=
  match v with VerdictPass => 0 | VerdictPassWithWarnings => 1 | VerdictFail => 2 end.

(** [iter().find(p)] *)
Definition find_report (verdict : VerifyVerdict) (reports : list RouteVerdictReport) :
    option RouteVerdictReport :=
  List.find (λ r, bool_decide (rv_verdict r = verdict)) reports.

Definition or_option {A} (a b : option A) : option A :=
  match a with Some _ => a | None => b end.

Definition route_summary_reason (reports : list RouteVerdictReport) : option string :=
  let primary_reason :=
    report ← or_option (find_report VerdictFail reports)
               (find_report VerdictPassWithWarnings reports);
    rv_reason report in
  Some ("route verdicts: " +:+
        join ", " ((λ r, rv_route r +:+ "=" +:+ verdict_label (rv_verdict r)) <$> reports) +:+
        match primary_reason with Some reason => "; " +:+ reason | None => "" end).

Definition evaluate_outcome_with_route_reports (c : VerifyContext)
    (anchor : ConfigAnchorComparison) (e : VerifyEvidenceWindow) :
    Judgement * list RouteVerdictReport :=
  let '(foundation_verdict, foundation_reason, foundation_next_actions) :=
    evaluate_foundation_outcome c anchor e in
  let reports := route_verdict_reports c anchor e in
  if bool_decide (reports = []) then
    ((foundation_verdict, foundation_reason, foundation_next_actions), [])
  else
    let route_verdict := aggregate_route_verdict reports in
    let route_reason := route_summary_reason reports in
    let verdict := aggregate_verdicts [foundation_verdict; route_verdict] in
    if bool_decide (verdict_rank foundation_verdict < verdict_rank route_verdict) then
      ((verdict, or_option route_reason foundation_reason,
        next_actions_from_context c run_status), reports)
    else
      ((verdict, or_option foundation_reason route_reason, foundation_next_actions), reports).

(** *** The report *)

Definition verdict_label_upper (v : VerifyVerdict) : string :=
  match v with
  | VerdictPass => "PASS" | VerdictPassWithWarnings => "PASS WITH WARNINGS"
  | VerdictFail => "FAIL"
  end.

Definition context_line (label : string) (value : option string) : list string :=
  match value with Some value => [label +:+ ": " +:+ value] | None => [] end.

Definition bool_text (b : bool) : string := if b then "true" else "false".

Definition replay_evidence_label (c : VerifyContext) (e : VerifyEvidenceWindow) : string :=
  if bool_decide (vc_mode (vx_control_plane c) = Some PlaneRealUserShadowSmoke)
  then "shadow attempts: " +:+ pretty (length (ew_replay_shadow_attempt_artifacts e))
  else pretty (length (ew_shadow_artifacts e) + length (ew_journal e))%nat.

Definition forbidden_attempt_count (c : VerifyContext) (e : VerifyEvidenceWindow) : nat :=
  match vc_mode (vx_control_plane c) with
  | Some PlanePaper => paper_live_attempt_count e
  | Some PlaneRealUserShadowSmoke => smoke_live_attempt_count e
  | Some PlaneLive => live_shadow_attempt_count e
  | None => 0%nat
  end.

Definition with_config (config_path action : string) : string :=
  replace "{config}" (shell_quote config_path) action.

Definition render_context (plane : VerifyControlPlaneContext) : list string :=
  context_line "Mode" (plane_mode_label <$> vc_mode plane) ++
  context_line "Target Source" (plane_target_source_label <$> vc_target_source plane) ++
  context_line "Configured Target" (vc_configured_target plane) ++
  context_line "Active Target" (vc_active_target plane) ++
  context_line "Restart Needed" (bool_text <$> vc_restart_needed plane) ++
  context_line "Rollout State" (plane_rollout_state_label <$> vc_rollout_state plane) ++
  context_line "Run Session" (vc_run_session_id plane) ++
  context_line "Run Session State" (vc_run_session_state plane).

(** The lines [render_foundation_report] prints. *)
Definition foundation_report (c : VerifyContext) (verdict : VerifyVerdict)
    (reason : option string) (next_actions : list string) (e : VerifyEvidenceWindow)
    (reports : list RouteVerdictReport) (config_path : string) : list string :=
  let plane := vx_control_plane c in
  ["Scenario: " +:+ scenario_label (vx_scenario c);
   "Verdict: " +:+ verdict_label_upper verdict;
   "Result Evidence";
   "Attempts: " +:+ pretty (length (ew_attempts e));
   "Artifacts: " +:+ pretty (length (ew_shadow_artifacts e) + live_artifact_count e)%nat;
   "Replay: " +:+ replay_evidence_label c e;
   "Side Effects: " +:+
     pretty (forbidden_attempt_count c e + live_artifact_count e + live_submission_count e)%nat] ++
  (if bool_decide (reports = []) then []
   else "Route Results" ::
        ((λ r, "Route " +:+ rv_route r +:+ ": " +:+ verdict_label_upper (rv_verdict r)) <$> reports))
  ++
  ["Control-Plane Context"; "Expectation: " +:+ expectation_label (vx_expectation c)] ++
  render_context plane ++
  context_line "Reason" reason ++
  "Next Actions" :: ((λ action, "Next: " +:+ with_config config_path action) <$> next_actions).

(** [render_report]: every line ends with a newline. *)
Definition newline : string := String (ascii_of_nat 10) "".
Definition report_lines (lines : list string) : string :=
  foldr (λ line rest, line +:+ newline +:+ rest) "" lines.

Definition render_list (label : string) (values : list string) : list string :=
  (λ value, label +:+ ": " +:+ value) <$> values.

Definition render_evidence (e : VerifyResultEvidence) : list string :=
  render_list "Attempts" (ve_attempts e) ++ render_list "Artifacts" (ve_artifacts e) ++
  render_list "Replay" (ve_replay e) ++ render_list "Side Effects" (ve_side_effects e).

Definition render_report (report : VerifyReport) (config_path : string) : string :=
  report_lines
    (["Scenario"; scenario_label (vr_scenario report);
      "Verdict"; verdict_label (vr_verdict report); "Result Evidence"] ++
     render_evidence (vr_evidence report) ++ ["Control-Plane Context"] ++
     render_context (vr_control_plane_context report) ++ ["Next Actions"] ++
     ((λ action, "Next: " +:+ with_config config_path action) <$> vr_next_actions report)).

(** *** The command *)

Record VerifyArgs := {
  va_config : string;
  va_expect : option string;
  va_from_seq : option Z;
  va_to_seq : option Z;
  va_attempt_id : option string;
  va_since : option string;
}.

Definition session_state_label (session : ResolvedVerifySession)
    (selection : VerifyWindowSelection) : option string :=
  run_session_state_as_str ∘ run_state <$>
    (if is_historical_explicit selection && rvs_historical_window_unique session
     then rvs_historical_window_session session else rvs_relevant_session session).

Definition apply_session_resolution (c : VerifyContext) (selection : VerifyWindowSelection)
    (session : ResolvedVerifySession) : VerifyContext :=
  let selected := selected_session_id session selection in
  c <| vx_control_plane ::= λ plane,
    plane <| vc_run_session_id := selected |>
          <| vc_run_session_state :=
               if bool_decide (is_Some selected) then session_state_label session selection
               else vc_run_session_state plane |> |>.

(** What was printed, and how the command ended. *)
Definition VerifyEnd : Type := list string * result string ().

(** The [async] block: an error of the evidence is a value. *)
Definition load_window (connect : result PersistenceError ()) (file : option string)
    (c : VerifyContext) (selection : VerifyWindowSelection) :
    Pooled string
      (ResolvedVerifySession * result string VerifyEvidenceWindow * ActiveRouteResolution) :=
  _ ← pooled_of (map_err persistence_text connect);
  session ← from_repo persistence_text (resolve_session_window c selection);
  routes ← load_active_routes file selection session;
  evidence ← attempt (from_repo persistence_text
    (load_evidence selection (selected_session_id session selection) (ar_active_routes routes)));
  mret (session, evidence, routes).

Definition verify_unavailable (args : VerifyArgs) (c : VerifyContext) (reason : string)
    (fallback : list string) : VerifyEnd :=
  (foundation_report c VerdictFail (Some reason) (next_actions_from_context c fallback)
     no_evidence [] (va_config args), Err reason).

Definition judged (args : VerifyArgs) (c : VerifyContext) (anchor : ConfigAnchorComparison)
    (e : VerifyEvidenceWindow) : VerifyEnd :=
  let '((verdict, reason, next_actions), reports) :=
    evaluate_outcome_with_route_reports c anchor e in
  (foundation_report c verdict reason next_actions e reports (va_config args),
   if bool_decide (verdict = VerdictFail) then Err (default "verify failed" reason) else Ok ()).

Definition end_of_window (args : VerifyArgs) (c : VerifyContext)
    (selection : VerifyWindowSelection) (session : ResolvedVerifySession)
    (evidence : result string VerifyEvidenceWindow) (routes : ActiveRouteResolution) : VerifyEnd :=
  let c := apply_session_resolution (c <| vx_active_routes := ar_active_routes routes |>)
             selection session in
  let anchor := compare_window_to_current_config_anchor selection session routes in
  match evidence with
  | Ok e => judged args c anchor e
  | Err error =>
      if is_legacy_plane c then judged args c anchor no_evidence
      else
        let failed := "failed to load local verification evidence: " +:+ error in
        verify_unavailable args c
          (match vx_reason c with Some reason => reason +:+ "; " +:+ failed | None => failed end)
          run_status
  end.

(** The context and the window the arguments ask for. *)
Definition verify_request (args : VerifyArgs) (c : VerifyContext) (now : DateTime) :
    result string (VerifyContext * VerifyWindowSelection) :=
  expectation ← match va_expect args with
                | Some value => parse_expectation_override value
                | None => Ok None
                end;
  let c := match expectation with
           | Some expectation => c <| vx_expectation := expectation |>
           | None => c
           end in
  selection ← map_err window_error_text
    (window_from_args (va_from_seq args) (va_to_seq args) (va_attempt_id args) (va_since args)
       (vx_scenario c) now);
  Ok (c, selection).

(** [execute] after the context was loaded. *)
Definition verify_context (connect : result PersistenceError ()) (file : option string)
    (now : DateTime) (args : VerifyArgs) (c : VerifyContext) : Pooled string VerifyEnd :=
  match verify_request args c now with
  | Err error => mret ([], Err error)
  | Ok (c, selection) =>
      loaded ← attempt (load_window connect file c selection);
      mret match loaded with
           | Err error =>
               verify_unavailable args c ("failed to connect to local verification database: " +:+ error)
                 ["run app-live doctor --config {config}"]
           | Ok (session, evidence, routes) =>
               end_of_window args c selection session evidence routes
           end
  end.

Definition verify_execute (connect : result PersistenceError ()) (database_url : bool)
    (stale_after : Duration) (relevant_clock conflicting_clock now : DateTime)
    (file : option string) (args : VerifyArgs) : Pooled string VerifyEnd :=
  summary ← status_evaluate connect database_url stale_after relevant_clock conflicting_clock
              (va_config args) file;
  verify_context connect file now args (from_summary (va_config args) summary).
End verify.
