(* ===== verification/VerifyProofs.v ===== *)
(** * Theorems about the verify command

    A verdict other than a failure is earned by what the window holds, and a verification of
    a smoke run that succeeds excludes live attempts in the database. *)

From S2P Require Import Prelude Text RecordSet Externals Json Domain LiveRecords Discovery.
From S2P Require Import Rows AppConfig Schema RepoJournal RepoExecution RepoSessions Config.
From S2P Require Import Validation ConfigFile Command Startup Targets Migration Status.
From S2P Require Import RepoInvariants RepoHistory RepoControl Reads Replay Verify.
From S2P Require Import ConfigRewrite ConfigProofs ControlProofs.

#[local] Arguments set : simpl never.

(** ** Verdicts *)

Lemma existsb_verdict (v : VerifyVerdict) vs :
  existsb (λ w, bool_decide (w = v)) vs = true ↔ v ∈ vs.
Proof.
  rewrite existsb_exists. split.
  - intros (w & Hw & ->%bool_decide_eq_true). by apply list_elem_of_In.
  - intros Hv. exists v. split; [by apply list_elem_of_In|by apply bool_decide_eq_true].
Qed.

Lemma aggregate_Fail vs : aggregate_verdicts vs = VerdictFail ↔ VerdictFail ∈ vs.
Proof.
  unfold aggregate_verdicts. rewrite <- existsb_verdict.
  destruct (existsb _ vs); [done|]. by destruct (existsb _ vs).
Qed.

Lemma aggregate_Pass vs : aggregate_verdicts vs = VerdictPass ↔ ∀ v, v ∈ vs → v = VerdictPass.
Proof.
  unfold aggregate_verdicts.
  destruct (existsb (λ w, bool_decide (w = VerdictFail)) vs) eqn:Ef.
  { split; [done|]. apply existsb_verdict in Ef. intros Hall. by apply Hall in Ef. }
  destruct (existsb (λ w, bool_decide (w = VerdictPassWithWarnings)) vs) eqn:Ew.
  { split; [done|]. apply existsb_verdict in Ew. intros Hall. by apply Hall in Ew. }
  split; [|done]. intros _ [] Hv; [done| |]; apply existsb_verdict in Hv; congruence.
Qed.

Section verdicts.
Context {X : Externals} {J : JsonOps}.

Lemma attempt_count_0 mode observed selected :
  attempt_count mode observed selected = 0%nat →
  observed = [] ∧ Forall (λ row, xr_execution_mode (xc_attempt row) ≠ mode) selected.
Proof.
  unfold attempt_count. intros Hs%size_empty_inv.
  assert (∀ id, id ∈ (row_id <$> observed) ++ (row_id <$> List.filter (row_mode_is mode) selected) →
          False) as Hn.
  { intros id Hid. apply (not_elem_of_empty (C := gset string) id). rewrite <- Hs.
    by apply elem_of_list_to_set. }
  split.
  - destruct observed as [|row observed]; [done|]. destruct (Hn (row_id row)). by left.
  - apply Forall_forall. intros row Hrow Em. apply (Hn (row_id row)), elem_of_app. right.
    apply list_elem_of_fmap_2, list_elem_of_In, filter_In.
    split; [by apply list_elem_of_In|by apply bool_decide_eq_true].
Qed.

Lemma row_count_0 {A} (rows : gmap string (list A)) :
  row_count rows = 0%nat → map_Forall (λ _ l, l = []) rows.
Proof.
  unfold row_count. intros Hs k l Hk.
  assert (l ∈ (map_to_list rows).*2) as Hin.
  { apply list_elem_of_fmap. exists (k, l). split; [done|]. by apply elem_of_map_to_list. }
  clear Hk. induction (map_to_list rows).*2 as [|l' ls IH]; [by apply elem_of_nil in Hin|].
  change (length l' + sum_list (length <$> ls) = 0)%nat in Hs.
  apply elem_of_cons in Hin as [->|Hin]; [|apply IH; [lia|done]].
  destruct l'; [done|simpl in Hs; lia].
Qed.

(** What must not be in the window of a mode. *)
Definition window_clean (mode : VerifyControlPlaneMode) (e : VerifyEvidenceWindow) : Prop :=
  match mode with
  | PlaneLive =>
      ew_observed_shadow_attempts e = [] ∧
      Forall (λ row, xr_execution_mode (xc_attempt row) ≠ Shadow) (ew_attempts e)
  | PlanePaper =>
      ew_observed_live_attempts e = [] ∧
      Forall (λ row, xr_execution_mode (xc_attempt row) ≠ Live) (ew_attempts e)
  | PlaneRealUserShadowSmoke =>
      ew_observed_live_attempts e = [] ∧
      Forall (λ row, xr_execution_mode (xc_attempt row) ≠ Live) (ew_attempts e) ∧
      map_Forall (λ _ l, l = []) (ew_live_artifacts e) ∧
      map_Forall (λ _ l, l = []) (ew_live_submissions e)
  end.

(** What must be in it for a mode to pass without a warning. *)
Definition live_evidence (e : VerifyEvidenceWindow) : Prop :=
  (0 < live_attempt_count e + live_artifact_count e + live_submission_count e)%nat.

Definition window_complete (mode : VerifyControlPlaneMode) (c : VerifyContext)
    (e : VerifyEvidenceWindow) : Prop :=
  match mode with
  | PlanePaper => False
  | PlaneLive =>
      live_evidence e ∧
      vc_rollout_state (vx_control_plane c) = Some PlaneRolloutReady ∧
      vc_configured_target (vx_control_plane c) = vc_active_target (vx_control_plane c)
  | PlaneRealUserShadowSmoke =>
      (0 < selected_shadow_attempt_count e ∨ 0 < replay_shadow_attempt_count e)%nat ∧
      ∀ id, id ∈ shadow_attempt_ids e →
        id ∈ xa_attempt_id <$> ew_shadow_artifacts e ∨ id ∈ replay_ids_with_artifacts e
  end.

Lemma paper_outcome c e :
  (evaluate_paper_outcome c e).1.1 ≠ VerdictFail →
  window_clean PlanePaper e ∧ (evaluate_paper_outcome c e).1.1 ≠ VerdictPass.
Proof.
  unfold evaluate_paper_outcome. case_bool_decide as Hn; [done|]. intros _. split; [|done].
  apply attempt_count_0. unfold paper_live_attempt_count in Hn. lia.
Qed.

Lemma live_outcome c e :
  (evaluate_live_outcome c e).1.1 ≠ VerdictFail →
  window_clean PlaneLive e ∧
  ((evaluate_live_outcome c e).1.1 = VerdictPass → window_complete PlaneLive c e).
Proof.
  unfold evaluate_live_outcome. case_bool_decide as Hs; [done|].
  case_bool_decide as Hl; [done|]. intros _. split.
  - apply attempt_count_0. unfold live_shadow_attempt_count in Hs. lia.
  - case_match eqn:Ha; [|done]. intros _. apply andb_true_iff in Ha as [Hr Ht].
    apply bool_decide_eq_true in Hr, Ht. split_and!; [|done|done]. unfold live_evidence. lia.
Qed.

Lemma side_effects_clean e :
  live_side_effect_count e = 0%nat → window_clean PlaneRealUserShadowSmoke e.
Proof.
  unfold live_side_effect_count, smoke_live_attempt_count. intros Hn.
  destruct (attempt_count_0 Live (ew_observed_live_attempts e) (ew_attempts e)); [lia|].
  split_and!; [done|done|apply row_count_0|apply row_count_0];
    unfold live_artifact_count, live_submission_count in Hn; lia.
Qed.

Lemma smoke_outcome c e :
  (evaluate_smoke_outcome c e).1.1 ≠ VerdictFail →
  window_clean PlaneRealUserShadowSmoke e ∧
  ((evaluate_smoke_outcome c e).1.1 = VerdictPass → window_complete PlaneRealUserShadowSmoke c e).
Proof.
  unfold evaluate_smoke_outcome. case_bool_decide as Hl; [done|].
  destruct (negb _) eqn:Hr; [done|]. intros Hf. split; [apply side_effects_clean; lia|].
  destruct (shadow_attempts_have_consistent_artifacts e) eqn:Hc; [|by case_bool_decide].
  clear Hf. intros _. split.
  - apply negb_false_iff, orb_true_iff in Hr. by rewrite !bool_decide_eq_true in Hr.
  - unfold shadow_attempts_have_consistent_artifacts in Hc. case_bool_decide as He.
    + rewrite He. intros id Hid. by apply elem_of_empty in Hid.
    + by apply bool_decide_eq_true in Hc.
Qed.

Lemma mode_outcome mode c e :
  (evaluate_mode_outcome mode c e).1.1 ≠ VerdictFail →
  window_clean mode e ∧
  ((evaluate_mode_outcome mode c e).1.1 = VerdictPass → window_complete mode c e).
Proof.
  destruct mode; simpl.
  - intros Hf. destruct (paper_outcome c e Hf). by split.
  - apply live_outcome.
  - apply smoke_outcome.
Qed.

Lemma noncomparable_outcome c anchor e mode :
  vc_mode (vx_control_plane c) = Some mode →
  (evaluate_noncomparable_historical_outcome c anchor e).1.1 ≠ VerdictFail →
  window_clean mode e ∧ (evaluate_noncomparable_historical_outcome c anchor e).1.1 ≠ VerdictPass.
Proof.
  unfold evaluate_noncomparable_historical_outcome. intros ->. destruct mode.
  - apply paper_outcome.
  - case_bool_decide as Hs; [done|]. destruct (negb _); [done|]. intros _. split; [|done].
    apply attempt_count_0. unfold live_shadow_attempt_count in Hs. lia.
  - case_bool_decide as Hl; [done|]. destruct (negb _); [done|]. intros _. split; [|done].
    apply side_effects_clean. lia.
Qed.

(** *** The verdict of the whole window *)

Lemma expectation_of c mode :
  vc_mode (vx_control_plane c) = Some mode → incompatible_expectation_outcome c = None →
  vx_expectation c = expected_of mode.
Proof.
  unfold incompatible_expectation_outcome. intros ->. simpl. by case_bool_decide.
Qed.

Lemma foundation_outcome c anchor e :
  (evaluate_foundation_outcome c anchor e).1.1 ≠ VerdictFail →
  is_legacy_plane c = false ∧ incompatible_expectation_outcome c = None ∧
  (∀ mode, vc_mode (vx_control_plane c) = Some mode → window_clean mode e) ∧
  ((evaluate_foundation_outcome c anchor e).1.1 = VerdictPass →
   ca_comparable anchor = true ∧
   ∃ mode, vc_mode (vx_control_plane c) = Some mode ∧ window_complete mode c e).
Proof.
  unfold evaluate_foundation_outcome. destruct (is_legacy_plane c); [done|].
  destruct (incompatible_expectation_outcome c) as [[reason actions]|]; [done|].
  destruct (ca_comparable anchor); simpl.
  - destruct (vc_mode (vx_control_plane c)) as [mode|]; [|done]. intros Hf.
    destruct (mode_outcome mode c e Hf) as [Hc Hp]. split_and!; [done|done|by intros ? [= <-]|].
    intros Hv. split; [done|]. exists mode. split; [done|]. by apply Hp.
  - intros Hf. split_and!; [done|done| |].
    + intros mode Hm. by apply (noncomparable_outcome c anchor e mode Hm).
    + intros Hv. destruct (vc_mode (vx_control_plane c)) as [mode|] eqn:Hm.
      * by destruct (noncomparable_outcome c anchor e mode Hm Hf).
      * unfold evaluate_noncomparable_historical_outcome in Hv. by rewrite Hm in Hv.
Qed.

Lemma whole_verdict c anchor e :
  let f := (evaluate_foundation_outcome c anchor e).1.1 in
  let reports := route_verdict_reports c anchor e in
  let v := (evaluate_outcome_with_route_reports c anchor e).1.1.1 in
  (v ≠ VerdictFail → f ≠ VerdictFail) ∧
  (v = VerdictPass → f = VerdictPass ∧ ∀ r, r ∈ reports → rv_verdict r = VerdictPass).
Proof.
  unfold evaluate_outcome_with_route_reports.
  destruct (evaluate_foundation_outcome c anchor e) as [[f fr] fa]. simpl.
  case_bool_decide as Hr.
  { simpl. split; [done|]. intros ->. split; [done|]. rewrite Hr. by intros r ?%elem_of_nil. }
  case_bool_decide; simpl; (split;
    [intros Hv ->; apply Hv, aggregate_Fail; by left
    |intros Hv; rewrite aggregate_Pass in Hv; split; [apply Hv; by left|];
     intros r Hin; assert (aggregate_route_verdict (route_verdict_reports c anchor e) = VerdictPass) as Ha
       by (apply Hv; right; by left);
     unfold aggregate_route_verdict in Ha; rewrite aggregate_Pass in Ha; apply Ha;
     by apply list_elem_of_fmap_2]).
Qed.

Lemma route_complete c anchor e mode route :
  is_legacy_plane c = false → incompatible_expectation_outcome c = None →
  ca_comparable anchor = true → vc_mode (vx_control_plane c) = Some mode → mode ≠ PlanePaper →
  (∀ r, r ∈ route_verdict_reports c anchor e → rv_verdict r = VerdictPass) →
  route ∈ vx_active_routes c →
  mode = PlaneLive ∨ route_has_local_evidence (window_for_route e route) = true →
  window_complete mode c (window_for_route e route).
Proof.
  intros Hl Hi Hc Hm Hp Hr Hin Hor.
  assert (∀ r, route_verdict_report c mode e route = Some r → rv_verdict r = VerdictPass) as Hv.
  { intros r E1. apply Hr. unfold route_verdict_reports. rewrite Hl, Hi, Hc, Hm. simpl.
    assert (r ∈ omap (route_verdict_report c mode e) (routes_to_evaluate e (vx_active_routes c)))
      as Hmem; [|by destruct mode].
    apply list_elem_of_omap. exists route. split; [|done]. unfold routes_to_evaluate.
    rewrite bool_decide_eq_false_2 by (intros E2; rewrite E2 in Hin; by apply elem_of_nil in Hin).
    unfold route_set. by rewrite elem_of_sort_by, elem_of_elements, elem_of_list_to_set. }
  unfold route_verdict_report in Hv.
  destruct (route_has_local_evidence (window_for_route e route)); simpl in Hv.
  - destruct (evaluate_mode_outcome mode c (window_for_route e route)) as [[v reason] actions] eqn:E1.
    specialize (Hv _ eq_refl). simpl in Hv. subst v.
    pose proof (mode_outcome mode c (window_for_route e route)) as Ho. rewrite E1 in Ho.
    by apply Ho.
  - destruct Hor as [->|]; [|done]. simpl in Hv. by specialize (Hv _ eq_refl).
Qed.

End verdicts.

(** ** What a successful verification of a smoke run says of the database *)

Section smoke.
Context {X : Externals} {J : JsonOps} {P : PgOps} {U : UrlOps} {D : SerdeOps} {T : TomlOps}.
Context {E : ErrorText} {C : ChronoOps}.

(** *** The command only reads *)

Lemma reads_attempts_where p limit : reads (attempts_where p limit).
Proof.
  unfold attempts_where. apply reads_pool_bind; [|reading]. apply reads_stmt. intros now db.
  unfold mbind, tx_bind, query, limited. destruct limit; simpl; [by case_bool_decide|done].
Qed.

Lemma reads_session_get id : reads (session_get id).
Proof. unfold session_get, opt_row. reading. Qed.

Lemma reads_resolve_session c selection : reads (resolve_session_window c selection).
Proof.
  unfold resolve_session_window, resolve_unique_for_attempt_id, resolve_unique_for_since,
    resolve_unique_for_seq_range, list_created_since, journal_list_range, journal_list_since, opt_row.
  pose proof reads_session_get. pose proof reads_attempts_where. reading.
Qed.

Lemma reads_attempt {F G A} (m : Pooled F A) : reads m → reads (attempt m : Pooled G (result F A)).
Proof.
  intros Hm now db. destruct (Hm now db) as [r Hr].
  exists (match r with Ok a => Ok (Ok a) | Err (Halted e) => Ok (Err e)
          | Err HaltPanicked => Err HaltPanicked end).
  intros n. destruct (Hr n) as [n' E1]. exists n'. unfold attempt. rewrite E1. by destruct r as [|[]].
Qed.

Lemma attempt_Ok {F G A} (m : Pooled F A) now db a :
  reads m → runs (attempt m : Pooled G (result F A)) now db db (Ok (Ok a)) → runs m now db db (Ok a).
Proof.
  intros Hm Hr. destruct (Hm now db) as [r H1]. destruct (Hr 0%nat) as [n E1].
  destruct (H1 0%nat) as [n' E2]. unfold attempt in E1. rewrite E2 in E1.
  destruct r as [|[]]; simplify_eq/=. done.
Qed.

Lemma reads_resolve_adopted revision :
  reads (resolve_adopted_targets_from_operator_target_revision revision).
Proof.
  unfold resolve_adopted_targets_from_operator_target_revision, get_by_operator_target_revision,
    get_adoptable_target_revision. reading.
Qed.

Lemma reads_resolve_strategy revision : reads (resolve_adopted_strategy_revision revision).
Proof.
  unfold resolve_adopted_strategy_revision, get_by_operator_strategy_revision,
    get_by_operator_target_revision, get_adoptable_strategy_revision. reading.
Qed.

Lemma reads_routes file selection session : reads (load_active_routes file selection session).
Proof.
  unfold load_active_routes, historical_routes, current_routes, resolve_startup_strategy_revision,
    resolve_route_artifacts_for_operator_target_revision,
    resolve_route_artifacts_for_operator_strategy_revision.
  pose proof reads_resolve_adopted. pose proof reads_resolve_strategy.
  do 3 (reading; try apply reads_attempt).
Qed.

Lemma reads_rows_of_routes f routes :
  (∀ route, reads (f route)) → reads (rows_of_routes f routes).
Proof. intros Hf. induction routes; simpl; reading. Qed.

Lemma reads_live_of_routes mode routes :
  reads (list_by_mode_with_created_at_for_active_routes mode routes).
Proof.
  unfold list_by_mode_with_created_at_for_active_routes, list_by_mode_with_created_at,
    list_by_mode_with_created_at_and_route. pose proof reads_attempts_where.
  reading; apply reads_rows_of_routes; reading.
Qed.

Lemma reads_recent_of_routes mode routes limit :
  reads (list_recent_by_mode_for_active_routes mode routes limit).
Proof.
  unfold list_recent_by_mode_for_active_routes, list_recent_by_mode,
    list_recent_by_mode_and_route. pose proof reads_attempts_where.
  reading; apply reads_rows_of_routes; reading.
Qed.

Lemma reads_select_attempts selection session_id routes :
  reads (select_attempts selection session_id routes).
Proof.
  unfold select_attempts, select_latest_attempts_for_scenario, select_latest_smoke_run_attempts,
    get_by_attempt_id, list_by_run_session_id, list_by_snapshot_id, list_created_since.
  pose proof reads_attempts_where. pose proof reads_recent_of_routes. reading.
Qed.

Lemma reads_observed_live selection session_id routes attempts :
  reads (select_observed_live_attempts selection session_id routes attempts).
Proof.
  unfold select_observed_live_attempts. pose proof reads_recent_of_routes.
  pose proof reads_live_of_routes. reading.
Qed.

Lemma reads_observed_shadow selection session_id routes attempts :
  reads (select_observed_shadow_attempts selection session_id routes attempts).
Proof. unfold select_observed_shadow_attempts. pose proof reads_recent_of_routes. reading. Qed.

Lemma reads_replay selection attempts : reads (load_replay_shadow_attempt_artifacts selection attempts).
Proof.
  assert (reads load_negrisk_shadow_attempt_artifacts) as Hm.
  { unfold load_negrisk_shadow_attempt_artifacts, list_shadow_attempts, list_attempts_by_mode,
      shadow_list_for_attempts. reading. by apply reads_stmt. }
  intros now db. destruct (Hm now db) as [r Hr]. unfold load_replay_shadow_attempt_artifacts.
  eexists. intros n. destruct (Hr n) as [n' E1]. exists n'. rewrite E1.
  instantiate (1 := match r with
    | Ok rows => Ok _ | Err Panicked => Err Panicked | Err (Fails _) => Ok [] end).
  by destruct r as [|[]].
Qed.

Lemma reads_evidence selection session_id routes : reads (load_evidence selection session_id routes).
Proof.
  unfold load_evidence, select_journal, journal_list_range, journal_list_since,
    shadow_list_for_attempts, live_artifact_list_for_attempts, submission_list_for_attempts,
    submissions_where.
  pose proof reads_select_attempts. pose proof reads_observed_live. pose proof reads_observed_shadow.
  pose proof reads_replay. reading.
Qed.

(** *** The rows of a query *)

Lemma attempts_where_rows p now db rows id cols :
  runs (attempts_where p None) now db db (Ok rows) →
  db_execution_attempts db !! id = Some cols → p cols = true →
  ∃ row, row ∈ rows ∧ map_execution_attempt_with_created_at_row (id, cols) = Ok row.
Proof.
  intros Hr Hid Hp. destruct (Hr 0%nat) as [n E1]. unfold attempts_where in E1.
  unfold mbind, pool_bind, stmt, pool_of in E1. simpl in E1.
  destruct (collect_results _ _) as [rows'|] eqn:Ec; simpl in E1; [|done].
  injection E1 as _ <-. apply collect_results_Ok in Ec.
  assert ((id, cols) ∈ select (db_execution_attempts db) (λ _, p) (desc attempt_order)) as Hin
    by (by apply elem_of_select).
  apply list_elem_of_lookup in Hin as [i Hi].
  destruct (Forall2_lookup_l _ _ _ _ _ Ec Hi) as (row & Hrow & Em).
  exists row. split; [by eapply list_elem_of_lookup_2|done].
Qed.

Lemma attempt_row_of id cols row :
  map_execution_attempt_with_created_at_row (id, cols) = Ok row →
  at_execution_mode cols = execution_mode_to_str Live →
  row_id row = id ∧ row_route row = at_route cols ∧ xr_execution_mode (xc_attempt row) = Live.
Proof.
  unfold map_execution_attempt_with_created_at_row, map_execution_attempt_row. simpl.
  intros Hm E1. rewrite E1 in Hm. simpl in Hm. by simplify_eq/=.
Qed.

Lemma in_active routes row rows :
  row ∈ rows → route_is_active (row_route row) routes = true → row ∈ active routes rows.
Proof.
  intros Hin Hr. apply list_elem_of_In, filter_In. split; [by apply list_elem_of_In|done].
Qed.

Lemma first_of_each_sub seen rows row : row ∈ first_of_each seen rows → row ∈ rows.
Proof.
  revert seen. induction rows as [|r rows IH]; intros seen; simpl; [done|].
  case_bool_decide; [right; by eapply IH|].
  intros [->|Hin]%elem_of_cons; [by left|right; by eapply IH].
Qed.

Lemma first_of_each_nonempty rows row :
  row ∈ rows → ∃ row', row' ∈ first_of_each ∅ rows ∧ row' ∈ rows.
Proof.
  destruct rows as [|r rows]; [by intros ?%elem_of_nil|]. intros _. exists r.
  split; [|by left]. simpl. rewrite bool_decide_eq_false_2; [by left|apply not_elem_of_empty].
Qed.

Lemma sort_and_dedup_nonempty rows row :
  row ∈ rows → ∃ row', row' ∈ sort_and_dedup_attempts rows ∧ row' ∈ rows.
Proof.
  intros Hin. unfold sort_and_dedup_attempts. setoid_rewrite <- (elem_of_sort_by (λ left right,
    then_with (dt_cmp (xc_created_at right) (xc_created_at left))
              (str_cmp (row_id right) (row_id left)))) in Hin.
  destruct (first_of_each_nonempty _ _ Hin) as (row' & Hd & Hin'). exists row'.
  split; [done|]. by apply elem_of_sort_by in Hin'.
Qed.

(** Rows of a route that is asked for. *)
Lemma rows_of_routes_in f routes route now db rows fr row :
  (∀ route, reads (f route)) → runs (rows_of_routes f routes) now db db (Ok rows) →
  route ∈ routes → runs (f route) now db db (Ok fr) → row ∈ fr → row ∈ rows.
Proof.
  intros Hf. revert rows. induction routes as [|r routes IH]; intros rows Hr Hin Hfr Hrow;
    [by apply elem_of_nil in Hin|].
  simpl in Hr. apply runs_pool_bind_inv in Hr as (rows1 & H1 & Hr);
    [|done|intros; apply reads_pool_bind; [by apply reads_rows_of_routes|reading]].
  apply runs_pool_bind_inv in Hr as (rest & H2 & Hr); [|by apply reads_rows_of_routes|reading].
  destruct (runs_det _ _ _ _ _ _ _ Hr (runs_ret (rows1 ++ rest) now db)) as [_ [= ->]].
  apply elem_of_app. apply elem_of_cons in Hin as [->|Hin].
  - destruct (runs_det _ _ _ _ _ _ _ H1 Hfr) as [_ [= ->]]. by left.
  - right. by apply (IH rest H2).
Qed.

Lemma rows_of_routes_fails f routes route now db rows e :
  (∀ route, reads (f route)) → runs (rows_of_routes f routes) now db db (Ok rows) →
  route ∈ routes → runs (f route) now db db (Err e) → False.
Proof.
  intros Hf. revert rows. induction routes as [|r routes IH]; intros rows Hr Hin Hfr;
    [by apply elem_of_nil in Hin|].
  simpl in Hr. apply runs_pool_bind_inv in Hr as (rows1 & H1 & Hr);
    [|done|intros; apply reads_pool_bind; [by apply reads_rows_of_routes|reading]].
  apply runs_pool_bind_inv in Hr as (rest & H2 & Hr); [|by apply reads_rows_of_routes|reading].
  apply elem_of_cons in Hin as [->|Hin].
  - by destruct (runs_det _ _ _ _ _ _ _ H1 Hfr).
  - by apply (IH rest H2).
Qed.

Lemma rows_of_routes_routes f routes now db rows :
  (∀ route, reads (f route)) →
  (∀ route fr row, runs (f route) now db db (Ok fr) → row ∈ fr → row_route row = route) →
  runs (rows_of_routes f routes) now db db (Ok rows) →
  ∀ row, row ∈ rows → row_route row ∈ routes.
Proof.
  intros Hf Hroute. revert rows. induction routes as [|r routes IH]; intros rows Hr row Hrow; simpl in Hr.
  - destruct (runs_det _ _ _ _ _ _ _ Hr (runs_ret [] now db)) as [_ [= ->]].
    by apply elem_of_nil in Hrow.
  - apply runs_pool_bind_inv in Hr as (rows1 & H1 & Hr);
      [|done|intros; apply reads_pool_bind; [by apply reads_rows_of_routes|reading]].
    apply runs_pool_bind_inv in Hr as (rest & H2 & Hr); [|by apply reads_rows_of_routes|reading].
    destruct (runs_det _ _ _ _ _ _ _ Hr (runs_ret (rows1 ++ rest) now db)) as [_ [= ->]].
    apply elem_of_app in Hrow as [Hrow|Hrow].
    + rewrite (Hroute r rows1 row H1 Hrow). by left.
    + right. by apply (IH rest H2).
Qed.

Lemma attempts_where_sound p now db rows row :
  runs (attempts_where p None) now db db (Ok rows) → row ∈ rows →
  ∃ id cols, db_execution_attempts db !! id = Some cols ∧ p cols = true ∧
    row_route row = at_route cols.
Proof.
  intros Hr Hin. destruct (Hr 0%nat) as [n E1]. unfold attempts_where in E1.
  unfold mbind, pool_bind, stmt, pool_of in E1. simpl in E1.
  destruct (collect_results _ _) as [rows'|] eqn:Ec; simpl in E1; [|done].
  injection E1 as _ <-. apply collect_results_Ok in Ec.
  apply list_elem_of_lookup in Hin as [i Hi].
  destruct (Forall2_lookup_r _ _ _ _ _ Ec Hi) as ([id cols] & Hc & Em).
  apply list_elem_of_lookup_2, elem_of_select in Hc as [Hid Hp].
  exists id, cols. split_and!; [done|done|].
  unfold map_execution_attempt_with_created_at_row, map_execution_attempt_row in Em. simpl in Em.
  by destruct (execution_mode_from_str _); simplify_eq/=.
Qed.

Lemma route_of_active route routes :
  route_is_active route routes = true → routes ≠ [] → route ∈ routes.
Proof.
  unfold route_is_active. intros [Hr|Hr]%orb_true_iff Hne; apply bool_decide_eq_true in Hr; done.
Qed.

(** A live attempt on an active route is observed by a smoke verification. *)
Lemma observed_live_of_smoke routes attempts now db observed id cols :
  runs (select_observed_live_attempts (LatestForScenario VerifyRealUserShadowSmoke) None routes
          attempts) now db db (Ok observed) →
  db_execution_attempts db !! id = Some cols →
  at_execution_mode cols = execution_mode_to_str Live →
  route_is_active (at_route cols) routes = true → observed ≠ [].
Proof.
  simpl. intros Hr Hid Hm Hact. assert (mode_is Live cols = true) as Hlive
    by (by apply bool_decide_eq_true).
  apply runs_pool_bind_inv in Hr as (rows & H1 & Hr); [|apply reads_live_of_routes|reading].
  destruct (runs_det _ _ _ _ _ _ _ Hr (runs_ret (active routes rows) now db)) as [_ [= ->]].
  clear Hr. unfold list_by_mode_with_created_at_for_active_routes in H1. case_bool_decide as Hnil.
  - subst routes. destruct (attempts_where_rows _ _ _ _ _ _ H1 Hid Hlive) as (row & Hrow & Em).
    apply (in_active [] row) in Hrow; [|done]. intros E1. rewrite E1 in Hrow.
    by apply elem_of_nil in Hrow.
  - set (f := list_by_mode_with_created_at_and_route Live) in H1.
    assert (∀ route, reads (f route)) as Hf by (intros; apply reads_attempts_where).
    apply runs_pool_bind_inv in H1 as (all & H2 & H1); [|by apply reads_rows_of_routes|reading].
    destruct (runs_det _ _ _ _ _ _ _ H1 (runs_ret (sort_and_dedup_attempts all) now db))
      as [_ [= ->]]. clear H1.
    assert (∃ row, row ∈ all) as [row Hrow].
    { destruct (Hf (at_route cols) now db) as [[fr|e] Hfr].
      - destruct (attempts_where_rows _ _ _ _ id cols Hfr Hid) as (row & Hrow & _).
        { by rewrite Hlive, bool_decide_eq_true_2. }
        exists row. apply (rows_of_routes_in f routes (at_route cols) now db all fr); [done..| |done|done].
        by apply route_of_active.
      - exfalso. apply (rows_of_routes_fails f routes (at_route cols) now db all e); [done|done| |done].
        by apply route_of_active. }
    destruct (sort_and_dedup_nonempty all row Hrow) as (row' & Hd & Hall).
    assert (row_route row' ∈ routes) as Hroute.
    { apply (rows_of_routes_routes f routes now db all); [done| |done|done].
      intros route fr r Hfr Hin. destruct (attempts_where_sound _ _ _ _ _ Hfr Hin)
        as (id' & cols' & _ & Hp & Er). apply andb_true_iff in Hp as [_ Hp].
      by rewrite Er; apply bool_decide_eq_true in Hp. }
    apply (in_active routes row') in Hd.
    + intros E1. rewrite E1 in Hd. by apply elem_of_nil in Hd.
    + unfold route_is_active. rewrite (bool_decide_eq_true_2 (row_route row' ∈ routes)) by done.
      apply orb_true_r.
Qed.

(** *** The attempts in the window *)

(** Whether an attempt is in the window: an attempt of the selected session, or of the
    window the arguments name. *)
Definition in_window (selection : VerifyWindowSelection) (session_id : option string)
    (id : string) (cols : AttemptColumns) : Prop :=
  match session_id, selection with
  | Some session_id, _ => at_run_session_id cols = Some session_id
  | None, LatestForScenario _ => True
  | None, ExplicitAttemptId attempt_id => id = attempt_id
  | None, ExplicitSince since => dt_leb (pg_time since) (at_created_at cols) = true
  | None, ExplicitSeqRange _ _ => False
  end.

Lemma attempt_selected selection session_id routes now db attempts id cols :
  runs (select_attempts selection session_id routes) now db db (Ok attempts) →
  (session_id = None → ∀ scenario, selection ≠ LatestForScenario scenario) →
  db_execution_attempts db !! id = Some cols → route_is_active (at_route cols) routes = true →
  at_execution_mode cols = execution_mode_to_str Live → in_window selection session_id id cols →
  ∃ row, row ∈ attempts ∧ xr_execution_mode (xc_attempt row) = Live.
Proof.
  intros Hr Hs Hid Ha Hm Hw.
  assert (∀ p rows, runs (attempts_where p None) now db db (Ok rows) → p cols = true →
    runs (mret (active routes rows) : Pool _) now db db (Ok attempts) →
    ∃ row, row ∈ attempts ∧ xr_execution_mode (xc_attempt row) = Live) as Hall.
  { intros p rows H1 Hp H2.
    destruct (runs_det _ _ _ _ _ _ _ H2 (runs_ret (active routes rows) now db)) as [_ [= ->]].
    destruct (attempts_where_rows p now db rows id cols H1 Hid Hp) as (row & Hrow & Em).
    destruct (attempt_row_of id cols row Em Hm) as (_ & Er & El).
    exists row. split; [apply in_active; [done|by rewrite Er]|done]. }
  unfold select_attempts in Hr. destruct session_id as [sid|].
  - apply runs_pool_bind_inv in Hr as (rows & H1 & H2); [|apply reads_attempts_where|reading].
    apply (Hall _ _ H1); [by apply bool_decide_eq_true_2|done].
  - destruct selection as [scenario|attempt_id|from_ to_|since]; simpl in Hw.
    + by destruct (Hs eq_refl scenario).
    + subst attempt_id.
      apply runs_pool_bind_inv in Hr as (row & H1 & H2); [|unfold get_by_attempt_id; reading|reading].
      destruct (runs_det _ _ _ _ _ _ _ H2 (runs_ret (active routes (option_list row)) now db))
        as [_ [= ->]].
      unfold get_by_attempt_id in H1.
      apply runs_pool_bind_inv in H1 as (found & H3 & H1); [|reading..].
      destruct (runs_det _ _ _ _ _ _ _ H3
        (runs_query (λ db, db_execution_attempts db !! id) now db)) as [_ [= ->]].
      rewrite Hid in H1. apply runs_pool_bind_inv in H1 as (r & H4 & H1); [|reading..].
      destruct (runs_det _ _ _ _ _ _ _ H1 (runs_ret (Some r) now db)) as [_ [= ->]].
      destruct (H4 0%nat) as [n E4]. unfold pool_of in E4.
      destruct (map_execution_attempt_with_created_at_row (id, cols)) as [r'|] eqn:Em; [|done].
      simpl in E4. injection E4 as _ ->. destruct (attempt_row_of id cols r Em Hm) as (_ & Er & El).
      exists r. split; [apply in_active; [by left|by rewrite Er]|done].
    + done.
    + apply runs_pool_bind_inv in Hr as (rows & H1 & H2); [|apply reads_attempts_where|reading].
      by apply (Hall _ _ H1).
Qed.

(** The two selections evidence is loaded with. *)
Lemma evidence_attempts selection session_id routes now db e :
  runs (load_evidence selection session_id routes) now db db (Ok e) →
  runs (select_attempts selection session_id routes) now db db (Ok (ew_attempts e)) ∧
  runs (select_observed_live_attempts selection session_id routes (ew_attempts e)) now db db
    (Ok (ew_observed_live_attempts e)).
Proof.
  unfold load_evidence, select_journal, journal_list_range, journal_list_since,
    shadow_list_for_attempts, live_artifact_list_for_attempts, submission_list_for_attempts,
    submissions_where. intros Hr.
  pose proof (reads_select_attempts selection session_id routes).
  pose proof (reads_observed_live selection session_id routes).
  pose proof (reads_observed_shadow selection session_id routes).
  pose proof (reads_replay selection).
  repeat (apply runs_pool_bind_inv in Hr as (? & ? & Hr); [|solve [reading]..]).
  match type of Hr with runs (mret ?w) _ _ _ _ =>
    destruct (runs_det _ _ _ _ _ _ _ Hr (runs_ret w now db)) as [_ [= ->]] end.
  done.
Qed.

Lemma clean_evidence selection session_id routes now db e id cols :
  (∀ scenario, selection = LatestForScenario scenario → scenario = VerifyRealUserShadowSmoke) →
  runs (load_evidence selection session_id routes) now db db (Ok e) →
  window_clean PlaneRealUserShadowSmoke e →
  db_execution_attempts db !! id = Some cols → route_is_active (at_route cols) routes = true →
  at_execution_mode cols = execution_mode_to_str Live → ¬ in_window selection session_id id cols.
Proof.
  intros Hs Hr (Ho & Hf & _) Hid Ha Hm Hw. destruct (evidence_attempts _ _ _ _ _ _ Hr) as [H1 H2].
  rewrite Ho in H2. rewrite Forall_forall in Hf.
  destruct session_id as [sid|]; [|destruct selection as [scenario| | |]].
  2: { specialize (Hs _ eq_refl) as ->.
       by apply (observed_live_of_smoke routes (ew_attempts e) now db [] id cols). }
  all: destruct (attempt_selected _ _ _ _ _ _ id cols H1) as (row & Hrow & El);
    try done; by apply (Hf row).
Qed.

Lemma judged_clean args c anchor e lines mode :
  judged args c anchor e = (lines, Ok ()) → vc_mode (vx_control_plane c) = Some mode →
  is_legacy_plane c = false ∧ window_clean mode e.
Proof.
  unfold judged. intros E1 Hm. pose proof (whole_verdict c anchor e) as [Hf _].
  destruct (evaluate_outcome_with_route_reports c anchor e) as [[[v reason] actions] reports].
  simpl in Hf. case_bool_decide as Hv; [done|].
  destruct (foundation_outcome c anchor e (Hf Hv)) as (Hl & _ & Hc & _). split; [done|by apply Hc].
Qed.

Lemma request_of args c now c' selection :
  verify_request args c now = Ok (c', selection) →
  vx_control_plane c' = vx_control_plane c ∧
  ∀ scenario, selection = LatestForScenario scenario → scenario = vx_scenario c.
Proof.
  unfold verify_request, mbind, result_bind. intros E1.
  destruct (match va_expect args with Some value => parse_expectation_override value
            | None => Ok None end) as [expectation|]; [|done].
  destruct (window_from_args _ _ _ _ _ now) as [sel|] eqn:E2; simpl in E1; [|done].
  assert (∀ scenario, sel = LatestForScenario scenario →
            scenario = vx_scenario (match expectation with
              | Some expectation => c <| vx_expectation := expectation |> | None => c end)) as Hs.
  { intros scenario ->. unfold window_from_args in E2.
    repeat (case_match; try done); unfold mbind, result_bind in E2;
      repeat (case_match; try done); by simplify_eq. }
  injection E1 as <- <-. by destruct expectation.
Qed.

(** *** The command *)

Lemma reads_load_window connect file c selection : reads (load_window connect file c selection).
Proof.
  unfold load_window. pose proof reads_resolve_session. pose proof reads_routes.
  pose proof reads_evidence. reading. apply reads_attempt. reading.
Qed.

Lemma reads_verify_context connect file now args c :
  reads (verify_context connect file now args c).
Proof.
  unfold verify_context. destruct (verify_request args c now) as [[c' selection]|]; [|reading].
  apply reads_pooled_bind; [apply reads_attempt, reads_load_window|reading].
Qed.

Lemma loaded_window connect file c selection now db session evidence routes :
  runs (load_window connect file c selection) now db db (Ok (session, evidence, routes)) →
  runs (resolve_session_window c selection) now db db (Ok session) ∧
  runs (load_active_routes file selection session) now db db (Ok routes) ∧
  ∀ e, evidence = Ok e →
    runs (load_evidence selection (selected_session_id session selection)
            (ar_active_routes routes)) now db db (Ok e).
Proof.
  unfold load_window. intros Hr.
  pose proof reads_resolve_session. pose proof reads_routes. pose proof reads_evidence.
  assert (∀ s r, reads (attempt (G := string) (from_repo persistence_text
            (load_evidence selection (selected_session_id s selection) (ar_active_routes r))))) as Ha
    by (intros; apply reads_attempt; reading).
  repeat (apply runs_pooled_bind_inv in Hr as (? & ? & Hr); [|solve [reading]..]).
  apply runs_pooled_ret_inv in Hr. simplify_eq.
  split_and!; [by eapply runs_from_repo_inv|done|].
  intros e ->. eapply runs_from_repo_inv; [done|]. eapply attempt_Ok; [reading|done].
Qed.

End smoke.

(** ** Concrete verifications *)

Module witnesses.
#[local] Existing Instance Micros.
#[local] Existing Instance plain_json.
#[local] Existing Instance plain_pg.
#[local] Existing Instance plain_url.
#[local] Existing Instance plain_serde.
#[local] Existing Instance plain_errors.

(** Durations in microseconds. *)
#[local] Instance plain_chrono : ChronoOps := {
  try_seconds n := Some (n * 1000000)%Z; try_minutes n := Some (n * 60000000)%Z;
  try_hours n := Some (n * 3600000000)%Z; try_days n := Some (n * 86400000000)%Z;
  checked_sub_signed t d := Some (t - d)%Z;
}.

Definition shadow_attempt : ExecutionAttemptRow :=
  {| xr_attempt_id := "attempt-1"; xr_plan_id := "plan-1"; xr_snapshot_id := "snapshot-1";
     xr_route := "neg-risk"; xr_scope := "family-a"; xr_matched_rule_id := None;
     xr_execution_mode := Shadow; xr_attempt_no := 1; xr_idempotency_key := "key-1";
     xr_run_session_id := Some "run-1" |}.

Definition smoke_summary : StatusSummary :=
  {| ssm_mode := Some StatusRealUserShadowSmoke; ssm_readiness := SmokeConfigReady;
     ssm_details := no_details; ssm_actions := [] |}.

Definition smoke_args : VerifyArgs :=
  {| va_config := "config.toml"; va_expect := None; va_from_seq := None; va_to_seq := None;
     va_attempt_id := Some "attempt-1"; va_since := None |}.

Definition smoke_context : VerifyContext :=
  from_summary "config.toml" smoke_summary <| vx_active_routes := ["neg-risk"] |>.

Definition smoke_evidence : VerifyEvidenceWindow :=
  {| ew_attempts := [{| xc_attempt := shadow_attempt; xc_created_at := instant 150 |}];
     ew_observed_live_attempts := []; ew_observed_shadow_attempts := [];
     ew_replay_shadow_attempt_artifacts := []; ew_journal := [];
     ew_shadow_artifacts :=
       [{| xa_attempt_id := "attempt-1"; xa_stream := "neg-risk"; xa_payload := JNull |}];
     ew_live_artifacts := ∅; ew_live_submissions := ∅ |}.


Definition shadow_db : Db :=
  (attempt_append shadow_attempt (quiet (instant 150)) (0%nat, RepoHistory.witnesses.started)).1.2.

Definition smoke_command : Pooled string VerifyEnd :=
  verify_context (Ok ()) None (instant 300) smoke_args (from_summary "config.toml" smoke_summary).

End witnesses.
